(* ===== verification/_CoqProject ===== *)
-Q . S2P
Prelude.v
BigMath.v
Params.v
Opcodes.v
Machine.v
Analysis.v
StateSpec.v
Supply.v
StateRel.v
MachineFacts.v
Vm.v
Precompiles.v
PrecompileFacts.v
Evm.v
Instructions.v
JumpTable.v
Interpreter.v
CallFacts.v
GasFacts.v
ExecFacts.v
OpSafe.v
RunSafe.v
StateObject.v
Statedb.v
StateFinal.v
StateUndo.v
StateRefine.v
StateRevert.v
StateFinalFacts.v
Sample.v
NumTheorems.v
ConfigTheorems.v
StateTheorems.v
FinalTheorems.v
VmTheorems.v
InstrTheorems.v
GasTheorems.v
StateTransition.v
TransitionFacts.v
TxTheorems.v
Managed.v
ManagedTheorems.v
Rlp.v
RlpDecode.v
RlpFacts.v
RlpDecodeFacts.v
RlpTyped.v
RlpRaw.v
RlpWriter.v
RlpTheorems.v
Transaction.v
TxFacts.v
SignTheorems.v
Heap.v
TxList.v
TxListFacts.v
TxPriced.v
PricedFacts.v
TxPool.v
PoolInv.v
PoolAccounts.v
PoolLimits.v
PoolAdd.v
PoolHead.v
PoolOps.v
PoolState.v
PoolSample.v
TxByPrice.v
PoolTheorems.v
BlockTypes.v
BlockFacts.v
Process.v
ProcessFacts.v
Miner.v
BlockSample.v
BlockTheorems.v
