(* ===== verification/Prelude.v ===== *)
(** * Verification of the dsplinz node

    dsplinz is a blockchain node in Go, of the go-ethereum family.  This
    development models the part of it that decides what a transaction and a
    block are and do: transactions, receipts and blocks with their encodings,
    hashes and signatures (rlp, core/types), the pool that collects
    transactions (core/tx_pool.go, core/tx_list.go), the assembly of the next
    block (miner/worker.go), the processing and validation of a block
    (core/state_processor.go, core/block_validator.go, core/evm.go), the
    application of a message to the state (core/state_transition.go,
    core/gaspool.go), the virtual machine (core/vm), the journaled state it
    runs on (core/state), the fork schedule and prices (params), and the
    arithmetic below them (common, common/math).

    ** How the parts interact

    [ApplyMessage] buys gas from the sender, charges the intrinsic gas and
    runs the message as a [Call] or a [Create] of the machine.  These take a
    snapshot of the state, move the value, load the code and run the
    interpreter or a precompiled contract; on an error they revert to the
    snapshot.  The interpreter looks every instruction up in the table of the
    current fork, checks the stack, computes and charges the gas, expands the
    memory and executes; the call instructions call back into [Call] and its
    relatives.  The state keeps accounts in a cache over the account trie and
    writes every change into a journal from which it undoes changes; at the
    end of a transaction [Finalise] moves the changes into the trie, and at
    the end of a block [Commit] writes the trie to the database.

    A transaction arrives as bytes in RLP, the encoding of [EncodeToBytes] and
    [DecodeBytes].  Its hash, and the hash that is signed, are over such
    encodings; its sender is recovered from the signature.  The pool checks a
    transaction against the state of the current head, which it reads through
    a copy with managed nonces, and keeps it in a list of its account:
    pending if it can be executed next, queued otherwise, and in a heap by
    price.

    The worker of the miner takes the pending transactions by price, applies
    them to the state of the current block until its gas limit is reached,
    adds uncles, and leaves rewards and the state root to the consensus
    engine.  Other nodes decode the block, check its roots ([ValidateBody]),
    apply its transactions ([Process]) and compare gas, bloom filter, receipt
    root and state root ([ValidateState]).

    ** Files

    Data and operations (the model):
    - Prelude: outcomes of Go code, 64-bit integers, slices, tactics.
    - BigMath: common/math/big.go and integer.go, common/bytes.go, the hash
      and address conversions of common/types.go.
    - Params: params/protocol_params.go, gas_table.go and config.go.
    - Opcodes: core/vm/opcodes.go.
    - Machine: core/vm/stack.go, stack_table.go, memory.go, memory_table.go,
      common.go, gas.go, errors.go and [memoryGasCost].
    - Analysis: core/vm/analysis.go, with its reference definition and proofs.
    - StateSpec: the interface core/vm/interface.go as the class [StateDB],
      and its contract [StateDBSpec]: a machine that keeps full copies of the
      world.
    - Vm: core/vm/contract.go, the types of evm.go, gas_table.go, and
      [CanTransfer] and [Transfer] of core/evm.go.
    - Precompiles: core/vm/contracts.go.
    - Evm: [Call], [CallCode], [DelegateCall], [StaticCall] and [Create] of
      core/vm/evm.go, over an arbitrary interpreter.
    - Instructions, JumpTable, Interpreter: core/vm/instructions.go,
      jump_table.go and interpreter.go; [Run] ties the knot with Evm.
    - StateObject, Statedb, StateFinal: core/state/state_object.go,
      journal.go and statedb.go; StateFinal has finalisation, commit and
      copies.
    - Managed: core/state/managed_state.go, with its specification.
    - StateTransition: core/state_transition.go and core/gaspool.go.
    - Rlp, RlpWriter: rlp/encode.go; RlpDecode: rlp/decode.go and raw.go.
      A Go type that reflection would find is a value of [rtype].
    - Transaction: core/types/transaction.go and transaction_signing.go.
    - Heap: Go's container/heap, with its specification, and the contract of
      sort.Sort.
    - TxList, TxPriced: core/tx_list.go, and the account set and lookup of
      core/tx_pool.go.
    - TxPool: core/tx_pool.go, over the states as the class [PoolChain].
    - TxByPrice: the iterator [TransactionsByPriceAndNonce] of
      core/types/transaction.go, with the order it is meant to give.
    - BlockTypes: core/types/block.go, receipt.go, log.go, bloom9.go and
      derive_sha.go.
    - Process: core/state_processor.go, core/block_validator.go, the rest of
      core/evm.go, and [NewEVM].
    - Miner: miner/worker.go up to [commitNewWork], with the proofs on it.

    Proofs:
    - StateRel: what an operation may do to a state ([srel]).
    - MachineFacts, PrecompileFacts: bounds on memory and on the work of the
      precompiled contracts.
    - CallFacts, GasFacts, ExecFacts, OpSafe, RunSafe: the invariant of the
      machine, and that calls, gas functions, instructions, table entries,
      iterations and runs keep it; more fuel does not change a result.
    - StateUndo, StateRefine, StateRevert: the journaled state implements
      [StateDBSpec].
    - Supply, TransitionFacts: messages.
    - StateFinalFacts: finalisation, commit and copies.
    - RlpFacts, RlpDecodeFacts, RlpTyped, RlpRaw: the encodings of a type, and
      that the decoder accepts just these.
    - TxFacts: signatures, senders, hashes, caches.
    - TxListFacts, PricedFacts: the lists of an account are maps by nonce, and
      the heap by price covers all transactions.
    - PoolInv, PoolAccounts: the invariant of the pool, every transaction in
      one slot of one list, inside and between operations, and the steps that
      move transactions.  PoolLimits: the limits, eviction and promotion.
      PoolAdd: validation, room, insertion.  PoolHead: new heads.
    - PoolOps: the pool as a transition system with its reachable pools.
    - PoolState: [state.StateDB] and [state.ManagedState] are an instance of
      what the pool asks for ([PoolChainSpec]).
    - BlockFacts: bloom filters as sets of bits; the codecs of headers,
      blocks, logs and receipts.
    - ProcessFacts: transactions one after the other, [GetHashFn], roots.
    - Sample, PoolSample, BlockSample: instances of all parameters, for
      concrete examples.

    Theorems: NumTheorems, ConfigTheorems, StateTheorems, FinalTheorems,
    ManagedTheorems, VmTheorems, InstrTheorems, GasTheorems, TxTheorems,
    RlpTheorems, SignTheorems, PoolTheorems, BlockTheorems.

    ** How the model reads the code

    A Go function is a Rocq function of the same name (methods that would
    clash carry a prefix: [Memory_Set], [so_setCode], [sd_GetBalance]).  A
    function that can panic returns an [outcome].  A [*big.Int] is a [Z], a
    [uint64] a [Z] with its wrap-around written out ([u64]), a [common.Hash]
    or [common.Address] the natural number of its bytes, a byte slice a list
    of bytes, the stack a list with its top first.  State is passed
    explicitly; instructions and gas functions run in a small state and error
    monad over the frame ([M]).  Loops that are not structural have fuel.

    ** What the theorems show

    - VmTheorems: whatever the program, a run ends, does not panic, creates
      no gas and keeps the state well formed; a failed call or creation
      leaves the state as it was; a static call changes nothing.
    - StateTheorems: the journaled state holds the world its operations
      specify, and reverting restores the world of the snapshot.
    - FinalTheorems, ManagedTheorems: finalising, committing, reopening and
      copying a state keep its accounts; managed nonces are consecutive.
    - TxTheorems: a message's gas is accounted for to the unit and creates no
      money; a message to an account without code is a transfer.
    - RlpTheorems: decoding always ends, accepts exactly the encodings, and
      inverts encoding.
    - SignTheorems: the sender of a signed transaction is the signer, and
      other chains refuse it.
    - PoolTheorems: no operation of the pool panics or hangs; transactions
      are neither lost nor listed twice; pending ones are executable in
      order, and what is executable is pending; limits, replacements,
      evictions and reorganisations do what they say; the miner gets the
      best paid ones first.
    - BlockTheorems: no bytes that a peer sends as a block make decoding or
      processing it panic or hang; receipts account for the gas of a block,
      and no money is created; what the miner assembles from the pool are
      transactions of every account in order with their receipts; blocks and
      receipts come back from their encodings; bloom filters hold what was
      logged; the cache of block hashes is transparent; new blocks pass the
      validator.
    - InstrTheorems, GasTheorems, NumTheorems, ConfigTheorems: what the
      arithmetic, memory, gas, precompiled contracts, conversions, jump
      analysis and fork checks compute.
    Some theorems pin down behaviour that differs from what the code means to
    do: [SAR_zero_wrong], [memoryGasCost_wraps], [bigModExp_panics],
    [ecrecover_writes_input], [CreateAccount_unmarked],
    [Copy_after_Commit_panics], [DecodeBytes_hangs], [chain0_wrong_sender],
    [reorg_leaves_gap], [new_queued_evicted], [no_slots_panics],
    [Discard_names_twice], [TestBytes_strips], [NewBlock_keeps_bloom],
    [commitTransaction_keeps_gas], [receipt_status_lost].

    ** Fuel and bounds

    The interpreter gets fuel for its nested calls and its iterations; fuel
    above the gas is enough, because every iteration that continues costs at
    least one unit of gas and a call gets less gas than its caller has left
    ([RunSafe.Run_ok]).  [Run_fuel_irrelevant] says that the amount does not
    matter otherwise.  Gas is assumed below 2^62, code and data below 2^62
    bytes: far above any block gas limit, but below the largest gas a local
    call can be given ([bigModExp_panics] shows that the bound is needed).
    [sort_Search] has its range as fuel, [CheckCompatible] the head block
    plus two, the RLP decoder the depth of the type plus the length of the
    input, and the loops over a heap or an index the number of its elements.
    Rounds that take pending transactions away have their number as fuel, the
    search for a common ancestor the number of the block, the search for a
    block hash that number plus one, and the loop of the miner the number of
    pending transactions.  Processing a block needs fuel for the interpreter
    above its gas limit.  The pool is
    assumed to hold at most 2^24 transactions, up to which a 32-bit floating
    point number, the priority of an account, is exact, and the nonce
    2^64 - 1, whose successor is zero, not to be used.

    ** Assumptions on code outside the repository

    The hash functions, signature recovery and the curve of the pairing
    contracts are the class [Crypto], with output lengths as [CryptoSpec];
    the tries and the code store are the class [Database], with
    [DatabaseSpec] and, for what is written, [TrieSpec]; the signature scheme
    is the class [Ecdsa] with [EcdsaSpec]; the trie that roots are computed
    with is the class [MerkleTrie], the consensus engine the class [Engine],
    whose rewards are not looked into.  The order of iteration over a Go
    map is the class [RangeOrder], the algorithm of sort.Sort [SortOrder]:
    theorems hold for every order.  Theorems that exclude panics assume a hash function
    without collisions: the jump analysis is cached by code hash, and a
    collision would make it index out of range.  File Sample shows that all
    these assumptions can be met together.

    ** What is not modelled

    The pool of reused big integers (intpool.go), tracing (logger.go), errors
    of the underlying database, the storage of blocks and the choice of the
    head (blockchain.go, headerchain.go), the agents and loops of the miner,
    the reflection that finds the type of a Go value, JSON, the journal file,
    event feed and metrics of the transaction pool, and the networking, RPC,
    wallet and command packages, which only drive the modelled core. *)
From stdpp Require Export base tactics numbers list list_numbers gmap sets option fin_maps.
From Stdlib Require Export ZArith Lia.
From Stdlib Require Strings.Byte.

Open Scope Z_scope.

(** ** Outcomes of Go code

    [Done] is a normal return, [GoPanic] a Go run-time panic (index out of
    range, failed type assertion, explicit [panic]), [NoFuel] the artefact of
    a fuel-bounded definition that ran out of fuel. *)
Inductive outcome (A : Type) : Type :=
| Done (a : A)
| GoPanic
| NoFuel.
Arguments Done {A} a.
Arguments GoPanic {A}.
Arguments NoFuel {A}.

Definition outcome_bind {A B} (m : outcome A) (k : A -> outcome B) : outcome B :=
  match m with
  | Done a => k a
  | GoPanic => GoPanic
  | NoFuel => NoFuel
  end.

Declare Scope go_scope.
Delimit Scope go_scope with go.
Notation "'let*' x ':=' m 'in' k" := (outcome_bind m (fun x => k))
  (at level 10, x pattern, m at level 100, k at level 200,
   format "'[v' 'let*'  x  ':='  m  'in' '//' k ']'") : go_scope.
Open Scope go_scope.

(** ** Machine integers *)

Abbreviation two64 := 18446744073709551616 (only parsing).
Abbreviation MaxUint64 := 18446744073709551615 (only parsing).
Abbreviation two63 := 9223372036854775808 (only parsing).

(** Conversion to [uint64] and the wrapping operations on it. *)
Definition u64 (z : Z) : Z := z mod two64.
(** Conversion of a 64-bit pattern to [int64]. *)
Definition i64 (z : Z) : Z := (z + two63) mod two64 - two63.

Definition is_u64 (z : Z) : Prop := 0 <= z < two64.

(** ** Bytes *)

Abbreviation byte := Corelib.Init.Byte.byte.
Abbreviation bytes := (list Corelib.Init.Byte.byte).

Definition b2z (b : byte) : Z := Z.of_N (Byte.to_N b).
Definition z2b (z : Z) : byte :=
  match Byte.of_N (Z.to_N (z mod 256)) with
  | Some b => b
  | None => Byte.x00
  end.

#[export] Instance byte_eq_dec : EqDecision byte := Byte.byte_eq_dec.

(** Go's [len]. *)
Definition len {A} (l : list A) : Z := Z.of_nat (length l).

(** [make([]byte, n)]. *)
Definition zeros (n : Z) : bytes := replicate (Z.to_nat n) Byte.x00.

(** The slice expression [l[a:b]]; it panics unless [0 <= a <= b <= len l].
    (Go checks [b] against the capacity; every slice expression of the
    modelled code is shown to stay within the length.) *)
Definition slice {A} (l : list A) (a b : Z) : outcome (list A) :=
  if (0 <=? a) && (a <=? b) && (b <=? len l)
  then Done (take (Z.to_nat (b - a)) (drop (Z.to_nat a) l))
  else GoPanic.

(** The index expression [l[i]]. *)
Definition index {A} (l : list A) (i : Z) : outcome A :=
  if 0 <=? i
  then match l !! Z.to_nat i with Some x => Done x | None => GoPanic end
  else GoPanic.

(** The built-in [copy(dst[off:], src)], for [0 <= off <= len dst]. *)
Definition copy_at (dst : bytes) (off : Z) (src : bytes) : bytes :=
  let n := Z.to_nat off in
  take n dst ++ take (length dst - n) src ++ drop (n + length src) dst.

(** ** Maps

    [range m] is the order in which a [for ... range] loop visits the entries
    of a map.  Go leaves it open; theorems hold for every order. *)
Class RangeOrder := {
  range : forall {K V} `{Countable K}, gmap K V -> list (K * V);
  range_perm : forall {K V} `{Countable K} (m : gmap K V), range m ≡ₚ map_to_list m
}.

(** ** Automation *)

(** [lia] with division and modulo turned into equations. *)
Ltac zlia := Z.to_euclidean_division_equations; lia.

(** Case analysis on every boolean comparison of the goal and hypotheses. *)
Ltac bool_cases :=
  repeat match goal with
  | |- context [Z.eqb ?x ?y] => destruct (Z.eqb_spec x y)
  | |- context [Z.leb ?x ?y] => destruct (Z.leb_spec x y)
  | |- context [Z.ltb ?x ?y] => destruct (Z.ltb_spec x y)
  | H : context [Z.eqb ?x ?y] |- _ => destruct (Z.eqb_spec x y)
  | H : context [Z.leb ?x ?y] |- _ => destruct (Z.leb_spec x y)
  | H : context [Z.ltb ?x ?y] |- _ => destruct (Z.ltb_spec x y)
  end.

Create HintDb bytes_db.

(** ** Lemmas on machine integers *)

Lemma u64_small z : is_u64 z -> u64 z = z.
Proof. intros H. apply Z.mod_small, H. Qed.

Lemma u64_range z : is_u64 (u64 z).
Proof. apply Z.mod_pos_bound. lia. Qed.

Lemma i64_small z : - two63 <= z < two63 -> i64 z = z.
Proof. intros H. unfold i64. rewrite Z.mod_small; lia. Qed.

(** ** Lemmas on bytes *)

Lemma b2z_range b : 0 <= b2z b < 256.
Proof. pose proof (Byte.to_N_bounded b). unfold b2z. lia. Qed.

Lemma b2z_z2b z : b2z (z2b z) = z mod 256.
Proof.
  unfold b2z, z2b. pose proof (Z.mod_pos_bound z 256 ltac:(lia)).
  destruct (Byte.of_N (Z.to_N (z mod 256))) as [b|] eqn:E.
  - apply Byte.to_of_N in E. lia.
  - apply Byte.of_N_None_iff in E. lia.
Qed.

Lemma z2b_b2z b : z2b (b2z b) = b.
Proof.
  unfold z2b. rewrite Z.mod_small by apply b2z_range.
  unfold b2z. rewrite N2Z.id. by rewrite Byte.of_to_N.
Qed.

Lemma b2z_inj b1 b2 : b2z b1 = b2z b2 -> b1 = b2.
Proof. intros E. by rewrite <-(z2b_b2z b1), E, z2b_b2z. Qed.

Lemma b2z_nonneg b : 0 <= b2z b.
Proof. apply b2z_range. Qed.
#[export] Hint Resolve b2z_nonneg : bytes_db.

(** ** Lemmas on maps *)

Section RangeFacts.
Context {RO : RangeOrder} {K V : Type} `{Countable K}.
Implicit Type m : gmap K V.

Lemma elem_of_range m k v : (k, v) ∈ range m <-> m !! k = Some v.
Proof. by rewrite range_perm, elem_of_map_to_list. Qed.
Lemma NoDup_range_keys m : NoDup (range m).*1.
Proof. rewrite range_perm. apply NoDup_fst_map_to_list. Qed.
Lemma elem_of_range_keys m k : k ∈ (range m).*1 <-> is_Some (m !! k).
Proof.
  rewrite list_elem_of_fmap. split.
  - intros ([k' v] & -> & Hk%elem_of_range). by exists v.
  - intros [v Hv]. exists (k, v). by rewrite elem_of_range.
Qed.
Lemma length_range m : length (range m) = size m.
Proof. by rewrite range_perm, length_map_to_list. Qed.
End RangeFacts.

(** ** Lemmas on slices *)

Lemma len_nonneg {A} (l : list A) : 0 <= len l.
Proof. unfold len. lia. Qed.
#[export] Hint Resolve len_nonneg : bytes_db.

Lemma len_app {A} (l k : list A) : len (l ++ k) = len l + len k.
Proof. unfold len. rewrite length_app. lia. Qed.
Lemma len_cons {A} (x : A) l : len (x :: l) = 1 + len l.
Proof. unfold len. simpl. lia. Qed.

Lemma len_zeros n : 0 <= n -> len (zeros n) = n.
Proof. intros. unfold len, zeros. rewrite length_replicate. lia. Qed.

Lemma slice_done {A} (l : list A) a b :
  0 <= a <= b -> b <= len l ->
  slice l a b = Done (take (Z.to_nat (b - a)) (drop (Z.to_nat a) l)).
Proof. intros. unfold slice. bool_cases; simpl; try done; lia. Qed.

Lemma len_take_drop {A} (l : list A) a b :
  0 <= a <= b -> b <= len l ->
  len (take (Z.to_nat (b - a)) (drop (Z.to_nat a) l)) = b - a.
Proof. unfold len. intros. rewrite length_take, length_drop. lia. Qed.

Lemma index_done {A} (l : list A) i :
  0 <= i < len l -> exists x, index l i = Done x /\ l !! Z.to_nat i = Some x.
Proof.
  unfold len, index. intros H.
  destruct (lookup_lt_is_Some_2 l (Z.to_nat i)) as [x Hx]; [lia|].
  exists x. rewrite Hx. bool_cases; [done|lia].
Qed.

Lemma len_copy_at dst off src :
  0 <= off <= len dst -> len (copy_at dst off src) = len dst.
Proof.
  unfold len, copy_at. intros.
  rewrite !length_app, !length_take, length_drop. lia.
Qed.
