(* ===== verification/BigMath.v ===== *)
(** Big integers: the part of [math/big] the node uses, and the packages
    common/math (big.go, integer.go), common/bytes.go and the array types
    of common/types.go.

    A [*big.Int] is its value in [Z].  A [common.Hash] or [common.Address]
    (arrays of 32 and 20 bytes) is the number its bytes spell big-endian, in
    [N]; [BytesToHash] goes through the array. *)
From S2P Require Import Prelude.

(** ** math/big *)

Definition BitLen (x : Z) : Z := if x =? 0 then 0 else Z.log2 (Z.abs x) + 1.
Definition Sign (x : Z) : Z := Z.sgn x.

(** [x.SetBytes(buf)]: big-endian. *)
Definition big_SetBytes (l : bytes) : Z :=
  fold_left (fun acc b => acc * 256 + b2z b) l 0.

(** The [n] low-order bytes of [z], big-endian. *)
Fixpoint be_fixed (n : nat) (z : Z) : bytes :=
  match n with
  | O => []
  | S n' => be_fixed n' (z / 256) ++ [z2b z]
  end.

(** [x.Bytes()]: the absolute value, big-endian, without leading zeros. *)
Definition big_Bytes (x : Z) : bytes :=
  be_fixed (Z.to_nat ((BitLen x + 7) / 8)) (Z.abs x).

(** [x.Bits()]: the absolute value as little-endian 64-bit words, normalised. *)
Fixpoint words (n : nat) (z : Z) : list Z :=
  match n with
  | O => []
  | S n' => z mod two64 :: words n' (z / two64)
  end.
Definition big_Bits (x : Z) : list Z :=
  words (Z.to_nat ((BitLen x + 63) / 64)) (Z.abs x).

(** [x.Uint64()] is the low 64 bits of the absolute value; [x.Int64()] is the
    same pattern as a signed word, negated (wrapping) when [x] is negative. *)
Definition big_Uint64 (x : Z) : Z := u64 (Z.abs x).
Definition big_Int64 (x : Z) : Z := i64 x.

(** [x.Div] and [x.Mod] (Euclidean) with a positive divisor. *)
Definition big_Div (x y : Z) : Z := x / y.
Definition big_Mod (x y : Z) : Z := x mod y.

(** ** common/math/big.go *)

Definition tt255 : Z := 2 ^ 255.
Definition tt256 : Z := 2 ^ 256.
Definition tt256m1 : Z := tt256 - 1.
Definition wordBits : nat := 64.
Definition wordBytes : Z := 8.

Definition BigMax (x y : Z) : Z := if x <? y then y else x.
Definition BigMin (x y : Z) : Z := if y <? x then y else x.

(** The loop of [FirstBitSet], with the number of iterations left. *)
Fixpoint FirstBitSet_loop (v : Z) (i : Z) (n : nat) : Z :=
  match n with
  | O => BitLen v
  | S n' => if Z.testbit v i then i else FirstBitSet_loop v (i + 1) n'
  end.
Definition FirstBitSet (v : Z) : Z := FirstBitSet_loop v 0 (Z.to_nat (BitLen v)).

(** The inner loop of [ReadBits]: at most [j] bytes of the word [d] go to
    positions [i-1], [i-2], ... of the buffer. *)
Fixpoint ReadBits_word (j : nat) (d : Z) (i : nat) (buf : bytes) : nat * bytes :=
  match j, i with
  | S j', S i' => ReadBits_word j' (Z.shiftr d 8) i' (<[i' := z2b d]> buf)
  | _, _ => (i, buf)
  end.
Fixpoint ReadBits_words (ds : list Z) (i : nat) (buf : bytes) : bytes :=
  match ds with
  | [] => buf
  | d :: ds' =>
      let '(i', buf') := ReadBits_word (Z.to_nat wordBytes) d i buf in
      ReadBits_words ds' i' buf'
  end.
Definition ReadBits (bigint : Z) (buf : bytes) : bytes :=
  ReadBits_words (big_Bits bigint) (length buf) buf.

Definition PaddedBigBytes (bigint : Z) (n : Z) : bytes :=
  if n <=? BitLen bigint / 8 then big_Bytes bigint
  else ReadBits bigint (zeros n).

Definition bigEndianByteAt (bigint : Z) (n : Z) : outcome byte :=
  let ws := big_Bits bigint in
  let i := n / wordBytes in
  if len ws <=? i then Done Byte.x00
  else let* word := index ws i in
       Done (z2b (Z.shiftr word (8 * (n mod wordBytes)))).

Definition math_Byte (bigint padlength n : Z) : outcome byte :=
  if padlength <=? n then Done Byte.x00
  else bigEndianByteAt bigint (padlength - 1 - n).

Definition U256 (x : Z) : Z := Z.land x tt256m1.
Definition S256 (x : Z) : Z := if x <? tt255 then x else x - tt256.

(** [Exp] squares [base] in place, so the model returns the result and the
    final value of [base]. *)
Fixpoint Exp_word (n : nat) (word result base : Z) : Z * Z :=
  match n with
  | O => (result, base)
  | S n' =>
      let result' := if Z.land word 1 =? 1 then U256 (result * base) else result in
      Exp_word n' (Z.shiftr word 1) result' (U256 (base * base))
  end.
Fixpoint Exp_words (ws : list Z) (result base : Z) : Z * Z :=
  match ws with
  | [] => (result, base)
  | w :: ws' => let '(r, b) := Exp_word wordBits w result base in Exp_words ws' r b
  end.
Definition math_Exp (base exponent : Z) : Z * Z := Exp_words (big_Bits exponent) 1 base.

(** ** common/math/integer.go *)

Definition SafeSub (x y : Z) : Z * bool := (u64 (x - y), x <? y).
Definition SafeAdd (x y : Z) : Z * bool := (u64 (x + y), MaxUint64 - x <? y).
Definition SafeMul (x y : Z) : Z * bool :=
  if (x =? 0) || (y =? 0) then (0, false)
  else (u64 (x * y), MaxUint64 / x <? y).

(** ** common/bytes.go *)

Definition RightPadBytes (slice : bytes) (l : Z) : bytes :=
  if l <=? len slice then slice else copy_at (zeros l) 0 slice.
Definition LeftPadBytes (slice : bytes) (l : Z) : bytes :=
  if l <=? len slice then slice else copy_at (zeros l) (l - len slice) slice.

(** ** common/types.go *)

Definition Hash := N.
Definition Address := N.
Definition HashLength : Z := 32.
Definition AddressLength : Z := 20.

(** [h.SetBytes(b)] on a zeroed array. *)
Definition Hash_SetBytes (b : bytes) : bytes :=
  let b' := if HashLength <? len b then drop (Z.to_nat (len b - HashLength)) b else b in
  copy_at (zeros HashLength) (HashLength - len b') b'.
Definition Address_SetBytes (b : bytes) : bytes :=
  let b' := if AddressLength <? len b then drop (Z.to_nat (len b - AddressLength)) b else b in
  copy_at (zeros AddressLength) (AddressLength - len b') b'.

Definition BytesToHash (b : bytes) : Hash := Z.to_N (big_SetBytes (Hash_SetBytes b)).
Definition BytesToAddress (b : bytes) : Address := Z.to_N (big_SetBytes (Address_SetBytes b)).
Definition BigToHash (b : Z) : Hash := BytesToHash (big_Bytes b).
Definition BigToAddress (b : Z) : Address := BytesToAddress (big_Bytes b).
Definition Hash_Big (h : Hash) : Z := Z.of_N h.
Definition Address_Big (a : Address) : Z := Z.of_N a.
Definition Hash_Bytes (h : Hash) : bytes := be_fixed 32 (Z.of_N h).
Definition Address_Bytes (a : Address) : bytes := be_fixed 20 (Z.of_N a).
Definition EmptyHash (h : Hash) : bool := (h =? 0)%N.

(** ** Byte strings and numbers *)

Lemma big_SetBytes_acc l : forall acc,
  fold_left (fun a b => a * 256 + b2z b) l acc = acc * 256 ^ len l + big_SetBytes l.
Proof.
  unfold big_SetBytes. induction l as [|b l IH]; intros acc; cbn [fold_left].
  - change (len []) with 0. lia.
  - rewrite IH, (IH (0 * 256 + b2z b)).
    replace (len (b :: l)) with (1 + len l) by (unfold len; simpl length; lia).
    rewrite Z.pow_add_r by (pose proof (len_nonneg l); lia). lia.
Qed.

Lemma big_SetBytes_app l k :
  big_SetBytes (l ++ k) = big_SetBytes l * 256 ^ len k + big_SetBytes k.
Proof. unfold big_SetBytes at 1. rewrite fold_left_app. apply big_SetBytes_acc. Qed.

Lemma big_SetBytes_range l : 0 <= big_SetBytes l < 256 ^ len l.
Proof.
  induction l as [|b l IH] using rev_ind; [unfold big_SetBytes, len; simpl; lia|].
  rewrite big_SetBytes_app, len_app. change (len [b]) with 1.
  rewrite Z.pow_add_r by (pose proof (len_nonneg l); lia).
  replace (big_SetBytes [b]) with (b2z b) by (unfold big_SetBytes; simpl; lia).
  pose proof (b2z_range b). lia.
Qed.

Lemma big_SetBytes_nonneg l : 0 <= big_SetBytes l.
Proof. apply big_SetBytes_range. Qed.
#[export] Hint Resolve big_SetBytes_nonneg : bytes_db.

Lemma big_SetBytes_replicate0 n : big_SetBytes (replicate n Byte.x00) = 0.
Proof.
  induction n as [|n IH]; [done|].
  replace (replicate (S n) Byte.x00) with ([Byte.x00] ++ replicate n Byte.x00) by done.
  rewrite big_SetBytes_app, IH. unfold big_SetBytes, b2z. simpl. lia.
Qed.

Lemma length_be_fixed n z : length (be_fixed n z) = n.
Proof.
  revert z. induction n as [|n IH]; intros z; simpl; [done|].
  rewrite length_app, IH. simpl. lia.
Qed.

Lemma len_be_fixed n z : len (be_fixed n z) = Z.of_nat n.
Proof. unfold len. by rewrite length_be_fixed. Qed.

Lemma big_SetBytes_be_fixed n z : big_SetBytes (be_fixed n z) = z mod 256 ^ Z.of_nat n.
Proof.
  revert z. induction n as [|n IH]; intros z.
  - simpl. rewrite Z.mod_1_r. done.
  - cbn [be_fixed]. rewrite big_SetBytes_app, IH. change (len [z2b z]) with 1.
    replace (big_SetBytes [z2b z]) with (z mod 256)
      by (unfold big_SetBytes; simpl; rewrite b2z_z2b; lia).
    rewrite Nat2Z.inj_succ, Z.pow_succ_r by lia.
    rewrite Z.rem_mul_r by lia. lia.
Qed.

Lemma be_fixed_big_SetBytes l : be_fixed (length l) (big_SetBytes l) = l.
Proof.
  induction l as [|b l IH] using rev_ind; [done|].
  rewrite length_app, Nat.add_comm. cbn [be_fixed Nat.add length].
  rewrite big_SetBytes_app. change (len [b]) with 1.
  replace (big_SetBytes [b]) with (b2z b) by (unfold big_SetBytes; simpl; lia).
  pose proof (b2z_range b).
  replace ((big_SetBytes l * 256 ^ 1 + b2z b) / 256) with (big_SetBytes l) by zlia.
  rewrite IH. f_equal. f_equal. apply b2z_inj.
  rewrite b2z_z2b. zlia.
Qed.

Lemma BitLen_nonneg x : 0 <= BitLen x.
Proof. unfold BitLen. bool_cases; [lia|]. pose proof (Z.log2_nonneg (Z.abs x)). lia. Qed.

(** [BitLen x] is the least [n] with [|x| < 2^n]. *)
Lemma BitLen_spec x n : 0 <= n -> BitLen x <= n <-> Z.abs x < 2 ^ n.
Proof.
  intros Hn. unfold BitLen. bool_cases.
  - subst. simpl. split; intros; [apply Z.pow_pos_nonneg; lia|lia].
  - pose proof (Z.log2_lt_pow2 (Z.abs x) n ltac:(lia)). lia.
Qed.

Lemma BitLen_bound x : Z.abs x < 2 ^ BitLen x.
Proof. apply BitLen_spec; [apply BitLen_nonneg|lia]. Qed.

Lemma big_Bytes_value x : big_SetBytes (big_Bytes x) = Z.abs x.
Proof.
  unfold big_Bytes. rewrite big_SetBytes_be_fixed.
  pose proof (BitLen_nonneg x). pose proof (BitLen_bound x) as Hb.
  rewrite Z2Nat.id by (apply Z.div_pos; lia).
  apply Z.mod_small. split; [lia|].
  eapply Z.lt_le_trans; [exact Hb|].
  change 256 with (2 ^ 8). rewrite <-Z.pow_mul_r by zlia.
  apply Z.pow_le_mono_r; zlia.
Qed.

Lemma len_big_Bytes x : len (big_Bytes x) = (BitLen x + 7) / 8.
Proof.
  unfold big_Bytes. rewrite len_be_fixed, Z2Nat.id; [done|].
  pose proof (BitLen_nonneg x). zlia.
Qed.

(** The words of a number, read back. *)
Fixpoint words_value (ws : list Z) : Z :=
  match ws with
  | [] => 0
  | w :: ws' => w + two64 * words_value ws'
  end.

Lemma words_value_words n z : 0 <= z -> words_value (words n z) = z mod two64 ^ Z.of_nat n.
Proof.
  revert z. induction n as [|n IH]; intros z Hz; [simpl; by rewrite Z.mod_1_r|].
  cbn [words words_value]. rewrite IH by zlia.
  rewrite Nat2Z.inj_succ, Z.pow_succ_r by lia. rewrite Z.rem_mul_r by lia. lia.
Qed.

Lemma big_Bits_value x : words_value (big_Bits x) = Z.abs x.
Proof.
  unfold big_Bits. rewrite words_value_words by lia.
  pose proof (BitLen_nonneg x). pose proof (BitLen_bound x) as Hb.
  rewrite Z2Nat.id by (apply Z.div_pos; lia).
  apply Z.mod_small. split; [lia|].
  eapply Z.lt_le_trans; [exact Hb|].
  change two64 with (2 ^ 64). rewrite <-Z.pow_mul_r by zlia.
  apply Z.pow_le_mono_r; zlia.
Qed.

Lemma words_bounds n z : Forall is_u64 (words n z).
Proof.
  revert z. induction n as [|n IH]; intros z; simpl; constructor; [|apply IH].
  apply Z.mod_pos_bound. lia.
Qed.

Lemma length_words n z : length (words n z) = n.
Proof. revert z. induction n as [|n IH]; intros z; simpl; [done|]. by rewrite IH. Qed.

Lemma words_lookup n z i : 0 <= z -> (i < n)%nat ->
  words n z !! i = Some (z / two64 ^ Z.of_nat i mod two64).
Proof.
  revert z i. induction n as [|n IH]; intros z i Hz Hi; [lia|].
  destruct i as [|i]; simpl.
  - by rewrite Z.div_1_r.
  - rewrite IH by (try zlia; lia). rewrite Z.div_div by lia.
    change (Z.pos (Pos.of_succ_nat i)) with (Z.of_nat (S i)).
    rewrite Nat2Z.inj_succ, Z.pow_succ_r by lia. done.
Qed.

(** ** U256 and S256 *)

Lemma U256_mod x : U256 x = x mod 2 ^ 256.
Proof.
  unfold U256. replace tt256m1 with (Z.ones 256) by reflexivity.
  apply Z.land_ones. lia.
Qed.

Lemma U256_range x : 0 <= U256 x < 2 ^ 256.
Proof. rewrite U256_mod. apply Z.mod_pos_bound. lia. Qed.

Lemma U256_nonneg x : 0 <= U256 x.
Proof. apply U256_range. Qed.
#[export] Hint Resolve U256_nonneg : bytes_db.

Lemma U256_small x : 0 <= x < 2 ^ 256 -> U256 x = x.
Proof. intros. rewrite U256_mod. by apply Z.mod_small. Qed.

(** ** Exponentiation by squaring *)

Lemma mod_pow_idemp b e m : 0 < m -> 0 <= e -> (b mod m) ^ e mod m = b ^ e mod m.
Proof.
  intros Hm. revert e. apply natlike_ind; [done|].
  intros e He IH. rewrite !Z.pow_succ_r by done.
  rewrite Z.mul_mod, IH, <-Z.mul_mod, Z.mul_mod_idemp_l by lia. done.
Qed.

Lemma Exp_word_spec n : forall w r b e,
  0 <= w < 2 ^ Z.of_nat n -> 0 <= e ->
  let '(r', b') := Exp_word n w r b in
  r' * b' ^ e mod 2 ^ 256 = r * b ^ (w + 2 ^ Z.of_nat n * e) mod 2 ^ 256.
Proof.
  induction n as [|n IH]; intros w r b e Hw He.
  - cbn [Exp_word]. change (2 ^ Z.of_nat 0) with 1 in *.
    replace (w + 1 * e) with e by lia. done.
  - rewrite Nat2Z.inj_succ, Z.pow_succ_r in * by lia. cbn [Exp_word].
    assert (Hs : Z.shiftr w 1 = w / 2) by (rewrite Z.shiftr_div_pow2; [done|lia]).
    assert (H1 : Z.land w 1 = w mod 2) by (change 1 with (Z.ones 1); apply Z.land_ones; lia).
    rewrite Hs, H1.
    set (r1 := if w mod 2 =? 1 then U256 (r * b) else r).
    specialize (IH (w / 2) r1 (U256 (b * b)) e ltac:(zlia) He).
    destruct (Exp_word n (w / 2) r1 (U256 (b * b))) as [r' b'].
    rewrite IH, U256_mod. clear IH.
    assert (Hp : 0 < 2 ^ Z.of_nat n) by (apply Z.pow_pos_nonneg; lia).
    set (k := w / 2 + 2 ^ Z.of_nat n * e).
    assert (Hk : 0 <= k) by (unfold k; zlia).
    rewrite <-Z.mul_mod_idemp_r, mod_pow_idemp, Z.mul_mod_idemp_r by lia.
    replace (b * b) with (b ^ 2) by lia. rewrite <-Z.pow_mul_r by lia.
    unfold r1. bool_cases.
    + replace (w + 2 * 2 ^ Z.of_nat n * e) with (1 + 2 * k) by (unfold k; zlia).
      rewrite Z.pow_add_r, Z.pow_1_r, U256_mod, Z.mul_mod_idemp_l by lia.
      by rewrite Z.mul_assoc.
    + by replace (w + 2 * 2 ^ Z.of_nat n * e) with (2 * k) by (unfold k; zlia).
Qed.

Lemma Exp_words_spec ws : forall r b,
  Forall is_u64 ws ->
  fst (Exp_words ws r b) mod 2 ^ 256 = r * b ^ words_value ws mod 2 ^ 256.
Proof.
  induction ws as [|w ws IH]; intros r b Hws; cbn [Exp_words words_value].
  - simpl fst. rewrite Z.pow_0_r. f_equal. lia.
  - inversion_clear Hws as [|? ? Hw Hws'].
    assert (0 <= words_value ws).
    { clear -Hws'. induction Hws' as [|x l Hx _ IH]; simpl; [lia|]. unfold is_u64 in Hx. lia. }
    pose proof (Exp_word_spec wordBits w r b (words_value ws) Hw ltac:(done)) as E.
    destruct (Exp_word wordBits w r b) as [r' b'].
    rewrite IH by done. rewrite E. done.
Qed.

Lemma Exp_word_range n : forall w r b,
  0 <= r < 2 ^ 256 -> 0 <= fst (Exp_word n w r b) < 2 ^ 256.
Proof.
  induction n as [|n IH]; intros w r b Hr; [done|].
  cbn [Exp_word]. apply IH. bool_cases; [apply U256_range|done].
Qed.

Lemma Exp_words_range ws : forall r b,
  0 <= r < 2 ^ 256 -> 0 <= fst (Exp_words ws r b) < 2 ^ 256.
Proof.
  induction ws as [|w ws IH]; intros r b Hr; [done|].
  cbn [Exp_words]. pose proof (Exp_word_range wordBits w r b Hr) as H.
  destruct (Exp_word wordBits w r b) as [r' b']. by apply IH.
Qed.

Lemma math_Exp_nonneg b e : 0 <= fst (math_Exp b e).
Proof. apply Exp_words_range. lia. Qed.
#[export] Hint Resolve math_Exp_nonneg : bytes_db.

(** The exponentiation loop computes the power modulo [2^256]. *)
Lemma math_Exp_pow b e : 0 <= e -> fst (math_Exp b e) = b ^ e mod 2 ^ 256.
Proof.
  intros He. unfold math_Exp.
  rewrite <-(Z.mod_small (fst _) (2 ^ 256)) by (apply Exp_words_range; lia).
  rewrite Exp_words_spec by apply words_bounds.
  rewrite big_Bits_value, Z.abs_eq by done. f_equal. lia.
Qed.

(** ** Bytes of a big integer *)

Lemma Z_shift_byte x k : 0 <= x -> 0 <= k ->
  x / two64 ^ (k / 8) mod two64 / 2 ^ (8 * (k mod 8)) mod 256 = x / 256 ^ k mod 256.
Proof.
  intros Hx Hk.
  change two64 with (2 ^ 64). rewrite <-Z.pow_mul_r by zlia.
  rewrite <-!Z.shiftr_div_pow2 by zlia.
  change 256 with (2 ^ 8) at 2. rewrite <-Z.pow_mul_r by lia.
  rewrite <-(Z.shiftr_div_pow2 x) by lia. change 256 with (2 ^ 8).
  rewrite <-!Z.land_ones by lia.
  apply Z.bits_inj'. intros n Hn.
  rewrite !Z.land_spec, !Z.testbit_ones_nonneg by lia.
  destruct (Z.ltb_spec n 8); [|by rewrite !andb_false_r].
  rewrite !andb_true_r, !Z.shiftr_spec, Z.land_spec, Z.testbit_ones_nonneg by zlia.
  rewrite Z.shiftr_spec by zlia.
  destruct (Z.ltb_spec (n + 8 * (k mod 8)) 64); [|zlia].
  rewrite andb_true_r. f_equal. zlia.
Qed.

Lemma bigEndianByteAt_spec x n :
  0 <= x -> 0 <= n -> bigEndianByteAt x n = Done (z2b (x / 256 ^ n)).
Proof.
  intros Hx Hn. unfold bigEndianByteAt, big_Bits, len, wordBytes.
  rewrite length_words. pose proof (BitLen_nonneg x). rewrite Z2Nat.id by zlia.
  destruct (Z.leb_spec ((BitLen x + 63) / 64) (n / 8)) as [Hle|Hlt].
  - f_equal. apply b2z_inj. rewrite b2z_z2b. rewrite Z.div_small; [done|]. split; [done|].
    pose proof (BitLen_bound x). rewrite Z.abs_eq in * by done.
    eapply Z.lt_le_trans; [done|].
    change 256 with (2 ^ 8). rewrite <-Z.pow_mul_r by lia.
    apply Z.pow_le_mono_r; zlia.
  - unfold index. destruct (Z.leb_spec 0 (n / 8)); [|zlia].
    rewrite words_lookup by (try lia; zlia). cbn [outcome_bind]. f_equal.
    apply b2z_inj. rewrite !b2z_z2b, Z2Nat.id by lia.
    rewrite Z.shiftr_div_pow2, Z.abs_eq by zlia. by apply Z_shift_byte.
Qed.

Lemma be_fixed_mod n : forall z, be_fixed n (z mod 256 ^ Z.of_nat n) = be_fixed n z.
Proof.
  induction n as [|n IH]; intros z; [done|].
  cbn [be_fixed]. rewrite Nat2Z.inj_succ, Z.pow_succ_r by lia.
  assert (Hp : 0 < 256 ^ Z.of_nat n) by (apply Z.pow_pos_nonneg; lia).
  rewrite (Z.rem_mul_r z 256) by lia.
  replace ((z mod 256 + 256 * ((z / 256) mod 256 ^ Z.of_nat n)) / 256)
    with ((z / 256) mod 256 ^ Z.of_nat n)
    by (apply (Z.div_unique_pos _ 256 _ (z mod 256)); [zlia|lia]).
  rewrite IH. f_equal. f_equal. apply b2z_inj. rewrite !b2z_z2b.
  rewrite Z.mul_comm, Z.mod_add, Z.mod_mod by lia. done.
Qed.

Lemma be_fixed_app a b : forall z,
  be_fixed (a + b) z = be_fixed a (z / 256 ^ Z.of_nat b) ++ be_fixed b z.
Proof.
  induction b as [|b IH]; intros z.
  - rewrite Nat.add_0_r, app_nil_r. change (256 ^ Z.of_nat 0) with 1. by rewrite Z.div_1_r.
  - rewrite Nat.add_succ_r. cbn [be_fixed]. rewrite IH, app_assoc.
    rewrite Z.div_div by (try lia; apply Z.pow_pos_nonneg; lia).
    by rewrite Nat2Z.inj_succ, Z.pow_succ_r by lia.
Qed.

Lemma be_fixed_eqm n z z' :
  z mod 256 ^ Z.of_nat n = z' mod 256 ^ Z.of_nat n -> be_fixed n z = be_fixed n z'.
Proof. intros E. by rewrite <-be_fixed_mod, E, be_fixed_mod. Qed.

Lemma be_fixed_zero n : be_fixed n 0 = replicate n Byte.x00.
Proof. induction n as [|n IH]; [done|]. cbn [be_fixed]. change (0 / 256) with 0. rewrite IH. symmetry. apply replicate_cons_app. Qed.

Lemma ReadBits_word_spec j : forall d i buf,
  (i <= length buf)%nat ->
  ReadBits_word j d i buf =
    ((i - j)%nat, take (i - j) buf ++ be_fixed (i - (i - j)) d ++ drop i buf).
Proof.
  induction j as [|j IH]; intros d i buf Hi.
  - simpl. rewrite Nat.sub_0_r, Nat.sub_diag. simpl. by rewrite take_drop.
  - destruct i as [|i]; [done|].
    cbn [ReadBits_word]. rewrite IH by (rewrite length_insert; lia).
    change (S i - S j)%nat with (i - j)%nat. f_equal.
    replace (S i - (i - j))%nat with (S (i - (i - j)))%nat by lia.
    cbn [be_fixed]. rewrite take_insert_ge by lia. rewrite Z.shiftr_div_pow2 by lia.
    change (2 ^ 8) with 256. rewrite <-!app_assoc. do 2 f_equal.
    rewrite (drop_S _ (z2b d) i) by (apply list_lookup_insert_eq; lia).
    rewrite drop_insert_lt by lia. done.
Qed.

Lemma be_fixed_word i d v : 0 <= d < two64 -> 0 <= v ->
  be_fixed i (d + two64 * v) = be_fixed (i - 8) v ++ be_fixed (i - (i - 8)) d.
Proof.
  intros Hd Hv.
  replace (be_fixed i) with (be_fixed ((i - 8) + (i - (i - 8)))) by (f_equal; lia).
  rewrite be_fixed_app.
  destruct (decide (i <= 8)%nat) as [Hle|Hgt].
  - replace (i - 8)%nat with 0%nat by lia. rewrite Nat.sub_0_r. simpl.
    apply be_fixed_eqm.
    replace two64 with (256 ^ (8 - Z.of_nat i) * 256 ^ Z.of_nat i)
      by (rewrite <-Z.pow_add_r by lia; replace (8 - Z.of_nat i + Z.of_nat i) with 8 by lia; done).
    rewrite (Z.mul_comm (_ * _)), Z.mul_assoc, Z.mod_add by (apply Z.pow_nonzero; lia).
    done.
  - replace (i - (i - 8))%nat with 8%nat by lia. change (256 ^ Z.of_nat 8) with two64.
    f_equal; [f_equal; zlia|]. apply be_fixed_eqm. change (256 ^ Z.of_nat 8) with two64.
    zlia.
Qed.

Lemma words_value_nonneg ws : Forall is_u64 ws -> 0 <= words_value ws.
Proof. induction 1 as [|x l Hx _ IH]; simpl; [lia|]. unfold is_u64 in Hx. lia. Qed.

Lemma ReadBits_words_spec ds : forall i buf,
  (i <= length buf)%nat -> Forall is_u64 ds -> take i buf = replicate i Byte.x00 ->
  ReadBits_words ds i buf = be_fixed i (words_value ds) ++ drop i buf.
Proof.
  induction ds as [|d ds IH]; intros i buf Hi Hds Hz; cbn [ReadBits_words words_value].
  - by rewrite be_fixed_zero, <-Hz, take_drop.
  - inversion_clear Hds as [|? ? Hd Hds'].
    change (Z.to_nat wordBytes) with 8%nat. rewrite ReadBits_word_spec by done.
    assert (Hl : length (take (i - 8) buf) = (i - 8)%nat) by (rewrite length_take; lia).
    rewrite IH; [|rewrite !length_app, Hl, length_be_fixed, length_drop; lia|done|].
    + rewrite drop_app_length' by done.
      by rewrite be_fixed_word, <-app_assoc by (done || by apply words_value_nonneg).
    + rewrite take_app_length' by done.
      replace (take (i - 8) buf) with (take (i - 8) (take i buf))
        by (rewrite take_take; f_equal; lia).
      rewrite Hz, take_replicate. f_equal. lia.
Qed.

Lemma ReadBits_zeros x n : 0 <= n -> ReadBits x (zeros n) = be_fixed (Z.to_nat n) (Z.abs x).
Proof.
  intros Hn. unfold ReadBits, zeros. rewrite length_replicate.
  rewrite ReadBits_words_spec;
    [|by rewrite length_replicate|apply words_bounds|by rewrite take_ge by (by rewrite length_replicate)].
  rewrite big_Bits_value, drop_ge by (by rewrite length_replicate). apply app_nil_r.
Qed.

(** The padded encoding has at least [n] bytes and reads back as [|x|]. *)
Lemma PaddedBigBytes_spec x n : 0 <= n ->
  big_SetBytes (PaddedBigBytes x n) = Z.abs x /\
  len (PaddedBigBytes x n) = Z.max n ((BitLen x + 7) / 8).
Proof.
  intros Hn. unfold PaddedBigBytes. pose proof (BitLen_nonneg x).
  destruct (Z.leb_spec n (BitLen x / 8)).
  - rewrite big_Bytes_value, len_big_Bytes. split; [done|]. zlia.
  - rewrite ReadBits_zeros, big_SetBytes_be_fixed, len_be_fixed, Z2Nat.id by done.
    split; [|zlia]. apply Z.mod_small. split; [lia|].
    change 256 with (2 ^ 8). rewrite <-Z.pow_mul_r by lia. apply BitLen_spec; zlia.
Qed.

(** ** Padding *)

Lemma RightPadBytes_spec l n : 0 <= n ->
  RightPadBytes l n = l ++ zeros (n - len l).
Proof.
  intros Hn. unfold RightPadBytes, copy_at, zeros. bool_cases.
  - replace (Z.to_nat (n - len l)) with 0%nat by lia. by rewrite app_nil_r.
  - unfold len in *. rewrite length_replicate. simpl. rewrite Nat.sub_0_r.
    rewrite take_ge by lia. f_equal. rewrite drop_replicate. f_equal. lia.
Qed.

Lemma LeftPadBytes_spec l n : 0 <= n ->
  LeftPadBytes l n = zeros (n - len l) ++ l.
Proof.
  intros Hn. unfold LeftPadBytes, copy_at, zeros. bool_cases.
  - by replace (Z.to_nat (n - len l)) with 0%nat by lia.
  - unfold len in *. rewrite length_replicate.
    rewrite take_replicate, drop_replicate.
    replace (Z.to_nat n - (Z.to_nat (n - Z.of_nat (length l)) + length l))%nat with 0%nat by lia.
    cbn [replicate]. rewrite app_nil_r.
    rewrite take_ge by lia. f_equal. f_equal. lia.
Qed.

Lemma LeftPadBytes_value l n : 0 <= n -> big_SetBytes (LeftPadBytes l n) = big_SetBytes l.
Proof.
  intros. rewrite LeftPadBytes_spec by done. unfold zeros.
  rewrite big_SetBytes_app, big_SetBytes_replicate0. lia.
Qed.

Lemma len_RightPadBytes l n : 0 <= n -> len (RightPadBytes l n) = Z.max n (len l).
Proof.
  intros. rewrite RightPadBytes_spec, len_app by done.
  destruct (decide (n <= len l)).
  - unfold zeros. replace (Z.to_nat (n - len l)) with 0%nat by lia. simpl.
    change (len []) with 0. lia.
  - rewrite len_zeros; lia.
Qed.

(** ** Hashes and addresses *)

(** Cropping a byte string from the left keeps its value modulo [256^n]. *)
Lemma crop_copy_value (n : Z) b : 0 <= n ->
  let b' := if n <? len b then drop (Z.to_nat (len b - n)) b else b in
  big_SetBytes (copy_at (zeros n) (n - len b') b') = big_SetBytes b mod 256 ^ n.
Proof.
  intros Hn b'.
  assert (Hl : len b' = Z.min n (len b)).
  { unfold b', len. bool_cases; rewrite ?length_drop; unfold len in *; lia. }
  replace (copy_at (zeros n) (n - len b') b') with (LeftPadBytes b' n).
  2:{ unfold LeftPadBytes. bool_cases; [|done]. unfold copy_at.
      assert (E : len b' = n) by lia. rewrite E, Z.sub_diag. simpl.
      unfold zeros, len in *. rewrite length_replicate, Nat.sub_0_r.
      rewrite take_ge, drop_ge by (rewrite ?length_replicate; lia).
      by rewrite app_nil_r. }
  rewrite LeftPadBytes_value by done. unfold b'. bool_cases.
  - set (k := Z.to_nat (len b - n)).
    assert (Hd : len (drop k b) = n) by (unfold k, len in *; rewrite length_drop; lia).
    replace (big_SetBytes b) with (big_SetBytes (take k b ++ drop k b)) by (by rewrite take_drop).
    rewrite big_SetBytes_app, Hd.
    rewrite Z.add_comm, Z.mod_add by (apply Z.pow_nonzero; lia).
    symmetry. apply Z.mod_small.
    pose proof (big_SetBytes_range (drop k b)) as R. by rewrite Hd in R.
  - symmetry. apply Z.mod_small.
    pose proof (big_SetBytes_range b) as R. split; [lia|].
    eapply Z.lt_le_trans; [apply R|]. apply Z.pow_le_mono_r; lia.
Qed.

Lemma BytesToHash_spec b : BytesToHash b = Z.to_N (big_SetBytes b mod 2 ^ 256).
Proof. unfold BytesToHash, Hash_SetBytes. by rewrite (crop_copy_value HashLength) by done. Qed.

Lemma BytesToAddress_spec b : BytesToAddress b = Z.to_N (big_SetBytes b mod 2 ^ 160).
Proof. unfold BytesToAddress, Address_SetBytes. by rewrite (crop_copy_value AddressLength) by done. Qed.

Lemma BigToHash_spec x : BigToHash x = Z.to_N (Z.abs x mod 2 ^ 256).
Proof. unfold BigToHash. by rewrite BytesToHash_spec, big_Bytes_value. Qed.

Lemma BigToAddress_spec x : BigToAddress x = Z.to_N (Z.abs x mod 2 ^ 160).
Proof. unfold BigToAddress. by rewrite BytesToAddress_spec, big_Bytes_value. Qed.

(** ** Checked arithmetic *)

Lemma SafeAdd_spec x y : is_u64 x -> is_u64 y ->
  SafeAdd x y = if x + y <=? MaxUint64 then (x + y, false) else (x + y - two64, true).
Proof. unfold is_u64, SafeAdd, u64. intros. bool_cases; f_equal; try zlia. Qed.

Lemma SafeSub_spec x y : is_u64 x -> is_u64 y ->
  SafeSub x y = if y <=? x then (x - y, false) else (x - y + two64, true).
Proof. unfold is_u64, SafeSub, u64. intros. bool_cases; f_equal; try zlia. Qed.

Lemma SafeMul_spec x y : is_u64 x -> is_u64 y ->
  SafeMul x y = (u64 (x * y), MaxUint64 <? x * y).
Proof.
  unfold is_u64, SafeMul. intros Hx Hy.
  destruct (Z.eqb_spec x 0) as [->|]; [done|].
  destruct (Z.eqb_spec y 0) as [->|]; [by rewrite Z.mul_0_r|]. simpl.
  f_equal.
  pose proof (Z.mul_div_le MaxUint64 x ltac:(lia)).
  pose proof (Z.mul_succ_div_gt MaxUint64 x ltac:(lia)).
  bool_cases; try done; nia.
Qed.
