(* ===== verification/Params.v ===== *)
(** Protocol parameters and the fork schedule: params/protocol_params.go,
    params/gas_table.go and params/config.go. *)
From S2P Require Import Prelude BigMath.

(** ** params/protocol_params.go *)

Definition GasLimitBoundDivisor : Z := 64.
Definition MinGasLimit : Z := 500000.
Definition GenesisGasLimit : Z := 50000000.
Definition CallValueTransferGas : Z := 9000.
Definition CallNewAccountGas : Z := 25000.
Definition TxGas : Z := 21000.
Definition TxGasContractCreation : Z := 53000.
Definition TxDataZeroGas : Z := 4.
Definition QuadCoeffDiv : Z := 512.
Definition SstoreSetGas : Z := 20000.
Definition LogDataGas : Z := 8.
Definition CallStipend : Z := 2300.
Definition Sha3Gas : Z := 30.
Definition Sha3WordGas : Z := 6.
Definition SstoreResetGas : Z := 5000.
Definition SstoreClearGas : Z := 5000.
Definition SstoreRefundGas : Z := 15000.
Definition JumpdestGas : Z := 1.
Definition CreateDataGas : Z := 200.
Definition CallCreateDepth : Z := 1024.
Definition LogGas : Z := 375.
Definition CopyGas : Z := 3.
Definition StackLimit : Z := 1024.
Definition LogTopicGas : Z := 375.
Definition CreateGas : Z := 32000.
Definition SuicideRefundGas : Z := 24000.
Definition MemoryGas : Z := 3.
Definition TxDataNonZeroGas : Z := 68.
Definition MaxCodeSize : Z := 24576.
Definition EcrecoverGas : Z := 3000.
Definition Sha256BaseGas : Z := 60.
Definition Sha256PerWordGas : Z := 12.
Definition Ripemd160BaseGas : Z := 600.
Definition Ripemd160PerWordGas : Z := 120.
Definition IdentityBaseGas : Z := 15.
Definition IdentityPerWordGas : Z := 3.
Definition ModExpQuadCoeffDiv : Z := 20.
Definition Bn256AddGas : Z := 500.
Definition Bn256ScalarMulGas : Z := 40000.
Definition Bn256PairingBaseGas : Z := 100000.
Definition Bn256PairingPerPointGas : Z := 80000.

(** ** params/gas_table.go *)

Record GasTable := mkGasTable {
  gt_ExtcodeSize : Z;
  gt_ExtcodeCopy : Z;
  gt_Balance : Z;
  gt_SLoad : Z;
  gt_Calls : Z;
  gt_Suicide : Z;
  gt_ExpByte : Z;
  gt_CreateBySuicide : Z
}.

Definition GasTableHomestead : GasTable :=
  {| gt_ExtcodeSize := 20; gt_ExtcodeCopy := 20; gt_Balance := 20; gt_SLoad := 50;
     gt_Calls := 40; gt_Suicide := 0; gt_ExpByte := 10; gt_CreateBySuicide := 0 |}.
Definition GasTableEIP150 : GasTable :=
  {| gt_ExtcodeSize := 700; gt_ExtcodeCopy := 700; gt_Balance := 400; gt_SLoad := 200;
     gt_Calls := 700; gt_Suicide := 5000; gt_ExpByte := 10; gt_CreateBySuicide := 25000 |}.
Definition GasTableEIP158 : GasTable :=
  {| gt_ExtcodeSize := 700; gt_ExtcodeCopy := 700; gt_Balance := 400; gt_SLoad := 200;
     gt_Calls := 700; gt_Suicide := 5000; gt_ExpByte := 50; gt_CreateBySuicide := 25000 |}.

(** ** params/config.go

    A [*big.Int] that may be nil is an [option Z].  The consensus-engine
    records of the configuration take no part in the fork schedule and are
    left out. *)

Record ChainConfig := mkChainConfig {
  ChainId : option Z;
  HomesteadBlock : option Z;
  EIP150Block : option Z;
  EIP155Block : option Z;
  EIP158Block : option Z;
  ByzantiumBlock : option Z;
  ConstantinopleBlock : option Z
}.

Definition MainnetChainConfig : ChainConfig :=
  {| ChainId := Some 8848; HomesteadBlock := Some 1; EIP150Block := Some 2;
     EIP155Block := Some 3; EIP158Block := Some 3; ByzantiumBlock := Some 4;
     ConstantinopleBlock := None |}.

Definition isForked (s head : option Z) : bool :=
  match s, head with
  | Some s, Some head => s <=? head
  | _, _ => false
  end.

Definition configNumEqual (x y : option Z) : bool :=
  match x, y with
  | None, None => true
  | Some x, Some y => x =? y
  | _, _ => false
  end.

Definition isForkIncompatible (s1 s2 head : option Z) : bool :=
  (isForked s1 head || isForked s2 head) && negb (configNumEqual s1 s2).

Definition IsHomestead (c : ChainConfig) (num : Z) : bool := isForked (HomesteadBlock c) (Some num).
Definition IsEIP150 (c : ChainConfig) (num : Z) : bool := isForked (EIP150Block c) (Some num).
Definition IsEIP155 (c : ChainConfig) (num : Z) : bool := isForked (EIP155Block c) (Some num).
Definition IsEIP158 (c : ChainConfig) (num : Z) : bool := isForked (EIP158Block c) (Some num).
Definition IsByzantium (c : ChainConfig) (num : Z) : bool := isForked (ByzantiumBlock c) (Some num).
Definition IsConstantinople (c : ChainConfig) (num : Z) : bool :=
  isForked (ConstantinopleBlock c) (Some num).

Definition ChainConfig_GasTable (c : ChainConfig) (num : option Z) : GasTable :=
  match num with
  | None => GasTableHomestead
  | Some n =>
      if IsEIP158 c n then GasTableEIP158
      else if IsEIP150 c n then GasTableEIP150
      else GasTableHomestead
  end.

(** [ConfigCompatError]; the [What] text is the constructor of [CompatWhat]. *)
Inductive CompatWhat :=
| HomesteadForkBlock | EIP150ForkBlock | EIP155ForkBlock | EIP158ForkBlock
| EIP158ChainId | ByzantiumForkBlock | ConstantinopleForkBlock.

Record ConfigCompatError := mkCompatError {
  What : CompatWhat;
  StoredConfig : option Z;
  NewConfig : option Z;
  RewindTo : Z
}.

Definition newCompatError (what : CompatWhat) (storedblock newblock : option Z) : ConfigCompatError :=
  let rew :=
    match storedblock with
    | None => newblock
    | Some s =>
        match newblock with
        | None => storedblock
        | Some n => if s <? n then storedblock else newblock
        end
    end in
  let rewindTo :=
    match rew with
    | Some r => if 0 <? r then u64 (big_Uint64 r - 1) else 0
    | None => 0
    end in
  {| What := what; StoredConfig := storedblock; NewConfig := newblock; RewindTo := rewindTo |}.

Definition checkCompatible (c newcfg : ChainConfig) (head : Z) : option ConfigCompatError :=
  let h := Some head in
  if isForkIncompatible (HomesteadBlock c) (HomesteadBlock newcfg) h
  then Some (newCompatError HomesteadForkBlock (HomesteadBlock c) (HomesteadBlock newcfg))
  else if isForkIncompatible (EIP150Block c) (EIP150Block newcfg) h
  then Some (newCompatError EIP150ForkBlock (EIP150Block c) (EIP150Block newcfg))
  else if isForkIncompatible (EIP155Block c) (EIP155Block newcfg) h
  then Some (newCompatError EIP155ForkBlock (EIP155Block c) (EIP155Block newcfg))
  else if isForkIncompatible (EIP158Block c) (EIP158Block newcfg) h
  then Some (newCompatError EIP158ForkBlock (EIP158Block c) (EIP158Block newcfg))
  else if IsEIP158 c head && negb (configNumEqual (ChainId c) (ChainId newcfg))
  then Some (newCompatError EIP158ChainId (EIP158Block c) (EIP158Block newcfg))
  else if isForkIncompatible (ByzantiumBlock c) (ByzantiumBlock newcfg) h
  then Some (newCompatError ByzantiumForkBlock (ByzantiumBlock c) (ByzantiumBlock newcfg))
  else if isForkIncompatible (ConstantinopleBlock c) (ConstantinopleBlock newcfg) h
  then Some (newCompatError ConstantinopleForkBlock (ConstantinopleBlock c) (ConstantinopleBlock newcfg))
  else None.

(** The loop of [CheckCompatible], with fuel for its iterations. *)
Fixpoint CheckCompatible_loop (fuel : nat) (c newcfg : ChainConfig) (bhead : Z)
    (lasterr : option ConfigCompatError) : outcome (option ConfigCompatError) :=
  match fuel with
  | O => NoFuel
  | S fuel' =>
      match checkCompatible c newcfg bhead with
      | None => Done lasterr
      | Some err =>
          let stop := match lasterr with
                      | Some l => RewindTo err =? RewindTo l
                      | None => false
                      end in
          if stop then Done lasterr
          else CheckCompatible_loop fuel' c newcfg (RewindTo err) (Some err)
      end
  end.
Definition CheckCompatible (fuel : nat) (c newcfg : ChainConfig) (height : Z) :=
  CheckCompatible_loop fuel c newcfg height None.

Record Rules := mkRules {
  rules_ChainId : Z;
  rules_IsHomestead : bool;
  rules_IsEIP150 : bool;
  rules_IsEIP155 : bool;
  rules_IsEIP158 : bool;
  rules_IsByzantium : bool
}.

Definition ChainConfig_Rules (c : ChainConfig) (num : Z) : Rules :=
  {| rules_ChainId := default 0 (ChainId c);
     rules_IsHomestead := IsHomestead c num;
     rules_IsEIP150 := IsEIP150 c num;
     rules_IsEIP155 := IsEIP155 c num;
     rules_IsEIP158 := IsEIP158 c num;
     rules_IsByzantium := IsByzantium c num |}.
