(* ===== verification/Machine.v ===== *)
(** The data structures of the virtual machine: core/vm/stack.go,
    stack_table.go, memory.go, memory_table.go, common.go, gas.go and the
    errors of core/vm/errors.go, instructions.go and jump_table.go. *)
From S2P Require Import Prelude BigMath Params.

(** ** Errors *)

Inductive vmError :=
| ErrOutOfGas
| ErrCodeStoreOutOfGas
| ErrDepth
| ErrInsufficientBalance
| ErrContractAddressCollision
| errWriteProtection
| errReturnDataOutOfBounds
| errExecutionReverted
| errMaxCodeSizeExceeded
| errGasUintOverflow
| errStackUnderflow (have want : Z)
| errStackLimit (have : Z)
| errInvalidOpcode (op : Z)
| errInvalidJump (op pos : Z)
| errBadPairingInput
| errPrecompile.
#[export] Instance vmError_eq_dec : EqDecision vmError.
Proof. solve_decision. Defined.

(** ** core/vm/stack.go

    The backing slice grows at its end; the model keeps the top of the
    stack at the head of the list, so [data[len-n-1]] is element [n]. *)

Definition Stack := list Z.

Definition Stack_push (d : Z) (st : Stack) : Stack := d :: st.
Definition Stack_pop (st : Stack) : outcome (Z * Stack) :=
  match st with
  | x :: st' => Done (x, st')
  | [] => GoPanic
  end.
Definition Stack_peek (st : Stack) : outcome Z :=
  match st with
  | x :: _ => Done x
  | [] => GoPanic
  end.
Definition Stack_Back (st : Stack) (n : nat) : outcome Z :=
  match st !! n with
  | Some x => Done x
  | None => GoPanic
  end.
(** [st.data[len-n], st.data[len-1] = st.data[len-1], st.data[len-n]]. *)
Definition Stack_swap (n : nat) (st : Stack) : outcome Stack :=
  match st, st !! (n - 1)%nat with
  | x :: _, Some y => if (n =? 0)%nat then GoPanic else Done (<[0%nat := y]> (<[(n - 1)%nat := x]> st))
  | _, _ => GoPanic
  end.
Definition Stack_dup (n : nat) (st : Stack) : outcome Stack :=
  match st !! (n - 1)%nat with
  | Some y => if (n =? 0)%nat then GoPanic else Done (Stack_push y st)
  | None => GoPanic
  end.
Definition Stack_require (n : Z) (st : Stack) : option vmError :=
  if len st <? n then Some (errStackUnderflow (len st) n) else None.

(** ** core/vm/stack_table.go *)

Definition makeStackFunc (pop push : Z) (st : Stack) : option vmError :=
  match Stack_require pop st with
  | Some err => Some err
  | None => if StackLimit <? len st + push - pop then Some (errStackLimit (len st)) else None
  end.
Definition makeDupStackFunc (n : Z) : Stack -> option vmError := makeStackFunc n (n + 1).
Definition makeSwapStackFunc (n : Z) : Stack -> option vmError := makeStackFunc n n.

(** ** core/vm/memory.go *)

Record Memory := mkMemory { store : bytes; lastGasCost : Z }.
Definition NewMemory : Memory := {| store := []; lastGasCost := 0 |}.
Definition Memory_Len (m : Memory) : Z := len (store m).

Definition Memory_Set (offset size : Z) (value : bytes) (m : Memory) : outcome Memory :=
  if Memory_Len m <? size then GoPanic
  else if 0 <? size then
    let* _ := slice (store m) offset (u64 (offset + size)) in
    Done {| store := copy_at (store m) offset (take (Z.to_nat size) value);
            lastGasCost := lastGasCost m |}
  else Done m.

Definition Memory_Resize (size : Z) (m : Memory) : Memory :=
  if Memory_Len m <? size
  then {| store := store m ++ zeros (size - Memory_Len m); lastGasCost := lastGasCost m |}
  else m.

Definition Memory_Get (offset size : Z) (m : Memory) : outcome bytes :=
  if size =? 0 then Done []
  else if offset <? Memory_Len m then
    if size <? 0 then GoPanic
    else slice (store m) offset (i64 (offset + size))
  else Done [].

Definition Memory_GetPtr (offset size : Z) (m : Memory) : outcome bytes :=
  if size =? 0 then Done []
  else if offset <? Memory_Len m then slice (store m) offset (i64 (offset + size))
  else Done [].

(** ** core/vm/common.go *)

Definition calcMemSize (off l : Z) : Z := if Sign l =? 0 then 0 else off + l.

Definition getData (data : bytes) (start size : Z) : outcome bytes :=
  let length := len data in
  let start := if length <? start then length else start in
  let end_ := u64 (start + size) in
  let end_ := if length <? end_ then length else end_ in
  let* d := slice data start end_ in
  Done (RightPadBytes d (i64 size)).

Definition getDataBig (data : bytes) (start size : Z) : outcome bytes :=
  let dlen := len data in
  let s := BigMin start dlen in
  let e := BigMin (s + size) dlen in
  let* d := slice data (big_Uint64 s) (big_Uint64 e) in
  Done (RightPadBytes d (i64 (big_Uint64 size))).

Definition bigUint64 (v : Z) : Z * bool := (big_Uint64 v, 64 <? BitLen v).

Definition toWordSize (size : Z) : Z :=
  if MaxUint64 - 31 <? size then MaxUint64 / 32 + 1 else (size + 31) / 32.

Definition allZero (b : bytes) : bool := forallb (fun x => b2z x =? 0) b.

(** ** core/vm/memory_table.go *)

Definition mem2 (off sz : nat) (stack : Stack) : outcome Z :=
  let* o := Stack_Back stack off in
  let* l := Stack_Back stack sz in
  Done (calcMemSize o l).
Definition memorySha3 (stack : Stack) : outcome Z := mem2 0 1 stack.
Definition memoryCallDataCopy (stack : Stack) : outcome Z := mem2 0 2 stack.
Definition memoryReturnDataCopy (stack : Stack) : outcome Z := mem2 0 2 stack.
Definition memoryCodeCopy (stack : Stack) : outcome Z := mem2 0 2 stack.
Definition memoryExtCodeCopy (stack : Stack) : outcome Z := mem2 1 3 stack.
Definition memoryMLoad (stack : Stack) : outcome Z :=
  let* o := Stack_Back stack 0 in Done (calcMemSize o 32).
Definition memoryMStore8 (stack : Stack) : outcome Z :=
  let* o := Stack_Back stack 0 in Done (calcMemSize o 1).
Definition memoryMStore (stack : Stack) : outcome Z :=
  let* o := Stack_Back stack 0 in Done (calcMemSize o 32).
Definition memoryCreate (stack : Stack) : outcome Z := mem2 1 2 stack.
Definition mem22 (o1 s1 o2 s2 : nat) (stack : Stack) : outcome Z :=
  let* x := mem2 o1 s1 stack in
  let* y := mem2 o2 s2 stack in
  Done (BigMax x y).
Definition memoryCall (stack : Stack) : outcome Z := mem22 5 6 3 4 stack.
Definition memoryCallCode (stack : Stack) : outcome Z := mem22 5 6 3 4 stack.
Definition memoryDelegateCall (stack : Stack) : outcome Z := mem22 4 5 2 3 stack.
Definition memoryStaticCall (stack : Stack) : outcome Z := mem22 4 5 2 3 stack.
Definition memoryReturn (stack : Stack) : outcome Z := mem2 0 1 stack.
Definition memoryRevert (stack : Stack) : outcome Z := mem2 0 1 stack.
Definition memoryLog (stack : Stack) : outcome Z :=
  let* mSize := Stack_Back stack 1 in
  let* mStart := Stack_Back stack 0 in
  Done (calcMemSize mStart mSize).

(** ** core/vm/gas.go *)

Definition GasQuickStep : Z := 2.
Definition GasFastestStep : Z := 3.
Definition GasFastStep : Z := 5.
Definition GasMidStep : Z := 8.
Definition GasSlowStep : Z := 10.
Definition GasExtStep : Z := 20.

Definition callGas (gasTable : GasTable) (availableGas base callCost : Z) : vmError + Z :=
  let direct := if 64 <? BitLen callCost then inl errGasUintOverflow else inr (big_Uint64 callCost) in
  if 0 <? gt_CreateBySuicide gasTable then
    let availableGas := u64 (availableGas - base) in
    let gas := u64 (availableGas - availableGas / 64) in
    if (64 <? BitLen callCost) || (gas <? big_Uint64 callCost) then inr gas else direct
  else direct.

(** [memoryGasCost] of core/vm/gas_table.go; it records the total fee in the
    memory. *)
Definition memoryGasCost (mem : Memory) (newMemSize : Z) : (vmError + Z) * Memory :=
  if newMemSize =? 0 then (inr 0, mem)
  else if 0xffffffffe0 <? newMemSize then (inl errGasUintOverflow, mem)
  else
    let newMemSizeWords := toWordSize newMemSize in
    let newMemSize := u64 (newMemSizeWords * 32) in
    if Memory_Len mem <? newMemSize then
      let square := u64 (newMemSizeWords * newMemSizeWords) in
      let linCoef := u64 (newMemSizeWords * MemoryGas) in
      let quadCoef := square / QuadCoeffDiv in
      let newTotalFee := u64 (linCoef + quadCoef) in
      let fee := u64 (newTotalFee - lastGasCost mem) in
      (inr fee, {| store := store mem; lastGasCost := newTotalFee |})
    else (inr 0, mem).
