(* ===== verification/Analysis.v ===== *)
(** Jump-destination analysis: core/vm/analysis.go.

    [codeBitmap] marks the bytes of a contract that are data of PUSH
    instructions; [destinations] caches the bitmaps by code hash. *)
From S2P Require Import Prelude BigMath Opcodes.

Abbreviation bitvec := bytes.

Definition or_byte (i : Z) (v : Z) (bits : bitvec) : outcome bitvec :=
  let* b := index bits i in
  Done (<[Z.to_nat i := z2b (Z.lor (b2z b) v)]> bits).

Definition bitvec_set (pos : Z) (bits : bitvec) : outcome bitvec :=
  or_byte (pos / 8) (Z.shiftr 0x80 (pos mod 8)) bits.

Definition bitvec_set8 (pos : Z) (bits : bitvec) : outcome bitvec :=
  let* bits := or_byte (pos / 8) (Z.shiftr 0xFF (pos mod 8)) bits in
  or_byte (pos / 8 + 1) (255 - Z.shiftr 0xFF (pos mod 8)) bits.

Definition codeSegment (pos : Z) (bits : bitvec) : outcome bool :=
  let* b := index bits (pos / 8) in
  Done (Z.land (b2z b) (Z.shiftr 0x80 (pos mod 8)) =? 0).

(** [for ; numbits >= 8; numbits -= 8 { bits.set8(pc); pc += 8 }] *)
Fixpoint set8_loop (fuel : nat) (numbits pc : Z) (bits : bitvec) : outcome (Z * Z * bitvec) :=
  if 8 <=? numbits then
    match fuel with
    | O => NoFuel
    | S fuel' =>
        let* bits := bitvec_set8 pc bits in
        set8_loop fuel' (numbits - 8) (pc + 8) bits
    end
  else Done (numbits, pc, bits).

(** [for ; numbits > 0; numbits-- { bits.set(pc); pc++ }] *)
Fixpoint set_loop (fuel : nat) (numbits pc : Z) (bits : bitvec) : outcome (Z * bitvec) :=
  if 0 <? numbits then
    match fuel with
    | O => NoFuel
    | S fuel' =>
        let* bits := bitvec_set pc bits in
        set_loop fuel' (numbits - 1) (pc + 1) bits
    end
  else Done (pc, bits).

Fixpoint codeBitmap_loop (fuel : nat) (code : bytes) (pc : Z) (bits : bitvec) : outcome bitvec :=
  if pc <? len code then
    match fuel with
    | O => NoFuel
    | S fuel' =>
        let* b := index code pc in
        let op := b2z b in
        if (PUSH1 <=? op) && (op <=? PUSH32) then
          let numbits := op - PUSH1 + 1 in
          let* r := set8_loop 4 numbits (pc + 1) bits in
          let '(numbits, pc, bits) := r in
          let* r := set_loop 7 numbits pc bits in
          let '(pc, bits) := r in
          codeBitmap_loop fuel' code pc bits
        else codeBitmap_loop fuel' code (pc + 1) bits
    end
  else Done bits.

Definition codeBitmap (code : bytes) : outcome bitvec :=
  codeBitmap_loop (length code) code 0 (zeros (len code / 8 + 1 + 4)).

(** [destinations]: a map from code hashes to bitmaps; [has] fills it. *)
Abbreviation destinations := (gmap Hash bitvec).

Definition destinations_has (d : destinations) (codehash : Hash) (code : bytes) (dest : Z)
  : outcome (bool * destinations) :=
  let udest := big_Uint64 dest in
  if (63 <=? BitLen dest) || (len code <=? udest) then Done (false, d)
  else
    let* md := match d !! codehash with
               | Some m => Done (m, d)
               | None => let* m := codeBitmap code in Done (m, <[codehash := m]> d)
               end in
    let '(m, d) := md in
    let* b := index code udest in
    if b2z b =? JUMPDEST then
      let* seg := codeSegment udest m in Done (seg, d)
    else Done (false, d).

(** ** Specification: which bytes of a contract are PUSH data *)

Definition push_size (op : Z) : nat :=
  if (PUSH1 <=? op) && (op <=? PUSH32) then Z.to_nat (op - PUSH1 + 1) else 0.

(** [code_mask code skip]: for each byte, whether it is PUSH data, when the
    first [skip] bytes are data of an instruction before [code]. *)
Fixpoint code_mask (code : bytes) (skip : nat) : list bool :=
  match code with
  | [] => []
  | b :: code' =>
      match skip with
      | S skip' => true :: code_mask code' skip'
      | O => false :: code_mask code' (push_size (b2z b))
      end
  end.

(** A valid jump destination: a JUMPDEST byte that is not PUSH data. *)
Definition valid_dest (code : bytes) (p : nat) : bool :=
  match code !! p, code_mask code 0 !! p with
  | Some b, Some false => b2z b =? JUMPDEST
  | _, _ => false
  end.

(** ** Bit-level view of a bitmap *)

Definition getbit (bits : bitvec) (p : Z) : bool :=
  match bits !! Z.to_nat (p / 8) with
  | Some b => Z.testbit (b2z b) (7 - p mod 8)
  | None => false
  end.

Lemma testbit_mod256 z k : 0 <= k < 8 -> Z.testbit (z mod 256) k = Z.testbit z k.
Proof.
  intros. change 256 with (2 ^ 8). rewrite <-Z.land_ones by lia.
  rewrite Z.land_spec, Z.testbit_ones_nonneg by lia.
  destruct (Z.ltb_spec k 8); [apply andb_true_r|lia].
Qed.

Lemma or_byte_spec i v bits : 0 <= i < len bits ->
  exists bits', or_byte i v bits = Done bits' /\ len bits' = len bits /\
    forall p, 0 <= p ->
      getbit bits' p = getbit bits p || ((p / 8 =? i) && Z.testbit v (7 - p mod 8)).
Proof.
  intros Hi. unfold or_byte. destruct (index_done bits i Hi) as (b & -> & Hb).
  cbn [outcome_bind]. eexists. split; [done|].
  split; [unfold len; by rewrite length_insert|].
  intros p Hp. unfold getbit. destruct (Z.eqb_spec (p / 8) i) as [->|Hne].
  - rewrite list_lookup_insert_eq by (unfold len in Hi; lia). rewrite Hb.
    rewrite b2z_z2b, testbit_mod256 by zlia. apply Z.lor_spec.
  - rewrite list_lookup_insert_ne by zlia. by rewrite orb_false_r.
Qed.

Lemma eight_cases k : 0 <= k < 8 ->
  k = 0 \/ k = 1 \/ k = 2 \/ k = 3 \/ k = 4 \/ k = 5 \/ k = 6 \/ k = 7.
Proof. lia. Qed.

Lemma mask_bit j k : 0 <= j < 8 -> 0 <= k < 8 ->
  Z.testbit (Z.shiftr 0x80 k) (7 - j) = (j =? k) /\
  Z.testbit (Z.shiftr 0xFF k) (7 - j) = (k <=? j) /\
  Z.testbit (255 - Z.shiftr 0xFF k) (7 - j) = (j <? k).
Proof.
  intros Hj%eight_cases Hk%eight_cases.
  repeat (destruct Hk as [->|Hk]); try subst k;
    repeat (destruct Hj as [->|Hj]); try subst j; done.
Qed.

Lemma bitvec_set_spec pos bits : 0 <= pos -> pos / 8 < len bits ->
  exists bits', bitvec_set pos bits = Done bits' /\ len bits' = len bits /\
    forall p, 0 <= p -> getbit bits' p = getbit bits p || (p =? pos).
Proof.
  intros Hp Hl. unfold bitvec_set.
  destruct (or_byte_spec (pos / 8) (Z.shiftr 0x80 (pos mod 8)) bits ltac:(zlia))
    as (bits' & -> & Hlen & Hb).
  exists bits'. do 2 (split; [done|]). intros p Hp'. rewrite Hb by done. f_equal.
  destruct (mask_bit (p mod 8) (pos mod 8) ltac:(zlia) ltac:(zlia)) as [-> _].
  bool_cases; simpl; try done; zlia.
Qed.

Lemma bitvec_set8_spec pos bits : 0 <= pos -> pos / 8 + 1 < len bits ->
  exists bits', bitvec_set8 pos bits = Done bits' /\ len bits' = len bits /\
    forall p, 0 <= p -> getbit bits' p = getbit bits p || ((pos <=? p) && (p <? pos + 8)).
Proof.
  intros Hp Hl. unfold bitvec_set8.
  destruct (or_byte_spec (pos / 8) (Z.shiftr 0xFF (pos mod 8)) bits ltac:(zlia))
    as (b1 & -> & Hlen1 & Hb1). cbn [outcome_bind].
  destruct (or_byte_spec (pos / 8 + 1) (255 - Z.shiftr 0xFF (pos mod 8)) b1 ltac:(zlia))
    as (b2 & -> & Hlen2 & Hb2).
  exists b2. split; [done|]. split; [congruence|]. intros p Hp'.
  rewrite Hb2, Hb1, <-orb_assoc by done. f_equal.
  destruct (mask_bit (p mod 8) (pos mod 8) ltac:(zlia) ltac:(zlia)) as (_ & -> & ->).
  bool_cases; simpl; try done; zlia.
Qed.

Lemma set8_loop_spec fuel : forall numbits pc bits,
  0 <= numbits < 8 * Z.of_nat fuel + 8 -> 0 <= pc -> (pc + numbits) / 8 < len bits ->
  exists bits',
    set8_loop fuel numbits pc bits = Done (numbits mod 8, pc + 8 * (numbits / 8), bits') /\
    len bits' = len bits /\
    forall p, 0 <= p ->
      getbit bits' p = getbit bits p || ((pc <=? p) && (p <? pc + 8 * (numbits / 8))).
Proof.
  induction fuel as [|fuel IH]; intros numbits pc bits Hn Hpc Hl.
  - cbn [set8_loop]. bool_cases; [lia|]. exists bits.
    replace (numbits mod 8) with numbits by zlia. replace (numbits / 8) with 0 by zlia.
    rewrite Z.add_0_r. do 2 (split; [done|]). intros p Hp.
    bool_cases; simpl; try by rewrite orb_false_r. lia.
  - cbn [set8_loop]. destruct (Z.leb_spec 8 numbits) as [H8|H8].
    + destruct (bitvec_set8_spec pc bits ltac:(lia) ltac:(zlia)) as (b1 & -> & Hl1 & Hb1).
      cbn [outcome_bind].
      destruct (IH (numbits - 8) (pc + 8) b1 ltac:(lia) ltac:(lia) ltac:(zlia))
        as (b2 & -> & Hl2 & Hb2).
      exists b2. split; [|split].
      * do 3 f_equal; zlia.
      * congruence.
      * intros p Hp. rewrite Hb2, Hb1, <-orb_assoc by done. f_equal.
        bool_cases; simpl; try done; zlia.
    + exists bits. replace (numbits mod 8) with numbits by zlia.
      replace (numbits / 8) with 0 by zlia. rewrite Z.add_0_r.
      do 2 (split; [done|]). intros p Hp. bool_cases; simpl; try by rewrite orb_false_r. lia.
Qed.

Lemma set_loop_spec fuel : forall numbits pc bits,
  0 <= numbits <= Z.of_nat fuel -> 0 <= pc -> (pc + numbits) / 8 < len bits ->
  exists bits',
    set_loop fuel numbits pc bits = Done (pc + numbits, bits') /\
    len bits' = len bits /\
    forall p, 0 <= p ->
      getbit bits' p = getbit bits p || ((pc <=? p) && (p <? pc + numbits)).
Proof.
  assert (Hbase : forall bits pc p, getbit bits p =
    getbit bits p || ((pc <=? p) && (p <? pc + 0))).
  { intros. bool_cases; simpl; try by rewrite orb_false_r. lia. }
  induction fuel as [|fuel IH]; intros numbits pc bits Hn Hpc Hl.
  - cbn [set_loop]. assert (numbits = 0) as -> by lia. exists bits.
    rewrite Z.add_0_r. do 2 (split; [done|]). intros. rewrite <-(Z.add_0_r pc) at 2. apply Hbase.
  - cbn [set_loop]. destruct (Z.ltb_spec 0 numbits) as [H0|H0].
    + destruct (bitvec_set_spec pc bits ltac:(lia) ltac:(zlia)) as (b1 & -> & Hl1 & Hb1).
      cbn [outcome_bind].
      destruct (IH (numbits - 1) (pc + 1) b1 ltac:(lia) ltac:(lia) ltac:(zlia))
        as (b2 & -> & Hl2 & Hb2).
      exists b2. split; [do 2 f_equal; lia|]. split; [congruence|].
      intros p Hp. rewrite Hb2, Hb1, <-orb_assoc by done. f_equal.
      bool_cases; simpl; try done; lia.
    + assert (numbits = 0) as -> by lia. exists bits. rewrite Z.add_0_r.
      do 2 (split; [done|]). intros. rewrite <-(Z.add_0_r pc) at 2. apply Hbase.
Qed.

(** ** The loop and its specification *)

Lemma length_code_mask code : forall k, length (code_mask code k) = length code.
Proof. induction code as [|b code IH]; intros [|k]; simpl; by rewrite ?IH. Qed.

Lemma code_mask_data code : forall k p, (p < k)%nat -> (p < length code)%nat ->
  code_mask code k !! p = Some true.
Proof.
  induction code as [|b code IH]; intros k p Hk Hp; simpl in *; [lia|].
  destruct k as [|k]; [lia|]. destruct p as [|p]; [done|]. apply IH; lia.
Qed.

Lemma drop_code_mask code : forall k, drop k (code_mask code k) = code_mask (drop k code) 0.
Proof.
  induction code as [|b code IH]; intros [|k]; simpl; done || apply IH.
Qed.

Definition mask_inv (code : bytes) (pc : Z) (bits : bitvec) : Prop :=
  drop (Z.to_nat pc) (code_mask code 0) = code_mask (drop (Z.to_nat pc) code) 0 /\
  (forall p, 0 <= p < pc -> p < len code -> code_mask code 0 !! Z.to_nat p = Some (getbit bits p)) /\
  (forall p, pc <= p -> getbit bits p = false).

(** One instruction of the walk: the opcode byte is code, the [n] bytes after
    it are data. *)
Lemma mask_inv_step code pc bits bits' b n :
  0 <= pc -> code !! Z.to_nat pc = Some b -> n = Z.of_nat (push_size (b2z b)) ->
  mask_inv code pc bits ->
  (forall p, 0 <= p ->
     getbit bits' p = getbit bits p || ((pc + 1 <=? p) && (p <? pc + 1 + n))) ->
  mask_inv code (pc + 1 + n) bits'.
Proof.
  intros Hpc Hb Hn (Hdrop & Hlt & Hge) Hbits.
  assert (Hd : drop (Z.to_nat pc) code = b :: drop (Z.to_nat (pc + 1)) code).
  { rewrite (drop_S _ _ _ Hb). do 2 f_equal. lia. }
  rewrite Hd in Hdrop. cbn [code_mask] in Hdrop.
  set (rest := drop (Z.to_nat (pc + 1)) code) in *.
  assert (Hrest : forall q, code_mask code 0 !! (Z.to_nat pc + S q)%nat
                            = code_mask rest (push_size (b2z b)) !! q).
  { intros q. rewrite <-lookup_drop, Hdrop. done. }
  assert (Hlen : (length rest = length code - Z.to_nat (pc + 1))%nat)
    by (unfold rest; apply length_drop).
  assert (H0 : (Z.to_nat pc < length code)%nat) by (eapply lookup_lt_Some; done).
  split; [|split].
  - replace (Z.to_nat (pc + 1 + n)) with (Z.to_nat pc + S (push_size (b2z b)))%nat by lia.
    rewrite <-drop_drop, Hdrop. cbn [drop]. rewrite drop_code_mask. unfold rest.
    rewrite drop_drop. do 2 f_equal. lia.
  - intros p Hp Hpl. unfold len in Hpl. rewrite Hbits by lia.
    destruct (decide (p < pc)) as [Hlt'|Hge'].
    + rewrite Hlt by (unfold len; lia). f_equal. bool_cases; simpl; try lia; by rewrite orb_false_r.
    + rewrite (Hge p) by lia. destruct (decide (p = pc)) as [->|Hne].
      * assert (E : code_mask code 0 !! (Z.to_nat pc + 0)%nat = Some false)
          by (rewrite <-lookup_drop, Hdrop; done).
        rewrite Nat.add_0_r in E. rewrite E. f_equal. bool_cases; simpl; try lia; done.
      * replace (Z.to_nat p) with (Z.to_nat pc + S (Z.to_nat (p - pc - 1)))%nat by lia.
        rewrite Hrest, code_mask_data by lia. f_equal. bool_cases; simpl; try lia; done.
  - intros p Hp. rewrite Hbits by lia. rewrite (Hge p) by lia. bool_cases; simpl; try lia; done.
Qed.

Lemma push_size_spec op : 0 <= op < 256 ->
  Z.of_nat (push_size op) =
    if (PUSH1 <=? op) && (op <=? PUSH32) then op - PUSH1 + 1 else 0.
Proof. unfold push_size, PUSH1, PUSH32. intros. bool_cases; simpl; lia. Qed.

Lemma codeBitmap_loop_spec fuel : forall code pc bits,
  0 <= pc -> len code - pc <= Z.of_nat fuel -> len bits = len code / 8 + 5 ->
  mask_inv code pc bits ->
  exists bits', codeBitmap_loop fuel code pc bits = Done bits' /\
    len bits' = len code / 8 + 5 /\
    forall p, 0 <= p < len code -> code_mask code 0 !! Z.to_nat p = Some (getbit bits' p).
Proof.
  induction fuel as [|fuel IH]; intros code pc bits Hpc Hf Hlen Hinv.
  - cbn [codeBitmap_loop]. bool_cases; [lia|]. exists bits. do 2 (split; [done|]).
    intros. apply Hinv; lia.
  - cbn [codeBitmap_loop]. destruct (Z.ltb_spec pc (len code)) as [Hlt|Hge].
    2:{ exists bits. do 2 (split; [done|]). intros. apply Hinv; lia. }
    destruct (index_done code pc ltac:(lia)) as (b & -> & Hb). cbn [outcome_bind].
    pose proof (push_size_spec (b2z b) (b2z_range b)) as Hps.
    destruct ((PUSH1 <=? b2z b) && (b2z b <=? PUSH32)) eqn:Epush.
    + assert (Hn : 1 <= b2z b - PUSH1 + 1 <= 32).
      { unfold PUSH1, PUSH32 in *. destruct (b2z b) as [|q|q]; lia. }
      destruct (set8_loop_spec 4 (b2z b - PUSH1 + 1) (pc + 1) bits ltac:(lia) ltac:(lia))
        as (b1 & -> & Hl1 & Hb1). { rewrite Hlen. zlia. }
      cbn [outcome_bind].
      set (n := b2z b - PUSH1 + 1) in *.
      destruct (set_loop_spec 7 (n mod 8) (pc + 1 + 8 * (n / 8)) b1 ltac:(zlia) ltac:(zlia))
        as (b2 & -> & Hl2 & Hb2). { rewrite Hl1, Hlen. zlia. }
      cbn [outcome_bind].
      replace (pc + 1 + 8 * (n / 8) + n mod 8) with (pc + 1 + n) by zlia.
      apply IH; try lia.
      apply (mask_inv_step code pc bits b2 b n); try done.
      intros p Hp. rewrite Hb2, Hb1, <-orb_assoc by done. f_equal.
      bool_cases; simpl; try done; zlia.
    + apply IH; try lia.
      replace (pc + 1) with (pc + 1 + 0) by lia.
      apply (mask_inv_step code pc bits bits b 0); try done.
      intros p Hp. bool_cases; simpl; try lia; by rewrite orb_false_r.
Qed.

(** The bitmap is computed without panicking, has its allocated size, and its
    bit [p] says whether byte [p] is PUSH data. *)
Lemma codeBitmap_spec code :
  exists bits, codeBitmap code = Done bits /\ len bits = len code / 8 + 5 /\
    forall p, 0 <= p < len code -> code_mask code 0 !! Z.to_nat p = Some (getbit bits p).
Proof.
  unfold codeBitmap. pose proof (len_nonneg code).
  apply codeBitmap_loop_spec; [lia|unfold len; lia| |].
  - rewrite len_zeros; zlia.
  - split; [done|]. split; [lia|]. intros p Hp. unfold getbit, zeros.
    destruct (replicate _ _ !! _) as [b|] eqn:E; [|done].
    apply lookup_replicate in E as [-> _]. apply Z.testbit_0_l.
Qed.

Lemma codeSegment_spec pos bits : 0 <= pos -> pos / 8 < len bits ->
  codeSegment pos bits = Done (negb (getbit bits pos)).
Proof.
  intros Hp Hl. unfold codeSegment, getbit.
  destruct (index_done bits (pos / 8) ltac:(zlia)) as (b & -> & ->). cbn [outcome_bind]. f_equal.
  assert (Hk : 0 <= pos mod 8 < 8) by zlia.
  pose proof (b2z_range b). set (k := pos mod 8) in *. clearbody k.
  replace (Z.shiftr 0x80 k) with (2 ^ (7 - k)).
  2:{ apply eight_cases in Hk. repeat destruct Hk as [->|Hk]; try subst k; done. }
  destruct (Z.testbit (b2z b) (7 - k)) eqn:E.
  - apply Z.eqb_neq. intros E0. apply (f_equal (fun z => Z.testbit z (7 - k))) in E0.
    rewrite Z.land_spec, E, Z.pow2_bits_true, Z.bits_0 in E0 by lia. done.
  - apply Z.eqb_eq. apply Z.bits_inj'. intros n Hn.
    rewrite Z.land_spec, Z.bits_0. destruct (decide (n = 7 - k)) as [->|Hne].
    + by rewrite E.
    + rewrite Z.pow2_bits_false by lia. apply andb_false_r.
Qed.

(** Entries of the cache are bitmaps of code with that hash. *)
Definition cache_ok (keccak : bytes -> Hash) (d : destinations) : Prop :=
  forall h m, d !! h = Some m ->
    exists code, keccak code = h /\ codeBitmap code = Done m.

(** [has] never panics and decides [valid_dest], given that the cache is
    consistent and that no two codes met in it collide. *)
Lemma destinations_has_spec keccak d h code dest :
  cache_ok keccak d -> h = keccak code ->
  (forall code', keccak code' = h -> code' = code) ->
  0 <= dest -> len code < 2 ^ 62 ->
  exists d', destinations_has d h code dest
             = Done ((dest <? len code) && valid_dest code (Z.to_nat dest), d') /\
             cache_ok keccak d'.
Proof.
  intros Hc Hh Hinj Hd Hlen. unfold destinations_has.
  destruct (Z.ltb_spec dest (len code)) as [Hlt|Hge].
  2:{ exists d. split; [|done].
      destruct (Z.leb_spec 63 (BitLen dest)) as [|HB]; [done|]. simpl.
      assert (Z.abs dest < 2 ^ 63) by (apply BitLen_spec; lia).
      unfold big_Uint64. rewrite Z.abs_eq, u64_small by (unfold is_u64; lia).
      bool_cases; [done|lia]. }
  assert (HB : BitLen dest <= 62) by (apply BitLen_spec; lia).
  unfold big_Uint64. rewrite Z.abs_eq, u64_small by (unfold is_u64; lia).
  destruct (Z.leb_spec 63 (BitLen dest)); [lia|].
  destruct (Z.leb_spec (len code) dest); [lia|]. simpl.
  destruct (codeBitmap_spec code) as (m & Hm & Hl & Hbits).
  assert (Hlook : exists d', (match d !! h with
      | Some m => Done (m, d)
      | None => let* m := codeBitmap code in Done (m, <[h := m]> d)
      end) = Done (m, d') /\ cache_ok keccak d').
  { destruct (d !! h) as [m'|] eqn:E.
    - exists d. split; [|done]. destruct (Hc _ _ E) as (code' & Hk & Hm').
      apply Hinj in Hk as ->. congruence.
    - rewrite Hm. eexists. split; [done|]. intros h' m'.
      rewrite lookup_insert. case_decide as Eh; [|apply Hc].
      intros [= <-]. subst h'. eauto. }
  destruct Hlook as (d' & -> & Hc'). exists d'. split; [|done]. cbn [outcome_bind].
  destruct (index_done code dest ltac:(lia)) as (b & -> & Hb). cbn [outcome_bind].
  unfold valid_dest. rewrite Hb, Hbits by lia.
  destruct (b2z b =? JUMPDEST); [|by destruct (getbit m dest)].
  rewrite codeSegment_spec by zlia. cbn [outcome_bind]. by destruct (getbit m dest).
Qed.
