(* ===== verification/StateSpec.v ===== *)
(** The state the virtual machine runs on.

    [StateDB] is the interface of core/vm/interface.go as a class of
    operations.  [StateDBSpec] is what an implementation promises: it refines
    a machine that keeps the current world and, for every valid revision, a
    full copy of the world at the time of the snapshot. *)
From S2P Require Import Prelude BigMath.

(** core/types/log.go *)
Record Log := mkLog {
  log_Address : Address;
  log_Topics : list Hash;
  log_Data : bytes;
  log_BlockNumber : Z;
  log_TxHash : Hash;
  log_TxIndex : Z;
  log_BlockHash : Hash;
  log_Index : Z
}.

(** Getters return the state as well: reading may fill caches. *)
Class StateDB (S : Type) := {
  CreateAccount : Address -> S -> S;
  SubBalance : Address -> Z -> S -> S;
  AddBalance : Address -> Z -> S -> S;
  GetBalance : Address -> S -> Z * S;
  GetNonce : Address -> S -> Z * S;
  SetNonce : Address -> Z -> S -> S;
  GetCodeHash : Address -> S -> Hash * S;
  GetCode : Address -> S -> bytes * S;
  SetCode : Address -> bytes -> S -> S;
  GetCodeSize : Address -> S -> Z * S;
  AddRefund : Z -> S -> S;
  GetRefund : S -> Z;
  GetState : Address -> Hash -> S -> Hash * S;
  SetState : Address -> Hash -> Hash -> S -> S;
  Suicide : Address -> S -> bool * S;
  HasSuicided : Address -> S -> bool * S;
  Exist : Address -> S -> bool * S;
  Empty : Address -> S -> bool * S;
  RevertToSnapshot : Z -> S -> outcome S;
  Snapshot : S -> Z * S;
  AddLog : Log -> S -> S;
  AddPreimage : Hash -> bytes -> S -> S
}.

(** ** Worlds *)

Record account := mkAccount {
  a_nonce : Z;
  a_balance : Z;
  a_codehash : Hash;
  a_code : bytes;
  a_storage : Hash -> Hash;
  a_suicided : bool
}.

Record world := mkWorld {
  w_acct : Address -> option account;
  w_refund : Z;
  w_logs : Hash -> list Log;
  w_logSize : Z;
  w_preimages : Hash -> option bytes;
  w_txhash : Hash;
  w_bhash : Hash;
  w_txIndex : Z
}.

#[export] Instance account_equiv : Equiv account := fun x y =>
  a_nonce x = a_nonce y /\ a_balance x = a_balance y /\ a_codehash x = a_codehash y /\
  a_code x = a_code y /\ (forall k, a_storage x k = a_storage y k) /\
  a_suicided x = a_suicided y.

#[export] Instance account_equivalence : Equivalence (≡@{account}).
Proof.
  split.
  - intros x. by repeat split.
  - intros x y (?&?&?&?&?&?). repeat split; congruence.
  - intros x y z (?&?&?&?&?&?) (?&?&?&?&?&?). repeat split; congruence.
Qed.

#[export] Instance world_equiv : Equiv world := fun x y =>
  (forall a, w_acct x a ≡ w_acct y a) /\ w_refund x = w_refund y /\
  (forall h, w_logs x h = w_logs y h) /\ w_logSize x = w_logSize y /\
  (forall h, w_preimages x h = w_preimages y h) /\ w_txhash x = w_txhash y /\
  w_bhash x = w_bhash y /\ w_txIndex x = w_txIndex y.

#[export] Instance world_equivalence : Equivalence (≡@{world}).
Proof.
  split.
  - intros x. by repeat split.
  - intros x y (?&?&?&?&?&?&?&?). repeat split; try congruence; intros; by symmetry.
  - intros x y z (?&?&?&?&?&?&?&?) (?&?&?&?&?&?&?&?).
    repeat split; try congruence; intros; etransitivity; eauto.
Qed.

(** The abstract machine: the current world and the saved copies, oldest
    first. *)
Record astate := mkAstate { cur : world; saves : list (Z * world) }.

#[export] Instance revision_equiv : Equiv (Z * world) := fun x y => x.1 = y.1 /\ x.2 ≡ y.2.
#[export] Instance revision_equivalence : Equivalence (≡@{Z * world}).
Proof.
  split.
  - intros x. by split.
  - intros x y [? ?]. by split.
  - intros x y z [? ?] [? ?]. split; etransitivity; eauto.
Qed.
#[export] Instance revisions_equiv : Equiv (list (Z * world)) | 0 := list_equiv.

#[export] Instance astate_equiv : Equiv astate := fun x y =>
  cur x ≡ cur y /\ saves x ≡ saves y.
#[export] Instance astate_equivalence : Equivalence (≡@{astate}).
Proof.
  split.
  - intros x. by split.
  - intros x y [? ?]. by split.
  - intros x y z [? ?] [? ?]. split; etransitivity; eauto.
Qed.

(** ** Operations on worlds *)

Section WorldOps.
Context (emptyCodeHash : Hash).

Definition empty_account : account :=
  {| a_nonce := 0; a_balance := 0; a_codehash := emptyCodeHash; a_code := [];
     a_storage := fun _ => 0%N; a_suicided := false |}.

Definition set_acct (a : Address) (o : account) (w : world) : world :=
  {| w_acct := fun b => if decide (b = a) then Some o else w_acct w b;
     w_refund := w_refund w; w_logs := w_logs w; w_logSize := w_logSize w;
     w_preimages := w_preimages w; w_txhash := w_txhash w; w_bhash := w_bhash w;
     w_txIndex := w_txIndex w |}.

(** The account at [a], or a fresh one. *)
Definition acct_or_new (w : world) (a : Address) : account := default empty_account (w_acct w a).

Definition upd_acct (a : Address) (f : account -> account) (w : world) : world :=
  set_acct a (f (acct_or_new w a)) w.

Definition set_balance (z : Z) (o : account) : account :=
  {| a_nonce := a_nonce o; a_balance := z; a_codehash := a_codehash o; a_code := a_code o;
     a_storage := a_storage o; a_suicided := a_suicided o |}.
Definition set_nonce (z : Z) (o : account) : account :=
  {| a_nonce := z; a_balance := a_balance o; a_codehash := a_codehash o; a_code := a_code o;
     a_storage := a_storage o; a_suicided := a_suicided o |}.
Definition set_code (h : Hash) (c : bytes) (o : account) : account :=
  {| a_nonce := a_nonce o; a_balance := a_balance o; a_codehash := h; a_code := c;
     a_storage := a_storage o; a_suicided := a_suicided o |}.
Definition set_storage (k v : Hash) (o : account) : account :=
  {| a_nonce := a_nonce o; a_balance := a_balance o; a_codehash := a_codehash o;
     a_code := a_code o; a_storage := fun k' => if decide (k' = k) then v else a_storage o k';
     a_suicided := a_suicided o |}.
Definition set_suicided (o : account) : account :=
  {| a_nonce := a_nonce o; a_balance := 0; a_codehash := a_codehash o; a_code := a_code o;
     a_storage := a_storage o; a_suicided := true |}.

Definition w_balance (w : world) (a : Address) : Z := from_option a_balance 0 (w_acct w a).
Definition w_nonce (w : world) (a : Address) : Z := from_option a_nonce 0 (w_acct w a).
Definition w_codehash (w : world) (a : Address) : Hash := from_option a_codehash 0%N (w_acct w a).
Definition w_code (w : world) (a : Address) : bytes := from_option a_code [] (w_acct w a).
Definition w_storage (w : world) (a : Address) (k : Hash) : Hash :=
  from_option (fun o => a_storage o k) 0%N (w_acct w a).
Definition w_suicided (w : world) (a : Address) : bool := from_option a_suicided false (w_acct w a).
Definition w_exist (w : world) (a : Address) : bool :=
  match w_acct w a with Some _ => true | None => false end.
Definition account_empty (o : account) : bool :=
  (a_nonce o =? 0) && (a_balance o =? 0) && (a_codehash o =? emptyCodeHash)%N.
Definition w_empty (w : world) (a : Address) : bool :=
  match w_acct w a with Some o => account_empty o | None => true end.

Definition w_CreateAccount (a : Address) (w : world) : world :=
  set_acct a (set_balance (w_balance w a) empty_account) w.
Definition w_AddBalance (a : Address) (amt : Z) (w : world) : world :=
  upd_acct a (fun o => set_balance (a_balance o + amt) o) w.
Definition w_SubBalance (a : Address) (amt : Z) (w : world) : world :=
  upd_acct a (fun o => set_balance (a_balance o - amt) o) w.
Definition w_SetNonce (a : Address) (n : Z) (w : world) : world := upd_acct a (set_nonce n) w.
Definition w_SetCode (a : Address) (h : Hash) (c : bytes) (w : world) : world :=
  upd_acct a (set_code h c) w.
Definition w_SetState (a : Address) (k v : Hash) (w : world) : world :=
  upd_acct a (set_storage k v) w.
Definition w_Suicide (a : Address) (w : world) : world :=
  match w_acct w a with Some o => set_acct a (set_suicided o) w | None => w end.

Definition w_AddRefund (g : Z) (w : world) : world :=
  {| w_acct := w_acct w; w_refund := u64 (w_refund w + g); w_logs := w_logs w;
     w_logSize := w_logSize w; w_preimages := w_preimages w; w_txhash := w_txhash w;
     w_bhash := w_bhash w; w_txIndex := w_txIndex w |}.

(** The log as [AddLog] stores it: stamped with the transaction's position. *)
Definition stamp_log (l : Log) (w : world) : Log :=
  {| log_Address := log_Address l; log_Topics := log_Topics l; log_Data := log_Data l;
     log_BlockNumber := log_BlockNumber l; log_TxHash := w_txhash w;
     log_TxIndex := u64 (w_txIndex w); log_BlockHash := w_bhash w; log_Index := w_logSize w |}.
Definition w_AddLog (l : Log) (w : world) : world :=
  {| w_acct := w_acct w; w_refund := w_refund w;
     w_logs := fun h => if decide (h = w_txhash w) then w_logs w h ++ [stamp_log l w] else w_logs w h;
     w_logSize := u64 (w_logSize w + 1); w_preimages := w_preimages w; w_txhash := w_txhash w;
     w_bhash := w_bhash w; w_txIndex := w_txIndex w |}.

Definition w_AddPreimage (h : Hash) (p : bytes) (w : world) : world :=
  {| w_acct := w_acct w; w_refund := w_refund w; w_logs := w_logs w; w_logSize := w_logSize w;
     w_preimages := fun h' => if decide (h' = h)
                              then Some (default p (w_preimages w h)) else w_preimages w h';
     w_txhash := w_txhash w; w_bhash := w_bhash w; w_txIndex := w_txIndex w |}.
End WorldOps.

(** An operation that acts on the current world only. *)
Definition on_cur (f : world -> world) (st : astate) : astate :=
  {| cur := f (cur st); saves := saves st |}.
Definition a_snapshot (id : Z) (st : astate) : astate :=
  {| cur := cur st; saves := saves st ++ [(id, cur st)] |}.

(** ** What an implementation promises *)

Class StateDBSpec (S : Type) `{StateDB S} (keccak : bytes -> Hash) := {
  sinv : S -> Prop;
  abs : S -> astate;
  CreateAccount_spec a s : sinv s ->
    sinv (CreateAccount a s) /\
    abs (CreateAccount a s) ≡ on_cur (w_CreateAccount (keccak []) a) (abs s);
  AddBalance_spec a z s : sinv s ->
    sinv (AddBalance a z s) /\
    abs (AddBalance a z s) ≡ on_cur (w_AddBalance (keccak []) a z) (abs s);
  SubBalance_spec a z s : sinv s ->
    sinv (SubBalance a z s) /\
    abs (SubBalance a z s) ≡ on_cur (w_SubBalance (keccak []) a z) (abs s);
  SetNonce_spec a n s : sinv s ->
    sinv (SetNonce a n s) /\
    abs (SetNonce a n s) ≡ on_cur (w_SetNonce (keccak []) a n) (abs s);
  SetCode_spec a c s : sinv s ->
    sinv (SetCode a c s) /\
    abs (SetCode a c s) ≡ on_cur (w_SetCode (keccak []) a (keccak c) c) (abs s);
  SetState_spec a k v s : sinv s ->
    sinv (SetState a k v s) /\
    abs (SetState a k v s) ≡ on_cur (w_SetState (keccak []) a k v) (abs s);
  Suicide_spec a s : sinv s ->
    sinv (Suicide a s).2 /\ (Suicide a s).1 = w_exist (cur (abs s)) a /\
    abs (Suicide a s).2 ≡ on_cur (w_Suicide a) (abs s);
  AddRefund_spec g s : sinv s ->
    sinv (AddRefund g s) /\ abs (AddRefund g s) ≡ on_cur (w_AddRefund g) (abs s);
  AddLog_spec l s : sinv s ->
    sinv (AddLog l s) /\ abs (AddLog l s) ≡ on_cur (w_AddLog l) (abs s);
  AddPreimage_spec h p s : sinv s ->
    sinv (AddPreimage h p s) /\ abs (AddPreimage h p s) ≡ on_cur (w_AddPreimage h p) (abs s);
  GetBalance_spec a s : sinv s ->
    sinv (GetBalance a s).2 /\ abs (GetBalance a s).2 ≡ abs s /\
    (GetBalance a s).1 = w_balance (cur (abs s)) a;
  GetNonce_spec a s : sinv s ->
    sinv (GetNonce a s).2 /\ abs (GetNonce a s).2 ≡ abs s /\
    (GetNonce a s).1 = w_nonce (cur (abs s)) a;
  GetCodeHash_spec a s : sinv s ->
    sinv (GetCodeHash a s).2 /\ abs (GetCodeHash a s).2 ≡ abs s /\
    (GetCodeHash a s).1 = w_codehash (cur (abs s)) a;
  GetCode_spec a s : sinv s ->
    sinv (GetCode a s).2 /\ abs (GetCode a s).2 ≡ abs s /\
    (GetCode a s).1 = w_code (cur (abs s)) a;
  GetCodeSize_spec a s : sinv s ->
    sinv (GetCodeSize a s).2 /\ abs (GetCodeSize a s).2 ≡ abs s /\
    (GetCodeSize a s).1 = len (w_code (cur (abs s)) a);
  GetState_spec a k s : sinv s ->
    sinv (GetState a k s).2 /\ abs (GetState a k s).2 ≡ abs s /\
    (GetState a k s).1 = w_storage (cur (abs s)) a k;
  HasSuicided_spec a s : sinv s ->
    sinv (HasSuicided a s).2 /\ abs (HasSuicided a s).2 ≡ abs s /\
    (HasSuicided a s).1 = w_suicided (cur (abs s)) a;
  Exist_spec a s : sinv s ->
    sinv (Exist a s).2 /\ abs (Exist a s).2 ≡ abs s /\
    (Exist a s).1 = w_exist (cur (abs s)) a;
  Empty_spec a s : sinv s ->
    sinv (Empty a s).2 /\ abs (Empty a s).2 ≡ abs s /\
    (Empty a s).1 = w_empty (keccak []) (cur (abs s)) a;
  GetRefund_spec s : sinv s -> GetRefund s = w_refund (cur (abs s));
  Snapshot_spec s : sinv s ->
    sinv (Snapshot s).2 /\ abs (Snapshot s).2 ≡ a_snapshot (Snapshot s).1 (abs s);
  RevertToSnapshot_spec id s l w l' : sinv s ->
    saves (abs s) ≡ l ++ (id, w) :: l' ->
    exists s', RevertToSnapshot id s = Done s' /\ sinv s' /\
      cur (abs s') ≡ w /\ saves (abs s') ≡ l
}.
