(* ===== verification/Supply.v ===== *)
(** The money of a world.

    A world gives a balance to every address; its supply is bounded by [n] if
    the balances of any list of different addresses add up to at most [n].
    [no_mint w w'] says that whatever bounds the supply of [w] bounds the
    supply of [w']: getting from one to the other has created no money. *)
From S2P Require Import Prelude BigMath StateSpec.

Definition total (w : world) (l : list Address) : Z := foldr (fun a n => w_balance w a + n) 0 l.
Definition supply_le (w : world) (n : Z) : Prop := forall l, NoDup l -> total w l <= n.
Definition no_mint (w w' : world) : Prop := forall n, supply_le w n -> supply_le w' n.

(** [w'] differs from [w] in the balance of [a], by [z]. *)
Definition shifts_balance (a : Address) (z : Z) (w w' : world) : Prop :=
  forall b, w_balance w' b = w_balance w b + (if decide (b = a) then z else 0).

#[export] Instance no_mint_preorder : PreOrder no_mint.
Proof. split; [by intros w n|]. intros x y z H1 H2 n Hn. by apply H2, H1. Qed.

Lemma total_ext w w' l : (forall b, w_balance w' b = w_balance w b) -> total w' l = total w l.
Proof. intros H. induction l as [|a l IH]; simpl; [done|]. by rewrite H, IH. Qed.

Lemma no_mint_ext w w' : (forall b, w_balance w' b = w_balance w b) -> no_mint w w'.
Proof. intros H n Hn l Hl. rewrite (total_ext w w') by done. by apply Hn. Qed.

Lemma total_shift a z w w' l :
  shifts_balance a z w w' -> NoDup l ->
  total w' l = total w l + (if decide (a ∈ l) then z else 0).
Proof.
  intros H. induction 1 as [|b l Hb Hl IH]; simpl.
  - by destruct (decide (a ∈ [])) as [[]%not_elem_of_nil|].
  - rewrite H, IH. destruct (decide (b = a)) as [->|Hne].
    + rewrite (decide_False (P := a ∈ l)), (decide_True (P := a ∈ a :: l)) by (done || by left). lia.
    + assert (Hi : a ∈ b :: l <-> a ∈ l).
      { rewrite elem_of_cons. split; [|by right]. by intros [->|]. }
      rewrite (decide_ext (a ∈ b :: l) (a ∈ l)) by done. lia.
Qed.

(** Paying in raises the bound by the amount, paying out lowers it. *)
Lemma supply_le_add a z w w' n :
  0 <= z -> shifts_balance a z w w' -> supply_le w n -> supply_le w' (n + z).
Proof.
  intros Hz H Hn l Hl. rewrite (total_shift a z w w') by done. specialize (Hn l Hl).
  case_decide; lia.
Qed.
Lemma supply_le_sub a z w w' n :
  z <= w_balance w a -> shifts_balance a (- z) w w' -> supply_le w n -> supply_le w' (n - z).
Proof.
  intros Hz H Hn l Hl. rewrite (total_shift a (- z) w w') by done. case_decide.
  - specialize (Hn l Hl). lia.
  - assert (total w (a :: l) <= n) by (apply Hn; by constructor). simpl in *. lia.
Qed.

Lemma supply_le_mono w n m : n <= m -> supply_le w n -> supply_le w m.
Proof. intros Hm Hn l Hl. specialize (Hn l Hl). lia. Qed.

(** Paying out and in again. *)
Lemma no_mint_move a b z w w1 w2 :
  0 <= z <= w_balance w a -> shifts_balance a (- z) w w1 -> shifts_balance b z w1 w2 -> no_mint w w2.
Proof.
  intros Hz H1 H2 n Hn. replace n with (n - z + z) by lia.
  eapply supply_le_add; [lia|exact H2|]. eapply supply_le_sub; [|exact H1|exact Hn]. lia.
Qed.
