(* ===== verification/StateRel.v ===== *)
(** What an operation of the virtual machine may do to the state.

    [srel ro s s'] relates the states before and after: the saved revisions
    of [s] are still there, the world is still well formed, no money has been
    created, and if [ro] holds (a static call) nothing observable has
    changed. *)
From S2P Require Import Prelude BigMath StateSpec Supply.

(** ** Worlds up to equivalence *)

Lemma acct_equiv w w' a : w ≡ w' -> w_acct w a ≡ w_acct w' a.
Proof. intros H. apply H. Qed.

#[export] Instance w_balance_proper : Proper ((≡) ==> (=) ==> (=)) w_balance.
Proof.
  intros w w' Hw a ? <-. unfold w_balance.
  destruct (acct_equiv w w' a Hw) as [? ? Ha|]; [|done]. apply Ha.
Qed.
#[export] Instance w_nonce_proper : Proper ((≡) ==> (=) ==> (=)) w_nonce.
Proof.
  intros w w' Hw a ? <-. unfold w_nonce.
  destruct (acct_equiv w w' a Hw) as [? ? Ha|]; [|done]. apply Ha.
Qed.
#[export] Instance w_codehash_proper : Proper ((≡) ==> (=) ==> (=)) w_codehash.
Proof.
  intros w w' Hw a ? <-. unfold w_codehash.
  destruct (acct_equiv w w' a Hw) as [? ? Ha|]; [|done]. apply Ha.
Qed.
#[export] Instance w_code_proper : Proper ((≡) ==> (=) ==> (=)) w_code.
Proof.
  intros w w' Hw a ? <-. unfold w_code.
  destruct (acct_equiv w w' a Hw) as [? ? Ha|]; [|done]. apply Ha.
Qed.
#[export] Instance w_storage_proper : Proper ((≡) ==> (=) ==> (=) ==> (=)) w_storage.
Proof.
  intros w w' Hw a ? <- k ? <-. unfold w_storage.
  destruct (acct_equiv w w' a Hw) as [? ? Ha|]; [|done]. apply Ha.
Qed.
#[export] Instance w_suicided_proper : Proper ((≡) ==> (=) ==> (=)) w_suicided.
Proof.
  intros w w' Hw a ? <-. unfold w_suicided.
  destruct (acct_equiv w w' a Hw) as [? ? Ha|]; [|done]. apply Ha.
Qed.
#[export] Instance w_exist_proper : Proper ((≡) ==> (=) ==> (=)) w_exist.
Proof.
  intros w w' Hw a ? <-. unfold w_exist. by destruct (acct_equiv w w' a Hw).
Qed.
#[export] Instance no_mint_proper : Proper ((≡) ==> (≡) ==> iff) no_mint.
Proof.
  assert (H : forall w w', w ≡ w' -> no_mint w w').
  { intros w w' E. apply no_mint_ext. intros b. by rewrite E. }
  intros w1 w1' E1 w2 w2' E2. split; intros Hs.
  - transitivity w2; [|by apply H]. by transitivity w1; [apply H|].
  - transitivity w2'; [|by apply H]. by transitivity w1'; [apply H|].
Qed.
#[export] Instance cur_proper : Proper ((≡) ==> (≡)) cur.
Proof. by intros x y [? ?]. Qed.
#[export] Instance saves_proper : Proper ((≡) ==> (≡)) saves.
Proof. by intros x y [? ?]. Qed.

Lemma world_equiv_acct w w' :
  (forall a, w_acct w a ≡ w_acct w' a) -> w_refund w = w_refund w' ->
  (forall h, w_logs w h = w_logs w' h) -> w_logSize w = w_logSize w' ->
  (forall h, w_preimages w h = w_preimages w' h) -> w_txhash w = w_txhash w' ->
  w_bhash w = w_bhash w' -> w_txIndex w = w_txIndex w' -> w ≡ w'.
Proof. by repeat split. Qed.

(** Fields and updates of accounts. *)
Lemma account_update_proper (g : account -> account) :
  (forall x y, x ≡ y -> a_nonce (g x) = a_nonce (g y) /\ a_balance (g x) = a_balance (g y) /\
     a_codehash (g x) = a_codehash (g y) /\ a_code (g x) = a_code (g y) /\
     (forall k, a_storage (g x) k = a_storage (g y) k) /\ a_suicided (g x) = a_suicided (g y)) ->
  Proper ((≡) ==> (≡)) g.
Proof. intros H x y Hxy. by apply H. Qed.

#[export] Instance a_nonce_proper : Proper ((≡) ==> (=)) a_nonce.
Proof. by intros x y (? & ? & ? & ? & ? & ?). Qed.
#[export] Instance a_balance_proper : Proper ((≡) ==> (=)) a_balance.
Proof. by intros x y (? & ? & ? & ? & ? & ?). Qed.
#[export] Instance a_codehash_proper : Proper ((≡) ==> (=)) a_codehash.
Proof. by intros x y (? & ? & ? & ? & ? & ?). Qed.
#[export] Instance a_code_proper : Proper ((≡) ==> (=)) a_code.
Proof. by intros x y (? & ? & ? & ? & ? & ?). Qed.
#[export] Instance a_suicided_proper : Proper ((≡) ==> (=)) a_suicided.
Proof. by intros x y (? & ? & ? & ? & ? & ?). Qed.
#[export] Instance a_storage_proper : Proper ((≡) ==> (=) ==> (=)) a_storage.
Proof. by intros x y (? & ? & ? & ? & ? & ?) k ? <-. Qed.

#[export] Instance set_balance_proper z : Proper ((≡) ==> (≡)) (set_balance z).
Proof. apply account_update_proper. by intros x y (? & ? & ? & ? & ? & ?). Qed.
#[export] Instance set_nonce_proper z : Proper ((≡) ==> (≡)) (set_nonce z).
Proof. apply account_update_proper. by intros x y (? & ? & ? & ? & ? & ?). Qed.
#[export] Instance set_code_proper h c : Proper ((≡) ==> (≡)) (set_code h c).
Proof. apply account_update_proper. by intros x y (? & ? & ? & ? & ? & ?). Qed.
#[export] Instance set_storage_proper k v : Proper ((≡) ==> (≡)) (set_storage k v).
Proof.
  apply account_update_proper. intros x y (? & ? & ? & ? & Hs & ?).
  repeat split; try done. intros k'. simpl. by case_decide.
Qed.

Lemma upd_acct_world_equiv ech a (g : account -> account) w w' :
  Proper ((≡) ==> (≡)) g -> w ≡ w' -> upd_acct ech a g w ≡ upd_acct ech a g w'.
Proof.
  intros Hg Hw. pose proof Hw as (Ha & ? & ? & ? & ? & ? & ? & ?).
  apply world_equiv_acct; try done. intros b. simpl.
  case_decide; [|apply Ha]. constructor. apply Hg. unfold acct_or_new.
  by destruct (acct_equiv w w' a Hw).
Qed.
#[export] Instance w_SetNonce_proper ech a : Proper ((=) ==> (≡) ==> (≡)) (w_SetNonce ech a).
Proof. intros z ? <- w w'. apply upd_acct_world_equiv, _. Qed.
#[export] Instance w_AddBalance_proper ech a : Proper ((=) ==> (≡) ==> (≡)) (w_AddBalance ech a).
Proof.
  intros z ? <- w w'. apply upd_acct_world_equiv, account_update_proper.
  intros x y (? & E & ? & ? & ? & ?). simpl. by rewrite E.
Qed.
#[export] Instance w_SubBalance_proper ech a : Proper ((=) ==> (≡) ==> (≡)) (w_SubBalance ech a).
Proof.
  intros z ? <- w w'. apply upd_acct_world_equiv, account_update_proper.
  intros x y (? & E & ? & ? & ? & ?). simpl. by rewrite E.
Qed.

#[export] Instance set_suicided_proper : Proper ((≡) ==> (≡)) set_suicided.
Proof. apply account_update_proper. by intros x y (? & ? & ? & ? & ? & ?). Qed.
#[export] Instance w_Suicide_proper a : Proper ((≡) ==> (≡)) (w_Suicide a).
Proof.
  intros w w' Hw. pose proof Hw as (Ha & ? & ? & ? & ? & ? & ? & ?).
  unfold w_Suicide. destruct (Ha a) as [x y Hxy|]; [|done].
  apply world_equiv_acct; try done. intros b. simpl.
  case_decide; [constructor; by rewrite Hxy|apply Ha].
Qed.

(** Nothing that a contract can observe differs, except that an empty account
    may have come into existence. *)
Record static_eq (w w' : world) : Prop := {
  se_balance a : w_balance w' a = w_balance w a;
  se_nonce a : w_nonce w' a = w_nonce w a;
  se_code a : w_code w' a = w_code w a;
  se_storage a k : w_storage w' a k = w_storage w a k;
  se_suicided a : w_suicided w' a = w_suicided w a;
  se_exist a : w_exist w a = true -> w_exist w' a = true;
  se_refund : w_refund w' = w_refund w;
  se_logs h : w_logs w' h = w_logs w h
}.

#[export] Instance static_eq_preorder : PreOrder static_eq.
Proof.
  split.
  - by intros w.
  - intros x y z [] []. split; intros; try congruence; eauto.
Qed.
#[export] Instance static_eq_proper : Proper ((≡) ==> (≡) ==> iff) static_eq.
Proof.
  assert (H : forall w w', w ≡ w' -> static_eq w w').
  { intros w w' E. pose proof E as (? & ? & ? & ? & ?).
    split; intros; rewrite <-?E; first [done|by symmetry]. }
  intros w1 w1' E1 w2 w2' E2. split; intros Hs.
  - transitivity w2; [|by apply H]. by transitivity w1; [apply H|].
  - transitivity w2'; [|by apply H]. by transitivity w1'; [apply H|].
Qed.

Section Rel.
Context {S : Type} `{SDB : StateDB S} (keccak : bytes -> Hash) `{SP : !StateDBSpec S keccak}.

(** Balances are not negative, code has a length Go can represent, and the
    code hash of an account is the hash of its code. *)
Definition accounts_ok (w : world) : Prop := forall a,
  0 <= w_balance w a /\ len (w_code w a) < 2 ^ 62 /\
  (w_code w a = [] \/ w_codehash w a = keccak (w_code w a)).

(** The refund counter is unsigned. *)
Definition world_ok (w : world) : Prop := accounts_ok w /\ 0 <= w_refund w.

#[export] Instance world_ok_proper : Proper ((≡) ==> iff) world_ok.
Proof.
  assert (H : forall w w', w ≡ w' -> world_ok w -> world_ok w').
  { intros w w' E [Hw Hr]. split.
    - intros a. specialize (Hw a). by rewrite !E in Hw.
    - destruct E as (_ & E & _). by rewrite <-E. }
  intros w w' E. split; apply H; [done|by symmetry].
Qed.

Definition saves_ok (l : list (Z * world)) : Prop := Forall (fun p => world_ok p.2) l.
#[export] Instance saves_ok_proper : Proper ((≡) ==> iff) saves_ok.
Proof.
  assert (H : forall l l', l ≡ l' -> saves_ok l -> saves_ok l').
  { intros l l' E%list_equiv_Forall2 Hs. induction E as [|x y ? ? E ? IH]; [done|].
    inversion Hs; subst. constructor; [|by apply IH]. destruct E as [_ E]. by rewrite <-E. }
  intros l l' E. split; apply H; [done|by symmetry].
Qed.

Definition state_ok (s : S) : Prop :=
  sinv s /\ world_ok (cur (abs s)) /\ saves_ok (saves (abs s)).

Definition srel (ro : Prop) (s s' : S) : Prop :=
  state_ok s' /\ (exists l, saves (abs s') ≡ saves (abs s) ++ l) /\
  (ro -> static_eq (cur (abs s)) (cur (abs s'))) /\
  no_mint (cur (abs s)) (cur (abs s')).

Lemma srel_refl ro s : state_ok s -> srel ro s s.
Proof. intros H. split; [done|]. split; [|done]. exists []. by rewrite app_nil_r. Qed.

Lemma srel_trans ro s1 s2 s3 : srel ro s1 s2 -> srel ro s2 s3 -> srel ro s1 s3.
Proof.
  intros (_ & [l1 E1] & R1 & M1) (O & [l2 E2] & R2 & M2). split; [done|]. split; [|split].
  - exists (l1 ++ l2). by rewrite E2, E1, app_assoc.
  - intros Hro. etransitivity; eauto.
  - by etransitivity.
Qed.

Lemma srel_weaken (ro ro' : Prop) s s' : (ro -> ro') -> srel ro' s s' -> srel ro s s'.
Proof. intros Hw (? & ? & ? & ?). split; [done|]. split; [done|auto]. Qed.

Lemma srel_ok ro s s' : srel ro s s' -> state_ok s'.
Proof. by intros [? _]. Qed.

Lemma srel_no_mint ro s s' : srel ro s s' -> no_mint (cur (abs s)) (cur (abs s')).
Proof. by intros (_ & _ & _ & ?). Qed.

(** An operation that only reads. *)
Lemma srel_read ro s s' : state_ok s -> sinv s' -> abs s' ≡ abs s -> srel ro s s'.
Proof.
  intros (I & W & V) I' E. split; [|split; [|split]].
  - split; [done|]. by rewrite E.
  - exists []. by rewrite app_nil_r, E.
  - intros _. by rewrite E.
  - by rewrite E.
Qed.

(** An operation on the current world. *)
Lemma srel_on_cur (ro : Prop) g s s' :
  state_ok s -> sinv s' -> abs s' ≡ on_cur g (abs s) -> world_ok (g (cur (abs s))) ->
  (ro -> static_eq (cur (abs s)) (g (cur (abs s)))) -> no_mint (cur (abs s)) (g (cur (abs s))) ->
  srel ro s s'.
Proof.
  intros (I & W & V) I' E Hg Hro Hm. split; [|split; [|split]].
  - split; [done|]. rewrite E. by split.
  - exists []. by rewrite app_nil_r, E.
  - intros H. rewrite E. by apply Hro.
  - by rewrite E.
Qed.

(** A snapshot, and the return to it after arbitrary allowed changes. *)
Lemma srel_snapshot ro s : state_ok s -> srel ro s (Snapshot s).2.
Proof.
  intros (I & W & V). destruct (Snapshot_spec s I) as [I' E]. split; [|split; [|split]].
  - split; [done|]. rewrite E. split; [done|]. apply Forall_app. split; [done|].
    by constructor.
  - exists [((Snapshot s).1, cur (abs s))]. by rewrite E.
  - intros _. by rewrite E.
  - by rewrite E.
Qed.

Lemma srel_revert ro ro' s s1 :
  state_ok s -> srel ro' (Snapshot s).2 s1 ->
  exists s2, RevertToSnapshot (Snapshot s).1 s1 = Done s2 /\ srel ro s s2 /\
             cur (abs s2) ≡ cur (abs s) /\ saves (abs s2) ≡ saves (abs s).
Proof.
  intros (I & W & V) ((I1 & W1 & V1) & [l E1] & _).
  destruct (Snapshot_spec s I) as [_ E]. rewrite E in E1. simpl in E1.
  rewrite <-app_assoc in E1. simpl in E1.
  destruct (RevertToSnapshot_spec _ _ _ _ _ I1 E1) as (s2 & ? & I2 & Ec & Es).
  exists s2. split; [done|]. split; [|done]. split; [|split; [|split]].
  - split; [done|]. by rewrite Ec, Es.
  - exists []. by rewrite app_nil_r.
  - intros _. by rewrite Ec.
  - by rewrite Ec.
Qed.

(** ** Operations on worlds keep [world_ok] *)

Lemma upd_acct_cases (P : account -> Prop) ech a g w b :
  P (if decide (b = a) then g (acct_or_new ech w a) else acct_or_new ech w b) ->
  P (acct_or_new ech (upd_acct ech a g w) b).
Proof. unfold acct_or_new at 3, upd_acct, set_acct. simpl. by case_decide. Qed.

(** The accessors in terms of [acct_or_new]. *)
Lemma w_balance_new ech w a : w_balance w a = a_balance (acct_or_new ech w a).
Proof. unfold w_balance, acct_or_new. by destruct (w_acct w a). Qed.
Lemma w_code_new ech w a : w_code w a = a_code (acct_or_new ech w a).
Proof. unfold w_code, acct_or_new. by destruct (w_acct w a). Qed.
Lemma w_nonce_new ech w a : w_nonce w a = a_nonce (acct_or_new ech w a).
Proof. unfold w_nonce, acct_or_new. by destruct (w_acct w a). Qed.
Lemma w_storage_new ech w a k : w_storage w a k = a_storage (acct_or_new ech w a) k.
Proof. unfold w_storage, acct_or_new. by destruct (w_acct w a). Qed.
Lemma w_suicided_new ech w a : w_suicided w a = a_suicided (acct_or_new ech w a).
Proof. unfold w_suicided, acct_or_new. by destruct (w_acct w a). Qed.

Definition account_ok (o : account) : Prop :=
  0 <= a_balance o /\ len (a_code o) < 2 ^ 62 /\ (a_code o = [] \/ a_codehash o = keccak (a_code o)).

Lemma world_ok_acct w :
  accounts_ok w <-> forall a, account_ok (acct_or_new (keccak []) w a).
Proof.
  unfold accounts_ok, account_ok, acct_or_new, w_balance, w_code, w_codehash.
  split; intros H a; specialize (H a); destruct (w_acct w a); simpl in *; try done.
  - repeat split; auto; unfold len; simpl; lia.
  - repeat split; auto; unfold len; simpl; lia.
Qed.

Lemma world_ok_upd a g w :
  world_ok w -> account_ok (g (acct_or_new (keccak []) w a)) ->
  world_ok (upd_acct (keccak []) a g w).
Proof.
  unfold world_ok. rewrite !world_ok_acct. intros [H ?] Hg. split; [|done].
  intros b. apply upd_acct_cases. case_decide; auto.
Qed.

Lemma world_ok_account w a : world_ok w -> account_ok (acct_or_new (keccak []) w a).
Proof. intros [H _]. by apply world_ok_acct. Qed.

Lemma world_ok_CreateAccount a w : world_ok w -> world_ok (w_CreateAccount (keccak []) a w).
Proof.
  intros [H ?]. split; [|done]. intros b. unfold w_CreateAccount, w_balance at 1, w_code, w_codehash. simpl.
  case_decide; [|by apply H]. simpl.
  split; [apply H|]. split; [unfold len; simpl; lia|by left].
Qed.

(** [upd_acct] does not change what a static call may not change, if the
    account update does not. *)
Lemma static_eq_upd ech a g w :
  (forall o, a_balance (g o) = a_balance o /\ a_nonce (g o) = a_nonce o /\ a_code (g o) = a_code o /\
             (forall k, a_storage (g o) k = a_storage o k) /\ a_suicided (g o) = a_suicided o) ->
  static_eq w (upd_acct ech a g w).
Proof.
  intros Hg. split; intros; try done.
  - rewrite !(w_balance_new ech). apply upd_acct_cases. case_decide; subst; [apply Hg|done].
  - rewrite !(w_nonce_new ech). apply upd_acct_cases. case_decide; subst; [apply Hg|done].
  - rewrite !(w_code_new ech). apply upd_acct_cases. case_decide; subst; [apply Hg|done].
  - rewrite !(w_storage_new ech). apply upd_acct_cases. case_decide; subst; [apply Hg|done].
  - rewrite !(w_suicided_new ech). apply upd_acct_cases. case_decide; subst; [apply Hg|done].
  - revert H. unfold w_exist. simpl. by case_decide.
Qed.

(** Creating an account that does not exist. *)
Lemma static_eq_CreateAccount ech a w :
  w_exist w a = false -> static_eq w (w_CreateAccount ech a w).
Proof.
  unfold w_exist. intros Hn. destruct (w_acct w a) eqn:E; [done|].
  split; intros; try done;
    unfold w_balance, w_nonce, w_code, w_storage, w_suicided, w_exist in *; simpl;
    case_decide; subst; rewrite ?E; try done.
  simpl. unfold w_balance. by rewrite E.
Qed.

(** ** Balances *)

Lemma shifts_AddBalance ech a z w : shifts_balance a z w (w_AddBalance ech a z w).
Proof.
  intros b. rewrite !(w_balance_new ech). unfold w_AddBalance. apply upd_acct_cases.
  case_decide; subst; simpl; lia.
Qed.
Lemma shifts_SubBalance ech a z w : shifts_balance a (- z) w (w_SubBalance ech a z w).
Proof.
  intros b. rewrite !(w_balance_new ech). unfold w_SubBalance. apply upd_acct_cases.
  case_decide; subst; simpl; lia.
Qed.
Lemma shifts_Suicide a w : shifts_balance a (- w_balance w a) w (w_Suicide a w).
Proof.
  intros b. unfold w_Suicide, w_balance. destruct (w_acct w a) eqn:E; simpl.
  - case_decide; subst; rewrite ?E; simpl; lia.
  - case_decide; lia.
Qed.
Lemma no_mint_upd ech a g w :
  (forall o, a_balance (g o) = a_balance o) -> no_mint w (upd_acct ech a g w).
Proof.
  intros Hg. apply no_mint_ext. intros b. rewrite !(w_balance_new ech). apply upd_acct_cases.
  case_decide; subst; [apply Hg|done].
Qed.
Lemma no_mint_CreateAccount ech a w : no_mint w (w_CreateAccount ech a w).
Proof.
  apply no_mint_ext. intros b. unfold w_CreateAccount, w_balance. simpl. by case_decide; subst.
Qed.

(** ** The operations of the interface *)

Section Ops.
Context (ro : Prop).

(** A getter: the value it returns and the state it leaves. *)
Definition reads {A} (s : S) (r : A * S) (v : A) : Prop := r.1 = v /\ srel ro s r.2.

Lemma reads_intro {A} (s : S) (r : A * S) v :
  state_ok s -> sinv r.2 /\ abs r.2 ≡ abs s /\ r.1 = v -> reads s r v.
Proof. intros Hs (I & E & V). split; [done|by apply srel_read]. Qed.

Lemma GetBalance_reads a s : state_ok s -> reads s (GetBalance a s) (w_balance (cur (abs s)) a).
Proof. intros Hs. apply reads_intro; [done|apply GetBalance_spec, Hs]. Qed.
Lemma GetNonce_reads a s : state_ok s -> reads s (GetNonce a s) (w_nonce (cur (abs s)) a).
Proof. intros Hs. apply reads_intro; [done|apply GetNonce_spec, Hs]. Qed.
Lemma GetCodeHash_reads a s : state_ok s -> reads s (GetCodeHash a s) (w_codehash (cur (abs s)) a).
Proof. intros Hs. apply reads_intro; [done|apply GetCodeHash_spec, Hs]. Qed.
Lemma GetCode_reads a s : state_ok s -> reads s (GetCode a s) (w_code (cur (abs s)) a).
Proof. intros Hs. apply reads_intro; [done|apply GetCode_spec, Hs]. Qed.
Lemma GetCodeSize_reads a s : state_ok s -> reads s (GetCodeSize a s) (len (w_code (cur (abs s)) a)).
Proof. intros Hs. apply reads_intro; [done|apply GetCodeSize_spec, Hs]. Qed.
Lemma GetState_reads a k s : state_ok s -> reads s (GetState a k s) (w_storage (cur (abs s)) a k).
Proof. intros Hs. apply reads_intro; [done|apply GetState_spec, Hs]. Qed.
Lemma HasSuicided_reads a s : state_ok s -> reads s (HasSuicided a s) (w_suicided (cur (abs s)) a).
Proof. intros Hs. apply reads_intro; [done|apply HasSuicided_spec, Hs]. Qed.
Lemma Exist_reads a s : state_ok s -> reads s (Exist a s) (w_exist (cur (abs s)) a).
Proof. intros Hs. apply reads_intro; [done|apply Exist_spec, Hs]. Qed.
Lemma Empty_reads a s : state_ok s -> reads s (Empty a s) (w_empty (keccak []) (cur (abs s)) a).
Proof. intros Hs. apply reads_intro; [done|apply Empty_spec, Hs]. Qed.

Lemma AddBalance_ok a z s :
  state_ok s -> 0 <= w_balance (cur (abs s)) a + z ->
  state_ok (AddBalance a z s) /\ abs (AddBalance a z s) ≡ on_cur (w_AddBalance (keccak []) a z) (abs s).
Proof.
  intros Hs Hz. destruct (AddBalance_spec a z s) as [I E]; [apply Hs|]. split; [|done].
  split; [done|]. rewrite E. simpl. split; [|apply Hs]. apply world_ok_upd; [apply Hs|].
  destruct (world_ok_account _ a (proj1 (proj2 Hs))) as (? & ? & ?).
  rewrite (w_balance_new (keccak [])) in Hz. by repeat split.
Qed.

Lemma srel_SubBalance a z s :
  state_ok s -> 0 <= z <= w_balance (cur (abs s)) a -> (ro -> z = 0) -> srel ro s (SubBalance a z s).
Proof.
  intros Hs Hz Hro. destruct (SubBalance_spec a z s) as [I E]; [apply Hs|].
  eapply srel_on_cur; [done|done|exact E| | |].
  - apply world_ok_upd; [apply Hs|].
    destruct (world_ok_account _ a (proj1 (proj2 Hs))) as (? & ? & ?).
    rewrite (w_balance_new (keccak [])) in Hz. repeat split; simpl; try done. lia.
  - intros ->%Hro. apply static_eq_upd. intros o. simpl. by rewrite Z.sub_0_r.
  - intros n Hn. eapply (supply_le_mono _ (n - z)); [lia|].
    eapply supply_le_sub; [|apply shifts_SubBalance|done]. lia.
Qed.

(** [SubBalance] and [AddBalance] of the same amount: a transfer. *)
Lemma srel_move a b z s :
  state_ok s -> 0 <= z <= w_balance (cur (abs s)) a -> (ro -> z = 0) ->
  srel ro s (AddBalance b z (SubBalance a z s)).
Proof.
  intros Hs Hz Hro. pose proof (srel_SubBalance a z s Hs Hz Hro) as R1.
  pose proof (srel_ok _ _ _ R1) as Hs1. destruct (SubBalance_spec a z s) as [I1 E1]; [apply Hs|].
  destruct (AddBalance_ok b z (SubBalance a z s)) as [Hs2 E2]; [done| |].
  { pose proof (proj1 (proj1 (proj1 (proj2 Hs1)) b)). lia. }
  assert (E : abs (AddBalance b z (SubBalance a z s)) ≡
              on_cur (fun w => w_AddBalance (keccak []) b z (w_SubBalance (keccak []) a z w)) (abs s)).
  { rewrite E2. split; [simpl; by rewrite E1|]. simpl. by rewrite E1. }
  eapply srel_on_cur; [done|apply Hs2|exact E| | |].
  - pose proof (proj1 (proj2 Hs2)) as W. by rewrite E in W.
  - intros ->%Hro. etransitivity; apply static_eq_upd; intros o; simpl; by rewrite ?Z.sub_0_r, ?Z.add_0_r.
  - eapply no_mint_move; [exact Hz|apply shifts_SubBalance|apply shifts_AddBalance].
Qed.

Lemma srel_upd g a s s' :
  state_ok s -> sinv s' /\ abs s' ≡ on_cur (upd_acct (keccak []) a g) (abs s) ->
  (forall o, account_ok o -> account_ok (g o)) -> (forall o, a_balance (g o) = a_balance o) -> ~ ro ->
  srel ro s s'.
Proof.
  intros Hs [I E] Hg Hb Hro. eapply srel_on_cur; [done|done|exact E| |done|by apply no_mint_upd].
  apply world_ok_upd; [apply Hs|]. apply Hg, world_ok_account, Hs.
Qed.
Lemma srel_SetNonce a n s : state_ok s -> ~ ro -> srel ro s (SetNonce a n s).
Proof. intros Hs Hro. by eapply srel_upd; [done|apply SetNonce_spec, Hs|..]. Qed.
Lemma srel_SetState a k v s : state_ok s -> ~ ro -> srel ro s (SetState a k v s).
Proof. intros Hs Hro. by eapply srel_upd; [done|apply SetState_spec, Hs|..]. Qed.
Lemma srel_SetCode a c s : state_ok s -> len c < 2 ^ 62 -> ~ ro -> srel ro s (SetCode a c s).
Proof.
  intros Hs Hc Hro. eapply srel_upd; [done|apply SetCode_spec, Hs| |done|done].
  intros o (? & ? & ?). repeat split; simpl; auto.
Qed.

Lemma srel_CreateAccount a s :
  state_ok s -> (ro -> w_exist (cur (abs s)) a = false) -> srel ro s (CreateAccount a s).
Proof.
  intros Hs Hro. destruct (CreateAccount_spec a s) as [I E]; [apply Hs|].
  eapply srel_on_cur; [done|done|exact E| | |apply no_mint_CreateAccount].
  - apply world_ok_CreateAccount, Hs.
  - intros H. by apply static_eq_CreateAccount, Hro.
Qed.

Lemma world_ok_Suicide a w : world_ok w -> world_ok (w_Suicide a w).
Proof.
  intros [Hw Hr]. split; [|unfold w_Suicide; by destruct (w_acct _ _)].
  intros b. pose proof (Hw b) as Hb. revert Hb. unfold w_Suicide, w_balance, w_code, w_codehash.
  destruct (w_acct w a) eqn:Ea; [|done]. simpl. case_decide; [subst|done].
  rewrite Ea. simpl. intros (? & ? & ?). repeat split; auto; lia.
Qed.

(** Paying the balance of [a] to [b] and removing [a]: SELFDESTRUCT. *)
Lemma srel_Suicide a b z s :
  state_ok s -> z = w_balance (cur (abs s)) a -> ~ ro -> srel ro s (Suicide a (AddBalance b z s)).2.
Proof.
  intros Hs Hz Hro. pose proof (proj1 (proj1 (proj2 Hs))) as Hb.
  destruct (AddBalance_ok b z s) as [Hs1 E1]; [done| |].
  { pose proof (proj1 (Hb a)). pose proof (proj1 (Hb b)). lia. }
  destruct (Suicide_spec a _ (proj1 Hs1)) as (I & _ & E2).
  assert (E : abs (Suicide a (AddBalance b z s)).2 ≡
              on_cur (fun w => w_Suicide a (w_AddBalance (keccak []) b z w)) (abs s)).
  { rewrite E2. split; [simpl; by rewrite E1|]. simpl. by rewrite E1. }
  eapply srel_on_cur; [done|done|exact E| |done|].
  - apply world_ok_Suicide. pose proof (proj1 (proj2 Hs1)) as W. by rewrite E1 in W.
  - intros n Hn. pose proof (proj1 (Hb a)).
    set (w1 := w_AddBalance _ _ _ _).
    assert (Ha : z <= w_balance w1 a).
    { unfold w1. rewrite (shifts_AddBalance _ b z _ a). case_decide; lia. }
    eapply (supply_le_mono _ (n + z - w_balance w1 a)); [lia|].
    eapply supply_le_sub; [done|apply shifts_Suicide|].
    eapply supply_le_add; [|apply shifts_AddBalance|done]. lia.
Qed.

Lemma srel_AddRefund g s : state_ok s -> ~ ro -> srel ro s (AddRefund g s).
Proof.
  intros Hs Hro. destruct (AddRefund_spec g s) as (I & E); [apply Hs|].
  eapply srel_on_cur; [done|done|exact E| |done|by apply no_mint_ext].
  split; [apply Hs|apply u64_range].
Qed.
Lemma srel_AddLog l s : state_ok s -> ~ ro -> srel ro s (AddLog l s).
Proof.
  intros Hs Hro. destruct (AddLog_spec l s) as (I & E); [apply Hs|].
  eapply srel_on_cur; [done|done|exact E|apply Hs|done|by apply no_mint_ext].
Qed.
Lemma srel_AddPreimage h p s : state_ok s -> srel ro s (AddPreimage h p s).
Proof.
  intros Hs. destruct (AddPreimage_spec h p s) as (I & E); [apply Hs|].
  eapply srel_on_cur; [done|done|exact E|apply Hs| |by apply no_mint_ext]. intros _. by split.
Qed.
End Ops.
End Rel.
