(* ===== verification/MachineFacts.v ===== *)
(** Facts about the virtual machine's data structures: memory accesses stay
    within bounds once the memory has been sized, and the fee for memory. *)
From S2P Require Import Prelude BigMath Params Machine.

(** The largest memory [memoryGasCost] accepts. *)
Abbreviation MaxMem := 0xffffffffe0 (only parsing).

Definition mem_ok (m : Memory) : Prop := Memory_Len m <= MaxMem.

(** The range [off, off+size) lies in a memory of length [n]; an empty range
    lies anywhere. *)
Definition in_mem (n off size : Z) : Prop := 0 <= off /\ 0 <= size /\ (size = 0 \/ off + size <= n).

Lemma big_Int64_small x : 0 <= x < two63 -> big_Int64 x = x.
Proof. intros. apply i64_small. lia. Qed.
Lemma big_Uint64_small x : is_u64 x -> big_Uint64 x = x.
Proof. intros H. unfold big_Uint64. rewrite Z.abs_eq by apply H. by apply u64_small. Qed.
Lemma big_Uint64_range x : is_u64 (big_Uint64 x).
Proof. apply u64_range. Qed.

(** ** memory.go *)

Lemma Memory_Get_in m off size :
  mem_ok m -> in_mem (Memory_Len m) off size ->
  exists d, Memory_Get (big_Int64 off) (big_Int64 size) m = Done d /\ len d = size.
Proof.
  unfold mem_ok. intros Hm (Ho & Hs & [->|Hin]); [by exists []|].
  destruct (decide (size = 0)) as [->|]; [by exists []|].
  unfold Memory_Get. rewrite !big_Int64_small by lia. bool_cases; try lia.
  rewrite slice_done by (unfold Memory_Len in *; lia).
  eexists. split; [done|]. rewrite len_take_drop by (unfold Memory_Len in *; lia). lia.
Qed.

Lemma Memory_GetPtr_in m off size :
  mem_ok m -> in_mem (Memory_Len m) off size ->
  exists d, Memory_GetPtr (big_Int64 off) (big_Int64 size) m = Done d /\ len d = size.
Proof.
  unfold mem_ok. intros Hm (Ho & Hs & [->|Hin]); [by exists []|].
  destruct (decide (size = 0)) as [->|]; [by exists []|].
  unfold Memory_GetPtr. rewrite !big_Int64_small by lia. bool_cases; try lia.
  rewrite slice_done by (unfold Memory_Len in *; lia).
  eexists. split; [done|]. rewrite len_take_drop by (unfold Memory_Len in *; lia). lia.
Qed.

Lemma Memory_Set_in m off size v :
  mem_ok m -> in_mem (Memory_Len m) off size ->
  exists m', Memory_Set (big_Uint64 off) (big_Uint64 size) v m = Done m' /\
             Memory_Len m' = Memory_Len m.
Proof.
  unfold mem_ok. intros Hm (Ho & Hs & Hin). unfold Memory_Set.
  destruct (decide (size = 0)) as [->|].
  { exists m. pose proof (len_nonneg (store m)).
    change (big_Uint64 0) with 0. unfold Memory_Len. bool_cases; try done; lia. }
  destruct Hin as [|Hin]; [done|].
  rewrite !big_Uint64_small by (unfold is_u64; lia).
  rewrite u64_small by (unfold is_u64; lia). bool_cases; try lia.
  rewrite slice_done by (unfold Memory_Len in *; lia). cbn [outcome_bind].
  eexists. split; [done|]. unfold Memory_Len. simpl. apply len_copy_at.
  unfold Memory_Len in *. lia.
Qed.

Lemma Memory_Len_Resize n m : 0 <= n -> Memory_Len (Memory_Resize n m) = Z.max n (Memory_Len m).
Proof.
  intros. unfold Memory_Resize. pose proof (len_nonneg (store m)).
  bool_cases; [|lia]. unfold Memory_Len in *. simpl. rewrite len_app, len_zeros; lia.
Qed.

(** ** common.go *)

Lemma calcMemSize_in n off size :
  0 <= off -> 0 <= size -> calcMemSize off size <= n -> in_mem n off size.
Proof.
  unfold calcMemSize, Sign. intros ? ? H. split; [done|]. split; [done|].
  destruct (Z.eqb_spec (Z.sgn size) 0) as [->%Z.sgn_null_iff|]; [by left|by right].
Qed.
Lemma calcMemSize_nonneg off size : 0 <= off -> 0 <= size -> 0 <= calcMemSize off size.
Proof. intros. unfold calcMemSize. bool_cases; lia. Qed.

Lemma toWordSize_bounds n : is_u64 n -> n <= 32 * toWordSize n /\ 0 <= toWordSize n <= 2 ^ 59.
Proof. unfold is_u64, toWordSize. intros. bool_cases; zlia. Qed.

Lemma bigUint64_fits v r : 0 <= v -> bigUint64 v = (r, false) -> r = v /\ is_u64 v.
Proof.
  unfold bigUint64. intros Hv [= <- Hb%Z.ltb_ge].
  apply BitLen_spec in Hb; [|lia]. assert (is_u64 v) by (unfold is_u64; lia).
  by rewrite big_Uint64_small.
Qed.

Lemma getDataBig_done data start size :
  len data < 2 ^ 62 -> 0 <= start -> 0 <= size ->
  exists d, getDataBig data start size = Done d.
Proof.
  intros Hl Hs Hz. pose proof (len_nonneg data). unfold getDataBig.
  assert (Hb : 0 <= BigMin start (len data) <= len data) by (unfold BigMin; bool_cases; lia).
  set (s := BigMin start (len data)) in *.
  assert (He : s <= BigMin (s + size) (len data) <= len data) by (unfold BigMin; bool_cases; lia).
  rewrite (big_Uint64_small s), (big_Uint64_small (BigMin _ _)) by (unfold is_u64; lia).
  rewrite slice_done by lia. eexists. reflexivity.
Qed.

Lemma getData_done data start size :
  len data < 2 ^ 62 -> 0 <= start -> 0 <= size <= two64 - 2 ^ 62 ->
  exists d, getData data start size = Done d /\
    (size < two63 -> len d = Z.max size 0).
Proof.
  intros Hl Hs Hz. pose proof (len_nonneg data). unfold getData.
  rewrite u64_small by (unfold is_u64; bool_cases; lia).
  rewrite slice_done by (bool_cases; lia). cbn [outcome_bind]. eexists. split; [done|].
  intros Hsz. rewrite i64_small by lia. rewrite len_RightPadBytes by lia.
  rewrite len_take_drop by (bool_cases; lia). bool_cases; lia.
Qed.

(** ** The fee for memory *)

Lemma memoryGasCost_frame m n r m' :
  memoryGasCost m n = (r, m') ->
  store m' = store m /\ (forall fee, r = inr fee -> is_u64 fee /\ n <= MaxMem).
Proof.
  unfold memoryGasCost. intros H.
  destruct (Z.eqb_spec n 0); [simplify_eq; split; [done|]; intros ? [= <-]; unfold is_u64; lia|].
  destruct (Z.ltb_spec MaxMem n); [by simplify_eq|].
  destruct (_ <? _); simplify_eq; (split; [done|]; intros ? [= <-]); (split; [|lia]).
  - apply u64_range.
  - unfold is_u64. lia.
Qed.

(** The fee of the yellow paper for [w] words. *)
Definition mem_fee (w : Z) : Z := MemoryGas * w + w * w / QuadCoeffDiv.

Lemma mem_fee_mono a b : 0 <= a <= b -> mem_fee a <= mem_fee b.
Proof.
  unfold mem_fee, MemoryGas, QuadCoeffDiv. intros.
  assert (a * a / 512 <= b * b / 512) by (apply Z.div_le_mono; nia). lia.
Qed.

(** A memory that has been paid for: a whole number of words, the fee for
    all of them recorded. *)
Definition mem_paid (m : Memory) : Prop :=
  exists w, 0 <= w /\ Memory_Len m = 32 * w /\ lastGasCost m = mem_fee w.

(** Up to 0x1fffffffe0 bytes the square does not overflow. *)
Lemma memoryGasCost_exact m w n :
  0 <= w -> Memory_Len m = 32 * w -> lastGasCost m = mem_fee w ->
  0 < n <= 0x1fffffffe0 ->
  memoryGasCost m n =
    (inr (mem_fee (Z.max w (toWordSize n)) - mem_fee w),
     {| store := store m; lastGasCost := mem_fee (Z.max w (toWordSize n)) |}).
Proof.
  intros Hw Hl Hg Hn. unfold memoryGasCost.
  destruct (Z.eqb_spec n 0); [lia|]. destruct (Z.ltb_spec MaxMem n); [lia|].
  assert (Ht : 1 <= toWordSize n <= 0xffffffff) by (unfold toWordSize; bool_cases; zlia).
  rewrite (u64_small (toWordSize n * 32)) by (unfold is_u64; lia). rewrite Hl.
  destruct (Z.ltb_spec (32 * w) (toWordSize n * 32)) as [Hlt|Hge].
  - rewrite Z.max_r by lia. unfold MemoryGas, QuadCoeffDiv.
    rewrite (u64_small (toWordSize n * toWordSize n)) by (unfold is_u64; nia).
    rewrite (u64_small (toWordSize n * 3)) by (unfold is_u64; lia).
    assert (0 <= toWordSize n * toWordSize n / 512 < 2 ^ 55).
    { split; [apply Z.div_pos; nia|apply Z.div_lt_upper_bound; nia]. }
    pose proof (mem_fee_mono w (toWordSize n) ltac:(lia)) as Hm.
    pose proof (mem_fee_mono 0 w ltac:(lia)) as Hm0. change (mem_fee 0) with 0 in Hm0.
    unfold mem_fee, MemoryGas, QuadCoeffDiv in *.
    rewrite (u64_small (_ * 3 + _)) by (unfold is_u64; lia).
    rewrite u64_small by (unfold is_u64; lia).
    f_equal; f_equal; lia.
  - rewrite Z.max_l, Z.sub_diag by lia. rewrite <-Hg. by destruct m.
Qed.
