(* ===== verification/Vm.v ===== *)
(** The virtual machine's state and gas functions: core/vm/contract.go,
    evm.go (types), core/vm/gas_table.go, and CanTransfer and Transfer of
    core/evm.go.

    An instruction or gas function runs on a [frame]: the machine, the
    running contract, its memory, stack and program counter.  It may panic,
    return an error, or return a value; in the last two cases it may have
    changed the frame. *)
From S2P Require Import Prelude BigMath Params Machine Opcodes Analysis StateSpec.

(** ** Code outside the repository: hash functions, signature recovery and
    the pairing curve (the crypto packages). *)
Class Crypto := {
  Keccak256 : bytes -> bytes;
  Keccak256Hash : bytes -> Hash;
  CreateAddress : Address -> Z -> Address;
  ValidateSignatureValues : Z -> Z -> Z -> bool -> bool;
  Ecrecover : bytes -> bytes -> option bytes;
  sha256_Sum256 : bytes -> bytes;
  ripemd160_Sum : bytes -> bytes;
  G1 : Type;
  G2 : Type;
  G1_Unmarshal : bytes -> option G1;
  G2_Unmarshal : bytes -> option G2;
  G1_Add : G1 -> G1 -> G1;
  G1_ScalarMult : G1 -> Z -> G1;
  G1_Marshal : G1 -> bytes;
  PairingCheck : list G1 -> list G2 -> bool
}.

(** ** Environment: the parts of [EVM] and [Interpreter] that never change *)

Record Context := mkContext {
  GetHash : Z -> Hash;
  Origin : Address;
  GasPrice : Z;
  Coinbase : Address;
  GasLimit : Z;
  BlockNumber : Z;
  Time : Z;
  Difficulty : Z
}.

Record Env := mkEnv {
  env_ctx : Context;
  env_chainConfig : ChainConfig;
  env_NoRecursion : bool;
  env_EnablePreimageRecording : bool
}.

Definition chainRules (e : Env) : Rules := ChainConfig_Rules (env_chainConfig e) (BlockNumber (env_ctx e)).
Definition gasTable (e : Env) : GasTable :=
  ChainConfig_GasTable (env_chainConfig e) (Some (BlockNumber (env_ctx e))).
Definition env_IsHomestead (e : Env) : bool := IsHomestead (env_chainConfig e) (BlockNumber (env_ctx e)).
Definition env_IsEIP150 (e : Env) : bool := IsEIP150 (env_chainConfig e) (BlockNumber (env_ctx e)).
Definition env_IsEIP158 (e : Env) : bool := IsEIP158 (env_chainConfig e) (BlockNumber (env_ctx e)).
Definition env_IsByzantium (e : Env) : bool := IsByzantium (env_chainConfig e) (BlockNumber (env_ctx e)).
Definition env_IsConstantinople (e : Env) : bool :=
  IsConstantinople (env_chainConfig e) (BlockNumber (env_ctx e)).

(** ** core/vm/contract.go

    The [caller] of a contract is only used when the contract is created
    ([NewContract], [AsDelegate]); the [jumpdests] map, shared by reference
    between a contract and the contracts it calls, lives in the machine. *)

Record Contract := mkContract {
  CallerAddress : Address;
  c_self : Address;
  c_Code : bytes;
  c_CodeHash : Hash;
  c_CodeAddr : option Address;
  c_Input : bytes;
  c_Gas : Z;
  c_value : Z;
  c_DelegateCall : bool
}.

Inductive ContractRef :=
| AccountRef (a : Address)
| ContractAsRef (c : Contract).

Definition Contract_Address (c : Contract) : Address := c_self c.
Definition ref_Address (r : ContractRef) : Address :=
  match r with
  | AccountRef a => a
  | ContractAsRef c => Contract_Address c
  end.

(** A nil value (only passed together with [AsDelegate]) is [0]. *)
Definition NewContract (caller : ContractRef) (object : Address) (value gas : Z) : Contract :=
  {| CallerAddress := ref_Address caller; c_self := object; c_Code := []; c_CodeHash := 0%N;
     c_CodeAddr := None; c_Input := []; c_Gas := gas; c_value := value; c_DelegateCall := false |}.

(** The map the new contract uses: its parent's, or a new one. *)
Definition NewContract_jumpdests (caller : ContractRef) (d : destinations) : destinations :=
  match caller with
  | ContractAsRef _ => d
  | AccountRef _ => ∅
  end.

(** [AsDelegate] panics unless the caller is a contract. *)
Definition AsDelegate (caller : ContractRef) (c : Contract) : outcome Contract :=
  match caller with
  | ContractAsRef parent =>
      Done {| CallerAddress := CallerAddress parent; c_self := c_self c; c_Code := c_Code c;
              c_CodeHash := c_CodeHash c; c_CodeAddr := c_CodeAddr c; c_Input := c_Input c;
              c_Gas := c_Gas c; c_value := c_value parent; c_DelegateCall := true |}
  | AccountRef _ => GoPanic
  end.

Definition SetCallCode (addr : Address) (hash : Hash) (code : bytes) (c : Contract) : Contract :=
  {| CallerAddress := CallerAddress c; c_self := c_self c; c_Code := code; c_CodeHash := hash;
     c_CodeAddr := Some addr; c_Input := c_Input c; c_Gas := c_Gas c; c_value := c_value c;
     c_DelegateCall := c_DelegateCall c |}.

Definition set_Gas (g : Z) (c : Contract) : Contract :=
  {| CallerAddress := CallerAddress c; c_self := c_self c; c_Code := c_Code c;
     c_CodeHash := c_CodeHash c; c_CodeAddr := c_CodeAddr c; c_Input := c_Input c;
     c_Gas := g; c_value := c_value c; c_DelegateCall := c_DelegateCall c |}.
Definition set_Input (i : bytes) (c : Contract) : Contract :=
  {| CallerAddress := CallerAddress c; c_self := c_self c; c_Code := c_Code c;
     c_CodeHash := c_CodeHash c; c_CodeAddr := c_CodeAddr c; c_Input := i;
     c_Gas := c_Gas c; c_value := c_value c; c_DelegateCall := c_DelegateCall c |}.

Definition UseGas (gas : Z) (c : Contract) : bool * Contract :=
  if c_Gas c <? gas then (false, c) else (true, set_Gas (u64 (c_Gas c - gas)) c).

Definition GetByte (c : Contract) (n : Z) : outcome Z :=
  if n <? len (c_Code c) then let* b := index (c_Code c) n in Done (b2z b) else Done 0.
Definition GetOp (c : Contract) (n : Z) : outcome Z := GetByte c n.

Section Vm.
Context {S : Type} `{SDB : StateDB S} `{CR : Crypto}.

(** ** Machine state

    [abort] is the flag that [Cancel] may set at any time: the list of values
    the next atomic loads return, [] meaning that it stays unset. *)
Record EVM := mkEVM {
  evm_StateDB : S;
  evm_depth : Z;
  evm_readOnly : bool;
  evm_returnData : bytes;
  evm_callGasTemp : Z;
  evm_jumpdests : destinations;
  evm_abort : list bool
}.

Definition set_StateDB (s : S) (e : EVM) : EVM :=
  {| evm_StateDB := s; evm_depth := evm_depth e; evm_readOnly := evm_readOnly e;
     evm_returnData := evm_returnData e; evm_callGasTemp := evm_callGasTemp e;
     evm_jumpdests := evm_jumpdests e; evm_abort := evm_abort e |}.
Definition set_depth (d : Z) (e : EVM) : EVM :=
  {| evm_StateDB := evm_StateDB e; evm_depth := d; evm_readOnly := evm_readOnly e;
     evm_returnData := evm_returnData e; evm_callGasTemp := evm_callGasTemp e;
     evm_jumpdests := evm_jumpdests e; evm_abort := evm_abort e |}.
Definition set_readOnly (b : bool) (e : EVM) : EVM :=
  {| evm_StateDB := evm_StateDB e; evm_depth := evm_depth e; evm_readOnly := b;
     evm_returnData := evm_returnData e; evm_callGasTemp := evm_callGasTemp e;
     evm_jumpdests := evm_jumpdests e; evm_abort := evm_abort e |}.
Definition set_returnData (r : bytes) (e : EVM) : EVM :=
  {| evm_StateDB := evm_StateDB e; evm_depth := evm_depth e; evm_readOnly := evm_readOnly e;
     evm_returnData := r; evm_callGasTemp := evm_callGasTemp e;
     evm_jumpdests := evm_jumpdests e; evm_abort := evm_abort e |}.
Definition set_callGasTemp (g : Z) (e : EVM) : EVM :=
  {| evm_StateDB := evm_StateDB e; evm_depth := evm_depth e; evm_readOnly := evm_readOnly e;
     evm_returnData := evm_returnData e; evm_callGasTemp := g;
     evm_jumpdests := evm_jumpdests e; evm_abort := evm_abort e |}.
Definition set_jumpdests (d : destinations) (e : EVM) : EVM :=
  {| evm_StateDB := evm_StateDB e; evm_depth := evm_depth e; evm_readOnly := evm_readOnly e;
     evm_returnData := evm_returnData e; evm_callGasTemp := evm_callGasTemp e;
     evm_jumpdests := d; evm_abort := evm_abort e |}.
Definition set_abort (l : list bool) (e : EVM) : EVM :=
  {| evm_StateDB := evm_StateDB e; evm_depth := evm_depth e; evm_readOnly := evm_readOnly e;
     evm_returnData := evm_returnData e; evm_callGasTemp := evm_callGasTemp e;
     evm_jumpdests := evm_jumpdests e; evm_abort := l |}.

Record frame := mkFrame {
  f_pc : Z;
  f_evm : EVM;
  f_contract : Contract;
  f_mem : Memory;
  f_stack : Stack
}.

Definition set_pc (p : Z) (f : frame) : frame :=
  {| f_pc := p; f_evm := f_evm f; f_contract := f_contract f; f_mem := f_mem f; f_stack := f_stack f |}.
Definition set_evm (e : EVM) (f : frame) : frame :=
  {| f_pc := f_pc f; f_evm := e; f_contract := f_contract f; f_mem := f_mem f; f_stack := f_stack f |}.
Definition set_contract (c : Contract) (f : frame) : frame :=
  {| f_pc := f_pc f; f_evm := f_evm f; f_contract := c; f_mem := f_mem f; f_stack := f_stack f |}.
Definition set_mem (m : Memory) (f : frame) : frame :=
  {| f_pc := f_pc f; f_evm := f_evm f; f_contract := f_contract f; f_mem := m; f_stack := f_stack f |}.
Definition set_stack (st : Stack) (f : frame) : frame :=
  {| f_pc := f_pc f; f_evm := f_evm f; f_contract := f_contract f; f_mem := f_mem f; f_stack := st |}.

(** ** The monad of instructions and gas functions *)

Definition M (A : Type) : Type := frame -> outcome ((vmError + A) * frame).
Definition ret {A} (a : A) : M A := fun f => Done (inr a, f).
Definition raise {A} (e : vmError) : M A := fun f => Done (inl e, f).
Definition bind {A B} (m : M A) (k : A -> M B) : M B := fun f =>
  match m f with
  | Done (inr a, f') => k a f'
  | Done (inl e, f') => Done (inl e, f')
  | GoPanic => GoPanic
  | NoFuel => NoFuel
  end.
Definition liftO {A} (o : outcome A) : M A := fun f =>
  match o with
  | Done a => Done (inr a, f)
  | GoPanic => GoPanic
  | NoFuel => NoFuel
  end.
Definition gets {A} (g : frame -> A) : M A := fun f => Done (inr (g f), f).
Definition modify (g : frame -> frame) : M unit := fun f => Done (inr tt, g f).

End Vm.
Arguments EVM S : clear implicits.
Arguments frame S : clear implicits.
Arguments M S A : clear implicits.

Notation "x <- m ;; k" := (bind m (fun x => k))
  (at level 20, m at level 99, k at level 200) : go_scope.
Notation "m ;;; k" := (bind m (fun _ => k)) (at level 100, k at level 200, right associativity) : go_scope.

Section Gas.
Context {S : Type} `{SDB : StateDB S} `{CR : Crypto}.
Implicit Types e : Env.

Definition Back (n : nat) : M S Z := st <- gets f_stack ;; liftO (Stack_Back st n).
Definition pop : M S Z :=
  st <- gets f_stack ;;
  r <- liftO (Stack_pop st) ;;
  modify (set_stack r.2) ;;; ret r.1.
Definition peek : M S Z := st <- gets f_stack ;; liftO (Stack_peek st).
Definition push (x : Z) : M S unit := modify (fun f => set_stack (Stack_push x (f_stack f)) f).
(** Assignment to the big integer on top of the stack. *)
Definition set_top (x : Z) : M S unit := pop ;;; push x.

Definition sdb_get {A} (g : S -> A * S) : M S A := fun f =>
  let '(a, s) := g (evm_StateDB (f_evm f)) in
  Done (inr a, set_evm (set_StateDB s (f_evm f)) f).
Definition sdb_do (g : S -> S) : M S unit :=
  modify (fun f => set_evm (set_StateDB (g (evm_StateDB (f_evm f))) (f_evm f)) f).

(** ** core/evm.go *)

Definition CanTransfer (db : S) (addr : Address) (amount : Z) : bool * S :=
  let '(b, db) := GetBalance addr db in (amount <=? b, db).
Definition Transfer (db : S) (sender recipient : Address) (amount : Z) : S :=
  AddBalance recipient amount (SubBalance sender amount db).

(** ** core/vm/gas_table.go *)

Definition gasFunc : Type := Env -> Z -> M S Z.

(** [if _, overflow = ...; overflow { return 0, errGasUintOverflow }] *)
Definition checked (r : Z * bool) : M S Z :=
  if r.2 then raise errGasUintOverflow else ret r.1.

Definition memGas (memorySize : Z) : M S Z := fun f =>
  let '(r, m) := memoryGasCost (f_mem f) memorySize in Done (r, set_mem m f).

Definition constGasFunc (gas : Z) : gasFunc := fun _ _ => ret gas.

Definition gasCallDataCopy : gasFunc := fun _ memorySize =>
  gas <- memGas memorySize ;;
  gas <- checked (SafeAdd gas GasFastestStep) ;;
  w <- Back 2 ;;
  words <- checked (bigUint64 w) ;;
  words <- checked (SafeMul (toWordSize words) CopyGas) ;;
  checked (SafeAdd gas words).

Definition gasReturnDataCopy : gasFunc := fun _ memorySize =>
  gas <- memGas memorySize ;;
  gas <- checked (SafeAdd gas GasFastestStep) ;;
  w <- Back 2 ;;
  words <- checked (bigUint64 w) ;;
  words <- checked (SafeMul (toWordSize words) CopyGas) ;;
  checked (SafeAdd gas words).

Definition gasSStore : gasFunc := fun _ _ =>
  y <- Back 1 ;;
  x <- Back 0 ;;
  addr <- gets (fun f => Contract_Address (f_contract f)) ;;
  val <- sdb_get (GetState addr (BigToHash x)) ;;
  if EmptyHash val && negb (EmptyHash (BigToHash y)) then ret SstoreSetGas
  else if negb (EmptyHash val) && EmptyHash (BigToHash y) then
    sdb_do (AddRefund SstoreRefundGas) ;;; ret SstoreClearGas
  else ret SstoreResetGas.

Definition makeGasLog (n : Z) : gasFunc := fun _ memorySize =>
  w <- Back 1 ;;
  requestedSize <- checked (bigUint64 w) ;;
  gas <- memGas memorySize ;;
  gas <- checked (SafeAdd gas LogGas) ;;
  gas <- checked (SafeAdd gas (u64 (n * LogTopicGas))) ;;
  memorySizeGas <- checked (SafeMul requestedSize LogDataGas) ;;
  checked (SafeAdd gas memorySizeGas).

Definition gasSha3 : gasFunc := fun _ memorySize =>
  gas <- memGas memorySize ;;
  gas <- checked (SafeAdd gas Sha3Gas) ;;
  w <- Back 1 ;;
  wordGas <- checked (bigUint64 w) ;;
  wordGas <- checked (SafeMul (toWordSize wordGas) Sha3WordGas) ;;
  checked (SafeAdd gas wordGas).

Definition gasCodeCopy : gasFunc := fun _ memorySize =>
  gas <- memGas memorySize ;;
  gas <- checked (SafeAdd gas GasFastestStep) ;;
  w <- Back 2 ;;
  wordGas <- checked (bigUint64 w) ;;
  wordGas <- checked (SafeMul (toWordSize wordGas) CopyGas) ;;
  checked (SafeAdd gas wordGas).

Definition gasExtCodeCopy : gasFunc := fun e memorySize =>
  gas <- memGas memorySize ;;
  gas <- checked (SafeAdd gas (gt_ExtcodeCopy (gasTable e))) ;;
  w <- Back 3 ;;
  wordGas <- checked (bigUint64 w) ;;
  wordGas <- checked (SafeMul (toWordSize wordGas) CopyGas) ;;
  checked (SafeAdd gas wordGas).

Definition gasMLoad : gasFunc := fun _ memorySize =>
  gas <- memGas memorySize ;; checked (SafeAdd gas GasFastestStep).
Definition gasMStore8 : gasFunc := fun _ memorySize =>
  gas <- memGas memorySize ;; checked (SafeAdd gas GasFastestStep).
Definition gasMStore : gasFunc := fun _ memorySize =>
  gas <- memGas memorySize ;; checked (SafeAdd gas GasFastestStep).
Definition gasCreate : gasFunc := fun _ memorySize =>
  gas <- memGas memorySize ;; checked (SafeAdd gas CreateGas).

Definition gasBalance : gasFunc := fun e _ => ret (gt_Balance (gasTable e)).
Definition gasExtCodeSize : gasFunc := fun e _ => ret (gt_ExtcodeSize (gasTable e)).
Definition gasSLoad : gasFunc := fun e _ => ret (gt_SLoad (gasTable e)).

Definition gasExp : gasFunc := fun e _ =>
  x <- Back 1 ;;
  let expByteLen := u64 ((BitLen x + 7) / 8) in
  checked (SafeAdd (u64 (expByteLen * gt_ExpByte (gasTable e))) GasSlowStep).

(** The common tail of the gas functions of the CALL family: the memory has
    been charged, [gas] is the base cost. *)
Definition gasCallTail (e : Env) (gas : Z) : M S Z :=
  avail <- gets (fun f => c_Gas (f_contract f)) ;;
  callCost <- Back 0 ;;
  match callGas (gasTable e) avail gas callCost with
  | inl err =>
      modify (fun f => set_evm (set_callGasTemp 0 (f_evm f)) f) ;;; raise err
  | inr g =>
      modify (fun f => set_evm (set_callGasTemp g (f_evm f)) f) ;;;
      checked (SafeAdd gas g)
  end.

Definition gasCall : gasFunc := fun e memorySize =>
  let gas := gt_Calls (gasTable e) in
  v <- Back 2 ;;
  let transfersValue := negb (Sign v =? 0) in
  a <- Back 1 ;;
  let address := BigToAddress a in
  gas <- (if env_IsEIP158 e then
            if transfersValue then
              empty <- sdb_get (Empty address) ;;
              ret (if empty then u64 (gas + CallNewAccountGas) else gas)
            else ret gas
          else
            found <- sdb_get (Exist address) ;;
            ret (if negb found then u64 (gas + CallNewAccountGas) else gas)) ;;
  let gas := if transfersValue then u64 (gas + CallValueTransferGas) else gas in
  memoryGas <- memGas memorySize ;;
  gas <- checked (SafeAdd gas memoryGas) ;;
  gasCallTail e gas.

Definition gasCallCode : gasFunc := fun e memorySize =>
  let gas := gt_Calls (gasTable e) in
  v <- Back 2 ;;
  let gas := if negb (Sign v =? 0) then u64 (gas + CallValueTransferGas) else gas in
  memoryGas <- memGas memorySize ;;
  gas <- checked (SafeAdd gas memoryGas) ;;
  gasCallTail e gas.

Definition gasReturn : gasFunc := fun _ memorySize => memGas memorySize.
Definition gasRevert : gasFunc := fun _ memorySize => memGas memorySize.

Definition gasSuicide : gasFunc := fun e _ =>
  self <- gets (fun f => Contract_Address (f_contract f)) ;;
  gas <- (if env_IsEIP150 e then
            let gas := gt_Suicide (gasTable e) in
            x <- Back 0 ;;
            let address := BigToAddress x in
            if env_IsEIP158 e then
              empty <- sdb_get (Empty address) ;;
              if empty then
                b <- sdb_get (GetBalance self) ;;
                ret (if negb (Sign b =? 0) then u64 (gas + gt_CreateBySuicide (gasTable e)) else gas)
              else ret gas
            else
              found <- sdb_get (Exist address) ;;
              ret (if negb found then u64 (gas + gt_CreateBySuicide (gasTable e)) else gas)
          else ret 0) ;;
  suicided <- sdb_get (HasSuicided self) ;;
  (if negb suicided then sdb_do (AddRefund SuicideRefundGas) else ret tt) ;;;
  ret gas.

Definition gasDelegateCall : gasFunc := fun e memorySize =>
  gas <- memGas memorySize ;;
  gas <- checked (SafeAdd gas (gt_Calls (gasTable e))) ;;
  gasCallTail e gas.
Definition gasStaticCall : gasFunc := fun e memorySize =>
  gas <- memGas memorySize ;;
  gas <- checked (SafeAdd gas (gt_Calls (gasTable e))) ;;
  gasCallTail e gas.

Definition gasPush : gasFunc := fun _ _ => ret GasFastestStep.
Definition gasSwap : gasFunc := fun _ _ => ret GasFastestStep.
Definition gasDup : gasFunc := fun _ _ => ret GasFastestStep.
End Gas.
