(* ===== verification/Precompiles.v ===== *)
(** Precompiled contracts: core/vm/contracts.go. *)
From S2P Require Import Prelude BigMath Params Machine StateSpec Vm.

Section Precompiles.
Context `{CR : Crypto}.

(** The implementations of [PrecompiledContract]. *)
Inductive PrecompiledContract :=
| ecrecover | sha256hash | ripemd160hash | dataCopy
| bigModExp | bn256Add | bn256ScalarMul | bn256Pairing.

Definition PrecompiledContractsHomestead : gmap Address PrecompiledContract :=
  list_to_map
    [ (BytesToAddress [Byte.x01], ecrecover);
      (BytesToAddress [Byte.x02], sha256hash);
      (BytesToAddress [Byte.x03], ripemd160hash);
      (BytesToAddress [Byte.x04], dataCopy) ].

Definition PrecompiledContractsByzantium : gmap Address PrecompiledContract :=
  list_to_map
    [ (BytesToAddress [Byte.x01], ecrecover);
      (BytesToAddress [Byte.x02], sha256hash);
      (BytesToAddress [Byte.x03], ripemd160hash);
      (BytesToAddress [Byte.x04], dataCopy);
      (BytesToAddress [Byte.x05], bigModExp);
      (BytesToAddress [Byte.x06], bn256Add);
      (BytesToAddress [Byte.x07], bn256ScalarMul);
      (BytesToAddress [Byte.x08], bn256Pairing) ].

(** *** ecrecover

    [append(input[64:128], v)] writes into the caller's buffer when the
    buffer is longer than 128 bytes: the model returns the output and the
    input as it is left behind. *)
Definition ecrecover_Run (input : bytes) : outcome (bytes * bytes) :=
  let padded := RightPadBytes input 128 in
  let* rb := slice padded 64 96 in
  let* sb := slice padded 96 128 in
  let* b63 := index padded 63 in
  let v := (b2z b63 - 27) mod 256 in
  let* mid := slice padded 32 63 in
  if negb (allZero mid) || negb (ValidateSignatureValues v (big_SetBytes rb) (big_SetBytes sb) false)
  then Done ([], input)
  else
    let* hash := slice padded 0 32 in
    let* sig := slice padded 64 128 in
    let input' := if 128 <? len input then <[128%nat := z2b v]> input else input in
    match Ecrecover hash (sig ++ [z2b v]) with
    | None => Done ([], input')
    | Some pubKey =>
        let* key := slice pubKey 1 (len pubKey) in
        let* low := slice (Keccak256 key) 12 (len (Keccak256 key)) in
        Done (LeftPadBytes low 32, input')
    end.

(** *** Gas linear in the number of input words *)
Definition words32 (input : bytes) : Z := u64 (len input + 31) / 32.

(** *** bigModExp *)
Definition bigModExp_tail (input : bytes) : bytes :=
  if 96 <? len input then drop 96 input else [].

Definition bigModExp_RequiredGas (input : bytes) : outcome Z :=
  let* b := getData input 0 32 in
  let* x := getData input 32 32 in
  let* m := getData input 64 32 in
  let baseLen := big_SetBytes b in
  let expLen := big_SetBytes x in
  let modLen := big_SetBytes m in
  let input := bigModExp_tail input in
  let* expHead :=
    (if len input <=? baseLen then Done 0
     else if 32 <? expLen then
       let* d := getData input (big_Uint64 baseLen) 32 in Done (big_SetBytes d)
     else
       let* d := getData input (big_Uint64 baseLen) (big_Uint64 expLen) in Done (big_SetBytes d)) in
  let msb := if 0 <? BitLen expHead then BitLen expHead - 1 else 0 in
  let adjExpLen := (if 32 <? expLen then 8 * (expLen - 32) else 0) + msb in
  let gas := BigMax modLen baseLen in
  let gas :=
    if gas <=? 64 then gas * gas
    else if gas <=? 1024 then gas * gas / 4 + (96 * gas - 3072)
    else gas * gas / 16 + (480 * gas - 199680) in
  let gas := gas * BigMax adjExpLen 1 / ModExpQuadCoeffDiv in
  Done (if 64 <? BitLen gas then MaxUint64 else big_Uint64 gas).

(** [base.Exp(base, exp, mod)] for a positive modulus, by repeated squaring
    on the bits of the exponent. *)
Fixpoint pow_mod_pos (base : Z) (exp : positive) (m : Z) : Z :=
  match exp with
  | xH => base mod m
  | xO p => let r := pow_mod_pos base p m in r * r mod m
  | xI p => let r := pow_mod_pos base p m in (r * r mod m) * base mod m
  end.
Definition big_Exp (base exp m : Z) : Z :=
  match exp with
  | Zpos p => pow_mod_pos base p m
  | _ => 1 mod m
  end.

(** The operands are padded to the lengths that the input asks for, with
    [make], which panics for lengths above [maxAlloc], a constant of the Go
    runtime that no slice is longer than.  Lengths are below [noLimit]. *)
Definition noLimit : Z := 2 ^ 64.
Definition getData_make (maxAlloc : Z) (data : bytes) (start size : Z) : outcome bytes :=
  if maxAlloc <? size then GoPanic else getData data start size.
Definition LeftPadBytes_make (maxAlloc : Z) (slice : bytes) (l : Z) : outcome bytes :=
  if maxAlloc <? l then GoPanic else Done (LeftPadBytes slice l).

Definition bigModExp_Run (maxAlloc : Z) (input : bytes) : outcome bytes :=
  let* b := getData input 0 32 in
  let* x := getData input 32 32 in
  let* m := getData input 64 32 in
  let baseLen := big_Uint64 (big_SetBytes b) in
  let expLen := big_Uint64 (big_SetBytes x) in
  let modLen := big_Uint64 (big_SetBytes m) in
  let input := bigModExp_tail input in
  if (baseLen =? 0) && (modLen =? 0) then Done []
  else
    let* bb := getData_make maxAlloc input 0 baseLen in
    let* xb := getData_make maxAlloc input baseLen expLen in
    let* mb := getData_make maxAlloc input (u64 (baseLen + expLen)) modLen in
    let base := big_SetBytes bb in
    let exp := big_SetBytes xb in
    let mod_ := big_SetBytes mb in
    if BitLen mod_ =? 0 then LeftPadBytes_make maxAlloc [] (i64 modLen)
    else LeftPadBytes_make maxAlloc (big_Bytes (big_Exp base exp mod_)) (i64 modLen).

(** *** bn256 *)
Definition newCurvePoint (blob : bytes) : vmError + G1 :=
  match G1_Unmarshal blob with Some p => inr p | None => inl errPrecompile end.
Definition newTwistPoint (blob : bytes) : vmError + G2 :=
  match G2_Unmarshal blob with Some p => inr p | None => inl errPrecompile end.

Definition bn256Add_Run (input : bytes) : outcome (vmError + bytes) :=
  let* b1 := getData input 0 64 in
  match newCurvePoint b1 with
  | inl err => Done (inl err)
  | inr x =>
      let* b2 := getData input 64 64 in
      match newCurvePoint b2 with
      | inl err => Done (inl err)
      | inr y => Done (inr (G1_Marshal (G1_Add x y)))
      end
  end.

Definition bn256ScalarMul_Run (input : bytes) : outcome (vmError + bytes) :=
  let* b1 := getData input 0 64 in
  match newCurvePoint b1 with
  | inl err => Done (inl err)
  | inr p =>
      let* b2 := getData input 64 32 in
      Done (inr (G1_Marshal (G1_ScalarMult p (big_SetBytes b2))))
  end.

(** The loop of [bn256Pairing.Run]: [n] coordinate pairs are left at [i]. *)
Fixpoint pairing_points (n : nat) (input : bytes) (i : Z) (cs : list G1) (ts : list G2)
  : outcome (vmError + list G1 * list G2) :=
  match n with
  | O => Done (inr (cs, ts))
  | S n' =>
      let* b1 := slice input i (i + 64) in
      match newCurvePoint b1 with
      | inl err => Done (inl err)
      | inr c =>
          let* b2 := slice input (i + 64) (i + 192) in
          match newTwistPoint b2 with
          | inl err => Done (inl err)
          | inr t => pairing_points n' input (i + 192) (cs ++ [c]) (ts ++ [t])
          end
      end
  end.
Definition true32Byte : bytes := be_fixed 32 1.
Definition false32Byte : bytes := zeros 32.
Definition bn256Pairing_Run (input : bytes) : outcome (vmError + bytes) :=
  if 0 <? len input mod 192 then Done (inl errBadPairingInput)
  else
    let* r := pairing_points (Z.to_nat (len input / 192)) input 0 [] [] in
    match r with
    | inl err => Done (inl err)
    | inr (cs, ts) => Done (inr (if PairingCheck cs ts then true32Byte else false32Byte))
    end.

(** *** Gas and the simple contracts *)
Definition ecrecover_RequiredGas (input : bytes) : Z := EcrecoverGas.
Definition sha256hash_RequiredGas (input : bytes) : Z :=
  u64 (words32 input * Sha256PerWordGas + Sha256BaseGas).
Definition ripemd160hash_RequiredGas (input : bytes) : Z :=
  u64 (words32 input * Ripemd160PerWordGas + Ripemd160BaseGas).
Definition dataCopy_RequiredGas (input : bytes) : Z :=
  u64 (words32 input * IdentityPerWordGas + IdentityBaseGas).
Definition bn256Add_RequiredGas (input : bytes) : Z := Bn256AddGas.
Definition bn256ScalarMul_RequiredGas (input : bytes) : Z := Bn256ScalarMulGas.
Definition bn256Pairing_RequiredGas (input : bytes) : Z :=
  u64 (Bn256PairingBaseGas + u64 (len input / 192) * Bn256PairingPerPointGas).

Definition sha256hash_Run (input : bytes) : bytes := sha256_Sum256 input.
Definition ripemd160hash_Run (input : bytes) : bytes := LeftPadBytes (ripemd160_Sum input) 32.
Definition dataCopy_Run (input : bytes) : bytes := input.

(** *** Dispatch: the interface [PrecompiledContract] *)
Definition RequiredGas (p : PrecompiledContract) (input : bytes) : outcome Z :=
  match p with
  | ecrecover => Done (ecrecover_RequiredGas input)
  | sha256hash => Done (sha256hash_RequiredGas input)
  | ripemd160hash => Done (ripemd160hash_RequiredGas input)
  | dataCopy => Done (dataCopy_RequiredGas input)
  | bigModExp => bigModExp_RequiredGas input
  | bn256Add => Done (bn256Add_RequiredGas input)
  | bn256ScalarMul => Done (bn256ScalarMul_RequiredGas input)
  | bn256Pairing => Done (bn256Pairing_RequiredGas input)
  end.

Definition precompile_Run (maxAlloc : Z) (p : PrecompiledContract) (input : bytes) : outcome (vmError + bytes) :=
  match p with
  | ecrecover => let* r := ecrecover_Run input in Done (inr r.1)
  | sha256hash => Done (inr (sha256hash_Run input))
  | ripemd160hash => Done (inr (ripemd160hash_Run input))
  | dataCopy => Done (inr (dataCopy_Run input))
  | bigModExp => let* r := bigModExp_Run maxAlloc input in Done (inr r)
  | bn256Add => bn256Add_Run input
  | bn256ScalarMul => bn256ScalarMul_Run input
  | bn256Pairing => bn256Pairing_Run input
  end.

Definition RunPrecompiledContract (maxAlloc : Z) (p : PrecompiledContract) (input : bytes) (contract : Contract)
  : outcome (bytes * option vmError * Contract) :=
  let* gas := RequiredGas p input in
  let '(ok, contract) := UseGas gas contract in
  if ok then
    let* r := precompile_Run maxAlloc p input in
    match r with
    | inr ret => Done (ret, None, contract)
    | inl err => Done ([], Some err, contract)
    end
  else Done ([], Some ErrOutOfGas, contract).

Definition precompiles (e : Env) : gmap Address PrecompiledContract :=
  if env_IsByzantium e then PrecompiledContractsByzantium else PrecompiledContractsHomestead.
End Precompiles.
