(* ===== verification/PrecompileFacts.v ===== *)
(** Facts about the precompiled contracts: with a realistic amount of gas
    they never panic, and what modular exponentiation computes. *)
From S2P Require Import Prelude BigMath Params Machine MachineFacts StateSpec Vm Precompiles.

(** The documented output lengths of the crypto packages. *)
Class CryptoSpec `{CR : Crypto} := {
  Keccak256_len d : len (Keccak256 d) = 32;
  sha256_len d : len (sha256_Sum256 d) = 32;
  ripemd160_len d : len (ripemd160_Sum d) = 20;
  Ecrecover_len h s pub : Ecrecover h s = Some pub -> len pub = 65;
  G1_Marshal_len p : len (G1_Marshal p) = 64
}.

Lemma pow_mod_pos_spec b m : 0 < m -> forall p, pow_mod_pos b p m = b ^ Zpos p mod m.
Proof.
  intros Hm. induction p as [p IH|p IH|]; cbn [pow_mod_pos].
  - rewrite IH. replace (Z.pos p~1) with (Z.pos p + Z.pos p + 1) by lia.
    rewrite !Z.pow_add_r, Z.pow_1_r by lia.
    by rewrite <-Z.mul_mod, Z.mul_mod_idemp_l by lia.
  - rewrite IH. replace (Z.pos p~0) with (Z.pos p + Z.pos p) by lia.
    rewrite Z.pow_add_r by lia. by rewrite <-Z.mul_mod by lia.
  - by rewrite Z.pow_1_r.
Qed.

Lemma big_Exp_spec b x m : 0 <= x -> 0 < m -> big_Exp b x m = b ^ x mod m.
Proof.
  intros Hx Hm. destruct x as [|p|p]; simpl; [by rewrite Z.pow_0_r| |lia].
  by apply pow_mod_pos_spec.
Qed.

Lemma len_LeftPadBytes l n : len (LeftPadBytes l n) <= Z.max n (len l).
Proof.
  destruct (decide (0 <= n)).
  - rewrite LeftPadBytes_spec by done. destruct (decide (n <= len l)).
    + unfold zeros. replace (Z.to_nat (n - len l)) with O by lia. simpl. lia.
    + rewrite len_app, len_zeros; lia.
  - unfold LeftPadBytes. pose proof (len_nonneg l). bool_cases; lia.
Qed.


(** ** Modular exponentiation *)

(** The cost formula on the sizes. *)
Definition modexp_complexity (x : Z) : Z :=
  if x <=? 64 then x * x
  else if x <=? 1024 then x * x / 4 + (96 * x - 3072)
  else x * x / 16 + (480 * x - 199680).

Lemma modexp_complexity_pos x : 1 <= x -> 1 <= modexp_complexity x.
Proof.
  intros. unfold modexp_complexity.
  assert (0 <= x * x / 4 /\ 0 <= x * x / 16) by (split; apply Z.div_pos; nia).
  bool_cases; nia.
Qed.

Lemma modexp_complexity_large x : 1024 < x -> x * x / 16 <= modexp_complexity x.
Proof. intros. unfold modexp_complexity. bool_cases; lia. Qed.

(** Gas that fits in 62 bits bounds the operand sizes. *)
Lemma modexp_gas_bounds x adj :
  1 <= x -> modexp_complexity x * BigMax adj 1 / 20 < 2 ^ 62 ->
  x < 2 ^ 40 /\ adj < 20 * 2 ^ 62 + 20.
Proof.
  intros Hx Hg. pose proof (modexp_complexity_pos x Hx) as Hp.
  assert (Hm : 1 <= BigMax adj 1 /\ adj <= BigMax adj 1) by (unfold BigMax; bool_cases; lia).
  assert (Hc : modexp_complexity x * BigMax adj 1 < 20 * 2 ^ 62 + 20).
  { pose proof (Z.mul_succ_div_gt (modexp_complexity x * BigMax adj 1) 20 ltac:(lia)). lia. }
  split; [|nia].
  destruct (Z.le_gt_cases x 1024); [lia|].
  pose proof (modexp_complexity_large x ltac:(lia)).
  destruct (Z.lt_ge_cases x (2 ^ 40)) as [|Hbig]; [done|].
  assert (2 ^ 76 <= x * x / 16) by (apply Z.div_le_lower_bound; nia). nia.
Qed.

(** The sizes are bounded by the gas, with room for the cheap small ones. *)
Lemma modexp_gas_sizes x adj g :
  1 <= x -> modexp_complexity x * BigMax adj 1 / 20 = g -> x <= 4 * g + 1024 /\ adj < 20 * g + 20.
Proof.
  intros Hx <-. pose proof (modexp_complexity_pos x Hx) as Hp.
  assert (Hm : 1 <= BigMax adj 1 /\ adj <= BigMax adj 1) by (unfold BigMax; bool_cases; lia).
  set (c := modexp_complexity x * BigMax adj 1) in *. assert (Hc : modexp_complexity x <= c /\ adj <= c) by (unfold c; nia).
  pose proof (Z.mul_succ_div_gt c 20 ltac:(lia)). assert (0 <= c / 20) by (apply Z.div_pos; lia). split; [|lia].
  destruct (Z.le_gt_cases x 1024); [lia|]. enough (480 * x - 199680 <= c) by lia.
  etransitivity; [|apply (proj1 Hc)]. assert (Hq : 0 <= x * x / 16) by (apply Z.div_pos; nia).
  unfold modexp_complexity. destruct (Z.leb_spec x 64); [lia|]. destruct (Z.leb_spec x 1024); lia.
Qed.

Lemma len_bigModExp_tail input : len (bigModExp_tail input) <= len input.
Proof.
  unfold bigModExp_tail. bool_cases; [|apply len_nonneg].
  unfold len. rewrite length_drop. lia.
Qed.

Lemma bigModExp_RequiredGas_spec input :
  len input < 2 ^ 62 ->
  exists b x m adj,
    getData input 0 32 = Done b /\ getData input 32 32 = Done x /\ getData input 64 32 = Done m /\
    8 * (big_SetBytes x - 32) <= adj /\
    bigModExp_RequiredGas input =
      (let g := modexp_complexity (BigMax (big_SetBytes m) (big_SetBytes b)) * BigMax adj 1
                / ModExpQuadCoeffDiv in
       Done (if 64 <? BitLen g then MaxUint64 else big_Uint64 g)).
Proof.
  intros Hl. unfold bigModExp_RequiredGas.
  destruct (getData_done input 0 32) as (b & -> & _); [lia..|].
  destruct (getData_done input 32 32) as (x & -> & _); [lia..|].
  destruct (getData_done input 64 32) as (m & -> & _); [lia..|]. cbn [outcome_bind].
  set (tl := bigModExp_tail input).
  assert (Htl : len tl <= len input) by apply len_bigModExp_tail.
  pose proof (big_SetBytes_nonneg b). pose proof (big_SetBytes_nonneg x).
  assert (Hhead : exists h, 0 <= h /\
    (if len tl <=? big_SetBytes b then Done 0
     else if 32 <? big_SetBytes x
          then let* d := getData tl (big_Uint64 (big_SetBytes b)) 32 in Done (big_SetBytes d)
          else let* d := getData tl (big_Uint64 (big_SetBytes b)) (big_Uint64 (big_SetBytes x)) in
               Done (big_SetBytes d)) = Done h).
  { destruct (_ <=? _) eqn:E; [by exists 0|]. apply Z.leb_gt in E.
    destruct (Z.ltb_spec 32 (big_SetBytes x)).
    - destruct (getData_done tl (big_Uint64 (big_SetBytes b)) 32) as (d & -> & _);
        [lia|apply big_Uint64_range|lia|]. eauto using big_SetBytes_nonneg.
    - rewrite (big_Uint64_small (big_SetBytes x)) by (unfold is_u64; lia).
      destruct (getData_done tl (big_Uint64 (big_SetBytes b)) (big_SetBytes x)) as (d & -> & _);
        [lia|apply big_Uint64_range|lia|]. eauto using big_SetBytes_nonneg. }
  destruct Hhead as (h & Hh & ->). cbn [outcome_bind].
  eexists b, x, m, _. repeat split; try reflexivity.
  pose proof (BitLen_nonneg h). bool_cases; lia.
Qed.

(** What a price below 2^62 says about the declared operand lengths. *)
Definition paid_lengths (b x m g : Z) : Prop :=
  (b < 2 ^ 40 /\ m < 2 ^ 40 /\ x < 5 * 2 ^ 61 + 40) /\
  b <= 4 * g + 1024 /\ m <= 4 * g + 1024 /\ x <= 4 * g + 1024.
Lemma bigModExp_paid_bounds input g b x m :
  len input < 2 ^ 62 -> bigModExp_RequiredGas input = Done g -> g < 2 ^ 62 ->
  getData input 0 32 = Done b -> getData input 32 32 = Done x -> getData input 64 32 = Done m ->
  (big_SetBytes b = 0 /\ big_SetBytes m = 0) \/
  paid_lengths (big_SetBytes b) (big_SetBytes x) (big_SetBytes m) g.
Proof.
  intros Hl Hg Hb Eb Ex Em.
  destruct (bigModExp_RequiredGas_spec input Hl) as (b' & x' & m' & adj & Eb' & Ex' & Em' & Hadj & HG).
  rewrite Eb in Eb'. rewrite Ex in Ex'. rewrite Em in Em'.
  injection Eb' as <-. injection Ex' as <-. injection Em' as <-.
  rewrite Hg in HG. injection HG as Eg.
  pose proof (big_SetBytes_nonneg b). pose proof (big_SetBytes_nonneg m).
  set (B := big_SetBytes b) in *. set (X := big_SetBytes x) in *. set (M := big_SetBytes m) in *.
  destruct (Z.lt_ge_cases (BigMax M B) 1) as [Hz|Hnz].
  { left. revert Hz. unfold BigMax. bool_cases; lia. }
  right. unfold ModExpQuadCoeffDiv in *.
  assert (Hgas : modexp_complexity (BigMax M B) * BigMax adj 1 / 20 < 2 ^ 62 /\
                 modexp_complexity (BigMax M B) * BigMax adj 1 / 20 = g).
  { pose proof (modexp_complexity_pos _ Hnz).
    assert (1 <= BigMax adj 1) by (unfold BigMax; bool_cases; lia).
    revert Eg. destruct (Z.ltb_spec 64 (BitLen (modexp_complexity (BigMax M B) * BigMax adj 1 / 20)))
      as [|HB]; intros Eg; [lia|].
    apply BitLen_spec in HB; [|lia]. rewrite big_Uint64_small in Eg; [by subst g|].
    unfold is_u64. assert (0 <= modexp_complexity (BigMax M B) * BigMax adj 1 / 20); [|lia].
    apply Z.div_pos; nia. }
  destruct Hgas as [Hgas Heq]. apply modexp_gas_bounds in Hgas as [HL HX]; [|done].
  apply modexp_gas_sizes in Heq as [HS HA]; [|done]. clear Eg. unfold paid_lengths.
  revert HL HS. unfold BigMax. bool_cases; lia.
Qed.

(** The result of the exponentiation is no longer than the modulus. *)
Lemma len_modexp_result d1 d2 d3 :
  0 < big_SetBytes d3 ->
  len (big_Bytes (big_Exp (big_SetBytes d1) (big_SetBytes d2) (big_SetBytes d3))) <= len d3.
Proof.
  intros Hpos. rewrite len_big_Bytes.
  pose proof (big_SetBytes_range d3). pose proof (len_nonneg d3).
  rewrite big_Exp_spec by eauto using big_SetBytes_nonneg.
  pose proof (Z.mod_pos_bound (big_SetBytes d1 ^ big_SetBytes d2) (big_SetBytes d3) Hpos).
  assert (BitLen (big_SetBytes d1 ^ big_SetBytes d2 mod big_SetBytes d3) <= 8 * len d3); [|zlia].
  apply BitLen_spec; [lia|]. rewrite Z.pow_mul_r by lia. change (2 ^ 8) with 256. lia.
Qed.

Lemma getData_make_fits maxAlloc data start size :
  size <= maxAlloc -> getData_make maxAlloc data start size = getData data start size.
Proof. intros H. unfold getData_make. by destruct (Z.ltb_spec maxAlloc size); [lia|]. Qed.
Lemma LeftPadBytes_make_fits maxAlloc l n :
  n <= maxAlloc -> LeftPadBytes_make maxAlloc l n = Done (LeftPadBytes l n).
Proof. intros H. unfold LeftPadBytes_make. by destruct (Z.ltb_spec maxAlloc n); [lia|]. Qed.

(** Paid for with less than 2^62 gas, [bigModExp.Run] does not panic where
    the lengths that the gas pays for are below the limit. *)
Lemma bigModExp_Run_done maxAlloc input g :
  len input < 2 ^ 62 -> bigModExp_RequiredGas input = Done g -> g < 2 ^ 62 ->
  noLimit <= maxAlloc \/ 4 * g + 1024 <= maxAlloc ->
  exists out, bigModExp_Run maxAlloc input = Done out /\ bigModExp_Run noLimit input = Done out /\ len out < 2 ^ 62.
Proof.
  intros Hl Hg Hb Hmax. unfold bigModExp_Run.
  destruct (getData_done input 0 32) as (b & Eb & _); [lia..|].
  destruct (getData_done input 32 32) as (x & Ex & _); [lia..|].
  destruct (getData_done input 64 32) as (m & Em & _); [lia..|].
  pose proof (bigModExp_paid_bounds input g b x m Hl Hg Hb Eb Ex Em) as Hbounds.
  rewrite Eb, Ex, Em. cbn [outcome_bind].
  pose proof (big_SetBytes_nonneg b). pose proof (big_SetBytes_nonneg x).
  pose proof (big_SetBytes_nonneg m). pose proof (len_bigModExp_tail input) as Htl.
  destruct Hbounds as [[-> ->]|((HB & HM & HX) & HB' & HM' & HX')]; [exists []; by split|].
  rewrite !big_Uint64_small by (unfold is_u64; lia).
  destruct (_ && _); [exists []; by split|].
  set (tl := bigModExp_tail input) in *. unfold noLimit in *.
  rewrite !getData_make_fits by lia.
  destruct (getData_done tl 0 (big_SetBytes b)) as (d1 & -> & _); [lia..|].
  destruct (getData_done tl (big_SetBytes b) (big_SetBytes x)) as (d2 & -> & _); [lia..|].
  cbn [outcome_bind].
  destruct (getData_done tl (u64 (big_SetBytes b + big_SetBytes x)) (big_SetBytes m))
    as (d3 & -> & Hd3); [lia|apply u64_range|lia|]. cbn [outcome_bind].
  rewrite i64_small, !LeftPadBytes_make_fits by lia. pose proof (big_SetBytes_nonneg d3).
  destruct (Z.eqb_spec (BitLen (big_SetBytes d3)) 0) as [|E3]; eexists; do 2 (split; [done|]);
    (eapply Z.le_lt_trans; [apply len_LeftPadBytes|]); [unfold len; simpl; lia|].
  apply Z.max_lub_lt; [lia|]. eapply Z.le_lt_trans; [apply len_modexp_result|lia].
  destruct (decide (big_SetBytes d3 = 0)) as [E0|]; [by rewrite E0 in E3|lia].
Qed.

(** ** The other contracts *)

Section Facts.
Context `{CS : CryptoSpec}.

Lemma slice_ok {A} (l : list A) a b :
  0 <= a <= b -> b <= len l -> exists d, slice l a b = Done d /\ len d = b - a.
Proof. intros. rewrite slice_done by done. eexists. split; [done|by apply len_take_drop]. Qed.

Lemma ecrecover_Run_done input :
  exists out input', ecrecover_Run input = Done (out, input') /\ len out <= 32.
Proof.
  unfold ecrecover_Run.
  assert (Hp : 128 <= len (RightPadBytes input 128)) by (rewrite len_RightPadBytes; lia).
  set (p := RightPadBytes input 128) in *.
  destruct (slice_ok p 64 96) as (? & -> & _); [lia..|].
  destruct (slice_ok p 96 128) as (? & -> & _); [lia..|].
  destruct (index_done p 63) as (? & -> & _); [lia|].
  destruct (slice_ok p 32 63) as (? & -> & _); [lia..|]. cbn [outcome_bind].
  destruct (_ || _); [by eexists _, _|].
  destruct (slice_ok p 0 32) as (h & -> & _); [lia..|].
  destruct (slice_ok p 64 128) as (s & -> & _); [lia..|]. cbn [outcome_bind].
  destruct (Ecrecover h _) as [pub|] eqn:E; [|by eexists _, _].
  apply Ecrecover_len in E.
  destruct (slice_ok pub 1 (len pub)) as (k & -> & _); [lia..|]. cbn [outcome_bind].
  pose proof (Keccak256_len k).
  destruct (slice_ok (Keccak256 k) 12 (len (Keccak256 k))) as (w & -> & Hw); [lia..|].
  cbn [outcome_bind]. eexists _, _. split; [done|].
  etransitivity; [apply len_LeftPadBytes|]. lia.
Qed.

Lemma bn256Add_Run_done input : len input < 2 ^ 62 ->
  exists r, bn256Add_Run input = Done r /\ forall out, r = inr out -> len out = 64.
Proof.
  intros Hl. unfold bn256Add_Run.
  destruct (getData_done input 0 64) as (? & -> & _); [lia..|]. cbn [outcome_bind].
  destruct (newCurvePoint _); [by eexists|].
  destruct (getData_done input 64 64) as (? & -> & _); [lia..|]. cbn [outcome_bind].
  destruct (newCurvePoint _); [by eexists|]. eexists. split; [done|].
  intros ? [= <-]. apply G1_Marshal_len.
Qed.

Lemma bn256ScalarMul_Run_done input : len input < 2 ^ 62 ->
  exists r, bn256ScalarMul_Run input = Done r /\ forall out, r = inr out -> len out = 64.
Proof.
  intros Hl. unfold bn256ScalarMul_Run.
  destruct (getData_done input 0 64) as (? & -> & _); [lia..|]. cbn [outcome_bind].
  destruct (newCurvePoint _); [by eexists|].
  destruct (getData_done input 64 32) as (? & -> & _); [lia..|]. cbn [outcome_bind].
  eexists. split; [done|]. intros ? [= <-]. apply G1_Marshal_len.
Qed.

Lemma pairing_points_done n : forall input i cs ts,
  0 <= i -> i + 192 * Z.of_nat n <= len input ->
  exists r, pairing_points n input i cs ts = Done r.
Proof.
  induction n as [|n IH]; intros input i cs ts Hi Hl; [by eexists|].
  cbn [pairing_points].
  destruct (slice_ok input i (i + 64)) as (? & -> & _); [lia..|]. cbn [outcome_bind].
  destruct (newCurvePoint _); [by eexists|].
  destruct (slice_ok input (i + 64) (i + 192)) as (? & -> & _); [lia..|]. cbn [outcome_bind].
  destruct (newTwistPoint _); [by eexists|]. apply IH; lia.
Qed.

Lemma bn256Pairing_Run_done input :
  exists r, bn256Pairing_Run input = Done r /\ forall out, r = inr out -> len out = 32.
Proof.
  unfold bn256Pairing_Run. pose proof (len_nonneg input).
  destruct (Z.ltb_spec 0 (len input mod 192)); [by eexists|].
  destruct (pairing_points_done (Z.to_nat (len input / 192)) input 0 [] []) as [[|[cs ts]] ->];
    [lia|zlia|by eexists|].
  cbn [outcome_bind]. eexists. split; [done|]. intros ? [= <-]. by destruct (PairingCheck _ _).
Qed.

(** A precompiled contract never panics if the limit of [make] leaves room for
    the lengths that the gas pays for, and never returns gas it did not get. *)
Lemma RunPrecompiledContract_fits maxAlloc p input c :
  len input < 2 ^ 62 -> 0 <= c_Gas c < 2 ^ 62 -> noLimit <= maxAlloc \/ 4 * c_Gas c + 1024 <= maxAlloc ->
  exists ret err c', RunPrecompiledContract maxAlloc p input c = Done (ret, err, c') /\
    RunPrecompiledContract noLimit p input c = Done (ret, err, c') /\
    len ret < 2 ^ 62 /\ 0 <= c_Gas c' <= c_Gas c.
Proof.
  intros Hl Hg Hmax. unfold RunPrecompiledContract, UseGas.
  assert (HG : exists g, RequiredGas p input = Done g /\ 0 <= g).
  { destruct p; simpl; try (eexists; split; [done|]; first [apply u64_range | done]).
    destruct (bigModExp_RequiredGas_spec input Hl) as (? & ? & ? & ? & _ & _ & _ & _ & ->).
    eexists. split; [done|]. destruct (_ <? _); [lia|apply u64_range]. }
  destruct HG as (g & Eg & Hg0). rewrite Eg. cbn [outcome_bind].
  destruct (Z.ltb_spec (c_Gas c) g); [by eexists _, _, _; repeat split; simpl; lia|].
  assert (HR : exists r, precompile_Run maxAlloc p input = Done r /\ precompile_Run noLimit p input = Done r /\
                         forall out, r = inr out -> len out < 2 ^ 62).
  { destruct p; simpl in *.
    - destruct (ecrecover_Run_done input) as (? & ? & -> & ?). eexists. do 2 (split; [done|]).
      intros ? [= <-]. simpl. lia.
    - eexists. do 2 (split; [done|]). intros ? [= <-]. rewrite sha256_len. lia.
    - eexists. do 2 (split; [done|]). intros ? [= <-]. eapply Z.le_lt_trans; [apply len_LeftPadBytes|].
      rewrite ripemd160_len. lia.
    - eexists. do 2 (split; [done|]). by intros ? [= <-].
    - destruct (bigModExp_Run_done maxAlloc input g) as (? & -> & -> & ?); [lia|done|lia|lia|].
      eexists. do 2 (split; [done|]). by intros ? [= <-].
    - destruct (bn256Add_Run_done input Hl) as (? & -> & Ho). eexists. do 2 (split; [done|]).
      intros ? ->. rewrite (Ho _ eq_refl). lia.
    - destruct (bn256ScalarMul_Run_done input Hl) as (? & -> & Ho). eexists. do 2 (split; [done|]).
      intros ? ->. rewrite (Ho _ eq_refl). lia.
    - destruct (bn256Pairing_Run_done input) as (? & -> & Ho). eexists. do 2 (split; [done|]).
      intros ? ->. rewrite (Ho _ eq_refl). lia. }
  destruct HR as (r & -> & -> & Hout). cbn [outcome_bind].
  destruct r; eexists _, _, _; do 2 (split; [done|]); simpl;
    (rewrite u64_small by (unfold is_u64; lia)); (split; [|lia]); [done|by apply Hout].
Qed.

Lemma RunPrecompiledContract_done p input c :
  len input < 2 ^ 62 -> 0 <= c_Gas c < 2 ^ 62 ->
  exists ret err c', RunPrecompiledContract noLimit p input c = Done (ret, err, c') /\
    len ret < 2 ^ 62 /\ 0 <= c_Gas c' <= c_Gas c.
Proof.
  intros Hl Hg. destruct (RunPrecompiledContract_fits noLimit p input c Hl Hg) as (ret & err & c' & E & _ & H); [by left|].
  by exists ret, err, c'.
Qed.
End Facts.
