(* ===== verification/Evm.v ===== *)
(** Calls and contract creation: core/vm/evm.go.

    [Call], [CallCode], [DelegateCall], [StaticCall] and [Create] take the
    interpreter ([Interpreter.Run]) as an argument; file Interpreter ties the
    knot.  The tracer hooks ([vmConfig.Debug]) do not touch the machine and
    are left out. *)
From S2P Require Import Prelude BigMath Params Machine StateSpec Vm Precompiles.

Section Evm.
Context {S : Type} `{SDB : StateDB S} `{CR : Crypto}.

(** What [Interpreter.Run] does to the machine and the contract. *)
Definition Runner : Type :=
  EVM S -> Contract -> bytes -> outcome (bytes * option vmError * EVM S * Contract).

(** Result of a call: returned bytes, gas left over, error, machine. *)
Definition callResult : Type := bytes * Z * option vmError * EVM S.

Definition run (e : Env) (R : Runner) (evm : EVM S) (contract : Contract) (input : bytes)
  : outcome (bytes * option vmError * EVM S * Contract) :=
  match c_CodeAddr contract with
  | Some addr =>
      match precompiles e !! addr with
      | Some p =>
          let* r := RunPrecompiledContract noLimit p input contract in
          let '(ret, err, contract) := r in Done (ret, err, evm, contract)
      | None => R evm contract input
      end
  | None => R evm contract input
  end.

(** The code after [run] that the four call methods share: on an error,
    revert the state and, unless it is a REVERT, consume the gas left. *)
Definition after_run (snapshot : Z) (r : bytes * option vmError * EVM S * Contract)
  : outcome callResult :=
  let '(ret, err, evm, contract) := r in
  match err with
  | None => Done (ret, c_Gas contract, None, evm)
  | Some er =>
      let* s := RevertToSnapshot snapshot (evm_StateDB evm) in
      let contract := if decide (er = errExecutionReverted) then contract
                      else (UseGas (c_Gas contract) contract).2 in
      Done (ret, c_Gas contract, Some er, set_StateDB s evm)
  end.

(** [contract.SetCallCode(&addr, GetCodeHash(addr), GetCode(addr))] *)
Definition load_code (addr : Address) (evm : EVM S) (contract : Contract) : EVM S * Contract :=
  let '(hash, s) := GetCodeHash addr (evm_StateDB evm) in
  let '(code, s) := GetCode addr s in
  (set_StateDB s evm, SetCallCode addr hash code contract).

Definition Call (e : Env) (R : Runner) (evm : EVM S) (caller : ContractRef) (addr : Address)
    (input : bytes) (gas value : Z) : outcome callResult :=
  if env_NoRecursion e && (0 <? evm_depth evm) then Done ([], gas, None, evm)
  else if CallCreateDepth <? evm_depth evm then Done ([], gas, Some ErrDepth, evm)
  else
    let '(can, s) := CanTransfer (evm_StateDB evm) (ref_Address caller) value in
    if negb can then Done ([], gas, Some ErrInsufficientBalance, set_StateDB s evm)
    else
      let '(snapshot, s) := Snapshot s in
      let '(found, s) := Exist addr s in
      if negb found && (bool_decide (precompiles e !! addr = None) && env_IsEIP158 e && (Sign value =? 0))
      then Done ([], gas, None, set_StateDB s evm)
      else
        let s := if negb found then CreateAccount addr s else s in
        let s := Transfer s (ref_Address caller) addr value in
        let evm := set_jumpdests (NewContract_jumpdests caller (evm_jumpdests evm)) (set_StateDB s evm) in
        let '(evm, contract) := load_code addr evm (NewContract caller addr value gas) in
        let* r := run e R evm contract input in
        after_run snapshot r.

Definition CallCode (e : Env) (R : Runner) (evm : EVM S) (caller : ContractRef) (addr : Address)
    (input : bytes) (gas value : Z) : outcome callResult :=
  if env_NoRecursion e && (0 <? evm_depth evm) then Done ([], gas, None, evm)
  else if CallCreateDepth <? evm_depth evm then Done ([], gas, Some ErrDepth, evm)
  else
    let '(can, s) := CanTransfer (evm_StateDB evm) (ref_Address caller) value in
    if negb can then Done ([], gas, Some ErrInsufficientBalance, set_StateDB s evm)
    else
      let '(snapshot, s) := Snapshot s in
      let evm := set_jumpdests (NewContract_jumpdests caller (evm_jumpdests evm)) (set_StateDB s evm) in
      let '(evm, contract) := load_code addr evm (NewContract caller (ref_Address caller) value gas) in
      let* r := run e R evm contract input in
      after_run snapshot r.

Definition DelegateCall (e : Env) (R : Runner) (evm : EVM S) (caller : ContractRef) (addr : Address)
    (input : bytes) (gas : Z) : outcome callResult :=
  if env_NoRecursion e && (0 <? evm_depth evm) then Done ([], gas, None, evm)
  else if CallCreateDepth <? evm_depth evm then Done ([], gas, Some ErrDepth, evm)
  else
    let '(snapshot, s) := Snapshot (evm_StateDB evm) in
    let evm := set_jumpdests (NewContract_jumpdests caller (evm_jumpdests evm)) (set_StateDB s evm) in
    let* contract := AsDelegate caller (NewContract caller (ref_Address caller) 0 gas) in
    let '(evm, contract) := load_code addr evm contract in
    let* r := run e R evm contract input in
    after_run snapshot r.

(** The deferred reset of [readOnly] runs after everything else. *)
Definition StaticCall (e : Env) (R : Runner) (evm : EVM S) (caller : ContractRef) (addr : Address)
    (input : bytes) (gas : Z) : outcome callResult :=
  if env_NoRecursion e && (0 <? evm_depth evm) then Done ([], gas, None, evm)
  else if CallCreateDepth <? evm_depth evm then Done ([], gas, Some ErrDepth, evm)
  else
    let was := evm_readOnly evm in
    let evm := if negb was then set_readOnly true evm else evm in
    let '(snapshot, s) := Snapshot (evm_StateDB evm) in
    let evm := set_jumpdests (NewContract_jumpdests caller (evm_jumpdests evm)) (set_StateDB s evm) in
    let '(evm, contract) := load_code addr evm (NewContract caller addr 0 gas) in
    let* r := run e R evm contract input in
    let* res := after_run snapshot r in
    let '(ret, gas, err, evm) := res in
    Done (ret, gas, err, if negb was then set_readOnly false evm else evm).

(** Result of a creation: returned bytes, address, gas left, error, machine. *)
Definition createResult : Type := bytes * Address * Z * option vmError * EVM S.

Definition emptyCodeHash : Hash := Keccak256Hash [].

(** The code of [Create] after [run]. *)
Definition after_create (e : Env) (snapshot : Z) (contractAddr : Address)
    (r : bytes * option vmError * EVM S * Contract) : outcome createResult :=
  let '(ret, err, evm, contract) := r in
  let maxCodeSizeExceeded := env_IsEIP158 e && (MaxCodeSize <? len ret) in
  let '(err, evm, contract) :=
    match err with
    | None =>
        if negb maxCodeSizeExceeded then
          let '(ok, contract) := UseGas (u64 (len ret * CreateDataGas)) contract in
          if ok then (None, set_StateDB (SetCode contractAddr ret (evm_StateDB evm)) evm, contract)
          else (Some ErrCodeStoreOutOfGas, evm, contract)
        else (None, evm, contract)
    | Some er => (Some er, evm, contract)
    end in
  let failed := match err with
                | None => false
                | Some er => env_IsHomestead e || negb (bool_decide (er = ErrCodeStoreOutOfGas))
                end in
  let* ec :=
    (if maxCodeSizeExceeded || failed then
       let* s := RevertToSnapshot snapshot (evm_StateDB evm) in
       let contract := if bool_decide (err = Some errExecutionReverted) then contract
                       else (UseGas (c_Gas contract) contract).2 in
       Done (set_StateDB s evm, contract)
     else Done (evm, contract)) in
  let '(evm, contract) := ec in
  let err := if maxCodeSizeExceeded then
               match err with None => Some errMaxCodeSizeExceeded | Some er => Some er end
             else err in
  Done (ret, contractAddr, c_Gas contract, err, evm).

Definition Create (e : Env) (R : Runner) (evm : EVM S) (caller : ContractRef) (code : bytes)
    (gas value : Z) : outcome createResult :=
  if CallCreateDepth <? evm_depth evm then Done ([], 0%N, gas, Some ErrDepth, evm)
  else
    let '(can, s) := CanTransfer (evm_StateDB evm) (ref_Address caller) value in
    if negb can then Done ([], 0%N, gas, Some ErrInsufficientBalance, set_StateDB s evm)
    else
      let '(nonce, s) := GetNonce (ref_Address caller) s in
      let s := SetNonce (ref_Address caller) (u64 (nonce + 1)) s in
      let contractAddr := CreateAddress (ref_Address caller) nonce in
      let '(contractHash, s) := GetCodeHash contractAddr s in
      let '(n, s) := GetNonce contractAddr s in
      if negb (n =? 0) || (negb (contractHash =? 0)%N && negb (contractHash =? emptyCodeHash)%N)
      then Done ([], 0%N, 0, Some ErrContractAddressCollision, set_StateDB s evm)
      else
        let '(snapshot, s) := Snapshot s in
        let s := CreateAccount contractAddr s in
        let s := if env_IsEIP158 e then SetNonce contractAddr 1 s else s in
        let s := Transfer s (ref_Address caller) contractAddr value in
        let evm := set_jumpdests (NewContract_jumpdests caller (evm_jumpdests evm)) (set_StateDB s evm) in
        let contract := SetCallCode contractAddr (Keccak256Hash code) code
                          (NewContract caller contractAddr value gas) in
        if env_NoRecursion e && (0 <? evm_depth evm) then Done ([], contractAddr, gas, None, evm)
        else
          let* r := run e R evm contract [] in
          after_create e snapshot contractAddr r.
End Evm.
