(* ===== verification/Instructions.v ===== *)
(** Instructions: core/vm/instructions.go.

    Stack items are values: an operation that updates a popped or peeked
    [*big.Int] in place yields its new value.  The pool that recycles the
    integers (intpool.go) is not modelled. *)
From S2P Require Import Prelude BigMath Params Machine Opcodes Analysis StateSpec Vm Precompiles Evm.

Section Instructions.
Context {S : Type} `{SDB : StateDB S} `{CR : Crypto}.

(** [e] and [R] stand for the receiver [evm]: its constant part and its
    interpreter. *)
Definition executionFunc : Type := Env -> Runner (S := S) -> M S bytes.
Definition nil_ : M S bytes := ret [].

(** [x, y := stack.pop(), stack.peek()], [y] updated in place. *)
Definition binop (g : Z -> Z -> Z) : executionFunc := fun _ _ =>
  x <- pop ;; y <- peek ;; set_top (g x y) ;;; nil_.
(** [x, y := stack.pop(), stack.pop()] and a push. *)
Definition binop_push (g : Z -> Z -> Z) : executionFunc := fun _ _ =>
  x <- pop ;; y <- pop ;; push (g x y) ;;; nil_.

Definition opAdd : executionFunc := binop (fun x y => U256 (x + y)).
Definition opSub : executionFunc := binop (fun x y => U256 (x - y)).
Definition opMul : executionFunc := binop_push (fun x y => U256 (x * y)).
Definition opDiv : executionFunc :=
  binop (fun x y => if negb (Sign y =? 0) then U256 (big_Div x y) else 0).
Definition opSdiv : executionFunc := binop_push (fun x y =>
  let x := S256 x in let y := S256 y in
  if (Sign y =? 0) || (Sign x =? 0) then 0
  else if negb (Sign x =? Sign y) then U256 (- big_Div (Z.abs x) (Z.abs y))
  else U256 (big_Div (Z.abs x) (Z.abs y))).
Definition opMod : executionFunc :=
  binop_push (fun x y => if Sign y =? 0 then 0 else U256 (big_Mod x y)).
Definition opSmod : executionFunc := binop_push (fun x y =>
  let x := S256 x in let y := S256 y in
  if Sign y =? 0 then 0
  else if Sign x <? 0 then U256 (- big_Mod (Z.abs x) (Z.abs y))
  else U256 (big_Mod (Z.abs x) (Z.abs y))).
Definition opExp : executionFunc :=
  binop_push (fun base exponent => (math_Exp base exponent).1).

Definition sign_extend (back num : Z) : Z :=
  let bit := big_Uint64 back * 8 + 7 in
  let mask := Z.shiftl 1 bit - 1 in
  if Z.testbit num bit then U256 (Z.lor num (Z.lnot mask)) else U256 (Z.land num mask).
Definition opSignExtend : executionFunc := fun _ _ =>
  back <- pop ;;
  (if back <? 31 then num <- pop ;; push (sign_extend back num) else ret tt) ;;; nil_.

Definition opNot : executionFunc := fun _ _ => x <- peek ;; set_top (U256 (Z.lnot x)) ;;; nil_.
Definition opLt : executionFunc := binop (fun x y => if x <? y then 1 else 0).
Definition opGt : executionFunc := binop (fun x y => if y <? x then 1 else 0).
Definition opSlt : executionFunc := binop (fun x y =>
  let xge := tt255 <=? x in let yge := tt255 <=? y in
  if xge && negb yge then 1
  else if negb xge && yge then 0
  else if x <? y then 1 else 0).
Definition opSgt : executionFunc := binop (fun x y =>
  let xge := tt255 <=? x in let yge := tt255 <=? y in
  if xge && negb yge then 0
  else if negb xge && yge then 1
  else if y <? x then 1 else 0).
Definition opEq : executionFunc := binop (fun x y => if x =? y then 1 else 0).
Definition opIszero : executionFunc := fun _ _ =>
  x <- peek ;; set_top (if 0 <? Sign x then 0 else 1) ;;; nil_.
Definition opAnd : executionFunc := binop_push Z.land.
Definition opOr : executionFunc := binop Z.lor.
Definition opXor : executionFunc := binop Z.lxor.
Definition opByte : executionFunc := fun _ _ =>
  th <- pop ;; val <- peek ;;
  (if th <? 32 then b <- liftO (math_Byte val 32 (big_Int64 th)) ;; set_top (b2z b)
   else set_top 0) ;;; nil_.
Definition opAddmod : executionFunc := fun _ _ =>
  x <- pop ;; y <- pop ;; z <- pop ;;
  push (if 0 <? z then U256 (big_Mod (x + y) z) else 0) ;;; nil_.
Definition opMulmod : executionFunc := fun _ _ =>
  x <- pop ;; y <- pop ;; z <- pop ;;
  push (if 0 <? z then U256 (big_Mod (x * y) z) else 0) ;;; nil_.
Definition opSHL : executionFunc := binop (fun shift value =>
  let shift := U256 shift in let value := U256 value in
  if 256 <=? shift then 0 else U256 (Z.shiftl value (big_Uint64 shift))).
Definition opSHR : executionFunc := binop (fun shift value =>
  let shift := U256 shift in let value := U256 value in
  if 256 <=? shift then 0 else U256 (Z.shiftr value (big_Uint64 shift))).
Definition sar (shift value : Z) : Z :=
  let shift := U256 shift in let value := S256 value in
  if 256 <=? shift then U256 (if 0 <? Sign value then 0 else -1)
  else U256 (Z.shiftr value (big_Uint64 shift)).
Definition opSAR : executionFunc := binop_push sar.

(** [memory.Get(offset.Int64(), size.Int64())] *)
Definition mem_get (offset size : Z) : M S bytes :=
  m <- gets f_mem ;; liftO (Memory_Get (big_Int64 offset) (big_Int64 size) m).
(** [memory.Set(offset, size, value)] *)
Definition mem_set (offset size : Z) (value : bytes) : M S unit :=
  m <- gets f_mem ;;
  m <- liftO (Memory_Set offset size value m) ;;
  modify (set_mem m).

Definition opSha3 : executionFunc := fun e _ =>
  offset <- pop ;; size <- pop ;;
  data <- mem_get offset size ;;
  let hash := Keccak256 data in
  (if env_EnablePreimageRecording e then sdb_do (AddPreimage (BytesToHash hash) data) else ret tt) ;;;
  push (big_SetBytes hash) ;;; nil_.
Definition opAddress : executionFunc := fun _ _ =>
  c <- gets f_contract ;; push (Address_Big (Contract_Address c)) ;;; nil_.
Definition opBalance : executionFunc := fun _ _ =>
  slot <- peek ;;
  b <- sdb_get (GetBalance (BigToAddress slot)) ;; set_top b ;;; nil_.
Definition opOrigin : executionFunc := fun e _ => push (Address_Big (Origin (env_ctx e))) ;;; nil_.
Definition opCaller : executionFunc := fun _ _ =>
  c <- gets f_contract ;; push (Address_Big (CallerAddress c)) ;;; nil_.
Definition opCallValue : executionFunc := fun _ _ =>
  c <- gets f_contract ;; push (c_value c) ;;; nil_.
Definition opCallDataLoad : executionFunc := fun _ _ =>
  c <- gets f_contract ;; x <- pop ;;
  d <- liftO (getDataBig (c_Input c) x 32) ;; push (big_SetBytes d) ;;; nil_.
Definition opCallDataSize : executionFunc := fun _ _ =>
  c <- gets f_contract ;; push (len (c_Input c)) ;;; nil_.
Definition opCallDataCopy : executionFunc := fun _ _ =>
  memOffset <- pop ;; dataOffset <- pop ;; length <- pop ;;
  c <- gets f_contract ;;
  d <- liftO (getDataBig (c_Input c) dataOffset length) ;;
  mem_set (big_Uint64 memOffset) (big_Uint64 length) d ;;; nil_.
Definition opReturnDataSize : executionFunc := fun _ _ =>
  v <- gets f_evm ;; push (len (evm_returnData v)) ;;; nil_.
Definition opReturnDataCopy : executionFunc := fun _ _ =>
  memOffset <- pop ;; dataOffset <- pop ;; length <- pop ;;
  v <- gets f_evm ;;
  let end_ := dataOffset + length in
  if (64 <? BitLen end_) || (len (evm_returnData v) <? big_Uint64 end_)
  then raise errReturnDataOutOfBounds
  else
    d <- liftO (slice (evm_returnData v) (big_Uint64 dataOffset) (big_Uint64 end_)) ;;
    mem_set (big_Uint64 memOffset) (big_Uint64 length) d ;;; nil_.
Definition opExtCodeSize : executionFunc := fun _ _ =>
  slot <- peek ;;
  n <- sdb_get (GetCodeSize (BigToAddress slot)) ;; set_top n ;;; nil_.
Definition opCodeSize : executionFunc := fun _ _ =>
  c <- gets f_contract ;; push (len (c_Code c)) ;;; nil_.
Definition opCodeCopy : executionFunc := fun _ _ =>
  memOffset <- pop ;; codeOffset <- pop ;; length <- pop ;;
  c <- gets f_contract ;;
  codeCopy <- liftO (getDataBig (c_Code c) codeOffset length) ;;
  mem_set (big_Uint64 memOffset) (big_Uint64 length) codeCopy ;;; nil_.
Definition opExtCodeCopy : executionFunc := fun _ _ =>
  a <- pop ;; memOffset <- pop ;; codeOffset <- pop ;; length <- pop ;;
  code <- sdb_get (GetCode (BigToAddress a)) ;;
  codeCopy <- liftO (getDataBig code codeOffset length) ;;
  mem_set (big_Uint64 memOffset) (big_Uint64 length) codeCopy ;;; nil_.
Definition opGasprice : executionFunc := fun e _ => push (GasPrice (env_ctx e)) ;;; nil_.
Definition opBlockhash : executionFunc := fun e _ =>
  num <- pop ;;
  let n := BlockNumber (env_ctx e) - 257 in
  push (if (n <? num) && (num <? BlockNumber (env_ctx e))
        then Hash_Big (GetHash (env_ctx e) (big_Uint64 num)) else 0) ;;; nil_.
Definition opCoinbase : executionFunc := fun e _ => push (Address_Big (Coinbase (env_ctx e))) ;;; nil_.
Definition opTimestamp : executionFunc := fun e _ => push (U256 (Time (env_ctx e))) ;;; nil_.
Definition opNumber : executionFunc := fun e _ => push (U256 (BlockNumber (env_ctx e))) ;;; nil_.
Definition opDifficulty : executionFunc := fun e _ => push (U256 (Difficulty (env_ctx e))) ;;; nil_.
Definition opGasLimit : executionFunc := fun e _ => push (U256 (GasLimit (env_ctx e))) ;;; nil_.
Definition opPop : executionFunc := fun _ _ => pop ;;; nil_.
Definition opMload : executionFunc := fun _ _ =>
  offset <- pop ;;
  m <- gets f_mem ;;
  d <- liftO (Memory_Get (big_Int64 offset) 32 m) ;; push (big_SetBytes d) ;;; nil_.
Definition opMstore : executionFunc := fun _ _ =>
  mStart <- pop ;; val <- pop ;;
  mem_set (big_Uint64 mStart) 32 (PaddedBigBytes val 32) ;;; nil_.
(** [memory.store[off] = byte(val & 0xff)] *)
Definition opMstore8 : executionFunc := fun _ _ =>
  off <- pop ;; val <- pop ;;
  m <- gets f_mem ;;
  liftO (index (store m) (big_Int64 off)) ;;;
  modify (set_mem {| store := <[Z.to_nat (big_Int64 off) := z2b (Z.land (big_Int64 val) 0xff)]> (store m);
                     lastGasCost := lastGasCost m |}) ;;; nil_.
Definition opSload : executionFunc := fun _ _ =>
  x <- pop ;;
  c <- gets f_contract ;;
  v <- sdb_get (GetState (Contract_Address c) (BigToHash x)) ;; push (Hash_Big v) ;;; nil_.
Definition opSstore : executionFunc := fun _ _ =>
  x <- pop ;; val <- pop ;;
  c <- gets f_contract ;;
  sdb_do (SetState (Contract_Address c) (BigToHash x) (BigToHash val)) ;;; nil_.

(** [contract.jumpdests.has(contract.CodeHash, contract.Code, pos)] *)
Definition jumpdests_has (pos : Z) : M S bool :=
  c <- gets f_contract ;;
  v <- gets f_evm ;;
  r <- liftO (destinations_has (evm_jumpdests v) (c_CodeHash c) (c_Code c) pos) ;;
  modify (fun f => set_evm (set_jumpdests r.2 (f_evm f)) f) ;;; ret r.1.
Definition invalid_jump (pos : Z) : M S bytes :=
  c <- gets f_contract ;;
  nop <- liftO (GetOp c (big_Uint64 pos)) ;; raise (errInvalidJump nop pos).
Definition opJump : executionFunc := fun _ _ =>
  pos <- pop ;;
  ok <- jumpdests_has pos ;;
  if negb ok then invalid_jump pos
  else modify (set_pc (big_Uint64 pos)) ;;; nil_.
Definition opJumpi : executionFunc := fun _ _ =>
  pos <- pop ;; cond <- pop ;;
  if negb (Sign cond =? 0) then
    ok <- jumpdests_has pos ;;
    if negb ok then invalid_jump pos
    else modify (set_pc (big_Uint64 pos)) ;;; nil_
  else modify (fun f => set_pc (u64 (f_pc f + 1)) f) ;;; nil_.
Definition opJumpdest : executionFunc := fun _ _ => nil_.
Definition opPc : executionFunc := fun _ _ => p <- gets f_pc ;; push p ;;; nil_.
Definition opMsize : executionFunc := fun _ _ => m <- gets f_mem ;; push (Memory_Len m) ;;; nil_.
Definition opGas : executionFunc := fun _ _ => c <- gets f_contract ;; push (c_Gas c) ;;; nil_.

(** [contract.Gas += returnGas] *)
Definition give_gas (g : Z) : M S unit :=
  modify (fun f => set_contract (set_Gas (u64 (c_Gas (f_contract f) + g)) (f_contract f)) f).

Definition opCreate : executionFunc := fun e R =>
  value <- pop ;; offset <- pop ;; size <- pop ;;
  input <- mem_get offset size ;;
  c <- gets f_contract ;;
  let gas := c_Gas c in
  let gas := if env_IsEIP150 e then u64 (gas - gas / 64) else gas in
  let c := (UseGas gas c).2 in
  modify (set_contract c) ;;;
  v <- gets f_evm ;;
  r <- liftO (Create e R v (ContractAsRef c) input gas value) ;;
  let '(res, addr, returnGas, suberr, v) := r in
  modify (set_evm v) ;;;
  push (if env_IsHomestead e && bool_decide (suberr = Some ErrCodeStoreOutOfGas) then 0
        else if negb (bool_decide (suberr = None)) && negb (bool_decide (suberr = Some ErrCodeStoreOutOfGas))
        then 0 else Address_Big addr) ;;;
  give_gas returnGas ;;;
  ret (if bool_decide (suberr = Some errExecutionReverted) then res else []).

(** The code of the call instructions after the call has returned. *)
Definition after_call (r : callResult (S := S)) (retOffset retSize : Z) : M S bytes :=
  let '(ret_, returnGas, err, v) := r in
  modify (set_evm v) ;;;
  push (if bool_decide (err = None) then 1 else 0) ;;;
  (if bool_decide (err = None) || bool_decide (err = Some errExecutionReverted)
   then mem_set (big_Uint64 retOffset) (big_Uint64 retSize) ret_ else ret tt) ;;;
  give_gas returnGas ;;; ret ret_.

Definition opCall : executionFunc := fun e R =>
  pop ;;;
  gas <- gets (fun f => evm_callGasTemp (f_evm f)) ;;
  addr <- pop ;; value <- pop ;; inOffset <- pop ;; inSize <- pop ;; retOffset <- pop ;; retSize <- pop ;;
  let toAddr := BigToAddress addr in
  let value := U256 value in
  args <- mem_get inOffset inSize ;;
  let gas := if negb (Sign value =? 0) then u64 (gas + CallStipend) else gas in
  c <- gets f_contract ;; v <- gets f_evm ;;
  r <- liftO (Call e R v (ContractAsRef c) toAddr args gas value) ;;
  after_call r retOffset retSize.

Definition opCallCode : executionFunc := fun e R =>
  pop ;;;
  gas <- gets (fun f => evm_callGasTemp (f_evm f)) ;;
  addr <- pop ;; value <- pop ;; inOffset <- pop ;; inSize <- pop ;; retOffset <- pop ;; retSize <- pop ;;
  let toAddr := BigToAddress addr in
  let value := U256 value in
  args <- mem_get inOffset inSize ;;
  let gas := if negb (Sign value =? 0) then u64 (gas + CallStipend) else gas in
  c <- gets f_contract ;; v <- gets f_evm ;;
  r <- liftO (CallCode e R v (ContractAsRef c) toAddr args gas value) ;;
  after_call r retOffset retSize.

Definition opDelegateCall : executionFunc := fun e R =>
  pop ;;;
  gas <- gets (fun f => evm_callGasTemp (f_evm f)) ;;
  addr <- pop ;; inOffset <- pop ;; inSize <- pop ;; retOffset <- pop ;; retSize <- pop ;;
  let toAddr := BigToAddress addr in
  args <- mem_get inOffset inSize ;;
  c <- gets f_contract ;; v <- gets f_evm ;;
  r <- liftO (DelegateCall e R v (ContractAsRef c) toAddr args gas) ;;
  after_call r retOffset retSize.

Definition opStaticCall : executionFunc := fun e R =>
  pop ;;;
  gas <- gets (fun f => evm_callGasTemp (f_evm f)) ;;
  addr <- pop ;; inOffset <- pop ;; inSize <- pop ;; retOffset <- pop ;; retSize <- pop ;;
  let toAddr := BigToAddress addr in
  args <- mem_get inOffset inSize ;;
  c <- gets f_contract ;; v <- gets f_evm ;;
  r <- liftO (StaticCall e R v (ContractAsRef c) toAddr args gas) ;;
  after_call r retOffset retSize.

(** [memory.GetPtr(offset.Int64(), size.Int64())] *)
Definition mem_get_ptr (offset size : Z) : M S bytes :=
  m <- gets f_mem ;; liftO (Memory_GetPtr (big_Int64 offset) (big_Int64 size) m).
Definition opReturn : executionFunc := fun _ _ =>
  offset <- pop ;; size <- pop ;; mem_get_ptr offset size.
Definition opRevert : executionFunc := fun _ _ =>
  offset <- pop ;; size <- pop ;; mem_get_ptr offset size.
Definition opStop : executionFunc := fun _ _ => nil_.
Definition opSuicide : executionFunc := fun _ _ =>
  c <- gets f_contract ;;
  balance <- sdb_get (GetBalance (Contract_Address c)) ;;
  x <- pop ;;
  sdb_do (AddBalance (BigToAddress x) balance) ;;;
  sdb_get (Suicide (Contract_Address c)) ;;; nil_.

Fixpoint pop_topics (size : nat) : M S (list Hash) :=
  match size with
  | O => ret []
  | Datatypes.S n => x <- pop ;; r <- pop_topics n ;; ret (BigToHash x :: r)
  end.
Definition makeLog (size : nat) : executionFunc := fun e _ =>
  mStart <- pop ;; mSize <- pop ;;
  topics <- pop_topics size ;;
  d <- mem_get mStart mSize ;;
  c <- gets f_contract ;;
  sdb_do (AddLog {| log_Address := Contract_Address c; log_Topics := topics; log_Data := d;
                    log_BlockNumber := big_Uint64 (BlockNumber (env_ctx e));
                    log_TxHash := 0%N; log_TxIndex := 0; log_BlockHash := 0%N; log_Index := 0 |}) ;;;
  nil_.

Definition makePush (size pushByteSize : Z) : executionFunc := fun _ _ =>
  c <- gets f_contract ;;
  pc <- gets f_pc ;;
  let codeLen := len (c_Code c) in
  let startMin := if i64 (u64 (pc + 1)) <? codeLen then i64 (u64 (pc + 1)) else codeLen in
  let endMin := if startMin + pushByteSize <? codeLen then startMin + pushByteSize else codeLen in
  d <- liftO (slice (c_Code c) startMin endMin) ;;
  push (big_SetBytes (RightPadBytes d pushByteSize)) ;;;
  modify (fun f => set_pc (u64 (f_pc f + size)) f) ;;; nil_.

Definition makeDup (size : nat) : executionFunc := fun _ _ =>
  st <- gets f_stack ;;
  st <- liftO (Stack_dup size st) ;; modify (set_stack st) ;;; nil_.
Definition makeSwap (size : nat) : executionFunc := fun _ _ =>
  st <- gets f_stack ;;
  st <- liftO (Stack_swap (size + 1) st) ;; modify (set_stack st) ;;; nil_.
End Instructions.
