(* ===== verification/JumpTable.v ===== *)
(** The instruction tables: core/vm/jump_table.go.

    A table is a map from opcodes to operations; an opcode without an entry
    has the zero [operation], which is not [valid]. *)
From S2P Require Import Prelude BigMath Params Machine Opcodes StateSpec Vm Precompiles Evm Instructions.

Section JumpTable.
Context {S : Type} `{SDB : StateDB S} `{CR : Crypto}.

Definition stackValidationFunc : Type := Stack -> option vmError.
Definition memorySizeFunc : Type := Stack -> outcome Z.

Record operation := mkOperation {
  execute : executionFunc (S := S);
  gasCost : gasFunc (S := S);
  validateStack : stackValidationFunc;
  memorySize : option memorySizeFunc;
  halts : bool;
  jumps : bool;
  writes : bool;
  valid : bool;
  reverts : bool;
  returns : bool
}.

(** [operation{execute: e, gasCost: g, validateStack: v, valid: true}], and
    the optional fields. *)
Definition op (e : executionFunc) (g : gasFunc) (v : stackValidationFunc) : operation :=
  mkOperation e g v None false false false true false false.
Definition with_memory (m : memorySizeFunc) (o : operation) : operation :=
  mkOperation (execute o) (gasCost o) (validateStack o) (Some m)
    (halts o) (jumps o) (writes o) (valid o) (reverts o) (returns o).
Definition halting (o : operation) : operation :=
  mkOperation (execute o) (gasCost o) (validateStack o) (memorySize o)
    true (jumps o) (writes o) (valid o) (reverts o) (returns o).
Definition jumping (o : operation) : operation :=
  mkOperation (execute o) (gasCost o) (validateStack o) (memorySize o)
    (halts o) true (writes o) (valid o) (reverts o) (returns o).
Definition writing (o : operation) : operation :=
  mkOperation (execute o) (gasCost o) (validateStack o) (memorySize o)
    (halts o) (jumps o) true (valid o) (reverts o) (returns o).
Definition reverting (o : operation) : operation :=
  mkOperation (execute o) (gasCost o) (validateStack o) (memorySize o)
    (halts o) (jumps o) (writes o) (valid o) true (returns o).
Definition returning (o : operation) : operation :=
  mkOperation (execute o) (gasCost o) (validateStack o) (memorySize o)
    (halts o) (jumps o) (writes o) (valid o) (reverts o) true.

(** ** Frontier *)

Definition frontier_arithmetic : list (Z * operation) :=
  [ (STOP, halting (op opStop (constGasFunc 0) (makeStackFunc 0 0)));
    (ADD, op opAdd (constGasFunc GasFastestStep) (makeStackFunc 2 1));
    (MUL, op opMul (constGasFunc GasFastStep) (makeStackFunc 2 1));
    (SUB, op opSub (constGasFunc GasFastestStep) (makeStackFunc 2 1));
    (DIV, op opDiv (constGasFunc GasFastStep) (makeStackFunc 2 1));
    (SDIV, op opSdiv (constGasFunc GasFastStep) (makeStackFunc 2 1));
    (MOD, op opMod (constGasFunc GasFastStep) (makeStackFunc 2 1));
    (SMOD, op opSmod (constGasFunc GasFastStep) (makeStackFunc 2 1));
    (ADDMOD, op opAddmod (constGasFunc GasMidStep) (makeStackFunc 3 1));
    (MULMOD, op opMulmod (constGasFunc GasMidStep) (makeStackFunc 3 1));
    (EXP, op opExp gasExp (makeStackFunc 2 1));
    (SIGNEXTEND, op opSignExtend (constGasFunc GasFastStep) (makeStackFunc 2 1));
    (LT, op opLt (constGasFunc GasFastestStep) (makeStackFunc 2 1));
    (GT, op opGt (constGasFunc GasFastestStep) (makeStackFunc 2 1));
    (SLT, op opSlt (constGasFunc GasFastestStep) (makeStackFunc 2 1));
    (SGT, op opSgt (constGasFunc GasFastestStep) (makeStackFunc 2 1));
    (EQ, op opEq (constGasFunc GasFastestStep) (makeStackFunc 2 1));
    (ISZERO, op opIszero (constGasFunc GasFastestStep) (makeStackFunc 1 1));
    (AND, op opAnd (constGasFunc GasFastestStep) (makeStackFunc 2 1));
    (XOR, op opXor (constGasFunc GasFastestStep) (makeStackFunc 2 1));
    (OR, op opOr (constGasFunc GasFastestStep) (makeStackFunc 2 1));
    (NOT, op opNot (constGasFunc GasFastestStep) (makeStackFunc 1 1));
    (BYTE, op opByte (constGasFunc GasFastestStep) (makeStackFunc 2 1)) ].

Definition frontier_environment : list (Z * operation) :=
  [ (SHA3, with_memory memorySha3 (op opSha3 gasSha3 (makeStackFunc 2 1)));
    (ADDRESS, op opAddress (constGasFunc GasQuickStep) (makeStackFunc 0 1));
    (BALANCE, op opBalance gasBalance (makeStackFunc 1 1));
    (ORIGIN, op opOrigin (constGasFunc GasQuickStep) (makeStackFunc 0 1));
    (CALLER, op opCaller (constGasFunc GasQuickStep) (makeStackFunc 0 1));
    (CALLVALUE, op opCallValue (constGasFunc GasQuickStep) (makeStackFunc 0 1));
    (CALLDATALOAD, op opCallDataLoad (constGasFunc GasFastestStep) (makeStackFunc 1 1));
    (CALLDATASIZE, op opCallDataSize (constGasFunc GasQuickStep) (makeStackFunc 0 1));
    (CALLDATACOPY, with_memory memoryCallDataCopy (op opCallDataCopy gasCallDataCopy (makeStackFunc 3 0)));
    (CODESIZE, op opCodeSize (constGasFunc GasQuickStep) (makeStackFunc 0 1));
    (CODECOPY, with_memory memoryCodeCopy (op opCodeCopy gasCodeCopy (makeStackFunc 3 0)));
    (GASPRICE, op opGasprice (constGasFunc GasQuickStep) (makeStackFunc 0 1));
    (EXTCODESIZE, op opExtCodeSize gasExtCodeSize (makeStackFunc 1 1));
    (EXTCODECOPY, with_memory memoryExtCodeCopy (op opExtCodeCopy gasExtCodeCopy (makeStackFunc 4 0)));
    (BLOCKHASH, op opBlockhash (constGasFunc GasExtStep) (makeStackFunc 1 1));
    (COINBASE, op opCoinbase (constGasFunc GasQuickStep) (makeStackFunc 0 1));
    (TIMESTAMP, op opTimestamp (constGasFunc GasQuickStep) (makeStackFunc 0 1));
    (NUMBER, op opNumber (constGasFunc GasQuickStep) (makeStackFunc 0 1));
    (DIFFICULTY, op opDifficulty (constGasFunc GasQuickStep) (makeStackFunc 0 1));
    (GASLIMIT, op opGasLimit (constGasFunc GasQuickStep) (makeStackFunc 0 1)) ].

Definition frontier_memory_flow : list (Z * operation) :=
  [ (POP, op opPop (constGasFunc GasQuickStep) (makeStackFunc 1 0));
    (MLOAD, with_memory memoryMLoad (op opMload gasMLoad (makeStackFunc 1 1)));
    (MSTORE, with_memory memoryMStore (op opMstore gasMStore (makeStackFunc 2 0)));
    (MSTORE8, with_memory memoryMStore8 (op opMstore8 gasMStore8 (makeStackFunc 2 0)));
    (SLOAD, op opSload gasSLoad (makeStackFunc 1 1));
    (SSTORE, writing (op opSstore gasSStore (makeStackFunc 2 0)));
    (JUMP, jumping (op opJump (constGasFunc GasMidStep) (makeStackFunc 1 0)));
    (JUMPI, jumping (op opJumpi (constGasFunc GasSlowStep) (makeStackFunc 2 0)));
    (PC, op opPc (constGasFunc GasQuickStep) (makeStackFunc 0 1));
    (MSIZE, op opMsize (constGasFunc GasQuickStep) (makeStackFunc 0 1));
    (GAS, op opGas (constGasFunc GasQuickStep) (makeStackFunc 0 1));
    (JUMPDEST, op opJumpdest (constGasFunc JumpdestGas) (makeStackFunc 0 0)) ].

(** PUSH1 ... PUSH32, DUP1 ... DUP16, SWAP1 ... SWAP16, LOG0 ... LOG4. *)
Definition frontier_push : list (Z * operation) :=
  map (fun n => (PUSH1 + Z.of_nat n - 1,
                 op (makePush (Z.of_nat n) (Z.of_nat n)) gasPush (makeStackFunc 0 1))) (seq 1 32).
Definition frontier_dup : list (Z * operation) :=
  map (fun n => (DUP1 + Z.of_nat n - 1,
                 op (makeDup n) gasDup (makeDupStackFunc (Z.of_nat n)))) (seq 1 16).
Definition frontier_swap : list (Z * operation) :=
  map (fun n => (SWAP1 + Z.of_nat n - 1,
                 op (makeSwap n) gasSwap (makeSwapStackFunc (Z.of_nat n + 1)))) (seq 1 16).
Definition frontier_log : list (Z * operation) :=
  map (fun n => (LOG0 + Z.of_nat n,
                 writing (with_memory memoryLog
                   (op (makeLog n) (makeGasLog (Z.of_nat n)) (makeStackFunc (Z.of_nat n + 2) 0)))))
    (seq 0 5).

Definition frontier_system : list (Z * operation) :=
  [ (CREATE, returning (writing (with_memory memoryCreate (op opCreate gasCreate (makeStackFunc 3 1)))));
    (CALL, returning (with_memory memoryCall (op opCall gasCall (makeStackFunc 7 1))));
    (CALLCODE, returning (with_memory memoryCall (op opCallCode gasCallCode (makeStackFunc 7 1))));
    (RETURN, halting (with_memory memoryReturn (op opReturn gasReturn (makeStackFunc 2 0))));
    (SELFDESTRUCT, writing (halting (op opSuicide gasSuicide (makeStackFunc 1 0)))) ].

Definition frontier_entries : list (Z * operation) :=
  frontier_arithmetic ++ frontier_environment ++ frontier_memory_flow ++
  frontier_push ++ frontier_dup ++ frontier_swap ++ frontier_log ++ frontier_system.

Definition NewFrontierInstructionSet : gmap Z operation := list_to_map frontier_entries.

(** ** Later forks *)

Definition NewHomesteadInstructionSet : gmap Z operation :=
  <[DELEGATECALL := returning (with_memory memoryDelegateCall
      (op opDelegateCall gasDelegateCall (makeStackFunc 6 1)))]> NewFrontierInstructionSet.

Definition NewByzantiumInstructionSet : gmap Z operation :=
  <[REVERT := returning (reverting (with_memory memoryRevert
      (op opRevert gasRevert (makeStackFunc 2 0))))]>
  (<[RETURNDATACOPY := with_memory memoryReturnDataCopy
      (op opReturnDataCopy gasReturnDataCopy (makeStackFunc 3 0))]>
  (<[RETURNDATASIZE := op opReturnDataSize (constGasFunc GasQuickStep) (makeStackFunc 0 1)]>
  (<[STATICCALL := returning (with_memory memoryStaticCall
      (op opStaticCall gasStaticCall (makeStackFunc 6 1)))]> NewHomesteadInstructionSet))).

Definition NewConstantinopleInstructionSet : gmap Z operation :=
  <[SAR := op opSAR (constGasFunc GasFastestStep) (makeStackFunc 2 1)]>
  (<[SHR := op opSHR (constGasFunc GasFastestStep) (makeStackFunc 2 1)]>
  (<[SHL := op opSHL (constGasFunc GasFastestStep) (makeStackFunc 2 1)]>
  NewByzantiumInstructionSet)).
End JumpTable.
Arguments operation S : clear implicits.
