(* ===== verification/Interpreter.v ===== *)
(** The interpreter: core/vm/interpreter.go.

    [Run] loops over the instructions of a contract; calls recurse.  Both the
    loop and the recursion are bounded by fuel: every instruction that does
    not halt costs at least one unit of gas and a call gets less gas than its
    caller has, so fuel above the contract's gas is enough (file RunSafe). *)
From S2P Require Import Prelude BigMath Params Machine Opcodes StateSpec Vm Precompiles Evm Instructions.
From S2P Require Import JumpTable.

Section Interpreter.
Context {S : Type} `{SDB : StateDB S} `{CR : Crypto}.

(** The table [NewInterpreter] picks when the configuration has none. *)
Definition InstructionSet (e : Env) : gmap Z (operation S) :=
  if env_IsConstantinople e then NewConstantinopleInstructionSet
  else if env_IsByzantium e then NewByzantiumInstructionSet
  else if env_IsHomestead e then NewHomesteadInstructionSet
  else NewFrontierInstructionSet.

Definition enforceRestrictions (e : Env) (readOnly : bool) (opcode : Z) (o : operation S) (st : Stack)
  : outcome (option vmError) :=
  if rules_IsByzantium (chainRules e) then
    if readOnly then
      if writes o then Done (Some errWriteProtection)
      else if opcode =? CALL then
        let* v := Stack_Back st 2 in
        Done (if 0 <? BitLen v then Some errWriteProtection else None)
      else Done None
    else Done None
  else Done None.

(** The memory an operation needs, rounded up to words. *)
Definition opMemorySize (o : operation S) (st : Stack) : outcome (vmError + Z) :=
  match memorySize o with
  | None => Done (inr 0)
  | Some g =>
      let* m := g st in
      let '(memSize, overflow) := bigUint64 m in
      if overflow then Done (inl errGasUintOverflow)
      else
        let '(memorySize, overflow) := SafeMul (toWordSize memSize) 32 in
        if overflow then Done (inl errGasUintOverflow) else Done (inr memorySize)
  end.

(** How one iteration of the loop ends: [return], or another iteration. *)
Inductive stepResult :=
| Stop (ret : bytes) (err : option vmError)
| Next.

(** The iteration after the gas has been computed: consume it, expand the
    memory, execute. *)
Definition step_execute (e : Env) (R : Runner) (o : operation S) (memorySize : Z)
    (cost : vmError + Z) (f : frame S) : outcome (stepResult * frame S) :=
  match cost with
  | inl _ => Done (Stop [] (Some ErrOutOfGas), f)
  | inr cost =>
      let '(ok, c) := UseGas cost (f_contract f) in
      if negb ok then Done (Stop [] (Some ErrOutOfGas), f)
      else
        let f := set_contract c f in
        let f := if 0 <? memorySize then set_mem (Memory_Resize memorySize (f_mem f)) f else f in
        let* rf := execute o e R f in
        let '(r, f) := rf in
        let res := match r with inl _ => [] | inr res => res end in
        let f := if returns o then set_evm (set_returnData res (f_evm f)) f else f in
        match r with
        | inl err => Done (Stop [] (Some err), f)
        | inr res =>
            if reverts o then Done (Stop res (Some errExecutionReverted), f)
            else if halts o then Done (Stop res None, f)
            else if negb (jumps o) then Done (Next, set_pc (u64 (f_pc f + 1)) f)
            else Done (Next, f)
        end
  end.

(** One iteration of the main loop. *)
Definition step (e : Env) (R : Runner) (f : frame S) : outcome (stepResult * frame S) :=
  let* opcode := GetOp (f_contract f) (f_pc f) in
  match InstructionSet e !! opcode with
  | None => Done (Stop [] (Some (errInvalidOpcode opcode)), f)
  | Some o =>
      if negb (valid o) then Done (Stop [] (Some (errInvalidOpcode opcode)), f)
      else
        match validateStack o (f_stack f) with
        | Some err => Done (Stop [] (Some err), f)
        | None =>
            let* restricted := enforceRestrictions e (evm_readOnly (f_evm f)) opcode o (f_stack f) in
            match restricted with
            | Some err => Done (Stop [] (Some err), f)
            | None =>
                let* msize := opMemorySize o (f_stack f) in
                match msize with
                | inl err => Done (Stop [] (Some err), f)
                | inr memorySize =>
                    let* rf := gasCost o e memorySize f in
                    step_execute e R o memorySize rf.1 rf.2
                end
            end
        end
  end.

(** [atomic.LoadInt32(&in.evm.abort) == 0] *)
Definition load_abort (evm : EVM S) : bool * EVM S :=
  match evm_abort evm with
  | [] => (false, evm)
  | b :: l => (b, set_abort l evm)
  end.

Fixpoint loop (e : Env) (R : Runner) (fuel : nat) (f : frame S)
  : outcome (bytes * option vmError * frame S) :=
  match fuel with
  | O => NoFuel
  | Datatypes.S fuel =>
      let '(aborted, evm) := load_abort (f_evm f) in
      let f := set_evm evm f in
      if aborted then Done ([], None, f)
      else
        let* sf := step e R f in
        match sf with
        | (Stop ret err, f) => Done (ret, err, f)
        | (Next, f) => loop e R fuel f
        end
  end.

(** The interpreter, given the one its calls use. *)
Definition Run_body (e : Env) (R : Runner) (fuel : nat) : Runner (S := S) := fun evm contract input =>
  let evm := set_returnData [] (set_depth (evm_depth evm + 1) evm) in
  if len (c_Code contract) =? 0 then
    Done ([], None, set_depth (evm_depth evm - 1) evm, contract)
  else
    let f := {| f_pc := 0; f_evm := evm; f_contract := set_Input input contract;
                f_mem := NewMemory; f_stack := [] |} in
    let* r := loop e R fuel f in
    let '(ret, err, f) := r in
    Done (ret, err, set_depth (evm_depth (f_evm f) - 1) (f_evm f), f_contract f).

Fixpoint Run (e : Env) (fuel : nat) : Runner (S := S) :=
  match fuel with
  | O => fun _ _ _ => NoFuel
  | Datatypes.S n => Run_body e (Run e n) fuel
  end.
End Interpreter.
