(* ===== verification/CallFacts.v ===== *)
(** The invariant of the machine, and that calls and creations keep it. *)
From S2P Require Import Prelude BigMath Params Opcodes Machine Analysis StateSpec StateRel MachineFacts Vm.
From S2P Require Import Precompiles PrecompileFacts Evm.

(** The invariant of the virtual machine and the rules to run its operations
    symbolically.

    [owp m Q]: the outcome [m] is a return that satisfies [Q]; it never is a
    lack of fuel, and it is a panic only if two byte strings with the same
    Keccak hash have been met. *)

Section Safety.
Context {S : Type} `{SDB : StateDB S} `{CR : Crypto} {CS : CryptoSpec}
        `{SP : !StateDBSpec S Keccak256Hash}.
Context (e : Env).

Abbreviation state_ok := (state_ok Keccak256Hash).
Abbreviation srel := (srel Keccak256Hash).

(** ** Outcomes *)

Definition collision : Prop := exists c1 c2, c1 <> c2 /\ Keccak256Hash c1 = Keccak256Hash c2.

Definition owp {A} (m : outcome A) (Q : A -> Prop) : Prop :=
  match m with
  | Done a => Q a
  | GoPanic => collision
  | NoFuel => False
  end.

Lemma owp_bind {A B} (m : outcome A) (k : A -> outcome B) Q :
  owp m (fun a => owp (k a) Q) -> owp (outcome_bind m k) Q.
Proof. by destruct m. Qed.
Lemma owp_bind_inv {A B} (m : outcome A) (k : A -> outcome B) Q :
  owp (outcome_bind m k) Q -> owp m (fun a => owp (k a) Q).
Proof. by destruct m. Qed.
Lemma owp_mono {A} (m : outcome A) (P Q : A -> Prop) :
  owp m P -> (forall a, P a -> Q a) -> owp m Q.
Proof. destruct m; simpl; auto. Qed.

(** The hash function has no collisions. *)
Definition collision_free : Prop := forall c1 c2, Keccak256Hash c1 = Keccak256Hash c2 -> c1 = c2.

Lemma owp_done {A} (m : outcome A) Q : collision_free -> owp m Q -> exists a, m = Done a /\ Q a.
Proof.
  intros Hfree. destruct m as [a| |]; simpl; [by exists a| |done].
  intros (c1 & c2 & Hne & Heq). by apply Hfree in Heq.
Qed.

(** ** Well-formed machines, contracts and frames *)

Definition small (b : bytes) : Prop := len b < 2 ^ 62.

Definition evm_ok (v : EVM S) : Prop :=
  state_ok (evm_StateDB v) /\ cache_ok Keccak256Hash (evm_jumpdests v) /\
  small (evm_returnData v) /\ is_u64 (evm_callGasTemp v).

Definition contract_ok (c : Contract) : Prop :=
  small (c_Code c) /\ small (c_Input c) /\
  (c_Code c = [] \/ c_CodeHash c = Keccak256Hash (c_Code c)) /\
  0 <= c_Gas c < 2 ^ 62 /\ 0 <= c_value c.

Definition nonneg (st : Stack) : Prop := Forall (fun x => 0 <= x) st.

Definition frame_ok (f : frame S) : Prop :=
  evm_ok (f_evm f) /\ contract_ok (f_contract f) /\ mem_ok (f_mem f) /\
  nonneg (f_stack f) /\ len (f_stack f) <= StackLimit /\ is_u64 (f_pc f).

Definition env_ok : Prop := 0 <= GasPrice (env_ctx e).

(** ** What may change *)

(** The machine is inside a static call. *)
Definition static (v : EVM S) : Prop := env_IsByzantium e = true /\ evm_readOnly v = true.

Definition erel (v v' : EVM S) : Prop :=
  srel (static v) (evm_StateDB v) (evm_StateDB v') /\
  evm_depth v' = evm_depth v /\ evm_readOnly v' = evm_readOnly v.

Lemma erel_refl v : state_ok (evm_StateDB v) -> erel v v.
Proof. intros. split; [|done]. by apply srel_refl. Qed.
Lemma erel_trans v1 v2 v3 : erel v1 v2 -> erel v2 v3 -> erel v1 v3.
Proof.
  intros (R1 & D1 & O1) (R2 & D2 & O2). split; [|split; congruence].
  eapply srel_trans; [done|]. unfold static in *. by rewrite O1 in R2.
Qed.

(** A contract differs in its gas only. *)
Definition csame (c c' : Contract) : Prop := c' = set_Gas (c_Gas c') c.

Lemma csame_refl c : csame c c.
Proof. by destruct c. Qed.
Lemma csame_set_Gas c g : csame c (set_Gas g c).
Proof. done. Qed.
Lemma csame_trans c1 c2 c3 : csame c1 c2 -> csame c2 c3 -> csame c1 c3.
Proof. unfold csame. intros H1 H2. rewrite H2, H1. done. Qed.

(** A call runs on the machine and gets less than [n] gas. *)
Definition Runner_ok (n : Z) (R : Runner) : Prop := forall v c input,
  evm_ok v -> contract_ok c -> small input -> c_Gas c < n ->
  owp (R v c input) (fun '(ret, err, v', c') =>
    evm_ok v' /\ erel v v' /\ small ret /\ 0 <= c_Gas c' <= c_Gas c).
End Safety.

(** Calls and creations keep the machine well formed: core/vm/evm.go. *)

Section CallFacts.
Context {S : Type} `{SDB : StateDB S} `{CR : Crypto} {CS : CryptoSpec}
        `{SP : !StateDBSpec S Keccak256Hash}.
Context (e : Env).

Abbreviation state_ok := (state_ok Keccak256Hash).
Abbreviation srel := (srel Keccak256Hash).
Abbreviation evm_ok := (evm_ok (S := S)).
Abbreviation erel := (erel (S := S) e).
Abbreviation static := (static (S := S) e).

(** What a call may do: keep the machine well formed, return at most the gas
    it got, and on an error leave the state as it found it. *)
Definition call_post (v : EVM S) (gas : Z) (r : callResult) : Prop :=
  let '(ret, g, err, v') := r in
  evm_ok v' /\ erel v v' /\ small ret /\ 0 <= g <= gas /\
  (err <> None -> abs (evm_StateDB v') ≡ abs (evm_StateDB v)).

(** Replacing the state of a machine. *)
Lemma evm_ok_set_StateDB v s : evm_ok v -> state_ok s -> evm_ok (set_StateDB s v).
Proof. by intros (_ & ? & ? & ?). Qed.
Lemma erel_set_StateDB v s :
  srel (static v) (evm_StateDB v) s -> erel v (set_StateDB s v).
Proof. by intros. Qed.

Lemma cache_ok_empty : cache_ok Keccak256Hash ∅.
Proof. intros h m. by rewrite lookup_empty. Qed.

Lemma evm_ok_jumpdests v caller :
  evm_ok v -> evm_ok (set_jumpdests (NewContract_jumpdests caller (evm_jumpdests v)) v).
Proof.
  intros (? & ? & ? & ?). split; [done|]. split; [|done].
  destruct caller; [apply cache_ok_empty|done].
Qed.

Lemma load_code_ok ro addr v c :
  state_ok (evm_StateDB v) ->
  exists s h code, load_code addr v c = (set_StateDB s v, SetCallCode addr h code c) /\
    srel ro (evm_StateDB v) s /\ abs s ≡ abs (evm_StateDB v) /\
    small code /\ (code = [] \/ h = Keccak256Hash code).
Proof.
  intros Hs. unfold load_code.
  destruct (GetCodeHash_reads _ ro addr _ Hs) as [Eh R1].
  destruct (GetCodeHash_spec addr _ (proj1 Hs)) as (_ & A1 & _).
  destruct (GetCodeHash addr (evm_StateDB v)) as [h s1]. simpl in *.
  pose proof (srel_ok _ _ _ _ R1) as Hs1.
  destruct (GetCode_reads _ ro addr _ Hs1) as [Ec R2].
  destruct (GetCode_spec addr _ (proj1 Hs1)) as (_ & A2 & _).
  destruct (GetCode addr s1) as [code s2]. simpl in *.
  exists s2, h, code. split; [done|]. split; [by eapply srel_trans|].
  split; [by rewrite A2|]. subst. rewrite A1.
  destruct (proj1 (proj1 (proj2 Hs)) addr) as (_ & ? & ?). done.
Qed.

Lemma run_ok n R v c input :
  Runner_ok e n R -> evm_ok v -> contract_ok c -> small input -> c_Gas c < n ->
  owp (run e R v c input) (fun '(ret, err, v', c') =>
    evm_ok v' /\ erel v v' /\ small ret /\ 0 <= c_Gas c' <= c_Gas c).
Proof.
  intros HR Hv Hc Hi Hn. unfold run. pose proof (HR v c input Hv Hc Hi Hn) as Hrun.
  destruct (c_CodeAddr c); [|done]. destruct (_ !! _) as [p|]; [|done].
  destruct (RunPrecompiledContract_done p input c) as (ret & err & c' & -> & ? & ?);
    [done|apply Hc|]. cbn [outcome_bind owp].
  split; [done|]. split; [|done]. apply erel_refl, Hv.
Qed.

Lemma UseGas_leaves_none c : c_Gas (UseGas (c_Gas c) c).2 = 0.
Proof. unfold UseGas. rewrite Z.ltb_irrefl. simpl. by rewrite Z.sub_diag. Qed.

(** From a snapshot of [s0] on, through [run], to the result. *)
Lemma run_after_run_ok n R (v0 v : EVM S) s0 c input gas :
  Runner_ok e n R -> evm_ok v0 -> srel (static v0) (evm_StateDB v0) s0 ->
  abs s0 ≡ abs (evm_StateDB v0) ->
  srel (static v) (Snapshot s0).2 (evm_StateDB v) ->
  evm_depth v = evm_depth v0 -> (static v0 -> static v) ->
  evm_ok v -> contract_ok c -> small input -> c_Gas c = gas -> gas < n ->
  owp (let* r := run e R v c input in after_run (Snapshot s0).1 r) (fun '(ret, g, err, v') =>
    evm_ok v' /\ srel (static v) s0 (evm_StateDB v') /\ evm_depth v' = evm_depth v0 /\
    evm_readOnly v' = evm_readOnly v /\ small ret /\ 0 <= g <= gas /\
    (err <> None -> abs (evm_StateDB v') ≡ abs (evm_StateDB v0))).
Proof.
  intros HR Hv0 R0 A0 Rv Hd Hst Hv Hc Hi Hgas Hn. apply owp_bind.
  pose proof (srel_ok _ _ _ _ R0) as Hs0.
  eapply owp_mono; [by apply (run_ok n); [..|lia]|].
  intros [[[ret err] v1] c1] (Hv1 & (R1 & D1 & O1) & Hret & Hg). unfold after_run.
  pose proof (srel_trans _ _ _ _ _ Rv R1) as Rsnap.
  destruct err as [er|]; simpl.
  - apply owp_bind.
    destruct (srel_revert _ (static v) _ _ _ Hs0 Rsnap) as (s2 & -> & R2 & E1 & E2). simpl.
    split; [by apply evm_ok_set_StateDB, (srel_ok _ _ _ _ R2)|].
    split; [done|]. split; [congruence|]. split; [congruence|]. split; [done|].
    split.
    + case_decide; [lia|]. rewrite UseGas_leaves_none; destruct Hc as (_ & _ & _ & ? & _); lia.
    + intros _. rewrite <-A0. by split.
  - split; [done|].
    split; [|repeat split; try congruence; try lia; by destruct Hg].
    eapply srel_trans; [by apply srel_snapshot|]. done.
Qed.

Lemma CanTransfer_ok ro s addr amount :
  state_ok s ->
  exists b s', CanTransfer s addr amount = (b, s') /\ srel ro s s' /\ abs s' ≡ abs s /\
    (b = true -> amount <= w_balance (cur (abs s')) addr).
Proof.
  intros Hs. unfold CanTransfer. destruct (GetBalance_reads _ ro addr _ Hs) as [Eb R].
  destruct (GetBalance_spec addr _ (proj1 Hs)) as (_ & A & _).
  destruct (GetBalance addr s) as [b s']. simpl in *. eexists _, _. split; [done|].
  split; [done|]. split; [done|]. intros H%Z.leb_le. rewrite A. lia.
Qed.

Lemma w_balance_Sub ech a z w b :
  w_balance (w_SubBalance ech a z w) b = w_balance w b - (if decide (b = a) then z else 0).
Proof.
  rewrite !(w_balance_new ech). unfold w_SubBalance. apply upd_acct_cases.
  case_decide; subst; simpl; lia.
Qed.

Lemma w_balance_SetNonce ech a z w b : w_balance (w_SetNonce ech a z w) b = w_balance w b.
Proof.
  rewrite !(w_balance_new ech). unfold w_SetNonce. apply upd_acct_cases. by case_decide; subst.
Qed.

Lemma Transfer_ok (ro : Prop) s from to amount :
  state_ok s -> 0 <= amount <= w_balance (cur (abs s)) from -> (ro -> amount = 0) ->
  srel ro s (Transfer s from to amount).
Proof. apply srel_move. Qed.

Definition caller_ok (r : ContractRef) : Prop :=
  match r with ContractAsRef c => 0 <= c_value c | AccountRef _ => True end.

(** The early returns: nothing but caches changes. *)
Lemma call_post_read v s gas err :
  evm_ok v -> 0 <= gas -> srel (static v) (evm_StateDB v) s -> abs s ≡ abs (evm_StateDB v) ->
  call_post v gas ([], gas, err, set_StateDB s v).
Proof.
  intros Hv Hg R A. split; [by apply evm_ok_set_StateDB, (srel_ok _ _ _ _ R)|].
  split; [done|]. split; [done|]. split; [lia|done].
Qed.
Lemma call_post_id v gas err : evm_ok v -> 0 <= gas -> call_post v gas ([], gas, err, v).
Proof.
  intros Hv Hg. split; [done|]. split; [apply erel_refl, Hv|]. split; [done|]. split; [lia|done].
Qed.

Lemma Snapshot_abs s : state_ok s -> cur (abs (Snapshot s).2) ≡ cur (abs s).
Proof. intros Hs. destruct (Snapshot_spec s (proj1 Hs)) as [_ ->]. done. Qed.

(** The state in which [Call] starts the callee: the account exists and the
    value has been moved. *)
Lemma Call_enter_ok (ro : Prop) s from addr value found s' :
  state_ok s -> 0 <= value <= w_balance (cur (abs s)) from -> (ro -> value = 0) ->
  Exist addr s = (found, s') ->
  srel ro s (Transfer (if negb found then CreateAccount addr s' else s') from addr value).
Proof.
  intros Hs Hval Hro HE.
  destruct (Exist_reads _ ro addr _ Hs) as [Ef R1].
  destruct (Exist_spec addr _ (proj1 Hs)) as (_ & A & _). rewrite HE in *. simpl in *.
  pose proof (srel_ok _ _ _ _ R1) as Hs'.
  eapply srel_trans; [done|]. destruct found; simpl.
  - apply Transfer_ok; [done|by rewrite A|done].
  - assert (R2 : srel ro s' (CreateAccount addr s')).
    { apply srel_CreateAccount; [done|]. intros _. by rewrite A. }
    eapply srel_trans; [done|]. apply Transfer_ok; [by eapply srel_ok| |done].
    destruct (CreateAccount_spec addr s' (proj1 Hs')) as [_ E]. rewrite E. simpl.
    assert (w_balance (w_CreateAccount (Keccak256Hash []) addr (cur (abs s'))) from
            = w_balance (cur (abs s')) from) as ->; [|by rewrite A].
    unfold w_CreateAccount, w_balance. simpl. by case_decide; subst.
Qed.

(** From the snapshot of [s0] to the result, through [load_code] and [run]. *)
Lemma enter_ok n R (v v1 : EVM S) s0 id addr c input gas :
  Runner_ok e n R -> evm_ok v -> srel (static v) (evm_StateDB v) s0 ->
  abs s0 ≡ abs (evm_StateDB v) -> id = (Snapshot s0).1 ->
  srel (static v1) (Snapshot s0).2 (evm_StateDB v1) ->
  evm_depth v1 = evm_depth v -> (static v -> static v1) -> evm_ok v1 ->
  (forall h code, small code -> (code = [] \/ h = Keccak256Hash code) ->
     contract_ok (SetCallCode addr h code c)) ->
  small input -> c_Gas c = gas -> gas < n ->
  owp (let '(v2, c2) := load_code addr v1 c in
       let* r := run e R v2 c2 input in after_run id r) (fun '(ret, g, err, v') =>
    evm_ok v' /\ srel (static v1) s0 (evm_StateDB v') /\ evm_depth v' = evm_depth v /\
    evm_readOnly v' = evm_readOnly v1 /\ small ret /\ 0 <= g <= gas /\
    (err <> None -> abs (evm_StateDB v') ≡ abs (evm_StateDB v))).
Proof.
  intros HR Hv R0 A0 -> R1 Hd Hst Hv1 Hc Hi Hg Hn.
  destruct (load_code_ok (static v1) addr v1 c) as (s2 & h & code & -> & R2 & _ & Hcode & Hh);
    [apply Hv1|].
  eapply owp_mono; [eapply (run_after_run_ok n R v (set_StateDB s2 v1) s0); try done|].
  - by eapply srel_trans.
  - apply evm_ok_set_StateDB; [done|]. by eapply srel_ok.
  - by apply Hc.
  - done.
Qed.

Lemma enter_call_post (v v1 : EVM S) s0 gas r :
  srel (static v) (evm_StateDB v) s0 -> evm_readOnly v1 = evm_readOnly v ->
  (let '(ret, g, err, v') := r in
   evm_ok v' /\ srel (static v1) s0 (evm_StateDB v') /\ evm_depth v' = evm_depth v /\
   evm_readOnly v' = evm_readOnly v1 /\ small ret /\ 0 <= g <= gas /\
   (err <> None -> abs (evm_StateDB v') ≡ abs (evm_StateDB v))) ->
  call_post v gas r.
Proof.
  destruct r as [[[ret g] err] v']. intros R0 Ho (? & R & ? & ? & ? & ? & ?).
  split; [done|]. split; [|done]. split; [|split; congruence].
  eapply srel_trans; [done|]. unfold static in *. by rewrite Ho in R.
Qed.

Lemma evm_ok_enter v s caller :
  evm_ok v -> state_ok s ->
  evm_ok (set_jumpdests (NewContract_jumpdests caller (evm_jumpdests v)) (set_StateDB s v)).
Proof. intros. by apply (evm_ok_jumpdests (set_StateDB s v)), evm_ok_set_StateDB. Qed.

Lemma Call_ok n R v caller addr input gas value :
  Runner_ok e n R -> evm_ok v -> caller_ok caller -> small input ->
  0 <= gas < 2 ^ 62 -> gas < n -> 0 <= value -> (static v -> value = 0) ->
  owp (Call e R v caller addr input gas value) (call_post v gas).
Proof.
  intros HR Hv Hcaller Hi Hg Hn Hval Hro. unfold Call.
  destruct (_ && _); [by apply call_post_id; [|lia]|].
  destruct (_ <? _); [by apply call_post_id; [|lia]|].
  destruct (CanTransfer_ok (static v) (evm_StateDB v) (ref_Address caller) value (proj1 Hv))
    as (can & s0 & -> & R0 & A0 & Hcan).
  destruct can; simpl; [|by apply call_post_read; [|lia|..]].
  pose proof (srel_ok _ _ _ _ R0) as Hs0. pose proof (srel_snapshot _ (static v) _ Hs0) as Rsn.
  pose proof (Snapshot_abs _ Hs0) as Asn. pose proof (srel_ok _ _ _ _ Rsn) as Hsn.
  destruct (Snapshot s0) as [id sn] eqn:Esn. simpl in *.
  destruct (Exist addr sn) as [found sx] eqn:Ex.
  destruct (_ && _).
  { destruct (Exist_reads _ (static v) addr _ Hsn) as [_ R1]. rewrite Ex in R1. simpl in R1.
    assert (R2 : srel (static v) (evm_StateDB v) sx) 
      by (eapply srel_trans; [exact R0|]; eapply srel_trans; [exact Rsn|exact R1]).
    split; [by apply evm_ok_set_StateDB, (srel_ok _ _ _ _ R2)|].
    split; [done|]. split; [done|]. split; [lia|done]. }
  assert (R1 := Call_enter_ok (static v) sn (ref_Address caller) addr value found sx Hsn
                  ltac:(rewrite Asn; auto) Hro Ex).
  set (s1 := Transfer _ _ _ _) in *.
  eapply owp_mono; [eapply (enter_ok n R v _ s0); try done|].
  - by rewrite Esn.
  - by rewrite Esn.
  - apply evm_ok_enter; [done|by eapply srel_ok].
  - intros r. by apply enter_call_post.
Qed.

Lemma CallCode_ok n R v caller addr input gas value :
  Runner_ok e n R -> evm_ok v -> small input -> 0 <= gas < 2 ^ 62 -> gas < n -> 0 <= value ->
  owp (CallCode e R v caller addr input gas value) (call_post v gas).
Proof.
  intros HR Hv Hi Hg Hn Hval. unfold CallCode.
  destruct (_ && _); [by apply call_post_id; [|lia]|].
  destruct (_ <? _); [by apply call_post_id; [|lia]|].
  destruct (CanTransfer_ok (static v) (evm_StateDB v) (ref_Address caller) value (proj1 Hv))
    as (can & s0 & -> & R0 & A0 & _).
  destruct can; simpl; [|by apply call_post_read; [|lia|..]].
  pose proof (srel_ok _ _ _ _ R0) as Hs0. pose proof (srel_snapshot _ (static v) _ Hs0) as Rsn.
  destruct (Snapshot s0) as [id sn] eqn:Esn. simpl in *.
  eapply owp_mono; [eapply (enter_ok n R v _ s0); try done|].
  - by rewrite Esn.
  - rewrite Esn. apply srel_refl. by eapply srel_ok.
  - apply evm_ok_enter; [done|by eapply srel_ok].
  - intros r. by apply enter_call_post.
Qed.

Lemma DelegateCall_ok n R v c addr input gas :
  Runner_ok e n R -> evm_ok v -> 0 <= c_value c -> small input ->
  0 <= gas < 2 ^ 62 -> gas < n ->
  owp (DelegateCall e R v (ContractAsRef c) addr input gas) (call_post v gas).
Proof.
  intros HR Hv Hval Hi Hg Hn. unfold DelegateCall.
  destruct (_ && _); [by apply call_post_id; [|lia]|].
  destruct (_ <? _); [by apply call_post_id; [|lia]|].
  pose proof (srel_snapshot _ (static v) _ (proj1 Hv)) as Rsn.
  destruct (Snapshot (evm_StateDB v)) as [id sn] eqn:Esn. cbn [AsDelegate outcome_bind].
  eapply owp_mono; [eapply (enter_ok n R v _ (evm_StateDB v)); try done|].
  - apply srel_refl, Hv.
  - by rewrite Esn.
  - rewrite Esn. apply srel_refl. by eapply srel_ok.
  - apply (evm_ok_enter v sn (ContractAsRef c)); [done|by eapply srel_ok].
  - intros r. apply enter_call_post; [apply srel_refl, Hv|done].
Qed.

(** After a static call the world is as before, whatever the callee did. *)
Lemma StaticCall_ok n R v caller addr input gas :
  Runner_ok e n R -> evm_ok v -> small input -> 0 <= gas < 2 ^ 62 -> gas < n ->
  owp (StaticCall e R v caller addr input gas) (fun r =>
    call_post v gas r /\
    (env_IsByzantium e = true ->
     static_eq (cur (abs (evm_StateDB v))) (cur (abs (evm_StateDB r.2))))).
Proof.
  intros HR Hv Hi Hg Hn. unfold StaticCall.
  destruct (_ && _); [by split; [apply call_post_id; [|lia]|]|].
  destruct (_ <? _); [by split; [apply call_post_id; [|lia]|]|].
  set (vr := if negb (evm_readOnly v) then set_readOnly true v else v).
  assert (Evr : vr = set_readOnly true v) by (unfold vr; destruct v as [? ? [|]]; done).
  rewrite Evr. clear vr Evr. cbn [evm_StateDB set_readOnly].
  pose proof (srel_snapshot _ (static (set_readOnly true v)) _ (proj1 Hv)) as Rsn.
  destruct (Snapshot (evm_StateDB v)) as [id sn] eqn:Esn. simpl in Rsn.
  set (v1 := set_jumpdests _ _).
  assert (Hrun : owp (let '(v2, c2) := load_code addr v1 (NewContract caller addr 0 gas) in
                      let* r := run e R v2 c2 input in after_run id r)
    (fun '(ret, g, err, v') =>
      evm_ok v' /\ srel (static v1) (evm_StateDB v) (evm_StateDB v') /\
      evm_depth v' = evm_depth v /\ evm_readOnly v' = evm_readOnly v1 /\ small ret /\ 0 <= g <= gas /\
      (err <> None -> abs (evm_StateDB v') ≡ abs (evm_StateDB v)))).
  { eapply (enter_ok n R v v1 (evm_StateDB v)); try done.
    - apply srel_refl, Hv.
    - by rewrite Esn.
    - rewrite Esn. apply srel_refl. by eapply srel_ok.
    - by intros [? ?].
    - apply (evm_ok_enter (set_readOnly true v) sn caller); [done|by eapply srel_ok]. }
  destruct (load_code _ _ _) as [v2 c2]. apply owp_bind_inv in Hrun. apply owp_bind.
  eapply owp_mono; [exact Hrun|]. intros r Hr. apply owp_bind. eapply owp_mono; [exact Hr|].
  intros [[[ret g] err] v'] (Hv' & R' & D' & O' & Hret & Hg' & Herr). simpl.
  assert (Hro : evm_readOnly (if negb (evm_readOnly v) then set_readOnly false v' else v')
                = evm_readOnly v) by (destruct (evm_readOnly v); done).
  assert (Hdb : evm_StateDB (if negb (evm_readOnly v) then set_readOnly false v' else v')
                = evm_StateDB v') by by destruct (negb _).
  split; [|intros; rewrite Hdb; by apply R'].
  split; [by destruct (negb _)|]. rewrite Hdb.
  split; [|done]. split; [rewrite Hdb|split; [by destruct (negb _)|done]].
  eapply srel_weaken; [|exact R']. by intros [? ?].
Qed.

(** ** Contract creation *)

(** What a creation may do.  Its caller is not in a static call. *)
Definition create_post (v : EVM S) (gas : Z) (r : createResult) : Prop :=
  let '(ret, addr, g, err, v') := r in
  evm_ok v' /\ erel v v' /\ small ret /\ 0 <= g <= gas.

(** On an error, since Homestead, the world is [w]. *)
Definition create_failed (w : world) (r : createResult) : Prop :=
  let '(ret, addr, g, err, v') := r in
  err <> None -> env_IsHomestead e = true -> cur (abs (evm_StateDB v')) ≡ w.

(** The world with the caller's nonce incremented. *)
Definition bump_nonce (a : Address) (w : world) : world :=
  w_SetNonce (Keccak256Hash []) a (u64 (w_nonce w a + 1)) w.

Lemma after_create_ok v0 v s0 gas contractAddr ret err c :
  ~ static v0 -> srel (static v0) (evm_StateDB v0) s0 -> state_ok s0 ->
  srel (static v0) (Snapshot s0).2 (evm_StateDB v) ->
  evm_depth v = evm_depth v0 -> evm_readOnly v = evm_readOnly v0 ->
  evm_ok v -> small ret -> 0 <= c_Gas c <= gas -> gas < 2 ^ 62 ->
  owp (after_create e (Snapshot s0).1 contractAddr (ret, err, v, c))
      (fun r => create_post v0 gas r /\ create_failed (cur (abs s0)) r).
Proof.
  intros Hns R0 Hs0 R1 Hd Ho Hv Hret Hg Hgas. unfold after_create.
  set (max := _ && (MaxCodeSize <? _)).
  set (stored := match err with None => _ | Some _ => _ end).
  assert (Hst : let '(err2, v2, c2) := stored in
    evm_ok v2 /\ srel (static v0) (Snapshot s0).2 (evm_StateDB v2) /\
    evm_depth v2 = evm_depth v0 /\ evm_readOnly v2 = evm_readOnly v0 /\ 0 <= c_Gas c2 <= gas).
  { unfold stored. destruct err; [done|]. destruct (negb max); [|done].
    unfold UseGas. pose proof (u64_range (len ret * CreateDataGas)) as [? _].
    destruct (Z.ltb_spec (c_Gas c) (u64 (len ret * CreateDataGas))); [done|].
    assert (R2 := srel_SetCode _ (static v0) contractAddr ret _ (proj1 Hv) Hret Hns).
    split; [by apply evm_ok_set_StateDB, (srel_ok _ _ _ _ R2)|].
    split; [by eapply srel_trans|]. split; [done|]. split; [done|].
    simpl. rewrite u64_small by (unfold is_u64; lia). lia. }
  destruct stored as [[err2 v2] c2]. destruct Hst as (Hv2 & R2 & D2 & O2 & G2).
  apply owp_bind. destruct (max || _) eqn:Efail.
  - apply owp_bind.
    destruct (srel_revert _ (static v0) _ _ _ Hs0 R2) as (s3 & -> & R3 & A3). simpl.
    split; [|intros _ _; by apply A3].
    split; [by apply evm_ok_set_StateDB, (srel_ok _ _ _ _ R3)|].
    split; [split; [by eapply srel_trans|done]|]. split; [done|].
    case_bool_decide; [lia|]. rewrite UseGas_leaves_none; lia.
  - apply orb_false_iff in Efail as [-> Efail]. simpl.
    split; [split; [done|]; split; [|done]; split; [|done]|].
    + eapply srel_trans; [done|]. eapply srel_trans; [by apply srel_snapshot|]. done.
    + intros Herr Hh. destruct err2; [|done]. by rewrite Hh in Efail.
Qed.

(** The state in which [Create] starts the constructor. *)
Lemma Create_enter_ok (ro : Prop) s from addr value :
  state_ok s -> ~ ro -> 0 <= value <= w_balance (cur (abs s)) from ->
  srel ro s (Transfer (let s := CreateAccount addr s in
                       if env_IsEIP158 e then SetNonce addr 1 s else s) from addr value).
Proof.
  intros Hs Hro Hval.
  assert (R1 := srel_CreateAccount _ ro addr s Hs ltac:(done)).
  assert (Hb : w_balance (cur (abs (CreateAccount addr s))) from = w_balance (cur (abs s)) from).
  { destruct (CreateAccount_spec addr s (proj1 Hs)) as [_ E]. rewrite E.
    unfold w_CreateAccount, w_balance. simpl. by case_decide; subst. }
  pose proof (srel_ok _ _ _ _ R1) as Hs1. simpl.
  eapply srel_trans; [exact R1|]. destruct (env_IsEIP158 e).
  - assert (R2 := srel_SetNonce _ ro addr 1 _ Hs1 Hro). eapply srel_trans; [exact R2|].
    apply Transfer_ok; [by eapply srel_ok| |done].
    destruct (SetNonce_spec addr 1 _ (proj1 Hs1)) as [_ E]. rewrite E. simpl.
    rewrite w_balance_SetNonce. lia.
  - apply Transfer_ok; [done|lia|done].
Qed.

(** The checks of [Create] before the snapshot. *)
Lemma Create_checks_ok (ro : Prop) s from addr nonce :
  state_ok s -> ~ ro ->
  let s1 := SetNonce from nonce s in
  let s3 := (GetNonce addr (GetCodeHash addr s1).2).2 in
  srel ro s s3 /\ cur (abs s3) ≡ w_SetNonce (Keccak256Hash []) from nonce (cur (abs s)).
Proof.
  intros Hs Hro s1 s3.
  assert (R1 : srel ro s s1) by (by apply srel_SetNonce).
  pose proof (srel_ok _ _ _ _ R1) as Hs1.
  destruct (GetCodeHash_reads _ ro addr _ Hs1) as [_ R2]. pose proof (srel_ok _ _ _ _ R2) as Hs2.
  destruct (GetNonce_reads _ ro addr _ Hs2) as [_ R3].
  split; [by eapply srel_trans; [exact R1|]; eapply srel_trans; [exact R2|]|].
  destruct (SetNonce_spec from nonce s (proj1 Hs)) as [_ E1].
  destruct (GetCodeHash_spec addr s1 (proj1 Hs1)) as (_ & E2 & _).
  destruct (GetNonce_spec addr _ (proj1 Hs2)) as (_ & E3 & _).
  unfold s3. rewrite E3, E2. unfold s1. by rewrite E1.
Qed.

(** [Create] from its snapshot on. *)
Lemma Create_run_ok n R v s3 caller addr code gas value :
  Runner_ok e n R -> evm_ok v -> ~ static v -> small code -> 0 <= gas < 2 ^ 62 -> gas < n ->
  srel (static v) (evm_StateDB v) s3 -> 0 <= value <= w_balance (cur (abs s3)) (ref_Address caller) ->
  owp (let '(snapshot, s) := Snapshot s3 in
       let s := CreateAccount addr s in
       let s := if env_IsEIP158 e then SetNonce addr 1 s else s in
       let s := Transfer s (ref_Address caller) addr value in
       let evm := set_jumpdests (NewContract_jumpdests caller (evm_jumpdests v)) (set_StateDB s v) in
       let contract := SetCallCode addr (Keccak256Hash code) code (NewContract caller addr value gas) in
       if env_NoRecursion e && (0 <? evm_depth evm) then Done ([], addr, gas, None, evm)
       else let* r := run e R evm contract [] in after_create e snapshot addr r)
      (fun r => create_post v gas r /\ create_failed (cur (abs s3)) r).
Proof.
  intros HR Hv Hns Hcode Hg Hn R3 Hval. pose proof (srel_ok _ _ _ _ R3) as Hs3.
  pose proof (srel_snapshot _ (static v) _ Hs3) as Rsn. pose proof (Snapshot_abs _ Hs3) as Asn.
  destruct (Snapshot s3) as [id sn] eqn:Esn. simpl in *.
  assert (R4 := Create_enter_ok (static v) sn (ref_Address caller) addr value
                  (srel_ok _ _ _ _ Rsn) Hns ltac:(by rewrite Asn)).
  simpl in R4. set (s4 := Transfer _ _ _ _) in *.
  pose proof (evm_ok_enter v s4 caller Hv (srel_ok _ _ _ _ R4)) as Hv4.
  destruct (_ && _).
  { split; [|done]. split; [done|]. split; [|split; [done|lia]]. split; [|done].
    eapply srel_trans; [exact R3|]. by eapply srel_trans. }
  apply owp_bind. eapply owp_mono.
  - apply (run_ok n); [done|exact Hv4| |done|done].
    split; [done|]. split; [done|]. split; [by right|]. split; [done|apply Hval].
  - intros [[[ret err] v5] c5] (Hv5 & (R5 & D5 & O5) & Hret & Hg5).
    replace id with (Snapshot s3).1 by by rewrite Esn.
    apply (after_create_ok v _ s3 gas); try done; [|simpl in *; lia].
    rewrite Esn. by eapply srel_trans.
Qed.

Lemma Create_ok n R v caller code gas value :
  Runner_ok e n R -> evm_ok v -> ~ static v -> small code ->
  0 <= gas < 2 ^ 62 -> gas < n -> 0 <= value ->
  owp (Create e R v caller code gas value) (fun r => create_post v gas r /\
    (create_failed (cur (abs (evm_StateDB v))) r \/
     create_failed (bump_nonce (ref_Address caller) (cur (abs (evm_StateDB v)))) r)).
Proof.
  intros HR Hv Hns Hcode Hg Hn Hval. unfold Create.
  destruct (_ <? _).
  { split; [|by left]. split; [done|]. split; [apply erel_refl, Hv|]. split; [done|lia]. }
  destruct (CanTransfer_ok (static v) (evm_StateDB v) (ref_Address caller) value (proj1 Hv))
    as (can & s0 & -> & R0 & A0 & Hcan). pose proof (srel_ok _ _ _ _ R0) as Hs0.
  destruct can; simpl.
  2:{ split; [|left; intros _ _; apply A0].
      split; [by apply evm_ok_set_StateDB|]. split; [done|]. split; [done|lia]. }
  destruct (GetNonce_reads _ (static v) (ref_Address caller) _ Hs0) as [En R1].
  destruct (GetNonce_spec (ref_Address caller) _ (proj1 Hs0)) as (_ & A1 & _).
  destruct (GetNonce _ s0) as [nonce s1]. simpl in *. pose proof (srel_ok _ _ _ _ R1) as Hs1.
  set (addr := CreateAddress _ nonce).
  destruct (Create_checks_ok (static v) s1 (ref_Address caller) addr (u64 (nonce + 1)) Hs1 Hns)
    as [R2 A2].
  destruct (GetCodeHash addr _) as [hash s2]. simpl in *.
  destruct (GetNonce addr s2) as [nn s3]. simpl in *.
  assert (R3 : srel (static v) (evm_StateDB v) s3)
    by (eapply srel_trans; [exact R0|]; by eapply srel_trans).
  assert (Hb : w_balance (cur (abs s3)) (ref_Address caller) = w_balance (cur (abs s0)) (ref_Address caller))
    by (by rewrite A2, w_balance_SetNonce, A1).
  assert (A3 : cur (abs s3) ≡ bump_nonce (ref_Address caller) (cur (abs (evm_StateDB v))))
    by (unfold bump_nonce; by rewrite A2, A1, En, A0).
  destruct (_ || _).
  { split; [|right; intros _ _; apply A3].
    split; [by apply evm_ok_set_StateDB, (srel_ok _ _ _ _ R3)|]. split; [done|]. split; [done|lia]. }
  eapply owp_mono; [apply (Create_run_ok n R v s3 caller addr code gas value); try done|].
  - rewrite Hb. auto.
  - intros [[[[ret a'] g'] err'] v'] [Hpost Hf]. split; [done|]. right.
    intros Herr Hh. transitivity (cur (abs s3)); [by apply Hf|done].
Qed.
End CallFacts.
