(* ===== verification/GasFacts.v ===== *)
(** The gas functions of the machine keep its invariant. *)
From S2P Require Import Prelude BigMath Params Opcodes Machine Analysis StateSpec StateRel MachineFacts Vm.
From S2P Require Import Precompiles PrecompileFacts Evm CallFacts.

(** The gas functions: core/vm/gas_table.go.

    A gas function never panics on a stack that is deep enough, changes
    nothing but caches, refunds and the memory's fee counter, and charges at
    least a minimum. *)

Section GasFacts.
Context {S : Type} `{SDB : StateDB S} `{CR : Crypto} {CS : CryptoSpec}
        `{SP : !StateDBSpec S Keccak256Hash}.
Context (e : Env).

Abbreviation evm_ok := (evm_ok (S := S)).
Abbreviation erel := (erel (S := S) e).

Definition wp {A} (m : M S A) (Q : vmError + A -> frame S -> Prop) (f : frame S) : Prop :=
  owp (m f) (fun '(r, f') => Q r f').

Lemma wp_bind {A B} (m : M S A) (k : A -> M S B) Q f :
  wp m (fun r f' => match r with inl er => Q (inl er) f' | inr a => wp (k a) Q f' end) f ->
  wp (bind m k) Q f.
Proof. unfold wp, bind. by destruct (m f) as [[[er|a] f']| |]. Qed.
Lemma wp_mono {A} (m : M S A) (P Q : vmError + A -> frame S -> Prop) f :
  wp m P f -> (forall r f', P r f' -> Q r f') -> wp m Q f.
Proof. intros Hm HPQ. eapply owp_mono; [exact Hm|]. intros [r f']. apply HPQ. Qed.
(** Sequencing through an intermediate assertion on the value. *)
Lemma wp_seq {A B} (P : vmError + A -> frame S -> Prop) (m : M S A) (k : A -> M S B) Q f :
  wp m P f -> (forall er f', P (inl er) f' -> Q (inl er) f') ->
  (forall a f', P (inr a) f' -> wp (k a) Q f') -> wp (bind m k) Q f.
Proof. intros Hm He Hv. apply wp_bind. eapply wp_mono; [exact Hm|]. intros [er|a] f'; auto. Qed.
Lemma wp_ret {A} (a : A) Q f : Q (inr a) f -> wp (ret a) Q f.
Proof. done. Qed.
Lemma wp_raise {A} er (Q : vmError + A -> frame S -> Prop) f : Q (inl er) f -> wp (raise er) Q f.
Proof. done. Qed.

(** What a gas function leaves alone. *)
Definition gframe (f f' : frame S) : Prop :=
  f_pc f' = f_pc f /\ f_contract f' = f_contract f /\ f_stack f' = f_stack f /\
  store (f_mem f') = store (f_mem f) /\ evm_ok (f_evm f') /\ erel (f_evm f) (f_evm f').

Lemma gframe_refl f : evm_ok (f_evm f) -> gframe f f.
Proof. intros H. repeat (split; [done|]). apply erel_refl, H. Qed.

(** ** Rules *)

Section Rules.
Context (f0 : frame S).
Implicit Types f : frame S.

Lemma wp_memGas n Q f :
  gframe f0 f ->
  (forall f' fee, gframe f0 f' -> is_u64 fee -> n <= MaxMem -> Q (inr fee) f') ->
  (forall f' er, gframe f0 f' -> Q (inl er) f') ->
  wp (memGas n) Q f.
Proof.
  intros (? & ? & ? & Hm & ? & ?) Hq Herr. unfold wp, memGas.
  destruct (memoryGasCost (f_mem f) n) as [r m'] eqn:E.
  apply memoryGasCost_frame in E as [Es Hr]. simpl.
  assert (Hg : gframe f0 (set_mem m' f)) by (repeat (split; [done|]); split; [simpl; congruence|done]).
  destruct r as [er|fee]; [by apply Herr|]. destruct (Hr fee eq_refl). by apply Hq.
Qed.

Lemma wp_checked r Q f :
  (r.2 = false -> Q (inr r.1) f) -> (r.2 = true -> Q (inl errGasUintOverflow) f) ->
  wp (checked r) Q f.
Proof. destruct r as [x []]; intros H1 H2; [by apply H2|by apply H1]. Qed.

Lemma wp_SafeAdd x y Q f :
  is_u64 x -> is_u64 y ->
  (is_u64 (x + y) -> Q (inr (x + y)) f) -> Q (inl errGasUintOverflow) f ->
  wp (checked (SafeAdd x y)) Q f.
Proof.
  intros Hx Hy Hq He. apply wp_checked; rewrite SafeAdd_spec by done;
    destruct (Z.leb_spec (x + y) MaxUint64); intros [=]; [|done].
  apply Hq. unfold is_u64 in *. lia.
Qed.
Lemma wp_SafeMul x y Q f :
  is_u64 x -> is_u64 y ->
  (is_u64 (x * y) -> Q (inr (x * y)) f) -> Q (inl errGasUintOverflow) f ->
  wp (checked (SafeMul x y)) Q f.
Proof.
  intros Hx Hy Hq He. apply wp_checked; rewrite SafeMul_spec by done; simpl; intros Hb; [|done].
  apply Z.ltb_ge in Hb. assert (is_u64 (x * y)) by (unfold is_u64 in *; nia).
  rewrite u64_small by done. auto.
Qed.
Lemma wp_bigUint64 w Q f :
  0 <= w -> (is_u64 w -> Q (inr w) f) -> Q (inl errGasUintOverflow) f ->
  wp (checked (bigUint64 w)) Q f.
Proof.
  intros Hw Hq He. apply wp_checked; [|done]. destruct (bigUint64 w) as [r b] eqn:E. simpl.
  intros ->. apply bigUint64_fits in E as [-> ?]; auto.
Qed.

Lemma wp_Back k x Q f :
  gframe f0 f -> f_stack f0 !! k = Some x -> Q (inr x) f -> wp (Back k) Q f.
Proof.
  intros (_ & _ & Hst & _) Hx Hq. unfold wp, Back, bind, gets, liftO, Stack_Back.
  by rewrite Hst, Hx.
Qed.

Lemma wp_gets {A} (g : frame S -> A) Q f : Q (inr (g f)) f -> wp (gets g) Q f.
Proof. done. Qed.

(** A getter of the state. *)
Lemma wp_sdb_get {A} (g : S -> A * S) (v : S -> A) Q f :
  gframe f0 f ->
  (forall ro s, state_ok Keccak256Hash s -> reads Keccak256Hash ro s (g s) (v s)) ->
  (forall f' a, gframe f0 f' -> Q (inr a) f') -> wp (sdb_get g) Q f.
Proof.
  intros (? & ? & ? & ? & Hv & Hr) Hg Hq. unfold wp, sdb_get.
  destruct (Hg (static e (f_evm f)) _ (proj1 Hv)) as [_ R].
  destruct (g (evm_StateDB (f_evm f))) as [a s']. simpl in *. apply Hq.
  do 4 (split; [done|]).
  split; [by apply evm_ok_set_StateDB, (srel_ok _ _ _ _ R)|]. simpl.
  eapply erel_trans; [done|]. by apply erel_set_StateDB.
Qed.

(** A change of the state that [srel] allows. *)
Lemma wp_sdb_do (g : S -> S) Q f :
  gframe f0 f ->
  (forall s, state_ok Keccak256Hash s -> srel Keccak256Hash (static e (f_evm f)) s (g s)) ->
  (forall f', gframe f0 f' -> Q (inr tt) f') -> wp (sdb_do g) Q f.
Proof.
  intros (? & ? & ? & ? & Hv & Hr) Hg Hq. unfold wp, sdb_do, modify. simpl. apply Hq.
  pose proof (Hg _ (proj1 Hv)) as R. do 4 (split; [done|]).
  split; [by apply evm_ok_set_StateDB, (srel_ok _ _ _ _ R)|]. simpl.
  eapply erel_trans; [done|]. by apply erel_set_StateDB.
Qed.

Lemma gframe_callGasTemp g f : gframe f0 f -> is_u64 g ->
  gframe f0 (set_evm (set_callGasTemp g (f_evm f)) f).
Proof. intros (? & ? & ? & ? & (? & ? & ? & ?) & ?) Hg. by repeat (split; [done|]). Qed.
End Rules.

(** ** The gas functions *)

(** [K] holds of the cost and of the frame the function leaves. *)
Definition gas_ok (f0 : frame S) (K : Z -> frame S -> Prop) (r : vmError + Z) (f : frame S) : Prop :=
  gframe f0 f /\ match r with inl _ => True | inr cost => is_u64 cost /\ K cost f end.

Definition at_least (k : Z) (cost : Z) (f : frame S) : Prop := k <= cost.
(** At least [k], for an operation that uses [n] bytes of memory. *)
Definition at_least_mem (k n : Z) (cost : Z) (f : frame S) : Prop := k <= cost /\ n <= MaxMem.
(** The gas of a call: what the callee gets is part of the cost. *)
Definition call_cost (k n : Z) (cost : Z) (f : frame S) : Prop :=
  k + evm_callGasTemp (f_evm f) <= cost /\ n <= MaxMem.

Lemma stack_at (st : Stack) (k : nat) :
  nonneg st -> Z.of_nat k < len st -> exists x, st !! k = Some x /\ 0 <= x.
Proof.
  intros Hn Hk. destruct (lookup_lt_is_Some_2 st k) as [x Hx]; [unfold len in Hk; lia|].
  exists x. split; [done|]. eapply Forall_lookup in Hn; eauto.
Qed.

Lemma gas_err f0 K f er : gframe f0 f -> gas_ok f0 K (inl er) f.
Proof. by split. Qed.
Lemma gas_val f0 (K : Z -> frame S -> Prop) f cost :
  gframe f0 f -> is_u64 cost -> K cost f -> gas_ok f0 K (inr cost) f.
Proof. by split. Qed.

Lemma toWordSize_u64 n : is_u64 n -> is_u64 (toWordSize n).
Proof. intros H%toWordSize_bounds. unfold is_u64. lia. Qed.

Lemma gasTable_cases :
  gasTable e = GasTableHomestead \/ gasTable e = GasTableEIP150 \/ gasTable e = GasTableEIP158.
Proof.
  unfold gasTable, ChainConfig_GasTable.
  destruct (IsEIP158 _ _); [auto|]. destruct (IsEIP150 _ _); auto.
Qed.
End GasFacts.

(** Symbolic execution of a gas function; [f] is the frame it starts in. *)
Ltac gas_side := first [assumption | by (unfold is_u64, at_least, at_least_mem, call_cost in *; lia)
                       | by apply toWordSize_u64 | apply u64_range | by apply gframe_callGasTemp ].
Ltac gas_stack f k :=
  let x := fresh "x" in let Hx := fresh "Hx" in let H0 := fresh "H0" in
  destruct (stack_at (f_stack f) k) as (x & Hx & H0); [assumption|lia|].
Ltac gas_step :=
  lazymatch goal with
  | |- gas_ok _ _ _ (inl _) _ => apply gas_err; gas_side
  | |- gas_ok _ _ _ (inr _) _ => apply gas_val; gas_side
  | |- wp (bind _ _) _ _ => apply wp_bind
  | |- wp (ret _) _ _ => apply wp_ret
  | |- wp (memGas _) _ _ => eapply wp_memGas; [eassumption|intros|intros]
  | |- wp (checked (SafeAdd _ _)) _ _ => apply wp_SafeAdd; [gas_side|gas_side|intros|]
  | |- wp (checked (SafeMul _ _)) _ _ => apply wp_SafeMul; [gas_side|gas_side|intros|]
  | |- wp (checked (bigUint64 _)) _ _ => apply wp_bigUint64; [assumption|intros|]
  | |- wp (Back _) _ _ => eapply wp_Back; [eassumption|eassumption|]
  | |- wp (gets _) _ _ => apply wp_gets
  end.
Ltac gas_go := repeat (cbv beta iota zeta; gas_step).

(** A lower bound for every gas function of core/vm/gas_table.go. *)

Section GasTable.
Context {S : Type} `{SDB : StateDB S} `{CR : Crypto} {CS : CryptoSpec}
        `{SP : !StateDBSpec S Keccak256Hash}.
Context (e : Env).

Abbreviation evm_ok := (evm_ok (S := S)).

(** [g] is safe on stacks of at least [pop] elements. *)
Definition gas_spec (pop : Z) (g : gasFunc (S := S)) (K : Z -> Z -> frame S -> Prop) : Prop :=
  forall f n, evm_ok (f_evm f) -> nonneg (f_stack f) -> pop <= len (f_stack f) -> 0 <= n ->
    wp (g e n) (gas_ok e f (K n)) f.

Ltac gas_start :=
  intros f n Hv Hst Hlen Hn; pose proof (gframe_refl e f Hv) as Hf.

Lemma constGasFunc_spec k : is_u64 k -> gas_spec 0 (constGasFunc k) (fun _ => at_least k).
Proof. intros Hk. gas_start. unfold constGasFunc. gas_go. Qed.

Lemma gasPush_spec : gas_spec 0 gasPush (fun _ => at_least 3).
Proof. gas_start. unfold gasPush, GasFastestStep. gas_go. Qed.
Lemma gasDup_spec : gas_spec 0 gasDup (fun _ => at_least 3).
Proof. gas_start. unfold gasDup, GasFastestStep. gas_go. Qed.
Lemma gasSwap_spec : gas_spec 0 gasSwap (fun _ => at_least 3).
Proof. gas_start. unfold gasSwap, GasFastestStep. gas_go. Qed.

Lemma gasMLoad_spec : gas_spec 0 gasMLoad (at_least_mem 3).
Proof. gas_start. unfold gasMLoad, GasFastestStep. gas_go. Qed.
Lemma gasMStore_spec : gas_spec 0 gasMStore (at_least_mem 3).
Proof. gas_start. unfold gasMStore, GasFastestStep. gas_go. Qed.
Lemma gasMStore8_spec : gas_spec 0 gasMStore8 (at_least_mem 3).
Proof. gas_start. unfold gasMStore8, GasFastestStep. gas_go. Qed.
Lemma gasCreate_spec : gas_spec 0 gasCreate (at_least_mem CreateGas).
Proof. gas_start. unfold gasCreate, CreateGas. gas_go. Qed.
Lemma gasReturn_spec : gas_spec 0 gasReturn (at_least_mem 0).
Proof. gas_start. unfold gasReturn. gas_go. Qed.
Lemma gasRevert_spec : gas_spec 0 gasRevert (at_least_mem 0).
Proof. gas_start. unfold gasRevert. gas_go. Qed.

Lemma gasCallDataCopy_spec : gas_spec 3 gasCallDataCopy (at_least_mem 3).
Proof. gas_start. gas_stack f 2%nat. unfold gasCallDataCopy, GasFastestStep, CopyGas. gas_go. Qed.
Lemma gasReturnDataCopy_spec : gas_spec 3 gasReturnDataCopy (at_least_mem 3).
Proof. gas_start. gas_stack f 2%nat. unfold gasReturnDataCopy, GasFastestStep, CopyGas. gas_go. Qed.
Lemma gasCodeCopy_spec : gas_spec 3 gasCodeCopy (at_least_mem 3).
Proof. gas_start. gas_stack f 2%nat. unfold gasCodeCopy, GasFastestStep, CopyGas. gas_go. Qed.
Lemma gasExtCodeCopy_spec : gas_spec 4 gasExtCodeCopy (at_least_mem 20).
Proof.
  gas_start. gas_stack f 3%nat. unfold gasExtCodeCopy, CopyGas.
  destruct (gasTable_cases e) as [->|[->| ->]]; cbn [gt_ExtcodeCopy GasTableHomestead GasTableEIP150 GasTableEIP158]; gas_go.
Qed.
Lemma gasSha3_spec : gas_spec 2 gasSha3 (at_least_mem 30).
Proof. gas_start. gas_stack f 1%nat. unfold gasSha3, Sha3Gas, Sha3WordGas. gas_go. Qed.
Lemma makeGasLog_spec k : 0 <= k <= 4 -> gas_spec 2 (makeGasLog k) (at_least_mem 375).
Proof.
  intros Hk. gas_start. gas_stack f 1%nat. unfold makeGasLog, LogGas, LogTopicGas, LogDataGas.
  rewrite (u64_small (k * 375)) by (unfold is_u64; lia). gas_go.
Qed.

Lemma gasBalance_spec : gas_spec 0 gasBalance (fun _ => at_least 20).
Proof.
  gas_start. unfold gasBalance.
  destruct (gasTable_cases e) as [->|[->| ->]]; cbn [gt_Balance GasTableHomestead GasTableEIP150 GasTableEIP158]; gas_go.
Qed.
Lemma gasExtCodeSize_spec : gas_spec 0 gasExtCodeSize (fun _ => at_least 20).
Proof.
  gas_start. unfold gasExtCodeSize.
  destruct (gasTable_cases e) as [->|[->| ->]]; cbn [gt_ExtcodeSize GasTableHomestead GasTableEIP150 GasTableEIP158]; gas_go.
Qed.
Lemma gasSLoad_spec : gas_spec 0 gasSLoad (fun _ => at_least 50).
Proof.
  gas_start. unfold gasSLoad.
  destruct (gasTable_cases e) as [->|[->| ->]]; cbn [gt_SLoad GasTableHomestead GasTableEIP150 GasTableEIP158]; gas_go.
Qed.
Lemma gasExp_spec : gas_spec 2 gasExp (fun _ => at_least 10).
Proof.
  gas_start. gas_stack f 1%nat. unfold gasExp, GasSlowStep. gas_step. gas_step.
  apply wp_SafeAdd; [apply u64_range|unfold is_u64; lia|intros|gas_go].
  apply gas_val; [done|done|]. unfold at_least.
  pose proof (u64_range (u64 ((BitLen x + 7) / 8) * gt_ExpByte (gasTable e))) as [? _]. lia.
Qed.

(** ** SSTORE and SELFDESTRUCT: not in a static call *)

Lemma gasSStore_spec f n :
  evm_ok (f_evm f) -> nonneg (f_stack f) -> 2 <= len (f_stack f) -> ~ static e (f_evm f) ->
  wp (gasSStore e n) (gas_ok e f (at_least 5000)) f.
Proof.
  intros Hv Hst Hlen Hro. pose proof (gframe_refl e f Hv) as Hf.
  gas_stack f 0%nat. gas_stack f 1%nat. unfold gasSStore. gas_go.
  eapply wp_sdb_get; [exact Hf|intros; by apply GetState_reads|]. intros f1 val Hf1. cbv beta iota.
  unfold SstoreSetGas, SstoreClearGas, SstoreResetGas.
  destruct (_ && _); [gas_go|]. destruct (_ && _); [|gas_go]. gas_go.
  eapply wp_sdb_do; [exact Hf1| |intros; gas_go].
  intros s Hs. apply srel_AddRefund; [done|].
  destruct Hf1 as (_ & _ & _ & _ & _ & (_ & _ & Ho)). unfold static in *. by rewrite Ho.
Qed.

(** A step that yields an amount of gas. *)
Definition amount (f0 : frame S) (k : Z) (r : vmError + Z) (f : frame S) : Prop :=
  gframe e f0 f /\ match r with inl _ => True | inr g => k <= g <= 100000 end.

Lemma not_static_gframe f f' : gframe e f f' -> ~ static e (f_evm f) -> ~ static e (f_evm f').
Proof. intros (_ & _ & _ & _ & _ & (_ & _ & Ho)). unfold static. by rewrite Ho. Qed.

Lemma gasSuicide_spec f n :
  evm_ok (f_evm f) -> nonneg (f_stack f) -> 1 <= len (f_stack f) -> ~ static e (f_evm f) ->
  wp (gasSuicide e n) (gas_ok e f (at_least 0)) f.
Proof.
  intros Hv Hst Hlen Hro. pose proof (gframe_refl e f Hv) as Hf.
  gas_stack f 0%nat. unfold gasSuicide. gas_step. gas_step. cbv beta iota.
  apply (wp_seq (amount f 0)).
  - assert (Hg : 0 <= gt_Suicide (gasTable e) <= 5000 /\ 0 <= gt_CreateBySuicide (gasTable e) <= 25000)
      by (destruct (gasTable_cases e) as [->|[->| ->]]; simpl; lia).
    assert (Hret : forall f1 b, gframe e f f1 ->
      wp (ret (if b : bool then u64 (gt_Suicide (gasTable e) + gt_CreateBySuicide (gasTable e))
               else gt_Suicide (gasTable e))) (amount f 0) f1).
    { intros f1 b Hf1. apply wp_ret. split; [done|].
      rewrite u64_small by (unfold is_u64; lia). destruct b; lia. }
    destruct (env_IsEIP150 e); [|apply wp_ret; split; [done|lia]].
    gas_step. gas_step. cbv beta iota zeta. destruct (env_IsEIP158 e).
    + gas_step. eapply wp_sdb_get; [exact Hf|intros; by apply Empty_reads|].
      intros f1 em Hf1. cbv beta iota. destruct em; [|by apply (Hret f1 false)].
      gas_step. eapply wp_sdb_get; [exact Hf1|intros; by apply GetBalance_reads|].
      intros f2 b Hf2. apply (Hret f2 _ Hf2).
    + gas_step. eapply wp_sdb_get; [exact Hf|intros; by apply Exist_reads|].
      intros f1 em Hf1. apply (Hret f1 _ Hf1).
  - intros er f' [? _]. by apply gas_err.
  - intros g f1 [Hf1 Hg]. gas_step.
    eapply wp_sdb_get; [exact Hf1|intros; by apply HasSuicided_reads|].
    intros f2 sui Hf2. cbv beta iota. gas_step. destruct (negb sui); [|gas_go].
    eapply wp_sdb_do; [exact Hf2| |intros; gas_go].
    intros s Hs. apply srel_AddRefund; [done|]. by eapply not_static_gframe.
Qed.

(** ** Calls *)

Lemma gasCallTail_spec f f1 k n gas :
  gframe e f f1 -> nonneg (f_stack f) -> 1 <= len (f_stack f) -> is_u64 gas -> k <= gas ->
  n <= MaxMem -> wp (gasCallTail e gas) (gas_ok e f (call_cost k n)) f1.
Proof.
  intros Hf1 Hst Hlen Hg Hk Hn. gas_stack f 0%nat. unfold gasCallTail.
  gas_step. gas_step. gas_step. gas_step. cbv beta iota.
  destruct (callGas _ _ _ _) as [er|g] eqn:E.
  - gas_step. apply gas_err, gframe_callGasTemp; [done|unfold is_u64; lia].
  - assert (Hgu : is_u64 g).
    { revert E. unfold callGas.
      repeat case_match; intros; simplify_eq; first [apply u64_range|apply big_Uint64_range]. }
    apply wp_bind. apply wp_SafeAdd; [done|done|intros|].
    + apply gas_val; [by apply gframe_callGasTemp|done|]. split; [simpl; lia|done].
    + by apply gas_err, gframe_callGasTemp.
Qed.

Lemma gasTable_Calls : 40 <= gt_Calls (gasTable e) <= 700.
Proof. destruct (gasTable_cases e) as [->|[->| ->]]; simpl; lia. Qed.

Lemma gasDelegateCall_spec : gas_spec 6 gasDelegateCall (call_cost 40).
Proof.
  gas_start. pose proof gasTable_Calls. unfold gasDelegateCall. gas_go.
  apply gasCallTail_spec; gas_side.
Qed.
Lemma gasStaticCall_spec : gas_spec 6 gasStaticCall (call_cost 40).
Proof.
  gas_start. pose proof gasTable_Calls. unfold gasStaticCall. gas_go.
  apply gasCallTail_spec; gas_side.
Qed.

(** What a call with value [v] costs at least, besides the callee's gas. *)
Definition call_base (v : Z) : Z := 40 + (if Sign v =? 0 then 0 else CallValueTransferGas).

Lemma call_value_cost gas v : 40 <= gas <= 100000 ->
  let gas' := if negb (Sign v =? 0) then u64 (gas + CallValueTransferGas) else gas in
  is_u64 gas' /\ call_base v <= gas'.
Proof.
  intros Hg. unfold call_base, CallValueTransferGas.
  rewrite u64_small by (unfold is_u64; lia). destruct (Sign v =? 0); simpl; unfold is_u64; lia.
Qed.

Lemma gasCallCode_spec f n v :
  evm_ok (f_evm f) -> nonneg (f_stack f) -> 7 <= len (f_stack f) -> f_stack f !! 2%nat = Some v ->
  wp (gasCallCode e n) (gas_ok e f (call_cost (call_base v) n)) f.
Proof.
  intros Hv Hst Hlen Hx. pose proof (gframe_refl e f Hv) as Hf. unfold gasCallCode.
  pose proof gasTable_Calls. gas_step. gas_step. cbv beta iota zeta.
  destruct (call_value_cost (gt_Calls (gasTable e)) v) as [? ?]; [lia|].
  set (g := if negb _ then _ else _) in *. clearbody g. gas_go.
  apply gasCallTail_spec; gas_side.
Qed.

Lemma gasCall_spec f n v :
  evm_ok (f_evm f) -> nonneg (f_stack f) -> 7 <= len (f_stack f) -> f_stack f !! 2%nat = Some v ->
  wp (gasCall e n) (gas_ok e f (call_cost (call_base v) n)) f.
Proof.
  intros Hv Hst Hlen Hx. pose proof (gframe_refl e f Hv) as Hf. gas_stack f 1%nat.
  unfold gasCall. pose proof gasTable_Calls. gas_step. gas_step. cbv beta iota zeta.
  gas_step. gas_step. cbv beta iota.
  apply (wp_seq (amount f 40)).
  - assert (Hret : forall f1 b, gframe e f f1 ->
      wp (ret (if b : bool then u64 (gt_Calls (gasTable e) + CallNewAccountGas)
               else gt_Calls (gasTable e))) (amount f 40) f1).
    { intros f1 b Hf1. apply wp_ret. split; [done|]. unfold CallNewAccountGas.
      rewrite u64_small by (unfold is_u64; lia). destruct b; lia. }
    destruct (env_IsEIP158 e); [destruct (negb _)|].
    + gas_step. eapply wp_sdb_get; [exact Hf|intros; by apply Empty_reads|].
      intros f1 em Hf1. apply (Hret f1 _ Hf1).
    + by apply (Hret f false).
    + gas_step. eapply wp_sdb_get; [exact Hf|intros; by apply Exist_reads|].
      intros f1 em Hf1. apply (Hret f1 _ Hf1).
  - intros er f' [? _]. by apply gas_err.
  - intros g f1 [Hf1 Hg]. destruct (call_value_cost g v) as [? ?]; [lia|].
    set (g' := if negb _ then _ else _) in *. clearbody g'. gas_go.
    apply gasCallTail_spec; gas_side.
Qed.
End GasTable.
