(* ===== verification/ExecFacts.v ===== *)
(** The execution functions of the machine keep its invariant. *)
From S2P Require Import Prelude BigMath Params Opcodes Machine Analysis StateSpec StateRel MachineFacts Vm.
From S2P Require Import Precompiles PrecompileFacts Evm Instructions JumpTable CallFacts GasFacts.

(** The instructions: core/vm/instructions.go.

    An instruction runs without a panic on a frame whose stack is deep enough
    and whose memory has been sized, keeps the frame well formed and leaves
    the stack height its table entry announces. *)

Section Rules.
Context {S : Type} `{SDB : StateDB S} `{CR : Crypto} {CS : CryptoSpec}
        `{SP : !StateDBSpec S Keccak256Hash}.
Context (e : Env).

Abbreviation evm_ok := (evm_ok (S := S)).
Abbreviation erel := (erel (S := S) e).
Implicit Types v : EVM S.

(** After an instruction that may leave up to [g] gas. *)
Definition exec_post (f : frame S) (g : Z) (r : vmError + bytes) (f' : frame S) : Prop :=
  evm_ok (f_evm f') /\ erel (f_evm f) (f_evm f') /\ csame (f_contract f) (f_contract f') /\
  0 <= c_Gas (f_contract f') <= g /\ mem_ok (f_mem f') /\
  match r with
  | inl _ => True
  | inr res => small res /\ nonneg (f_stack f') /\ len (f_stack f') <= StackLimit /\ is_u64 (f_pc f')
  end.

Lemma exec_post_mono f g g' r f' : g <= g' -> exec_post f g r f' -> exec_post f g' r f'.
Proof. intros Hg (? & ? & ? & ? & ?). do 3 (split; [done|]). split; [lia|done]. Qed.

(** The memory holds all that [g] asks for. *)
Definition mem_sized (g : option memorySizeFunc) (f : frame S) : Prop :=
  match g with
  | None => True
  | Some g => forall z, g (f_stack f) = Done z -> z <= Memory_Len (f_mem f)
  end.

(** [x] takes [pop] elements off the stack and puts [push] on it; it may rely
    on [P]. *)
Definition exec_spec (P : frame S -> Prop) (pop push : Z) (g : option memorySizeFunc)
    (x : executionFunc (S := S)) : Prop :=
  forall R f, frame_ok f -> pop <= len (f_stack f) ->
    len (f_stack f) + push - pop <= StackLimit -> mem_sized g f -> P f ->
    wp (x e R) (exec_post f (c_Gas (f_contract f))) f.

Definition always (f : frame S) : Prop := True.
Definition writable (f : frame S) : Prop := ~ static e (f_evm f).
Definition pc_in_code (f : frame S) : Prop := f_pc f < len (c_Code (f_contract f)).

(** ** Rules for the stack, the memory and the state *)

Lemma wp_pop Q pc v c m (st : Stack) x :
  Q (inr x) (mkFrame pc v c m st) -> wp pop Q (mkFrame pc v c m (x :: st)).
Proof. done. Qed.
Lemma wp_peek Q pc v c m (st : Stack) x :
  Q (inr x) (mkFrame pc v c m (x :: st)) -> wp peek Q (mkFrame pc v c m (x :: st)).
Proof. done. Qed.
Lemma wp_set_top Q pc v c m (st : Stack) x y :
  Q (inr tt) (mkFrame pc v c m (y :: st)) -> wp (set_top y) Q (mkFrame pc v c m (x :: st)).
Proof. done. Qed.
Lemma wp_push Q pc v c m (st : Stack) x :
  Q (inr tt) (mkFrame pc v c m (x :: st)) -> wp (push x) Q (mkFrame pc v c m st).
Proof. done. Qed.
Lemma wp_modify g (Q : vmError + unit -> frame S -> Prop) f : Q (inr tt) (g f) -> wp (modify g) Q f.
Proof. done. Qed.
Lemma wp_liftO {A} (o : outcome A) a (Q : vmError + A -> frame S -> Prop) f :
  o = Done a -> Q (inr a) f -> wp (liftO o) Q f.
Proof. by intros ->. Qed.

Lemma wp_mem_get off size Q pc v c m (st : Stack) :
  mem_ok m -> in_mem (Memory_Len m) off size ->
  (forall d, len d = size -> Q (inr d) (mkFrame pc v c m st)) ->
  wp (mem_get off size) Q (mkFrame pc v c m st).
Proof.
  intros Hm Hin HQ. destruct (Memory_Get_in m off size Hm Hin) as (d & E & Hd).
  unfold wp, mem_get, bind, gets, liftO. simpl. rewrite E. by apply HQ.
Qed.
Lemma wp_mem_get_ptr off size Q pc v c m (st : Stack) :
  mem_ok m -> in_mem (Memory_Len m) off size ->
  (forall d, len d = size -> Q (inr d) (mkFrame pc v c m st)) ->
  wp (mem_get_ptr off size) Q (mkFrame pc v c m st).
Proof.
  intros Hm Hin HQ. destruct (Memory_GetPtr_in m off size Hm Hin) as (d & E & Hd).
  unfold wp, mem_get_ptr, bind, gets, liftO. simpl. rewrite E. by apply HQ.
Qed.
Lemma wp_mem_set off size d Q pc v c m (st : Stack) :
  mem_ok m -> in_mem (Memory_Len m) off size ->
  (forall m', mem_ok m' -> Q (inr tt) (mkFrame pc v c m' st)) ->
  wp (mem_set (big_Uint64 off) (big_Uint64 size) d) Q (mkFrame pc v c m st).
Proof.
  intros Hm Hin HQ. destruct (Memory_Set_in m off size d Hm Hin) as (m' & E & Hl).
  unfold wp, mem_set, bind, gets, liftO. simpl. rewrite E. simpl. apply HQ.
  unfold mem_ok in *. by rewrite Hl.
Qed.

Lemma wp_get {A} (g : S -> A * S) (val : S -> A) Q pc v c m (st : Stack) :
  state_ok Keccak256Hash (evm_StateDB v) ->
  (forall ro s, state_ok Keccak256Hash s -> reads Keccak256Hash ro s (g s) (val s)) ->
  (forall s, srel Keccak256Hash (static e v) (evm_StateDB v) s ->
     Q (inr (val (evm_StateDB v))) (mkFrame pc (set_StateDB s v) c m st)) ->
  wp (sdb_get g) Q (mkFrame pc v c m st).
Proof.
  intros Hs Hg HQ. unfold wp, sdb_get. simpl.
  destruct (Hg (static e v) _ Hs) as [Ea R].
  destruct (g (evm_StateDB v)) as [a s']. simpl in *. subst a. by apply HQ.
Qed.
Lemma wp_do (g : S -> S) Q pc v c m (st : Stack) :
  srel Keccak256Hash (static e v) (evm_StateDB v) (g (evm_StateDB v)) ->
  (forall s, srel Keccak256Hash (static e v) (evm_StateDB v) s ->
     Q (inr tt) (mkFrame pc (set_StateDB s v) c m st)) ->
  wp (sdb_do g) Q (mkFrame pc v c m st).
Proof. intros R HQ. by apply HQ. Qed.

(** ** Ends *)

Lemma exec_done pc v c m st pc' s' m' st' res :
  frame_ok (mkFrame pc v c m st) -> srel Keccak256Hash (static e v) (evm_StateDB v) s' ->
  mem_ok m' -> small res -> nonneg st' -> len st' <= StackLimit -> is_u64 pc' ->
  exec_post (mkFrame pc v c m st) (c_Gas c) (inr res) (mkFrame pc' (set_StateDB s' v) c m' st').
Proof.
  intros (Hv & Hc & _) R Hm Hr Hn Hl Hp. split; [by apply evm_ok_set_StateDB, (srel_ok _ _ _ _ R)|].
  split; [done|]. split; [apply csame_refl|]. split; [|done].
  destruct Hc as (_ & _ & _ & ? & _). simpl in *. lia.
Qed.

Lemma exec_done_here pc v c m st pc' m' st' res :
  frame_ok (mkFrame pc v c m st) -> mem_ok m' -> small res ->
  nonneg st' -> len st' <= StackLimit -> is_u64 pc' ->
  exec_post (mkFrame pc v c m st) (c_Gas c) (inr res) (mkFrame pc' v c m' st').
Proof.
  intros Hf. pose proof (srel_refl Keccak256Hash (static e v) _ (proj1 (proj1 Hf))) as R.
  replace v with (set_StateDB (evm_StateDB v) v) at 2 by by destruct v.
  intros. by apply exec_done.
Qed.

Lemma exec_error pc v c m st pc' m' st' er :
  frame_ok (mkFrame pc v c m st) -> mem_ok m' ->
  exec_post (mkFrame pc v c m st) (c_Gas c) (inl er) (mkFrame pc' v c m' st').
Proof.
  intros Hf Hm. split; [apply Hf|]. split; [apply erel_refl, Hf|]. split; [apply csame_refl|].
  destruct Hf as (_ & (_ & _ & _ & ? & _) & _). split; [simpl in *; lia|done].
Qed.
End Rules.

(** Every instruction of core/vm/instructions.go but the calls meets the
    specification of file ExecFacts. *)

Create HintDb nonneg_db.
#[export] Hint Resolve U256_nonneg math_Exp_nonneg big_SetBytes_nonneg N2Z.is_nonneg len_nonneg
  b2z_nonneg : nonneg_db.
Lemma land_nonneg x y : 0 <= x -> 0 <= Z.land x y.
Proof. intros. apply Z.land_nonneg. by left. Qed.
Lemma lor_nonneg x y : 0 <= x -> 0 <= y -> 0 <= Z.lor x y.
Proof. intros. by apply Z.lor_nonneg. Qed.
Lemma lxor_nonneg x y : 0 <= x -> 0 <= y -> 0 <= Z.lxor x y.
Proof. intros. apply Z.lxor_nonneg. lia. Qed.
#[export] Hint Resolve land_nonneg lor_nonneg lxor_nonneg : nonneg_db.
#[export] Hint Extern 1 (0 <= (if _ then _ else _)) => case_match : nonneg_db.
#[export] Hint Extern 1 (0 <= _) => lia : nonneg_db.
#[export] Hint Unfold Hash_Big Address_Big : nonneg_db.

Lemma nonneg_cons x st : nonneg (x :: st) <-> 0 <= x /\ nonneg st.
Proof. apply Forall_cons. Qed.

(** Start a proof of [exec_spec]; take one element off the stack. *)
Ltac xstart :=
  let Hf := fresh "Hf" in
  intros R [pc v c m st] Hf Hpop Hpush Hmem HP;
  pose proof Hf as (Hv & Hc & Hm & Hst & Hlen & Hpcu); simpl in Hv, Hc, Hm, Hst, Hlen, Hpcu, Hpop, Hpush, Hmem, HP;
  pose proof Hc as (Hcode & Hinput & Hhash & Hgas & Hvalue).
Ltac xpop x :=
  lazymatch goal with
  | _ : nonneg ?st |- _ =>
      destruct st as [|x st];
      [exfalso; unfold len in *; simpl in *; lia|
       let H := fresh "H" x in
       match goal with Hn : nonneg (_ :: _) |- _ => apply nonneg_cons in Hn as [H Hn] end]
  end.
Ltac xstep :=
  lazymatch goal with
  | |- wp (bind _ _) _ _ => apply wp_bind
  | |- wp pop _ _ => apply wp_pop
  | |- wp peek _ _ => apply wp_peek
  | |- wp (set_top _) _ _ => apply wp_set_top
  | |- wp (push _) _ _ => apply wp_push
  | |- wp nil_ _ _ => apply wp_ret
  | |- wp (ret _) _ _ => apply wp_ret
  | |- wp (gets _) _ _ => apply wp_gets
  | |- wp (modify _) _ _ => apply wp_modify
  end.
Ltac xgo := repeat (cbv beta iota zeta; xstep); cbv beta iota zeta; cbn [set_pc set_evm set_contract set_mem set_stack f_pc f_evm f_contract f_mem f_stack].
Ltac xside :=
  lazymatch goal with
  | |- nonneg _ => repeat (apply nonneg_cons; split); [autounfold with nonneg_db; eauto with nonneg_db..|assumption]
  | |- len _ <= _ => unfold StackLimit, len in *; simpl length in *; lia
  | |- small [] => by unfold small, len
  | |- _ => first [assumption | by auto | idtac]
  end.
Ltac xdone := first [apply exec_done_here; [assumption|..] | apply exec_done; [assumption|..]]; xside.

(** The memory range at [off] and [size] of the stack is available. *)
Ltac xmem :=
  match goal with
  | H : forall z, _ = Done z -> z <= Memory_Len _ |- _ =>
      let Hin := fresh "Hin" in pose proof (H _ eq_refl) as Hin; clear H
  end.

Section ExecTable.
Context {S : Type} `{SDB : StateDB S} `{CR : Crypto} {CS : CryptoSpec}
        `{SP : !StateDBSpec S Keccak256Hash}.
Context (e : Env).
Abbreviation exec_spec := (exec_spec (S := S) e).

Lemma binop_spec g :
  (forall x y, 0 <= x -> 0 <= y -> 0 <= g x y) -> exec_spec always 2 1 None (binop g).
Proof. intros Hg. xstart. xpop x. xpop y. unfold binop. xgo. xdone. Qed.
Lemma binop_push_spec g :
  (forall x y, 0 <= x -> 0 <= y -> 0 <= g x y) -> exec_spec always 2 1 None (binop_push g).
Proof. intros Hg. xstart. xpop x. xpop y. unfold binop_push. xgo. xdone. Qed.

Lemma opAdd_spec : exec_spec always 2 1 None opAdd.
Proof. apply binop_spec. eauto with nonneg_db. Qed.
Lemma opSub_spec : exec_spec always 2 1 None opSub.
Proof. apply binop_spec. eauto with nonneg_db. Qed.
Lemma opMul_spec : exec_spec always 2 1 None opMul.
Proof. apply binop_push_spec. eauto with nonneg_db. Qed.
Lemma opDiv_spec : exec_spec always 2 1 None opDiv.
Proof. apply binop_spec. eauto with nonneg_db. Qed.
Lemma opSdiv_spec : exec_spec always 2 1 None opSdiv.
Proof. apply binop_push_spec. intros; cbv zeta; eauto with nonneg_db. Qed.
Lemma opMod_spec : exec_spec always 2 1 None opMod.
Proof. apply binop_push_spec. eauto with nonneg_db. Qed.
Lemma opSmod_spec : exec_spec always 2 1 None opSmod.
Proof. apply binop_push_spec. intros; cbv zeta; eauto with nonneg_db. Qed.
Lemma opExp_spec : exec_spec always 2 1 None opExp.
Proof. apply binop_push_spec. eauto with nonneg_db. Qed.
Lemma opLt_spec : exec_spec always 2 1 None opLt.
Proof. apply binop_spec. eauto with nonneg_db. Qed.
Lemma opGt_spec : exec_spec always 2 1 None opGt.
Proof. apply binop_spec. eauto with nonneg_db. Qed.
Lemma opSlt_spec : exec_spec always 2 1 None opSlt.
Proof. apply binop_spec. intros; cbv zeta; eauto with nonneg_db. Qed.
Lemma opSgt_spec : exec_spec always 2 1 None opSgt.
Proof. apply binop_spec. intros; cbv zeta; eauto with nonneg_db. Qed.
Lemma opEq_spec : exec_spec always 2 1 None opEq.
Proof. apply binop_spec. eauto with nonneg_db. Qed.
Lemma opAnd_spec : exec_spec always 2 1 None opAnd.
Proof. apply binop_push_spec. eauto with nonneg_db. Qed.
Lemma opOr_spec : exec_spec always 2 1 None opOr.
Proof. apply binop_spec. eauto with nonneg_db. Qed.
Lemma opXor_spec : exec_spec always 2 1 None opXor.
Proof. apply binop_spec. eauto with nonneg_db. Qed.
Lemma opSHL_spec : exec_spec always 2 1 None opSHL.
Proof. apply binop_spec. intros; cbv zeta; eauto with nonneg_db. Qed.
Lemma opSHR_spec : exec_spec always 2 1 None opSHR.
Proof. apply binop_spec. intros; cbv zeta; eauto with nonneg_db. Qed.
Lemma opSAR_spec : exec_spec always 2 1 None opSAR.
Proof. apply binop_push_spec. unfold sar. intros; cbv zeta; eauto with nonneg_db. Qed.
Lemma opSignExtend_spec : exec_spec always 2 1 None opSignExtend.
Proof.
  xstart. xpop x. xpop y. unfold opSignExtend. xgo. destruct (_ <? _); xgo; xdone.
  unfold sign_extend. cbv zeta. eauto with nonneg_db.
Qed.
Lemma opNot_spec : exec_spec always 1 1 None opNot.
Proof. xstart. xpop x. unfold opNot. xgo. xdone. Qed.
Lemma opIszero_spec : exec_spec always 1 1 None opIszero.
Proof. xstart. xpop x. unfold opIszero. xgo. xdone. Qed.
Lemma opAddmod_spec : exec_spec always 3 1 None opAddmod.
Proof. xstart. xpop x. xpop y. xpop z. unfold opAddmod. xgo. xdone. Qed.
Lemma opMulmod_spec : exec_spec always 3 1 None opMulmod.
Proof. xstart. xpop x. xpop y. xpop z. unfold opMulmod. xgo. xdone. Qed.

Lemma opByte_spec : exec_spec always 2 1 None opByte.
Proof.
  xstart. xpop th. xpop val. unfold opByte. xgo.
  destruct (Z.ltb_spec th 32); [|xgo; xdone].
  cbv beta. apply wp_bind. eapply wp_liftO; [|xgo; xdone].
  unfold math_Byte. rewrite big_Int64_small by lia.
  destruct (Z.leb_spec 32 th); [lia|]. apply bigEndianByteAt_spec; lia.
Qed.

Lemma opSha3_spec : exec_spec always 2 1 (Some memorySha3) opSha3.
Proof.
  xstart. xpop off. xpop sz. xmem. unfold opSha3. xgo.
  apply wp_mem_get; [done|by apply calcMemSize_in|]. intros d Hd. xgo.
  destruct (env_EnablePreimageRecording e); [|xgo; xdone].
  eapply (wp_do e); [apply srel_AddPreimage, Hv|]. intros s R1. xgo. xdone.
Qed.

Lemma opAddress_spec : exec_spec always 0 1 None opAddress.
Proof. xstart. unfold opAddress. xgo. xdone. Qed.
Lemma opOrigin_spec : exec_spec always 0 1 None opOrigin.
Proof. xstart. unfold opOrigin. xgo. xdone. Qed.
Lemma opCaller_spec : exec_spec always 0 1 None opCaller.
Proof. xstart. unfold opCaller. xgo. xdone. Qed.
Lemma opCallValue_spec : exec_spec always 0 1 None opCallValue.
Proof. xstart. unfold opCallValue. xgo. xdone. Qed.
Lemma opCallDataSize_spec : exec_spec always 0 1 None opCallDataSize.
Proof. xstart. unfold opCallDataSize. xgo. xdone. Qed.
Lemma opReturnDataSize_spec : exec_spec always 0 1 None opReturnDataSize.
Proof. xstart. unfold opReturnDataSize. xgo. xdone. Qed.
Lemma opCodeSize_spec : exec_spec always 0 1 None opCodeSize.
Proof. xstart. unfold opCodeSize. xgo. xdone. Qed.
Lemma opGasprice_spec : env_ok e -> exec_spec always 0 1 None opGasprice.
Proof. unfold env_ok. intros He. xstart. unfold opGasprice. xgo. xdone. Qed.
Lemma opBlockhash_spec : exec_spec always 1 1 None opBlockhash.
Proof. xstart. xpop num. unfold opBlockhash. xgo. xdone. Qed.
Lemma opCoinbase_spec : exec_spec always 0 1 None opCoinbase.
Proof. xstart. unfold opCoinbase. xgo. xdone. Qed.
Lemma opTimestamp_spec : exec_spec always 0 1 None opTimestamp.
Proof. xstart. unfold opTimestamp. xgo. xdone. Qed.
Lemma opNumber_spec : exec_spec always 0 1 None opNumber.
Proof. xstart. unfold opNumber. xgo. xdone. Qed.
Lemma opDifficulty_spec : exec_spec always 0 1 None opDifficulty.
Proof. xstart. unfold opDifficulty. xgo. xdone. Qed.
Lemma opGasLimit_spec : exec_spec always 0 1 None opGasLimit.
Proof. xstart. unfold opGasLimit. xgo. xdone. Qed.
Lemma opPop_spec : exec_spec always 1 0 None opPop.
Proof. xstart. xpop x. unfold opPop. xgo. xdone. Qed.
Lemma opJumpdest_spec : exec_spec always 0 0 None opJumpdest.
Proof. xstart. unfold opJumpdest. xgo. xdone. Qed.
Lemma opStop_spec : exec_spec always 0 0 None opStop.
Proof. xstart. unfold opStop. xgo. xdone. Qed.
Lemma opPc_spec : exec_spec always 0 1 None opPc.
Proof. xstart. unfold opPc. xgo. unfold is_u64 in Hpcu. xdone. Qed.
Lemma opMsize_spec : exec_spec always 0 1 None opMsize.
Proof. xstart. unfold opMsize, Memory_Len. xgo. xdone. Qed.
Lemma opGas_spec : exec_spec always 0 1 None opGas.
Proof. xstart. unfold opGas. xgo. xdone. Qed.

Lemma opCallDataLoad_spec : exec_spec always 1 1 None opCallDataLoad.
Proof.
  xstart. xpop x. unfold opCallDataLoad. xgo.
  destruct (getDataBig_done (c_Input c) x 32) as [d Ed]; [done|done|lia|].
  eapply wp_liftO; [exact Ed|]. xgo. xdone.
Qed.

(** Copies from a byte string into memory. *)
Lemma opCallDataCopy_spec : exec_spec always 3 0 (Some memoryCallDataCopy) opCallDataCopy.
Proof.
  xstart. xpop off. xpop src. xpop sz. xmem. unfold opCallDataCopy. xgo.
  destruct (getDataBig_done (c_Input c) src sz) as [d Ed]; [done..|].
  eapply wp_liftO; [exact Ed|]. xgo.
  apply wp_mem_set; [done|by apply calcMemSize_in|]. intros m' Hm'. xgo. xdone.
Qed.
Lemma opCodeCopy_spec : exec_spec always 3 0 (Some memoryCodeCopy) opCodeCopy.
Proof.
  xstart. xpop off. xpop src. xpop sz. xmem. unfold opCodeCopy. xgo.
  destruct (getDataBig_done (c_Code c) src sz) as [d Ed]; [done..|].
  eapply wp_liftO; [exact Ed|]. xgo.
  apply wp_mem_set; [done|by apply calcMemSize_in|]. intros m' Hm'. xgo. xdone.
Qed.
Lemma opExtCodeCopy_spec : exec_spec always 4 0 (Some memoryExtCodeCopy) opExtCodeCopy.
Proof.
  xstart. xpop a. xpop off. xpop src. xpop sz. xmem. unfold opExtCodeCopy. xgo.
  eapply (wp_get e); [apply Hv|intros; by apply GetCode_reads|]. intros s R1. xgo.
  destruct (getDataBig_done (w_code (cur (abs (evm_StateDB v))) (BigToAddress a)) src sz)
    as [d Ed]; [apply (proj1 Hv)|done|done|].
  eapply wp_liftO; [exact Ed|]. xgo.
  apply wp_mem_set; [done|by apply calcMemSize_in|]. intros m' Hm'. xgo. xdone.
Qed.
Lemma opReturnDataCopy_spec : exec_spec always 3 0 (Some memoryReturnDataCopy) opReturnDataCopy.
Proof.
  xstart. xpop off. xpop src. xpop sz. xmem. unfold opReturnDataCopy. xgo.
  destruct (_ || _) eqn:Eb; [by apply wp_raise, exec_error|].
  apply orb_false_iff in Eb as [Hb%Z.ltb_ge Hl%Z.ltb_ge].
  apply BitLen_spec in Hb; [|lia].
  rewrite (big_Uint64_small (src + sz)) in * by (unfold is_u64; lia).
  rewrite (big_Uint64_small src) by (unfold is_u64; lia).
  apply wp_bind. eapply wp_liftO; [apply slice_done; lia|]. xgo.
  apply wp_mem_set; [done|by apply calcMemSize_in|]. intros m' Hm'. xgo. xdone.
Qed.

Lemma opMload_spec : exec_spec always 1 1 (Some memoryMLoad) opMload.
Proof.
  xstart. xpop off. xmem. unfold opMload. xgo.
  destruct (Memory_Get_in m off 32) as (d & Ed & _); [done|apply calcMemSize_in; [done|lia|done]|].
  eapply wp_liftO; [exact Ed|]. xgo. xdone.
Qed.
Lemma opMstore_spec : exec_spec always 2 0 (Some memoryMStore) opMstore.
Proof.
  xstart. xpop off. xpop val. xmem. unfold opMstore. xgo.
  change 32 with (big_Uint64 32) at 1.
  apply wp_mem_set; [done|apply calcMemSize_in; [done|lia|done]|]. intros m' Hm'. xgo. xdone.
Qed.
Lemma opMstore8_spec : exec_spec always 2 0 (Some memoryMStore8) opMstore8.
Proof.
  xstart. xpop off. xpop val. xmem. unfold opMstore8. xgo. unfold mem_ok in Hm.
  assert (Hlt : off < Memory_Len m) by (unfold calcMemSize in Hin; simpl in Hin; lia).
  rewrite (big_Int64_small off) by lia.
  destruct (index_done (store m) off) as (b & Eb & _); [unfold Memory_Len in *; lia|].
  eapply wp_liftO; [exact Eb|]. xgo. xdone.
  unfold mem_ok, Memory_Len, len in *. simpl. by rewrite length_insert.
Qed.

Lemma opBalance_spec : exec_spec always 1 1 None opBalance.
Proof.
  xstart. xpop x. unfold opBalance. xgo.
  eapply (wp_get e); [apply Hv|intros; by apply GetBalance_reads|]. intros s R1. xgo. xdone.
  apply (proj1 (proj2 (proj1 Hv))).
Qed.
Lemma opExtCodeSize_spec : exec_spec always 1 1 None opExtCodeSize.
Proof.
  xstart. xpop x. unfold opExtCodeSize. xgo.
  eapply (wp_get e); [apply Hv|intros; by apply GetCodeSize_reads|]. intros s R1. xgo. xdone.
Qed.
Lemma opSload_spec : exec_spec always 1 1 None opSload.
Proof.
  xstart. xpop x. unfold opSload. xgo.
  eapply (wp_get e); [apply Hv|intros; by apply GetState_reads|]. intros s R1. xgo. xdone.
Qed.
Lemma opReturn_spec : exec_spec always 2 0 (Some memoryReturn) opReturn.
Proof.
  xstart. xpop off. xpop sz. xmem. unfold opReturn. xgo.
  pose proof (calcMemSize_in _ _ _ Hoff Hsz Hin) as Him.
  apply wp_mem_get_ptr; [done|done|]. intros d Hd. xdone.
  unfold small, mem_ok in *. destruct Him as (? & ? & [?|?]); lia.
Qed.
Lemma opRevert_spec : exec_spec always 2 0 (Some memoryRevert) opRevert.
Proof.
  xstart. xpop off. xpop sz. xmem. unfold opRevert. xgo.
  pose proof (calcMemSize_in _ _ _ Hoff Hsz Hin) as Him.
  apply wp_mem_get_ptr; [done|done|]. intros d Hd. xdone.
  unfold small, mem_ok in *. destruct Him as (? & ? & [?|?]); lia.
Qed.

(** ** Writes *)

Lemma opSstore_spec : exec_spec (writable e) 2 0 None opSstore.
Proof.
  xstart. xpop x. xpop val. unfold opSstore. xgo.
  eapply (wp_do e); [apply srel_SetState; [apply Hv|done]|]. intros s R1. xgo. xdone.
Qed.

Lemma opSuicide_spec : exec_spec (writable e) 1 0 None opSuicide.
Proof.
  xstart. xpop x. unfold opSuicide. xgo. unfold wp, sdb_get. simpl.
  destruct (GetBalance_reads Keccak256Hash (static e v) (Contract_Address c) _ (proj1 Hv)) as [Eb R1].
  destruct (GetBalance_spec (Contract_Address c) _ (proj1 (proj1 Hv))) as (_ & A1 & _).
  destruct (GetBalance _ _) as [z s]. simpl in Eb, R1, A1.
  pose proof (srel_Suicide Keccak256Hash (static e v) (Contract_Address c) (BigToAddress x) z s
    (srel_ok _ _ _ _ R1) ltac:(by rewrite A1) HP) as R2.
  cbn. unfold bind. cbn. destruct (Suicide _ _) as [b s3]. cbn in R2.
  refine (exec_done e pc v c m (x :: st) pc s3 m st [] _ _ _ _ _ _ _); xside. by eapply srel_trans.
Qed.

Lemma wp_pop_topics n : forall Q pc (v : EVM S) c m (st : Stack),
  Z.of_nat n <= len st -> nonneg st ->
  (forall ts st', nonneg st' -> len st' = len st - Z.of_nat n ->
     Q (inr ts) (mkFrame pc v c m st')) ->
  wp (pop_topics n) Q (mkFrame pc v c m st).
Proof.
  induction n as [|n IH]; intros Q pc v c m st Hl Hn HQ; cbn [pop_topics].
  - apply wp_ret, HQ; [done|lia].
  - destruct st as [|x st]; [unfold len in Hl; simpl in Hl; lia|].
    apply nonneg_cons in Hn as [_ Hn]. apply wp_bind, wp_pop, wp_bind, IH;
      [unfold len in *; simpl in Hl; lia|done|].
    intros ts st' Hst' Hl'. apply wp_ret, HQ; [done|]. unfold len in *. simpl length. lia.
Qed.

Lemma makeLog_spec n : exec_spec (writable e) (Z.of_nat n + 2) 0 (Some memoryLog) (makeLog n).
Proof.
  xstart. xpop off. xpop sz. xmem. unfold makeLog. xgo.
  apply wp_pop_topics; [unfold len in *; simpl in Hpop; lia|done|]. intros ts st' Hst' Hl. xgo.
  apply wp_mem_get; [done|by apply calcMemSize_in|]. intros d Hd. xgo.
  eapply (wp_do e); [apply srel_AddLog; [apply Hv|done]|]. intros s R1. xgo. xdone.
Qed.

(** ** Control flow *)

Lemma owp_index_collision {A} (l : list A) i Q :
  collision -> (forall x, Q x) -> owp (index l i) Q.
Proof. intros Hc HQ. unfold index. destruct (0 <=? i); [|done]. destruct (l !! _); simpl; auto. Qed.

Lemma destinations_has_safe d h code dest :
  cache_ok Keccak256Hash d -> (code = [] \/ h = Keccak256Hash code) -> 0 <= dest -> small code ->
  owp (destinations_has d h code dest) (fun '(_, d') => cache_ok Keccak256Hash d').
Proof.
  intros Hc Hh Hd Hl. destruct Hh as [->|Hh].
  { unfold destinations_has. destruct (Z.leb_spec (len (@nil byte)) (big_Uint64 dest));
      [by rewrite orb_true_r|]. pose proof (big_Uint64_range dest). unfold len, is_u64 in *. simpl in *. lia. }
  destruct (d !! h) as [mp|] eqn:E.
  - destruct (Hc _ _ E) as (code' & Hk & Hm). destruct (decide (code' = code)) as [->|Hne].
    + unfold destinations_has. rewrite E. destruct (_ || _) eqn:Eb; [done|].
      apply orb_false_iff in Eb as [Hb%Z.leb_gt Hlt%Z.leb_gt].
      pose proof (big_Uint64_range dest) as [? _]. cbn [outcome_bind].
      destruct (index_done code (big_Uint64 dest)) as (b & -> & _); [lia|]. cbn [outcome_bind].
      destruct (_ =? _); [|done]. destruct (codeBitmap_spec code) as (mp' & Hm' & Hl' & _).
      assert (mp' = mp) as -> by congruence. by rewrite codeSegment_spec by zlia.
    + assert (Hcol : collision) by (exists code', code; split; congruence).
      unfold destinations_has. rewrite E. destruct (_ || _); [done|]. cbn [outcome_bind].
      apply owp_bind, owp_index_collision; [done|]. intros b. destruct (_ =? _); [|done].
      apply owp_bind. unfold codeSegment. by apply owp_bind, owp_index_collision.
  - unfold destinations_has. rewrite E. destruct (_ || _) eqn:Eb; [done|].
    apply orb_false_iff in Eb as [Hb%Z.leb_gt Hlt%Z.leb_gt].
    pose proof (big_Uint64_range dest) as [? _].
    destruct (codeBitmap_spec code) as (mp & Hm & Hl' & _). rewrite Hm. cbn [outcome_bind].
    destruct (index_done code (big_Uint64 dest)) as (b & -> & _); [lia|]. cbn [outcome_bind].
    assert (Hc' : cache_ok Keccak256Hash (<[h := mp]> d)).
    { intros h' m'. rewrite lookup_insert. case_decide as Eh; [|apply Hc].
      intros [= <-]. subst h'. eauto. }
    destruct (_ =? _); [|done]. by rewrite codeSegment_spec by zlia.
Qed.

Lemma wp_jumpdests_has pos pc v c m (st : Stack) (Q : vmError + bool -> frame S -> Prop) :
  evm_ok v -> contract_ok c -> 0 <= pos ->
  (forall d ok, cache_ok Keccak256Hash d ->
     Q (inr ok) (mkFrame pc (set_jumpdests d v) c m st)) ->
  wp (jumpdests_has pos) Q (mkFrame pc v c m st).
Proof.
  intros (Hs & Hd & Hr & Hg) (Hcode & _ & Hh & _) Hpos Hk.
  pose proof (destinations_has_safe (evm_jumpdests v) (c_CodeHash c) (c_Code c) pos Hd Hh Hpos Hcode)
    as Hsafe.
  unfold jumpdests_has, wp at 1, bind, gets, liftO. simpl.
  destruct (destinations_has _ _ _ _) as [[ok d]| |]; simpl in *; [|done|done].
  by apply Hk.
Qed.

Lemma GetOp_done c n : 0 <= n -> exists op, GetOp c n = Done op.
Proof.
  intros Hn. unfold GetOp, GetByte. destruct (Z.ltb_spec n (len (c_Code c))); [|eauto].
  destruct (index_done (c_Code c) n) as (b & -> & _); [lia|]. simpl. eauto.
Qed.

Lemma evm_ok_set_jumpdests (v : EVM S) d :
  evm_ok v -> cache_ok Keccak256Hash d -> evm_ok (set_jumpdests d v).
Proof. by intros (? & ? & ? & ?). Qed.

(** The end of a jump: only the program counter and the cache have changed. *)
Lemma jump_done pc (v : EVM S) c m (st : Stack) pc' d st' ok pos :
  frame_ok (mkFrame pc v c m st) -> cache_ok Keccak256Hash d ->
  nonneg st' -> len st' <= StackLimit -> is_u64 pc' ->
  wp (if negb ok then invalid_jump pos else modify (set_pc pc') ;;; nil_)
     (exec_post e (mkFrame pc v c m st) (c_Gas c)) (mkFrame pc (set_jumpdests d v) c m st').
Proof.
  intros Hf Hd Hn Hl Hpc. pose proof Hf as (Hv & Hc & Hm & _).
  pose proof (evm_ok_set_jumpdests v d Hv Hd) as Hv'.
  assert (0 <= c_Gas c <= c_Gas c) by (destruct Hc as (_ & _ & _ & ? & _); simpl in *; lia).
  destruct ok; simpl.
  - xgo. split; [done|]. split; [apply (erel_refl e v), Hv|]. split; [apply csame_refl|]. done.
  - unfold invalid_jump. xgo.
    destruct (GetOp_done c (big_Uint64 pos)) as [op E]; [apply big_Uint64_range|].
    eapply wp_liftO; [exact E|]. apply wp_raise.
    split; [done|]. split; [apply (erel_refl e v), Hv|]. split; [apply csame_refl|]. done.
Qed.

Lemma opJump_spec : exec_spec always 1 0 None opJump.
Proof.
  xstart. xpop pos. unfold opJump. xgo.
  apply wp_jumpdests_has; [done|done|done|]. intros d ok Hd.
  apply jump_done; xside. apply big_Uint64_range.
Qed.
Lemma opJumpi_spec : exec_spec always 2 0 None opJumpi.
Proof.
  xstart. xpop pos. xpop cond. unfold opJumpi. xgo. destruct (negb _).
  - xgo. apply wp_jumpdests_has; [done|done|done|]. intros d ok Hd.
    apply jump_done; xside. apply big_Uint64_range.
  - xgo. xdone. apply u64_range.
Qed.

Lemma makePush_spec n k : 0 <= k -> exec_spec pc_in_code 0 1 None (makePush n k).
Proof.
  intros Hk. xstart. unfold makePush. xgo. unfold pc_in_code, small, is_u64 in *. simpl in HP.
  rewrite u64_small by (unfold is_u64; lia). rewrite i64_small by lia.
  set (start := if pc + 1 <? _ then _ else _). set (stop := if start + k <? _ then _ else _).
  assert (Hr : 0 <= start <= stop /\ stop <= len (c_Code c))
    by (unfold stop, start; bool_cases; lia).
  eapply wp_liftO; [apply slice_done; apply Hr|]. xgo. xdone. apply u64_range.
Qed.

Lemma makeDup_spec n : (0 < n)%nat -> exec_spec always (Z.of_nat n) (Z.of_nat n + 1) None (makeDup n).
Proof.
  intros Hn. xstart. unfold makeDup. xgo.
  destruct (stack_at st (n - 1)) as (y & Hy & Hy0); [done|lia|].
  eapply (wp_liftO _ (Stack_push y st)).
  { unfold Stack_dup. rewrite Hy. by destruct (Nat.eqb_spec n 0); [lia|]. }
  unfold Stack_push. xgo. xdone.
Qed.
Lemma makeSwap_spec n :
  exec_spec always (Z.of_nat n + 1) (Z.of_nat n + 1) None (makeSwap n).
Proof.
  xstart. unfold makeSwap. xgo.
  destruct (stack_at st (n + 1 - 1)) as (y & Hy & Hy0); [done|lia|].
  destruct st as [|x st]; [done|]. pose proof Hst as Hst'. apply nonneg_cons in Hst' as [Hx _].
  eapply (wp_liftO _ (<[0%nat := y]> (<[(n + 1 - 1)%nat := x]> (x :: st)))).
  { unfold Stack_swap. rewrite Hy. by destruct (Nat.eqb_spec (n + 1) 0); [lia|]. }
  xgo. apply exec_done_here; try done.
  - by repeat apply Forall_insert.
  - unfold len in *. by rewrite !length_insert.
Qed.
End ExecTable.

(** The instructions that call or create contracts. *)

Section ExecCalls.
Context {S : Type} `{SDB : StateDB S} `{CR : Crypto} {CS : CryptoSpec}
        `{SP : !StateDBSpec S Keccak256Hash}.
Context (e : Env).

(** Gas a call forwards on top of what it was charged. *)
Definition stipend (value : Z) : Z := if Sign value =? 0 then 0 else CallStipend.

(** A call instruction may rely on the interpreter for the callee's gas. *)
Definition call_spec (pop : Z) (g : memorySizeFunc) (sti : Stack -> Z) (P : frame S -> Prop)
    (x : executionFunc (S := S)) : Prop :=
  forall n R f, frame_ok f -> pop <= len (f_stack f) -> mem_sized (Some g) f -> P f ->
    Runner_ok e n R ->
    let gas := evm_callGasTemp (f_evm f) + sti (f_stack f) in
    gas < n -> c_Gas (f_contract f) + gas < 2 ^ 62 ->
    wp (x e R) (exec_post e f (c_Gas (f_contract f) + gas)) f.

Lemma wp_after_call pc v c m st st' gas r off sz :
  frame_ok (mkFrame pc v c m st) -> call_post e v gas r ->
  nonneg st' -> len st' + 1 <= StackLimit -> in_mem (Memory_Len m) off sz ->
  0 <= gas -> c_Gas c + gas < 2 ^ 62 ->
  wp (after_call r off sz) (exec_post e (mkFrame pc v c m st) (c_Gas c + gas))
     (mkFrame pc v c m st').
Proof.
  intros (Hv & Hc & Hm & Hst & Hlen & Hpc) Hr Hst' Hl Hin Hgas Hsum.
  destruct r as [[[ret g] err] v']. destruct Hr as (Hv' & Hrel & Hret & Hg & _).
  simpl in Hv, Hc, Hm, Hpc. unfold after_call. xgo.
  assert (Hend : forall m' st'', mem_ok m' -> nonneg st'' -> len st'' <= StackLimit ->
    wp (give_gas g ;;; Vm.ret ret) (exec_post e (mkFrame pc v c m st) (c_Gas c + gas))
       (mkFrame pc v' c m' st'')).
  { intros m' st'' Hm' Hn'' Hl''. unfold give_gas. xgo.
    destruct Hc as (_ & _ & _ & Hcg & _).
    split; [done|]. split; [done|]. split; [apply csame_set_Gas|].
    split; [|done]. simpl. rewrite u64_small by (unfold is_u64; lia). lia. }
  assert (Hn2 : forall x, 0 <= x -> nonneg (x :: st')) by (intros; by apply nonneg_cons).
  assert (Hl2 : forall x, len (x :: st') <= StackLimit) by (intros; unfold len in *; simpl; lia).
  destruct (_ || _).
  - apply wp_mem_set; [done|done|]. intros m' Hm'. xgo.
    apply Hend; [done|apply Hn2; by case_match|done].
  - xgo. apply Hend; [done|apply Hn2; by case_match|done].
Qed.

Lemma BigMax_le a b n : BigMax a b <= n -> a <= n /\ b <= n.
Proof. unfold BigMax. bool_cases; lia. Qed.

(** The value of CALL and CALLCODE, and the gas forwarded on top. *)
Definition call_value (st : Stack) : Z := default 0 (st !! 2%nat).
Definition call_stipend (st : Stack) : Z := stipend (U256 (call_value st)).
Definition no_stipend (st : Stack) : Z := 0.

(** No value is transferred in a static call. *)
Definition no_static_value (f : frame S) : Prop :=
  static e (f_evm f) -> call_value (f_stack f) = 0.

Lemma call_gas value t : is_u64 t -> t + stipend value < 2 ^ 62 ->
  (if negb (Sign value =? 0) then u64 (t + CallStipend) else t) = t + stipend value.
Proof.
  unfold stipend, CallStipend, is_u64. intros Ht Hs. destruct (_ =? 0); simpl in *; [lia|].
  rewrite u64_small; [done|unfold is_u64; lia].
Qed.
Lemma stipend_nonneg value : 0 <= stipend value.
Proof. unfold stipend, CallStipend. case_match; lia. Qed.

Lemma in_mem_small m off sz d : mem_ok m -> in_mem (Memory_Len m) off sz -> len d = sz -> small d.
Proof. intros Hm (? & ? & [?|?]) Hd; unfold small, mem_ok in *; lia. Qed.

Ltac cstart :=
  intros n R [pc v c m st] Hf Hpop Hmem HP HR gas Hn Hsum;
  pose proof Hf as (Hv & Hc & Hm & Hst & Hlen & Hpcu);
  simpl in Hv, Hc, Hm, Hst, Hlen, Hpcu, Hpop, Hmem, HP;
  pose proof Hc as (Hcode & Hinput & Hhash & Hgas & Hvalue);
  pose proof (proj2 (proj2 (proj2 Hv))) as Ht.

Lemma wp_liftO_owp {A} (o : outcome A) P (Q : vmError + A -> frame S -> Prop) f :
  owp o P -> (forall r, P r -> Q (inr r) f) -> wp (liftO o) Q f.
Proof. intros Ho HQ. unfold wp, liftO. destruct o; simpl in *; auto. Qed.

Lemma opCall_spec : call_spec 7 memoryCall call_stipend no_static_value opCall.
Proof.
  cstart. xpop g. xpop addr. xpop vl. xpop inOff. xpop inSz. xpop retOff. xpop retSz.
  xmem. apply BigMax_le in Hin as [Hret%calcMemSize_in Hargs%calcMemSize_in]; [|done..].
  unfold opCall. xgo. apply wp_mem_get; [done|done|]. intros args Hlargs. xgo.
  unfold call_stipend, call_value in gas. simpl in gas. unfold is_u64 in Ht.
  pose proof (stipend_nonneg (U256 vl)).
  rewrite call_gas by (unfold gas in *; unfold is_u64; simpl in *; lia).
  eapply wp_liftO_owp.
  - apply (Call_ok e n); try done; [by eapply in_mem_small| |apply U256_nonneg|].
    + unfold gas in *. simpl in *. lia.
    + intros Hs%HP. unfold call_value in Hs. simpl in Hs. by rewrite Hs.
  - intros r Hr. apply (wp_after_call pc v c m _ _ gas); try done; unfold gas in *.
    + unfold len in *. simpl in *. lia.
    + lia.
Qed.

Lemma opCallCode_spec : call_spec 7 memoryCall call_stipend always opCallCode.
Proof.
  cstart. xpop g. xpop addr. xpop vl. xpop inOff. xpop inSz. xpop retOff. xpop retSz.
  xmem. apply BigMax_le in Hin as [Hret%calcMemSize_in Hargs%calcMemSize_in]; [|done..].
  unfold opCallCode. xgo. apply wp_mem_get; [done|done|]. intros args Hlargs. xgo.
  unfold call_stipend, call_value in gas. simpl in gas. unfold is_u64 in Ht.
  pose proof (stipend_nonneg (U256 vl)).
  rewrite call_gas by (unfold gas in *; unfold is_u64; simpl in *; lia).
  eapply wp_liftO_owp.
  - apply (CallCode_ok e n); try done; [by eapply in_mem_small| |apply U256_nonneg].
    unfold gas in *. simpl in *. lia.
  - intros r Hr. apply (wp_after_call pc v c m _ _ gas); try done; unfold gas in *.
    + unfold len in *. simpl in *. lia.
    + lia.
Qed.

Lemma opDelegateCall_spec : call_spec 6 memoryDelegateCall no_stipend always opDelegateCall.
Proof.
  cstart. xpop g. xpop addr. xpop inOff. xpop inSz. xpop retOff. xpop retSz.
  xmem. apply BigMax_le in Hin as [Hret%calcMemSize_in Hargs%calcMemSize_in]; [|done..].
  unfold opDelegateCall. xgo. apply wp_mem_get; [done|done|]. intros args Hlargs. xgo.
  assert (Eg : gas = evm_callGasTemp v) by (unfold gas, no_stipend; simpl; lia).
  clearbody gas. subst gas. simpl in Hsum. unfold is_u64 in Ht.
  eapply wp_liftO_owp.
  - apply (DelegateCall_ok e n); try done; [by eapply in_mem_small|]. lia.
  - intros r Hr. apply (wp_after_call pc v c m _ _ (evm_callGasTemp v)); try done.
    + unfold len in *. simpl in *. lia.
    + apply Ht.
Qed.

Lemma opStaticCall_spec : call_spec 6 memoryStaticCall no_stipend always opStaticCall.
Proof.
  cstart. xpop g. xpop addr. xpop inOff. xpop inSz. xpop retOff. xpop retSz.
  xmem. apply BigMax_le in Hin as [Hret%calcMemSize_in Hargs%calcMemSize_in]; [|done..].
  unfold opStaticCall. xgo. apply wp_mem_get; [done|done|]. intros args Hlargs. xgo.
  assert (Eg : gas = evm_callGasTemp v) by (unfold gas, no_stipend; simpl; lia).
  clearbody gas. subst gas. simpl in Hsum. unfold is_u64 in Ht.
  eapply wp_liftO_owp.
  - apply (StaticCall_ok e n); try done; [by eapply in_mem_small|]. lia.
  - intros r [Hr _]. apply (wp_after_call pc v c m _ _ (evm_callGasTemp v)); try done.
    + unfold len in *. simpl in *. lia.
    + apply Ht.
Qed.

(** CREATE passes on at most the gas that is left. *)
Lemma opCreate_spec n R f :
  frame_ok f -> 3 <= len (f_stack f) -> mem_sized (Some memoryCreate) f -> writable e f ->
  Runner_ok e n R -> c_Gas (f_contract f) < n ->
  wp (opCreate e R) (exec_post e f (c_Gas (f_contract f))) f.
Proof.
  destruct f as [pc v c m st]. intros Hf Hpop Hmem HP HR Hn.
  pose proof Hf as (Hv & Hc & Hm & Hst & Hlen & Hpcu).
  pose proof Hc as (Hcode & Hinput & Hhash & Hgas & Hvalue). simpl in *.
  xpop vl. xpop off. xpop sz. xmem. apply calcMemSize_in in Hin; [|done..].
  unfold opCreate. xgo. apply wp_mem_get; [done|done|]. intros input Hinp. xgo.
  set (gas := if env_IsEIP150 e then u64 (c_Gas c - c_Gas c / 64) else c_Gas c).
  assert (Hg : 0 <= gas <= c_Gas c).
  { unfold gas. rewrite u64_small by (unfold is_u64; zlia). case_match; zlia. }
  assert (Hc2 : (UseGas gas c).2 = set_Gas (c_Gas c - gas) c).
  { unfold UseGas. destruct (Z.ltb_spec (c_Gas c) gas); [lia|]. simpl.
    by rewrite u64_small by (unfold is_u64; lia). }
  rewrite Hc2. eapply wp_liftO_owp.
  - apply (Create_ok e n); try done; [by eapply in_mem_small|lia|lia].
  - intros [[[[res addr] g] err] v'] [(Hv' & Hrel & Hres & Hg') _]. unfold give_gas. xgo.
    split; [done|]. split; [done|]. split; [done|]. simpl.
    rewrite u64_small by (unfold is_u64; lia). split; [lia|]. split; [done|].
    split; [by case_match|]. split; [|split; [unfold len in *; simpl in *; lia|done]].
    apply nonneg_cons. split; [autounfold with nonneg_db; eauto with nonneg_db|done].
Qed.
End ExecCalls.
