(* ===== verification/OpSafe.v ===== *)
(** The entries of the instruction tables and single iterations are safe. *)
From S2P Require Import Prelude BigMath Params Opcodes Machine Analysis StateSpec StateRel MachineFacts Vm.
From S2P Require Import Precompiles PrecompileFacts Evm Instructions JumpTable CallFacts GasFacts ExecFacts.

(** Every entry of the instruction tables is safe: core/vm/jump_table.go.

    [op_ok] says of a table entry that its stack bounds, its memory bound,
    its gas function and its instruction fit together. *)

Section OpTable.
Context {S : Type} `{SDB : StateDB S} `{CR : Crypto} {CS : CryptoSpec}
        `{SP : !StateDBSpec S Keccak256Hash}.
Context (e : Env).

(** The memory-size function is defined on stacks of [pop] elements. *)
Definition mem_total (pop : Z) (g : option memorySizeFunc) : Prop :=
  match g with
  | None => True
  | Some g => forall st, nonneg st -> pop <= len st -> exists z, g st = Done z /\ 0 <= z
  end.

(** The frame in which an operation runs: the gas paid, the memory sized. *)
Definition charge (cost msz : Z) (f : frame S) : frame S :=
  let f := set_contract (set_Gas (c_Gas (f_contract f) - cost) (f_contract f)) f in
  if 0 <? msz then set_mem (Memory_Resize msz (f_mem f)) f else f.

(** What [enforceRestrictions] lets through. *)
Definition allowed (opcode : Z) (o : operation S) (f : frame S) : Prop :=
  (writes o = true -> writable e f) /\ (opcode = CALL -> no_static_value e f).

(** The least an operation takes off the gas. *)
Definition op_min (o : operation S) : Z := if halts o || reverts o then 0 else 1.

Definition mem_asked (o : operation S) (st : Stack) (msz : Z) : Prop :=
  match memorySize o with
  | None => msz = 0
  | Some g => forall z, g st = Done z -> z <= msz
  end.

Definition op_ok (opcode : Z) (o : operation S) : Prop :=
  exists pop push, validateStack o = makeStackFunc pop push /\ mem_total pop (memorySize o) /\
    (opcode = CALL -> 3 <= pop) /\
    forall n R f msz,
      frame_ok f -> Runner_ok e n R -> c_Gas (f_contract f) <= n ->
      pop <= len (f_stack f) -> len (f_stack f) + push - pop <= StackLimit ->
      allowed opcode o f -> (opcode <> STOP -> pc_in_code f) ->
      0 <= msz -> mem_asked o (f_stack f) msz ->
      wp (gasCost o e msz) (gas_ok e f (fun cost f1 =>
        cost <= c_Gas (f_contract f) -> msz <= MaxMem /\
        wp (execute o e R) (exec_post e (charge cost msz f1) (c_Gas (f_contract f) - op_min o))
           (charge cost msz f1))) f.

Lemma charge_ok f f1 cost msz :
  frame_ok f -> gframe e f f1 -> 0 <= cost <= c_Gas (f_contract f) -> 0 <= msz <= MaxMem ->
  let f2 := charge cost msz f1 in
  frame_ok f2 /\ f_stack f2 = f_stack f /\ f_pc f2 = f_pc f /\ f_evm f2 = f_evm f1 /\
  f_contract f2 = set_Gas (c_Gas (f_contract f) - cost) (f_contract f) /\
  msz <= Memory_Len (f_mem f2).
Proof.
  intros (Hv & Hc & Hm & Hst & Hl & Hp) (Ep & Ec & Es & Em & Hv1 & _) Hcost Hmsz f2.
  assert (Hlen : Memory_Len (f_mem f1) = Memory_Len (f_mem f)) by (unfold Memory_Len; by rewrite Em).
  assert (Hf2 : f_stack f2 = f_stack f /\ f_pc f2 = f_pc f /\ f_evm f2 = f_evm f1 /\
    f_contract f2 = set_Gas (c_Gas (f_contract f) - cost) (f_contract f) /\
    Memory_Len (f_mem f2) = Z.max msz (Memory_Len (f_mem f))).
  { unfold f2, charge. rewrite Ec.
    destruct (Z.ltb_spec 0 msz); simpl; repeat split; try done.
    - by rewrite Memory_Len_Resize, Hlen by lia.
    - rewrite Hlen. pose proof (len_nonneg (store (f_mem f))). unfold Memory_Len. lia. }
  destruct Hf2 as (E1 & E2 & E3 & E4 & E5).
  split; [|repeat split; try done; lia].
  unfold frame_ok. rewrite E1, E2, E3, E4. split; [done|]. split.
  - destruct Hc as (? & ? & ? & ? & ?). repeat split; try done; simpl; lia.
  - split; [|done]. unfold mem_ok in *. lia.
Qed.

Lemma mem_asked_sized o (f f2 : frame S) msz :
  mem_asked o (f_stack f) msz -> f_stack f2 = f_stack f -> msz <= Memory_Len (f_mem f2) ->
  mem_sized (memorySize o) f2.
Proof.
  unfold mem_asked, mem_sized. intros Hm Es Hl. destruct (memorySize o); [|done].
  rewrite Es. intros z Hz. specialize (Hm z Hz). lia.
Qed.

(** ** An operation that calls nothing *)

Definition simple_gas (pop k : Z) (o : operation S) : Prop := forall f n,
  evm_ok (f_evm f) -> nonneg (f_stack f) -> pop <= len (f_stack f) -> 0 <= n ->
  (writes o = true -> writable e f) ->
  wp (gasCost o e n)
     (gas_ok e f (fun cost _ => k <= cost /\ (memorySize o <> None -> n <= MaxMem))) f.

Lemma op_simple P pop push k opcode o :
  validateStack o = makeStackFunc pop push -> mem_total pop (memorySize o) ->
  simple_gas pop k o -> exec_spec e P pop push (memorySize o) (execute o) ->
  (forall f, allowed opcode o f -> (opcode <> STOP -> pc_in_code f) -> P f) ->
  op_min o <= k -> (opcode = CALL -> 3 <= pop) -> op_ok opcode o.
Proof.
  intros Hvs Hmt Hg Hx HP Hk Hcall. exists pop, push. do 3 (split; [done|]).
  intros n R f msz Hf HR Hn Hpop Hpush Hal Hpc Hmsz Hask.
  eapply wp_mono; [apply (Hg f msz); try done; try apply Hf; apply Hal|].
  intros r f1 [Hf1 Hr]. split; [done|]. destruct r as [er|cost]; [done|].
  destruct Hr as [Hcu [Hck Hmm]]. split; [done|]. intros Hcost.
  assert (Hmax : msz <= MaxMem).
  { unfold mem_asked in Hask. destruct (memorySize o); [by apply Hmm|lia]. }
  split; [done|].
  destruct (charge_ok f f1 cost msz Hf Hf1) as (Hf2 & Es & Ep & Ev & Ec & Hl);
    [destruct Hcu; lia|lia|].
  eapply wp_mono; [apply Hx|]; try rewrite Es; try done.
  - by eapply mem_asked_sized.
  - apply HP.
    + destruct Hal as [Hw Hc']. unfold allowed, writable, no_static_value, static in *.
      rewrite Ev, Es. destruct Hf1 as (_ & _ & _ & _ & _ & (_ & _ & Ho)). by rewrite Ho.
    + intros Ho. specialize (Hpc Ho). unfold pc_in_code in *. by rewrite Ep, Ec.
  - intros r f3 Hpost. eapply exec_post_mono; [|exact Hpost]. rewrite Ec. simpl. lia.
Qed.

Lemma simple_gas_plain pop pop' k o :
  memorySize o = None -> pop' <= pop -> gas_spec e pop' (gasCost o) (fun _ => at_least k) ->
  simple_gas pop k o.
Proof.
  intros Hm Hp Hg f n Hv Hst Hl Hn _. eapply wp_mono; [apply Hg; try done; lia|].
  intros [er|cost] f1 [Hf1 Hr]; split; try done. destruct Hr. split; [done|]. split; [done|].
  by rewrite Hm.
Qed.
Lemma simple_gas_mem pop pop' k o :
  pop' <= pop -> gas_spec e pop' (gasCost o) (at_least_mem k) -> simple_gas pop k o.
Proof.
  intros Hp Hg f n Hv Hst Hl Hn _. eapply wp_mono; [apply Hg; try done; lia|].
  intros [er|cost] f1 [Hf1 Hr]; split; try done. destruct Hr as (? & ? & ?). by split.
Qed.

(** ** An operation that calls a contract *)

Lemma op_call opcode o pop g sti P base :
  validateStack o = makeStackFunc pop 1 -> memorySize o = Some g -> mem_total pop (Some g) ->
  op_min o = 1 -> 3 <= pop ->
  (forall f n, evm_ok (f_evm f) -> nonneg (f_stack f) -> pop <= len (f_stack f) -> 0 <= n ->
     wp (gasCost o e n) (gas_ok e f (call_cost (base (f_stack f)) n)) f) ->
  call_spec e pop g sti P (execute o) ->
  (forall f, allowed opcode o f -> P f) ->
  (forall st, 0 <= sti st /\ 40 + sti st <= base st) -> op_ok opcode o.
Proof.
  intros Hvs Hmo Hmt Hmin Hpop3 Hg Hx HP Hbase. exists pop, 1. rewrite Hmo. do 3 (split; [done|]).
  intros n R f msz Hf HR Hn Hpop Hpush Hal Hpc Hmsz Hask.
  eapply wp_mono; [apply (Hg f msz); try done; try apply Hf|].
  intros r f1 [Hf1 Hr]. split; [done|]. destruct r as [er|cost]; [done|].
  destruct Hr as [Hcu [Hck Hmm]]. split; [done|]. intros Hcost. split; [done|].
  destruct (charge_ok f f1 cost msz Hf Hf1) as (Hf2 & Es & Ep & Ev & Ec & Hl);
    [destruct Hcu; lia|lia|].
  destruct (Hbase (f_stack f)) as [Hs0 Hs].
  assert (Ht : is_u64 (evm_callGasTemp (f_evm f1))) by apply Hf1. unfold is_u64 in Ht.
  assert (Hgas : 0 <= c_Gas (f_contract f) < 2 ^ 62) by apply Hf.
  eapply wp_mono; [apply (Hx n R)|]; try rewrite Es; try done; rewrite ?Ec, ?Ev; simpl; try lia.
  - eapply (mem_asked_sized o f) in Hask; [|done|done]. by rewrite Hmo in Hask.
  - apply HP. destruct Hal as [Hw Hc']. unfold allowed, writable, no_static_value, static in *.
    rewrite Ev, Es. destruct Hf1 as (_ & _ & _ & _ & _ & (_ & _ & Ho)). by rewrite Ho.
  - intros r f3 Hpost. eapply exec_post_mono; [|exact Hpost]. rewrite Hmin. lia.
Qed.

(** CREATE hands over what is left of the gas. *)
Lemma op_create opcode o :
  validateStack o = makeStackFunc 3 1 -> memorySize o = Some memoryCreate -> writes o = true ->
  gasCost o = gasCreate -> execute o = opCreate -> mem_total 3 (Some memoryCreate) ->
  op_ok opcode o.
Proof.
  intros Hvs Hmo Hwr Hg Hx Hmt. exists 3, 1. rewrite Hmo, Hg, Hx. do 3 (split; [done|]).
  intros n R f msz Hf HR Hn Hpop Hpush Hal Hpc Hmsz Hask.
  eapply wp_mono; [apply (gasCreate_spec e f msz); try done; try apply Hf; lia|].
  intros r f1 [Hf1 Hr]. split; [done|]. destruct r as [er|cost]; [done|].
  destruct Hr as [Hcu [Hck Hmm]]. unfold CreateGas in Hck. split; [done|]. intros Hcost. split; [done|].
  destruct (charge_ok f f1 cost msz Hf Hf1) as (Hf2 & Es & Ep & Ev & Ec & Hl); [lia|lia|].
  eapply wp_mono; [apply (opCreate_spec e n R)|]; try rewrite Es; try done; rewrite ?Ec; simpl; try lia.
  - eapply (mem_asked_sized o f) in Hask; [|done|done]. by rewrite Hmo in Hask.
  - destruct Hal as [Hw _]. specialize (Hw Hwr). unfold writable, static in *.
    rewrite Ev. destruct Hf1 as (_ & _ & _ & _ & _ & (_ & _ & Ho)). by rewrite Ho.
  - intros r f3 Hpost. eapply exec_post_mono; [|exact Hpost].
    unfold op_min. destruct (_ || _); lia.
Qed.

(** ** Memory-size functions *)

Lemma Stack_Back_done st (k : nat) : nonneg st -> Z.of_nat k < len st ->
  exists x, Stack_Back st k = Done x /\ 0 <= x.
Proof. intros Hn Hk. destruct (stack_at st k Hn Hk) as (x & E & ?). exists x. unfold Stack_Back. by rewrite E. Qed.

Lemma mem2_total (i j : nat) pop st :
  nonneg st -> pop <= len st -> Z.of_nat i < pop -> Z.of_nat j < pop ->
  exists z, mem2 i j st = Done z /\ 0 <= z.
Proof.
  intros Hn Hp Hi Hj. unfold mem2.
  destruct (Stack_Back_done st i) as (x & -> & ?); [done|lia|].
  destruct (Stack_Back_done st j) as (y & -> & ?); [done|lia|]. simpl.
  eauto using calcMemSize_nonneg.
Qed.
Lemma mem22_total (i j k l : nat) pop st :
  nonneg st -> pop <= len st -> Z.of_nat i < pop -> Z.of_nat j < pop -> Z.of_nat k < pop ->
  Z.of_nat l < pop -> exists z, mem22 i j k l st = Done z /\ 0 <= z.
Proof.
  intros. unfold mem22.
  destruct (mem2_total i j pop st) as (x & -> & ?); [done..|].
  destruct (mem2_total k l pop st) as (y & -> & ?); [done..|]. simpl. eexists. split; [done|].
  unfold BigMax. by case_match.
Qed.
Lemma mem1_total k pop st :
  nonneg st -> pop <= len st -> 0 < pop -> 0 <= k ->
  exists z, (let* o := Stack_Back st 0 in Done (calcMemSize o k)) = Done z /\ 0 <= z.
Proof.
  intros. destruct (Stack_Back_done st 0) as (x & -> & ?); [done|lia|]. simpl.
  eauto using calcMemSize_nonneg.
Qed.
Lemma memoryLog_total pop : 2 <= pop -> mem_total pop (Some memoryLog).
Proof.
  intros Hp st Hn Hl. unfold memoryLog.
  destruct (Stack_Back_done st 1) as (x & -> & ?); [done|lia|].
  destruct (Stack_Back_done st 0) as (y & -> & ?); [done|lia|]. simpl.
  eauto using calcMemSize_nonneg.
Qed.
End OpTable.

(** All four instruction tables consist of safe operations. *)

Create HintDb exec_db.
Create HintDb gas_db.
#[export] Hint Resolve opAdd_spec opSub_spec opMul_spec opDiv_spec opSdiv_spec opMod_spec opSmod_spec
  opExp_spec opSignExtend_spec opNot_spec opLt_spec opGt_spec opSlt_spec opSgt_spec opEq_spec
  opIszero_spec opAnd_spec opOr_spec opXor_spec opByte_spec opAddmod_spec opMulmod_spec opSHL_spec
  opSHR_spec opSAR_spec opSha3_spec opAddress_spec opBalance_spec opOrigin_spec opCaller_spec
  opCallValue_spec opCallDataLoad_spec opCallDataSize_spec opCallDataCopy_spec opReturnDataSize_spec
  opReturnDataCopy_spec opExtCodeSize_spec opCodeSize_spec opCodeCopy_spec opExtCodeCopy_spec
  opGasprice_spec opBlockhash_spec opCoinbase_spec opTimestamp_spec opNumber_spec opDifficulty_spec
  opGasLimit_spec opPop_spec opMload_spec opMstore_spec opMstore8_spec opSload_spec opSstore_spec
  opJump_spec opJumpi_spec opJumpdest_spec opPc_spec opMsize_spec opGas_spec opReturn_spec
  opRevert_spec opStop_spec opSuicide_spec makeLog_spec makePush_spec makeDup_spec makeSwap_spec
  : exec_db.
#[export] Hint Resolve constGasFunc_spec gasPush_spec gasDup_spec gasSwap_spec gasMLoad_spec
  gasMStore_spec gasMStore8_spec gasReturn_spec gasRevert_spec gasCallDataCopy_spec
  gasReturnDataCopy_spec gasCodeCopy_spec gasExtCodeCopy_spec gasSha3_spec gasBalance_spec
  gasExtCodeSize_spec gasSLoad_spec gasExp_spec : gas_db.
#[export] Hint Extern 1 (is_u64 _) => split; [by apply Z.leb_le|by apply Z.ltb_lt] : gas_db.

Ltac op_fields :=
  cbn [fst snd execute gasCost validateStack memorySize halts jumps writes valid reverts returns
       op with_memory halting jumping writing reverting returning].
Ltac op_mem :=
  op_fields; first
  [ exact I
  | intros ? ? ?; eapply mem2_total; [eassumption|eassumption|lia|lia]
  | intros ? ? ?; eapply mem22_total; [eassumption|eassumption|lia|lia|lia|lia]
  | intros ? ? ?; eapply mem1_total; [eassumption|eassumption|lia|lia] ].
Ltac op_gas :=
  first
  [ eapply simple_gas_plain; [reflexivity| |op_fields; solve [eauto with gas_db]]; lia
  | eapply simple_gas_mem; [|op_fields; solve [eauto with gas_db]]; lia ].
Ltac op_pre :=
  first [ intros; exact I
        | intros ? [? _] _; by auto
        | intros ? _ Hpc; apply Hpc; cbn [fst]; unfold STOP, PUSH1; lia ].
Ltac op_not_call :=
  cbn [fst]; intros Hop;
  first [discriminate Hop | exfalso; unfold PUSH1, DUP1, SWAP1, LOG0, CALL in Hop; lia].
Ltac op_entry :=
  eapply op_simple;
  [ reflexivity | op_mem | op_gas | op_fields; solve [eauto with exec_db] | op_pre
  | apply Z.leb_le; reflexivity | op_not_call ].

Section OpSafe.
Context {S : Type} `{SDB : StateDB S} `{CR : Crypto} {CS : CryptoSpec}
        `{SP : !StateDBSpec S Keccak256Hash}.
Context (e : Env) (He : env_ok e).

Abbreviation entry_ok := (fun co : Z * operation S => op_ok e co.1 co.2).

Lemma frontier_arithmetic_ok : Forall entry_ok frontier_arithmetic.
Proof. repeat (apply Forall_cons; split); [op_entry..|constructor]. Qed.
Lemma frontier_environment_ok : Forall entry_ok frontier_environment.
Proof. repeat (apply Forall_cons; split); [op_entry..|constructor]. Qed.

(** The gas functions that touch the refund counter. *)
Lemma gasSStore_simple o :
  gasCost o = gasSStore -> memorySize o = None -> writes o = true -> simple_gas e 2 5000 o.
Proof.
  intros Hg Hm Hw f n Hv Hst Hl Hn Hwr. rewrite Hg.
  eapply wp_mono; [apply gasSStore_spec; try done; by apply Hwr|].
  intros [er|cost] f1 [Hf1 Hr]; split; try done. destruct Hr. by rewrite Hm.
Qed.
Lemma gasSuicide_simple o :
  gasCost o = gasSuicide -> memorySize o = None -> writes o = true -> simple_gas e 1 0 o.
Proof.
  intros Hg Hm Hw f n Hv Hst Hl Hn Hwr. rewrite Hg.
  eapply wp_mono; [apply gasSuicide_spec; try done; by apply Hwr|].
  intros [er|cost] f1 [Hf1 Hr]; split; try done. destruct Hr. by rewrite Hm.
Qed.

Lemma sstore_ok : entry_ok (SSTORE, writing (op opSstore gasSStore (makeStackFunc 2 0))).
Proof.
  eapply op_simple; [reflexivity|op_mem|by apply gasSStore_simple|op_fields; eauto with exec_db|op_pre| |op_not_call].
  by apply Z.leb_le.
Qed.
Lemma selfdestruct_ok :
  entry_ok (SELFDESTRUCT, writing (halting (op opSuicide gasSuicide (makeStackFunc 1 0)))).
Proof.
  eapply op_simple; [reflexivity|op_mem|by apply gasSuicide_simple|op_fields; eauto with exec_db|op_pre| |op_not_call].
  by apply Z.leb_le.
Qed.

Lemma frontier_memory_flow_ok : Forall entry_ok frontier_memory_flow.
Proof.
  repeat (apply Forall_cons; split); [first [op_entry | apply sstore_ok]..|constructor].
Qed.

Lemma frontier_push_ok : Forall entry_ok frontier_push.
Proof.
  apply Forall_map, Forall_seq. intros n Hn.
  eapply op_simple; [reflexivity|op_mem|op_gas|op_fields; apply makePush_spec; lia|op_pre|by apply Z.leb_le|op_not_call].
Qed.
Lemma frontier_dup_ok : Forall entry_ok frontier_dup.
Proof.
  apply Forall_map, Forall_seq. intros n Hn.
  eapply op_simple; [reflexivity|op_mem|op_gas|op_fields; apply makeDup_spec; lia|op_pre|by apply Z.leb_le|op_not_call].
Qed.
Lemma frontier_swap_ok : Forall entry_ok frontier_swap.
Proof.
  apply Forall_map, Forall_seq. intros n Hn.
  eapply op_simple; [reflexivity|op_mem|op_gas|op_fields; apply makeSwap_spec|op_pre|by apply Z.leb_le|op_not_call].
Qed.
Lemma frontier_log_ok : Forall entry_ok frontier_log.
Proof.
  apply Forall_map, Forall_seq. intros n Hn.
  eapply op_simple; [reflexivity| | |op_fields; apply makeLog_spec|op_pre| |op_not_call].
  - op_fields. apply memoryLog_total. lia.
  - eapply simple_gas_mem; [|op_fields; apply makeGasLog_spec; lia]. lia.
  - by apply Z.leb_le.
Qed.

(** ** Calls *)

Lemma call_base_stipend st :
  0 <= call_stipend st /\ 40 + call_stipend st <= call_base (call_value st).
Proof.
  unfold call_stipend, call_base, stipend, CallStipend, CallValueTransferGas.
  destruct (Z.eqb_spec (Sign (call_value st)) 0) as [E|E].
  - apply (proj1 (Z.sgn_null_iff (call_value st))) in E. rewrite E. simpl. lia.
  - case_match; lia.
Qed.

Lemma call_value_lookup (st : Stack) : 7 <= len st -> st !! 2%nat = Some (call_value st).
Proof.
  intros Hl. unfold call_value. destruct (lookup_lt_is_Some_2 st 2) as [x E]; [unfold len in Hl; lia|].
  unfold Stack in *. by rewrite E.
Qed.

Lemma call_ok :
  entry_ok (CALL, returning (with_memory memoryCall (op opCall gasCall (makeStackFunc 7 1)))).
Proof.
  eapply (op_call e _ _ 7 _ _ _ (fun st => call_base (call_value st)));
    [reflexivity|reflexivity|op_mem|reflexivity|lia| |op_fields; apply opCall_spec| |apply call_base_stipend].
  - op_fields. intros f n Hv Hst Hl Hn. apply gasCall_spec; try done. by apply call_value_lookup.
  - intros f [_ Hc]. by apply Hc.
Qed.
Lemma callcode_ok :
  entry_ok (CALLCODE, returning (with_memory memoryCall (op opCallCode gasCallCode (makeStackFunc 7 1)))).
Proof.
  eapply (op_call e _ _ 7 _ _ _ (fun st => call_base (call_value st)));
    [reflexivity|reflexivity|op_mem|reflexivity|lia| |op_fields; apply opCallCode_spec|done|apply call_base_stipend].
  op_fields. intros f n Hv Hst Hl Hn. apply gasCallCode_spec; try done. by apply call_value_lookup.
Qed.
Lemma delegatecall_ok :
  entry_ok (DELEGATECALL, returning (with_memory memoryDelegateCall
              (op opDelegateCall gasDelegateCall (makeStackFunc 6 1)))).
Proof.
  eapply (op_call e _ _ 6 _ _ _ (fun st => 40));
    [reflexivity|reflexivity|op_mem|reflexivity|lia| |op_fields; apply opDelegateCall_spec|done|].
  - op_fields. intros f n Hv Hst Hl Hn. by apply gasDelegateCall_spec.
  - unfold no_stipend. lia.
Qed.
Lemma staticcall_ok :
  entry_ok (STATICCALL, returning (with_memory memoryStaticCall
              (op opStaticCall gasStaticCall (makeStackFunc 6 1)))).
Proof.
  eapply (op_call e _ _ 6 _ _ _ (fun st => 40));
    [reflexivity|reflexivity|op_mem|reflexivity|lia| |op_fields; apply opStaticCall_spec|done|].
  - op_fields. intros f n Hv Hst Hl Hn. by apply gasStaticCall_spec.
  - unfold no_stipend. lia.
Qed.

Lemma frontier_system_ok : Forall entry_ok frontier_system.
Proof.
  repeat (apply Forall_cons; split); [| | | | |constructor].
  - apply op_create; try reflexivity. op_mem.
  - apply call_ok.
  - apply callcode_ok.
  - op_entry.
  - apply selfdestruct_ok.
Qed.

(** ** The tables *)

Definition table_ok (t : gmap Z (operation S)) : Prop := map_Forall (op_ok e) t.

Lemma frontier_ok : table_ok NewFrontierInstructionSet.
Proof.
  intros c o Hl%elem_of_list_to_map_2.
  assert (Hall : Forall entry_ok frontier_entries).
  { unfold frontier_entries. repeat (apply Forall_app; split);
      eauto using frontier_arithmetic_ok, frontier_environment_ok, frontier_memory_flow_ok,
        frontier_push_ok, frontier_dup_ok, frontier_swap_ok, frontier_log_ok, frontier_system_ok. }
  rewrite Forall_forall in Hall. by apply (Hall (c, o)).
Qed.
Lemma homestead_ok : table_ok NewHomesteadInstructionSet.
Proof. apply map_Forall_insert_2; [apply delegatecall_ok|apply frontier_ok]. Qed.
Lemma byzantium_ok : table_ok NewByzantiumInstructionSet.
Proof.
  do 3 (apply map_Forall_insert_2; [op_entry|]).
  apply map_Forall_insert_2; [apply staticcall_ok|apply homestead_ok].
Qed.
Lemma constantinople_ok : table_ok NewConstantinopleInstructionSet.
Proof. do 3 (apply map_Forall_insert_2; [op_entry|]). apply byzantium_ok. Qed.
End OpSafe.
