(* ===== verification/RunSafe.v ===== *)
(** Runs are safe, and more fuel does not change them. *)
From S2P Require Import Prelude BigMath Params Opcodes Machine Analysis StateSpec StateRel MachineFacts Vm.
From S2P Require Import Precompiles PrecompileFacts Evm Instructions JumpTable Interpreter CallFacts GasFacts.
From S2P Require Import ExecFacts OpSafe.

(** The interpreter is safe: core/vm/interpreter.go.

    Whatever the code, the input and the state, a run with fuel above its
    gas ends, does not panic, does not create gas, keeps the machine well
    formed and, in a static call, changes nothing. *)

Section RunSafe.
Context {S : Type} `{SDB : StateDB S} `{CR : Crypto} {CS : CryptoSpec}
        `{SP : !StateDBSpec S Keccak256Hash}.
Context (e : Env) (He : env_ok e).
Implicit Types f : frame S.
Implicit Types o : operation S.

Lemma InstructionSet_ok : table_ok e (InstructionSet (S := S) e).
Proof.
  unfold InstructionSet. destruct (env_IsConstantinople e); [by apply constantinople_ok|].
  destruct (env_IsByzantium e); [by apply byzantium_ok|].
  destruct (env_IsHomestead e); [by apply homestead_ok|by apply frontier_ok].
Qed.

(** After one iteration of the loop. *)
Definition step_post f (sr : stepResult) f' : Prop :=
  evm_ok (f_evm f') /\ erel e (f_evm f) (f_evm f') /\ csame (f_contract f) (f_contract f') /\
  0 <= c_Gas (f_contract f') <= c_Gas (f_contract f) /\
  match sr with
  | Next => frame_ok f' /\ c_Gas (f_contract f') < c_Gas (f_contract f)
  | Stop ret _ => small ret
  end.

Lemma step_stop f f' err :
  frame_ok f -> gframe e f f' -> step_post f (Stop [] err) f'.
Proof.
  intros Hf (? & Ec & ? & ? & ? & ?). do 2 (split; [done|]). rewrite Ec.
  split; [apply csame_refl|]. destruct Hf as (_ & (_ & _ & _ & ? & _) & _). split; [lia|done].
Qed.

Lemma contract_ok_csame c c' g :
  contract_ok c -> csame c c' -> 0 <= c_Gas c' <= g -> g < 2 ^ 62 -> contract_ok c'.
Proof.
  intros (? & ? & ? & ? & ?) -> Hg Hl. simpl in Hg. repeat split; try done; simpl; lia.
Qed.

Lemma set_returnData_ok (b : bool) res f :
  evm_ok (f_evm f) -> small res ->
  let f' := if b then set_evm (set_returnData res (f_evm f)) f else f in
  evm_ok (f_evm f') /\ (forall v, erel e v (f_evm f) -> erel e v (f_evm f')) /\
  f_contract f' = f_contract f /\ f_stack f' = f_stack f /\ f_mem f' = f_mem f /\ f_pc f' = f_pc f.
Proof. intros (? & ? & ? & ?) Hr. by destruct b. Qed.

Lemma step_execute_ok n R o f f1 msz cost :
  frame_ok f -> Runner_ok e n R -> gframe e f f1 ->
  match cost with
  | inl _ => True
  | inr cost => is_u64 cost /\ (cost <= c_Gas (f_contract f) -> msz <= MaxMem /\
      wp (execute o e R) (exec_post e (charge cost msz f1) (c_Gas (f_contract f) - op_min o))
         (charge cost msz f1))
  end -> 0 <= msz ->
  owp (step_execute e R o msz cost f1) (fun '(sr, f') => step_post f sr f').
Proof.
  intros Hf HR Hf1 Hcost Hmsz. unfold step_execute. destruct cost as [er|cost]; [by apply step_stop|].
  destruct Hcost as [Hcu Hx]. unfold UseGas.
  assert (Ec : f_contract f1 = f_contract f) by apply Hf1. rewrite Ec.
  destruct (Z.ltb_spec (c_Gas (f_contract f)) cost) as [|Hle]; [by apply step_stop|]. cbn [negb].
  destruct (Hx Hle) as [Hmax Hwp].
  assert (Hg62 : 0 <= c_Gas (f_contract f) < 2 ^ 62) by apply Hf.
  rewrite u64_small by (unfold is_u64 in *; lia).
  destruct (charge_ok e f f1 cost msz Hf Hf1) as (Hf2 & Es2 & Ep2 & Ev2 & Ec2 & _);
    [unfold is_u64 in *; lia|lia|].
  unfold charge in Hwp. rewrite Ec in Hwp. cbv zeta in Hwp |- *.
  set (f2 := if 0 <? msz then _ else _) in *.
  assert (E2 : charge cost msz f1 = f2) by (unfold charge; by rewrite Ec).
  rewrite E2 in *. clearbody f2.
  apply owp_bind. eapply owp_mono; [exact Hwp|]. intros [r f3] (Hv3 & Hr3 & Hc3 & Hg3 & Hm3 & Hst3).
  assert (Hres : small (match r with inl _ => [] | inr res => res end)) by (destruct r; [done|apply Hst3]).
  set (res := match r with inl _ => [] | inr res => res end) in *.
  destruct (set_returnData_ok (returns o) res f3 Hv3 Hres) as (Hv4 & Hr4 & Ec4 & Es4 & Em4 & Ep4).
  set (f4 := if returns o then _ else _) in *. clearbody f4.
  assert (Hbase : evm_ok (f_evm f4) /\ erel e (f_evm f) (f_evm f4) /\
    csame (f_contract f) (f_contract f4) /\
    0 <= c_Gas (f_contract f4) <= c_Gas (f_contract f) - op_min o).
  { split; [done|]. rewrite Ec4. split; [|split; [|done]].
    - apply Hr4. rewrite Ev2 in Hr3. eapply erel_trans; [apply Hf1|done].
    - eapply csame_trans; [|exact Hc3]. rewrite Ec2. apply csame_set_Gas. }
  destruct Hbase as (B1 & B2 & B3 & B4).
  assert (Hmin : 0 <= op_min o <= 1) by (unfold op_min; destruct (halts o || reverts o); lia).
  destruct r as [er|rs]; [do 3 (split; [done|]); split; [lia|done]|].
  destruct Hst3 as (_ & Hn3 & Hl3 & Hp3).
  destruct (reverts o) eqn:Erev; [do 3 (split; [done|]); split; [lia|done]|].
  destruct (halts o) eqn:Ehlt; [do 3 (split; [done|]); split; [lia|done]|].
  assert (op_min o = 1) by (unfold op_min; by rewrite Erev, Ehlt).
  assert (Hc4 : contract_ok (f_contract f4)).
  { eapply contract_ok_csame; [apply Hf|done|exact B4|lia]. }
  destruct (negb (jumps o)); simpl; do 3 (split; [done|]); (split; [simpl; lia|]); (split; [|simpl; lia]);
    unfold frame_ok; simpl; rewrite ?Es4, ?Em4, ?Ep4; do 5 (split; [done|]); [apply u64_range|done].
Qed.

(** ** One iteration *)

Lemma makeStackFunc_ok pop push st :
  makeStackFunc pop push st = None -> pop <= len st /\ len st + push - pop <= StackLimit.
Proof. unfold makeStackFunc, Stack_require. bool_cases; intros; simplify_eq; lia. Qed.

Lemma opMemorySize_ok o st pop :
  mem_total pop (memorySize o) -> nonneg st -> pop <= len st ->
  owp (opMemorySize o st) (fun r => match r with
    | inl _ => True
    | inr msz => 0 <= msz /\ mem_asked o st msz
    end).
Proof.
  intros Ht Hn Hl. unfold opMemorySize, mem_asked. destruct (memorySize o) as [g|]; [|done].
  destruct (Ht st Hn Hl) as (z & Hz & Hz0). rewrite Hz. cbn [outcome_bind].
  destruct (bigUint64 z) as [w b] eqn:E. destruct b; [done|].
  apply bigUint64_fits in E as [-> Hu]; [|done].
  pose proof (toWordSize_bounds z Hu) as (Hw & Hw0).
  rewrite SafeMul_spec by (unfold is_u64; lia).
  destruct (Z.ltb_spec MaxUint64 (toWordSize z * 32)); [done|].
  rewrite u64_small by (unfold is_u64; lia). simpl. split; [lia|]. intros z' [= <-]. lia.
Qed.

Lemma call_value_Back st x : Stack_Back st 2 = Done x -> call_value st = x.
Proof. unfold Stack_Back, call_value. destruct (st !! 2%nat); intros; by simplify_eq. Qed.

Lemma enforceRestrictions_ok f opcode o :
  frame_ok f -> (opcode = CALL -> 3 <= len (f_stack f)) ->
  owp (enforceRestrictions e (evm_readOnly (f_evm f)) opcode o (f_stack f))
      (fun r => r = None -> allowed e opcode o f).
Proof.
  intros Hf Hcall. unfold enforceRestrictions.
  change (rules_IsByzantium (chainRules e)) with (env_IsByzantium e).
  assert (Hns : (env_IsByzantium e = false \/ evm_readOnly (f_evm f) = false) -> allowed e opcode o f).
  { intros H. assert (Hst : ~ static e (f_evm f)) by (intros [? ?]; destruct H; congruence).
    split; [by intros _|]. intros _ ?. done. }
  destruct (env_IsByzantium e); [|simpl; auto].
  destruct (evm_readOnly (f_evm f)); [|simpl; auto].
  destruct (writes o) eqn:Ew; [done|].
  destruct (Z.eqb_spec opcode CALL) as [->|Hne].
  - destruct (Stack_Back_done (f_stack f) 2) as (x & Hx & Hx0); [apply Hf|auto; lia|].
    rewrite Hx. cbn [outcome_bind owp]. destruct (Z.ltb_spec 0 (BitLen x)) as [|Hb]; [done|].
    intros _. split; [by rewrite Ew|]. intros _ _. apply call_value_Back in Hx. rewrite Hx.
    apply BitLen_spec in Hb; lia.
  - intros _. split; [by rewrite Ew|done].
Qed.

Lemma GetOp_pc f op :
  is_u64 (f_pc f) -> GetOp (f_contract f) (f_pc f) = Done op -> op <> STOP -> pc_in_code f.
Proof.
  intros Hp. unfold GetOp, GetByte, pc_in_code.
  destruct (Z.ltb_spec (f_pc f) (len (c_Code (f_contract f)))); [done|]. by intros [= <-].
Qed.

Lemma step_ok n R f :
  frame_ok f -> Runner_ok e n R -> c_Gas (f_contract f) <= n ->
  owp (step e R f) (fun '(sr, f') => step_post f sr f').
Proof.
  intros Hf HR Hn. unfold step.
  pose proof (gframe_refl e f (proj1 Hf)) as Hid.
  pose proof Hf as (_ & _ & _ & Hst & _ & Hpc).
  destruct (GetOp_done (f_contract f) (f_pc f)) as [opcode Eop]; [apply Hpc|].
  rewrite Eop. cbn [outcome_bind].
  destruct (InstructionSet e !! opcode) as [o|] eqn:Eo; [|by apply step_stop].
  destruct (InstructionSet_ok _ _ Eo) as (pop & push & Hvs & Hmt & Hcall & Hgas).
  destruct (negb (valid o)); [by apply step_stop|].
  rewrite Hvs. destruct (makeStackFunc pop push (f_stack f)) eqn:Evs; [by apply step_stop|].
  apply makeStackFunc_ok in Evs as [Hpop Hpush].
  apply owp_bind. eapply owp_mono; [apply enforceRestrictions_ok; [done|]|].
  { intros H%Hcall. lia. }
  intros [err|] Hal; [by apply step_stop|]. specialize (Hal eq_refl).
  apply owp_bind. eapply owp_mono; [by eapply opMemorySize_ok|].
  intros [err|msz] Hmsz; [by apply step_stop|]. destruct Hmsz as [Hm0 Hask].
  apply owp_bind.
  eapply owp_mono; [by apply (Hgas n R f msz); eauto using GetOp_pc|].
  intros [cost f1] [Hf1 Hcost]. by eapply step_execute_ok.
Qed.

(** ** The loop *)

Lemma frame_ok_set_abort f l : frame_ok f -> frame_ok (set_evm (set_abort l (f_evm f)) f).
Proof. by intros ((? & ? & ? & ?) & ?). Qed.

Definition loop_post f (r : bytes * option vmError * frame S) : Prop :=
  let '(ret, err, f') := r in
  evm_ok (f_evm f') /\ erel e (f_evm f) (f_evm f') /\
  0 <= c_Gas (f_contract f') <= c_Gas (f_contract f) /\ small ret.

Lemma loop_ok n R fuel : Runner_ok e n R -> forall f,
  frame_ok f -> c_Gas (f_contract f) <= n -> c_Gas (f_contract f) < Z.of_nat fuel ->
  owp (loop e R fuel f) (loop_post f).
Proof.
  intros HR. induction fuel as [|fuel IH]; intros f Hf Hn Hfuel.
  { destruct Hf as (_ & (_ & _ & _ & ? & _) & _). lia. }
  cbn [loop]. unfold load_abort.
  set (bv := match evm_abort (f_evm f) with [] => _ | _ :: _ => _ end).
  assert (Hbv : exists b l, bv = (b, set_abort l (f_evm f))).
  { unfold bv. destruct (evm_abort (f_evm f)) as [|b l] eqn:E; [|by eauto].
    exists false, []. f_equal. rewrite <-E. by destruct (f_evm f). }
  destruct Hbv as (b & l & Ebv). rewrite Ebv. clear bv Ebv.
  pose proof (frame_ok_set_abort f l Hf) as Hf'. set (f1 := set_evm _ f) in *.
  assert (Hgas : 0 <= c_Gas (f_contract f)) by (by destruct Hf as (_ & (_ & _ & _ & [? ?] & _) & _)).
  destruct b.
  { split; [apply Hf'|]. split; [apply (erel_refl e (f_evm f)), Hf|]. split; [simpl; lia|done]. }
  apply owp_bind. eapply owp_mono; [by apply (step_ok n R f1)|].
  intros [[ret err|] f2] (Hv2 & Hr2 & _ & Hg2 & Hnext).
  - split; [done|]. split; [done|]. split; [done|done].
  - destruct Hnext as [Hf2 Hlt]. simpl in Hlt, Hg2.
    eapply owp_mono; [apply (IH f2 Hf2); lia|].
    intros [[ret err] f3] (Hv3 & Hr3 & Hg3 & Hret). split; [done|].
    split; [by eapply erel_trans; [exact Hr2|]|]. split; [lia|done].
Qed.

(** ** The interpreter *)

(** Fuel above the gas is enough for any run. *)
Lemma Run_ok fuel : Runner_ok e (Z.of_nat fuel) (Run e fuel).
Proof.
  induction fuel as [|fuel IH]; intros v c input Hv Hc Hi Hg.
  { destruct Hc as (_ & _ & _ & ? & _). lia. }
  cbn [Run]. unfold Run_body.
  assert (Hgas : 0 <= c_Gas c < 2 ^ 62) by apply Hc.
  pose proof Hv as (Hs & Hd & _ & Ht).
  destruct (_ =? 0).
  { split; [done|]. split; [|split; [done|lia]].
    split; [by apply srel_refl|]. simpl. split; [lia|done]. }
  apply owp_bind. eapply owp_mono; [apply (loop_ok (Z.of_nat fuel)); [exact IH| |simpl; lia|simpl; lia]|].
  - split; [done|]. split.
    + destruct Hc as (? & _ & ? & ? & ?). by do 4 (split; [done|]).
    + split; [by apply Z.leb_le|]. split; [constructor|]. split; [by apply Z.leb_le|by split].
  - intros [[ret err] f'] (Hv' & (R' & D' & O') & Hg' & Hret). simpl in *.
    split; [by destruct Hv' as (? & ? & ? & ?)|]. split; [|done].
    split; [done|]. simpl. split; [lia|done].
Qed.
End RunSafe.

(** The fuel of the interpreter only bounds: a run that does not run out of
    fuel gives the same result with any larger amount. *)

Section RunFuel.
Context {S : Type} `{SDB : StateDB S} `{CR : Crypto}.
Context (e : Env).

(** ** Less and more defined outcomes *)

(** [o'] is [o] unless [o] has run out of fuel. *)
Definition ole {A} (o o' : outcome A) : Prop := o <> NoFuel -> o' = o.

Lemma ole_refl {A} (o : outcome A) : ole o o.
Proof. done. Qed.
Lemma ole_bind {A B} (o o' : outcome A) (k k' : A -> outcome B) :
  ole o o' -> (forall a, ole (k a) (k' a)) -> ole (outcome_bind o k) (outcome_bind o' k').
Proof.
  intros Ho Hk H. destruct o as [a| |]; [|by rewrite Ho|done]. rewrite Ho by done. by apply Hk.
Qed.

Definition mle {A} (m m' : M S A) : Prop := forall f, ole (m f) (m' f).
Lemma mle_refl {A} (m : M S A) : mle m m.
Proof. done. Qed.
Lemma mle_bind {A B} (m m' : M S A) (k k' : A -> M S B) :
  mle m m' -> (forall a, mle (k a) (k' a)) -> mle (bind m k) (bind m' k').
Proof.
  intros Hm Hk f H. unfold bind in *. specialize (Hm f). destruct (m f) as [[[?|a] f']| |]; try done;
    rewrite Hm by done; [done|by apply Hk|done].
Qed.
Lemma mle_liftO {A} (o o' : outcome A) : ole o o' -> mle (liftO o) (liftO o').
Proof. intros Ho f H. unfold liftO in *. by destruct o; [rewrite Ho|rewrite Ho|]. Qed.

Definition rle (R R' : Runner (S := S)) : Prop := forall v c input, ole (R v c input) (R' v c input).

(** ** Calls *)

Section Calls.
Context (R R' : Runner (S := S)) (HR : rle R R').

Lemma run_ole v c input : ole (run e R v c input) (run e R' v c input).
Proof. unfold run. destruct (c_CodeAddr c); [|apply HR]. by destruct (_ !! _). Qed.

Lemma Call_ole v caller addr input gas value :
  ole (Call e R v caller addr input gas value) (Call e R' v caller addr input gas value).
Proof.
  unfold Call. repeat case_match; try apply ole_refl; (apply ole_bind; [apply run_ole|done]).
Qed.
Lemma CallCode_ole v caller addr input gas value :
  ole (CallCode e R v caller addr input gas value) (CallCode e R' v caller addr input gas value).
Proof.
  unfold CallCode. repeat case_match; try apply ole_refl; (apply ole_bind; [apply run_ole|done]).
Qed.
Lemma DelegateCall_ole v caller addr input gas :
  ole (DelegateCall e R v caller addr input gas) (DelegateCall e R' v caller addr input gas).
Proof.
  unfold DelegateCall. repeat case_match; try apply ole_refl. apply ole_bind; [done|]. intros c.
  case_match. apply ole_bind; [apply run_ole|done].
Qed.
Lemma StaticCall_ole v caller addr input gas :
  ole (StaticCall e R v caller addr input gas) (StaticCall e R' v caller addr input gas).
Proof.
  unfold StaticCall. repeat case_match; try apply ole_refl; (apply ole_bind; [apply run_ole|done]).
Qed.
Lemma Create_ole v caller code gas value :
  ole (Create e R v caller code gas value) (Create e R' v caller code gas value).
Proof.
  unfold Create. repeat case_match; try apply ole_refl; (apply ole_bind; [apply run_ole|done]).
Qed.

(** ** Instructions *)

Definition xle (x : executionFunc (S := S)) : Prop := mle (x e R) (x e R').

Ltac mgo lem :=
  cbv beta zeta;
  repeat lazymatch goal with
  | |- mle (bind ?m _) (bind ?m _) => apply mle_bind; [apply mle_refl|intros ?; cbv beta zeta]
  | |- mle (bind (liftO _) _) _ => apply mle_bind; [apply mle_liftO, lem|intros ?; apply mle_refl]
  end.
Lemma opCall_xle : xle opCall.
Proof. unfold xle, opCall. mgo Call_ole. Qed.
Lemma opCallCode_xle : xle opCallCode.
Proof. unfold xle, opCallCode. mgo CallCode_ole. Qed.
Lemma opDelegateCall_xle : xle opDelegateCall.
Proof. unfold xle, opDelegateCall. mgo DelegateCall_ole. Qed.
Lemma opStaticCall_xle : xle opStaticCall.
Proof. unfold xle, opStaticCall. mgo StaticCall_ole. Qed.
Lemma opCreate_xle : xle opCreate.
Proof. unfold xle, opCreate. mgo Create_ole. Qed.

(** Every other instruction does not call. *)
Definition entry_xle (p : Z * operation S) : Prop := xle (execute p.2).

Lemma frontier_xle : Forall entry_xle frontier_entries.
Proof.
  unfold frontier_entries. repeat (apply Forall_app; split);
    (repeat (apply Forall_cons; split;
       [lazymatch goal with
        | |- context [opCreate] => apply opCreate_xle
        | |- context [opCall] => apply opCall_xle
        | |- context [opCallCode] => apply opCallCode_xle
        | |- _ => apply mle_refl
        end|]); constructor).
Qed.

Lemma InstructionSet_xle : map_Forall (fun _ o => xle (execute o)) (InstructionSet (S := S) e).
Proof.
  assert (Hf : map_Forall (fun _ o => xle (execute o)) (NewFrontierInstructionSet (S := S))).
  { intros c o Hl%elem_of_list_to_map_2. pose proof frontier_xle as H. rewrite Forall_forall in H.
    apply (H _ Hl). }
  assert (Hh : map_Forall (fun _ o => xle (execute o)) (NewHomesteadInstructionSet (S := S)))
    by (apply map_Forall_insert_2; [apply opDelegateCall_xle|done]).
  assert (Hb : map_Forall (fun _ o => xle (execute o)) (NewByzantiumInstructionSet (S := S)))
    by (do 3 (apply map_Forall_insert_2; [apply mle_refl|]);
        apply map_Forall_insert_2; [apply opStaticCall_xle|done]).
  unfold InstructionSet. repeat case_match; try done.
  do 3 (apply map_Forall_insert_2; [apply mle_refl|]). done.
Qed.

(** ** The loop *)

Lemma step_ole f : ole (step e R f) (step e R' f).
Proof.
  unfold step. apply ole_bind; [apply ole_refl|]. intros opcode.
  destruct (InstructionSet e !! opcode) as [o|] eqn:Eo; [|done].
  pose proof (InstructionSet_xle _ _ Eo) as Hx. cbv beta in Hx.
  destruct (negb _); [apply ole_refl|]. destruct (validateStack _ _); [apply ole_refl|].
  apply ole_bind; [apply ole_refl|]. intros [err|]; [apply ole_refl|]. apply ole_bind; [apply ole_refl|]. intros [err|ms]; [apply ole_refl|].
  apply ole_bind; [apply ole_refl|]. intros [cost f1]. unfold step_execute. cbn [fst snd].
  destruct cost as [err|cost]; [apply ole_refl|]. destruct (UseGas _ _) as [ok c]. destruct (negb ok); [apply ole_refl|].
  apply ole_bind; [apply Hx|intros; apply ole_refl].
Qed.

Lemma loop_ole n n' f : (n <= n')%nat -> ole (loop e R n f) (loop e R' n' f).
Proof.
  revert n' f. induction n as [|n IH]; intros n' f Hn; [by intros H|]. destruct n' as [|n']; [lia|].
  cbn [loop]. destruct (load_abort _) as [b v]. destruct b; [apply ole_refl|].
  apply ole_bind; [apply step_ole|]. intros [[ret err|] f']; [apply ole_refl|]. apply IH. lia.
Qed.
End Calls.

Lemma Run_ole n n' : (n <= n')%nat -> rle (Run e n) (Run e n').
Proof.
  revert n'. induction n as [|n IH]; intros n' Hn v c input; [by intros H|]. destruct n' as [|n']; [lia|].
  cbn [Run]. unfold Run_body. destruct (_ =? 0); [apply ole_refl|].
  apply ole_bind; [|intros; apply ole_refl]. apply loop_ole; [apply IH; lia|lia].
Qed.
End RunFuel.
