(* ===== verification/StateObject.v ===== *)
(** The journaled state of the node: core/state/state_object.go, journal.go
    and statedb.go.

    The tries and the contract-code store are parameters ([Database]).  A trie
    stores decoded values; errors of the underlying database, which the code
    memoizes in [dbErr], are not modelled.  A nil and an empty slice of code
    are the same value.  Objects are handled by value: the only pointer to an
    object outside [stateObjects] is the one a [resetObjectChange] keeps, and
    nothing changes that object. *)
From S2P Require Import Prelude BigMath StateSpec Vm.

(** core/state: [Account]; the code hash is kept as a [Hash]. *)
Record Account := mkAcct {
  acc_Nonce : Z;
  acc_Balance : Z;
  acc_Root : Hash;
  acc_CodeHash : Hash
}.

(** The interface core/state/database.go gives to the tries and the code. *)
Class Database := {
  AccountTrie : Type;
  AT_TryGet : AccountTrie -> Address -> option Account;
  AT_TryUpdate : AccountTrie -> Address -> Account -> AccountTrie;
  AT_TryDelete : AccountTrie -> Address -> AccountTrie;
  AT_Hash : AccountTrie -> Hash;
  StorageTrie : Type;
  ST_TryGet : StorageTrie -> Hash -> Hash;
  ST_TryUpdate : StorageTrie -> Hash -> Hash -> StorageTrie;
  ST_TryDelete : StorageTrie -> Hash -> StorageTrie;
  ST_Hash : StorageTrie -> Hash;
  OpenStorageTrie : Hash -> Hash -> StorageTrie;
  ContractCode : Hash -> Hash -> bytes;
  ContractCodeSize : Hash -> Hash -> Z
}.

Section StateObject.
Context `{DB : Database} `{CR : Crypto}.

Definition emptyCode : Hash := Keccak256Hash [].

(** ** state_object.go *)

Record stateObject := mkObject {
  so_address : Address;
  so_addrHash : Hash;
  so_data : Account;
  so_trie : option StorageTrie;
  so_code : option bytes;
  so_cachedStorage : gmap Hash Hash;
  so_dirtyStorage : gmap Hash Hash;
  so_dirtyCode : bool;
  so_suicided : bool;
  so_deleted : bool
}.

Definition set_data (d : Account) (o : stateObject) : stateObject :=
  {| so_address := so_address o; so_addrHash := so_addrHash o; so_data := d; so_trie := so_trie o;
     so_code := so_code o; so_cachedStorage := so_cachedStorage o; so_dirtyStorage := so_dirtyStorage o;
     so_dirtyCode := so_dirtyCode o; so_suicided := so_suicided o; so_deleted := so_deleted o |}.
Definition set_so_trie (t : StorageTrie) (o : stateObject) : stateObject :=
  {| so_address := so_address o; so_addrHash := so_addrHash o; so_data := so_data o; so_trie := Some t;
     so_code := so_code o; so_cachedStorage := so_cachedStorage o; so_dirtyStorage := so_dirtyStorage o;
     so_dirtyCode := so_dirtyCode o; so_suicided := so_suicided o; so_deleted := so_deleted o |}.
Definition set_so_code (c : option bytes) (dirty : bool) (o : stateObject) : stateObject :=
  {| so_address := so_address o; so_addrHash := so_addrHash o; so_data := so_data o; so_trie := so_trie o;
     so_code := c; so_cachedStorage := so_cachedStorage o; so_dirtyStorage := so_dirtyStorage o;
     so_dirtyCode := dirty; so_suicided := so_suicided o; so_deleted := so_deleted o |}.
Definition set_so_storage (cached dirty : gmap Hash Hash) (o : stateObject) : stateObject :=
  {| so_address := so_address o; so_addrHash := so_addrHash o; so_data := so_data o; so_trie := so_trie o;
     so_code := so_code o; so_cachedStorage := cached; so_dirtyStorage := dirty;
     so_dirtyCode := so_dirtyCode o; so_suicided := so_suicided o; so_deleted := so_deleted o |}.
Definition set_so_suicided (b : bool) (o : stateObject) : stateObject :=
  {| so_address := so_address o; so_addrHash := so_addrHash o; so_data := so_data o; so_trie := so_trie o;
     so_code := so_code o; so_cachedStorage := so_cachedStorage o; so_dirtyStorage := so_dirtyStorage o;
     so_dirtyCode := so_dirtyCode o; so_suicided := b; so_deleted := so_deleted o |}.
Definition set_so_deleted (b : bool) (o : stateObject) : stateObject :=
  {| so_address := so_address o; so_addrHash := so_addrHash o; so_data := so_data o; so_trie := so_trie o;
     so_code := so_code o; so_cachedStorage := so_cachedStorage o; so_dirtyStorage := so_dirtyStorage o;
     so_dirtyCode := so_dirtyCode o; so_suicided := so_suicided o; so_deleted := b |}.

Definition so_empty (o : stateObject) : bool :=
  (acc_Nonce (so_data o) =? 0) && (Sign (acc_Balance (so_data o)) =? 0) &&
  (acc_CodeHash (so_data o) =? emptyCode)%N.

Definition newObject (address : Address) (data : Account) : stateObject :=
  {| so_address := address; so_addrHash := Keccak256Hash (Address_Bytes address); so_data := data;
     so_trie := None; so_code := None; so_cachedStorage := ∅; so_dirtyStorage := ∅;
     so_dirtyCode := false; so_suicided := false; so_deleted := false |}.

(** [Account{}], completed by [newObject]. *)
Definition zeroAccount : Account :=
  {| acc_Nonce := 0; acc_Balance := 0; acc_Root := 0%N; acc_CodeHash := emptyCode |}.

Definition getTrie (o : stateObject) : StorageTrie * stateObject :=
  match so_trie o with
  | Some t => (t, o)
  | None => let t := OpenStorageTrie (so_addrHash o) (acc_Root (so_data o)) in (t, set_so_trie t o)
  end.

Definition so_GetState (key : Hash) (o : stateObject) : Hash * stateObject :=
  match so_cachedStorage o !! key with
  | Some value => (value, o)
  | None =>
      let '(t, o) := getTrie o in
      let value := ST_TryGet t key in
      (value, set_so_storage (<[key := value]> (so_cachedStorage o)) (so_dirtyStorage o) o)
  end.

Definition so_setState (key value : Hash) (o : stateObject) : stateObject :=
  set_so_storage (<[key := value]> (so_cachedStorage o)) (<[key := value]> (so_dirtyStorage o)) o.

Definition so_setBalance (amount : Z) (o : stateObject) : stateObject :=
  set_data {| acc_Nonce := acc_Nonce (so_data o); acc_Balance := amount;
              acc_Root := acc_Root (so_data o); acc_CodeHash := acc_CodeHash (so_data o) |} o.
Definition so_setNonce (nonce : Z) (o : stateObject) : stateObject :=
  set_data {| acc_Nonce := nonce; acc_Balance := acc_Balance (so_data o);
              acc_Root := acc_Root (so_data o); acc_CodeHash := acc_CodeHash (so_data o) |} o.

(** A slice as a field that is nil when empty. *)
Definition nil_or (c : bytes) : option bytes := match c with [] => None | _ => Some c end.

Definition so_Code (o : stateObject) : bytes * stateObject :=
  match so_code o with
  | Some c => (c, o)
  | None =>
      if (acc_CodeHash (so_data o) =? emptyCode)%N then ([], o)
      else let code := ContractCode (so_addrHash o) (acc_CodeHash (so_data o)) in
           (code, set_so_code (nil_or code) (so_dirtyCode o) o)
  end.

Definition so_setCode (codeHash : Hash) (code : bytes) (o : stateObject) : stateObject :=
  set_so_code (nil_or code) true
    (set_data {| acc_Nonce := acc_Nonce (so_data o); acc_Balance := acc_Balance (so_data o);
                 acc_Root := acc_Root (so_data o); acc_CodeHash := codeHash |} o).

(** ** journal.go *)

Inductive journalEntry :=
| createObjectChange (account : Address)
| resetObjectChange (prev : stateObject)
| suicideChange (account : Address) (prev : bool) (prevbalance : Z)
| balanceChange (account : Address) (prev : Z)
| nonceChange (account : Address) (prev : Z)
| storageChange (account : Address) (key prevalue : Hash)
| codeChange (account : Address) (prevcode : bytes) (prevhash : Hash)
| refundChange (prev : Z)
| addLogChange (txhash : Hash)
| addPreimageChange (hash : Hash)
| touchChange (account : Address).

Definition dirtied (en : journalEntry) : option Address :=
  match en with
  | createObjectChange a | suicideChange a _ _ | balanceChange a _ | nonceChange a _
  | storageChange a _ _ | codeChange a _ _ | touchChange a => Some a
  | resetObjectChange _ | refundChange _ | addLogChange _ | addPreimageChange _ => None
  end.

Record journal := mkJournal { entries : list journalEntry; dirties : gmap Address Z }.
Definition newJournal : journal := {| entries := []; dirties := ∅ |}.

(** [j.dirties[addr]++]; a missing key counts as zero. *)
Definition bump (a : Address) (n : Z) (d : gmap Address Z) : gmap Address Z :=
  <[a := default 0 (d !! a) + n]> d.
Definition journal_append (en : journalEntry) (j : journal) : journal :=
  {| entries := entries j ++ [en];
     dirties := match dirtied en with Some a => bump a 1 (dirties j) | None => dirties j end |}.
Definition journal_dirty (a : Address) (j : journal) : journal :=
  {| entries := entries j; dirties := bump a 1 (dirties j) |}.

(** ** statedb.go *)

Record revision := mkRevision { rev_id : Z; rev_journalIndex : nat }.

Record Statedb := mkStatedb {
  sd_trie : AccountTrie;
  sd_stateObjects : gmap Address stateObject;
  sd_stateObjectsDirty : gset Address;
  sd_refund : Z;
  sd_thash : Hash;
  sd_bhash : Hash;
  sd_txIndex : Z;
  sd_logs : gmap Hash (list Log);
  sd_logSize : Z;
  sd_preimages : gmap Hash bytes;
  sd_journal : journal;
  sd_validRevisions : list revision;
  sd_nextRevisionId : Z
}.
End StateObject.
