(* ===== verification/Statedb.v ===== *)
(** The operations of [StateDB]: core/state/statedb.go, with the reverting of
    journal.go. *)
From S2P Require Import Prelude BigMath StateSpec Vm StateObject.

Section Statedb.
Context `{DB : Database} `{CR : Crypto}.

(** ** Field updates *)

Definition with_objects (m : gmap Address stateObject) (s : Statedb) : Statedb :=
  {| sd_trie := sd_trie s; sd_stateObjects := m; sd_stateObjectsDirty := sd_stateObjectsDirty s;
     sd_refund := sd_refund s; sd_thash := sd_thash s; sd_bhash := sd_bhash s; sd_txIndex := sd_txIndex s;
     sd_logs := sd_logs s; sd_logSize := sd_logSize s; sd_preimages := sd_preimages s;
     sd_journal := sd_journal s; sd_validRevisions := sd_validRevisions s;
     sd_nextRevisionId := sd_nextRevisionId s |}.
Definition with_dirty (d : gset Address) (s : Statedb) : Statedb :=
  {| sd_trie := sd_trie s; sd_stateObjects := sd_stateObjects s; sd_stateObjectsDirty := d;
     sd_refund := sd_refund s; sd_thash := sd_thash s; sd_bhash := sd_bhash s; sd_txIndex := sd_txIndex s;
     sd_logs := sd_logs s; sd_logSize := sd_logSize s; sd_preimages := sd_preimages s;
     sd_journal := sd_journal s; sd_validRevisions := sd_validRevisions s;
     sd_nextRevisionId := sd_nextRevisionId s |}.
Definition with_refund (g : Z) (s : Statedb) : Statedb :=
  {| sd_trie := sd_trie s; sd_stateObjects := sd_stateObjects s;
     sd_stateObjectsDirty := sd_stateObjectsDirty s;
     sd_refund := g; sd_thash := sd_thash s; sd_bhash := sd_bhash s; sd_txIndex := sd_txIndex s;
     sd_logs := sd_logs s; sd_logSize := sd_logSize s; sd_preimages := sd_preimages s;
     sd_journal := sd_journal s; sd_validRevisions := sd_validRevisions s;
     sd_nextRevisionId := sd_nextRevisionId s |}.
Definition with_logs (l : gmap Hash (list Log)) (n : Z) (s : Statedb) : Statedb :=
  {| sd_trie := sd_trie s; sd_stateObjects := sd_stateObjects s;
     sd_stateObjectsDirty := sd_stateObjectsDirty s;
     sd_refund := sd_refund s; sd_thash := sd_thash s; sd_bhash := sd_bhash s; sd_txIndex := sd_txIndex s;
     sd_logs := l; sd_logSize := n; sd_preimages := sd_preimages s;
     sd_journal := sd_journal s; sd_validRevisions := sd_validRevisions s;
     sd_nextRevisionId := sd_nextRevisionId s |}.
Definition with_preimages (p : gmap Hash bytes) (s : Statedb) : Statedb :=
  {| sd_trie := sd_trie s; sd_stateObjects := sd_stateObjects s;
     sd_stateObjectsDirty := sd_stateObjectsDirty s;
     sd_refund := sd_refund s; sd_thash := sd_thash s; sd_bhash := sd_bhash s; sd_txIndex := sd_txIndex s;
     sd_logs := sd_logs s; sd_logSize := sd_logSize s; sd_preimages := p;
     sd_journal := sd_journal s; sd_validRevisions := sd_validRevisions s;
     sd_nextRevisionId := sd_nextRevisionId s |}.
Definition with_journal (j : journal) (s : Statedb) : Statedb :=
  {| sd_trie := sd_trie s; sd_stateObjects := sd_stateObjects s;
     sd_stateObjectsDirty := sd_stateObjectsDirty s;
     sd_refund := sd_refund s; sd_thash := sd_thash s; sd_bhash := sd_bhash s; sd_txIndex := sd_txIndex s;
     sd_logs := sd_logs s; sd_logSize := sd_logSize s; sd_preimages := sd_preimages s;
     sd_journal := j; sd_validRevisions := sd_validRevisions s;
     sd_nextRevisionId := sd_nextRevisionId s |}.
Definition with_revisions (r : list revision) (n : Z) (s : Statedb) : Statedb :=
  {| sd_trie := sd_trie s; sd_stateObjects := sd_stateObjects s;
     sd_stateObjectsDirty := sd_stateObjectsDirty s;
     sd_refund := sd_refund s; sd_thash := sd_thash s; sd_bhash := sd_bhash s; sd_txIndex := sd_txIndex s;
     sd_logs := sd_logs s; sd_logSize := sd_logSize s; sd_preimages := sd_preimages s;
     sd_journal := sd_journal s; sd_validRevisions := r; sd_nextRevisionId := n |}.

(** [New], on the trie that [OpenTrie] gave for the root. *)
Definition sd_New (tr : AccountTrie) : Statedb :=
  {| sd_trie := tr; sd_stateObjects := ∅; sd_stateObjectsDirty := ∅; sd_refund := 0;
     sd_thash := 0%N; sd_bhash := 0%N; sd_txIndex := 0; sd_logs := ∅; sd_logSize := 0;
     sd_preimages := ∅; sd_journal := newJournal; sd_validRevisions := []; sd_nextRevisionId := 0 |}.

(** [Prepare] *)
Definition sd_Prepare (thash bhash : Hash) (ti : Z) (s : Statedb) : Statedb :=
  {| sd_trie := sd_trie s; sd_stateObjects := sd_stateObjects s;
     sd_stateObjectsDirty := sd_stateObjectsDirty s; sd_refund := sd_refund s; sd_thash := thash;
     sd_bhash := bhash; sd_txIndex := ti; sd_logs := sd_logs s; sd_logSize := sd_logSize s;
     sd_preimages := sd_preimages s; sd_journal := sd_journal s;
     sd_validRevisions := sd_validRevisions s; sd_nextRevisionId := sd_nextRevisionId s |}.

(** [self.journal.append(en)] *)
Definition log_entry (en : journalEntry) (s : Statedb) : Statedb :=
  with_journal (journal_append en (sd_journal s)) s.

(** ** Objects *)

Definition setStateObject (o : stateObject) (s : Statedb) : Statedb :=
  with_objects (<[so_address o := o]> (sd_stateObjects s)) s.

Definition getStateObject (addr : Address) (s : Statedb) : option stateObject * Statedb :=
  match sd_stateObjects s !! addr with
  | Some obj => (if so_deleted obj then None else Some obj, s)
  | None =>
      match AT_TryGet (sd_trie s) addr with
      | None => (None, s)
      | Some data => let obj := newObject addr data in (Some obj, setStateObject obj s)
      end
  end.

(** The second result is the previous object. *)
Definition createObject (addr : Address) (s : Statedb) : stateObject * option stateObject * Statedb :=
  let '(prev, s) := getStateObject addr s in
  let newobj := so_setNonce 0 (newObject addr zeroAccount) in
  let s := match prev with
           | None => log_entry (createObjectChange addr) s
           | Some p => log_entry (resetObjectChange p) s
           end in
  (newobj, prev, setStateObject newobj s).

Definition GetOrNewStateObject (addr : Address) (s : Statedb) : stateObject * Statedb :=
  let '(obj, s) := getStateObject addr s in
  match obj with
  | Some o => if so_deleted o then let '(o, _, s) := createObject addr s in (o, s) else (o, s)
  | None => let '(o, _, s) := createObject addr s in (o, s)
  end.

Definition sd_CreateAccount (addr : Address) (s : Statedb) : Statedb :=
  let '(new, prev, s) := createObject addr s in
  match prev with
  | Some p => setStateObject (so_setBalance (acc_Balance (so_data p)) new) s
  | None => s
  end.

(** ** Getters *)

Definition sd_Exist (addr : Address) (s : Statedb) : bool * Statedb :=
  let '(o, s) := getStateObject addr s in (match o with Some _ => true | None => false end, s).
Definition sd_Empty (addr : Address) (s : Statedb) : bool * Statedb :=
  let '(o, s) := getStateObject addr s in (match o with Some o => so_empty o | None => true end, s).
Definition sd_GetBalance (addr : Address) (s : Statedb) : Z * Statedb :=
  let '(o, s) := getStateObject addr s in
  (match o with Some o => acc_Balance (so_data o) | None => 0 end, s).
Definition sd_GetNonce (addr : Address) (s : Statedb) : Z * Statedb :=
  let '(o, s) := getStateObject addr s in
  (match o with Some o => acc_Nonce (so_data o) | None => 0 end, s).
Definition sd_GetCode (addr : Address) (s : Statedb) : bytes * Statedb :=
  let '(o, s) := getStateObject addr s in
  match o with
  | Some o => let '(c, o) := so_Code o in (c, setStateObject o s)
  | None => ([], s)
  end.
Definition sd_GetCodeSize (addr : Address) (s : Statedb) : Z * Statedb :=
  let '(o, s) := getStateObject addr s in
  (match o with
   | None => 0
   | Some o => match so_code o with
               | Some c => len c
               | None => ContractCodeSize (so_addrHash o) (acc_CodeHash (so_data o))
               end
   end, s).
Definition sd_GetCodeHash (addr : Address) (s : Statedb) : Hash * Statedb :=
  let '(o, s) := getStateObject addr s in
  (match o with Some o => acc_CodeHash (so_data o) | None => 0%N end, s).
Definition sd_GetState (addr : Address) (key : Hash) (s : Statedb) : Hash * Statedb :=
  let '(o, s) := getStateObject addr s in
  match o with
  | Some o => let '(v, o) := so_GetState key o in (v, setStateObject o s)
  | None => (0%N, s)
  end.
Definition sd_HasSuicided (addr : Address) (s : Statedb) : bool * Statedb :=
  let '(o, s) := getStateObject addr s in
  (match o with Some o => so_suicided o | None => false end, s).

(** ** Setters *)

Definition so_SetBalance (amount : Z) (o : stateObject) (s : Statedb) : Statedb :=
  let s := log_entry (balanceChange (so_address o) (acc_Balance (so_data o))) s in
  setStateObject (so_setBalance amount o) s.

Definition ripemd : Address := 3%N.
Definition so_touch (o : stateObject) (s : Statedb) : Statedb :=
  let s := log_entry (touchChange (so_address o)) s in
  if decide (so_address o = ripemd) then with_journal (journal_dirty (so_address o) (sd_journal s)) s
  else s.

Definition so_AddBalance (amount : Z) (o : stateObject) (s : Statedb) : Statedb :=
  if Sign amount =? 0 then if so_empty o then so_touch o s else s
  else so_SetBalance (acc_Balance (so_data o) + amount) o s.
Definition so_SubBalance (amount : Z) (o : stateObject) (s : Statedb) : Statedb :=
  if Sign amount =? 0 then s else so_SetBalance (acc_Balance (so_data o) - amount) o s.

Definition sd_AddBalance (addr : Address) (amount : Z) (s : Statedb) : Statedb :=
  let '(o, s) := GetOrNewStateObject addr s in so_AddBalance amount o s.
Definition sd_SubBalance (addr : Address) (amount : Z) (s : Statedb) : Statedb :=
  let '(o, s) := GetOrNewStateObject addr s in so_SubBalance amount o s.
Definition sd_SetBalance (addr : Address) (amount : Z) (s : Statedb) : Statedb :=
  let '(o, s) := GetOrNewStateObject addr s in so_SetBalance amount o s.
Definition sd_SetNonce (addr : Address) (nonce : Z) (s : Statedb) : Statedb :=
  let '(o, s) := GetOrNewStateObject addr s in
  let s := log_entry (nonceChange (so_address o) (acc_Nonce (so_data o))) s in
  setStateObject (so_setNonce nonce o) s.
Definition sd_SetCode (addr : Address) (code : bytes) (s : Statedb) : Statedb :=
  let '(o, s) := GetOrNewStateObject addr s in
  let '(prevcode, o) := so_Code o in
  let s := log_entry (codeChange (so_address o) prevcode (acc_CodeHash (so_data o))) s in
  setStateObject (so_setCode (Keccak256Hash code) code o) s.
Definition sd_SetState (addr : Address) (key value : Hash) (s : Statedb) : Statedb :=
  let '(o, s) := GetOrNewStateObject addr s in
  let '(prevalue, o) := so_GetState key o in
  let s := log_entry (storageChange (so_address o) key prevalue) s in
  setStateObject (so_setState key value o) s.
Definition sd_Suicide (addr : Address) (s : Statedb) : bool * Statedb :=
  let '(o, s) := getStateObject addr s in
  match o with
  | None => (false, s)
  | Some o =>
      let s := log_entry (suicideChange addr (so_suicided o) (acc_Balance (so_data o))) s in
      (true, setStateObject (so_setBalance 0 (set_so_suicided true o)) s)
  end.

Definition sd_AddRefund (gas : Z) (s : Statedb) : Statedb :=
  let s := log_entry (refundChange (sd_refund s)) s in with_refund (u64 (sd_refund s + gas)) s.
Definition sd_AddLog (l : Log) (s : Statedb) : Statedb :=
  let s := log_entry (addLogChange (sd_thash s)) s in
  let l := {| log_Address := log_Address l; log_Topics := log_Topics l; log_Data := log_Data l;
              log_BlockNumber := log_BlockNumber l; log_TxHash := sd_thash s;
              log_TxIndex := u64 (sd_txIndex s); log_BlockHash := sd_bhash s; log_Index := sd_logSize s |} in
  with_logs (<[sd_thash s := default [] (sd_logs s !! sd_thash s) ++ [l]]> (sd_logs s))
            (u64 (sd_logSize s + 1)) s.
Definition sd_AddPreimage (hash : Hash) (preimage : bytes) (s : Statedb) : Statedb :=
  match sd_preimages s !! hash with
  | Some _ => s
  | None =>
      let s := log_entry (addPreimageChange hash) s in
      with_preimages (<[hash := preimage]> (sd_preimages s)) s
  end.

(** ** Snapshots *)

(** Apply [g] to the object at [addr]; a nil object is dereferenced. *)
Definition on_object (addr : Address) (g : stateObject -> stateObject) (s : Statedb) : outcome Statedb :=
  let '(o, s) := getStateObject addr s in
  match o with
  | Some o => Done (setStateObject (g o) s)
  | None => GoPanic
  end.

Definition entry_revert (en : journalEntry) (s : Statedb) : outcome Statedb :=
  match en with
  | createObjectChange a =>
      Done (with_dirty (sd_stateObjectsDirty s ∖ {[a]}) (with_objects (delete a (sd_stateObjects s)) s))
  | resetObjectChange prev => Done (setStateObject prev s)
  | suicideChange a prev prevbalance =>
      let '(o, s) := getStateObject a s in
      Done (match o with
            | Some o => setStateObject (so_setBalance prevbalance (set_so_suicided prev o)) s
            | None => s
            end)
  | balanceChange a prev => on_object a (so_setBalance prev) s
  | nonceChange a prev => on_object a (so_setNonce prev) s
  | codeChange a prevcode prevhash => on_object a (so_setCode prevhash prevcode) s
  | storageChange a key prevalue => on_object a (so_setState key prevalue) s
  | refundChange prev => Done (with_refund prev s)
  | addLogChange txhash =>
      let logs := default [] (sd_logs s !! txhash) in
      if (length logs =? 1)%nat
      then Done (with_logs (delete txhash (sd_logs s)) (u64 (sd_logSize s - 1)) s)
      else let* l := slice logs 0 (len logs - 1) in
           Done (with_logs (<[txhash := l]> (sd_logs s)) (u64 (sd_logSize s - 1)) s)
  | addPreimageChange hash => Done (with_preimages (delete hash (sd_preimages s)) s)
  | touchChange _ => Done s
  end.

(** [if j.dirties[*addr]--; j.dirties[*addr] == 0 { delete(j.dirties, *addr) }] *)
Definition undirty (en : journalEntry) (d : gmap Address Z) : gmap Address Z :=
  match dirtied en with
  | None => d
  | Some a =>
      let d := bump a (-1) d in
      if default 0 (d !! a) =? 0 then delete a d else d
  end.

(** The loop of [journal.revert] over the entries to undo, latest first. *)
Fixpoint revert_entries (ens : list journalEntry) (s : Statedb) : outcome Statedb :=
  match ens with
  | [] => Done s
  | en :: ens =>
      let* s := entry_revert en s in
      let j := sd_journal s in
      let s := with_journal {| entries := entries j; dirties := undirty en (dirties j) |} s in
      revert_entries ens s
  end.
Definition journal_revert (snapshot : nat) (s : Statedb) : outcome Statedb :=
  let* s := revert_entries (rev (drop snapshot (entries (sd_journal s)))) s in
  let j := sd_journal s in
  if (snapshot <=? length (entries j))%nat
  then Done (with_journal {| entries := take snapshot (entries j); dirties := dirties j |} s)
  else GoPanic.

Definition sd_Snapshot (s : Statedb) : Z * Statedb :=
  let id := sd_nextRevisionId s in
  (id, with_revisions
         (sd_validRevisions s ++ [{| rev_id := id; rev_journalIndex := length (entries (sd_journal s)) |}])
         (id + 1) s).

(** [sort.Search(n, f)]: binary search in [i, j). *)
Fixpoint sort_Search_loop (fuel : nat) (f : nat -> bool) (i j : nat) : outcome nat :=
  if (i <? j)%nat then
    match fuel with
    | O => NoFuel
    | S fuel =>
        let h := ((i + j) / 2)%nat in
        if negb (f h) then sort_Search_loop fuel f (h + 1) j else sort_Search_loop fuel f i h
    end
  else Done i.
Definition sort_Search (n : nat) (f : nat -> bool) : outcome nat := sort_Search_loop n f 0 n.

Definition sd_RevertToSnapshot (revid : Z) (s : Statedb) : outcome Statedb :=
  let revs := sd_validRevisions s in
  let* idx := sort_Search (length revs)
                (fun i => match revs !! i with Some r => revid <=? rev_id r | None => true end) in
  match revs !! idx with
  | None => GoPanic
  | Some r =>
      if negb (rev_id r =? revid) then GoPanic
      else
        let* s := journal_revert (rev_journalIndex r) s in
        Done (with_revisions (take idx (sd_validRevisions s)) (sd_nextRevisionId s) s)
  end.

#[export] Instance Statedb_StateDB : StateDB Statedb := {|
  CreateAccount := sd_CreateAccount;
  SubBalance := sd_SubBalance;
  AddBalance := sd_AddBalance;
  GetBalance := sd_GetBalance;
  GetNonce := sd_GetNonce;
  SetNonce := sd_SetNonce;
  GetCodeHash := sd_GetCodeHash;
  GetCode := sd_GetCode;
  SetCode := sd_SetCode;
  GetCodeSize := sd_GetCodeSize;
  AddRefund := sd_AddRefund;
  GetRefund := sd_refund;
  GetState := sd_GetState;
  SetState := sd_SetState;
  Suicide := sd_Suicide;
  HasSuicided := sd_HasSuicided;
  Exist := sd_Exist;
  Empty := sd_Empty;
  RevertToSnapshot := sd_RevertToSnapshot;
  Snapshot := sd_Snapshot;
  AddLog := sd_AddLog;
  AddPreimage := sd_AddPreimage
|}.
End Statedb.
