(* ===== verification/StateFinal.v ===== *)
(** The end of a transaction and of a block: writing the cached objects into
    the tries.  The rest of core/state/statedb.go and state_object.go.

    [Commit] writes to the key-value store of the node; the model returns the
    writes.  Errors of the stores are not modelled; that an account with a
    negative balance has no encoding is. *)
From S2P Require Import Prelude BigMath StateSpec Vm StateObject Statedb.

(** What [Commit] puts into the store: code, and the tries under their roots. *)
Inductive dbWrite `{DB : Database} :=
| WriteCode (hash : Hash) (code : bytes)
| WriteStorage (root : Hash) (t : StorageTrie)
| WriteAccounts (root : Hash) (t : AccountTrie).

Section StateFinal.
Context `{DB : Database} `{CR : Crypto} {RO : RangeOrder}.

(** ** state_object.go *)

(** One iteration of the loop of [updateTrie]. *)
Definition flush_slot (tr : StorageTrie) (kv : Hash * Hash) : StorageTrie :=
  if (kv.2 =? 0)%N then ST_TryDelete tr kv.1 else ST_TryUpdate tr kv.1 kv.2.

Definition updateTrie (o : stateObject) : StorageTrie * stateObject :=
  let '(tr, o) := getTrie o in
  let tr := foldl flush_slot tr (range (so_dirtyStorage o)) in
  (tr, set_so_trie tr (set_so_storage (so_cachedStorage o) ∅ o)).

Definition set_root (root : Hash) (o : stateObject) : stateObject :=
  set_data {| acc_Nonce := acc_Nonce (so_data o); acc_Balance := acc_Balance (so_data o);
              acc_Root := root; acc_CodeHash := acc_CodeHash (so_data o) |} o.

Definition updateRoot (o : stateObject) : stateObject :=
  let '(tr, o) := updateTrie o in set_root (ST_Hash tr) o.

Definition CommitTrie (o : stateObject) : list dbWrite * stateObject :=
  let '(tr, o) := updateTrie o in ([WriteStorage (ST_Hash tr) tr], set_root (ST_Hash tr) o).

Definition deepCopy (o : stateObject) : stateObject :=
  let o' := newObject (so_address o) (so_data o) in
  let o' := match so_trie o with Some t => set_so_trie t o' | None => o' end in
  let o' := set_so_storage (so_dirtyStorage o) (so_dirtyStorage o) (set_so_code (so_code o) (so_dirtyCode o) o') in
  set_so_deleted (so_deleted o) (set_so_suicided (so_suicided o) o').

(** ** statedb.go *)

Definition with_trie (t : AccountTrie) (s : Statedb) : Statedb :=
  {| sd_trie := t; sd_stateObjects := sd_stateObjects s; sd_stateObjectsDirty := sd_stateObjectsDirty s;
     sd_refund := sd_refund s; sd_thash := sd_thash s; sd_bhash := sd_bhash s; sd_txIndex := sd_txIndex s;
     sd_logs := sd_logs s; sd_logSize := sd_logSize s; sd_preimages := sd_preimages s;
     sd_journal := sd_journal s; sd_validRevisions := sd_validRevisions s;
     sd_nextRevisionId := sd_nextRevisionId s |}.

Definition sd_GetLogs (hash : Hash) (s : Statedb) : list Log := default [] (sd_logs s !! hash).

(** [rlp.EncodeToBytes] fails for a negative big integer, and only then for an
    account; the code panics. *)
Definition updateStateObject (o : stateObject) (s : Statedb) : outcome Statedb :=
  if acc_Balance (so_data o) <? 0 then GoPanic
  else Done (with_trie (AT_TryUpdate (sd_trie s) (so_address o) (so_data o)) s).

(** The object is marked where it is kept: [stateObjects]. *)
Definition deleteStateObject (o : stateObject) (s : Statedb) : Statedb :=
  let s := setStateObject (set_so_deleted true o) s in
  with_trie (AT_TryDelete (sd_trie s) (so_address o)) s.

Definition clearJournalAndRefund (s : Statedb) : Statedb :=
  with_refund 0 (with_revisions [] (sd_nextRevisionId s) (with_journal newJournal s)).

(** One iteration of the loop of [Finalise]. *)
Definition finalise_object (deleteEmptyObjects : bool) (s : Statedb) (addr : Address) : outcome Statedb :=
  match sd_stateObjects s !! addr with
  | None => Done s
  | Some o =>
      let* s :=
        if so_suicided o || (deleteEmptyObjects && so_empty o) then Done (deleteStateObject o s)
        else let o := updateRoot o in updateStateObject o (setStateObject o s) in
      Done (with_dirty ({[addr]} ∪ sd_stateObjectsDirty s) s)
  end.

Definition sd_Finalise (deleteEmptyObjects : bool) (s : Statedb) : outcome Statedb :=
  let* s := foldl (fun m addr => let* s := m in finalise_object deleteEmptyObjects s addr) (Done s)
              (range (dirties (sd_journal s))).*1 in
  Done (clearJournalAndRefund s).

Definition sd_IntermediateRoot (deleteEmptyObjects : bool) (s : Statedb) : outcome (Hash * Statedb) :=
  let* s := sd_Finalise deleteEmptyObjects s in Done (AT_Hash (sd_trie s), s).

(** [Commit] writes the code of an object that was set. *)
Definition commitCode (o : stateObject) : list dbWrite * stateObject :=
  match so_code o with
  | Some code => if so_dirtyCode o
                 then ([WriteCode (acc_CodeHash (so_data o)) code], set_so_code (so_code o) false o)
                 else ([], o)
  | None => ([], o)
  end.

(** One iteration of the loop of [Commit] over the objects. *)
Definition commit_object (deleteEmptyObjects : bool) (ws : list dbWrite * Statedb)
    (ao : Address * stateObject) : outcome (list dbWrite * Statedb) :=
  let '(w, s) := ws in let '(addr, o) := ao in
  let isDirty := bool_decide (addr ∈ sd_stateObjectsDirty s) in
  let* (w, s) :=
    if so_suicided o || (isDirty && deleteEmptyObjects && so_empty o) then Done (w, deleteStateObject o s)
    else if isDirty then
      let '(wc, o) := commitCode o in
      let '(wt, o) := CommitTrie o in
      let* s := updateStateObject o (setStateObject o s) in
      Done (w ++ wc ++ wt, s)
    else Done (w, s) in
  Done (w, with_dirty (sd_stateObjectsDirty s ∖ {[addr]}) s).

Definition sd_Commit (deleteEmptyObjects : bool) (s : Statedb) : outcome (Hash * list dbWrite * Statedb) :=
  let s := with_dirty (dom (dirties (sd_journal s)) ∪ sd_stateObjectsDirty s) s in
  let* (w, s) := foldl (fun m ao => let* ws := m in commit_object deleteEmptyObjects ws ao) (Done ([], s))
                   (range (sd_stateObjects s)) in
  let root := AT_Hash (sd_trie s) in
  Done (root, w ++ [WriteAccounts root (sd_trie s)], clearJournalAndRefund s).

(** The loops of [Copy]: first the objects of the journal that exist, then
    the dirty ones that are still missing.  A dirty address without an object
    would be a nil dereference. *)
Definition copy_dirty (objs : gmap Address stateObject) (acc : gmap Address stateObject) (addr : Address)
  : outcome (gmap Address stateObject) :=
  match acc !! addr with
  | Some _ => Done acc
  | None => match objs !! addr with
            | Some o => Done (<[addr := deepCopy o]> acc)
            | None => GoPanic
            end
  end.

Definition sd_Copy (s : Statedb) : outcome Statedb :=
  let objs := sd_stateObjects s in
  let copied := deepCopy <$> filter (fun p => is_Some (dirties (sd_journal s) !! p.1)) objs in
  let* copied := foldl (fun m addr => let* acc := m in copy_dirty objs acc addr) (Done copied)
                   (elements (sd_stateObjectsDirty s)) in
  Done {| sd_trie := sd_trie s; sd_stateObjects := copied; sd_stateObjectsDirty := dom copied;
          sd_refund := sd_refund s; sd_thash := 0%N; sd_bhash := 0%N; sd_txIndex := 0;
          sd_logs := sd_logs s; sd_logSize := sd_logSize s; sd_preimages := sd_preimages s;
          sd_journal := newJournal; sd_validRevisions := []; sd_nextRevisionId := 0 |}.

(** [Reset], on the trie that [OpenTrie] gave for the root. *)
Definition sd_Reset (tr : AccountTrie) (s : Statedb) : Statedb :=
  clearJournalAndRefund
    {| sd_trie := tr; sd_stateObjects := ∅; sd_stateObjectsDirty := ∅; sd_refund := sd_refund s;
       sd_thash := 0%N; sd_bhash := 0%N; sd_txIndex := 0; sd_logs := ∅; sd_logSize := 0;
       sd_preimages := ∅; sd_journal := sd_journal s; sd_validRevisions := sd_validRevisions s;
       sd_nextRevisionId := sd_nextRevisionId s |}.
End StateFinal.
