(* ===== verification/StateUndo.v ===== *)
(** Undoing journal entries, on worlds.

    [w_of s] is the world a state holds; [wundo en] what undoing the entry
    [en] does to a world; [jok] that every entry of a journal can be undone. *)
From S2P Require Import Prelude BigMath StateSpec StateRel Vm StateObject Statedb.

Section StateUndo.
Context `{DB : Database} `{CR : Crypto}.
Implicit Types (s : Statedb) (w : world) (o : stateObject) (en : journalEntry).

(** ** The world of a state *)

Definition obj_code o : bytes := (so_Code o).1.
Definition obj_storage o (k : Hash) : Hash := (so_GetState k o).1.
Definition abs_obj o : account :=
  {| a_nonce := acc_Nonce (so_data o); a_balance := acc_Balance (so_data o);
     a_codehash := acc_CodeHash (so_data o); a_code := obj_code o; a_storage := obj_storage o;
     a_suicided := so_suicided o |}.

Definition acct_of s (a : Address) : option account :=
  match sd_stateObjects s !! a with
  | Some o => if so_deleted o then None else Some (abs_obj o)
  | None => (fun d => abs_obj (newObject a d)) <$> AT_TryGet (sd_trie s) a
  end.

Definition w_of s : world :=
  {| w_acct := acct_of s; w_refund := sd_refund s; w_logs := fun h => default [] (sd_logs s !! h);
     w_logSize := sd_logSize s; w_preimages := fun h => sd_preimages s !! h;
     w_txhash := sd_thash s; w_bhash := sd_bhash s; w_txIndex := sd_txIndex s |}.

(** ** Undoing an entry *)

Definition del_acct (a : Address) w : world :=
  {| w_acct := fun b => if decide (b = a) then None else w_acct w b;
     w_refund := w_refund w; w_logs := w_logs w; w_logSize := w_logSize w;
     w_preimages := w_preimages w; w_txhash := w_txhash w; w_bhash := w_bhash w;
     w_txIndex := w_txIndex w |}.
Definition upd_some (a : Address) (g : account -> account) w : world :=
  match w_acct w a with Some o => set_acct a (g o) w | None => w end.
Definition set_w_refund (g : Z) w : world :=
  {| w_acct := w_acct w; w_refund := g; w_logs := w_logs w; w_logSize := w_logSize w;
     w_preimages := w_preimages w; w_txhash := w_txhash w; w_bhash := w_bhash w;
     w_txIndex := w_txIndex w |}.
Definition pop_log (h : Hash) w : world :=
  {| w_acct := w_acct w; w_refund := w_refund w;
     w_logs := fun h' => if decide (h' = h) then removelast (w_logs w h) else w_logs w h';
     w_logSize := u64 (w_logSize w - 1); w_preimages := w_preimages w; w_txhash := w_txhash w;
     w_bhash := w_bhash w; w_txIndex := w_txIndex w |}.
Definition del_preimage (h : Hash) w : world :=
  {| w_acct := w_acct w; w_refund := w_refund w; w_logs := w_logs w; w_logSize := w_logSize w;
     w_preimages := fun h' => if decide (h' = h) then None else w_preimages w h';
     w_txhash := w_txhash w; w_bhash := w_bhash w; w_txIndex := w_txIndex w |}.
Definition unsuicide (b : bool) (z : Z) (x : account) : account :=
  {| a_nonce := a_nonce x; a_balance := z; a_codehash := a_codehash x; a_code := a_code x;
     a_storage := a_storage x; a_suicided := b |}.

Definition wundo en w : world :=
  match en with
  | createObjectChange a => del_acct a w
  | resetObjectChange prev => set_acct (so_address prev) (abs_obj prev) w
  | suicideChange a prev z => upd_some a (unsuicide prev z) w
  | balanceChange a prev => upd_some a (set_balance prev) w
  | nonceChange a prev => upd_some a (set_nonce prev) w
  | storageChange a k v => upd_some a (set_storage k v) w
  | codeChange a c h => upd_some a (set_code h c) w
  | refundChange prev => set_w_refund prev w
  | addLogChange h => pop_log h w
  | addPreimageChange h => del_preimage h w
  | touchChange _ => w
  end.

(** Entries are given latest first. *)
Definition wundos (ens : list journalEntry) w : world := fold_left (fun w en => wundo en w) ens w.

(** Objects as [newObject] and the setters leave them: a storage slot that is
    cached and not dirty is what the storage trie has. *)
Definition obj_trie o : StorageTrie :=
  match so_trie o with Some t => t | None => OpenStorageTrie (so_addrHash o) (acc_Root (so_data o)) end.
Definition storage_ok o : Prop :=
  so_dirtyStorage o ⊆ so_cachedStorage o /\
  forall k v, so_cachedStorage o !! k = Some v -> so_dirtyStorage o !! k = None ->
    ST_TryGet (obj_trie o) k = v.
(** Code that is cached and not dirty is what the store has. *)
Definition code_ok o : Prop :=
  so_code o <> Some [] /\
  forall c, so_code o = Some c -> so_dirtyCode o = false ->
    acc_CodeHash (so_data o) <> emptyCode /\ ContractCode (so_addrHash o) (acc_CodeHash (so_data o)) = c.
Definition obj_wf (a : Address) o : Prop :=
  so_address o = a /\ so_addrHash o = Keccak256Hash (Address_Bytes a) /\ code_ok o /\ storage_ok o.

(** What undoing an entry needs; [tr] is the account trie. *)
Definition undoable (tr : AccountTrie) en w : Prop :=
  match en with
  | createObjectChange a => AT_TryGet tr a = None
  | resetObjectChange prev =>
      is_Some (w_acct w (so_address prev)) /\ so_deleted prev = false /\ obj_wf (so_address prev) prev
  | balanceChange a _ | nonceChange a _ | storageChange a _ _ | suicideChange a _ _ | touchChange a =>
      is_Some (w_acct w a)
  | codeChange a c h =>
      is_Some (w_acct w a) /\
      (c = [] -> h = emptyCode \/ ContractCode (Keccak256Hash (Address_Bytes a)) h = [])
  | addLogChange h => w_logs w h <> []
  | refundChange _ | addPreimageChange _ => True
  end.

Fixpoint jok (tr : AccountTrie) (ens : list journalEntry) w : Prop :=
  match ens with
  | [] => True
  | en :: ens => undoable tr en w /\ jok tr ens (wundo en w)
  end.

(** ** Equivalent worlds are undone alike *)

Lemma upd_some_proper a (g : account -> account) w w' :
  Proper ((≡) ==> (≡)) g -> w ≡ w' -> upd_some a g w ≡ upd_some a g w'.
Proof.
  intros Hg Hw. pose proof Hw as (Ha & ? & ? & ? & ? & ? & ? & ?).
  unfold upd_some. destruct (Ha a) as [x y Hxy|]; [|done].
  apply world_equiv_acct; try done. intros b. simpl.
  case_decide; [constructor; by apply Hg|apply Ha].
Qed.

#[export] Instance unsuicide_proper b z : Proper ((≡) ==> (≡)) (unsuicide b z).
Proof. apply account_update_proper. by intros x y (? & ? & ? & ? & ? & ?). Qed.
#[export] Instance wundo_proper en : Proper ((≡) ==> (≡)) (wundo en).
Proof.
  intros w w' Hw. pose proof Hw as (Ha & Hr & Hl & Hn & Hp & Ht & Hb & Hi).
  destruct en; simpl; try (apply upd_some_proper; [apply _|done]); try done;
    apply world_equiv_acct; simpl; try done; intros; try case_decide; try done;
    first [by apply Ha | congruence | by rewrite Hl | by rewrite Hn].
Qed.

Lemma is_Some_acct w w' a : w ≡ w' -> is_Some (w_acct w a) -> is_Some (w_acct w' a).
Proof. intros Hw. by destruct (acct_equiv w w' a Hw) as [? y ?|]; [exists y|]. Qed.

Lemma undoable_equiv tr en w w' : w ≡ w' -> undoable tr en w -> undoable tr en w'.
Proof.
  intros Hw. pose proof Hw as (_ & _ & Hl & _).
  destruct en; simpl; try done; try by apply is_Some_acct.
  - intros [? ?]. split; [by eapply is_Some_acct|done].
  - intros [? ?]. split; [by eapply is_Some_acct|done].
  - by rewrite Hl.
Qed.

Lemma jok_equiv tr ens : forall w w', w ≡ w' -> jok tr ens w -> jok tr ens w'.
Proof.
  induction ens as [|en ens IH]; intros w w' Hw; simpl; [done|].
  intros [? ?]. split; [by eapply undoable_equiv|]. eapply IH; [|done]. by rewrite Hw.
Qed.

#[export] Instance wundos_proper ens : Proper ((≡) ==> (≡)) (wundos ens).
Proof.
  intros w w' Hw. unfold wundos. revert w w' Hw.
  induction ens as [|en ens IH]; intros w w' Hw; simpl; [done|]. apply IH. by rewrite Hw.
Qed.

Lemma wundos_app l k w : wundos (l ++ k) w = wundos k (wundos l w).
Proof. apply fold_left_app. Qed.
Lemma jok_app tr l : forall k w, jok tr (l ++ k) w <-> jok tr l w /\ jok tr k (wundos l w).
Proof.
  induction l as [|en l IH]; intros k w; simpl; [tauto|]. rewrite IH. unfold wundos. simpl. tauto.
Qed.
End StateUndo.
