(* ===== verification/StateRefine.v ===== *)
(** The journaled [StateDB] implements the abstract machine of file
    StateSpec: every operation acts on the current world as specified, and
    reverting to a revision restores the world of that revision. *)
From S2P Require Import Prelude BigMath StateSpec StateRel Vm StateObject Statedb StateUndo.

(** Documented behaviour of the stores: the trie of the zero root is empty,
    code sizes are those of the code, and the empty hash has no code. *)
Class DatabaseSpec `{DB : Database} `{CR : Crypto} := {
  OpenStorageTrie_empty a k : ST_TryGet (OpenStorageTrie a 0%N) k = 0%N;
  ContractCodeSize_empty a : ContractCodeSize a emptyCode = 0;
  ContractCodeSize_len a h : h <> emptyCode -> ContractCodeSize a h = len (ContractCode a h)
}.

Section Refine.
Context `{DS : DatabaseSpec}.
Implicit Types (s : Statedb) (w : world) (o : stateObject) (en : journalEntry).

(** ** Invariant *)

(** The accounts that [Finalise] removes, of those it looks at. *)
Definition doomed (del : bool) (x : account) : bool := a_suicided x || (del && account_empty emptyCode x).
#[export] Instance doomed_proper del : Proper ((≡) ==> (=)) (doomed del).
Proof. intros x y (E1 & E2 & E3 & _ & _ & E4). unfold doomed, account_empty. by rewrite E1, E2, E3, E4. Qed.


(** An object marked as deleted is not in the trie and not in the journal;
    dirty addresses have objects. *)
Definition objs_ok s : Prop :=
  (forall a o, sd_stateObjects s !! a = Some o ->
     obj_wf a o /\
     (so_deleted o = true ->
        AT_TryGet (sd_trie s) a = None /\ dirties (sd_journal s) !! a = None /\ doomed true (abs_obj o) = true)) /\
  sd_stateObjectsDirty s ⊆ dom (sd_stateObjects s).

(** Revisions have increasing identifiers and do not go back in the
    journal. *)
Definition revs_ok (revs : list revision) (next : Z) (n : nat) : Prop :=
  (forall i j r r', (i < j)%nat -> revs !! i = Some r -> revs !! j = Some r' ->
     rev_id r < rev_id r' /\ (rev_journalIndex r <= rev_journalIndex r')%nat) /\
  (forall i r, revs !! i = Some r -> rev_id r < next /\ (rev_journalIndex r <= n)%nat).

Definition jentries s : list journalEntry := entries (sd_journal s).

(** The journal counts at least the entries it has for an account. *)
Definition touches (a : Address) (ens : list journalEntry) : Z :=
  len (filter (fun en => dirtied en = Some a) ens).
Definition counts_ok (ens : list journalEntry) (d : gmap Address Z) : Prop :=
  forall a, touches a ens <= default 0 (d !! a).

(** The world at a journal index. *)
Definition world_at s (n : nat) : world := wundos (rev (drop n (jentries s))) (w_of s).

(** The account the trie has, and that the world before the first entry of
    the journal agrees with the trie, but for the objects already marked. *)
Definition trie_acct s (a : Address) : option account :=
  (fun d => abs_obj (newObject a d)) <$> AT_TryGet (sd_trie s) a.
Definition based s : Prop :=
  forall a, a ∉ sd_stateObjectsDirty s -> w_acct (world_at s 0) a ≡ trie_acct s a.

(** [based] is part of the invariant when the flag is set: [Finalise] keeps
    the rest without further conditions. *)
Context {tracked : bool}.
Definition sd_inv s : Prop :=
  objs_ok s /\ jok (sd_trie s) (rev (jentries s)) (w_of s) /\
  revs_ok (sd_validRevisions s) (sd_nextRevisionId s) (length (jentries s)) /\ is_u64 (sd_logSize s) /\
  counts_ok (jentries s) (dirties (sd_journal s)) /\ (tracked = true -> based s).

Definition sd_abs s : astate :=
  {| cur := w_of s;
     saves := map (fun r => (rev_id r, world_at s (rev_journalIndex r))) (sd_validRevisions s) |}.

(** ** Journaled changes *)

(** [s'] extends [s] by journal entries whose undoing leads back. *)
Definition ext s s' : Prop :=
  objs_ok s' /\ sd_trie s' = sd_trie s /\ sd_validRevisions s' = sd_validRevisions s /\
  sd_nextRevisionId s' = sd_nextRevisionId s /\ is_u64 (sd_logSize s') /\
  sd_stateObjectsDirty s' = sd_stateObjectsDirty s /\
  (counts_ok (jentries s) (dirties (sd_journal s)) -> counts_ok (jentries s') (dirties (sd_journal s'))) /\
  exists news, jentries s' = jentries s ++ news /\
    jok (sd_trie s) (rev news) (w_of s') /\ wundos (rev news) (w_of s') ≡ w_of s.

Lemma ext_refl s : objs_ok s -> is_u64 (sd_logSize s) -> ext s s.
Proof. intros. repeat (split; [done|]). exists []. by rewrite app_nil_r. Qed.

Lemma touches_app a l l' : touches a (l ++ l') = touches a l + touches a l'.
Proof. unfold touches, len. rewrite filter_app, length_app. lia. Qed.
Lemma bump_lookup a n d b : default 0 (bump a n d !! b) = default 0 (d !! b) + (if decide (a = b) then n else 0).
Proof. unfold bump. rewrite lookup_insert. destruct (decide (a = b)) as [<-|]; simpl; lia. Qed.
Lemma touches_one en b : touches b [en] = if decide (dirtied en = Some b) then 1 else 0.
Proof. unfold touches. rewrite filter_cons. by case_decide. Qed.

Lemma counts_append en j :
  counts_ok (entries j) (dirties j) ->
  counts_ok (entries (journal_append en j)) (dirties (journal_append en j)).
Proof.
  intros C b. simpl. rewrite touches_app, touches_one. specialize (C b).
  destruct (dirtied en) as [a|]; [rewrite bump_lookup|]; repeat case_decide; simplify_eq; try done; lia.
Qed.

Lemma counts_dirty a j :
  counts_ok (entries j) (dirties j) -> counts_ok (entries (journal_dirty a j)) (dirties (journal_dirty a j)).
Proof. intros C b. simpl. specialize (C b). rewrite bump_lookup. case_decide; lia. Qed.

Lemma ext_trans s1 s2 s3 : ext s1 s2 -> ext s2 s3 -> ext s1 s3.
Proof.
  intros (_ & Et & Ev & En & _ & Ed & C & n1 & E1 & J1 & U1) (O & Et' & Ev' & En' & L & Ed' & C' & n2 & E2 & J2 & U2).
  split; [done|]. do 3 (split; [congruence|]). split; [done|]. split; [congruence|]. split; [auto|].
  exists (n1 ++ n2). split; [by rewrite E2, E1, app_assoc|]. rewrite rev_app_distr.
  rewrite Et in J2. split.
  - apply jok_app. split; [done|]. by eapply jok_equiv; [symmetry; exact U2|].
  - by rewrite wundos_app, U2.
Qed.

Lemma revisions_map_equiv (f g : revision -> Z * world) l :
  (forall r, r ∈ l -> f r ≡ g r) -> map f l ≡ map g l.
Proof.
  induction l as [|r l IH]; intros H; [done|]. simpl. constructor.
  - apply H. by left.
  - apply IH. intros. apply H. by right.
Qed.

Lemma revs_ok_index revs next n r : revs_ok revs next n -> r ∈ revs -> (rev_journalIndex r <= n)%nat.
Proof. intros [_ H] [i Hi]%list_elem_of_lookup. by eapply H. Qed.

Lemma revs_ok_mono revs next n n' : (n <= n')%nat -> revs_ok revs next n -> revs_ok revs next n'.
Proof. intros Hn [H1 H2]. split; [done|]. intros i r Hr. destruct (H2 i r Hr). split; [done|lia]. Qed.

(** A journaled change keeps the invariant and the saved worlds. *)
Lemma ext_inv s s' : sd_inv s -> ext s s' -> sd_inv s' /\ saves (sd_abs s') ≡ saves (sd_abs s).
Proof.
  intros (O & J & V & L & C & B) (O' & Et & Ev & En & L' & Ed & C' & news & E & Jn & U).
  split.
  - split; [done|]. rewrite Et, Ev, En. split; [|split; [|split; [done|split; [auto|]]]].
    + rewrite E, rev_app_distr. apply jok_app. split; [done|]. by eapply jok_equiv; [symmetry; exact U|].
    + eapply revs_ok_mono; [|exact V]. rewrite E, length_app. lia.
    + intros Ht a. unfold trie_acct. rewrite Ed, Et. intros Ha. rewrite <-(B Ht a Ha). apply acct_equiv.
      unfold world_at. rewrite E. simpl. by rewrite !drop_0, rev_app_distr, wundos_app, U.
  - simpl. rewrite Ev. apply revisions_map_equiv. intros r Hr. split; [done|]. simpl.
    unfold world_at. rewrite E. pose proof (revs_ok_index _ _ _ _ V Hr).
    rewrite drop_app_le, rev_app_distr, wundos_app by done. by rewrite U.
Qed.

Lemma ext_refines g s s' :
  sd_inv s -> ext s s' -> w_of s' ≡ g (w_of s) -> sd_inv s' /\ sd_abs s' ≡ on_cur g (sd_abs s).
Proof. intros I X W. destruct (ext_inv s s' I X) as [I' Es]. split; [done|]. by split. Qed.

Lemma ext_reads s s' :
  sd_inv s -> ext s s' -> w_of s' ≡ w_of s -> sd_inv s' /\ sd_abs s' ≡ sd_abs s.
Proof. intros I X W. destruct (ext_inv s s' I X) as [I' Es]. split; [done|]. by split. Qed.

(** ** Objects *)

Lemma set_acct_proper a x x' w w' : x ≡ x' -> w ≡ w' -> set_acct a x w ≡ set_acct a x' w'.
Proof.
  intros Hx (Ha & ? & ? & ? & ? & ? & ? & ?). apply world_equiv_acct; try done.
  intros b. simpl. case_decide; [by constructor|apply Ha].
Qed.

(** Writing back what is there. *)
Lemma set_acct_same a x w : w_acct w a ≡ Some x -> set_acct a x w ≡ w.
Proof.
  intros Hx. apply world_equiv_acct; try done. intros b. simpl.
  case_decide; [subst; by symmetry|done].
Qed.
Lemma set_acct_twice a x y w : set_acct a x (set_acct a y w) ≡ set_acct a x w.
Proof. apply world_equiv_acct; try done. intros b. simpl. by case_decide. Qed.

Lemma w_of_setStateObject a o s :
  so_address o = a -> so_deleted o = false ->
  w_of (setStateObject o s) ≡ set_acct a (abs_obj o) (w_of s).
Proof.
  intros <- Hd. apply world_equiv_acct; try done. intros b. simpl.
  unfold acct_of. simpl. rewrite lookup_insert.
  destruct (decide (so_address o = b)) as [<-|]; case_decide; try done. by rewrite Hd.
Qed.

Lemma objs_ok_setStateObject a o s :
  objs_ok s -> obj_wf a o -> so_deleted o = false -> objs_ok (setStateObject o s).
Proof.
  intros [O D] Hwf Hd. split; [|simpl; rewrite dom_insert; by apply union_subseteq_r'].
  intros b o'. simpl. rewrite lookup_insert.
  destruct (decide (so_address o = b)) as [<-|]; [|apply O].
  intros [= <-]. destruct Hwf as (<- & ? & ?). split; [done|]. by rewrite Hd.
Qed.

(** The journal may have dirty entries for accounts that exist, or have no
    object. *)
Lemma objs_ok_with_journal j s :
  objs_ok s ->
  (forall b, dirties j !! b = dirties (sd_journal s) !! b \/ sd_stateObjects s !! b = None \/
             is_Some (w_acct (w_of s) b)) ->
  objs_ok (with_journal j s).
Proof.
  intros [O D] H. split; [|done]. intros b o Hb. simpl in Hb. destruct (O b o Hb) as [Hwf Hdel].
  split; [done|]. intros Hd. destruct (Hdel Hd) as (Ht & Hj & Hdoom). split; [done|]. split; [|done]. simpl.
  destruct (H b) as [->|[Hn|Hs]]; [done|congruence|]. simpl in Hs. unfold acct_of in Hs.
  rewrite Hb, Hd in Hs. by destruct Hs.
Qed.

Lemma append_dirties en j b :
  dirties (journal_append en j) !! b = dirties j !! b \/ dirtied en = Some b.
Proof.
  simpl. destruct (dirtied en) as [a|]; [|by left]. unfold bump. rewrite lookup_insert.
  case_decide; [right; congruence|by left].
Qed.

(** Replacing an object, without and with a journal entry. *)
Lemma cache_ext a o s :
  objs_ok s -> is_u64 (sd_logSize s) -> obj_wf a o -> so_deleted o = false ->
  w_acct (w_of s) a ≡ Some (abs_obj o) ->
  ext s (setStateObject o s) /\ w_of (setStateObject o s) ≡ w_of s.
Proof.
  intros O L Hwf Hd Ha.
  assert (W : w_of (setStateObject o s) ≡ w_of s).
  { rewrite (w_of_setStateObject a) by (done || apply Hwf). by apply set_acct_same. }
  split; [|done]. split; [by eapply objs_ok_setStateObject|]. repeat (split; [done|]).
  exists []. by rewrite app_nil_r.
Qed.

Lemma put_ext a o en s :
  objs_ok s -> is_u64 (sd_logSize s) -> obj_wf a o -> so_deleted o = false ->
  (forall b, dirtied en = Some b -> b = a) ->
  undoable (sd_trie s) en (set_acct a (abs_obj o) (w_of s)) ->
  wundo en (set_acct a (abs_obj o) (w_of s)) ≡ w_of s ->
  ext s (setStateObject o (log_entry en s)) /\
  w_of (setStateObject o (log_entry en s)) ≡ set_acct a (abs_obj o) (w_of s).
Proof.
  intros O L Hwf Hd Hen Hu Hw.
  assert (W : w_of (setStateObject o (log_entry en s)) ≡ set_acct a (abs_obj o) (w_of s)).
  { by rewrite (w_of_setStateObject a) by (done || apply Hwf). }
  split; [|done]. split.
  { apply (objs_ok_with_journal _ (setStateObject o s)); [by eapply objs_ok_setStateObject|].
    intros b. destruct (append_dirties en (sd_journal s) b) as [E| ->%Hen]; [by left|do 2 right].
    simpl. unfold acct_of. simpl. rewrite (proj1 Hwf), lookup_insert_eq, Hd. done. }
  do 5 (split; [done|]). split; [apply counts_append|]. exists [en]. split; [done|]. simpl. unfold wundos. simpl. split.
  - split; [|done]. by eapply undoable_equiv; [symmetry; exact W|].
  - by rewrite W.
Qed.

(** Undoing a change of one account. *)
Lemma undo_upd_some a (g : account -> account) x y w :
  w_acct w a ≡ Some x -> g y ≡ x -> upd_some a g (set_acct a y w) ≡ w.
Proof.
  intros Hx Hg. unfold upd_some. simpl. destruct (decide (a = a)); [|done].
  etransitivity; [apply set_acct_twice|]. apply set_acct_same. rewrite Hx. by constructor.
Qed.

Lemma abs_obj_newObject_wf a d : obj_wf a (newObject a d).
Proof. by split. Qed.

Lemma getStateObject_spec a s r s' :
  objs_ok s -> is_u64 (sd_logSize s) -> getStateObject a s = (r, s') ->
  ext s s' /\ w_of s' ≡ w_of s /\
  match r with
  | Some o => obj_wf a o /\ so_deleted o = false /\ w_acct (w_of s') a ≡ Some (abs_obj o)
  | None => w_acct (w_of s') a = None /\ AT_TryGet (sd_trie s') a = None
  end.
Proof.
  intros O L. unfold getStateObject. destruct (sd_stateObjects s !! a) as [o|] eqn:E.
  - intros [= <- <-]. split; [by apply ext_refl|]. split; [done|].
    destruct (proj1 O a o E) as [Hwf Hdel]. simpl. unfold acct_of. rewrite E.
    destruct (so_deleted o) eqn:Ed; [by destruct Hdel|done].
  - destruct (AT_TryGet (sd_trie s) a) as [d|] eqn:Ea; intros [= <- <-].
    + assert (Hacct : w_acct (w_of s) a ≡ Some (abs_obj (newObject a d))).
      { simpl. unfold acct_of. by rewrite E, Ea. }
      destruct (cache_ext a (newObject a d) s) as [X W]; [done|done|done|done|done|].
      split; [done|]. split; [done|]. split; [done|]. split; [done|].
      transitivity (w_acct (w_of s) a); [by apply acct_equiv|done].
    + split; [by apply ext_refl|]. split; [done|]. simpl. unfold acct_of. by rewrite E, Ea.
Qed.

Lemma abs_obj_zero a : abs_obj (so_setNonce 0 (newObject a zeroAccount)) ≡ empty_account emptyCode.
Proof.
  repeat split.
  - simpl. unfold obj_code, so_Code. simpl. by rewrite N.eqb_refl.
  - intros k. simpl. unfold obj_storage, so_GetState, getTrie. simpl. rewrite lookup_empty. simpl.
    apply OpenStorageTrie_empty.
Qed.

(** [createObject] on an address without an account. *)
Lemma createObject_fresh_spec a s :
  objs_ok s -> is_u64 (sd_logSize s) -> w_acct (w_of s) a = None -> AT_TryGet (sd_trie s) a = None ->
  let o := so_setNonce 0 (newObject a zeroAccount) in
  let s' := setStateObject o (log_entry (createObjectChange a) s) in
  ext s s' /\ w_of s' ≡ set_acct a (abs_obj o) (w_of s).
Proof.
  intros O L Ha Ht. apply put_ext; try done; [by intros b [= <-]|].
  apply world_equiv_acct; try done. intros b. simpl in *.
  destruct (decide (b = a)); [subst; by rewrite Ha|done].
Qed.

Lemma acct_or_new_Some ech w a x : w_acct w a ≡ Some x -> acct_or_new ech w a ≡ x.
Proof. unfold acct_or_new. intros H. inversion H as [? ? Hx Hy|]; simpl. by simplify_eq. Qed.

Lemma GetOrNewStateObject_spec a s o s' :
  objs_ok s -> is_u64 (sd_logSize s) -> GetOrNewStateObject a s = (o, s') ->
  ext s s' /\ obj_wf a o /\ so_deleted o = false /\ w_acct (w_of s') a ≡ Some (abs_obj o) /\
  abs_obj o ≡ acct_or_new emptyCode (w_of s) a /\
  (forall x, set_acct a x (w_of s') ≡ set_acct a x (w_of s)).
Proof.
  intros O L. unfold GetOrNewStateObject.
  destruct (getStateObject a s) as [r s1] eqn:E1.
  destruct (getStateObject_spec a s r s1 O L E1) as (X1 & W1 & Hr).
  assert (O1 : objs_ok s1) by apply X1. assert (L1 : is_u64 (sd_logSize s1)) by apply X1.
  destruct r as [o1|].
  - destruct Hr as (Hwf & Hd & Ha). rewrite Hd. intros [= <- <-].
    do 4 (split; [done|]). split.
    + symmetry. apply acct_or_new_Some. transitivity (w_acct (w_of s1) a); [|done].
      symmetry. by apply acct_equiv.
    + intros x. by apply set_acct_proper.
  - destruct Hr as [Ha Ht]. unfold createObject.
    destruct (getStateObject a s1) as [r2 s2] eqn:E2.
    destruct (getStateObject_spec a s1 r2 s2 O1 L1 E2) as (X2 & W2 & Hr2).
    assert (O2 : objs_ok s2) by apply X2. assert (L2 : is_u64 (sd_logSize s2)) by apply X2.
    destruct r2 as [o2|].
    { destruct Hr2 as (_ & _ & Ha2). exfalso.
      assert (Hn : w_acct (w_of s2) a ≡ None) by (rewrite <-Ha; by apply acct_equiv).
      rewrite Ha2 in Hn. inversion Hn. }
    destruct Hr2 as [Ha2 Ht2]. intros [= <- <-].
    destruct (createObject_fresh_spec a s2 O2 L2 Ha2 Ht2) as [X3 W3].
    split; [by eapply ext_trans; [exact X1|]; eapply ext_trans; [exact X2|]|].
    split; [done|]. split; [done|]. split; [|split].
    + transitivity (w_acct (set_acct a (abs_obj (so_setNonce 0 (newObject a zeroAccount))) (w_of s2)) a);
        [by apply acct_equiv|]. simpl. by destruct (decide (a = a)).
    + rewrite abs_obj_zero. unfold acct_or_new.
      assert (Hn : w_acct (w_of s) a ≡ None) by (rewrite <-Ha; symmetry; by apply acct_equiv).
      destruct (w_acct (w_of s) a); [inversion Hn|done].
    + intros x. etransitivity; [apply set_acct_proper; [done|exact W3]|].
      etransitivity; [apply set_acct_twice|]. apply set_acct_proper; [done|]. by rewrite W2, W1.
Qed.

(** ** Caches *)

Lemma nil_or_code c : default [] (nil_or c) = c.
Proof. by destruct c. Qed.
Lemma nil_or_not_empty c : nil_or c <> Some [].
Proof. by destruct c. Qed.

Lemma obj_storage_eq o k :
  obj_storage o k =
    default (ST_TryGet (default (OpenStorageTrie (so_addrHash o) (acc_Root (so_data o))) (so_trie o)) k)
            (so_cachedStorage o !! k).
Proof.
  unfold obj_storage, so_GetState, getTrie.
  destruct (so_cachedStorage o !! k); [done|]. by destruct (so_trie o).
Qed.

Lemma obj_code_eq o :
  obj_code o =
    match so_code o with
    | Some c => c
    | None => if (acc_CodeHash (so_data o) =? emptyCode)%N then []
              else ContractCode (so_addrHash o) (acc_CodeHash (so_data o))
    end.
Proof. unfold obj_code, so_Code. destruct (so_code o); [done|]. by destruct (_ =? _)%N. Qed.

(** [abs_obj] depends on some of the fields only. *)
Lemma abs_obj_equiv o o' :
  so_data o = so_data o' -> so_code o = so_code o' -> so_addrHash o = so_addrHash o' ->
  so_suicided o = so_suicided o' -> (forall k, obj_storage o k = obj_storage o' k) ->
  abs_obj o ≡ abs_obj o'.
Proof.
  intros Ed Ec Eh Es Hs. repeat split; simpl; rewrite ?obj_code_eq; try congruence.
  by rewrite Ed, Ec, Eh.
Qed.

Lemma code_ok_setCode h c o : code_ok (so_setCode h c o).
Proof. split; [apply nil_or_not_empty|done]. Qed.

Lemma so_Code_spec a o :
  obj_wf a o -> obj_wf a (so_Code o).2 /\ abs_obj (so_Code o).2 ≡ abs_obj o /\
  so_deleted (so_Code o).2 = so_deleted o.
Proof.
  intros Hwf. unfold so_Code. destruct (so_code o) eqn:Ec; [done|].
  destruct (_ =? _)%N eqn:Eh; [done|]. simpl.
  split.
  { destruct Hwf as (? & ? & [_ _] & ?). do 2 (split; [done|]). split; [|done]. split; [apply nil_or_not_empty|].
    simpl. intros c Hc _. split; [by apply N.eqb_neq|]. by destruct (ContractCode _ _); simplify_eq/=. }
  split; [|done]. do 3 (split; [done|]).
  split; [|split; [intros k; simpl; by rewrite !obj_storage_eq|done]].
  simpl. unfold obj_code, so_Code. rewrite Ec. simpl.
  rewrite Eh. destruct (ContractCode _ _) eqn:Ecc; simpl; by rewrite ?Ecc.
Qed.

(** Loading a slot from the trie. *)
Lemma storage_ok_load k o :
  so_cachedStorage o !! k = None -> storage_ok o ->
  let '(t, o') := getTrie o in
  storage_ok (set_so_storage (<[k := ST_TryGet t k]> (so_cachedStorage o')) (so_dirtyStorage o') o').
Proof.
  intros Ec [Hsub Hval]. unfold getTrie in *.
  assert (Hk : so_dirtyStorage o !! k = None) by (by eapply lookup_weaken_None).
  destruct (so_trie o) as [tr|] eqn:Et; (split; [etransitivity; [exact Hsub|]; by apply insert_subseteq|]);
    intros k' v; unfold obj_trie in *; simpl; rewrite ?Et in *; rewrite lookup_insert;
    (destruct (decide (k = k')) as [<-|]; [by intros [= <-]|by apply Hval]).
Qed.

Lemma so_GetState_spec a k o :
  obj_wf a o -> obj_wf a (so_GetState k o).2 /\ abs_obj (so_GetState k o).2 ≡ abs_obj o /\
  so_deleted (so_GetState k o).2 = so_deleted o.
Proof.
  intros Hwf. unfold so_GetState, getTrie.
  destruct (so_cachedStorage o !! k) eqn:Ec; [done|].
  destruct Hwf as (? & ? & ? & Hst).
  pose proof (storage_ok_load k o Ec Hst) as Hst'. unfold getTrie in Hst'.
  destruct (so_trie o) as [tr|] eqn:Et; simpl; (split; [by do 3 (split; [done|])|]); (split; [|done]);
    apply abs_obj_equiv; try done; intros k'; rewrite !obj_storage_eq; simpl;
    rewrite lookup_insert, Et; (destruct (decide (k = k')) as [<-|]; [by rewrite Ec|done]).
Qed.

(** ** Setters *)

Lemma abs_obj_setNonce n o : abs_obj (so_setNonce n o) ≡ set_nonce n (abs_obj o).
Proof. repeat split; simpl; intros; by rewrite ?obj_code_eq, ?obj_storage_eq. Qed.
Lemma abs_obj_setBalance z o : abs_obj (so_setBalance z o) ≡ set_balance z (abs_obj o).
Proof. repeat split; simpl; intros; by rewrite ?obj_code_eq, ?obj_storage_eq. Qed.
Lemma abs_obj_setState k v o : abs_obj (so_setState k v o) ≡ set_storage k v (abs_obj o).
Proof.
  repeat split; simpl; intros; rewrite ?obj_code_eq, ?obj_storage_eq; simpl; try done.
  rewrite lookup_insert. destruct (decide (k = k0)) as [<-|]; case_decide; by simplify_eq.
Qed.
Lemma obj_wf_setState a k v o : obj_wf a o -> obj_wf a (so_setState k v o).
Proof.
  intros (? & ? & ? & Hsub & Hval). do 3 (split; [done|]). split; [by apply insert_mono|].
  intros k' w. simpl. rewrite !lookup_insert. by destruct (decide (k = k')); [|apply Hval].
Qed.
Lemma abs_obj_setCode h c o :
  (c = [] -> h = emptyCode \/ ContractCode (so_addrHash o) h = []) ->
  abs_obj (so_setCode h c o) ≡ set_code h c (abs_obj o).
Proof.
  intros Hc. repeat split; simpl; intros; rewrite ?obj_storage_eq; try done.
  rewrite obj_code_eq. simpl. destruct c; [|done]. simpl.
  destruct (N.eqb_spec h emptyCode); [done|]. by destruct (Hc eq_refl).
Qed.
Lemma abs_obj_suicide b z o :
  abs_obj (so_setBalance z (set_so_suicided b o)) ≡ unsuicide b z (abs_obj o).
Proof. repeat split; simpl; intros; by rewrite ?obj_code_eq, ?obj_storage_eq. Qed.

Lemma set_field_spec a s o1 s1 o o' (g h : account -> account) en :
  objs_ok s -> is_u64 (sd_logSize s) -> GetOrNewStateObject a s = (o1, s1) ->
  abs_obj o ≡ abs_obj o1 -> obj_wf a o' -> so_deleted o' = false ->
  Proper ((≡) ==> (≡)) g -> abs_obj o' ≡ g (abs_obj o) ->
  dirtied en = Some a -> (forall w, is_Some (w_acct w a) -> undoable (sd_trie s1) en w) ->
  (forall w, wundo en w = upd_some a h w) -> h (abs_obj o') ≡ abs_obj o ->
  let s' := setStateObject o' (log_entry en s1) in
  ext s s' /\ w_of s' ≡ upd_acct emptyCode a g (w_of s).
Proof.
  intros O L E Eo Hwf Hd Hg Hgo Hen Hun Hw Hh s'.
  destruct (GetOrNewStateObject_spec a s o1 s1 O L E) as (X & _ & _ & Ha & Hn & Hset).
  assert (O1 : objs_ok s1) by apply X. assert (L1 : is_u64 (sd_logSize s1)) by apply X.
  destruct (put_ext a o' en s1) as [X' W']; try done.
  - intros b. rewrite Hen. congruence.
  - apply Hun. simpl. by destruct (decide (a = a)).
  - rewrite Hw. eapply undo_upd_some; [exact Ha|]. by rewrite Hh, Eo.
  - split; [by eapply ext_trans|]. unfold s'. rewrite W'. unfold upd_acct.
    etransitivity; [apply Hset|]. apply set_acct_proper; [|done].
    etransitivity; [exact Hgo|]. apply Hg. by rewrite Eo.
Qed.

Lemma SetNonce_refines a n s : sd_inv s ->
  sd_inv (sd_SetNonce a n s) /\ sd_abs (sd_SetNonce a n s) ≡ on_cur (w_SetNonce emptyCode a n) (sd_abs s).
Proof.
  intros I. pose proof I as (O & _ & _ & L & _). unfold sd_SetNonce.
  destruct (GetOrNewStateObject a s) as [o s1] eqn:E.
  destruct (GetOrNewStateObject_spec a s o s1 O L E) as (X & Hwf & Hd & _).
  destruct Hwf as (<- & Hh & Hc).
  destruct (set_field_spec (so_address o) s o s1 o (so_setNonce n o) (set_nonce n)
    (set_nonce (acc_Nonce (so_data o))) (nonceChange (so_address o) (acc_Nonce (so_data o))))
    as [X' W']; try done; try apply _.
  - apply abs_obj_setNonce.
  - rewrite abs_obj_setNonce. by repeat split.
  - by apply ext_refines.
Qed.

Lemma SetBalance_spec a s o s1 z :
  objs_ok s -> is_u64 (sd_logSize s) -> GetOrNewStateObject a s = (o, s1) ->
  ext s (so_SetBalance z o s1) /\ w_of (so_SetBalance z o s1) ≡ upd_acct emptyCode a (set_balance z) (w_of s).
Proof.
  intros O L E. destruct (GetOrNewStateObject_spec a s o s1 O L E) as (X & Hwf & Hd & _).
  destruct Hwf as (<- & Hh & Hc). unfold so_SetBalance.
  apply (set_field_spec (so_address o) s o s1 o (so_setBalance z o) (set_balance z)
    (set_balance (acc_Balance (so_data o)))); try done; try apply _.
  - apply abs_obj_setBalance.
  - rewrite abs_obj_setBalance. by repeat split.
Qed.

(** The account as it is, once it exists. *)
Lemma touch_id_spec a s o s1 :
  objs_ok s -> is_u64 (sd_logSize s) -> GetOrNewStateObject a s = (o, s1) ->
  w_of s1 ≡ set_acct a (acct_or_new emptyCode (w_of s) a) (w_of s).
Proof.
  intros O L E. destruct (GetOrNewStateObject_spec a s o s1 O L E) as (X & _ & _ & Ha & Hn & Hset).
  rewrite <-(set_acct_same a (abs_obj o) (w_of s1)) by done.
  etransitivity; [apply Hset|]. by apply set_acct_proper.
Qed.

Lemma so_touch_spec o s :
  objs_ok s -> is_u64 (sd_logSize s) -> is_Some (w_acct (w_of s) (so_address o)) ->
  ext s (so_touch o s) /\ w_of (so_touch o s) ≡ w_of s.
Proof.
  intros O L Ha. assert (W : w_of (so_touch o s) ≡ w_of s) by (unfold so_touch; by case_decide).
  split; [|done]. split.
  - unfold so_touch, log_entry. set (en := touchChange _).
    case_decide; apply objs_ok_with_journal; try done; try apply objs_ok_with_journal; try done;
      intros b; simpl; unfold bump; rewrite !lookup_insert;
      case_decide; subst; try (by left); by do 2 right.
  - unfold so_touch in *. case_decide; do 5 (split; [done|]); (split; [intros C|]);
      [apply counts_dirty, counts_append, C| |apply counts_append, C|];
      (exists [touchChange (so_address o)]; split; [done|]; simpl; by split).
Qed.

Lemma set_balance_same (x : account) z : z = a_balance x -> set_balance z x ≡ x.
Proof. intros ->. by repeat split. Qed.

Lemma upd_acct_equiv a (g g' : account -> account) w :
  g (acct_or_new emptyCode w a) ≡ g' (acct_or_new emptyCode w a) ->
  upd_acct emptyCode a g w ≡ upd_acct emptyCode a g' w.
Proof. intros H. by apply set_acct_proper. Qed.

Lemma AddBalance_refines a z s : sd_inv s ->
  sd_inv (sd_AddBalance a z s) /\
  sd_abs (sd_AddBalance a z s) ≡ on_cur (w_AddBalance emptyCode a z) (sd_abs s).
Proof.
  intros I. pose proof I as (O & _ & _ & L & _). unfold sd_AddBalance, so_AddBalance.
  destruct (GetOrNewStateObject a s) as [o s1] eqn:E.
  pose proof (GetOrNewStateObject_spec a s o s1 O L E) as (X & Hwf & _ & Ha & Hn & _).
  assert (Hb : acc_Balance (so_data o) = a_balance (acct_or_new emptyCode (w_of s) a)) by apply Hn.
  destruct (Z.eqb_spec (Sign z) 0) as [Hz|Hz].
  - apply (proj1 (Z.sgn_null_iff z)) in Hz as ->.
    assert (W : w_of s1 ≡ w_AddBalance emptyCode a 0 (w_of s)).
    { rewrite (touch_id_spec a s o s1) by done. apply set_acct_proper; [|done].
      symmetry. apply set_balance_same. lia. }
    destruct (so_empty o); [|by apply ext_refines].
    destruct (so_touch_spec o s1) as [X2 W2]; [apply X|apply X| |].
    { rewrite (proj1 Hwf). inversion Ha; by eexists. }
    apply ext_refines; [done|by eapply ext_trans|]. by rewrite W2.
  - destruct (SetBalance_spec a s o s1 (acc_Balance (so_data o) + z) O L E) as [X2 W2].
    apply ext_refines; [done|done|]. rewrite W2. apply upd_acct_equiv. by rewrite Hb.
Qed.

Lemma SubBalance_refines a z s : sd_inv s ->
  sd_inv (sd_SubBalance a z s) /\
  sd_abs (sd_SubBalance a z s) ≡ on_cur (w_SubBalance emptyCode a z) (sd_abs s).
Proof.
  intros I. pose proof I as (O & _ & _ & L & _). unfold sd_SubBalance, so_SubBalance.
  destruct (GetOrNewStateObject a s) as [o s1] eqn:E.
  pose proof (GetOrNewStateObject_spec a s o s1 O L E) as (X & _ & _ & _ & Hn & _).
  assert (Hb : acc_Balance (so_data o) = a_balance (acct_or_new emptyCode (w_of s) a)) by apply Hn.
  destruct (Z.eqb_spec (Sign z) 0) as [Hz|Hz].
  - apply (proj1 (Z.sgn_null_iff z)) in Hz as ->. apply ext_refines; [done|done|].
    rewrite (touch_id_spec a s o s1) by done. apply set_acct_proper; [|done].
    symmetry. apply set_balance_same. lia.
  - destruct (SetBalance_spec a s o s1 (acc_Balance (so_data o) - z) O L E) as [X2 W2].
    apply ext_refines; [done|done|]. rewrite W2. apply upd_acct_equiv. by rewrite Hb.
Qed.

Lemma so_Code_empty o :
  (so_Code o).1 = [] -> so_code o <> Some [] ->
  acc_CodeHash (so_data o) = emptyCode \/ ContractCode (so_addrHash o) (acc_CodeHash (so_data o)) = [].
Proof.
  unfold so_Code. destruct (so_code o); simpl; [by intros ->|].
  destruct (N.eqb_spec (acc_CodeHash (so_data o)) emptyCode); auto.
Qed.
Lemma so_Code_data o :
  so_data (so_Code o).2 = so_data o /\ so_address (so_Code o).2 = so_address o /\
  so_addrHash (so_Code o).2 = so_addrHash o.
Proof. unfold so_Code. destruct (so_code o); [done|]. by destruct (_ =? _)%N. Qed.

Lemma SetCode_refines a c s : sd_inv s ->
  sd_inv (sd_SetCode a c s) /\
  sd_abs (sd_SetCode a c s) ≡ on_cur (w_SetCode emptyCode a (Keccak256Hash c) c) (sd_abs s).
Proof.
  intros I. pose proof I as (O & _ & _ & L & _). unfold sd_SetCode.
  destruct (GetOrNewStateObject a s) as [o s1] eqn:E.
  destruct (GetOrNewStateObject_spec a s o s1 O L E) as (X & Hwf & Hd & _).
  pose proof (so_Code_spec a o Hwf) as (Hwf' & Ha' & Hd'). pose proof (so_Code_data o) as (Ed & Eaddr & Ehash).
  pose proof (so_Code_empty o) as Hempty.
  assert (Hcode : (so_Code o).1 = obj_code o) by done.
  destruct (so_Code o) as [pc o']. simpl in *.
  destruct Hwf as (<- & Hh & Hc & Hsub). rewrite Eaddr, Ed.
  assert (Hpc : pc = [] -> acc_CodeHash (so_data o) = emptyCode \/
                ContractCode (so_addrHash o) (acc_CodeHash (so_data o)) = []) by (intros; by apply Hempty, Hc).
  destruct (set_field_spec (so_address o) s o s1 o' (so_setCode (Keccak256Hash c) c o')
    (set_code (Keccak256Hash c) c) (set_code (acc_CodeHash (so_data o)) pc)
    (codeChange (so_address o) pc (acc_CodeHash (so_data o)))) as [X' W']; try done; try apply _.
  - destruct Hwf' as (? & ? & ? & ?). do 2 (split; [done|]). by split; [apply code_ok_setCode|].
  - simpl. congruence.
  - apply abs_obj_setCode. intros ->. by left.
  - intros w Hw. simpl. split; [done|]. intros Hn. rewrite <-Hh. auto.
  - rewrite abs_obj_setCode by (intros ->; by left). rewrite Ha'.
    repeat split; simpl; try done.
  - by apply ext_refines.
Qed.

Lemma so_GetState_data k o :
  so_address (so_GetState k o).2 = so_address o.
Proof.
  unfold so_GetState, getTrie. destruct (so_cachedStorage o !! k); [done|]. by destruct (so_trie o).
Qed.

Lemma SetState_refines a k v s : sd_inv s ->
  sd_inv (sd_SetState a k v s) /\
  sd_abs (sd_SetState a k v s) ≡ on_cur (w_SetState emptyCode a k v) (sd_abs s).
Proof.
  intros I. pose proof I as (O & _ & _ & L & _). unfold sd_SetState.
  destruct (GetOrNewStateObject a s) as [o s1] eqn:E.
  destruct (GetOrNewStateObject_spec a s o s1 O L E) as (X & Hwf & Hd & _).
  pose proof (so_GetState_spec a k o Hwf) as (Hwf' & Ha' & Hd').
  pose proof (so_GetState_data k o) as Eaddr.
  assert (Hval : (so_GetState k o).1 = obj_storage o k) by done.
  destruct (so_GetState k o) as [pv o']. simpl in *.
  destruct Hwf as (<- & Hh & Hc). rewrite Eaddr.
  destruct (set_field_spec (so_address o) s o s1 o' (so_setState k v o') (set_storage k v)
    (set_storage k pv) (storageChange (so_address o) k pv)) as [X' W']; try done; try apply _.
  - by apply obj_wf_setState.
  - simpl. congruence.
  - apply abs_obj_setState.
  - rewrite abs_obj_setState, Ha'. repeat split; simpl; try done.
    intros k'. repeat case_decide; subst; done.
  - by apply ext_refines.
Qed.

Lemma Suicide_refines a s : sd_inv s ->
  sd_inv (sd_Suicide a s).2 /\ (sd_Suicide a s).1 = w_exist (w_of s) a /\
  sd_abs (sd_Suicide a s).2 ≡ on_cur (w_Suicide a) (sd_abs s).
Proof.
  intros I. pose proof I as (O & _ & _ & L & _). unfold sd_Suicide.
  destruct (getStateObject a s) as [r s1] eqn:E.
  destruct (getStateObject_spec a s r s1 O L E) as (X & W & Hr).
  assert (Hex : w_exist (w_of s) a = w_exist (w_of s1) a) by by rewrite W.
  rewrite Hex. destruct r as [o|]; simpl.
  - destruct Hr as (Hwf & Hd & Ha).
    set (o' := so_setBalance 0 (set_so_suicided true o)).
    destruct (put_ext a o' (suicideChange a (so_suicided o) (acc_Balance (so_data o))) s1)
      as [X' W']; try done; try apply X.
    + by intros b [= <-].
    + simpl. by rewrite decide_True.
    + simpl. eapply undo_upd_some; [exact Ha|]. unfold o'. rewrite abs_obj_suicide. by repeat split.
    + assert (Ha0 : w_acct (w_of s) a ≡ Some (abs_obj o)).
      { transitivity (w_acct (w_of s1) a); [symmetry; by apply acct_equiv|done]. }
      destruct (ext_refines (w_Suicide a) s (setStateObject o' (log_entry
        (suicideChange a (so_suicided o) (acc_Balance (so_data o))) s1))) as [I' A']; [done|by eapply ext_trans| |].
      * rewrite W'. unfold w_Suicide. destruct (w_acct (w_of s) a) as [x|] eqn:Ex; [|inversion Ha0].
        apply Some_equiv_inj in Ha0. apply set_acct_proper; [|done].
        unfold o'. rewrite abs_obj_suicide, <-Ha0. by repeat split.
      * split; [done|]. split; [|done]. unfold w_exist.
        destruct (w_acct (w_of s1) a); [done|inversion Ha].
  - destruct Hr as [Ha _]. simpl in Ha. unfold w_exist. simpl. rewrite Ha.
    destruct (ext_refines (w_Suicide a) s s1) as [I' A']; [done|done| |done].
    assert (Hn : w_acct (w_of s) a ≡ None).
    { rewrite <-Ha. change (w_acct (w_of s) a ≡ w_acct (w_of s1) a). symmetry. by apply acct_equiv. }
    unfold w_Suicide. destruct (w_acct (w_of s) a); [inversion Hn|done].
Qed.

Lemma CreateAccount_refines a s : sd_inv s ->
  sd_inv (sd_CreateAccount a s) /\
  sd_abs (sd_CreateAccount a s) ≡ on_cur (w_CreateAccount emptyCode a) (sd_abs s).
Proof.
  intros I. pose proof I as (O & _ & _ & L & _). unfold sd_CreateAccount, createObject.
  destruct (getStateObject a s) as [r s1] eqn:E.
  destruct (getStateObject_spec a s r s1 O L E) as (X & W & Hr).
  assert (O1 : objs_ok s1) by apply X. assert (L1 : is_u64 (sd_logSize s1)) by apply X.
  set (n := so_setNonce 0 (newObject a zeroAccount)).
  destruct r as [o|].
  - destruct Hr as (Hwf & Hd & Ha).
    set (n' := so_setBalance (acc_Balance (so_data o)) n).
    assert (Hs : setStateObject n' (setStateObject n (log_entry (resetObjectChange o) s1))
                 = setStateObject n' (log_entry (resetObjectChange o) s1)).
    { unfold setStateObject, with_objects. simpl. f_equal. apply insert_insert_eq. }
    rewrite Hs.
    destruct (put_ext a n' (resetObjectChange o) s1) as [X' W']; try done.
    + simpl. destruct Hwf as (Hadr & ? & ?). rewrite Hadr, decide_True by done. by split.
    + simpl. destruct Hwf as (-> & _). etransitivity; [apply set_acct_twice|]. by apply set_acct_same.
    + apply ext_refines; [done|by eapply ext_trans|]. rewrite W'. unfold w_CreateAccount.
      apply set_acct_proper; [|done]. unfold n', n. rewrite abs_obj_setBalance, abs_obj_zero.
      assert (Hb : w_balance (w_of s) a = acc_Balance (so_data o)); [|by rewrite Hb].
      rewrite <-W. rewrite (w_balance_new emptyCode). by rewrite (acct_or_new_Some emptyCode _ _ _ Ha).
  - subst n. destruct Hr as [Ha Ht]. destruct (createObject_fresh_spec a s1 O1 L1 Ha Ht) as [X' W'].
    apply ext_refines; [done|by eapply ext_trans|]. rewrite W'. unfold w_CreateAccount.
    apply set_acct_proper; [|done]. rewrite abs_obj_zero.
    assert (Hb : w_balance (w_of s) a = 0); [|by rewrite Hb].
    rewrite <-W. unfold w_balance. by rewrite Ha.
Qed.

(** ** Refunds, logs and preimages *)

Lemma entry_ext en s s' :
  objs_ok s' -> sd_trie s' = sd_trie s -> sd_validRevisions s' = sd_validRevisions s ->
  sd_nextRevisionId s' = sd_nextRevisionId s -> is_u64 (sd_logSize s') ->
  sd_stateObjectsDirty s' = sd_stateObjectsDirty s ->
  (counts_ok (jentries s) (dirties (sd_journal s)) -> counts_ok (jentries s') (dirties (sd_journal s'))) ->
  jentries s' = jentries s ++ [en] ->
  undoable (sd_trie s) en (w_of s') -> wundo en (w_of s') ≡ w_of s -> ext s s'.
Proof. intros. do 7 (split; [done|]). exists [en]. by split. Qed.

Lemma AddRefund_refines g s : sd_inv s ->
  sd_inv (sd_AddRefund g s) /\ sd_abs (sd_AddRefund g s) ≡ on_cur (w_AddRefund g) (sd_abs s).
Proof.
  intros I. pose proof I as (O & _ & _ & L & _). apply ext_refines; [done| |done].
  apply (entry_ext (refundChange (sd_refund s))); try done. apply counts_append.
Qed.

Lemma AddLog_refines l s : sd_inv s ->
  sd_inv (sd_AddLog l s) /\ sd_abs (sd_AddLog l s) ≡ on_cur (w_AddLog l) (sd_abs s).
Proof.
  intros I. pose proof I as (O & _ & _ & L & _). apply ext_refines; [done| |].
  - apply (entry_ext (addLogChange (sd_thash s))); try done; [apply u64_range|apply counts_append| |].
    + simpl. rewrite lookup_insert_eq. simpl. by destruct (default [] _).
    + apply world_equiv_acct; try done; simpl.
      * intros h. case_decide; [subst|by rewrite lookup_insert_ne by done].
        rewrite lookup_insert_eq. simpl. apply removelast_last.
      * unfold u64, is_u64 in *. zlia.
  - apply world_equiv_acct; try done. intros h. simpl.
    rewrite lookup_insert. repeat case_decide; subst; done.
Qed.

Lemma AddPreimage_refines h p s : sd_inv s ->
  sd_inv (sd_AddPreimage h p s) /\ sd_abs (sd_AddPreimage h p s) ≡ on_cur (w_AddPreimage h p) (sd_abs s).
Proof.
  intros I. pose proof I as (O & _ & _ & L & _). unfold sd_AddPreimage.
  destruct (sd_preimages s !! h) as [q|] eqn:E; (apply ext_refines; [done| |]).
  - by apply ext_refl.
  - apply world_equiv_acct; try done. intros h'. simpl. case_decide; [subst; by rewrite E|done].
  - apply (entry_ext (addPreimageChange h)); try done; [apply counts_append|].
    apply world_equiv_acct; try done. intros h'. simpl. rewrite lookup_insert.
    repeat case_decide; subst; done.
  - apply world_equiv_acct; try done. intros h'. simpl. rewrite lookup_insert.
    repeat case_decide; subst; try done. by rewrite E.
Qed.

(** ** Getters *)

(** A getter of an attribute of the object. *)
Lemma getter_refines {A} a (get : stateObject -> A) (dflt : A) (val : world -> A) s :
  sd_inv s ->
  (forall o w, obj_wf a o -> w_acct w a ≡ Some (abs_obj o) -> get o = val w) ->
  (forall w, w_acct w a ≡ None -> dflt = val w) ->
  (let '(o, s') := getStateObject a s in
   sd_inv s' /\ sd_abs s' ≡ sd_abs s /\
   match o with Some o => get o | None => dflt end = val (w_of s)).
Proof.
  intros I Hget Hd. pose proof I as (O & _ & _ & L & _).
  destruct (getStateObject a s) as [r s1] eqn:E.
  destruct (getStateObject_spec a s r s1 O L E) as (X & W & Hr).
  destruct (ext_reads s s1 I X W) as [I1 A1]. split; [done|]. split; [done|].
  pose proof (acct_equiv _ _ a W) as Ha.
  destruct r as [o|].
  - destruct Hr as (Hwf & _ & Hacc). apply Hget; [done|]. by rewrite <-Ha.
  - destruct Hr as [Hn _]. apply Hd. by rewrite <-Ha, Hn.
Qed.

(** [val w] is a field [f] of the account at [a], or the default. *)
Lemma field_Some {B} (f : account -> B) (d : B) (ma : option account) x :
  Proper ((≡) ==> (=)) f -> ma ≡ Some x -> f x = from_option f d ma.
Proof. intros Hf H. inversion H as [y ? Hxy|]; subst. simpl. by rewrite Hxy. Qed.
Lemma field_None {B} (f : account -> B) (d : B) (ma : option account) : ma ≡ None -> d = from_option f d ma.
Proof. intros H. by inversion H. Qed.

Lemma GetBalance_refines a s : sd_inv s ->
  sd_inv (sd_GetBalance a s).2 /\ sd_abs (sd_GetBalance a s).2 ≡ sd_abs s /\
  (sd_GetBalance a s).1 = w_balance (w_of s) a.
Proof.
  intros I. unfold sd_GetBalance.
  pose proof (getter_refines a (fun o => acc_Balance (so_data o)) 0 (fun w => w_balance w a) s I) as H.
  destruct (getStateObject a s) as [r s']. apply H.
  - intros o w _ Hw. by apply (field_Some a_balance 0 (w_acct w a) (abs_obj o)); [apply _|].
  - intros w Hw. by apply field_None.
Qed.
Lemma GetNonce_refines a s : sd_inv s ->
  sd_inv (sd_GetNonce a s).2 /\ sd_abs (sd_GetNonce a s).2 ≡ sd_abs s /\
  (sd_GetNonce a s).1 = w_nonce (w_of s) a.
Proof.
  intros I. unfold sd_GetNonce.
  pose proof (getter_refines a (fun o => acc_Nonce (so_data o)) 0 (fun w => w_nonce w a) s I) as H.
  destruct (getStateObject a s) as [r s']. apply H.
  - intros o w _ Hw. by apply (field_Some a_nonce 0 (w_acct w a) (abs_obj o)); [apply _|].
  - intros w Hw. by apply field_None.
Qed.
Lemma GetCodeHash_refines a s : sd_inv s ->
  sd_inv (sd_GetCodeHash a s).2 /\ sd_abs (sd_GetCodeHash a s).2 ≡ sd_abs s /\
  (sd_GetCodeHash a s).1 = w_codehash (w_of s) a.
Proof.
  intros I. unfold sd_GetCodeHash.
  pose proof (getter_refines a (fun o => acc_CodeHash (so_data o)) 0%N (fun w => w_codehash w a) s I) as H.
  destruct (getStateObject a s) as [r s']. apply H.
  - intros o w _ Hw. by apply (field_Some a_codehash 0%N (w_acct w a) (abs_obj o)); [apply _|].
  - intros w Hw. by apply field_None.
Qed.
Lemma HasSuicided_refines a s : sd_inv s ->
  sd_inv (sd_HasSuicided a s).2 /\ sd_abs (sd_HasSuicided a s).2 ≡ sd_abs s /\
  (sd_HasSuicided a s).1 = w_suicided (w_of s) a.
Proof.
  intros I. unfold sd_HasSuicided.
  pose proof (getter_refines a so_suicided false (fun w => w_suicided w a) s I) as H.
  destruct (getStateObject a s) as [r s']. apply H.
  - intros o w _ Hw. by apply (field_Some a_suicided false (w_acct w a) (abs_obj o)); [apply _|].
  - intros w Hw. by apply field_None.
Qed.
Lemma Exist_refines a s : sd_inv s ->
  sd_inv (sd_Exist a s).2 /\ sd_abs (sd_Exist a s).2 ≡ sd_abs s /\
  (sd_Exist a s).1 = w_exist (w_of s) a.
Proof.
  intros I. unfold sd_Exist.
  pose proof (getter_refines a (fun _ => true) false (fun w => w_exist w a) s I) as H.
  destruct (getStateObject a s) as [r s']. apply H; intros; unfold w_exist.
  - by destruct (w_acct w a); [|inversion H1].
  - by destruct (w_acct w a); [inversion H0|].
Qed.
Lemma Empty_refines a s : sd_inv s ->
  sd_inv (sd_Empty a s).2 /\ sd_abs (sd_Empty a s).2 ≡ sd_abs s /\
  (sd_Empty a s).1 = w_empty emptyCode (w_of s) a.
Proof.
  intros I. unfold sd_Empty.
  pose proof (getter_refines a so_empty true (fun w => w_empty emptyCode w a) s I) as H.
  destruct (getStateObject a s) as [r s']. apply H; intros; unfold w_empty.
  - destruct (w_acct w a) as [x|]; [|inversion H1]. apply Some_equiv_inj in H1 as (E1 & E2 & E3 & _).
    unfold so_empty, account_empty. rewrite E1, E2, E3. simpl. do 2 f_equal. unfold Sign.
    by destruct (acc_Balance (so_data o)).
  - by destruct (w_acct w a); [inversion H0|].
Qed.

Lemma GetCodeSize_refines a s : sd_inv s ->
  sd_inv (sd_GetCodeSize a s).2 /\ sd_abs (sd_GetCodeSize a s).2 ≡ sd_abs s /\
  (sd_GetCodeSize a s).1 = len (w_code (w_of s) a).
Proof.
  intros I. unfold sd_GetCodeSize.
  pose proof (getter_refines a (fun o => match so_code o with
               | Some c => len c
               | None => ContractCodeSize (so_addrHash o) (acc_CodeHash (so_data o))
               end) 0 (fun w => len (w_code w a)) s I) as H.
  destruct (getStateObject a s) as [r s']. apply H.
  - intros o w _ Hw. unfold w_code. rewrite <-(field_Some a_code [] (w_acct w a) (abs_obj o)) by (apply _ || done).
    simpl. rewrite obj_code_eq. destruct (so_code o); [done|].
    destruct (N.eqb_spec (acc_CodeHash (so_data o)) emptyCode) as [->|];
      [apply ContractCodeSize_empty|by apply ContractCodeSize_len].
  - intros w Hw. unfold w_code. by rewrite <-(field_None a_code [] (w_acct w a)).
Qed.

(** Getters that fill a cache of the object. *)
Lemma cached_getter_refines {A} a (get : stateObject -> A * stateObject) (dflt : A) (val : world -> A) s :
  sd_inv s ->
  (forall o, obj_wf a o -> obj_wf a (get o).2 /\ abs_obj (get o).2 ≡ abs_obj o /\
                           so_deleted (get o).2 = so_deleted o) ->
  (forall o w, w_acct w a ≡ Some (abs_obj o) -> (get o).1 = val w) ->
  (forall w, w_acct w a ≡ None -> dflt = val w) ->
  let r := (let '(o, s) := getStateObject a s in
            match o with
            | Some o => let '(c, o) := get o in (c, setStateObject o s)
            | None => (dflt, s)
            end) in
  sd_inv r.2 /\ sd_abs r.2 ≡ sd_abs s /\ r.1 = val (w_of s).
Proof.
  intros I Hspec Hget Hd. pose proof I as (O & _ & _ & L & _).
  destruct (getStateObject a s) as [r s1] eqn:E.
  destruct (getStateObject_spec a s r s1 O L E) as (X & W & Hr).
  pose proof (acct_equiv _ _ a W) as Ha. destruct r as [o|].
  - destruct Hr as (Hwf & Hdel & Hacc). destruct (Hspec o Hwf) as (Hwf' & Habs & Hdel').
    assert (Hval : (get o).1 = val (w_of s)) by (apply Hget; by rewrite <-Ha).
    destruct (get o) as [c o']. simpl in *.
    destruct (cache_ext a o' s1) as [X2 W2]; [apply X|apply X|done|congruence| |].
    { change (w_acct (w_of s1) a ≡ Some (abs_obj o')). rewrite Hacc. by constructor. }
    destruct (ext_reads s (setStateObject o' s1) I) as [I2 A2]; [by eapply ext_trans|by rewrite W2|].
    done.
  - destruct Hr as [Hn _]. destruct (ext_reads s s1 I X W) as [I1 A1]. split; [done|]. split; [done|].
    apply Hd. by rewrite <-Ha, Hn.
Qed.

Lemma GetCode_refines a s : sd_inv s ->
  sd_inv (sd_GetCode a s).2 /\ sd_abs (sd_GetCode a s).2 ≡ sd_abs s /\
  (sd_GetCode a s).1 = w_code (w_of s) a.
Proof.
  intros I. apply (cached_getter_refines a so_Code [] (fun w => w_code w a)); [done|..].
  - intros o. apply so_Code_spec.
  - intros o w Hw. by apply (field_Some a_code [] (w_acct w a) (abs_obj o)); [apply _|].
  - intros w Hw. by apply field_None.
Qed.
Lemma GetState_refines a k s : sd_inv s ->
  sd_inv (sd_GetState a k s).2 /\ sd_abs (sd_GetState a k s).2 ≡ sd_abs s /\
  (sd_GetState a k s).1 = w_storage (w_of s) a k.
Proof.
  intros I. apply (cached_getter_refines a (so_GetState k) 0%N (fun w => w_storage w a k)); [done|..].
  - intros o. apply so_GetState_spec.
  - intros o w Hw. apply (field_Some (fun x => a_storage x k) 0%N (w_acct w a) (abs_obj o)); [|done].
    intros x y Hxy. by rewrite Hxy.
  - intros w Hw. by apply (field_None (fun x => a_storage x k)).
Qed.
End Refine.
Arguments sd_inv {_ _} _ _.
