(* ===== verification/StateRevert.v ===== *)
(** Snapshots and reverting to them: the journal of the [StateDB] restores
    the world of a revision.  With this the journaled state implements the
    interface the virtual machine relies on ([Statedb_spec]). *)
From S2P Require Import Prelude BigMath StateSpec StateRel Vm StateObject Statedb StateUndo StateRefine.

(** ** sort.Search *)

(** On a predicate that does not go back to false, binary search gives the
    first index where it holds. *)
Lemma sort_Search_loop_spec f i k fuel : forall j,
  (i <= k <= j)%nat -> (j - i <= fuel)%nat ->
  (forall h, (i <= h < j)%nat -> f h = (k <=? h)%nat) ->
  sort_Search_loop fuel f i j = Done k.
Proof.
  revert i. induction fuel as [|fuel IH]; intros i j Hk Hfuel Hf; cbn [sort_Search_loop].
  - destruct (Nat.ltb_spec i j); [lia|]. f_equal. lia.
  - destruct (Nat.ltb_spec i j); [|f_equal; lia].
    assert (Hh : (i <= (i + j) / 2 < j)%nat).
    { split; [apply Nat.div_le_lower_bound; lia|apply Nat.Div0.div_lt_upper_bound; lia]. }
    rewrite Hf by done. destruct (Nat.leb_spec k ((i + j) / 2)); cbn [negb];
      (apply IH; [lia|lia|intros h Hr; apply Hf; lia]).
Qed.

Lemma sort_Search_spec n k f :
  (k <= n)%nat -> (forall h, (h < n)%nat -> f h = (k <=? h)%nat) -> sort_Search n f = Done k.
Proof. intros Hk Hf. apply sort_Search_loop_spec; [lia|lia|]. intros h Hh. apply Hf. lia. Qed.

(** Whatever the predicate, binary search ends within the range. *)
Lemma sort_Search_loop_done f fuel : forall i j,
  (i <= j)%nat -> (j - i <= fuel)%nat ->
  exists k, sort_Search_loop fuel f i j = Done k /\ (i <= k <= j)%nat.
Proof.
  induction fuel as [|fuel IH]; intros i j Hij Hfuel; cbn [sort_Search_loop].
  - destruct (Nat.ltb_spec i j); [lia|]. exists i. split; [done|lia].
  - destruct (Nat.ltb_spec i j); [|exists i; split; [done|lia]].
    assert (Hh : (i <= (i + j) / 2 < j)%nat).
    { split; [apply Nat.div_le_lower_bound; lia|apply Nat.Div0.div_lt_upper_bound; lia]. }
    destruct (negb (f ((i + j) / 2)%nat)).
    + destruct (IH ((i + j) / 2 + 1)%nat j) as (k & -> & ?); [lia|lia|]. exists k. split; [done|lia].
    + destruct (IH i ((i + j) / 2)%nat) as (k & -> & ?); [lia|lia|]. exists k. split; [done|lia].
Qed.
Lemma sort_Search_done n f : exists k, sort_Search n f = Done k /\ (k <= n)%nat.
Proof. destruct (sort_Search_loop_done f n 0 n) as (k & ? & ?); [lia|lia|]. exists k. split; [done|lia]. Qed.

Section Revert.
Context `{DS : DatabaseSpec} {tracked : bool}.
Implicit Types (s : Statedb) (w : world) (o : stateObject) (en : journalEntry).

(** ** Undoing one entry *)

(** [s'] comes from [s] by undoing [en]: only the world changes, and the
    account the entry is about exists or has no object. *)
Definition undoes en s s' : Prop :=
  objs_ok s' /\ is_u64 (sd_logSize s') /\ w_of s' ≡ wundo en (w_of s) /\
  sd_trie s' = sd_trie s /\ sd_validRevisions s' = sd_validRevisions s /\
  sd_nextRevisionId s' = sd_nextRevisionId s /\ sd_journal s' = sd_journal s /\
  (forall a, dirtied en = Some a -> sd_stateObjects s' !! a = None \/ is_Some (w_acct (w_of s') a)) /\
  (forall a, a ∈ sd_stateObjectsDirty s -> a ∈ sd_stateObjectsDirty s' \/ en = createObjectChange a).

Lemma getStateObject_journal a s : sd_journal (getStateObject a s).2 = sd_journal s.
Proof.
  unfold getStateObject. destruct (sd_stateObjects s !! a); [done|].
  by destruct (AT_TryGet (sd_trie s) a).
Qed.

Lemma upd_some_set a g x w w' :
  Proper ((≡) ==> (≡)) g -> w ≡ w' -> w_acct w a ≡ Some x -> set_acct a (g x) w ≡ upd_some a g w'.
Proof.
  intros Hg Hw Hx. etransitivity; [|by apply upd_some_proper; [|exact Hw]].
  unfold upd_some. inversion Hx as [y ? Hyx E|]; subst. apply set_acct_proper; [|done]. by rewrite Hyx.
Qed.

(** Undoing by a setter [g] of the object, which acts as [G] on accounts. *)
Lemma undo_object en a (g : stateObject -> stateObject) (G : account -> account) s :
  Proper ((≡) ==> (≡)) G -> objs_ok s -> is_u64 (sd_logSize s) ->
  (forall w, wundo en w = upd_some a G w) -> dirtied en = Some a -> is_Some (w_acct (w_of s) a) ->
  (forall o, obj_wf a o -> so_deleted o = false ->
     obj_wf a (g o) /\ so_deleted (g o) = false /\ abs_obj (g o) ≡ G (abs_obj o)) ->
  exists o s1, getStateObject a s = (Some o, s1) /\ undoes en s (setStateObject (g o) s1).
Proof.
  intros HG O L Hen Hdir [x Hx] Hg. destruct (getStateObject a s) as [r s1] eqn:E.
  pose proof (getStateObject_journal a s) as Ej. rewrite E in Ej.
  destruct (getStateObject_spec a s r s1 O L E) as ((O1 & Et & Ev & En & L1 & Ed & _) & W & Hr).
  destruct r as [o|]; simpl in Ej.
  2:{ destruct Hr as [Ha _]. pose proof (acct_equiv _ _ a W) as Heq. rewrite Ha, Hx in Heq. inversion Heq. }
  exists o, s1. split; [done|]. destruct Hr as (Hwf & Hd & Ha). destruct (Hg o Hwf Hd) as (Hwf' & Hd' & Habs).
  assert (W' : w_of (setStateObject (g o) s1) ≡ upd_some a G (w_of s)).
  { rewrite (w_of_setStateObject a) by (done || apply Hwf').
    etransitivity; [apply set_acct_proper; [exact Habs|reflexivity]|]. by apply upd_some_set. }
  unfold undoes. rewrite Hen. split; [by eapply objs_ok_setStateObject|]. do 6 (split; [done|]).
  split; [|intros b Hb; left; simpl; by rewrite Ed]. intros b. rewrite Hdir. intros [= <-]. right. eapply is_Some_acct; [by symmetry|].
  unfold upd_some. rewrite Hx. simpl. by rewrite decide_True.
Qed.

Lemma undo_on_object en a (g : stateObject -> stateObject) (G : account -> account) s :
  Proper ((≡) ==> (≡)) G -> objs_ok s -> is_u64 (sd_logSize s) ->
  (forall w, wundo en w = upd_some a G w) -> dirtied en = Some a -> is_Some (w_acct (w_of s) a) ->
  (forall o, obj_wf a o -> so_deleted o = false ->
     obj_wf a (g o) /\ so_deleted (g o) = false /\ abs_obj (g o) ≡ G (abs_obj o)) ->
  exists s', on_object a g s = Done s' /\ undoes en s s'.
Proof.
  intros HG O L Hen Hdir Hx Hg. destruct (undo_object en a g G s) as (o & s1 & E & H); try done.
  unfold on_object. rewrite E. by eexists.
Qed.

Lemma slice_removelast {A} (l : list A) : l <> [] -> slice l 0 (len l - 1) = Done (removelast l).
Proof.
  intros Hl. destruct (exists_last Hl) as [k [x ->]]. rewrite removelast_last.
  unfold len. rewrite length_app. simpl.
  rewrite slice_done by (unfold len; rewrite ?length_app; simpl; lia).
  rewrite drop_0. f_equal. apply take_app_length'. lia.
Qed.

Lemma undo_log h s :
  objs_ok s -> w_logs (w_of s) h <> [] ->
  exists s', entry_revert (addLogChange h) s = Done s' /\ undoes (addLogChange h) s s'.
Proof.
  intros O Hl. simpl in Hl. simpl.
  assert (Hlogs : forall m, (forall h', default [] (m !! h') =
      if decide (h' = h) then removelast (default [] (sd_logs s !! h)) else default [] (sd_logs s !! h')) ->
    undoes (addLogChange h) s (with_logs m (u64 (sd_logSize s - 1)) s)).
  { intros m Hm. split; [done|]. split; [apply u64_range|]. split; [by apply world_equiv_acct|].
    repeat (split; [done|]). by left. }
  destruct (Nat.eqb_spec (length (default [] (sd_logs s !! h))) 1) as [E|].
  - eexists. split; [done|]. apply Hlogs. intros h'. rewrite lookup_delete.
    destruct (decide (h = h')) as [<-|]; case_decide; try done.
    destruct (default [] (sd_logs s !! h)) as [|x [|]]; try done.
  - rewrite slice_removelast by done. simpl. eexists. split; [done|]. apply Hlogs. intros h'.
    rewrite lookup_insert. by destruct (decide (h = h')) as [<-|]; case_decide.
Qed.

Lemma undo_create a s :
  objs_ok s -> is_u64 (sd_logSize s) -> AT_TryGet (sd_trie s) a = None ->
  exists s', entry_revert (createObjectChange a) s = Done s' /\ undoes (createObjectChange a) s s'.
Proof.
  intros O L Ht. eexists. split; [done|]. split; [|split; [done|split; [|do 4 (split; [done|])]]].
  - destruct O as [O D]. split; [|simpl; rewrite dom_delete; by apply difference_mono_r].
    intros b o. simpl. rewrite lookup_delete. case_decide; [done|apply O].
  - apply world_equiv_acct; try done. intros b. simpl. unfold acct_of. simpl. rewrite lookup_delete.
    destruct (decide (a = b)) as [<-|]; case_decide; try done. by rewrite Ht.
  - split; [intros b [= <-]; left; apply lookup_delete_eq|].
    intros b Hb. destruct (decide (b = a)) as [->|]; [by right|]. left.
    simpl. apply elem_of_difference. split; [done|]. by rewrite elem_of_singleton.
Qed.

Lemma undo_reset prev s :
  objs_ok s -> is_u64 (sd_logSize s) -> so_deleted prev = false -> obj_wf (so_address prev) prev ->
  undoes (resetObjectChange prev) s (setStateObject prev s).
Proof.
  intros O L Hd Hwf. split; [by eapply objs_ok_setStateObject|]. split; [done|].
  split; [by apply w_of_setStateObject|]. repeat (split; [done|]). by left.
Qed.

Lemma entry_revert_spec en s :
  objs_ok s -> is_u64 (sd_logSize s) -> undoable (sd_trie s) en (w_of s) ->
  exists s', entry_revert en s = Done s' /\ undoes en s s'.
Proof.
  intros O L. destruct en as [a|prev|a b z|a z|a n|a k v|a c h|g|h|h|a]; cbn [undoable]; intros Hu.
  - by apply undo_create.
  - destruct Hu as (_ & ? & ?). eexists. split; [done|]. by apply undo_reset.
  - destruct (undo_object (suicideChange a b z) a (fun o => so_setBalance z (set_so_suicided b o))
      (unsuicide b z) s) as (o & s1 & E & H); try apply _; try done.
    + intros o ? ?. split; [done|]. split; [done|apply abs_obj_suicide].
    + simpl. rewrite E. by eexists.
  - apply (undo_on_object _ a _ (set_balance z)); try apply _; try done. intros o ? ?.
    split; [done|]. split; [done|apply abs_obj_setBalance].
  - apply (undo_on_object _ a _ (set_nonce n)); try apply _; try done. intros o ? ?.
    split; [done|]. split; [done|apply abs_obj_setNonce].
  - apply (undo_on_object _ a _ (set_storage k v)); try apply _; try done. intros o ? ?.
    split; [by apply obj_wf_setState|]. split; [done|apply abs_obj_setState].
  - destruct Hu as [Hs Hc]. apply (undo_on_object _ a _ (set_code h c)); try apply _; try done.
    intros o (Ha & Hh & Hn & ?) ?. split; [do 2 (split; [done|]); by split; [apply code_ok_setCode|]|].
    split; [done|]. apply abs_obj_setCode. by rewrite Hh.
  - eexists. split; [done|]. repeat (split; [done|]). by left.
  - by apply undo_log.
  - eexists. split; [done|]. do 2 (split; [done|]). split; [|repeat (split; [done|]); by left].
    apply world_equiv_acct; try done. intros h'. simpl. rewrite lookup_delete.
    by destruct (decide (h = h')) as [<-|]; case_decide.
  - eexists. split; [done|]. repeat (split; [done|]). split; [intros b [= <-]; by right|by left].
Qed.

(** ** Undoing the journal *)

Lemma undirty_lookup en d b : undirty en d !! b = d !! b \/ dirtied en = Some b.
Proof.
  unfold undirty, bump. destruct (dirtied en) as [a|]; [|by left].
  destruct (decide (a = b)) as [->|Hne]; [by right|left].
  case_match; by rewrite ?lookup_delete_ne, lookup_insert_ne.
Qed.

Lemma objs_ok_undirty en s s' :
  undoes en s s' ->
  objs_ok (with_journal {| entries := entries (sd_journal s'); dirties := undirty en (dirties (sd_journal s')) |} s').
Proof.
  intros (O & _ & _ & _ & _ & _ & _ & H & _). apply objs_ok_with_journal; [done|].
  intros b. destruct (undirty_lookup en (dirties (sd_journal s')) b); [by left|right; auto].
Qed.

Lemma counts_undirty en ens d :
  counts_ok (ens ++ [en]) d -> counts_ok ens (undirty en d).
Proof.
  intros C b. specialize (C b). rewrite touches_app, touches_one in C. unfold undirty.
  destruct (dirtied en) as [a|]; [|case_decide; [done|lia]].
  assert (E : touches b ens <= default 0 (bump a (-1) d !! b)).
  { rewrite bump_lookup. repeat case_decide; simplify_eq; lia. }
  cbv zeta. destruct (Z.eqb_spec (default 0 (bump a (-1) d !! a)) 0) as [Ez|]; [|done].
  rewrite lookup_delete. destruct (decide (a = b)) as [<-|]; [simpl; lia|done].
Qed.

(** What undoing the entries [ens], latest first, keeps of the journal and of
    the dirty objects. *)
Definition unwinds ens s s' : Prop :=
  (forall pre, counts_ok (pre ++ rev ens) (dirties (sd_journal s)) -> counts_ok pre (dirties (sd_journal s'))) /\
  (forall a, a ∈ sd_stateObjectsDirty s -> a ∈ sd_stateObjectsDirty s' \/ createObjectChange a ∈ ens).

Lemma revert_entries_spec ens : forall s,
  objs_ok s -> is_u64 (sd_logSize s) -> jok (sd_trie s) ens (w_of s) ->
  exists s', revert_entries ens s = Done s' /\
    objs_ok s' /\ is_u64 (sd_logSize s') /\ w_of s' ≡ wundos ens (w_of s) /\
    sd_trie s' = sd_trie s /\ sd_validRevisions s' = sd_validRevisions s /\
    sd_nextRevisionId s' = sd_nextRevisionId s /\ jentries s' = jentries s /\ unwinds ens s s'.
Proof.
  induction ens as [|en ens IH]; intros s O L J; simpl.
  - exists s. repeat (split; [done|]). split; [intros pre; by rewrite app_nil_r|by left].
  - destruct J as [Hu J].
    destruct (entry_revert_spec en s O L Hu) as (s1 & -> & Hund). pose proof (objs_ok_undirty _ _ _ Hund).
    destruct Hund as (O1 & L1 & W1 & Et & Ev & En & Ej & _ & Hdirty).
    simpl. edestruct IH as (s2 & E2 & O2 & L2 & W2 & Et2 & Ev2 & En2 & Ej2 & Hc2 & Hd2);
      [| | |eexists; split; [exact E2|]].
    + done.
    + done.
    + simpl. rewrite Et. by eapply jok_equiv; [symmetry; exact W1|].
    + split; [done|]. split; [done|]. split.
      * rewrite W2. change (wundos ens (w_of s1) ≡ wundos (en :: ens) (w_of s)). by rewrite W1.
      * unfold jentries in *. simpl in *. do 4 (split; [congruence|]). split.
        -- intros pre C. apply Hc2, counts_undirty. rewrite Ej, <-app_assoc. apply C.
        -- intros a [Ha| ->]%Hdirty; [|right; by left]. destruct (Hd2 a Ha); [by left|right; by right].
Qed.

Lemma journal_revert_spec n s :
  sd_inv tracked s -> (n <= length (jentries s))%nat ->
  exists s', journal_revert n s = Done s' /\
    objs_ok s' /\ is_u64 (sd_logSize s') /\ w_of s' ≡ world_at s n /\
    sd_trie s' = sd_trie s /\ sd_validRevisions s' = sd_validRevisions s /\
    sd_nextRevisionId s' = sd_nextRevisionId s /\ jentries s' = take n (jentries s) /\
    unwinds (rev (drop n (jentries s))) s s'.
Proof.
  intros (O & J & _ & L & _) Hn. unfold journal_revert. fold (jentries s).
  rewrite <-(take_drop n (jentries s)), rev_app_distr in J at 1. apply jok_app in J as [J _].
  destruct (revert_entries_spec _ s O L J) as (s1 & -> & O1 & L1 & W1 & Et & Ev & En & Ej & Hu). simpl.
  fold (jentries s1). rewrite Ej. destruct (Nat.leb_spec n (length (jentries s))); [|lia].
  eexists. split; [done|]. by repeat (split; [done|]).
Qed.

(** Undoing in two stages. *)
Lemma world_at_take m n s s' :
  (m <= n)%nat -> w_of s' ≡ world_at s n -> jentries s' = take n (jentries s) ->
  world_at s' m ≡ world_at s m.
Proof.
  intros Hm W E. unfold world_at in *. rewrite E, W, <-wundos_app, <-rev_app_distr.
  destruct (decide (n <= length (jentries s))%nat) as [Hl|Hl].
  - rewrite <-(take_drop n (jentries s)) at 3. rewrite drop_app_le; [done|]. rewrite length_take. lia.
  - rewrite (take_ge _ n), (drop_ge _ n) by lia. by rewrite app_nil_r.
Qed.

(** An account created by an entry is not there at the beginning. *)
Lemma undone_None tr ens a : forall w, jok tr ens w -> w_acct w a = None -> w_acct (wundos ens w) a = None.
Proof.
  assert (Hupd : forall b g w, is_Some (w_acct w b) -> w_acct w a = None -> w_acct (upd_some b g w) a = None).
  { intros b g w [x Hx] Ha. unfold upd_some. rewrite Hx. simpl. case_decide; [congruence|done]. }
  induction ens as [|en ens IH]; intros w J Ha; [done|]. destruct J as [Hu J]. apply IH; [done|].
  destruct en; simpl in *; try case_decide; try done; try (by apply Hupd).
  - destruct Hu as ([? ?] & _). congruence.
  - by apply Hupd; [apply Hu|].
Qed.
Lemma undone_created tr ens a : forall w,
  jok tr ens w -> createObjectChange a ∈ ens -> w_acct (wundos ens w) a = None /\ AT_TryGet tr a = None.
Proof.
  induction ens as [|en ens IH]; intros w J; [by intros ?%elem_of_nil|]. destruct J as [Hu J].
  intros [<-|Hin]%elem_of_cons; [|by apply IH]. split; [|done].
  apply (undone_None tr ens a (del_acct a w)); [done|]. simpl. by rewrite decide_True.
Qed.

Lemma based_take n s s' :
  sd_inv tracked s -> (n <= length (jentries s))%nat -> w_of s' ≡ world_at s n -> sd_trie s' = sd_trie s ->
  jentries s' = take n (jentries s) -> unwinds (rev (drop n (jentries s))) s s' ->
  tracked = true -> based s'.
Proof.
  intros (_ & J & _ & _ & _ & B) Hn W Et Ej [_ Hd] Htr a Ha. specialize (B Htr). unfold trie_acct. rewrite Et.
  rewrite (acct_equiv _ _ a (world_at_take 0 n s s' ltac:(lia) W Ej)).
  destruct (decide (a ∈ sd_stateObjectsDirty s)) as [Hin|Hin]; [|by apply B].
  destruct (Hd a Hin) as [?|Hc]; [done|].
  assert (Hc' : createObjectChange a ∈ rev (jentries s)).
  { rewrite <-(take_drop n (jentries s)), rev_app_distr. apply elem_of_app. by left. }
  destruct (undone_created _ _ a _ J Hc') as [Hw Ht]. unfold world_at. rewrite drop_0, Hw, Ht. done.
Qed.

Lemma revs_ok_take revs next n i r :
  revs_ok revs next n -> revs !! i = Some r -> revs_ok (take i revs) next (rev_journalIndex r).
Proof.
  intros [H1 H2] Hi. split.
  - intros j k x y Hjk Hx Hy. apply lookup_take_Some in Hx as [Hx ?], Hy as [Hy ?]. by apply (H1 j k).
  - intros j x Hx. apply lookup_take_Some in Hx as [Hx ?]. split; [by eapply H2|]. by eapply (H1 j i).
Qed.

(** The identifiers of the revisions are found by binary search. *)
Lemma search_revision revs next n i r :
  revs_ok revs next n -> revs !! i = Some r ->
  sort_Search (length revs)
    (fun j => match revs !! j with Some x => rev_id r <=? rev_id x | None => true end) = Done i.
Proof.
  intros [H1 _] Hi. apply sort_Search_spec; [apply lookup_lt_Some in Hi; lia|]. intros h Hh.
  destruct (lookup_lt_is_Some_2 revs h Hh) as [x Hx]. rewrite Hx.
  destruct (Nat.leb_spec i h); apply Z.leb_le || apply Z.leb_gt.
  - destruct (decide (i = h)) as [->|]; [by simplify_eq|]. destruct (H1 i h r x); [lia|done|done|lia].
  - by apply (H1 h i).
Qed.

Lemma RevertToSnapshot_index i r s :
  sd_inv tracked s -> sd_validRevisions s !! i = Some r ->
  exists s', sd_RevertToSnapshot (rev_id r) s = Done s' /\ sd_inv tracked s' /\
    w_of s' ≡ world_at s (rev_journalIndex r) /\ saves (sd_abs s') ≡ take i (saves (sd_abs s)).
Proof.
  intros I Hi. pose proof I as (O & J & V & L & C & _). unfold sd_RevertToSnapshot.
  rewrite (search_revision _ _ _ i r V Hi). simpl. rewrite Hi, Z.eqb_refl. simpl.
  set (n := rev_journalIndex r). assert (Hn : (n <= length (jentries s))%nat) by (by eapply V).
  destruct (journal_revert_spec n s I Hn) as (s1 & -> & O1 & L1 & W1 & Et & Ev & En & Ej & Hu). simpl.
  eexists. split; [done|]. split; [|split; [done|]].
  - split; [done|]. split; [|split; [|split; [done|split; [|by apply (based_take n s)]]]];
      unfold jentries in *; simpl; rewrite ?Et, ?Ev, ?En, Ej.
    + rewrite <-(take_drop n (entries _)), rev_app_distr in J. apply jok_app in J as [_ J].
      by eapply jok_equiv; [symmetry; exact W1|].
    + rewrite length_take, Nat.min_l by done. by eapply revs_ok_take.
    + apply Hu. unfold jentries. by rewrite rev_involutive, take_drop.
  - simpl. rewrite Ev, <-fmap_take. apply revisions_map_equiv. intros x [j Hj]%list_elem_of_lookup.
    split; [done|]. simpl. apply lookup_take_Some in Hj as [Hj ?].
    apply (world_at_take _ n s); [|done|done]. by apply (proj1 V j i).
Qed.

Lemma RevertToSnapshot_refines id s l w l' :
  sd_inv tracked s -> saves (sd_abs s) ≡ l ++ (id, w) :: l' ->
  exists s', sd_RevertToSnapshot id s = Done s' /\ sd_inv tracked s' /\
    cur (sd_abs s') ≡ w /\ saves (sd_abs s') ≡ l.
Proof.
  intros I H. pose proof H as H2. apply list_equiv_Forall2 in H2.
  apply Forall2_app_inv_r in H2 as (l1 & l2 & Hl1 & Hl2 & E).
  apply Forall2_cons_inv_r in Hl2 as ((id', w') & l3 & [Eid Ew] & _ & ->). simpl in Eid, Ew. subst id'.
  assert (Hi : saves (sd_abs s) !! length l1 = Some (id, w')) by by rewrite E, list_lookup_middle.
  simpl in Hi. apply list_lookup_fmap_Some in Hi as (r & [= -> ->] & Hr).
  destruct (RevertToSnapshot_index _ r s I Hr) as (s' & E' & I' & W & S).
  exists s'. split; [done|]. split; [done|]. split; [simpl; by rewrite W|].
  rewrite S, E, take_app_length. by apply list_equiv_Forall2.
Qed.

Lemma Snapshot_refines s : sd_inv tracked s ->
  sd_inv tracked (sd_Snapshot s).2 /\ sd_abs (sd_Snapshot s).2 ≡ a_snapshot (sd_Snapshot s).1 (sd_abs s).
Proof.
  intros (O & J & [V1 V2] & L). split.
  - split; [done|]. split; [done|]. split; [|done]. simpl. split.
    + intros i j x y Hij Hx Hy. apply lookup_snoc_Some in Hy as [[? Hy]|[-> <-]].
      * apply lookup_snoc_Some in Hx as [[? Hx]|[-> <-]]; [by apply (V1 i j)|lia].
      * apply lookup_snoc_Some in Hx as [[? Hx]|[-> <-]]; [by apply (V2 i)|lia].
    + intros i x [[? Hx]|[-> <-]]%lookup_snoc_Some; simpl.
      * destruct (V2 i x Hx). split; [lia|done].
      * split; [lia|done].
  - split; [done|]. simpl. rewrite map_app. simpl. apply reflexive_eq. do 2 f_equal.
    unfold world_at, jentries. simpl. rewrite drop_all. done.
Qed.

Lemma sd_New_inv tr : sd_inv tracked (sd_New tr).
Proof.
  split; [by repeat split|]. split; [done|]. split; [by split|]. split; [done|].
  split; [by intros a|]. intros _ a _. unfold world_at, trie_acct. simpl. unfold acct_of. simpl. by rewrite lookup_empty.
Qed.

Definition Statedb_spec_gen : StateDBSpec Statedb Keccak256Hash := {|
  sinv := sd_inv tracked;
  abs := sd_abs;
  CreateAccount_spec := CreateAccount_refines;
  AddBalance_spec := AddBalance_refines;
  SubBalance_spec := SubBalance_refines;
  SetNonce_spec := SetNonce_refines;
  SetCode_spec := SetCode_refines;
  SetState_spec := SetState_refines;
  Suicide_spec := Suicide_refines;
  AddRefund_spec := AddRefund_refines;
  AddLog_spec := AddLog_refines;
  AddPreimage_spec := AddPreimage_refines;
  GetBalance_spec := GetBalance_refines;
  GetNonce_spec := GetNonce_refines;
  GetCodeHash_spec := GetCodeHash_refines;
  GetCode_spec := GetCode_refines;
  GetCodeSize_spec := GetCodeSize_refines;
  GetState_spec := GetState_refines;
  HasSuicided_spec := HasSuicided_refines;
  Exist_spec := Exist_refines;
  Empty_spec := Empty_refines;
  GetRefund_spec := fun s _ => eq_refl;
  Snapshot_spec := Snapshot_refines;
  RevertToSnapshot_spec := RevertToSnapshot_refines
|}.
End Revert.

#[export] Instance Statedb_spec `{DS : DatabaseSpec} : StateDBSpec Statedb Keccak256Hash :=
  Statedb_spec_gen (tracked := false).
