(* ===== verification/StateFinalFacts.v ===== *)
(** Finalisation, commit and copies of the state. *)
From S2P Require Import Prelude BigMath StateSpec Supply StateRel Vm StateObject Statedb StateFinal StateUndo.
From S2P Require Import StateRefine StateRevert.

(** [Finalise], [Commit] and [Copy]: what they leave of the world, and what
    they write into the tries. *)

(** Documented behaviour of the tries: they are maps. *)
Class TrieSpec `{DB : Database} := {
  AT_get_update t a d b :
    AT_TryGet (AT_TryUpdate t a d) b = if decide (b = a) then Some d else AT_TryGet t b;
  AT_get_delete t a b :
    AT_TryGet (AT_TryDelete t a) b = if decide (b = a) then None else AT_TryGet t b;
  ST_get_update t k v k' : v <> 0%N ->
    ST_TryGet (ST_TryUpdate t k v) k' = if decide (k' = k) then v else ST_TryGet t k';
  ST_get_delete t k k' :
    ST_TryGet (ST_TryDelete t k) k' = if decide (k' = k) then 0%N else ST_TryGet t k'
}.

Section FinalFacts.
Context `{DS : DatabaseSpec} {TS : TrieSpec} {RO : RangeOrder}.
Implicit Types (s : Statedb) (w : world) (o : stateObject).

(** ** Objects *)

Lemma flush_slot_get t kv k :
  ST_TryGet (flush_slot t kv) k = if decide (k = kv.1) then kv.2 else ST_TryGet t k.
Proof.
  unfold flush_slot. destruct (N.eqb_spec kv.2 0) as [E|E].
  - rewrite ST_get_delete, E. done.
  - by rewrite ST_get_update.
Qed.

Lemma flush_get l : forall t k, NoDup l.*1 ->
  ST_TryGet (foldl flush_slot t l) k = default (ST_TryGet t k) ((list_to_map l : gmap Hash Hash) !! k).
Proof.
  induction l as [|[k' v] l IH]; intros t k Hnd; simpl; [done|].
  inversion_clear Hnd as [|? ? Hk Hl]. rewrite IH by done. rewrite lookup_insert.
  destruct (decide (k' = k)) as [<-|Hne].
  - rewrite (not_elem_of_list_to_map_1 l k') by done. simpl. rewrite flush_slot_get. by case_decide.
  - rewrite flush_slot_get. simpl. by rewrite decide_False.
Qed.

Lemma flush_range_get (m : gmap Hash Hash) t k :
  ST_TryGet (foldl flush_slot t (range m)) k = default (ST_TryGet t k) (m !! k).
Proof.
  rewrite flush_get by apply NoDup_range_keys. f_equal.
  rewrite (list_to_map_proper _ (map_to_list m)) by (apply NoDup_range_keys || apply range_perm).
  by rewrite list_to_map_to_list.
Qed.

(** The storage trie after [updateTrie] holds exactly the storage of the
    object, and the object is unchanged as an account. *)
Lemma updateTrie_spec a o :
  obj_wf a o ->
  let '(tr, o') := updateTrie o in
  obj_wf a o' /\ abs_obj o' ≡ abs_obj o /\ so_deleted o' = so_deleted o /\ so_data o' = so_data o /\
  so_suicided o' = so_suicided o /\ so_code o' = so_code o /\ so_dirtyCode o' = so_dirtyCode o /\
  so_trie o' = Some tr /\ (forall k, ST_TryGet tr k = obj_storage o k).
Proof.
  intros (Ha & Hh & Hc & Hsub & Hval). unfold updateTrie.
  destruct (getTrie o) as [t o1] eqn:Eg.
  assert (Et : t = obj_trie o /\ so_address o1 = so_address o /\ so_addrHash o1 = so_addrHash o /\
    so_code o1 = so_code o /\ so_data o1 = so_data o /\ so_dirtyStorage o1 = so_dirtyStorage o /\
    so_cachedStorage o1 = so_cachedStorage o /\ so_deleted o1 = so_deleted o /\
    so_suicided o1 = so_suicided o /\ so_dirtyCode o1 = so_dirtyCode o).
  { unfold getTrie, obj_trie in *. by destruct (so_trie o); injection Eg as <- <-. }
  destruct Et as (-> & E1 & E2 & E3 & E4 & E5 & E6 & E7 & E8 & E9). simpl.
  set (tr := foldl _ _ _).
  assert (Hget : forall k, ST_TryGet tr k = obj_storage o k).
  { intros k. unfold tr. rewrite flush_range_get, E5, obj_storage_eq.
    destruct (so_dirtyStorage o !! k) as [v|] eqn:Ed; simpl.
    - by rewrite (lookup_weaken _ _ _ _ Ed Hsub).
    - destruct (so_cachedStorage o !! k) as [v|] eqn:Ek; [by apply Hval|done]. }
  rewrite E6. split; [|split; [|done]].
  - split; [simpl; congruence|]. split; [simpl; congruence|].
    split; [unfold code_ok in *; simpl; by rewrite E2, E3, E4, E9|].
    split; [apply map_empty_subseteq|]. intros k v Hk _. unfold obj_trie. simpl. rewrite Hget, obj_storage_eq.
    simpl in Hk. by rewrite Hk.
  - apply abs_obj_equiv; simpl; try done. intros k. rewrite !obj_storage_eq. simpl.
    destruct (so_cachedStorage o !! k) eqn:Ek; [done|]. rewrite Hget, obj_storage_eq. by rewrite Ek.
Qed.

Lemma updateRoot_spec a o :
  obj_wf a o ->
  obj_wf a (updateRoot o) /\ abs_obj (updateRoot o) ≡ abs_obj o /\
  so_deleted (updateRoot o) = so_deleted o /\
  exists tr, so_trie (updateRoot o) = Some tr /\ acc_Root (so_data (updateRoot o)) = ST_Hash tr /\
    forall k, ST_TryGet tr k = obj_storage o k.
Proof.
  intros Hwf. unfold updateRoot. pose proof (updateTrie_spec a o Hwf) as H.
  destruct (updateTrie o) as [tr o'].
  destruct H as ((Ha & Hh & Hc & Hst) & Habs & Hd & Ed & _ & _ & _ & Et & Hget).
  assert (Hst' : storage_ok (set_root (ST_Hash tr) o')).
  { unfold storage_ok, obj_trie in *. simpl in *. by rewrite Et in *. }
  assert (Habs' : abs_obj (set_root (ST_Hash tr) o') ≡ abs_obj o').
  { repeat split; simpl; intros; rewrite ?obj_code_eq, ?obj_storage_eq; simpl; try done. by rewrite Et. }
  split; [by do 3 (split; [done|])|]. split; [by rewrite Habs'|]. split; [done|]. by exists tr.
Qed.

(** ** Finalise *)

Definition w_finalise (del : bool) (D : gset Address) w : world :=
  {| w_acct := fun a => match w_acct w a with
                        | Some x => if bool_decide (a ∈ D) && doomed del x then None else Some x
                        | None => None
                        end;
     w_refund := 0; w_logs := w_logs w; w_logSize := w_logSize w; w_preimages := w_preimages w;
     w_txhash := w_txhash w; w_bhash := w_bhash w; w_txIndex := w_txIndex w |}.

(** The addresses [Finalise] looks at: those in the journal that have an
    object. *)
Definition dirty_addrs s : gset Address := dom (dirties (sd_journal s)) ∩ dom (sd_stateObjects s).

Lemma so_empty_abs o : so_empty o = account_empty emptyCode (abs_obj o).
Proof.
  unfold so_empty, account_empty. simpl. do 2 f_equal. unfold Sign.
  destruct (Z.eqb_spec (acc_Balance (so_data o)) 0) as [->|Hn]; [done|].
  apply Z.eqb_neq. by rewrite Z.sgn_null_iff.
Qed.

(** What a step of the loop leaves: everything but the objects, the trie and
    the dirty set is as it was. *)
Definition frame_same s s' : Prop :=
  sd_refund s' = sd_refund s /\ sd_thash s' = sd_thash s /\ sd_bhash s' = sd_bhash s /\
  sd_txIndex s' = sd_txIndex s /\ sd_logs s' = sd_logs s /\ sd_logSize s' = sd_logSize s /\
  sd_preimages s' = sd_preimages s /\ sd_journal s' = sd_journal s /\
  sd_validRevisions s' = sd_validRevisions s /\ sd_nextRevisionId s' = sd_nextRevisionId s.
Lemma frame_same_trans s1 s2 s3 : frame_same s1 s2 -> frame_same s2 s3 -> frame_same s1 s3.
Proof. unfold frame_same. intros. intuition congruence. Qed.

(** [objs_ok] without the clause on the journal, which does not hold within
    the loop. *)
Definition objs_wf s : Prop :=
  (forall a o, sd_stateObjects s !! a = Some o ->
     obj_wf a o /\ (so_deleted o = true -> AT_TryGet (sd_trie s) a = None)) /\
  sd_stateObjectsDirty s ⊆ dom (sd_stateObjects s).

Lemma objs_ok_wf s : objs_ok s -> objs_wf s.
Proof. intros [O D]. split; [|done]. intros a o E. destruct (O a o E) as [? Hd]. split; [done|]. apply Hd. Qed.

(** Address [a] has been dealt with between [s] and [s']: a doomed object is
    gone from the trie, another one is in it, with the root of a storage trie
    that holds its storage. *)
Definition settled (del : bool) s s' (a : Address) : Prop :=
  match sd_stateObjects s !! a with
  | None => sd_stateObjects s' !! a = None /\ AT_TryGet (sd_trie s') a = AT_TryGet (sd_trie s) a
  | Some o =>
      exists o', sd_stateObjects s' !! a = Some o' /\ abs_obj o' ≡ abs_obj o /\
        if doomed del (abs_obj o) then so_deleted o' = true /\ AT_TryGet (sd_trie s') a = None
        else so_deleted o' = so_deleted o /\
             AT_TryGet (sd_trie s') a = Some (so_data o') /\
             exists tr, so_trie o' = Some tr /\ acc_Root (so_data o') = ST_Hash tr /\
               forall k, ST_TryGet tr k = obj_storage o k
  end.

(** Nothing at [a] has changed. *)
Definition untouched s s' (a : Address) : Prop :=
  sd_stateObjects s' !! a = sd_stateObjects s !! a /\ AT_TryGet (sd_trie s') a = AT_TryGet (sd_trie s) a.

Lemma settled_untouched del s s1 s2 a : settled del s s1 a -> untouched s1 s2 a -> settled del s s2 a.
Proof. unfold settled. intros H [Eo Et]. rewrite Eo, Et. done. Qed.
Lemma untouched_settled del s s1 s2 a : untouched s s1 a -> settled del s1 s2 a -> settled del s s2 a.
Proof. unfold settled. intros [Eo Et] H. by rewrite Eo, Et in H. Qed.

Lemma abs_obj_deleted b o : abs_obj (set_so_deleted b o) ≡ abs_obj o.
Proof. apply abs_obj_equiv; try done. intros k. by rewrite !obj_storage_eq. Qed.

(** ** The loop without its panic

    Without negative balances, which have no encoding, an iteration of the
    loops of [Finalise] and [Commit] is one of these. *)

Definition put_object o s : Statedb := with_trie (AT_TryUpdate (sd_trie s) (so_address o) (so_data o)) s.

Definition settle_object (del : bool) s (a : Address) : Statedb :=
  match sd_stateObjects s !! a with
  | None => s
  | Some o =>
      let s := if so_suicided o || (del && so_empty o) then deleteStateObject o s
               else let o := updateRoot o in put_object o (setStateObject o s) in
      with_dirty ({[a]} ∪ sd_stateObjectsDirty s) s
  end.

Definition store_object (del : bool) (ws : list dbWrite * Statedb) (ao : Address * stateObject) : list dbWrite * Statedb :=
  let '(w, s) := ws in let '(a, o) := ao in
  let isDirty := bool_decide (a ∈ sd_stateObjectsDirty s) in
  let '(w, s) :=
    if so_suicided o || (isDirty && del && so_empty o) then (w, deleteStateObject o s)
    else if isDirty then
      let '(wc, o) := commitCode o in let '(wt, o) := CommitTrie o in (w ++ wc ++ wt, put_object o (setStateObject o s))
    else (w, s) in
  (w, with_dirty (sd_stateObjectsDirty s ∖ {[a]}) s).

Lemma updateStateObject_done o s : 0 <= acc_Balance (so_data o) -> updateStateObject o s = Done (put_object o s).
Proof. intros H. unfold updateStateObject. by destruct (Z.ltb_spec (acc_Balance (so_data o)) 0); [lia|]. Qed.

Lemma updateRoot_balance o : acc_Balance (so_data (updateRoot o)) = acc_Balance (so_data o).
Proof. unfold updateRoot, updateTrie, getTrie. by destruct (so_trie o). Qed.

Lemma finalise_object_done del s a :
  (forall o, sd_stateObjects s !! a = Some o -> 0 <= acc_Balance (so_data o)) ->
  finalise_object del s a = Done (settle_object del s a).
Proof.
  intros H. unfold finalise_object, settle_object. destruct (sd_stateObjects s !! a) as [o|]; [|done].
  destruct (_ || _); [done|]. simpl. rewrite updateStateObject_done; [done|]. rewrite updateRoot_balance. by apply H.
Qed.

Lemma store_object_done del (ws : list dbWrite) s a o :
  (so_suicided o || (del && so_empty o) = false -> 0 <= acc_Balance (so_data o)) ->
  commit_object del (ws, s) (a, o) = Done (store_object del (ws, s) (a, o)).
Proof.
  intros H. unfold commit_object, store_object. case_bool_decide; simpl.
  - destruct (_ || _); [done|]. specialize (H eq_refl).
    assert (E : acc_Balance (so_data (CommitTrie (commitCode o).2).2) = acc_Balance (so_data o)).
    { unfold CommitTrie, updateTrie, getTrie, commitCode. by repeat case_match; simplify_eq/=. }
    destruct (commitCode o) as [wc o1]. simpl in E. destruct (CommitTrie o1) as [wt o2]. simpl in E.
    rewrite updateStateObject_done by lia. done.
  - by destruct (so_suicided o || false).
Qed.

Lemma commit_loop_done del l : forall ws,
  (forall a o, (a, o) ∈ l -> so_suicided o || (del && so_empty o) = false -> 0 <= acc_Balance (so_data o)) ->
  foldl (fun m ao => let* ws := m in commit_object del ws ao) (Done ws) l = Done (foldl (store_object del) ws l).
Proof.
  induction l as [|[a o] l IH]; intros [w s] H; [done|]. cbn [foldl outcome_bind].
  rewrite store_object_done by (apply (H a); by left). apply IH. intros b x Hb. apply (H b). by right.
Qed.

(** The four components of an iteration on an existing object. *)
Lemma settle_object_eq del s a o :
  objs_wf s -> sd_stateObjects s !! a = Some o ->
  let s' := settle_object del s a in
  sd_stateObjects s' =
    <[a := if doomed del (abs_obj o) then set_so_deleted true o else updateRoot o]> (sd_stateObjects s) /\
  sd_trie s' = (if doomed del (abs_obj o) then AT_TryDelete (sd_trie s) a
                else AT_TryUpdate (sd_trie s) a (so_data (updateRoot o))) /\
  sd_stateObjectsDirty s' = {[a]} ∪ sd_stateObjectsDirty s /\ frame_same s s'.
Proof.
  intros [O _] E. destruct (O a o E) as [Hwf _]. unfold settle_object. rewrite E.
  assert (Hdoom : so_suicided o || (del && so_empty o) = doomed del (abs_obj o))
    by (unfold doomed; by rewrite so_empty_abs).
  rewrite Hdoom. destruct (doomed del (abs_obj o)); simpl.
  - by rewrite (proj1 Hwf).
  - by rewrite (proj1 (proj1 (updateRoot_spec a o Hwf))).
Qed.

(** Replacing the object and the entry of the trie at one address. *)
Lemma replace_object s s' a o o' e :
  objs_wf s -> sd_stateObjects s !! a = Some o -> sd_stateObjects s' = <[a := o']> (sd_stateObjects s) ->
  (forall b, AT_TryGet (sd_trie s') b = if decide (b = a) then e else AT_TryGet (sd_trie s) b) ->
  sd_stateObjectsDirty s' ⊆ {[a]} ∪ sd_stateObjectsDirty s ->
  obj_wf a o' -> (so_deleted o' = true -> e = None) ->
  objs_wf s' /\ dom (sd_stateObjects s') = dom (sd_stateObjects s) /\ sd_stateObjects s' !! a = Some o' /\
  AT_TryGet (sd_trie s') a = e /\ (forall b, b <> a -> untouched s s' b).
Proof.
  intros [O D] E Eo Et Ed Hwf Hdel.
  assert (Hdom : dom (sd_stateObjects s') = dom (sd_stateObjects s))
    by (rewrite Eo; apply dom_insert_lookup_L; by eexists).
  split; [|split; [done|split; [by rewrite Eo, lookup_insert_eq|split; [by rewrite Et, decide_True|]]]].
  - split.
    + intros b o1. rewrite Eo, Et, lookup_insert. destruct (decide (a = b)) as [<-|Hne].
      * intros [= <-]. by rewrite decide_True.
      * rewrite decide_False by done. apply O.
    + rewrite Hdom. etransitivity; [exact Ed|]. apply union_least; [|done].
      apply singleton_subseteq_l, elem_of_dom. by eexists.
  - intros b Hb. unfold untouched. by rewrite Eo, Et, lookup_insert_ne, decide_False.
Qed.

Lemma settle_object_spec del s a :
  objs_wf s -> (forall o, sd_stateObjects s !! a = Some o -> so_deleted o = false) ->
  let s' := settle_object del s a in
  objs_wf s' /\ frame_same s s' /\ dom (sd_stateObjects s') = dom (sd_stateObjects s) /\
  settled del s s' a /\ (forall b, b <> a -> untouched s s' b) /\
  sd_stateObjectsDirty s ∪ ({[a]} ∩ dom (sd_stateObjects s)) ⊆ sd_stateObjectsDirty s'.
Proof.
  intros OD Hdel. destruct (sd_stateObjects s !! a) as [o|] eqn:E.
  2:{ unfold settled, untouched, settle_object. rewrite E, E. do 5 (split; [done|]).
      apply not_elem_of_dom in E. set_solver +E. }
  destruct (settle_object_eq del s a o OD E) as (Eo & Et & Ed & Hf).
  destruct (proj1 OD a o E) as [Hwf _]. specialize (Hdel o eq_refl).
  destruct (updateRoot_spec a o Hwf) as (Hwf' & Habs & Hd' & tr & Htr).
  unfold settled. rewrite E. destruct (doomed del (abs_obj o)).
  - edestruct (replace_object s (settle_object del s a) a) as (O' & D' & E' & T' & U');
      [done|done|exact Eo|intros b; rewrite Et; apply AT_get_delete|by rewrite Ed|done|done|].
    do 3 (split; [done|]). split; [|split; [done|rewrite Ed; set_solver +]].
    eexists. split; [done|]. split; [apply abs_obj_deleted|done].
  - edestruct (replace_object s (settle_object del s a) a) as (O' & D' & E' & T' & U');
      [done|done|exact Eo|intros b; rewrite Et; apply AT_get_update|by rewrite Ed|done|by rewrite Hd', Hdel|].
    do 3 (split; [done|]). split; [|split; [done|rewrite Ed; set_solver +]].
    eexists. do 4 (split; [done|]). by exists tr.
Qed.

Lemma finalise_loop_spec del l : forall s,
  NoDup l -> objs_wf s -> (forall a o, a ∈ l -> sd_stateObjects s !! a = Some o -> so_deleted o = false) ->
  let s' := foldl (settle_object del) s l in
  objs_wf s' /\ frame_same s s' /\ dom (sd_stateObjects s') = dom (sd_stateObjects s) /\
  (forall a, a ∈ l -> settled del s s' a) /\ (forall b, b ∉ l -> untouched s s' b) /\
  sd_stateObjectsDirty s ∪ (list_to_set l ∩ dom (sd_stateObjects s)) ⊆ sd_stateObjectsDirty s'.
Proof.
  induction l as [|a l IH]; intros s Hnd O Hdel; simpl.
  { split; [done|]. split; [done|]. split; [done|]. split; [by intros ? ?%elem_of_nil|].
    split; [by split|set_solver +]. }
  apply NoDup_cons in Hnd as [Ha Hl].
  destruct (settle_object_spec del s a O) as (O1 & F1 & D1 & S1 & U1 & M1);
    [intros; by eapply Hdel; [left|]|].
  destruct (IH (settle_object del s a) Hl O1) as (O2 & F2 & D2 & S2 & U2 & M2).
  { intros b o Hb. rewrite (proj1 (U1 b ltac:(by intros ->))). by apply Hdel; right. }
  split; [done|]. split; [by eapply frame_same_trans|]. split; [congruence|]. split; [|split].
  - intros b [->|Hb]%elem_of_cons; [by eapply settled_untouched; [|apply U2]|].
    eapply untouched_settled; [apply U1|by apply S2]. by intros ->.
  - intros b [Hne Hb]%not_elem_of_cons. destruct (U1 b Hne) as [E1 E2], (U2 b Hb) as [E3 E4].
    split; congruence.
  - rewrite D1 in M2. set_solver +M1 M2.
Qed.

Lemma finalise_loop_done del l : forall s,
  NoDup l -> objs_wf s ->
  (forall a o, a ∈ l -> sd_stateObjects s !! a = Some o -> so_deleted o = false /\ 0 <= acc_Balance (so_data o)) ->
  foldl (fun m a => let* s := m in finalise_object del s a) (Done s) l = Done (foldl (settle_object del) s l).
Proof.
  induction l as [|a l IH]; intros s Hnd O H; [done|]. apply NoDup_cons in Hnd as [Ha Hl]. cbn [foldl outcome_bind].
  rewrite finalise_object_done by (intros o Ho; by apply (H a o); [left|]).
  destruct (settle_object_spec del s a O) as (O1 & _ & _ & _ & U1 & _); [intros o Ho; by apply (H a o); [left|]|].
  apply IH; [done|done|]. intros b o Hb. rewrite (proj1 (U1 b ltac:(by intros ->))). apply H. by right.
Qed.

Lemma elem_of_rev {A} (x : A) l : x ∈ rev l <-> x ∈ l.
Proof. rewrite rev_alt. apply elem_of_reverse. Qed.

(** An account that no entry of the journal is about. *)
Lemma wundos_other ens a : forall w,
  (forall en, en ∈ ens -> dirtied en <> Some a /\ forall prev, en = resetObjectChange prev -> so_address prev <> a) ->
  w_acct (wundos ens w) a = w_acct w a.
Proof.
  assert (Hupd : forall b g w, b <> a -> w_acct (upd_some b g w) a = w_acct w a).
  { intros b g w Hb. unfold upd_some. destruct (w_acct w b); [|done]. simpl. by case_decide. }
  induction ens as [|en ens IH]; intros w H; [done|]. simpl.
  change (w_acct (wundos ens (wundo en w)) a = w_acct w a). rewrite IH by (intros; apply H; by right).
  destruct (H en ltac:(by left)) as [Hd Hr].
  destruct en; simpl in *; try done; try (apply Hupd; congruence); case_decide; try congruence.
  by destruct (Hr prev eq_refl).
Qed.

(** Objects replaced by [CreateAccount] are in the journal through another
    entry: the entry of the replacement itself does not mark them. *)
Definition resets_marked s : Prop :=
  forall prev, resetObjectChange prev ∈ jentries s -> is_Some (dirties (sd_journal s) !! so_address prev).

Lemma unmarked_acct s a :
  sd_inv true s -> resets_marked s -> dirties (sd_journal s) !! a = None -> a ∉ sd_stateObjectsDirty s ->
  acct_of s a ≡ trie_acct s a.
Proof.
  intros (_ & _ & _ & _ & C & B) R Ha Hd. rewrite <-(B eq_refl a Hd). unfold world_at.
  rewrite drop_0, wundos_other; [done|]. intros en Hen. split.
  - intros Hen'. specialize (C a). rewrite Ha in C. unfold touches, len in C. simpl in C.
    destruct (filter _ _) as [|x l] eqn:Ef; [|simpl in C; lia].
    apply (filter_nil_not_elem_of _ _ _ Ef Hen'). by apply elem_of_rev.
  - intros prev -> E. destruct (R prev) as [n Hn]; [|congruence].
    by apply elem_of_rev.
Qed.

Lemma untouched_acct s s' a : untouched s s' a -> acct_of s' a = acct_of s a.
Proof. unfold acct_of. by intros [-> ->]. Qed.

Lemma settled_acct del s s' a :
  (forall o, sd_stateObjects s !! a = Some o -> so_deleted o = false) -> settled del s s' a ->
  acct_of s' a ≡ match acct_of s a with
                 | Some x => if bool_decide (a ∈ dom (sd_stateObjects s)) && doomed del x then None else Some x
                 | None => None
                 end.
Proof.
  intros Hdel H. unfold settled, acct_of in *. destruct (sd_stateObjects s !! a) as [o|] eqn:E.
  - rewrite bool_decide_true by (apply elem_of_dom; by eexists). rewrite (Hdel o) in * by done.
    destruct H as (o' & -> & Habs & H). simpl.
    destruct (doomed del (abs_obj o)); destruct H as [-> _]; [done|by constructor].
  - destruct H as [-> ->]. rewrite bool_decide_false by (by apply not_elem_of_dom). simpl.
    by destruct (AT_TryGet (sd_trie s) a).
Qed.

Lemma doomed_true del x : doomed del x = true -> doomed true x = true.
Proof. unfold doomed. destruct (a_suicided x), del; done. Qed.

Lemma marked_not_deleted s a o :
  objs_ok s -> a ∈ dom (dirties (sd_journal s)) -> sd_stateObjects s !! a = Some o -> so_deleted o = false.
Proof.
  intros O Ha E. destruct (so_deleted o) eqn:Ed; [|done]. destruct (proj1 O a o E) as [_ H].
  destruct (H Ed) as (_ & Hj & _). apply elem_of_dom in Ha as [? ?]. congruence.
Qed.

(** The loop over the journal, whatever the order of the iteration. *)
Lemma finalise_range_spec del s :
  objs_ok s ->
  let s' := foldl (settle_object del) s (range (dirties (sd_journal s))).*1 in
  frame_same s s' /\ sd_stateObjectsDirty s' ⊆ dom (sd_stateObjects s') /\
  (forall a, a ∈ dom (dirties (sd_journal s)) -> settled del s s' a) /\
  (forall a, a ∉ dom (dirties (sd_journal s)) -> untouched s s' a) /\
  (forall a o, sd_stateObjects s' !! a = Some o ->
     obj_wf a o /\ (so_deleted o = true -> AT_TryGet (sd_trie s') a = None /\ doomed true (abs_obj o) = true)) /\
  sd_stateObjectsDirty s ∪ dirty_addrs s ⊆ sd_stateObjectsDirty s'.
Proof.
  intros O. destruct (finalise_loop_spec del (range (dirties (sd_journal s))).*1 s) as (O' & F & _ & S & U & M).
  - apply NoDup_range_keys.
  - by apply objs_ok_wf.
  - intros a o Ha E. eapply marked_not_deleted; [done| |done]. by apply elem_of_dom, elem_of_range_keys.
  - assert (Hk : forall a, a ∈ dom (dirties (sd_journal s)) <-> a ∈ (range (dirties (sd_journal s))).*1).
    { intros a. by rewrite elem_of_range_keys, elem_of_dom. }
    split; [done|]. split; [apply O'|]. split; [intros a Ha; by apply S, Hk|]. split; [intros a Ha; by apply U; rewrite <-Hk|].
    split; [|etransitivity; [|exact M]; unfold dirty_addrs; intros a; specialize (Hk a); set_solver +Hk].
    intros a o E. destruct (proj1 O' a o E) as [Hwf Hd]. split; [done|]. intros Ed. split; [auto|].
    destruct (decide (a ∈ dom (dirties (sd_journal s)))) as [Ha|Ha].
    + specialize (S a (proj1 (Hk a) Ha)). unfold settled in S.
      destruct (sd_stateObjects s !! a) as [o0|] eqn:E0; [|destruct S; congruence].
      destruct S as (o' & E' & Habs & S). simplify_eq.
      destruct (doomed del (abs_obj o0)) eqn:Hdoom; [rewrite Habs; by eapply doomed_true|].
      destruct S as [Edel _]. pose proof (marked_not_deleted s a o0 O Ha E0). congruence.
    + destruct (U a) as [Eo _]; [by rewrite <-Hk|]. rewrite E in Eo. by apply (proj1 O a o).
Qed.

Lemma finalised_world del s s' :
  objs_ok s -> frame_same s s' ->
  (forall a, a ∈ dom (dirties (sd_journal s)) -> settled del s s' a) ->
  (forall a, a ∉ dom (dirties (sd_journal s)) -> untouched s s' a) ->
  w_of (clearJournalAndRefund s') ≡ w_finalise del (dirty_addrs s) (w_of s).
Proof.
  intros O (F1 & F2 & F3 & F4 & F5 & F6 & F7 & _) S U.
  apply world_equiv_acct; simpl; try done; try (intros; congruence).
  intros a. change (acct_of (clearJournalAndRefund s') a) with (acct_of s' a).
  destruct (decide (a ∈ dom (dirties (sd_journal s)))) as [Ha|Ha].
  - rewrite (settled_acct del s s'); [|intros o E; by eapply marked_not_deleted|by apply S].
    destruct (acct_of s a) as [x|]; [|done].
    rewrite (bool_decide_ext (a ∈ dirty_addrs s) (a ∈ dom (sd_stateObjects s))); [done|].
    unfold dirty_addrs. rewrite elem_of_intersection. tauto.
  - rewrite (untouched_acct s s' a) by auto. destruct (acct_of s a); [|done].
    rewrite bool_decide_false; [done|]. unfold dirty_addrs. by rewrite elem_of_intersection; intros [? _].
Qed.

(** No account has a negative balance; it could not be encoded. *)
Definition w_nonneg w : Prop := forall a, 0 <= w_balance w a.
Lemma nonneg_object s a o :
  w_nonneg (w_of s) -> sd_stateObjects s !! a = Some o -> so_deleted o = false -> 0 <= acc_Balance (so_data o).
Proof. intros H E Hd. specialize (H a). unfold w_balance in H. simpl in H. unfold acct_of in H. by rewrite E, Hd in H. Qed.

(** What [Finalise] gives. *)
Definition finalised (del : bool) s : Statedb :=
  clearJournalAndRefund (foldl (settle_object del) s (range (dirties (sd_journal s))).*1).
Lemma Finalise_done del s : objs_ok s -> w_nonneg (w_of s) -> sd_Finalise del s = Done (finalised del s).
Proof.
  intros O Hn. unfold sd_Finalise. rewrite finalise_loop_done; [done|apply NoDup_range_keys|by apply objs_ok_wf|].
  intros a o Ha E. apply elem_of_range_keys, elem_of_dom in Ha. pose proof (marked_not_deleted s a o O Ha E) as Hd.
  split; [done|]. by eapply nonneg_object.
Qed.

Lemma finalised_spec {tracked} del s :
  sd_inv tracked s -> (tracked = true -> resets_marked s) ->
  let s' := finalised del s in
  sd_inv tracked s' /\ w_of s' ≡ w_finalise del (dirty_addrs s) (w_of s) /\ saves (sd_abs s') = [] /\
  (forall a, a ∈ dom (dirties (sd_journal s)) -> settled del s s' a) /\
  (forall a, a ∉ dom (dirties (sd_journal s)) -> untouched s s' a).
Proof.
  intros I R. pose proof I as (O & _ & _ & L & _ & B).
  destruct (finalise_range_spec del s O) as (F & D & S & U & O' & M). unfold finalised.
  set (s1 := foldl _ _ _) in *.
  pose proof (finalised_world del s s1 O F S U) as W. split; [|done].
  split; [|split; [done|split; [by split|split; [|split; [by intros a|]]]]].
  - split; [|done]. intros a o E. destruct (O' a o E) as [Hwf Hd]. split; [done|].
    intros Ed. destruct (Hd Ed). split; [done|]. split; [apply lookup_empty|done].
  - simpl. destruct F as (_ & _ & _ & _ & _ & -> & _). done.
  - intros Ht a Ha. subst tracked. simpl in Ha. change (acct_of s1 a ≡ trie_acct s1 a).
    destruct (sd_stateObjects s1 !! a) as [o|] eqn:Eo; [|unfold acct_of, trie_acct; by rewrite Eo].
    assert (Hn : a ∉ dom (dirties (sd_journal s))).
    { intros Hin. specialize (S a Hin). unfold settled in S.
      destruct (sd_stateObjects s !! a) as [o0|] eqn:E0; [|destruct S; congruence].
      apply Ha, M, elem_of_union. right. apply elem_of_intersection. split; [done|]. apply elem_of_dom. by eexists. }
    destruct (U a Hn) as [E1 E2]. unfold trie_acct. rewrite (untouched_acct s s1 a), E2 by done.
    apply unmarked_acct; [done|auto|by apply not_elem_of_dom|]. intros Hin. apply Ha, M, elem_of_union. by left.
Qed.

End FinalFacts.

(** [Commit] and [Copy].

    A state that is committed and opened again holds the same accounts: the
    tries and the code that [Commit] writes are complete. *)

Section CommitFacts.
Context `{DS : DatabaseSpec} {TS : TrieSpec} {RO : RangeOrder}.
Implicit Types (s : Statedb) (w : world) (o : stateObject) (ws : list dbWrite).

(** What was written can be read: tries are found under their root, code
    under its hash, which is not that of the empty code. *)
Definition readable ws : Prop :=
  (forall root tr, WriteStorage root tr ∈ ws -> forall h k, ST_TryGet (OpenStorageTrie h root) k = ST_TryGet tr k) /\
  (forall hash code, WriteCode hash code ∈ ws -> hash <> emptyCode /\ forall h, ContractCode h hash = code).

Lemma readable_app ws ws' : readable (ws ++ ws') <-> readable ws /\ readable ws'.
Proof.
  unfold readable. split.
  - intros [H1 H2]. split; (split; [intros root tr Hin|intros hash code Hin]); first [apply H1|apply H2];
      apply elem_of_app; auto.
  - intros [[H1 H2] [H3 H4]]. split; [intros root tr [Hin|Hin]%elem_of_app|intros hash code [Hin|Hin]%elem_of_app]; auto.
Qed.

(** ** One object *)

Lemma commitCode_spec a o :
  obj_wf a o ->
  let '(wc, o') := commitCode o in
  readable wc ->
  obj_wf a o' /\ abs_obj o' ≡ abs_obj o /\ so_deleted o' = so_deleted o /\ so_data o' = so_data o /\
  so_suicided o' = so_suicided o /\ so_code o' = so_code o /\
  (acc_CodeHash (so_data o) = emptyCode -> obj_code o = []) /\
  (acc_CodeHash (so_data o) <> emptyCode -> ContractCode (so_addrHash o) (acc_CodeHash (so_data o)) = obj_code o).
Proof.
  intros Hwf. pose proof Hwf as (Ha & Hh & [Hne Hc] & Hst). rewrite obj_code_eq. unfold commitCode.
  destruct (so_code o) as [c|] eqn:Ec.
  - destruct (so_dirtyCode o) eqn:Ed.
    + intros [_ Hr]. destruct (Hr (acc_CodeHash (so_data o)) c) as [Hn Hread]; [by left|].
      split; [|split].
      * do 2 (split; [done|]). split; [|done]. split; [done|]. intros c' [= <-] _. by split.
      * apply abs_obj_equiv; try done. intros k. by rewrite !obj_storage_eq.
      * by rewrite Hread.
    + intros _. destruct (Hc c) as [Hn Hread]; [done|done|]. by rewrite Hread.
  - intros _. do 6 (split; [done|]). by destruct (N.eqb_spec (acc_CodeHash (so_data o)) emptyCode).
Qed.

Lemma CommitTrie_eq o : (CommitTrie o).2 = updateRoot o.
Proof. unfold CommitTrie, updateRoot. by destruct (updateTrie o). Qed.

Lemma commit_obj_spec a o :
  obj_wf a o -> so_suicided o = false ->
  let '(wc, o1) := commitCode o in let '(wt, o2) := CommitTrie o1 in
  readable (wc ++ wt) ->
  obj_wf a o2 /\ abs_obj o2 ≡ abs_obj o /\ so_deleted o2 = so_deleted o /\
  abs_obj (newObject a (so_data o2)) ≡ abs_obj o.
Proof.
  intros Hwf Hs. pose proof (commitCode_spec a o Hwf) as HC. destruct (commitCode o) as [wc o1].
  destruct (CommitTrie o1) as [wt o2] eqn:Et. intros [Hrc Hrt]%readable_app.
  destruct (HC Hrc) as (Hwf1 & Ha1 & Hd1 & Edata & Es & Eco & He & Hne). clear HC.
  destruct (updateRoot_spec a o1 Hwf1) as (Hwf2 & Ha2 & Hd2 & tr & Etr & Eroot & Hget).
  pose proof (CommitTrie_eq o1) as E2. rewrite Et in E2. simpl in E2. subst o2.
  split; [done|]. split; [by rewrite Ha2|]. split; [congruence|].
  assert (Hw : wt = [WriteStorage (ST_Hash tr) tr]).
  { unfold CommitTrie in Et. pose proof (updateTrie_spec a o1 Hwf1) as H. unfold updateRoot in Etr.
    destruct (updateTrie o1) as [tr' o']. simpl in *. destruct H as (_ & _ & _ & _ & _ & _ & _ & E & _). congruence. }
  pose proof (proj1 Hrt (ST_Hash tr) tr ltac:(subst wt; by left)) as Hread.
  destruct Ha2 as (N2 & B2 & C2 & _), Ha1 as (_ & _ & _ & _ & S1 & _). simpl in *. rewrite Edata in *.
  do 3 (split; [done|]). split; [|split; [|done]]; simpl.
  - rewrite obj_code_eq. simpl. rewrite C2. rewrite <-(proj1 (proj2 Hwf)).
    destruct (N.eqb_spec (acc_CodeHash (so_data o)) emptyCode); [symmetry|]; auto.
  - intros k. rewrite obj_storage_eq. simpl. rewrite lookup_empty. simpl. by rewrite Eroot, Hread, Hget.
Qed.

(** ** The loop *)

(** Whether [Commit] removes the object. *)
Definition removed (del dirty : bool) o : bool := so_suicided o || (dirty && del && so_empty o).

(** What [Commit] does at [a], where [o] is the object and [dirty] says
    whether it is marked. *)
Definition kept (del dirty : bool) s s' (a : Address) o : Prop :=
  exists o', sd_stateObjects s' !! a = Some o' /\ abs_obj o' ≡ abs_obj o /\
    if removed del dirty o then so_deleted o' = true /\ AT_TryGet (sd_trie s') a = None
    else if dirty then so_deleted o' = so_deleted o /\ trie_acct s' a ≡ Some (abs_obj o)
    else o' = o /\ AT_TryGet (sd_trie s') a = AT_TryGet (sd_trie s) a.

Lemma kept_untouched del dirty s s1 s2 a o : kept del dirty s s1 a o -> untouched s1 s2 a -> kept del dirty s s2 a o.
Proof. unfold kept, trie_acct. intros H [Eo Et]. rewrite Eo, Et. done. Qed.
Lemma untouched_kept del dirty s s1 s2 a o : untouched s s1 a -> kept del dirty s1 s2 a o -> kept del dirty s s2 a o.
Proof. unfold kept. intros [Eo Et] H. by rewrite Et in H. Qed.

Lemma store_object_spec del ws s a o :
  let '(ws', s') := store_object del (ws, s) (a, o) in
  objs_wf s -> sd_stateObjects s !! a = Some o -> readable ws' ->
  (so_deleted o = true -> a ∈ sd_stateObjectsDirty s -> removed del true o = true) ->
  objs_wf s' /\ frame_same s s' /\ dom (sd_stateObjects s') = dom (sd_stateObjects s) /\
  sd_stateObjectsDirty s' = sd_stateObjectsDirty s ∖ {[a]} /\
  kept del (bool_decide (a ∈ sd_stateObjectsDirty s)) s s' a o /\ (forall b, b <> a -> untouched s s' b).
Proof.
  unfold store_object. fold (removed del (bool_decide (a ∈ sd_stateObjectsDirty s)) o). unfold kept.
  destruct (removed del _ o) eqn:Erem; [|case_bool_decide as Ha].
  - intros OD E _ _. destruct (proj1 OD a o E) as [Hwf _].
    edestruct (replace_object s (with_dirty (sd_stateObjectsDirty s ∖ {[a]}) (deleteStateObject o s)) a o
      (set_so_deleted true o) None) as (O' & D' & E' & T' & U'); try done.
    + simpl. by rewrite (proj1 Hwf).
    + intros b. simpl. rewrite (proj1 Hwf). apply AT_get_delete.
    + simpl. set_solver +.
    + do 4 (split; [done|]). split; [|done].
      eexists. split; [done|]. split; [apply abs_obj_deleted|done].
  - destruct (commitCode o) as [wc o1] eqn:Ec. destruct (CommitTrie o1) as [wt o2] eqn:Et.
    intros OD E [_ Hr]%readable_app Hdel. destruct (proj1 OD a o E) as [Hwf _].
    apply orb_false_iff in Erem as [Hsu Hem].
    pose proof (commit_obj_spec a o Hwf Hsu) as H. rewrite Ec, Et in H. destruct (H Hr) as (Hwf' & Ha' & Hd' & Hn').
    assert (Hnd : so_deleted o = false).
    { destruct (so_deleted o); [|done]. unfold removed in Hdel. rewrite Hsu, Hem in Hdel. by specialize (Hdel eq_refl Ha). }
    edestruct (replace_object s (with_dirty (sd_stateObjectsDirty s ∖ {[a]}) (put_object o2 (setStateObject o2 s)))
      a o o2 (Some (so_data o2))) as (O' & D' & E' & T' & U'); try done.
    + simpl. by rewrite (proj1 Hwf').
    + intros b. simpl. rewrite (proj1 Hwf'). apply AT_get_update.
    + simpl. set_solver +.
    + congruence.
    + do 4 (split; [done|]). split; [|done].
      exists o2. do 3 (split; [done|]). unfold trie_acct. simpl in *. rewrite T'. by constructor.
  - intros OD E _ _. split; [split; [apply OD|]|].
    { simpl. etransitivity; [|apply OD]. set_solver +. }
    do 3 (split; [done|]). split; [by exists o|done].
Qed.
Lemma store_object_writes del ws s ao : ws `prefix_of` (store_object del (ws, s) ao).1.
Proof.
  destruct ao as [a o]. unfold store_object. destruct (_ || _); [done|].
  destruct (bool_decide _); [|done]. destruct (commitCode o) as [wc o1], (CommitTrie o1) as [wt o2].
  by apply prefix_app_r.
Qed.
Lemma commit_loop_writes del l : forall wss, wss.1 `prefix_of` (foldl (store_object del) wss l).1.
Proof.
  induction l as [|ao l IH]; intros [ws s]; [done|]. simpl.
  etransitivity; [apply (store_object_writes del ws s ao)|apply IH].
Qed.
Lemma readable_prefix ws ws' : ws `prefix_of` ws' -> readable ws' -> readable ws.
Proof. by intros [k ->] [? _]%readable_app. Qed.

Lemma commit_loop_spec del l : forall ws s,
  let '(ws', s') := foldl (store_object del) (ws, s) l in
  NoDup l.*1 -> objs_wf s -> (forall a o, (a, o) ∈ l -> sd_stateObjects s !! a = Some o) -> readable ws' ->
  (forall a o, (a, o) ∈ l -> so_deleted o = true -> a ∈ sd_stateObjectsDirty s -> removed del true o = true) ->
  objs_wf s' /\ frame_same s s' /\ dom (sd_stateObjects s') = dom (sd_stateObjects s) /\
  sd_stateObjectsDirty s' = sd_stateObjectsDirty s ∖ list_to_set l.*1 /\
  (forall a o, (a, o) ∈ l -> kept del (bool_decide (a ∈ sd_stateObjectsDirty s)) s s' a o) /\
  (forall b, b ∉ l.*1 -> untouched s s' b).
Proof.
  induction l as [|[a o] l IH]; intros ws s; cbn [foldl].
  { intros _ O _ _ _. do 3 (split; [done|]). split; [simpl; set_solver +|]. by split; [intros ? ? ?%elem_of_nil|]. }
  pose proof (store_object_spec del ws s a o) as HO. pose proof (commit_loop_writes del l) as HW.
  destruct (store_object del (ws, s) (a, o)) as [ws1 s1]. specialize (IH ws1 s1). specialize (HW (ws1, s1)).
  destruct (foldl _ _ _) as [ws2 s2]. simpl in HW |- *. intros [Ha Hl]%NoDup_cons O Hin Hr Hdel.
  destruct HO as (O1 & F1 & D1 & M1 & K1 & U1); [done|by apply Hin; left|by eapply readable_prefix|by apply Hdel; left|].
  assert (Hne : forall b ob, (b, ob) ∈ l -> b <> a).
  { intros b ob Hb ->. apply Ha, list_elem_of_fmap. by exists (a, ob). }
  destruct IH as (O2 & F2 & D2 & M2 & K2 & U2); try done.
  { intros b ob Hb. rewrite (proj1 (U1 b (Hne b ob Hb))). by apply Hin; right. }
  { intros b ob Hb Hd. rewrite M1. intros [? _]%elem_of_difference. by apply (Hdel b); [right|..]. }
  split; [done|]. split; [by eapply frame_same_trans|]. split; [congruence|]. split; [rewrite M2, M1; set_solver +|].
  split.
  - intros b ob [[= -> ->]|Hb]%elem_of_cons; [by eapply kept_untouched; [|apply U2]|].
    pose proof (Hne b ob Hb) as Hba. eapply untouched_kept; [by apply U1|].
    rewrite (bool_decide_ext (b ∈ sd_stateObjectsDirty s) (b ∈ sd_stateObjectsDirty s1)); [by apply K2|].
    rewrite M1. set_solver +Hba.
  - intros b [Hb1 Hb2]%not_elem_of_cons. destruct (U1 b Hb1) as [E1 E2], (U2 b Hb2) as [E3 E4]. split; congruence.
Qed.

(** ** Commit *)

(** The objects that [Commit] writes. *)
Definition marked s : gset Address := dom (dirties (sd_journal s)) ∪ sd_stateObjectsDirty s.

(** What [Commit] relies on: replaced objects are marked, what the journal
    marks exists, and objects deleted by an earlier [Finalise] are removed
    again. *)
Definition committable (del : bool) s : Prop :=
  resets_marked s /\ dom (dirties (sd_journal s)) ⊆ dom (sd_stateObjects s) /\
  (forall a o, sd_stateObjects s !! a = Some o -> so_deleted o = true -> doomed del (abs_obj o) = true).

Lemma removed_doomed del o : removed del true o = doomed del (abs_obj o).
Proof. unfold removed, doomed. by rewrite so_empty_abs. Qed.

(** One account after [Commit]: as specified, and as the trie has it. *)
Lemma kept_acct del s s' a o :
  sd_inv true s -> committable del s -> sd_stateObjects s !! a = Some o ->
  kept del (bool_decide (a ∈ marked s)) s s' a o ->
  acct_of s' a ≡ w_acct (w_finalise del (marked s) (w_of s)) a /\ acct_of s' a ≡ trie_acct s' a.
Proof.
  intros I (R & _ & Hdel) E (o' & E' & Habs & H). cbn [w_acct w_finalise w_of].
  assert (Hun : a ∉ marked s -> acct_of s a ≡ trie_acct s a).
  { intros Hm. apply not_elem_of_union in Hm as [H1 H2]. apply unmarked_acct; try done. by apply not_elem_of_dom. }
  unfold trie_acct in *. unfold acct_of in *. rewrite E', E in *. specialize (Hdel a o E). clear E E'.
  destruct (removed _ _ o) eqn:Erem.
  - destruct H as [-> ->]. split; [|done]. destruct (so_deleted o) eqn:Ed; [done|].
    case_bool_decide as Hm; [by rewrite removed_doomed in Erem; rewrite Erem|].
    specialize (Hun Hm). unfold removed in Erem. simpl in Erem. rewrite orb_false_r in Erem.
    destruct (AT_TryGet (sd_trie s) a) as [d|]; [|inversion Hun].
    apply Some_equiv_inj in Hun as (_ & _ & _ & _ & _ & Hs). simpl in Hs. congruence.
  - case_bool_decide as Hm.
    + rewrite removed_doomed in Erem. destruct H as [-> Ht].
      destruct (so_deleted o) eqn:Ed; [by rewrite Hdel in Erem|]. rewrite Erem. simpl. split; [by constructor|].
      rewrite Ht. by constructor.
    + destruct H as [-> ->]. split; [|by apply Hun]. by destruct (so_deleted o).
Qed.

(** The loop of [Commit] on all objects, whatever the order. *)
Lemma commit_range_spec del s :
  sd_inv true s -> committable del s ->
  let s0 := with_dirty (marked s) s in
  let '(ws, s') := foldl (store_object del) ([], s0) (range (sd_stateObjects s)) in
  readable ws ->
  objs_wf s' /\ frame_same s s' /\ sd_stateObjectsDirty s' = ∅ /\
  (forall a, acct_of s' a ≡ w_acct (w_finalise del (marked s) (w_of s)) a) /\
  (forall a, acct_of s' a ≡ trie_acct s' a) /\
  (forall a o', sd_stateObjects s' !! a = Some o' -> exists o, sd_stateObjects s !! a = Some o /\
     abs_obj o' ≡ abs_obj o /\ (so_deleted o' = true -> so_deleted o = true \/ removed del true o = true)).
Proof.
  intros I C s0. pose proof I as (O & _). pose proof C as (_ & CD & CX).
  assert (Hsub : marked s ⊆ dom (sd_stateObjects s)) by (apply union_least; [done|apply O]).
  pose proof (commit_loop_spec del (range (sd_stateObjects s)) [] s0) as H.
  destruct (foldl _ _ _) as [ws s'] eqn:Ef. intros Hr.
  destruct H as (O' & F & D & M & K & U); try done.
  - apply NoDup_range_keys.
  - split; [apply (objs_ok_wf s O)|done].
  - intros a o. apply elem_of_range.
  - intros a o Ha Hd _. rewrite removed_doomed. apply elem_of_range in Ha. eauto.
  - assert (HK : forall a o, sd_stateObjects s !! a = Some o -> kept del (bool_decide (a ∈ marked s)) s s' a o).
    { intros a o E. by apply K, elem_of_range. }
    assert (HU : forall a, sd_stateObjects s !! a = None -> untouched s s' a).
    { intros a E. apply U. rewrite elem_of_range_keys. intros [? ?]. congruence. }
    split; [done|]. split; [done|]. split; [|split; [|split]].
    + rewrite M. apply set_eq. intros a. simpl. rewrite elem_of_difference, elem_of_list_to_set, elem_of_range_keys.
      specialize (Hsub a). rewrite elem_of_dom in Hsub. split; [tauto|by intros ?%elem_of_empty].
    + intros a. destruct (sd_stateObjects s !! a) as [o|] eqn:E; [by eapply kept_acct; [..|apply HK]|].
      rewrite (untouched_acct s s' a) by auto. simpl. destruct (acct_of s a); [|done].
      rewrite bool_decide_false; [done|]. intros Hm%Hsub. apply elem_of_dom in Hm as [? ?]. congruence.
    + intros a. destruct (sd_stateObjects s !! a) as [o|] eqn:E; [by eapply kept_acct; [..|apply HK]|].
      destruct (HU a E) as [Eo _]. unfold acct_of, trie_acct. by rewrite Eo, E.
    + intros a o' E'. destruct (sd_stateObjects s !! a) as [o|] eqn:E; [|destruct (HU a E); congruence].
      exists o. split; [done|]. destruct (HK a o E) as (o1 & E1 & Habs & H1). simplify_eq. split; [done|].
      unfold removed in *. destruct (so_suicided o); [by right|]. simpl in *.
      case_bool_decide; simpl in *; [destruct (del && so_empty o); [by right|]|].
      * destruct H1 as [-> _]. by left.
      * destruct H1 as [-> _]. by left.
Qed.

Lemma Commit_spec del s :
  sd_inv true s -> committable del s -> w_nonneg (w_of s) ->
  exists root ws s', sd_Commit del s = Done (root, ws, s') /\ (readable ws ->
  sd_inv true s' /\ w_of s' ≡ w_finalise del (marked s) (w_of s) /\
  sd_stateObjectsDirty s' = ∅ /\ saves (sd_abs s') = [] /\
  root = AT_Hash (sd_trie s') /\ WriteAccounts root (sd_trie s') ∈ ws /\
  (forall a, acct_of s' a ≡ trie_acct s' a)).
Proof.
  intros I C Hn. pose proof (commit_range_spec del s I C) as H. cbv zeta in H. unfold sd_Commit.
  fold (marked s). cbn [sd_stateObjects with_dirty]. rewrite commit_loop_done.
  2:{ intros a o Ha%elem_of_range Hdoom. destruct (so_deleted o) eqn:Ed; [|by eapply nonneg_object].
      destruct C as (_ & _ & CX). specialize (CX a o Ha Ed). rewrite <-removed_doomed in CX. unfold removed in CX. simpl in CX. congruence. }
  destruct (foldl _ _ _) as [ws s1]. do 3 eexists. split; [reflexivity|]. intros [Hr _]%readable_app.
  destruct (H Hr) as (O' & F & D & W & T & X). clear H.
  pose proof I as (O & _ & _ & L & _). destruct F as (F1 & F2 & F3 & F4 & F5 & F6 & F7 & _).
  split; [|split; [|split; [done|split; [done|split; [done|split; [|done]]]]]].
  - split; [split|split; [done|split; [by split|split; [|split; [by intros a|]]]]].
    + intros a o E. destruct (proj1 O' a o E) as [Hwf Hd]. split; [done|]. intros Ed.
      split; [by apply Hd|]. split; [apply lookup_empty|].
      destruct (X a o E) as (o0 & E0 & -> & Hx). destruct (Hx Ed) as [Hd0|Hrem].
      * by apply (proj1 O a o0 E0).
      * rewrite removed_doomed in Hrem. by eapply doomed_true.
    + simpl. rewrite D. apply empty_subseteq.
    + simpl. by rewrite F6.
    + intros _ a _. apply T.
  - apply world_equiv_acct; simpl; try done; intros; congruence.
  - apply elem_of_app. right. by left.
Qed.

(** ** Copy *)

Lemma deepCopy_spec a o :
  obj_wf a o ->
  obj_wf a (deepCopy o) /\ abs_obj (deepCopy o) ≡ abs_obj o /\ so_deleted (deepCopy o) = so_deleted o.
Proof.
  intros (Ha & Hh & Hc & Hsub & Hval).
  assert (E : so_address (deepCopy o) = so_address o /\ so_addrHash (deepCopy o) = so_addrHash o /\
    so_data (deepCopy o) = so_data o /\ so_code (deepCopy o) = so_code o /\ so_suicided (deepCopy o) = so_suicided o /\
    so_dirtyCode (deepCopy o) = so_dirtyCode o /\ so_trie (deepCopy o) = so_trie o).
  { unfold deepCopy. destruct (so_trie o); simpl; rewrite Hh, Ha; done. }
  destruct E as (E1 & E2 & E3 & E4 & E5 & E6 & E7). split; [|split; [|done]].
  - split; [congruence|]. split; [congruence|]. split; [unfold code_ok; by rewrite E2, E3, E4, E6|].
    split; [done|]. simpl. intros k v ->. done.
  - apply abs_obj_equiv; try done. intros k. rewrite !obj_storage_eq, E2, E3, E7. simpl.
    destruct (so_dirtyStorage o !! k) as [v|] eqn:Ed; simpl.
    + by rewrite (lookup_weaken _ _ _ _ Ed Hsub).
    + destruct (so_cachedStorage o !! k) as [v|] eqn:Ek; [|done]. simpl. rewrite <-(Hval k v Ek Ed).
      unfold obj_trie. by destruct (so_trie o).
Qed.

(** The loop over the dirty objects: each is there. *)
Lemma copy_dirty_loop (objs : gmap Address stateObject) l : forall acc,
  (forall a, a ∈ l -> is_Some (objs !! a)) -> (forall a o, acc !! a = Some o -> deepCopy <$> objs !! a = Some o) ->
  exists acc', foldl (fun m addr => let* acc := m in copy_dirty objs acc addr) (Done acc) l = Done acc' /\
    (forall a o, acc' !! a = Some o -> deepCopy <$> objs !! a = Some o) /\
    dom acc' = dom acc ∪ list_to_set l.
Proof.
  induction l as [|a l IH]; intros acc Hl Hacc; simpl.
  { exists acc. split; [done|]. split; [done|set_solver +]. }
  unfold copy_dirty at 2. destruct (acc !! a) as [x|] eqn:Ea.
  - destruct (IH acc) as (acc' & -> & H & D); [intros; apply Hl; by right|done|].
    exists acc'. split; [done|]. split; [done|]. rewrite D.
    assert (a ∈ dom acc) by (apply elem_of_dom; by eexists). set_solver.
  - destruct (Hl a ltac:(by left)) as [o Ho]. rewrite Ho.
    destruct (IH (<[a := deepCopy o]> acc)) as (acc' & -> & H & D); [intros; apply Hl; by right| |].
    { intros b ob. rewrite lookup_insert. case_decide; [|apply Hacc]. intros [= <-]. subst. by rewrite Ho. }
    exists acc'. split; [done|]. split; [done|]. rewrite D, dom_insert_L. set_solver +.
Qed.

(** The context of the transaction is not copied. *)
Definition w_Copy w : world :=
  {| w_acct := w_acct w; w_refund := w_refund w; w_logs := w_logs w; w_logSize := w_logSize w;
     w_preimages := w_preimages w; w_txhash := 0%N; w_bhash := 0%N; w_txIndex := 0 |}.

(** The objects of the copy. *)
Lemma Copy_objects s :
  objs_ok s ->
  exists objs, sd_Copy s =
    Done {| sd_trie := sd_trie s; sd_stateObjects := objs; sd_stateObjectsDirty := dom objs;
            sd_refund := sd_refund s; sd_thash := 0%N; sd_bhash := 0%N; sd_txIndex := 0;
            sd_logs := sd_logs s; sd_logSize := sd_logSize s; sd_preimages := sd_preimages s;
            sd_journal := newJournal; sd_validRevisions := []; sd_nextRevisionId := 0 |} /\
    (forall a o, objs !! a = Some o -> deepCopy <$> sd_stateObjects s !! a = Some o) /\
    dom objs = marked s ∩ dom (sd_stateObjects s).
Proof.
  intros [_ D]. unfold sd_Copy. set (c := deepCopy <$> _).
  assert (Hc : forall a o, c !! a = Some o <->
    deepCopy <$> sd_stateObjects s !! a = Some o /\ is_Some (dirties (sd_journal s) !! a)).
  { intros a o. unfold c. rewrite lookup_fmap, map_lookup_filter.
    destruct (sd_stateObjects s !! a) as [x|]; simpl; [|naive_solver].
    destruct (decide (is_Some (dirties (sd_journal s) !! a))) as [Hs|Hs].
    - rewrite option_guard_True by done. simpl. naive_solver.
    - rewrite option_guard_False by done. simpl. naive_solver. }
  destruct (copy_dirty_loop (sd_stateObjects s) (elements (sd_stateObjectsDirty s)) c) as (objs & -> & H & Hdom).
  - intros a Ha%elem_of_elements. by apply elem_of_dom, D.
  - intros a o E. by apply Hc.
  - exists objs. split; [done|]. split; [done|]. rewrite Hdom, list_to_set_elements_L.
    apply set_eq. intros a. unfold marked. rewrite elem_of_intersection, !elem_of_union.
    specialize (D a). rewrite !elem_of_dom in *.
    assert (is_Some (c !! a) <-> is_Some (dirties (sd_journal s) !! a) /\ is_Some (sd_stateObjects s !! a)); [|tauto].
    split; [intros [o [E1 E2]%Hc]|intros [H1 [x H2]]].
    + split; [done|]. by destruct (sd_stateObjects s !! a); [eexists|].
    + exists (deepCopy x). apply Hc. by rewrite H2.
Qed.

Lemma Copy_ends s : objs_ok s -> exists s', sd_Copy s = Done s'.
Proof. intros O. destruct (Copy_objects s O) as (objs & -> & _). by eexists. Qed.
Lemma Copy_spec s :
  sd_inv true s -> resets_marked s ->
  exists s', sd_Copy s = Done s' /\ sd_inv true s' /\ w_of s' ≡ w_Copy (w_of s) /\ saves (sd_abs s') = [].
Proof.
  intros I R. pose proof I as (O & _ & _ & L & _). destruct (Copy_objects s O) as (objs & -> & Hobjs & Hdom).
  eexists. split; [done|]. set (s' := {| sd_trie := _ |}).
  assert (W : forall a, acct_of s' a ≡ acct_of s a).
  { intros a. unfold acct_of at 1. simpl. destruct (objs !! a) as [o'|] eqn:E'.
    - specialize (Hobjs a o' E'). unfold acct_of. destruct (sd_stateObjects s !! a) as [o|] eqn:E; [|done].
      simpl in Hobjs. simplify_eq. destruct (deepCopy_spec a o) as (_ & Habs & ->); [by apply (proj1 O)|].
      destruct (so_deleted o); [done|by constructor].
    - destruct (sd_stateObjects s !! a) as [o|] eqn:E; [|unfold acct_of; by rewrite E].
      assert (Hm : a ∉ marked s).
      { intros Hm. apply (not_elem_of_dom objs a) in E'. rewrite Hdom in E'. apply E', elem_of_intersection.
        split; [done|]. apply elem_of_dom. by eexists. }
      apply not_elem_of_union in Hm as [H1 H2]. symmetry. apply unmarked_acct; try done. by apply not_elem_of_dom. }
  split; [|split; [by apply world_equiv_acct|done]].
  split; [split; [|done]|split; [done|split; [by split|split; [done|split; [by intros a|]]]]].
  - intros a o' E'. specialize (Hobjs a o' E'). destruct (sd_stateObjects s !! a) as [o|] eqn:E; [|done].
    simpl in Hobjs. simplify_eq. destruct (proj1 O a o E) as [Hwf Hd].
    destruct (deepCopy_spec a o Hwf) as (Hwf' & Habs & Ed). split; [done|]. rewrite Ed. intros Hdel.
    destruct (Hd Hdel) as (Ht & _ & Hx). split; [done|]. split; [apply lookup_empty|]. by rewrite Habs.
  - intros _ a Ha. change (acct_of s' a ≡ trie_acct s' a). simpl in Ha. unfold acct_of, trie_acct. simpl.
    by rewrite (not_elem_of_dom_1 _ _ Ha).
Qed.

End CommitFacts.
