(* ===== verification/Sample.v ===== *)
(** A concrete instance of the parameters: the crypto functions and the
    stores.  The theorems are applied to it at concrete inputs.

    Its hash function is injective and its stores are finite maps, so every
    assumption the development makes on code outside the repository holds
    of it. *)
From S2P Require Import Prelude BigMath Params StateSpec StateRel Vm PrecompileFacts StateObject Statedb StateUndo.
From S2P Require Import StateRefine StateRevert StateFinalFacts.

(** The "hash" of a byte string is the number it is the digits of, with a
    leading one. *)
Definition sample_hash (b : bytes) : Hash := Z.to_N (big_SetBytes (Byte.x01 :: b)).
Definition sample_unhash (h : Hash) : bytes := tail (big_Bytes (Z.of_N h)).

Lemma big_SetBytes_lead b : big_SetBytes (Byte.x01 :: b) = 256 ^ len b + big_SetBytes b.
Proof.
  change (Byte.x01 :: b) with ([Byte.x01] ++ b). rewrite big_SetBytes_app.
  change (big_SetBytes [Byte.x01]) with 1. lia.
Qed.

Lemma big_Bytes_lead b : big_Bytes (big_SetBytes (Byte.x01 :: b)) = Byte.x01 :: b.
Proof.
  set (x := big_SetBytes (Byte.x01 :: b)).
  assert (Hx : 256 ^ len b <= x < 2 * 256 ^ len b).
  { unfold x. rewrite big_SetBytes_lead. pose proof (big_SetBytes_range b). lia. }
  assert (Hl : len (big_Bytes x) = len (Byte.x01 :: b)).
  { rewrite len_big_Bytes. unfold len in *. simpl.
    assert (Hp : 256 ^ Z.of_nat (length b) = 2 ^ (8 * Z.of_nat (length b))) by (rewrite Z.pow_mul_r by lia; done).
    assert (Hb : BitLen x = 8 * Z.of_nat (length b) + 1).
    2:{ rewrite Hb. replace (8 * _ + 1 + 7) with ((Z.of_nat (length b) + 1) * 8) by lia.
        rewrite Z.div_mul by lia. lia. }
    apply Z.le_antisymm.
    - apply BitLen_spec; [lia|]. rewrite Z.pow_add_r by lia. lia.
    - apply Z.le_succ_l, Z.nle_gt. intros Hle%BitLen_spec; lia. }
  rewrite <-(be_fixed_big_SetBytes (big_Bytes x)), big_Bytes_value.
  replace (length (big_Bytes x)) with (length (Byte.x01 :: b)) by (unfold len in Hl; lia).
  rewrite Z.abs_eq by lia. apply be_fixed_big_SetBytes.
Qed.

Lemma sample_unhash_hash b : sample_unhash (sample_hash b) = b.
Proof.
  unfold sample_unhash, sample_hash. rewrite Z2N.id by apply big_SetBytes_nonneg.
  by rewrite big_Bytes_lead.
Qed.

(** Signature recovery and the curve are constant. *)
#[export] Instance sample_crypto : Crypto := {|
  Keccak256 b := be_fixed 32 (big_SetBytes b);
  Keccak256Hash := sample_hash;
  CreateAddress a n := BytesToAddress (Address_Bytes a ++ big_Bytes n);
  ValidateSignatureValues v r s homestead := true;
  Ecrecover h s := Some (be_fixed 65 0);
  sha256_Sum256 b := be_fixed 32 (big_SetBytes b);
  ripemd160_Sum b := be_fixed 20 (big_SetBytes b);
  G1 := unit;
  G2 := unit;
  G1_Unmarshal b := Some tt;
  G2_Unmarshal b := Some tt;
  G1_Add x y := tt;
  G1_ScalarMult x n := tt;
  G1_Marshal x := be_fixed 64 0;
  PairingCheck l k := true
|}.

#[export] Instance sample_crypto_spec : CryptoSpec.
Proof.
  split.
  - intros. apply len_be_fixed.
  - intros. apply len_be_fixed.
  - intros. apply len_be_fixed.
  - intros h s pub H. cbn [Ecrecover] in H. by injection H as <-.
  - intros. apply len_be_fixed.
Qed.

(** A storage trie is a map; its root is an encoding of the map, so that a
    root opens the trie it was computed from. *)
Definition sample_open (root : Hash) : gmap Hash Hash :=
  match root with
  | N0 => ∅
  | Npos p => default ∅ (decode p)
  end.

#[export] Instance sample_db : Database := {|
  AccountTrie := gmap Address Account;
  AT_TryGet t a := t !! a;
  AT_TryUpdate t a d := <[a := d]> t;
  AT_TryDelete t a := delete a t;
  AT_Hash t := Npos (encode (map_to_list ((fun d => (acc_Nonce d, acc_Balance d, acc_Root d, acc_CodeHash d)) <$> t)));
  StorageTrie := gmap Hash Hash;
  ST_TryGet t k := default 0%N (t !! k);
  ST_TryUpdate t k v := <[k := v]> t;
  ST_TryDelete t k := delete k t;
  ST_Hash t := Npos (encode t);
  OpenStorageTrie _ root := sample_open root;
  ContractCode _ h := sample_unhash h;
  ContractCodeSize _ h := len (sample_unhash h)
|}.

#[export] Instance sample_db_spec : DatabaseSpec.
Proof.
  split; intros; [by apply (f_equal (default _) (lookup_empty _))| |done].
  change (len (sample_unhash (sample_hash [])) = 0). by rewrite sample_unhash_hash.
Qed.

#[export] Instance sample_trie_spec : TrieSpec.
Proof.
  split; simpl; intros.
  - rewrite lookup_insert. by repeat case_decide.
  - rewrite lookup_delete. by repeat case_decide.
  - rewrite lookup_insert. by repeat case_decide; subst.
  - rewrite lookup_delete. by repeat case_decide; subst.
Qed.

(** A [range] loop in the order of the keys. *)
#[export] Instance sample_range : RangeOrder :=
  {| range _ _ _ _ m := map_to_list m; range_perm _ _ _ _ m := reflexivity (map_to_list m) |}.
