(* ===== verification/NumTheorems.v ===== *)
(** Numbers: the theorems on common/math, the conversions of common/types.go
    and the jump-destination analysis of core/vm/analysis.go. *)
From S2P Require Import Prelude BigMath Opcodes Analysis Sample.

(** ** 256-bit words *)

(** [Exp], which squares and multiplies along the words of the exponent,
    computes the power modulo 2^256. *)
Theorem Exp_is_power (b e : Z) : 0 <= e -> (math_Exp b e).1 = b ^ e mod 2 ^ 256.
Proof. apply math_Exp_pow. Qed.
Lemma Exp_is_power_witness : (math_Exp 3 5).1 = 3 ^ 5 mod 2 ^ 256.
Proof. apply (Exp_is_power 3 5). lia. Defined.

(** [U256] and [S256] are the two's complement representation: going
    from a signed number to a word and back, or from a word to a signed
    number and back, is the identity. *)
Theorem U256_S256_inverse (x : Z) :
  (- 2 ^ 255 <= x < 2 ^ 255 -> S256 (U256 x) = x) /\ (0 <= x < 2 ^ 256 -> U256 (S256 x) = x).
Proof.
  unfold S256, tt255, tt256. rewrite !U256_mod. split; intros Hx.
  - destruct (Z.ltb_spec x 0).
    + rewrite <-(Z.mod_unique x (2 ^ 256) (-1) (x + 2 ^ 256)) by lia.
      destruct (Z.ltb_spec (x + 2 ^ 256) (2 ^ 255)); lia.
    + rewrite Z.mod_small by lia. destruct (Z.ltb_spec x (2 ^ 255)); lia.
  - destruct (Z.ltb_spec x (2 ^ 255)); [by apply Z.mod_small|].
    symmetry. apply (Z.mod_unique _ _ (-1)); lia.
Qed.
Lemma U256_S256_inverse_witness : S256 (U256 (-5)) = -5 /\ U256 (S256 (2 ^ 256 - 5)) = 2 ^ 256 - 5.
Proof.
  split; [apply (proj1 (U256_S256_inverse (-5))); lia
         |apply (proj2 (U256_S256_inverse (2 ^ 256 - 5))); lia].
Defined.

(** The [n]-th of [p] big-endian digits. *)
Lemma be_fixed_lookup p n x : (n < p)%nat ->
  be_fixed p x !! n = Some (z2b (x / 256 ^ Z.of_nat (p - 1 - n))).
Proof.
  intros Hn. replace p with (n + (1 + (p - 1 - n)))%nat at 1 by lia.
  rewrite be_fixed_app, lookup_app_r by (by rewrite length_be_fixed).
  by rewrite length_be_fixed, Nat.sub_diag, be_fixed_app.
Qed.

(** [Byte], which picks the word of the representation the byte is in,
    gives the n-th byte of the number written with [p] big-endian bytes. *)
Theorem Byte_is_digit (x : Z) (p n : nat) :
  0 <= x -> (n < p)%nat ->
  exists b, math_Byte x (Z.of_nat p) (Z.of_nat n) = Done b /\ be_fixed p x !! n = Some b.
Proof.
  intros Hx Hn. unfold math_Byte. destruct (Z.leb_spec (Z.of_nat p) (Z.of_nat n)); [lia|].
  rewrite bigEndianByteAt_spec by lia. eexists. split; [done|].
  rewrite be_fixed_lookup by done. do 4 f_equal. lia.
Qed.
Lemma Byte_is_digit_witness : exists b, math_Byte 0x1234 32 30 = Done b /\ be_fixed 32 0x1234 !! 30%nat = Some b.
Proof. apply (Byte_is_digit 0x1234 32 30); lia. Defined.

(** [PaddedBigBytes] writes the absolute value, big endian, with at
    least [n] bytes and otherwise as few as possible; reading the bytes gives
    the number back. *)
Theorem PaddedBigBytes_roundtrip (x n : Z) :
  0 <= n ->
  big_SetBytes (PaddedBigBytes x n) = Z.abs x /\
  len (PaddedBigBytes x n) = Z.max n ((BitLen x + 7) / 8).
Proof. apply PaddedBigBytes_spec. Qed.
Lemma PaddedBigBytes_roundtrip_witness : big_SetBytes (PaddedBigBytes 300 32) = 300.
Proof. apply (proj1 (PaddedBigBytes_roundtrip 300 32 ltac:(lia))). Defined.

(** [SafeAdd], [SafeSub] and [SafeMul] compute modulo 2^64 and report
    an overflow exactly when the result does not fit. *)
Theorem Safe_exact (x y : Z) :
  is_u64 x -> is_u64 y ->
  SafeAdd x y = (u64 (x + y), MaxUint64 <? x + y) /\
  SafeSub x y = (u64 (x - y), x <? y) /\
  SafeMul x y = (u64 (x * y), MaxUint64 <? x * y).
Proof.
  intros Hx Hy. rewrite SafeAdd_spec, SafeSub_spec, SafeMul_spec by done.
  unfold is_u64 in *. split; [|split; [|done]].
  - destruct (Z.leb_spec (x + y) MaxUint64), (Z.ltb_spec MaxUint64 (x + y)); try lia; f_equal.
    + symmetry. apply u64_small. unfold is_u64. lia.
    + unfold u64. apply (Z.mod_unique _ _ 1); lia.
  - destruct (Z.leb_spec y x), (Z.ltb_spec x y); try lia; f_equal.
    + symmetry. apply u64_small. unfold is_u64. lia.
    + unfold u64. apply (Z.mod_unique _ _ (-1)); lia.
Qed.
Lemma Safe_exact_witness : SafeMul (2 ^ 63) 2 = (u64 (2 ^ 63 * 2), MaxUint64 <? 2 ^ 63 * 2).
Proof. apply (Safe_exact (2 ^ 63) 2); unfold is_u64; lia. Defined.

(** ** Hashes and addresses *)

(** The bytes of a hash or address give it back, and so does its number;
    bytes and numbers that are too long are cropped from the left. *)
Theorem hash_address_roundtrip (b : bytes) (x : Z) :
  (0 <= x < 2 ^ 256 -> Hash_Big (BigToHash x) = x /\ BytesToHash (Hash_Bytes (Z.to_N x)) = Z.to_N x) /\
  (0 <= x < 2 ^ 160 -> Address_Big (BigToAddress x) = x /\
                       BytesToAddress (Address_Bytes (Z.to_N x)) = Z.to_N x) /\
  Hash_Big (BytesToHash b) = big_SetBytes b mod 2 ^ 256 /\
  Address_Big (BytesToAddress b) = big_SetBytes b mod 2 ^ 160.
Proof.
  assert (Hid : forall y m, 0 < m -> Z.of_N (Z.to_N (y mod m)) = y mod m)
    by (intros; apply Z2N.id; by apply Z.mod_pos_bound).
  unfold Hash_Big, Address_Big, Hash_Bytes, Address_Bytes.
  rewrite BigToHash_spec, BigToAddress_spec, !BytesToHash_spec, !BytesToAddress_spec, !Hid by lia.
  rewrite !big_SetBytes_be_fixed. split; [|split; [|done]]; intros Hx; rewrite Z2N.id by lia;
    change (256 ^ Z.of_nat 32) with (2 ^ 256); change (256 ^ Z.of_nat 20) with (2 ^ 160);
    by rewrite Z.abs_eq, Z.mod_mod, Z.mod_small by lia.
Qed.
Lemma hash_address_roundtrip_witness : Hash_Big (BigToHash 77) = 77 /\ Address_Big (BigToAddress 77) = 77.
Proof.
  destruct (hash_address_roundtrip [] 77) as (Hh & Ha & _).
  split; [apply Hh; lia|apply Ha; lia].
Defined.

(** ** Jump destinations *)

(** [codeBitmap] ends without a panic, and the bit of a position is set
    exactly if the byte there is data of a PUSH instruction ([code_mask] reads
    the code byte by byte). *)
Theorem codeBitmap_marks_push_data (code : bytes) :
  exists bits, codeBitmap code = Done bits /\
    forall p, 0 <= p < len code ->
      codeSegment p bits = Done (negb (default false (code_mask code 0 !! Z.to_nat p))).
Proof.
  destruct (codeBitmap_spec code) as (bits & E & Hl & Hbits). exists bits. split; [done|].
  intros p Hp. rewrite (Hbits p Hp). apply codeSegment_spec; [lia|]. rewrite Hl.
  assert (p / 8 <= len code / 8) by (apply Z.div_le_mono; lia). lia.
Qed.

(** C37: [destinations.has] accepts exactly the JUMPDEST instructions of the
    code that are not PUSH data, whether the bitmap is in the cache or not,
    and keeps the cache consistent; a destination beyond the code is refused. *)
Theorem destinations_has_correct (keccak : bytes -> Hash) d code dest :
  cache_ok keccak d -> (forall code', keccak code' = keccak code -> code' = code) ->
  0 <= dest -> len code < 2 ^ 62 ->
  exists d', destinations_has d (keccak code) code dest
             = Done ((dest <? len code) && valid_dest code (Z.to_nat dest), d') /\
             cache_ok keccak d'.
Proof. intros Hd Hfree. by apply destinations_has_spec. Qed.
(** PUSH1 0x5b, JUMPDEST: position 1 is data, position 2 is not. *)
Lemma destinations_has_correct_witness : exists d d',
  destinations_has ∅ (sample_hash (map z2b [0x60; 0x5b; 0x5b])) (map z2b [0x60; 0x5b; 0x5b]) 1 = Done (false, d) /\
  destinations_has ∅ (sample_hash (map z2b [0x60; 0x5b; 0x5b])) (map z2b [0x60; 0x5b; 0x5b]) 2 = Done (true, d').
Proof.
  assert (Hc : cache_ok sample_hash ∅) by (intros h m; by rewrite lookup_empty).
  assert (Hf : forall code', sample_hash code' = sample_hash (map z2b [0x60; 0x5b; 0x5b]) ->
                             code' = map z2b [0x60; 0x5b; 0x5b])
    by (intros c H; by rewrite <-(sample_unhash_hash c), H, sample_unhash_hash).
  destruct (destinations_has_correct sample_hash ∅ (map z2b [0x60; 0x5b; 0x5b]) 1 Hc Hf) as (d & H1 & _);
    [lia|done|].
  destruct (destinations_has_correct sample_hash ∅ (map z2b [0x60; 0x5b; 0x5b]) 2 Hc Hf) as (d' & H2 & _);
    [lia|done|].
  exists d, d'. exact (conj H1 H2).
Defined.
