(* ===== verification/ConfigTheorems.v ===== *)
(** The fork schedule: the theorems on params/config.go. *)
From S2P Require Import Prelude BigMath Params MachineFacts.

Lemma isForked_bound s h : isForked s (Some h) = true -> exists b, s = Some b /\ b <= h.
Proof. destruct s as [b|]; [|done]. intros H%Z.leb_le. by exists b. Qed.

(** The block to rewind to lies before the head, unless it is the genesis. *)
Lemma newCompatError_RewindTo what s1 s2 head :
  0 <= head < two64 -> isForked s1 (Some head) || isForked s2 (Some head) = true ->
  0 <= RewindTo (newCompatError what s1 s2) /\
  (RewindTo (newCompatError what s1 s2) = 0 \/ RewindTo (newCompatError what s1 s2) < head).
Proof.
  intros Hh Hf. unfold newCompatError. cbn [RewindTo].
  set (rew := match s1 with Some _ => _ | None => _ end).
  assert (Hr : exists r, rew = Some r /\ r <= head).
  { unfold rew. apply orb_true_iff in Hf as [[b [-> ?]]%isForked_bound|[b [-> ?]]%isForked_bound].
    - destruct s2 as [b2|]; [|by exists b]. destruct (Z.ltb_spec b b2); eexists; split; try done; lia.
    - destruct s1 as [b1|]; [|by exists b]. destruct (Z.ltb_spec b1 b); eexists; split; try done; lia. }
  destruct Hr as (r & -> & Hr). destruct (Z.ltb_spec 0 r); [|lia].
  rewrite big_Uint64_small by (unfold is_u64; lia). rewrite u64_small by (unfold is_u64; lia). lia.
Qed.

Lemma isForkIncompatible_forked s1 s2 h :
  isForkIncompatible s1 s2 h = true -> isForked s1 h || isForked s2 h = true.
Proof. unfold isForkIncompatible. by intros [? _]%andb_true_iff. Qed.

Lemma checkCompatible_RewindTo c newcfg head err :
  0 <= head < two64 -> checkCompatible c newcfg head = Some err ->
  0 <= RewindTo err /\ (RewindTo err = 0 \/ RewindTo err < head).
Proof.
  intros Hh. unfold checkCompatible.
  repeat (case_match eqn:E; [intros [= <-]; apply newCompatError_RewindTo; [done|];
    first [by apply isForkIncompatible_forked|idtac]|clear E]); [|done].
  apply andb_true_iff in E as [E _]. unfold IsEIP158 in E. by rewrite E.
Qed.

(** The loop, once it has an error that rewinds to [bhead]. *)
Lemma CheckCompatible_loop_spec c newcfg fuel : forall bhead l,
  0 <= bhead < two64 -> RewindTo l = bhead -> bhead < Z.of_nat fuel ->
  exists err, CheckCompatible_loop fuel c newcfg bhead (Some l) = Done (Some err) /\
    0 <= RewindTo err <= bhead /\
    (RewindTo err = 0 \/ checkCompatible c newcfg (RewindTo err) = None).
Proof.
  induction fuel as [|fuel IH]; intros bhead l Hb Hl Hfuel; [lia|]. cbn [CheckCompatible_loop].
  destruct (checkCompatible c newcfg bhead) as [err|] eqn:E.
  - destruct (checkCompatible_RewindTo _ _ _ _ Hb E) as [Hr0 Hr].
    destruct (Z.eqb_spec (RewindTo err) (RewindTo l)).
    + exists l. split; [done|]. split; [lia|]. left. lia.
    + destruct (IH (RewindTo err) err) as (err' & -> & ? & ?); [lia|done|lia|].
      exists err'. split; [done|]. split; [lia|done].
  - exists l. split; [done|]. split; [lia|]. right. by rewrite Hl.
Qed.

(** ** What compatible means *)

(** The blocks of the forks, as the configuration names them. *)
Definition forks : list (ChainConfig -> option Z) :=
  [HomesteadBlock; EIP150Block; EIP155Block; EIP158Block; ByzantiumBlock; ConstantinopleBlock].

(** No fork up to block [head] has moved: every one that is at such a block
    in one configuration is at the same block in the other.  From EIP158 on
    the chain id has not changed either. *)
Definition unmoved (c newcfg : ChainConfig) (head : Z) : Prop :=
  (forall fork b, fork ∈ forks -> b <= head -> fork c = Some b <-> fork newcfg = Some b) /\
  (forall b, EIP158Block c = Some b -> b <= head -> ChainId c = ChainId newcfg).

Lemma configNumEqual_eq x y : configNumEqual x y = true <-> x = y.
Proof. destruct x, y; simpl; rewrite ?Z.eqb_eq; naive_solver. Qed.
Lemma isForkIncompatible_false s1 s2 head :
  isForkIncompatible s1 s2 (Some head) = false <-> (forall b, b <= head -> s1 = Some b <-> s2 = Some b).
Proof.
  unfold isForkIncompatible. rewrite andb_false_iff, negb_false_iff, configNumEqual_eq, orb_false_iff. split.
  - intros [[H1 H2]| ->] b Hb; [|done]. split; intros ->; simpl in *; bool_cases; lia.
  - intros H. destruct s1 as [b1|], s2 as [b2|]; simpl; try by right.
    + destruct (Z.leb_spec b1 head); [right; by destruct (H b1) as [-> _]|].
      destruct (Z.leb_spec b2 head); [right; by destruct (H b2) as [_ ->]|by left].
    + destruct (Z.leb_spec b1 head); [destruct (H b1) as [H1 _]; [done|by specialize (H1 eq_refl)]|by left].
    + destruct (Z.leb_spec b2 head); [destruct (H b2) as [_ H2]; [done|by specialize (H2 eq_refl)]|by left].
Qed.

Lemma checkCompatible_iff (c newcfg : ChainConfig) (head : Z) :
  checkCompatible c newcfg head = None <-> unmoved c newcfg head.
Proof.
  assert (Hf : (forall fork b, fork ∈ forks -> b <= head -> fork c = Some b <-> fork newcfg = Some b) <->
               Forall (fun fork => isForkIncompatible (fork c) (fork newcfg) (Some head) = false) forks).
  { rewrite Forall_forall. setoid_rewrite isForkIncompatible_false. naive_solver. }
  assert (Hid : (forall b, EIP158Block c = Some b -> b <= head -> ChainId c = ChainId newcfg) <->
                IsEIP158 c head && negb (configNumEqual (ChainId c) (ChainId newcfg)) = false).
  { rewrite andb_false_iff, negb_false_iff, configNumEqual_eq. unfold IsEIP158, isForked.
    destruct (EIP158Block c) as [b|]; [|naive_solver]. destruct (Z.leb_spec b head); [naive_solver|]. naive_solver lia. }
  unfold unmoved. rewrite Hf, Hid. clear Hf Hid. unfold checkCompatible, forks. rewrite !Forall_cons, Forall_nil.
  repeat case_match; intuition congruence.
Qed.

(** ** CheckCompatible *)

(** C40: [CheckCompatible] terminates (at most head + 2 iterations).  It
    accepts a new configuration exactly if no fork up to the head has moved,
    nor, from EIP158 on, the chain id; otherwise the block it says to rewind
    to is before the head, and up to that block nothing has moved, unless it
    is the genesis block. *)
Theorem CheckCompatible_correct (c newcfg : ChainConfig) (height : Z) :
  0 <= height < two64 ->
  exists r, CheckCompatible (Z.to_nat height + 2) c newcfg height = Done r /\
    (r = None <-> unmoved c newcfg height) /\
    (forall err, r = Some err ->
       0 <= RewindTo err <= Z.max 0 (height - 1) /\
       (RewindTo err = 0 \/ unmoved c newcfg (RewindTo err))).
Proof.
  intros Hh. unfold CheckCompatible. replace (Z.to_nat height + 2)%nat with (S (S (Z.to_nat height))) by lia.
  remember (S (Z.to_nat height)) as fuel eqn:Hf. cbn [CheckCompatible_loop].
  setoid_rewrite <-checkCompatible_iff. destruct (checkCompatible c newcfg height) as [err|] eqn:E.
  - destruct (checkCompatible_RewindTo _ _ _ _ Hh E) as [Hr0 Hr].
    destruct (CheckCompatible_loop_spec c newcfg fuel (RewindTo err) err) as (err' & -> & ? & ?);
      [lia|done|lia|].
    exists (Some err'). split; [done|]. split; [done|]. intros ? [= <-]. split; [lia|done].
  - exists None. split; [done|]. by split.
Qed.

(** Moving the Byzantium fork from block 4 to block 6, at head 10, is refused
    with a rewind to a block before it. *)
Definition moved_config : ChainConfig :=
  {| ChainId := Some 8848; HomesteadBlock := Some 1; EIP150Block := Some 2; EIP155Block := Some 3;
     EIP158Block := Some 3; ByzantiumBlock := Some 6; ConstantinopleBlock := None |}.
Lemma CheckCompatible_correct_witness : exists err,
  CheckCompatible (Z.to_nat 10 + 2) MainnetChainConfig moved_config 10 = Done (Some err) /\
  ~ unmoved MainnetChainConfig moved_config 10 /\ 0 <= RewindTo err <= 9 /\
  (RewindTo err = 0 \/ unmoved MainnetChainConfig moved_config (RewindTo err)).
Proof.
  destruct (CheckCompatible_correct MainnetChainConfig moved_config 10) as (r & H & Hn & Hr); [lia|].
  assert (Hm : ~ unmoved MainnetChainConfig moved_config 10).
  { intros [Hf _]. destruct (Hf ByzantiumBlock 4) as [H4 _]; [by repeat constructor|lia|]. by specialize (H4 eq_refl). }
  destruct r as [err|]; [|by destruct Hm; apply Hn]. exists err. destruct (Hr err eq_refl) as [H1 H2].
  split; [exact H|]. split; [exact Hm|]. split; [lia|exact H2].
Defined.
