(* ===== verification/StateTheorems.v ===== *)
(** The journaled state: the theorems.

    A program on the state is a sequence of operations, among them blocks
    that take a snapshot, run a sequence and revert to the snapshot or not,
    as the virtual machine does for calls.  Whatever the program, the
    journaled state holds the world that the operations specify. *)
From S2P Require Import Prelude BigMath Params StateSpec StateRel Vm StateObject Statedb StateUndo StateRefine.
From S2P Require Import StateRevert Sample.

(** ** Programs on the state *)

#[warnings="-register-all"]
Inductive stateOp :=
| OpCreateAccount (a : Address)
| OpAddBalance (a : Address) (z : Z)
| OpSubBalance (a : Address) (z : Z)
| OpSetNonce (a : Address) (n : Z)
| OpSetCode (a : Address) (c : bytes)
| OpSetState (a : Address) (k v : Hash)
| OpSuicide (a : Address)
| OpAddRefund (g : Z)
| OpAddLog (l : Log)
| OpAddPreimage (h : Hash) (p : bytes)
| OpRead (a : Address) (k : Hash)
| OpBlock (body : list stateOp) (keep : bool).

Section Programs.
Context {S : Type} `{SDB : StateDB S}.

(** [OpRead] calls every getter. *)
Definition read_all (a : Address) (k : Hash) (s : S) : S :=
  let s := (GetBalance a s).2 in
  let s := (GetNonce a s).2 in
  let s := (GetCodeHash a s).2 in
  let s := (GetCode a s).2 in
  let s := (GetCodeSize a s).2 in
  let s := (GetState a k s).2 in
  let s := (HasSuicided a s).2 in
  let s := (Exist a s).2 in
  (Empty a s).2.

Fixpoint exec_op (op : stateOp) (s : S) : outcome S :=
  match op with
  | OpCreateAccount a => Done (CreateAccount a s)
  | OpAddBalance a z => Done (AddBalance a z s)
  | OpSubBalance a z => Done (SubBalance a z s)
  | OpSetNonce a n => Done (SetNonce a n s)
  | OpSetCode a c => Done (SetCode a c s)
  | OpSetState a k v => Done (SetState a k v s)
  | OpSuicide a => Done (Suicide a s).2
  | OpAddRefund g => Done (AddRefund g s)
  | OpAddLog l => Done (AddLog l s)
  | OpAddPreimage h p => Done (AddPreimage h p s)
  | OpRead a k => Done (read_all a k s)
  | OpBlock body keep =>
      let '(id, s) := Snapshot s in
      let* s := (fix exec_ops ops s :=
                   match ops with
                   | [] => Done s
                   | op :: ops => let* s := exec_op op s in exec_ops ops s
                   end) body s in
      if keep then Done s else RevertToSnapshot id s
  end.
Fixpoint exec_ops (ops : list stateOp) (s : S) : outcome S :=
  match ops with
  | [] => Done s
  | op :: ops => let* s := exec_op op s in exec_ops ops s
  end.
End Programs.

(** The same on worlds: a block that is not kept has no effect. *)
Section Worlds.
Context (keccak : bytes -> Hash).
Fixpoint world_op (op : stateOp) (w : world) : world :=
  match op with
  | OpCreateAccount a => w_CreateAccount (keccak []) a w
  | OpAddBalance a z => w_AddBalance (keccak []) a z w
  | OpSubBalance a z => w_SubBalance (keccak []) a z w
  | OpSetNonce a n => w_SetNonce (keccak []) a n w
  | OpSetCode a c => w_SetCode (keccak []) a (keccak c) c w
  | OpSetState a k v => w_SetState (keccak []) a k v w
  | OpSuicide a => w_Suicide a w
  | OpAddRefund g => w_AddRefund g w
  | OpAddLog l => w_AddLog l w
  | OpAddPreimage h p => w_AddPreimage h p w
  | OpRead _ _ => w
  | OpBlock body keep => if keep then fold_left (fun w op => world_op op w) body w else w
  end.
Definition world_ops (ops : list stateOp) (w : world) : world := fold_left (fun w op => world_op op w) ops w.
End Worlds.

(** ** Induction over programs *)

Section StateOpInd.
Context (P : stateOp -> Prop).
Hypothesis Hflat : forall op, (forall body keep, op <> OpBlock body keep) -> P op.
Hypothesis Hblock : forall body keep, Forall P body -> P (OpBlock body keep).
Fixpoint stateOp_induction (op : stateOp) : P op.
Proof.
  destruct op as [| | | | | | | | | | |body keep]; try by apply Hflat.
  apply Hblock. induction body as [|op body IH]; constructor; [apply stateOp_induction|exact IH].
Qed.
End StateOpInd.

(** ** Equivalent worlds stay equivalent *)

Lemma w_CreateAccount_equiv ech a w w' : w ≡ w' -> w_CreateAccount ech a w ≡ w_CreateAccount ech a w'.
Proof.
  intros Hw. unfold w_CreateAccount. rewrite (w_balance_proper w w' Hw a a) by done.
  pose proof Hw as (Ha & ? & ? & ? & ? & ? & ? & ?). apply world_equiv_acct; try done.
  intros b. simpl. case_decide; [done|apply Ha].
Qed.
Lemma w_AddRefund_equiv g w w' : w ≡ w' -> w_AddRefund g w ≡ w_AddRefund g w'.
Proof.
  intros (? & E & ? & ? & ? & ? & ? & ?). apply world_equiv_acct; simpl; try done. by rewrite E.
Qed.
Lemma w_AddLog_equiv l w w' : w ≡ w' -> w_AddLog l w ≡ w_AddLog l w'.
Proof.
  intros (? & ? & El & Es & ? & Et & Eb & Ei). apply world_equiv_acct; simpl; try done.
  - intros h. unfold stamp_log. rewrite Et, El, Es, Eb, Ei. done.
  - by rewrite Es.
Qed.
Lemma w_AddPreimage_equiv h p w w' : w ≡ w' -> w_AddPreimage h p w ≡ w_AddPreimage h p w'.
Proof.
  intros (? & ? & ? & ? & Ep & ? & ? & ?). apply world_equiv_acct; simpl; try done.
  intros h'. by rewrite !Ep.
Qed.

Lemma world_op_equiv keccak op : forall w w', w ≡ w' -> world_op keccak op w ≡ world_op keccak op w'.
Proof.
  induction op as [op Hop|body keep IH] using stateOp_induction; intros w w' Hw.
  - destruct op; simpl; try by rewrite Hw.
    + by apply w_CreateAccount_equiv.
    + by apply upd_acct_world_equiv; [apply _|].
    + by apply upd_acct_world_equiv; [apply _|].
    + by apply w_AddRefund_equiv.
    + by apply w_AddLog_equiv.
    + by apply w_AddPreimage_equiv.
    + by destruct (Hop body keep).
  - simpl. destruct keep; [|done]. revert w w' Hw.
    induction IH as [|op body Hop _ IH]; intros w w' Hw; simpl; [done|]. by apply IH, Hop.
Qed.

(** ** Simulation *)

Section Simulation.
Context {S : Type} `{SDB : StateDB S} (keccak : bytes -> Hash) `{SP : !StateDBSpec S keccak}.

(** [s'] holds the world [w], and the revisions of [s] are still valid. *)
Definition holds (s s' : S) (w : world) : Prop :=
  sinv s' /\ cur (abs s') ≡ w /\ exists l, saves (abs s') ≡ saves (abs s) ++ l.

Lemma holds_on_cur s s' f : sinv s' /\ abs s' ≡ on_cur f (abs s) -> holds s s' (f (cur (abs s))).
Proof. intros [I [Ec Es]]. split; [done|]. split; [done|]. exists []. by rewrite app_nil_r. Qed.
Lemma holds_read s s' : sinv s' /\ abs s' ≡ abs s -> holds s s' (cur (abs s)).
Proof. intros [I [Ec Es]]. split; [done|]. split; [done|]. exists []. by rewrite app_nil_r. Qed.

Lemma read_all_abs a k s : sinv s -> sinv (read_all a k s) /\ abs (read_all a k s) ≡ abs s.
Proof.
  intros I. unfold read_all.
  destruct (GetBalance_spec a _ I) as (I1 & A1 & _). rewrite <-A1.
  destruct (GetNonce_spec a _ I1) as (I2 & A2 & _). rewrite <-A2.
  destruct (GetCodeHash_spec a _ I2) as (I3 & A3 & _). rewrite <-A3.
  destruct (GetCode_spec a _ I3) as (I4 & A4 & _). rewrite <-A4.
  destruct (GetCodeSize_spec a _ I4) as (I5 & A5 & _). rewrite <-A5.
  destruct (GetState_spec a k _ I5) as (I6 & A6 & _). rewrite <-A6.
  destruct (HasSuicided_spec a _ I6) as (I7 & A7 & _). rewrite <-A7.
  destruct (Exist_spec a _ I7) as (I8 & A8 & _). rewrite <-A8.
  destruct (Empty_spec a _ I8) as (I9 & A9 & _). done.
Qed.

Lemma exec_ops_holds ops :
  Forall (fun op => forall s, sinv s ->
    exists s', exec_op op s = Done s' /\ holds s s' (world_op keccak op (cur (abs s)))) ops ->
  forall s, sinv s ->
    exists s', exec_ops ops s = Done s' /\ holds s s' (world_ops keccak ops (cur (abs s))).
Proof.
  induction 1 as [|op ops Hop _ IH]; intros s I; simpl.
  - exists s. split; [done|]. by apply holds_read.
  - destruct (Hop s I) as (s1 & -> & I1 & W1 & l1 & E1). simpl.
    destruct (IH s1 I1) as (s2 & E2 & I2 & W2 & l2 & El2). exists s2. split; [done|]. split; [done|]. split.
    + rewrite W2. change (world_ops keccak (op :: ops) (cur (abs s)))
        with (world_ops keccak ops (world_op keccak op (cur (abs s)))).
      by apply (world_op_equiv keccak (OpBlock ops true)).
    + exists (l1 ++ l2). by rewrite El2, E1, app_assoc.
Qed.

(** A reverted block. *)
Lemma revert_holds s s1 : sinv s ->
  (exists l, saves (abs s1) ≡ saves (abs (Snapshot s).2) ++ l) -> sinv s1 ->
  exists s2, RevertToSnapshot (Snapshot s).1 s1 = Done s2 /\ sinv s2 /\ abs s2 ≡ abs s.
Proof.
  intros I [l El] I1. destruct (Snapshot_spec s I) as [_ [_ Es]].
  rewrite Es in El. simpl in El. rewrite <-app_assoc in El.
  destruct (RevertToSnapshot_spec _ _ _ _ _ I1 El) as (s2 & E2 & I2 & W2 & S2).
  exists s2. split; [done|]. split; [done|]. by split.
Qed.

Lemma exec_op_holds op : forall s, sinv s ->
  exists s', exec_op op s = Done s' /\ holds s s' (world_op keccak op (cur (abs s))).
Proof.
  induction op as [op Hop|body keep IH] using stateOp_induction; intros s I.
  - destruct op; cbn [exec_op world_op]; try (eexists; split; [reflexivity|]).
    + by apply holds_on_cur, CreateAccount_spec.
    + by apply (holds_on_cur _ _ (w_AddBalance (keccak []) a z)), AddBalance_spec.
    + by apply (holds_on_cur _ _ (w_SubBalance (keccak []) a z)), SubBalance_spec.
    + by apply (holds_on_cur _ _ (w_SetNonce (keccak []) a n)), SetNonce_spec.
    + by apply (holds_on_cur _ _ (w_SetCode (keccak []) a (keccak c) c)), SetCode_spec.
    + by apply (holds_on_cur _ _ (w_SetState (keccak []) a k v)), SetState_spec.
    + apply holds_on_cur. by destruct (Suicide_spec a s I) as (? & _ & ?).
    + by apply (holds_on_cur _ _ (w_AddRefund g)), AddRefund_spec.
    + by apply (holds_on_cur _ _ (w_AddLog l)), AddLog_spec.
    + by apply (holds_on_cur _ _ (w_AddPreimage h p)), AddPreimage_spec.
    + by apply holds_read, read_all_abs.
    + by destruct (Hop body keep).
  - change (exists s', (let '(id, s) := Snapshot s in
                        let* s := exec_ops body s in
                        if keep then Done s else RevertToSnapshot id s) = Done s' /\
              holds s s' (if keep then world_ops keccak body (cur (abs s)) else cur (abs s))).
    destruct (Snapshot_spec s I) as [I0 [W0 S0]]. pose proof (revert_holds s) as Hrev.
    destruct (Snapshot s) as [id s0]. simpl in *.
    destruct (exec_ops_holds body IH s0 I0) as (s1 & -> & I1 & W1 & l1 & E1). simpl. destruct keep.
    + exists s1. split; [done|]. split; [done|]. split.
      * rewrite W1. by apply (world_op_equiv keccak (OpBlock body true)).
      * exists ([(id, cur (abs s))] ++ l1). by rewrite E1, S0, app_assoc.
    + destruct (Hrev s1 I) as (s2 & -> & I2 & A2); [by exists l1|done|]. exists s2. split; [done|].
      by apply holds_read.
Qed.
End Simulation.

(** ** The journaled state *)

Section Theorems.
Context `{DS : DatabaseSpec}.

(** C2: whatever the program, the journaled state runs it without a panic
    and ends up holding the world that the operations specify; blocks that
    were reverted have had no effect. *)
Theorem Statedb_refines (tracked : bool) (ops : list stateOp) (s : Statedb) :
  sd_inv tracked s ->
  exists s', exec_ops ops s = Done s' /\ sd_inv tracked s' /\ w_of s' ≡ world_ops Keccak256Hash ops (w_of s).
Proof.
  intros I. destruct (exec_ops_holds (SP := Statedb_spec_gen (tracked := tracked)) Keccak256Hash ops) with (s := s) as (s' & E & I' & W & _); [|done|].
  - apply Forall_forall. intros op _. apply exec_op_holds.
  - by exists s'.
Qed.

(** C3: [RevertToSnapshot] of a snapshot undoes everything done since: after
    any program, it gives back the accounts, storage, code, logs, refund and
    preimages of the time of the snapshot, and the revisions valid then. *)
Theorem RevertToSnapshot_restores (tracked : bool) (ops : list stateOp) (s : Statedb) :
  sd_inv tracked s ->
  exists s1 s2, exec_ops ops (sd_Snapshot s).2 = Done s1 /\
    sd_RevertToSnapshot (sd_Snapshot s).1 s1 = Done s2 /\
    sd_inv tracked s2 /\ w_of s2 ≡ w_of s /\ saves (sd_abs s2) ≡ saves (sd_abs s).
Proof.
  intros I. destruct (Snapshot_refines s I) as [I0 _].
  destruct (exec_ops_holds (SP := Statedb_spec_gen (tracked := tracked)) Keccak256Hash ops) with (s := (sd_Snapshot s).2)
    as (s1 & E1 & I1 & _ & Hl); [|done|].
  { apply Forall_forall. intros op _. apply exec_op_holds. }
  destruct (revert_holds (SP := Statedb_spec_gen (tracked := tracked)) Keccak256Hash s s1 I Hl I1) as (s2 & E2 & I2 & W2 & S2).
  by exists s1, s2.
Qed.

(** [RevertToSnapshot] panics on an identifier that is not one of the
    valid revisions. *)
Theorem RevertToSnapshot_invalid (id : Z) (s : Statedb) :
  (forall r, r ∈ sd_validRevisions s -> rev_id r <> id) -> sd_RevertToSnapshot id s = GoPanic.
Proof.
  intros Hid. unfold sd_RevertToSnapshot.
  destruct (sort_Search_done (length (sd_validRevisions s))
              (fun i => match sd_validRevisions s !! i with Some r => id <=? rev_id r | None => true end))
    as (k & -> & _). simpl.
  destruct (sd_validRevisions s !! k) as [r|] eqn:Hk; [|done].
  destruct (Z.eqb_spec (rev_id r) id) as [E|]; [|done].
  by destruct (Hid r (list_elem_of_lookup_2 _ _ _ Hk)).
Qed.

(** The getters answer from the world the state holds, cached or not,
    and do not change it. *)
Theorem getters_read_world (tracked : bool) (a : Address) (k : Hash) (s : Statedb) :
  sd_inv tracked s ->
  (sd_GetBalance a s).1 = w_balance (w_of s) a /\ w_of (sd_GetBalance a s).2 ≡ w_of s /\
  (sd_GetNonce a s).1 = w_nonce (w_of s) a /\ w_of (sd_GetNonce a s).2 ≡ w_of s /\
  (sd_GetCodeHash a s).1 = w_codehash (w_of s) a /\ w_of (sd_GetCodeHash a s).2 ≡ w_of s /\
  (sd_GetCode a s).1 = w_code (w_of s) a /\ w_of (sd_GetCode a s).2 ≡ w_of s /\
  (sd_GetCodeSize a s).1 = len (w_code (w_of s) a) /\ w_of (sd_GetCodeSize a s).2 ≡ w_of s /\
  (sd_GetState a k s).1 = w_storage (w_of s) a k /\ w_of (sd_GetState a k s).2 ≡ w_of s /\
  (sd_Exist a s).1 = w_exist (w_of s) a /\ w_of (sd_Exist a s).2 ≡ w_of s /\
  (sd_Empty a s).1 = w_empty emptyCode (w_of s) a /\ w_of (sd_Empty a s).2 ≡ w_of s.
Proof.
  intros I.
  destruct (GetBalance_refines a s I) as (_ & [? _] & ?).
  destruct (GetNonce_refines a s I) as (_ & [? _] & ?).
  destruct (GetCodeHash_refines a s I) as (_ & [? _] & ?).
  destruct (GetCode_refines a s I) as (_ & [? _] & ?).
  destruct (GetCodeSize_refines a s I) as (_ & [? _] & ?).
  destruct (GetState_refines a k s I) as (_ & [? _] & ?).
  destruct (Exist_refines a s I) as (_ & [? _] & ?).
  destruct (Empty_refines a s I) as (_ & [? _] & ?).
  by repeat (split; [assumption|]).
Qed.
End Theorems.

(** ** Witnesses *)

Definition sample_ops : list stateOp :=
  [OpAddBalance 5%N 100; OpSetState 5%N 1%N 2%N;
   OpBlock [OpSetState 5%N 1%N 3%N; OpBlock [OpSuicide 5%N] true] false; OpRead 5%N 1%N].
Definition sample_new : Statedb := sd_New (∅ : gmap Address Account).

Lemma Statedb_refines_witness : exists s',
  exec_ops sample_ops sample_new = Done s' /\ sd_inv true s' /\
  w_of s' ≡ world_ops Keccak256Hash sample_ops (w_of sample_new).
Proof. apply (Statedb_refines true sample_ops sample_new). apply sd_New_inv. Defined.

Lemma RevertToSnapshot_restores_witness : exists s1 s2,
  exec_ops sample_ops (sd_Snapshot sample_new).2 = Done s1 /\
  sd_RevertToSnapshot (sd_Snapshot sample_new).1 s1 = Done s2 /\
  sd_inv true s2 /\ w_of s2 ≡ w_of sample_new /\ saves (sd_abs s2) ≡ saves (sd_abs sample_new).
Proof. apply (RevertToSnapshot_restores true sample_ops sample_new). apply sd_New_inv. Defined.

Lemma RevertToSnapshot_invalid_witness : sd_RevertToSnapshot 7 (sd_Snapshot sample_new).2 = GoPanic.
Proof.
  apply (RevertToSnapshot_invalid 7 (sd_Snapshot sample_new).2).
  intros r Hr. apply list_elem_of_singleton in Hr as ->. done.
Defined.

Lemma getters_read_world_witness :
  (sd_GetBalance 5%N sample_new).1 = w_balance (w_of sample_new) 5%N /\
  (sd_Empty 5%N sample_new).1 = w_empty emptyCode (w_of sample_new) 5%N.
Proof.
  destruct (getters_read_world true 5%N 1%N sample_new (sd_New_inv _))
    as (Hb & _ & _ & _ & _ & _ & _ & _ & _ & _ & _ & _ & _ & _ & He & _). exact (conj Hb He).
Defined.

(** The program run: the write of the reverted block is gone. *)
Example sample_ops_run :
  match exec_ops sample_ops sample_new with
  | Done s => (sd_GetState 5%N 1%N s).1 = 2%N /\ (sd_GetBalance 5%N s).1 = 100 /\
              (sd_HasSuicided 5%N s).1 = false
  | _ => False
  end.
Proof. by vm_compute. Qed.
