(* ===== verification/FinalTheorems.v ===== *)
(** The theorems on the end of a transaction and of a block: [Finalise],
    [Commit] and [Copy] of the journaled state. *)
From S2P Require Import Prelude BigMath Params StateSpec Supply StateRel Vm StateObject Statedb StateFinal StateUndo.
From S2P Require Import StateRefine StateRevert StateFinalFacts Sample StateTheorems.

Section FinalTheorems.
Context `{DS : DatabaseSpec} {TS : TrieSpec} {RO : RangeOrder}.

(** C5: on a state without negative balances [Finalise] does not panic.  It
    removes the accounts of the journal that self-destructed, and the empty
    ones if asked to, leaves every other account as it was, and starts a new
    journal; what is left of the accounts it looked at is in the trie, with
    the root of a storage trie that has exactly their storage.  The order in
    which it visits the journal does not matter.  That the trie still has
    what the unmarked accounts have ([sd_inv true]) is kept if the journal
    marks every account that was created over another. *)
Theorem Finalise_refines (tracked del : bool) (s : Statedb) :
  sd_inv tracked s -> (tracked = true -> resets_marked s) -> w_nonneg (w_of s) ->
  exists s', sd_Finalise del s = Done s' /\ sd_inv tracked s' /\
    w_of s' ≡ w_finalise del (dirty_addrs s) (w_of s) /\ saves (sd_abs s') = [] /\
    (forall a, a ∈ dom (dirties (sd_journal s)) -> settled del s s' a) /\
    (forall a, a ∉ dom (dirties (sd_journal s)) -> untouched s s' a).
Proof.
  intros I R Hn. exists (finalised del s). split; [by apply Finalise_done; [apply I|]|by apply finalised_spec].
Qed.


(** [Copy] does not panic and gives a state with the same accounts,
    logs, refund and preimages, without snapshots. *)
Theorem Copy_same (s : Statedb) :
  sd_inv true s -> resets_marked s ->
  exists s', sd_Copy s = Done s' /\ sd_inv true s' /\ w_of s' ≡ w_Copy (w_of s) /\ saves (sd_abs s') = [].
Proof. apply Copy_spec. Qed.

(** [CreateAccount] over an account does not mark the new object: [Finalise]
    leaves the old account in the trie. *)
Theorem CreateAccount_unmarked (del : bool) (a : Address) (s : Statedb) :
  sd_inv false s -> w_nonneg (w_of s) -> is_Some (w_acct (w_of s) a) -> dirties (sd_journal s) !! a = None ->
  exists s', sd_Finalise del (sd_CreateAccount a s) = Done s' /\ AT_TryGet (sd_trie s') a = AT_TryGet (sd_trie s) a.
Proof.
  intros I Hn Ha Hd. destruct (CreateAccount_refines a s I) as [I' W].
  assert (E : sd_trie (sd_CreateAccount a s) = sd_trie s /\ dirties (sd_journal (sd_CreateAccount a s)) !! a = None).
  { pose proof (getStateObject_journal a s) as Ej. unfold sd_CreateAccount, createObject.
    destruct (getStateObject a s) as [r s1] eqn:Eg. destruct I as (O & _ & _ & L & _).
    destruct (getStateObject_spec a s r s1 O L Eg) as ((_ & Et & _) & Ws & Hr). simpl in Ej.
    destruct r as [o|]; simpl; [by rewrite Ej|]. destruct Hr as [Hno _].
    destruct (is_Some_acct (w_of s) (w_of s1) a) as [x Hx]; [done|done|congruence]. }
  destruct E as [Et Ed]. destruct (finalised_spec del _ I') as (_ & _ & _ & _ & U); [done|].
  exists (finalised del (sd_CreateAccount a s)). split.
  { apply Finalise_done; [apply I'|]. intros b. destruct W as [W _]. simpl in W. rewrite (w_balance_proper _ _ W b b eq_refl).
    specialize (Hn b) as Hb. specialize (Hn a). unfold w_balance in *. simpl. by case_decide. }
  destruct (U a) as [_ ->]; [by apply not_elem_of_dom|by rewrite Et].
Qed.
End FinalTheorems.

(** ** Witnesses *)

(** A contract with storage, an account and a touched empty account. *)
Definition sample_touched : Statedb :=
  match exec_ops [OpAddBalance 5%N 100; OpSetCode 5%N [Byte.x60; Byte.x00]; OpSetState 5%N 1%N 2%N;
                  OpSetNonce 6%N 3; OpAddBalance 7%N 0] sample_new with
  | Done s => s
  | _ => sample_new
  end.

Lemma sample_touched_inv : sd_inv true sample_touched.
Proof.
  unfold sample_touched.
  edestruct (exec_ops_holds (SP := Statedb_spec_gen (tracked := true)) Keccak256Hash) as (s' & -> & I & _);
    [|apply sd_New_inv|exact I].
  apply Forall_forall. intros op _. apply exec_op_holds.
Qed.

(** The conditions of the theorems, as programs. *)
Definition no_resets (s : Statedb) : bool :=
  forallb (fun en => match en with resetObjectChange _ => false | _ => true end) (jentries s).
Lemma no_resets_marked s : no_resets s = true -> resets_marked s.
Proof.
  unfold no_resets. rewrite forallb_forall. intros H prev Hin%list_elem_of_In. by specialize (H _ Hin).
Qed.



Definition no_debts (s : Statedb) : bool :=
  forallb (fun p => 0 <=? acc_Balance (so_data p.2)) (map_to_list (sd_stateObjects s)) &&
  forallb (fun p => 0 <=? acc_Balance p.2) (map_to_list (sd_trie s : gmap Address Account)).
Lemma no_debts_nonneg s : no_debts s = true -> w_nonneg (w_of s).
Proof.
  intros [H1 H2]%andb_true_iff a. rewrite forallb_forall in H1, H2. unfold w_balance. simpl. unfold acct_of.
  destruct (sd_stateObjects s !! a) as [o|] eqn:Eo.
  - destruct (so_deleted o); [done|]. apply Z.leb_le, (H1 (a, o)), list_elem_of_In, elem_of_map_to_list, Eo.
  - destruct (AT_TryGet (sd_trie s) a) as [d|] eqn:Et; [|done].
    apply Z.leb_le, (H2 (a, d)), list_elem_of_In, elem_of_map_to_list, Et.
Qed.

Lemma Finalise_refines_witness : exists s', sd_Finalise true sample_touched = Done s' /\
  w_of s' ≡ w_finalise true (dirty_addrs sample_touched) (w_of sample_touched).
Proof.
  destruct (Finalise_refines true true sample_touched) as (s' & E & _ & W & _).
  - apply sample_touched_inv.
  - intros _. apply no_resets_marked. vm_compute. reflexivity.
  - apply no_debts_nonneg. vm_compute. reflexivity.
  - by exists s'.
Defined.


(** A balance below zero, which [SubBalance] does not refuse, has no encoding:
    [Finalise] and [Commit] panic. *)
Example negative_balance_panics :
  let s := sd_SubBalance 5%N 1 sample_new in
  sd_Finalise true s = GoPanic /\ sd_Commit true s = GoPanic.
Proof. vm_compute. by split. Qed.

Lemma Copy_same_witness : exists s', sd_Copy sample_touched = Done s' /\ sd_inv true s' /\
  w_of s' ≡ w_Copy (w_of sample_touched) /\ saves (sd_abs s') = [].
Proof.
  apply (Copy_same sample_touched); [apply sample_touched_inv|]. apply no_resets_marked. vm_compute. reflexivity.
Defined.

(** An account of the trie with a nonce. *)
Definition sample_stored : Statedb :=
  sd_New ({[5%N := {| acc_Nonce := 7; acc_Balance := 9; acc_Root := 0%N; acc_CodeHash := emptyCode |}]}
    : gmap Address Account).

Lemma CreateAccount_unmarked_witness : exists s',
  sd_Finalise true (sd_CreateAccount 5%N sample_stored) = Done s' /\
  AT_TryGet (sd_trie s') 5%N = Some {| acc_Nonce := 7; acc_Balance := 9; acc_Root := 0%N; acc_CodeHash := emptyCode |}.
Proof.
  destruct (CreateAccount_unmarked true 5%N sample_stored) as (s' & E & H).
  - apply sd_New_inv.
  - apply no_debts_nonneg. vm_compute. reflexivity.
  - by eexists.
  - done.
  - exists s'. split; [done|]. rewrite H. vm_compute. reflexivity.
Defined.

(** A precompile touched, reverted and committed stays marked without an
    object, and [Copy] panics. *)
Definition sample_ripemd : outcome Statedb :=
  let '(id, s) := sd_Snapshot sample_new in
  let* s := sd_RevertToSnapshot id (sd_AddBalance ripemd 0 s) in
  let* (_, s) := sd_Commit true s in
  sd_Copy s.
Example Copy_after_Commit_panics : sample_ripemd = GoPanic.
Proof. vm_compute. reflexivity. Qed.
