(* ===== verification/VmTheorems.v ===== *)
(** The virtual machine is safe: the theorems.

    They hold for every implementation of the [StateDB] interface that meets
    [StateDBSpec], every hash function without collisions, every program,
    input and state.  Fuel above the gas is enough: every instruction that
    continues the loop costs gas. *)
From S2P Require Import Prelude BigMath Params Opcodes Machine Analysis StateSpec StateRel MachineFacts Vm.
From S2P Require Import Precompiles PrecompileFacts Evm Instructions JumpTable Interpreter CallFacts OpSafe RunSafe.
From S2P Require Import StateObject Statedb StateUndo StateRefine StateRevert Sample.

(** ** Concrete machines, to apply the theorems to *)

Definition sample_ctx : Context :=
  {| GetHash _ := 0%N; Origin := 17%N; GasPrice := 1; Coinbase := 18%N; GasLimit := 8000000;
     BlockNumber := 10; Time := 1600000000; Difficulty := 1 |}.
Definition sample_env : Env :=
  {| env_ctx := sample_ctx; env_chainConfig := MainnetChainConfig; env_NoRecursion := false;
     env_EnablePreimageRecording := false |}.

(** PUSH1 7, PUSH1 1, SSTORE, PUSH1 0, PUSH1 0, REVERT *)
Definition sample_code : bytes := map z2b [0x60; 7; 0x60; 1; 0x55; 0x60; 0; 0x60; 0; 0xfd].

(** A caller (17) with some balance and a contract (32). *)
Definition sample_state : Statedb :=
  AddBalance 17%N 1000000 (SetCode 32%N sample_code (sd_New (∅ : gmap Address Account))).
Definition sample_evm (ro : bool) : EVM Statedb :=
  {| evm_StateDB := sample_state; evm_depth := 0; evm_readOnly := ro; evm_returnData := [];
     evm_callGasTemp := 0; evm_jumpdests := ∅; evm_abort := [] |}.
Definition sample_contract : Contract :=
  {| CallerAddress := 17%N; c_self := 32%N; c_Code := sample_code;
     c_CodeHash := Keccak256Hash sample_code; c_CodeAddr := Some 32%N; c_Input := []; c_Gas := 100000;
     c_value := 0; c_DelegateCall := false |}.

Lemma sample_New_ok : state_ok Keccak256Hash (sd_New (∅ : gmap Address Account)).
Proof.
  split; [apply sd_New_inv|]. split; [|by constructor]. split; [|done]. intros a. simpl.
  assert (E : acct_of (sd_New (∅ : gmap Address Account)) a = None).
  { reflexivity. }
  unfold w_balance, w_code, w_codehash. simpl. rewrite E. simpl. unfold len. simpl. split; [lia|].
  split; [lia|by left].
Qed.

Lemma sample_state_ok : state_ok Keccak256Hash sample_state.
Proof.
  assert (R : srel Keccak256Hash False (sd_New (∅ : gmap Address Account))
                (SetCode 32%N sample_code (sd_New (∅ : gmap Address Account)))).
  { apply srel_SetCode; [apply sample_New_ok|done|by intros []]. }
  apply srel_ok in R. unfold sample_state.
  apply (AddBalance_ok _ 17%N 1000000 _ R).
  pose proof (proj1 (proj1 (proj1 (proj2 R)) 17%N)). lia.
Qed.

Lemma sample_evm_ok ro : evm_ok (sample_evm ro).
Proof. split; [apply sample_state_ok|]. split; [apply cache_ok_empty|done]. Qed.
Lemma sample_contract_ok : contract_ok sample_contract.
Proof. split; [done|]. split; [done|]. split; [by right|]. done. Qed.
Lemma sample_collision_free : collision_free.
Proof.
  intros c1 c2 H. change (sample_hash c1 = sample_hash c2) in H.
  by rewrite <-(sample_unhash_hash c1), <-(sample_unhash_hash c2), H.
Qed.
(** Fuel for runs with 100000 gas. *)
Definition sample_fuel : nat := Z.to_nat 100001.
Lemma sample_fuel_enough : 100000 < Z.of_nat sample_fuel.
Proof. unfold sample_fuel. rewrite Z2Nat.id; lia. Qed.
Lemma sample_env_ok : env_ok sample_env.
Proof. done. Qed.

(** ** The interpreter *)

Section Theorems.
Context {S : Type} `{SDB : StateDB S} `{CR : Crypto} {CS : CryptoSpec}
        `{SP : !StateDBSpec S Keccak256Hash}.
Context (e : Env).

(** C1: whatever the program, the input and the state, [Interpreter.Run] with
    fuel above its gas returns: it terminates and never panics.  It gives
    back no more gas than it got, leaves the state well formed with all
    revisions of the caller still valid, and restores the call depth and the
    read-only flag. *)
Theorem Run_safe (fuel : nat) (v : EVM S) (c : Contract) (input : bytes) :
  collision_free -> env_ok e -> evm_ok v -> contract_ok c -> small input ->
  c_Gas c < Z.of_nat fuel ->
  exists ret err v' c', Run e fuel v c input = Done (ret, err, v', c') /\
    0 <= c_Gas c' <= c_Gas c /\
    state_ok Keccak256Hash (evm_StateDB v') /\
    (exists l, saves (abs (evm_StateDB v')) ≡ saves (abs (evm_StateDB v)) ++ l) /\
    evm_depth v' = evm_depth v /\ evm_readOnly v' = evm_readOnly v.
Proof.
  intros Hfree He Hv Hc Hi Hg.
  destruct (owp_done _ _ Hfree (Run_ok e He fuel v c input Hv Hc Hi Hg))
    as ([[[ret err] v'] c'] & -> & _ & ((? & ? & _) & ? & ?) & _ & ?).
  by exists ret, err, v', c'.
Qed.

(** C36: a run in read-only mode, since Byzantium, changes nothing a contract
    can observe: balances, nonces, code, storage, self-destructed accounts,
    the refund counter and the logs are as before. *)
Theorem Run_static (fuel : nat) (v : EVM S) (c : Contract) (input : bytes) :
  collision_free -> env_ok e -> evm_ok v -> contract_ok c -> small input ->
  c_Gas c < Z.of_nat fuel -> static e v ->
  exists ret err v' c', Run e fuel v c input = Done (ret, err, v', c') /\
    static_eq (cur (abs (evm_StateDB v))) (cur (abs (evm_StateDB v'))).
Proof.
  intros Hfree He Hv Hc Hi Hg Hst.
  destruct (owp_done _ _ Hfree (Run_ok e He fuel v c input Hv Hc Hi Hg))
    as ([[[ret err] v'] c'] & -> & _ & ((_ & _ & Hro) & _) & _).
  exists ret, err, v', c'. by split; [|apply Hro].
Qed.

(** Every iteration of the interpreter's loop keeps the frame well
    formed, or stops: at most 1024 words on the stack, none negative, the
    memory within its bounds, the program counter a 64-bit number.  An
    iteration that goes on has consumed gas, so the loop ends. *)
Theorem step_progress (fuel : nat) (f : frame S) :
  collision_free -> env_ok e -> frame_ok f -> c_Gas (f_contract f) <= Z.of_nat fuel ->
  exists sr f', step e (Run e fuel) f = Done (sr, f') /\
    0 <= c_Gas (f_contract f') <= c_Gas (f_contract f) /\
    (sr = Next -> frame_ok f' /\ c_Gas (f_contract f') < c_Gas (f_contract f)).
Proof.
  intros Hfree He Hf Hg.
  destruct (owp_done _ _ Hfree (step_ok e He _ _ f Hf (Run_ok e He fuel) Hg))
    as ([sr f'] & -> & _ & _ & _ & ? & Hsr).
  exists sr, f'. split; [done|]. split; [done|]. by intros ->.
Qed.

(** The fuel of the model does not matter: a run that did not run out of
    fuel gives the same result with any larger amount. *)
Theorem Run_fuel_irrelevant (n m : nat) (v : EVM S) (c : Contract) (input : bytes) :
  Run e n v c input <> NoFuel -> (n <= m)%nat -> Run e m v c input = Run e n v c input.
Proof. intros H Hnm. by apply (Run_ole e n m Hnm). Qed.

(** ** Calls and creations *)

(** C6: a [Call] of any contract returns, with no more gas than it was given;
    if it reports an error, the state is the one before the call. *)
Theorem Call_atomic (fuel : nat) (v : EVM S) caller addr input gas value :
  collision_free -> env_ok e -> evm_ok v -> caller_ok caller -> small input ->
  0 <= gas < 2 ^ 62 -> gas < Z.of_nat fuel -> 0 <= value -> (static e v -> value = 0) ->
  exists ret g err v', Call e (Run e fuel) v caller addr input gas value = Done (ret, g, err, v') /\
    0 <= g <= gas /\ state_ok Keccak256Hash (evm_StateDB v') /\
    (err <> None -> abs (evm_StateDB v') ≡ abs (evm_StateDB v)).
Proof.
  intros Hfree He Hv Hcaller Hi Hg Hfuel Hval Hst.
  destruct (owp_done _ _ Hfree (Call_ok e _ _ v caller addr input gas value
              (Run_ok e He fuel) Hv Hcaller Hi Hg Hfuel Hval Hst))
    as ([[[ret g] err] v'] & -> & (? & _) & _ & _ & ? & ?).
  by exists ret, g, err, v'.
Qed.

(** The same holds of [CallCode] and [DelegateCall]. *)
Theorem CallCode_DelegateCall_atomic (fuel : nat) (v : EVM S) c addr input gas value :
  collision_free -> env_ok e -> evm_ok v -> contract_ok c -> small input ->
  0 <= gas < 2 ^ 62 -> gas < Z.of_nat fuel -> 0 <= value ->
  (exists ret g err v',
     CallCode e (Run e fuel) v (ContractAsRef c) addr input gas value = Done (ret, g, err, v') /\
     0 <= g <= gas /\ (err <> None -> abs (evm_StateDB v') ≡ abs (evm_StateDB v))) /\
  (exists ret g err v',
     DelegateCall e (Run e fuel) v (ContractAsRef c) addr input gas = Done (ret, g, err, v') /\
     0 <= g <= gas /\ (err <> None -> abs (evm_StateDB v') ≡ abs (evm_StateDB v))).
Proof.
  intros Hfree He Hv Hc Hi Hg Hfuel Hval. split.
  - destruct (owp_done _ _ Hfree (CallCode_ok e _ _ v (ContractAsRef c) addr input gas value
                (Run_ok e He fuel) Hv Hi Hg Hfuel Hval))
      as ([[[ret g] err] v'] & -> & _ & _ & _ & ? & ?). by exists ret, g, err, v'.
  - destruct Hc as (_ & _ & _ & _ & Hcv).
    destruct (owp_done _ _ Hfree (DelegateCall_ok e _ _ v c addr input gas
                (Run_ok e He fuel) Hv Hcv Hi Hg Hfuel))
      as ([[[ret g] err] v'] & -> & _ & _ & _ & ? & ?). by exists ret, g, err, v'.
Qed.

(** C7: a [StaticCall], since Byzantium, changes nothing a contract can
    observe, whatever it calls, and leaves the read-only flag as it was.  An
    empty account may have come into existence, which looks like none. *)
Theorem StaticCall_no_effect (fuel : nat) (v : EVM S) caller addr input gas :
  collision_free -> env_ok e -> evm_ok v -> small input ->
  0 <= gas < 2 ^ 62 -> gas < Z.of_nat fuel -> env_IsByzantium e = true ->
  exists ret g err v', StaticCall e (Run e fuel) v caller addr input gas = Done (ret, g, err, v') /\
    0 <= g <= gas /\ evm_readOnly v' = evm_readOnly v /\
    static_eq (cur (abs (evm_StateDB v))) (cur (abs (evm_StateDB v'))).
Proof.
  intros Hfree He Hv Hi Hg Hfuel Hb.
  destruct (owp_done _ _ Hfree (StaticCall_ok e _ _ v caller addr input gas
              (Run_ok e He fuel) Hv Hi Hg Hfuel))
    as ([[[ret g] err] v'] & -> & (_ & (_ & _ & ?) & _ & ? & _) & Hst).
  exists ret, g, err, v'. by repeat (split; [done|]); apply Hst.
Qed.

(** C34: a contract creation returns, with no more gas than it was given; if
    it fails, since Homestead, nothing but the nonce of the creator has
    changed. *)
Theorem Create_atomic (fuel : nat) (v : EVM S) caller code gas value :
  collision_free -> env_ok e -> evm_ok v -> small code -> ~ static e v ->
  0 <= gas < 2 ^ 62 -> gas < Z.of_nat fuel -> 0 <= value -> env_IsHomestead e = true ->
  exists ret addr g err v', Create e (Run e fuel) v caller code gas value = Done (ret, addr, g, err, v') /\
    0 <= g <= gas /\ state_ok Keccak256Hash (evm_StateDB v') /\
    (err <> None ->
       cur (abs (evm_StateDB v')) ≡ cur (abs (evm_StateDB v)) \/
       cur (abs (evm_StateDB v')) ≡ bump_nonce (ref_Address caller) (cur (abs (evm_StateDB v)))).
Proof.
  intros Hfree He Hv Hi Hst Hg Hfuel Hval Hh.
  destruct (owp_done _ _ Hfree (Create_ok e _ _ v caller code gas value
              (Run_ok e He fuel) Hv Hst Hi Hg Hfuel Hval))
    as ([[[[ret addr] g] err] v'] & -> & ((? & _) & _ & _ & ?) & Hf).
  exists ret, addr, g, err, v'. do 3 (split; [done|]). intros Herr.
  destruct Hf as [Hf|Hf]; [left|right]; by apply Hf.
Qed.

(** C39: a call that ends in an error other than REVERT consumes all the gas
    it was given, unless it was refused for its depth or for lack of balance
    before it started. *)
Theorem Call_error_gas R (v : EVM S) caller addr input gas value ret g er v' :
  Call e R v caller addr input gas value = Done (ret, g, Some er, v') ->
  er <> errExecutionReverted -> er <> ErrDepth -> er <> ErrInsufficientBalance -> g = 0.
Proof.
  unfold Call. intros H Hrev Hd Hb. destruct (_ && _); [by simplify_eq|].
  destruct (_ <? _); [by simplify_eq|].
  destruct (CanTransfer _ _ _) as [can s]. destruct can; simpl in H; [|by simplify_eq].
  destruct (Snapshot s) as [id s1]. destruct (Exist addr s1) as [found s2].
  destruct (negb found && _); [by simplify_eq|].
  destruct (load_code _ _ _) as [v1 c1]. destruct (run _ _ _ _ _) as [[[[rt er'] v2] c2]| |]; [|done..].
  simpl in H. destruct er' as [er'|]; [|by simplify_eq].
  destruct (RevertToSnapshot _ _) as [s3| |]; [|done..]. simpl in H. simplify_eq.
  rewrite decide_False by done. apply UseGas_leaves_none.
Qed.
End Theorems.

(** ** Witnesses *)

Lemma Run_safe_witness : exists ret err v' c',
  Run sample_env sample_fuel (sample_evm false) sample_contract [] = Done (ret, err, v', c') /\
  0 <= c_Gas c' <= 100000.
Proof.
  destruct (Run_safe sample_env sample_fuel (sample_evm false) sample_contract [])
    as (ret & err & v' & c' & H & Hg & _).
  - apply sample_collision_free.
  - apply sample_env_ok.
  - apply sample_evm_ok.
  - apply sample_contract_ok.
  - done.
  - exact sample_fuel_enough.
  - exists ret, err, v', c'. split; [exact H|exact Hg].
Defined.

Definition sample_run_frame : frame Statedb :=
  {| f_pc := 0; f_evm := sample_evm false; f_contract := sample_contract; f_mem := NewMemory;
     f_stack := [7; 1] |}.
Lemma step_progress_witness : exists sr f',
  step sample_env (Run sample_env sample_fuel) sample_run_frame = Done (sr, f') /\
  0 <= c_Gas (f_contract f') <= 100000.
Proof.
  destruct (step_progress sample_env sample_fuel sample_run_frame) as (sr & f' & H & Hg & _).
  - apply sample_collision_free.
  - apply sample_env_ok.
  - split; [apply sample_evm_ok|]. split; [apply sample_contract_ok|].
    split; [done|]. split; [by repeat constructor|]. by split.
  - apply Z.lt_le_incl. exact sample_fuel_enough.
  - exists sr, f'. split; [exact H|exact Hg].
Defined.
Lemma Run_fuel_irrelevant_witness :
  Run sample_env 1000 (sample_evm false) sample_contract [] = Run sample_env 20 (sample_evm false) sample_contract [].
Proof.
  apply (Run_fuel_irrelevant sample_env 20 1000); [|lia].
  intros H. assert (Hc : match Run sample_env 20 (sample_evm false) sample_contract [] with
                         | NoFuel => true | _ => false end = false) by (vm_compute; reflexivity).
  rewrite H in Hc. discriminate Hc.
Defined.

Lemma Run_static_witness : exists ret err v' c',
  Run sample_env sample_fuel (sample_evm true) sample_contract [] = Done (ret, err, v', c') /\
  static_eq (cur (abs sample_state)) (cur (abs (evm_StateDB v'))).
Proof.
  apply (Run_static sample_env sample_fuel (sample_evm true) sample_contract []).
  - apply sample_collision_free.
  - apply sample_env_ok.
  - apply sample_evm_ok.
  - apply sample_contract_ok.
  - done.
  - exact sample_fuel_enough.
  - done.
Defined.

Lemma Call_atomic_witness : exists ret g err v',
  Call sample_env (Run sample_env sample_fuel) (sample_evm false) (AccountRef 17%N) 32%N [] 100000 5
    = Done (ret, g, err, v') /\ 0 <= g <= 100000.
Proof.
  destruct (Call_atomic sample_env sample_fuel (sample_evm false) (AccountRef 17%N) 32%N [] 100000 5)
    as (ret & g & err & v' & H & Hg & _).
  - apply sample_collision_free.
  - apply sample_env_ok.
  - apply sample_evm_ok.
  - done.
  - done.
  - lia.
  - exact sample_fuel_enough.
  - lia.
  - by intros [_ [=]].
  - exists ret, g, err, v'. split; [exact H|exact Hg].
Defined.

Lemma CallCode_DelegateCall_atomic_witness : exists ret g err v',
  DelegateCall sample_env (Run sample_env sample_fuel) (sample_evm false)
    (ContractAsRef sample_contract) 32%N [] 100000 = Done (ret, g, err, v') /\ 0 <= g <= 100000.
Proof.
  destruct (CallCode_DelegateCall_atomic sample_env sample_fuel (sample_evm false) sample_contract
              32%N [] 100000 5) as (_ & ret & g & err & v' & H & Hg & _).
  - apply sample_collision_free.
  - apply sample_env_ok.
  - apply sample_evm_ok.
  - apply sample_contract_ok.
  - done.
  - lia.
  - exact sample_fuel_enough.
  - lia.
  - exists ret, g, err, v'. split; [exact H|exact Hg].
Defined.

Lemma StaticCall_no_effect_witness : exists ret g err v',
  StaticCall sample_env (Run sample_env sample_fuel) (sample_evm false) (AccountRef 17%N) 32%N [] 100000
    = Done (ret, g, err, v') /\
  static_eq (cur (abs sample_state)) (cur (abs (evm_StateDB v'))).
Proof.
  destruct (StaticCall_no_effect sample_env sample_fuel (sample_evm false) (AccountRef 17%N) 32%N []
              100000) as (ret & g & err & v' & H & _ & _ & Hst).
  - apply sample_collision_free.
  - apply sample_env_ok.
  - apply sample_evm_ok.
  - done.
  - lia.
  - exact sample_fuel_enough.
  - reflexivity.
  - exists ret, g, err, v'. split; [exact H|exact Hst].
Defined.

Lemma Create_atomic_witness : exists ret addr g err v',
  Create sample_env (Run sample_env sample_fuel) (sample_evm false) (AccountRef 17%N) sample_code 100000 5
    = Done (ret, addr, g, err, v') /\ 0 <= g <= 100000.
Proof.
  destruct (Create_atomic sample_env sample_fuel (sample_evm false) (AccountRef 17%N) sample_code
              100000 5) as (ret & addr & g & err & v' & H & Hg & _).
  - apply sample_collision_free.
  - apply sample_env_ok.
  - apply sample_evm_ok.
  - done.
  - by intros [_ [=]].
  - lia.
  - exact sample_fuel_enough.
  - lia.
  - reflexivity.
  - exists ret, addr, g, err, v'. split; [exact H|exact Hg].
Defined.

(** A call with too little gas for the SSTORE. *)
Lemma sample_out_of_gas : exists ret g v',
  Call sample_env (Run sample_env 20) (sample_evm false) (AccountRef 17%N) 32%N [] 100 0
    = Done (ret, g, Some ErrOutOfGas, v').
Proof.
  assert (H : match Call sample_env (Run sample_env 20) (sample_evm false) (AccountRef 17%N) 32%N [] 100 0
              with Done (_, _, Some ErrOutOfGas, _) => true | _ => false end = true)
    by (vm_compute; reflexivity).
  destruct (Call _ _ _ _ _ _ _ _) as [[[[ret g] [[]|]] v']| |]; try discriminate H.
  by exists ret, g, v'.
Qed.
Lemma Call_error_gas_witness : exists ret g v',
  Call sample_env (Run sample_env 20) (sample_evm false) (AccountRef 17%N) 32%N [] 100 0
    = Done (ret, g, Some ErrOutOfGas, v') /\ g = 0.
Proof.
  destruct sample_out_of_gas as (ret & g & v' & H). exists ret, g, v'. split; [exact H|].
  exact (Call_error_gas _ _ _ _ _ _ _ _ _ _ _ _ H ltac:(discriminate) ltac:(discriminate) ltac:(discriminate)).
Defined.

(** The reverted call of the sample contract: the storage is as before and
    the unused gas is returned. *)
Example sample_call_reverts :
  match Call sample_env (Run sample_env 20) (sample_evm false) (AccountRef 17%N) 32%N [] 100000 5 with
  | Done (ret, g, err, v') =>
      err = Some errExecutionReverted /\ g = 79988 /\
      (sd_GetState 32%N 1%N (evm_StateDB v')).1 = 0%N /\ (sd_GetBalance 17%N (evm_StateDB v')).1 = 1000000
  | _ => False
  end.
Proof. by vm_compute. Qed.
