(* ===== verification/InstrTheorems.v ===== *)
(** Instructions: what the arithmetic of core/vm/instructions.go computes,
    and the memory of core/vm/memory.go. *)
From S2P Require Import Prelude BigMath Params Machine MachineFacts Opcodes Analysis StateSpec StateRel Vm.
From S2P Require Import Precompiles PrecompileFacts Evm Instructions StateObject Statedb StateUndo StateRefine StateRevert Sample.
From S2P Require Import VmTheorems.

(** A word on the stack. *)
Definition is_word (x : Z) : Prop := 0 <= x < 2 ^ 256.

Lemma S256_range x : is_word x -> - 2 ^ 255 <= S256 x < 2 ^ 255.
Proof. unfold is_word, S256, tt255, tt256. destruct (Z.ltb_spec x (2 ^ 255)); lia. Qed.

Section Run.
Context {S : Type} `{SDB : StateDB S} `{CR : Crypto}.
Context (e : Env) (R : Runner (S := S)).
Implicit Types f : frame S.

(** [op] replaces the operands on top of the stack by [v] and does nothing
    else. *)
Definition computes (op : executionFunc (S := S)) (args : list Z) (v : Z) : Prop :=
  forall f st, f_stack f = args ++ st -> op e R f = Done (inr [], set_stack (v :: st) f).

Lemma binop_computes g x y : computes (binop g) [x; y] (g x y).
Proof. intros f st H. unfold binop, set_top, peek, pop, bind, gets, liftO. by rewrite H. Qed.
Lemma binop_push_computes g x y : computes (binop_push g) [x; y] (g x y).
Proof. intros f st H. unfold binop_push, pop, bind, gets, liftO. by rewrite H. Qed.

Lemma computes_value op args v v' : v = v' -> computes op args v -> computes op args v'.
Proof. by intros ->. Qed.

Lemma signed_division x y :
  is_word x -> is_word y ->
  computes opSdiv [x; y] (if y =? 0 then 0 else U256 (Z.quot (S256 x) (S256 y))) /\
  computes opSmod [x; y] (if y =? 0 then 0 else U256 (Z.rem (S256 x) (S256 y))).
Proof.
  intros Hx Hy. assert (Hz : (S256 y =? 0) = (y =? 0)).
  { unfold is_word, S256, tt255, tt256 in *. destruct (Z.ltb_spec y (2 ^ 255)); [done|].
    destruct (Z.eqb_spec y 0), (Z.eqb_spec (y - 2 ^ 256) 0); lia. }
  unfold opSdiv, opSmod.
  split; (eapply computes_value; [|apply binop_push_computes]); cbv beta zeta;
    unfold Sign, big_Div, big_Mod; generalize dependent (S256 x); generalize dependent (S256 y);
    intros sy Hz sx; rewrite <-Hz; clear.
  - destruct (Z.eqb_spec sy 0) as [->|Hy]; [done|]. rewrite Z.quot_div by done.
    destruct sx as [|p|p], sy as [|q|q]; try lia; cbn -[Z.div Z.mul U256 Z.opp]; try done;
      f_equal; lia.
  - destruct (Z.eqb_spec sy 0) as [->|Hy]; [done|]. rewrite Z.rem_mod by done.
    destruct sx as [|p|p], sy as [|q|q]; try lia; cbn -[Z.modulo Z.mul U256 Z.opp]; try done;
      f_equal; lia.
Qed.

Lemma signed_comparison x y :
  is_word x -> is_word y ->
  computes opSlt [x; y] (if S256 x <? S256 y then 1 else 0) /\
  computes opSgt [x; y] (if S256 y <? S256 x then 1 else 0).
Proof.
  unfold is_word. intros Hx Hy.
  split; (eapply computes_value; [|apply binop_computes]); cbv beta zeta; unfold S256, tt255, tt256;
    destruct (Z.leb_spec (2 ^ 255) x), (Z.leb_spec (2 ^ 255) y), (Z.ltb_spec x (2 ^ 255)),
      (Z.ltb_spec y (2 ^ 255)); try lia; simpl;
    repeat match goal with |- context [?a <? ?b] => destruct (Z.ltb_spec a b) end; lia.
Qed.

(** SDIV and SMOD are signed division truncated towards zero and its
    remainder, on two's complement words, and zero for a zero divisor; SLT
    and SGT compare words as two's complement numbers. *)
Theorem signed_arithmetic (x y : Z) :
  is_word x -> is_word y ->
  computes opSdiv [x; y] (if y =? 0 then 0 else U256 (Z.quot (S256 x) (S256 y))) /\
  computes opSmod [x; y] (if y =? 0 then 0 else U256 (Z.rem (S256 x) (S256 y))) /\
  computes opSlt [x; y] (if S256 x <? S256 y then 1 else 0) /\
  computes opSgt [x; y] (if S256 y <? S256 x then 1 else 0).
Proof.
  intros Hx Hy. destruct (signed_division x y Hx Hy). destruct (signed_comparison x y Hx Hy). done.
Qed.

(** ADDMOD and MULMOD do not overflow before they reduce, and a zero
    modulus gives zero; EXP is the power modulo 2^256. *)
Theorem modular_arithmetic (x y z : Z) :
  is_word x -> is_word y -> is_word z ->
  computes opAddmod [x; y; z] (if z =? 0 then 0 else (x + y) mod z) /\
  computes opMulmod [x; y; z] (if z =? 0 then 0 else (x * y) mod z) /\
  computes opExp [x; y] (x ^ y mod 2 ^ 256).
Proof.
  unfold is_word. intros Hx Hy Hz.
  assert (Hm : forall v, (if 0 <? z then U256 (big_Mod v z) else 0) = if z =? 0 then 0 else v mod z).
  { intros v. destruct (Z.ltb_spec 0 z), (Z.eqb_spec z 0); try lia. unfold big_Mod.
    pose proof (Z.mod_pos_bound v z). apply U256_small. lia. }
  split; [|split].
  - intros f st H. rewrite <-Hm. unfold opAddmod, pop, bind, gets, liftO. by rewrite H.
  - intros f st H. rewrite <-Hm. unfold opMulmod, pop, bind, gets, liftO. by rewrite H.
  - eapply computes_value; [|apply binop_push_computes]. apply math_Exp_pow. lia.
Qed.

(** SHL, SHR and, but for one case, SAR are the multiplication by a power
    of two modulo 2^256, the division, and the signed division rounded down. *)
Theorem shifts (x y : Z) :
  is_word x -> is_word y ->
  computes opSHL [x; y] (y * 2 ^ x mod 2 ^ 256) /\
  computes opSHR [x; y] (y / 2 ^ x) /\
  (y <> 0 \/ x < 256 -> computes opSAR [x; y] (U256 (S256 y / 2 ^ x))).
Proof.
  unfold is_word. intros Hx Hy. assert (Hpx : 0 < 2 ^ x) by lia.
  assert (Hbig : 256 <= x -> 2 ^ x = 2 ^ (x - 256) * 2 ^ 256)
    by (intros; rewrite <-Z.pow_add_r by lia; f_equal; lia).
  assert (Hu : x < 256 -> big_Uint64 x = x) by (intros; apply big_Uint64_small; unfold is_u64; lia).
  split; [|split; [|intros Hyx]];
    (eapply computes_value; [|first [apply binop_computes|apply binop_push_computes]]); cbv beta zeta;
    unfold sar; rewrite ?(U256_small x), ?(U256_small y) by done;
    destruct (Z.leb_spec 256 x) as [Hlt|Hlt]; rewrite ?Hu by lia.
  - rewrite Hbig, Z.mul_assoc, Z.mod_mul; lia.
  - by rewrite Z.shiftl_mul_pow2, U256_mod by lia.
  - symmetry. apply Z.div_small. assert (0 < 2 ^ (x - 256)) by lia. rewrite Hbig by lia. nia.
  - rewrite Z.shiftr_div_pow2 by lia. apply U256_small.
    split; [apply Z.div_pos; lia|]. apply Z.div_lt_upper_bound; nia.
  - f_equal. pose proof (S256_range y Hy). assert (0 < 2 ^ (x - 256)) by lia.
    assert (Hge : 2 ^ 256 <= 2 ^ x) by (rewrite Hbig by lia; nia).
    assert (Hne : S256 y <> 0) by (unfold S256, tt255, tt256; destruct (Z.ltb_spec y (2 ^ 255)); lia).
    unfold Sign. destruct (S256 y) as [|p|p]; [lia| |]; cbn [Z.sgn]; change (0 <? 1) with true; change (0 <? -1) with false; cbn iota.
    + symmetry. apply Z.div_small. lia.
    + apply (Z.div_unique _ _ _ (2 ^ x + Z.neg p)); lia.
  - by rewrite Z.shiftr_div_pow2 by lia.
Qed.

(** The case left out: SAR of zero by 256 bits or more gives 2^256 - 1
    and not zero, because the code tests for a positive value where it means
    a non-negative one. *)
Theorem SAR_zero_wrong (x : Z) :
  is_word x -> 256 <= x -> computes opSAR [x; 0] (2 ^ 256 - 1) /\ U256 (S256 0 / 2 ^ x) = 0.
Proof.
  unfold is_word. intros Hx Hge. split; [|by rewrite Z.div_0_l by lia].
  eapply computes_value; [|apply binop_push_computes]. unfold sar.
  rewrite U256_small by done. destruct (Z.leb_spec 256 x); [done|lia].
Qed.

Lemma mod_pow_succ num k : 0 <= k ->
  num mod 2 ^ (k + 1) = num mod 2 ^ k + if Z.testbit num k then 2 ^ k else 0.
Proof.
  intros Hk. rewrite Z.pow_add_r, Z.pow_1_r, Z.rem_mul_r by lia.
  pose proof (Z.mod_pos_bound (num / 2 ^ k) 2 ltac:(lia)).
  destruct (Z.testbit num k) eqn:Hb.
  - apply Z.testbit_true in Hb; lia.
  - apply Z.testbit_false in Hb; lia.
Qed.

Lemma sign_extend_value k num : 0 <= k < 31 ->
  sign_extend k num = U256 ((num + 2 ^ (8 * k + 7)) mod 2 ^ (8 * k + 8) - 2 ^ (8 * k + 7)).
Proof.
  intros Hk. unfold sign_extend. rewrite big_Uint64_small by (unfold is_u64; lia).
  rewrite (Z.mul_comm k 8). set (b := 8 * k + 7). replace (8 * k + 8) with (b + 1) by lia.
  assert (Hb : 0 <= b) by lia. assert (Hp : 0 < 2 ^ b) by lia.
  assert (Hs : 2 ^ (b + 1) = 2 * 2 ^ b) by (rewrite Z.pow_add_r; lia).
  pose proof (mod_pow_succ num b Hb) as Hm. pose proof (Z.mod_pos_bound num (2 ^ b) Hp) as Hr.
  rewrite <-Z.add_mod_idemp_l, Hm, Z.shiftl_1_l by lia.
  assert (Hones : 2 ^ b - 1 = Z.ones b) by (rewrite Z.ones_equiv; lia). rewrite Hones.
  destruct (Z.testbit num b); f_equal.
  - replace (num mod 2 ^ b + 2 ^ b + 2 ^ b) with (num mod 2 ^ b + 1 * 2 ^ (b + 1)) by lia.
    rewrite Z.mod_add, Z.mod_small by lia.
    rewrite <-(Z.lnot_involutive (Z.lor _ _)), Z.lnot_lor, Z.lnot_involutive, Z.land_ones by lia.
    assert (E : Z.lnot num mod 2 ^ b = 2 ^ b - 1 - num mod 2 ^ b).
    { symmetry. apply (Z.mod_unique _ _ (- (num / 2 ^ b) - 1)); [lia|].
      rewrite (Z.div_mod num (2 ^ b)) at 1 by lia. unfold Z.lnot. lia. }
    rewrite E. unfold Z.lnot. lia.
  - rewrite Z.land_ones, Z.add_0_r, (Z.mod_small (_ + _)) by lia. lia.
Qed.

(** SIGNEXTEND of byte [k] takes the low 8(k+1) bits as a two's
    complement number; from byte 31 on it leaves the word alone. *)
Theorem signextend (k num : Z) :
  is_word k -> is_word num ->
  computes opSignExtend [k; num]
    (if k <? 31 then U256 ((num + 2 ^ (8 * k + 7)) mod 2 ^ (8 * k + 8) - 2 ^ (8 * k + 7)) else num).
Proof.
  unfold is_word. intros Hk Hn f st H. unfold opSignExtend, pop, bind, gets, liftO. rewrite H. simpl.
  destruct (Z.ltb_spec k 31); simpl; [|done]. by rewrite sign_extend_value by lia.
Qed.
End Run.

(** ** Witnesses *)

(** A frame with the given stack. *)
Definition sample_frame (st : Stack) : frame Statedb :=
  {| f_pc := 0; f_evm := sample_evm false; f_contract := sample_contract; f_mem := NewMemory;
     f_stack := st |}.
Definition sample_runner : Runner (S := Statedb) := fun _ _ _ => NoFuel.

Lemma signed_arithmetic_witness :
  opSdiv sample_env sample_runner (sample_frame [2 ^ 256 - 7; 2]) =
    Done (inr [], sample_frame [U256 (Z.quot (S256 (2 ^ 256 - 7)) (S256 2))]).
Proof.
  refine (proj1 (signed_arithmetic sample_env sample_runner (2 ^ 256 - 7) 2 _ _) (sample_frame _) [] _);
    [unfold is_word; lia|unfold is_word; lia|reflexivity].
Defined.
Lemma modular_arithmetic_witness :
  opMulmod sample_env sample_runner (sample_frame [2 ^ 256 - 1; 2 ^ 256 - 1; 7]) =
    Done (inr [], sample_frame [((2 ^ 256 - 1) * (2 ^ 256 - 1)) mod 7]).
Proof.
  refine (proj1 (proj2 (modular_arithmetic sample_env sample_runner (2 ^ 256 - 1) (2 ^ 256 - 1) 7 _ _ _))
            (sample_frame _) [] _); [unfold is_word; lia..|reflexivity].
Defined.
Lemma shifts_witness :
  opSAR sample_env sample_runner (sample_frame [1; 2 ^ 256 - 8]) =
    Done (inr [], sample_frame [U256 (S256 (2 ^ 256 - 8) / 2 ^ 1)]).
Proof.
  refine (proj2 (proj2 (shifts sample_env sample_runner 1 (2 ^ 256 - 8) _ _)) _ (sample_frame _) [] _);
    [unfold is_word; lia|unfold is_word; lia|right; lia|reflexivity].
Defined.
Lemma SAR_zero_wrong_witness :
  opSAR sample_env sample_runner (sample_frame [256; 0]) = Done (inr [], sample_frame [2 ^ 256 - 1]).
Proof.
  refine (proj1 (SAR_zero_wrong sample_env sample_runner 256 _ _) (sample_frame _) [] _);
    [unfold is_word; lia|lia|reflexivity].
Defined.
Lemma signextend_witness :
  opSignExtend sample_env sample_runner (sample_frame [0; 0x1ff]) =
    Done (inr [], sample_frame [U256 ((0x1ff + 2 ^ (8 * 0 + 7)) mod 2 ^ (8 * 0 + 8) - 2 ^ (8 * 0 + 7))]).
Proof.
  refine (signextend sample_env sample_runner 0 0x1ff _ _ (sample_frame _) [] _);
    [unfold is_word; lia|unfold is_word; lia|reflexivity].
Defined.
