(* ===== verification/GasTheorems.v ===== *)
(** Memory, gas and the precompiled contracts: the theorems on
    core/vm/memory.go, common.go, gas.go, gas_table.go and contracts.go. *)
From S2P Require Import Prelude BigMath Params Machine MachineFacts Opcodes Analysis StateSpec StateRel Vm.
From S2P Require Import Precompiles PrecompileFacts Evm StateObject Statedb StateUndo StateRefine StateRevert Sample VmTheorems.

(** ** Memory *)

Lemma lookup_copy_at (dst src : bytes) (off : Z) (i : nat) :
  0 <= off -> off + len src <= len dst ->
  copy_at dst off src !! i =
    if decide (off <= Z.of_nat i < off + len src) then src !! (i - Z.to_nat off)%nat else dst !! i.
Proof.
  unfold copy_at, len. intros Hoff Hle. rewrite (take_ge src) by lia.
  case_decide as Hi.
  - rewrite lookup_app_r by (rewrite length_take; lia). rewrite length_take, Nat.min_l by lia.
    by rewrite lookup_app_l by lia.
  - destruct (decide (Z.of_nat i < off)).
    + rewrite lookup_app_l by (rewrite length_take; lia). by rewrite lookup_take_lt by lia.
    + rewrite lookup_app_r by (rewrite length_take; lia). rewrite length_take, Nat.min_l by lia.
      rewrite lookup_app_r by lia. rewrite lookup_drop. f_equal. lia.
Qed.

(** Equal bytes in a range give equal slices. *)
Lemma slice_ext (l k : bytes) a b :
  0 <= a <= b -> b <= len l -> len k = len l ->
  (forall i : nat, a <= Z.of_nat i < b -> l !! i = k !! i) -> slice l a b = slice k a b.
Proof.
  intros Ha Hb Hlen Hlk. rewrite !slice_done by lia. f_equal. apply list_eq. intros i.
  destruct (decide (Z.of_nat i < b - a)).
  - rewrite !lookup_take_lt, !lookup_drop by lia. apply Hlk. lia.
  - by rewrite !lookup_take_ge by lia.
Qed.

(** A write to memory is read back, leaves every byte outside its range
    as it was, and changes neither the size nor the fee paid. *)
Theorem Memory_Set_Get (m : Memory) (off : Z) (v : bytes) :
  0 <= off -> 0 < len v -> off + len v <= Memory_Len m -> Memory_Len m < two63 ->
  exists m', Memory_Set off (len v) v m = Done m' /\
    Memory_Len m' = Memory_Len m /\ lastGasCost m' = lastGasCost m /\
    Memory_Get off (len v) m' = Done v /\
    forall o n, 0 <= o -> 0 <= n -> o + n <= off \/ off + len v <= o -> o + n <= Memory_Len m ->
      Memory_Get o n m' = Memory_Get o n m.
Proof.
  intros Hoff Hv Hin Hmax. unfold Memory_Set.
  destruct (Z.ltb_spec (Memory_Len m) (len v)); [lia|]. destruct (Z.ltb_spec 0 (len v)); [|lia].
  rewrite u64_small by (unfold is_u64; lia). unfold Memory_Len in *.
  rewrite slice_done by lia. simpl. rewrite take_ge by (unfold len; lia).
  assert (Hlen : len (copy_at (store m) off v) = len (store m)) by (apply len_copy_at; lia).
  eexists. split; [done|]. split; [done|]. split; [done|].
  unfold Memory_Get, Memory_Len. cbn [store]. rewrite Hlen. split.
  - destruct (Z.eqb_spec (len v) 0); [lia|]. destruct (Z.ltb_spec off (len (store m))); [|lia].
    destruct (Z.ltb_spec (len v) 0); [lia|]. rewrite i64_small, slice_done by lia.
    f_equal. apply list_eq. intros i. destruct (decide (Z.of_nat i < len v)).
    + rewrite lookup_take_lt, lookup_drop, lookup_copy_at, decide_True by lia. f_equal. lia.
    + rewrite lookup_take_ge, lookup_ge_None_2 by (unfold len in *; lia). done.
  - intros o n Ho Hn Hdis Hon. destruct (n =? 0); [done|]. destruct (o <? _); [|done].
    destruct (n <? 0); [done|]. rewrite i64_small by lia. apply slice_ext; [lia|lia|lia|].
    intros i Hi. rewrite lookup_copy_at, decide_False by lia. done.
Qed.
Lemma Memory_Set_Get_witness : exists m',
  Memory_Set 3 2 [Byte.x01; Byte.x02] (Memory_Resize 32 NewMemory) = Done m' /\
  Memory_Get 3 2 m' = Done [Byte.x01; Byte.x02].
Proof.
  destruct (Memory_Set_Get (Memory_Resize 32 NewMemory) 3 [Byte.x01; Byte.x02])
    as (m' & H & _ & _ & Hget & _); [lia|reflexivity|discriminate|reflexivity|].
  exists m'. exact (conj H Hget).
Defined.

(** Expanding the memory costs the difference between the fees of the
    new and the old number of words, 3 w + w^2 / 512, for sizes up to
    0x1fffffffe0 bytes. *)
Theorem memoryGasCost_fee (m : Memory) (w n : Z) :
  0 <= w -> Memory_Len m = 32 * w -> lastGasCost m = mem_fee w -> 0 < n <= 0x1fffffffe0 ->
  memoryGasCost m n =
    (inr (mem_fee (Z.max w (toWordSize n)) - mem_fee w),
     {| store := store m; lastGasCost := mem_fee (Z.max w (toWordSize n)) |}).
Proof. apply memoryGasCost_exact. Qed.
Lemma memoryGasCost_fee_witness :
  (memoryGasCost NewMemory 33).1 = inr (mem_fee 2 - mem_fee 0).
Proof.
  rewrite (memoryGasCost_fee NewMemory 0 33); [reflexivity|lia|reflexivity|reflexivity|lia].
Defined.

(** Beyond that size the square of the number of words overflows although
    the size passes the check: 2^37 bytes are sold for the linear part of the
    fee. *)
Theorem memoryGasCost_wraps :
  2 ^ 37 <= 0xffffffffe0 /\
  (memoryGasCost NewMemory (2 ^ 37)).1 = inr (MemoryGas * toWordSize (2 ^ 37)) /\
  MemoryGas * toWordSize (2 ^ 37) < mem_fee (toWordSize (2 ^ 37)).
Proof. by vm_compute. Qed.

(** Since EIP150 a call gets what it asks for, but at most all but one
    64th of the gas that is left after the base cost. *)
Theorem callGas_all_but_64th (gt : GasTable) (available base callCost : Z) :
  0 < gt_CreateBySuicide gt -> is_u64 available -> 0 <= base <= available -> 0 <= callCost ->
  callGas gt available base callCost =
    inr (Z.min callCost ((available - base) - (available - base) / 64)).
Proof.
  intros Hgt Ha Hb Hc. unfold callGas, is_u64 in *. destruct (Z.ltb_spec 0 (gt_CreateBySuicide gt)); [|lia].
  set (a := available - base). assert (0 <= a < two64) by lia.
  rewrite (u64_small a), u64_small by (unfold is_u64; clearbody a; zlia). set (g := a - a / 64).
  assert (0 <= g < two64) by (unfold g; clearbody a; zlia).
  destruct (Z.ltb_spec 64 (BitLen callCost)) as [Hl|Hl]; simpl.
  - f_equal. rewrite Z.min_r; [done|]. apply Z.lt_nge in Hl. rewrite BitLen_spec in Hl by lia. lia.
  - apply BitLen_spec in Hl; [|lia]. rewrite big_Uint64_small by (unfold is_u64; lia).
    destruct (Z.ltb_spec g callCost); f_equal; lia.
Qed.
Lemma callGas_all_but_64th_witness :
  callGas GasTableEIP158 6400 0 10000 = inr (Z.min 10000 ((6400 - 0) - (6400 - 0) / 64)).
Proof. apply (callGas_all_but_64th GasTableEIP158 6400 0 10000); unfold is_u64; simpl; lia. Defined.

(** ** SSTORE *)

Section Sstore.
Context {S : Type} `{SDB : StateDB S} `{CR : Crypto} `{SP : !StateDBSpec S Keccak256Hash}.

(** SSTORE costs 20000 to fill an empty slot and 5000 otherwise, and
    adds 15000 to the refund counter exactly when it clears a slot. *)
Theorem gasSStore_cases (e : Env) (memorySize : Z) (f : frame S) x y st :
  sinv (evm_StateDB (f_evm f)) -> f_stack f = x :: y :: st ->
  let w := cur (abs (evm_StateDB (f_evm f))) in
  let old := w_storage w (c_self (f_contract f)) (BigToHash x) in
  let new := BigToHash y in
  exists f', gasSStore e memorySize f
             = Done (inr (if (old =? 0)%N && negb (new =? 0)%N then SstoreSetGas else SstoreResetGas), f') /\
    cur (abs (evm_StateDB (f_evm f'))) ≡
      (if negb (old =? 0)%N && (new =? 0)%N then w_AddRefund SstoreRefundGas w else w).
Proof.
  destruct f as [pc v c m stk]. intros I Hst w old new. cbn [f_evm f_stack f_contract] in *. subst stk.
  unfold gasSStore, Back, sdb_get, sdb_do, bind, gets, liftO, modify, ret.
  cbn [f_evm f_stack f_contract Stack_Back lookup list_lookup].
  destruct (GetState_spec (c_self c) (BigToHash x) _ I) as (I' & A & Ev).
  fold w old in Ev. unfold Contract_Address.
  destruct (GetState _ _ _) as [val s']. cbn [fst snd] in *. subst val. unfold EmptyHash. fold new.
  destruct (old =? 0)%N, (new =? 0)%N; simpl; (eexists; split; [reflexivity|]); simpl; try by rewrite A.
  destruct (AddRefund_spec SstoreRefundGas s' I') as [_ [E _]]. rewrite E. simpl.
  unfold w. destruct A as [(? & Er & ? & ? & ? & ? & ? & ?) _].
  apply world_equiv_acct; simpl; try done. by rewrite Er.
Qed.
End Sstore.

(** Filling slot 1 of the sample contract. *)
Lemma gasSStore_cases_witness : exists f',
  gasSStore sample_env 0
    {| f_pc := 0; f_evm := sample_evm false; f_contract := sample_contract; f_mem := NewMemory;
       f_stack := [1; 7] |} = Done (inr SstoreSetGas, f').
Proof.
  destruct (gasSStore_cases sample_env 0
    {| f_pc := 0; f_evm := sample_evm false; f_contract := sample_contract; f_mem := NewMemory;
       f_stack := [1; 7] |} 1 7 [] (proj1 sample_state_ok) eq_refl) as (f' & H & _).
  exists f'. exact H.
Defined.

(** ** Precompiled contracts *)

Section Precompiled.
Context `{CR : Crypto} {CS : CryptoSpec}.


Lemma getData_in (data : bytes) (start size : Z) :
  0 <= start -> 0 <= size -> start + size <= len data -> len data < two63 ->
  getData data start size = Done (take (Z.to_nat size) (drop (Z.to_nat start) data)).
Proof.
  intros Hst Hsz Hin Hlen. unfold getData.
  destruct (Z.ltb_spec (len data) start); [lia|]. rewrite u64_small by (unfold is_u64; lia).
  destruct (Z.ltb_spec (len data) (start + size)); [lia|].
  pose proof (len_take_drop data start (start + size) ltac:(lia) Hin) as Hl.
  rewrite slice_done by lia. simpl. rewrite i64_small, RightPadBytes_spec, Hl by lia.
  replace (size - (start + size - start)) with 0 by lia. rewrite app_nil_r.
  by replace (start + size - start) with size by lia.
Qed.

(** A part of a concatenation. *)
Lemma getData_part (l d k : bytes) start size :
  start = len l -> size = len d -> len (l ++ d ++ k) < two63 -> getData (l ++ d ++ k) start size = Done d.
Proof.
  intros -> -> Hlen. rewrite !len_app in *. pose proof (len_nonneg l). pose proof (len_nonneg d).
  pose proof (len_nonneg k). rewrite getData_in by (rewrite ?len_app; lia). unfold len.
  rewrite !Nat2Z.id, drop_app_length, take_app_length. done.
Qed.

(** Digits are determined by their number and value. *)
Lemma be_fixed_unique (l : bytes) n z : length l = n -> big_SetBytes l = z -> l = be_fixed n z.
Proof. intros <- <-. by rewrite be_fixed_big_SetBytes. Qed.

(** The input of [bigModExp]: three lengths, then the numbers. *)
Definition modexp_input (b x m : bytes) : bytes :=
  be_fixed 32 (len b) ++ be_fixed 32 (len x) ++ be_fixed 32 (len m) ++ b ++ x ++ m.

(** [bigModExp] computes the modular power: on the encoding of a base,
    an exponent and a positive modulus it returns base^exponent mod modulus,
    with as many bytes as the modulus was given with. *)
Theorem bigModExp_power (b x m : bytes) :
  len b < 2 ^ 60 -> len x < 2 ^ 60 -> len m < 2 ^ 60 -> 0 < big_SetBytes m ->
  bigModExp_Run noLimit (modexp_input b x m) =
    Done (be_fixed (length m) (big_SetBytes b ^ big_SetBytes x mod big_SetBytes m)).
Proof.
  intros Hb Hx Hm Hpos. pose proof (len_nonneg b). pose proof (len_nonneg x).
  assert (Hm0 : 0 < len m) by (destruct m; [done|unfold len; simpl; lia]).
  assert (Hv : forall l : bytes, len l < 2 ^ 60 -> big_SetBytes (be_fixed 32 (len l)) = len l)
    by (intros l Hl; rewrite big_SetBytes_be_fixed; apply Z.mod_small; pose proof (len_nonneg l); lia).
  assert (Hlen : len (modexp_input b x m) = 96 + len b + len x + len m)
    by (unfold modexp_input; rewrite !len_app, !len_be_fixed; lia).
  unfold bigModExp_Run.
  assert (E0 : getData (modexp_input b x m) 0 32 = Done (be_fixed 32 (len b))).
  { apply (getData_part []); [done|by rewrite len_be_fixed|]. change (len (modexp_input b x m) < two63). lia. }
  assert (E1 : getData (modexp_input b x m) 32 32 = Done (be_fixed 32 (len x))).
  { apply getData_part; [by rewrite len_be_fixed..|]. change (len (modexp_input b x m) < two63). lia. }
  assert (E2 : getData (modexp_input b x m) 64 32 = Done (be_fixed 32 (len m))).
  { unfold modexp_input in *. rewrite app_assoc in *. apply getData_part; [|by rewrite len_be_fixed|lia].
    by rewrite len_app, !len_be_fixed. }
  rewrite E0, E1, E2. cbn [outcome_bind]. rewrite !Hv, !big_Uint64_small by (unfold is_u64; lia).
  assert (Et : bigModExp_tail (modexp_input b x m) = b ++ x ++ m).
  { unfold bigModExp_tail. rewrite Hlen. destruct (Z.ltb_spec 96 (96 + len b + len x + len m)); [|lia].
    unfold modexp_input. rewrite (app_assoc (be_fixed 32 (len b))), app_assoc.
    rewrite drop_app_length'; [done|]. by rewrite !length_app, !length_be_fixed. }
  rewrite Et. destruct (Z.eqb_spec (len m) 0); [lia|]. rewrite andb_false_r.
  rewrite !getData_make_fits by (unfold noLimit; lia).
  rewrite (getData_part [] b (x ++ m)) by (rewrite ?len_app; unfold len in *; simpl; lia).
  cbn [outcome_bind]. rewrite (getData_part b x m) by (rewrite ?len_app; lia). cbn [outcome_bind].
  rewrite app_assoc, <-(app_nil_r m) at 1.
  rewrite u64_small by (unfold is_u64; lia).
  rewrite (getData_part (b ++ x) m []) by (rewrite ?len_app; unfold len in *; simpl; lia).
  cbn [outcome_bind]. destruct (Z.eqb_spec (BitLen (big_SetBytes m)) 0) as [E|].
  { pose proof (BitLen_bound (big_SetBytes m)). rewrite E in *. lia. }
  rewrite i64_small by lia. rewrite LeftPadBytes_make_fits by (unfold noLimit; lia). f_equal.
  pose proof (len_modexp_result b x m Hpos) as Hr.
  apply be_fixed_unique.
  - enough (len (LeftPadBytes (big_Bytes (big_Exp (big_SetBytes b) (big_SetBytes x) (big_SetBytes m))) (len m))
            = len m) by (unfold len in *; lia).
    rewrite LeftPadBytes_spec, len_app, len_zeros by lia. lia.
  - rewrite LeftPadBytes_value, big_Bytes_value by lia.
    rewrite big_Exp_spec by (done || apply big_SetBytes_nonneg).
    apply Z.abs_eq. by apply Z.mod_pos_bound.
Qed.
End Precompiled.


(** Gas for an exponent of 2^49 bytes buys a panic in [make], where slices are
    limited to 2^48 bytes. *)
Example bigModExp_make_panics :
  let input := be_fixed 32 0 ++ be_fixed 32 (2 ^ 49) ++ be_fixed 32 1 in
  bigModExp_Run (2 ^ 48) input = GoPanic /\
  exists g, bigModExp_RequiredGas input = Done g /\ g < 2 ^ 48.
Proof. split; [by vm_compute|]. eexists. split; [vm_compute; reflexivity|lia]. Qed.

Lemma bigModExp_power_witness :
  bigModExp_Run noLimit (modexp_input [Byte.x03] [Byte.x05] [Byte.x07]) = Done (be_fixed 1 (3 ^ 5 mod 7)).
Proof. apply (bigModExp_power [Byte.x03] [Byte.x05] [Byte.x07]); reflexivity. Defined.

(** With more gas, as a call outside a block may have, [bigModExp] does
    panic: for an exponent length of 2^64 - 1 the sum of offset and length
    wraps around in [getData], and the slice ends before it starts.  The gas
    is below half of the largest 64-bit number. *)
Theorem bigModExp_panics :
  let input := be_fixed 32 1 ++ be_fixed 32 (2 ^ 64 - 1) ++ be_fixed 32 0 ++ [Byte.x01] in
  bigModExp_Run noLimit input = GoPanic /\
  exists g, bigModExp_RequiredGas input = Done g /\ g < 2 ^ 63 - 1.
Proof. split; [by vm_compute|]. eexists. split; [vm_compute; reflexivity|lia]. Qed.

(** [ecrecover] writes the recovery id into its input behind the
    signature, when the input is longer than 128 bytes. *)
Theorem ecrecover_writes_input : exists input out input',
  ecrecover_Run (CR := sample_crypto) input = Done (out, input') /\ input' <> input.
Proof.
  exists (be_fixed 32 5 ++ be_fixed 32 27 ++ be_fixed 65 3). eexists _, _.
  split; [vm_compute; reflexivity|by vm_compute].
Qed.
