(* ===== verification/StateTransition.v ===== *)
(** Applying a message to the state: core/state_transition.go and
    core/gaspool.go. *)
From S2P Require Import Prelude BigMath Params Machine StateSpec Vm Precompiles Evm.

(** ** core/gaspool.go

    A [GasPool] is the 64-bit number of gas left in the block. *)
Definition GasPool : Type := Z.

Definition AddGas (amount gp : Z) : outcome Z :=
  if MaxUint64 - amount <? gp then GoPanic else Done (u64 (gp + amount)).
(** [None] is [ErrGasLimitReached]. *)
Definition SubGas (amount gp : Z) : option Z :=
  if gp <? amount then None else Some (u64 (gp - amount)).

(** ** core/state_transition.go *)

(** The interface [Message]; a creation has no recipient. *)
Record Message := mkMessage {
  msg_From : Address;
  msg_To : option Address;
  msg_GasPrice : Z;
  msg_Gas : Z;
  msg_Value : Z;
  msg_Nonce : Z;
  msg_CheckNonce : bool;
  msg_Data : bytes
}.

Inductive txError :=
| ErrNonceTooHigh
| ErrNonceTooLow
| errInsufficientBalanceForGas
| ErrGasLimitReached
| errVm (err : vmError).

Definition nonzero_bytes (data : bytes) : Z := len (filter (fun b => b2z b <> 0) data).

Definition IntrinsicGas (data : bytes) (contractCreation homestead : bool) : vmError + Z :=
  let gas := if contractCreation && homestead then TxGasContractCreation else TxGas in
  if 0 <? len data then
    let nz := nonzero_bytes data in
    if (MaxUint64 - gas) / TxDataNonZeroGas <? nz then inl ErrOutOfGas
    else
      let gas := u64 (gas + u64 (nz * TxDataNonZeroGas)) in
      let z := u64 (len data - nz) in
      if (MaxUint64 - gas) / TxDataZeroGas <? z then inl ErrOutOfGas
      else inr (u64 (gas + u64 (z * TxDataZeroGas)))
  else inr gas.

Section StateTransition.
Context {S : Type} `{SDB : StateDB S} `{CR : Crypto}.

(** [st.state] is the state of the machine. *)
Record StateTransition := mkStateTransition {
  st_gp : GasPool;
  st_msg : Message;
  st_gas : Z;
  st_gasPrice : Z;
  st_initialGas : Z;
  st_value : Z;
  st_data : bytes;
  st_evm : EVM S
}.

Definition st_set_gp (gp : GasPool) (st : StateTransition) : StateTransition :=
  {| st_gp := gp; st_msg := st_msg st; st_gas := st_gas st; st_gasPrice := st_gasPrice st;
     st_initialGas := st_initialGas st; st_value := st_value st; st_data := st_data st; st_evm := st_evm st |}.
Definition st_set_gas (gas : Z) (st : StateTransition) : StateTransition :=
  {| st_gp := st_gp st; st_msg := st_msg st; st_gas := gas; st_gasPrice := st_gasPrice st;
     st_initialGas := st_initialGas st; st_value := st_value st; st_data := st_data st; st_evm := st_evm st |}.
Definition st_set_initialGas (gas : Z) (st : StateTransition) : StateTransition :=
  {| st_gp := st_gp st; st_msg := st_msg st; st_gas := st_gas st; st_gasPrice := st_gasPrice st;
     st_initialGas := gas; st_value := st_value st; st_data := st_data st; st_evm := st_evm st |}.
Definition st_set_evm (v : EVM S) (st : StateTransition) : StateTransition :=
  {| st_gp := st_gp st; st_msg := st_msg st; st_gas := st_gas st; st_gasPrice := st_gasPrice st;
     st_initialGas := st_initialGas st; st_value := st_value st; st_data := st_data st; st_evm := v |}.
Definition st_state (st : StateTransition) : S := evm_StateDB (st_evm st).
Definition st_set_state (s : S) (st : StateTransition) : StateTransition :=
  st_set_evm (set_StateDB s (st_evm st)) st.

Definition NewStateTransition (evm : EVM S) (msg : Message) (gp : GasPool) : StateTransition :=
  {| st_gp := gp; st_msg := msg; st_gas := 0; st_gasPrice := msg_GasPrice msg; st_initialGas := 0;
     st_value := msg_Value msg; st_data := msg_Data msg; st_evm := evm |}.

Definition st_to (st : StateTransition) : Address := default 0%N (msg_To (st_msg st)).

Definition useGas (amount : Z) (st : StateTransition) : option vmError * StateTransition :=
  if st_gas st <? amount then (Some ErrOutOfGas, st) else (None, st_set_gas (u64 (st_gas st - amount)) st).

Definition buyGas (st : StateTransition) : option txError * StateTransition :=
  let msg := st_msg st in
  let mgval := msg_Gas msg * st_gasPrice st in
  let '(balance, s) := GetBalance (msg_From msg) (st_state st) in
  let st := st_set_state s st in
  if balance <? mgval then (Some errInsufficientBalanceForGas, st)
  else
    match SubGas (msg_Gas msg) (st_gp st) with
    | None => (Some ErrGasLimitReached, st)
    | Some gp =>
        let st := st_set_gp gp st in
        let st := st_set_gas (u64 (st_gas st + msg_Gas msg)) st in
        let st := st_set_initialGas (msg_Gas msg) st in
        (None, st_set_state (SubBalance (msg_From msg) mgval (st_state st)) st)
    end.

Definition preCheck (st : StateTransition) : option txError * StateTransition :=
  let msg := st_msg st in
  if msg_CheckNonce msg then
    let '(nonce, s) := GetNonce (msg_From msg) (st_state st) in
    let st := st_set_state s st in
    if nonce <? msg_Nonce msg then (Some ErrNonceTooHigh, st)
    else if msg_Nonce msg <? nonce then (Some ErrNonceTooLow, st)
    else buyGas st
  else buyGas st.

Definition gasUsed (st : StateTransition) : Z := u64 (st_initialGas st - st_gas st).

Definition refundGas (st : StateTransition) : outcome StateTransition :=
  let refund := gasUsed st / 2 in
  let refund := if GetRefund (st_state st) <? refund then GetRefund (st_state st) else refund in
  let st := st_set_gas (u64 (st_gas st + refund)) st in
  let remaining := st_gas st * st_gasPrice st in
  let st := st_set_state (AddBalance (msg_From (st_msg st)) remaining (st_state st)) st in
  let* gp := AddGas (st_gas st) (st_gp st) in
  Done (st_set_gp gp st).

(** The call or creation of [TransitionDb]: returned bytes and error. *)
Definition execute_msg (e : Env) (R : Runner) (st : StateTransition)
  : outcome (bytes * option vmError * StateTransition) :=
  let msg := st_msg st in
  let sender := AccountRef (msg_From msg) in
  match msg_To msg with
  | None =>
      let* r := Create e R (st_evm st) sender (st_data st) (st_gas st) (st_value st) in
      let '(ret, _, gas, vmerr, evm) := r in
      Done (ret, vmerr, st_set_gas gas (st_set_evm evm st))
  | Some _ =>
      let '(nonce, s) := GetNonce (ref_Address sender) (st_state st) in
      let st := st_set_state (SetNonce (msg_From msg) (u64 (nonce + 1)) s) st in
      let* r := Call e R (st_evm st) sender (st_to st) (st_data st) (st_gas st) (st_value st) in
      let '(ret, gas, vmerr, evm) := r in
      Done (ret, vmerr, st_set_gas gas (st_set_evm evm st))
  end.

(** Result: an error, or the returned bytes, the gas used and whether the
    execution failed. *)
Definition TransitionDb (e : Env) (R : Runner) (st : StateTransition)
  : outcome ((txError + bytes * Z * bool) * StateTransition) :=
  let '(err, st) := preCheck st in
  match err with
  | Some err => Done (inl err, st)
  | None =>
      let contractCreation := bool_decide (msg_To (st_msg st) = None) in
      match IntrinsicGas (st_data st) contractCreation (env_IsHomestead e) with
      | inl err => Done (inl (errVm err), st)
      | inr gas =>
          let '(err, st) := useGas gas st in
          match err with
          | Some err => Done (inl (errVm err), st)
          | None =>
              let* r := execute_msg e R st in
              let '(ret, vmerr, st) := r in
              if bool_decide (vmerr = Some ErrInsufficientBalance)
              then Done (inl (errVm ErrInsufficientBalance), st)
              else
                let* st := refundGas st in
                let st := st_set_state
                  (AddBalance (Coinbase (env_ctx e)) (gasUsed st * st_gasPrice st) (st_state st)) st in
                Done (inr (ret, gasUsed st, bool_decide (vmerr <> None)), st)
          end
      end
  end.

Definition ApplyMessage (e : Env) (R : Runner) (evm : EVM S) (msg : Message) (gp : GasPool)
  : outcome ((txError + bytes * Z * bool) * StateTransition) :=
  TransitionDb e R (NewStateTransition evm msg gp).
End StateTransition.
Arguments StateTransition S : clear implicits.
