(* ===== verification/TransitionFacts.v ===== *)
(** The application of a message. *)
From S2P Require Import Prelude BigMath Params Opcodes Machine Analysis StateSpec Supply StateRel MachineFacts Vm.
From S2P Require Import Precompiles PrecompileFacts Evm Instructions JumpTable Interpreter CallFacts OpSafe RunSafe.
From S2P Require Import StateTransition.

(** Applying a message: gas and state are accounted for. *)

(** ** Intrinsic gas *)

Lemma nonzero_bytes_range data : 0 <= nonzero_bytes data <= len data.
Proof. unfold nonzero_bytes, len. pose proof (length_filter (fun b => b2z b <> 0) data). lia. Qed.

(** The price of the data as a number. *)
Definition intrinsic (data : bytes) (creation homestead : bool) : Z :=
  (if creation && homestead then TxGasContractCreation else TxGas) +
  TxDataNonZeroGas * nonzero_bytes data + TxDataZeroGas * (len data - nonzero_bytes data).

Lemma intrinsic_pos data creation homestead : 21000 <= intrinsic data creation homestead.
Proof.
  unfold intrinsic. pose proof (nonzero_bytes_range data).
  assert (21000 <= if creation && homestead then TxGasContractCreation else TxGas) by (by destruct (_ && _)).
  unfold TxDataNonZeroGas, TxDataZeroGas. lia.
Qed.

(** [a / b < n] for [n * b] above [a]. *)
Lemma div_ltb a b n : 0 < b -> (a / b <? n) = (a <? n * b).
Proof.
  intros Hb. destruct (Z.ltb_spec (a / b) n) as [H|H], (Z.ltb_spec a (n * b)) as [H'|H']; try done; exfalso.
  - assert (n <= a / b) by (apply Z.div_le_lower_bound; lia). lia.
  - assert (a / b < n) by (apply Z.div_lt_upper_bound; lia). lia.
Qed.

Lemma IntrinsicGas_exact data creation homestead :
  len data < 2 ^ 62 ->
  IntrinsicGas data creation homestead =
    if intrinsic data creation homestead <=? MaxUint64
    then inr (intrinsic data creation homestead) else inl ErrOutOfGas.
Proof.
  intros Hlen. pose proof (nonzero_bytes_range data) as Hnz. unfold IntrinsicGas, intrinsic.
  set (base := if creation && homestead then TxGasContractCreation else TxGas).
  assert (Hbase : 21000 <= base <= 53000) by (unfold base; destruct (_ && _); split; discriminate || lia).
  unfold TxDataNonZeroGas, TxDataZeroGas. destruct (Z.ltb_spec 0 (len data)) as [Hd|Hd].
  - rewrite div_ltb by lia. destruct (Z.ltb_spec (MaxUint64 - base) (nonzero_bytes data * 68)).
    { destruct (Z.leb_spec (base + 68 * nonzero_bytes data + 4 * (len data - nonzero_bytes data)) MaxUint64);
        [lia|done]. }
    rewrite (u64_small (nonzero_bytes data * 68)) by (unfold is_u64; lia).
    rewrite (u64_small (base + _)) by (unfold is_u64; lia).
    rewrite (u64_small (len data - _)) by (unfold is_u64; lia). rewrite div_ltb by lia.
    destruct (Z.ltb_spec (MaxUint64 - (base + nonzero_bytes data * 68)) ((len data - nonzero_bytes data) * 4)),
      (Z.leb_spec (base + 68 * nonzero_bytes data + 4 * (len data - nonzero_bytes data)) MaxUint64);
      try lia; [done|].
    rewrite (u64_small ((len data - _) * 4)) by (unfold is_u64; lia).
    rewrite u64_small by (unfold is_u64; lia). f_equal. lia.
  - replace (nonzero_bytes data) with 0 by lia. replace (len data) with 0 by lia.
    destruct (Z.leb_spec (base + 68 * 0 + 4 * (0 - 0)) MaxUint64); [f_equal; lia|lia].
Qed.

Section Transition.
Context {S : Type} `{SDB : StateDB S} `{CR : Crypto} {CS : CryptoSpec}
        `{SP : !StateDBSpec S Keccak256Hash}.
Context (e : Env) (He : env_ok e).
Implicit Types st : StateTransition S.

Abbreviation state_ok := (state_ok Keccak256Hash).

(** The revisions of [s] are still valid. *)
Definition keeps (s s' : S) : Prop := exists l, saves (abs s') ≡ saves (abs s) ++ l.
Lemma keeps_trans s1 s2 s3 : keeps s1 s2 -> keeps s2 s3 -> keeps s1 s3.
Proof. intros [l1 E1] [l2 E2]. exists (l1 ++ l2). by rewrite E2, E1, app_assoc. Qed.
Lemma keeps_same s s' : saves (abs s') ≡ saves (abs s) -> keeps s s'.
Proof. intros E. exists []. by rewrite app_nil_r. Qed.
Lemma srel_keeps ro s s' : srel Keccak256Hash ro s s' -> keeps s s'.
Proof. by intros (_ & ? & _). Qed.

(** A transition on a well-formed machine outside of any static call. *)
Definition st_ok st : Prop :=
  evm_ok (st_evm st) /\ evm_readOnly (st_evm st) = false /\ small (st_data st) /\
  0 <= msg_Gas (st_msg st) < 2 ^ 62 /\ 0 <= st_gasPrice st /\ 0 <= st_value st /\ is_u64 (st_gp st).

(** What the steps never change. *)
Definition st_same st st' : Prop :=
  st_msg st' = st_msg st /\ st_gasPrice st' = st_gasPrice st /\ st_value st' = st_value st /\
  st_data st' = st_data st.

Lemma st_ok_set_state s st : st_ok st -> state_ok s -> st_ok (st_set_state s st).
Proof. intros ((_ & ? & ?) & ?) Hs. by split. Qed.

Lemma not_static st : st_ok st -> ~ static e (st_evm st).
Proof. intros (_ & E & _) [_ H]. by rewrite E in H. Qed.

(** The state has only been read. *)
Definition st_read st st' : Prop :=
  st' = st_set_state (st_state st') st /\ state_ok (st_state st') /\
  abs (st_state st') ≡ abs (st_state st).

Lemma buyGas_ok st :
  st_ok st -> st_gas st = 0 ->
  let '(err, st') := buyGas st in
  match err with
  | Some err => (forall v, err <> errVm v) /\ st_read st st'
  | None => st_ok st' /\ st_same st st' /\ st_gas st' = msg_Gas (st_msg st) /\
            st_initialGas st' = msg_Gas (st_msg st) /\ st_gp st' = st_gp st - msg_Gas (st_msg st) /\
            0 <= st_gp st' /\
            msg_Gas (st_msg st) * st_gasPrice st <= w_balance (cur (abs (st_state st))) (msg_From (st_msg st)) /\
            cur (abs (st_state st')) ≡
              w_SubBalance (Keccak256Hash []) (msg_From (st_msg st))
                (msg_Gas (st_msg st) * st_gasPrice st) (cur (abs (st_state st))) /\
            saves (abs (st_state st')) ≡ saves (abs (st_state st))
  end.
Proof.
  intros Hst Hg0. pose proof Hst as (Hv & Hro & Hd & Hg & Hp & Hval & Hgp). unfold buyGas.
  set (from := msg_From (st_msg st)). set (mgval := _ * _).
  destruct (GetBalance_reads _ False from _ (proj1 Hv)) as [Eb R1].
  destruct (GetBalance_spec from _ (proj1 (proj1 Hv))) as (_ & A1 & _). fold (st_state st) in *.
  destruct (GetBalance from (st_state st)) as [bal s1]. cbn [fst snd] in *.
  pose proof (srel_ok _ _ _ _ R1) as Hs1.
  destruct (Z.ltb_spec bal mgval) as [Hlt|Hge]; [by split; [|split]|].
  unfold SubGas. cbn [st_gp st_set_state st_set_evm].
  destruct (Z.ltb_spec (st_gp st) (msg_Gas (st_msg st))); [by split; [|split]|].
  cbn [st_state st_set_state st_set_evm st_set_gp st_set_gas st_set_initialGas st_evm st_gas].
  rewrite Hg0, !u64_small by (unfold is_u64 in *; lia).
  assert (R2 : srel Keccak256Hash False s1 (SubBalance from mgval s1)).
  { apply srel_SubBalance; [done| |by intros []]. rewrite A1, <-Eb. unfold mgval in *. nia. }
  destruct (SubBalance_spec from mgval s1 (proj1 Hs1)) as [_ [E2 S2]].
  split; [|split; [done|]].
  - destruct Hv as (_ & ? & ?). split; [by split; [apply (srel_ok _ _ _ _ R2)|]|].
    do 5 (split; [done|]). unfold is_u64 in *. simpl. lia.
  - simpl. split; [lia|]. split; [done|]. split; [done|]. split; [lia|].
    split; [unfold from in *; lia|]. rewrite E2, S2. simpl. by rewrite A1.
Qed.

Lemma preCheck_ok st :
  st_ok st -> st_gas st = 0 ->
  let '(err, st') := preCheck st in
  match err with
  | Some err => (forall v, err <> errVm v) /\ st_read st st'
  | None => st_ok st' /\ st_same st st' /\ st_gas st' = msg_Gas (st_msg st) /\
            st_initialGas st' = msg_Gas (st_msg st) /\ st_gp st' = st_gp st - msg_Gas (st_msg st) /\
            0 <= st_gp st' /\
            msg_Gas (st_msg st) * st_gasPrice st <= w_balance (cur (abs (st_state st))) (msg_From (st_msg st)) /\
            cur (abs (st_state st')) ≡
              w_SubBalance (Keccak256Hash []) (msg_From (st_msg st))
                (msg_Gas (st_msg st) * st_gasPrice st) (cur (abs (st_state st))) /\
            saves (abs (st_state st')) ≡ saves (abs (st_state st))
  end.
Proof.
  intros Hst Hg0. pose proof Hst as (Hv & _). unfold preCheck.
  destruct (msg_CheckNonce (st_msg st)); [|by apply buyGas_ok].
  set (from := msg_From (st_msg st)).
  destruct (GetNonce_reads _ False from _ (proj1 Hv)) as [_ R1].
  destruct (GetNonce_spec from _ (proj1 (proj1 Hv))) as (_ & A1 & _). fold (st_state st) in *.
  destruct (GetNonce from (st_state st)) as [nonce s1]. cbn [fst snd] in *.
  pose proof (srel_ok _ _ _ _ R1) as Hs1.
  destruct (_ <? _); [by split; [|split]|]. destruct (_ <? _); [by split; [|split]|].
  pose proof (buyGas_ok (st_set_state s1 st) (st_ok_set_state _ _ Hst Hs1) Hg0) as Hbuy.
  destruct (buyGas _) as [[err|] st']; cbn [st_msg st_gasPrice st_gp st_set_state st_set_evm] in Hbuy.
  - destruct Hbuy as (Hne & E & ? & A2). split; [done|]. split; [|split; [done|]].
    + rewrite E. done.
    + rewrite A2. done.
  - destruct Hbuy as (? & ? & ? & ? & ? & ? & Hb & E & Es). do 6 (split; [done|]). simpl in Hb, E, Es.
    rewrite A1 in Hb, E, Es. by split.
Qed.

Lemma preCheck_depth st : evm_depth (st_evm (preCheck st).2) = evm_depth (st_evm st).
Proof.
  assert (H : forall st, evm_depth (st_evm (buyGas st).2) = evm_depth (st_evm st)).
  { intros st1. unfold buyGas. destruct (GetBalance _ _) as [b s]. destruct (_ <? _); [done|].
    by destruct (SubGas _ _). }
  unfold preCheck. destruct (msg_CheckNonce _); [|apply H]. destruct (GetNonce _ _) as [n s].
  destruct (_ <? _); [done|]. destruct (_ <? _); [done|]. exact (H (st_set_state s st)).
Qed.

(** After the call or creation of the message. *)
Lemma execute_msg_ok fuel st :
  st_ok st -> 0 <= st_gas st < 2 ^ 62 -> st_gas st < Z.of_nat fuel ->
  owp (execute_msg e (Run e fuel) st) (fun '(ret, err, st') =>
    st_ok st' /\ st_same st st' /\ st_gp st' = st_gp st /\ st_initialGas st' = st_initialGas st /\
    0 <= st_gas st' <= st_gas st /\ no_mint (cur (abs (st_state st))) (cur (abs (st_state st'))) /\
    keeps (st_state st) (st_state st')).
Proof.
  intros Hst Hg Hfuel. pose proof (not_static st Hst) as Hns.
  pose proof Hst as (Hv & Hro & Hd & ? & ? & ? & ?). unfold execute_msg.
  destruct (msg_To (st_msg st)) as [to|].
  - set (from := msg_From (st_msg st)).
    destruct (GetNonce_reads _ False from _ (proj1 Hv)) as [_ R1].
    fold (st_state st) in *. cbn [ref_Address]. destruct (GetNonce from (st_state st)) as [nonce s1].
    cbn [fst snd] in *. pose proof (srel_ok _ _ _ _ R1) as Hs1.
    assert (R2 := srel_SetNonce _ False from (u64 (nonce + 1)) s1 Hs1 ltac:(tauto)).
    set (st1 := st_set_state _ st). apply owp_bind.
    assert (Hst1 : st_ok st1) by (apply st_ok_set_state; [done|by apply srel_ok in R2]).
    eapply owp_mono.
    + apply (Call_ok e _ _ (st_evm st1) (AccountRef from) (st_to st1) (st_data st1) (st_gas st1)
               (st_value st1) (Run_ok e He fuel)); try done. apply Hst1.
    + intros [[[ret g] err] v'] (Hv' & (R3 & _ & Ero) & _ & Hg' & _). simpl.
      split; [|split; [done|]]; [split; [done|]; split; [exact (eq_trans Ero Hro)|done]|].
      do 3 (split; [done|]). split.
      * apply srel_no_mint in R1, R2, R3. by do 2 (etransitivity; [eassumption|]).
      * apply srel_keeps in R1, R2, R3. by do 2 (eapply keeps_trans; [eassumption|]).
  - apply owp_bind. eapply owp_mono.
    + by apply (Create_ok e _ _ (st_evm st) (AccountRef (msg_From (st_msg st))) (st_data st) (st_gas st)
               (st_value st) (Run_ok e He fuel)).
    + intros [[[[ret a] g] err] v'] [(Hv' & (R1 & _ & Ero) & _ & Hg') _]. simpl.
      split; [|split; [done|]]; [split; [done|]; split; [exact (eq_trans Ero Hro)|done]|].
      do 3 (split; [done|]). split; [by apply srel_no_mint in R1|]. by apply srel_keeps in R1.
Qed.

(** The refund gives back at most half of the gas used. *)
Lemma refundGas_ok st :
  st_ok st -> 0 <= st_gas st <= st_initialGas st -> st_initialGas st < 2 ^ 62 ->
  st_gp st + st_initialGas st <= MaxUint64 ->
  exists st', refundGas st = Done st' /\ st_ok st' /\ st_same st st' /\
    st_initialGas st' = st_initialGas st /\ st_gas st <= st_gas st' <= st_initialGas st /\
    st_initialGas st - st_gas st <= 2 * (st_initialGas st - st_gas st') + 1 /\
    st_gp st' = st_gp st + st_gas st' /\
    shifts_balance (msg_From (st_msg st)) (st_gas st' * st_gasPrice st)
      (cur (abs (st_state st))) (cur (abs (st_state st'))).
Proof.
  intros Hst Hg Hini Hgp. pose proof Hst as (Hv & Hro & Hd & ? & Hp & ? & Hgpu). unfold refundGas, gasUsed.
  rewrite (u64_small (st_initialGas st - st_gas st)) by (unfold is_u64; lia).
  set (refund := if _ <? _ then _ else _).
  assert (Hr : 0 <= refund <= (st_initialGas st - st_gas st) / 2).
  { unfold refund, st_state. rewrite (GetRefund_spec _ (proj1 (proj1 Hv))).
    pose proof (proj2 (proj1 (proj2 (proj1 Hv)))) as Href.
    assert (0 <= (st_initialGas st - st_gas st) / 2) by (apply Z.div_pos; lia).
    destruct (Z.ltb_spec (w_refund (cur (abs (evm_StateDB (st_evm st)))))
                ((st_initialGas st - st_gas st) / 2)); lia. }
  assert (Hhalf : 2 * ((st_initialGas st - st_gas st) / 2) <= st_initialGas st - st_gas st)
    by (apply Z.mul_div_le; lia).
  clearbody refund. rewrite (u64_small (st_gas st + refund)) by (unfold is_u64; lia).
  cbn [st_gas st_set_gas st_gasPrice st_state st_set_state st_set_evm st_evm st_msg st_gp].
  set (from := msg_From (st_msg st)). set (rem := _ * _).
  destruct (AddBalance_ok _ from rem (st_state st) (proj1 Hv)) as [Hs' E'].
  { pose proof (proj1 (proj1 (proj1 (proj2 (proj1 Hv))) from)). unfold st_state, rem. nia. }
  unfold AddGas. unfold is_u64 in *.
  destruct (Z.ltb_spec (MaxUint64 - (st_gas st + refund)) (st_gp st)); [lia|].
  cbn [outcome_bind]. rewrite u64_small by (unfold is_u64; lia).
  eexists. split; [done|]. split; [|split; [done|]].
  - destruct Hv as (_ & ? & ?). split; [by split|].
    do 5 (split; [done|]). unfold is_u64. simpl. lia.
  - simpl. split; [done|]. split; [lia|]. split; [lia|]. split; [lia|].
    intros b. rewrite E'. apply shifts_AddBalance.
Qed.

(** The refund and the payment of the fee: what was bought with the gas goes
    to the sender and the coinbase. *)
Lemma settle_ok st :
  st_ok st -> 0 <= st_gas st <= st_initialGas st -> st_initialGas st < 2 ^ 62 ->
  st_gp st + st_initialGas st <= MaxUint64 ->
  exists st1, refundGas st = Done st1 /\
    let used := gasUsed st1 in
    let st' := st_set_state (AddBalance (Coinbase (env_ctx e)) (used * st_gasPrice st1) (st_state st1)) st1 in
    state_ok (st_state st') /\
    (forall n, supply_le (cur (abs (st_state st))) n ->
       supply_le (cur (abs (st_state st'))) (n + st_initialGas st * st_gasPrice st)) /\
    st_initialGas st - st_gas st <= 2 * used + 1 /\ used <= st_initialGas st - st_gas st /\
    st_gp st' = st_gp st + st_initialGas st - used.
Proof.
  intros Hst Hg Hi Hgp.
  destruct (refundGas_ok st) as (st3 & -> & Hst3 & (_ & Ep3 & _) & Ei3 & Hg3 & Hh3 & Egp3 & Hsh3);
    [done..|]. exists st3. split; [done|]. cbn zeta.
  assert (Eu : gasUsed st3 = st_initialGas st - st_gas st3)
    by (unfold gasUsed; rewrite u64_small by (unfold is_u64; lia); lia).
  pose proof Hst as (_ & _ & _ & _ & Hp & _). pose proof Hst3 as (Hv3 & _).
  assert (H3 : 0 <= st_gas st3 * st_gasPrice st) by nia.
  assert (H4 : 0 <= gasUsed st3 * st_gasPrice st3) by (rewrite Ep3; nia).
  destruct (AddBalance_ok _ (Coinbase (env_ctx e)) (gasUsed st3 * st_gasPrice st3) (st_state st3)
              (proj1 Hv3)) as [Hs4 E4].
  { pose proof (proj1 (proj1 (proj1 (proj2 (proj1 Hv3))) (Coinbase (env_ctx e)))). unfold st_state. lia. }
  split; [done|]. split; [|cbn [st_gp st_set_state st_set_evm]; lia].
  intros n Hn. apply (supply_le_add _ _ _ _ _ H3 Hsh3) in Hn.
  eapply (supply_le_add _ _ _ (cur (abs _)) _ H4) in Hn; [|intros b; rewrite E4; apply shifts_AddBalance].
  eapply supply_le_mono; [|exact Hn]. rewrite Eu, Ep3. lia.
Qed.

Lemma TransitionDb_ok fuel st :
  st_ok st -> st_gas st = 0 -> msg_Gas (st_msg st) < Z.of_nat fuel ->
  owp (TransitionDb e (Run e fuel) st) (fun '(r, st') =>
    state_ok (st_state st') /\ no_mint (cur (abs (st_state st))) (cur (abs (st_state st'))) /\
    match r with
    | inr (ret, used, failed) =>
        intrinsic (st_data st) (bool_decide (msg_To (st_msg st) = None)) (env_IsHomestead e)
          <= msg_Gas (st_msg st) /\
        intrinsic (st_data st) (bool_decide (msg_To (st_msg st) = None)) (env_IsHomestead e)
          <= 2 * used + 1 /\
        used <= msg_Gas (st_msg st) /\ st_gp st' = st_gp st - used
    | inl (errVm _) =>
        st_gp st' = st_gp st - msg_Gas (st_msg st) /\ 0 <= st_gp st' /\ keeps (st_state st) (st_state st')
    | inl _ => st_gp st' = st_gp st /\ abs (st_state st') ≡ abs (st_state st)
    end).
Proof.
  intros Hst Hg0 Hfuel. unfold TransitionDb. pose proof (preCheck_ok st Hst Hg0) as Hpre.
  destruct (preCheck st) as [[err|] st1].
  { destruct Hpre as (Hne & E & Hs & A). split; [done|]. split; [by rewrite A|].
    destruct err; try by destruct (Hne err). all: by split; [rewrite E|]. }
  destruct Hpre as (Hst1 & (Em & Ep & Ev & Ed) & Eg & Ei & Egp & Hgp & Hbal & Ebuy & Hk1%keeps_same).
  pose proof Hst as (Hv & _ & Hd & Hg & Hp & _ & Hgpu). rewrite Em, Ed, IntrinsicGas_exact by done.
  set (ig := intrinsic _ _ _).
  pose proof (intrinsic_pos (st_data st) (bool_decide (msg_To (st_msg st) = None)) (env_IsHomestead e))
    as Hig. fold ig in Hig.
  set (w := cur (abs (st_state st))) in *. set (price := st_gasPrice st) in *.
  assert (Hbuy : forall n, supply_le w n ->
            supply_le (cur (abs (st_state st1))) (n - msg_Gas (st_msg st) * price)).
  { intros n Hn. eapply supply_le_sub; [exact Hbal| |exact Hn]. intros b. rewrite Ebuy.
    apply shifts_SubBalance. }
  assert (Hmint1 : no_mint w (cur (abs (st_state st1)))).
  { intros n Hn. eapply supply_le_mono; [|by apply Hbuy]. nia. }
  destruct (ig <=? _); [|by split; [apply Hst1|]].
  unfold useGas. destruct (Z.ltb_spec (st_gas st1) ig); [by split; [apply Hst1|]|].
  rewrite u64_small by (unfold is_u64; lia). apply owp_bind. eapply owp_mono.
  { apply execute_msg_ok; [done|simpl; lia|simpl; lia]. }
  intros [[ret vmerr] st2] (Hst2 & (Em2 & Ep2 & Ev2 & Ed2) & Egp2 & Ei2 & Hg2 & Hmint2 & Hk2).
  cbn [st_gp st_initialGas st_gas st_set_gas st_msg st_state st_evm st_gasPrice] in *.
  fold (st_state st1) in Hmint2.
  case_bool_decide; [split; [apply Hst2|]; split; [by etransitivity|rewrite Egp2; split; [done|split; [done|by eapply keeps_trans]]]|].
  destruct (settle_ok st2) as (st3 & -> & Hs & Hsup & Hu1 & Hu2 & Egp3);
    [done|lia|lia|unfold is_u64 in *; lia|].
  cbn [outcome_bind owp]. change (gasUsed (st_set_state _ st3)) with (gasUsed st3).
  split; [exact Hs|]. split; [|split; [lia|]; split; [lia|]; split; [lia|]].
  - intros n Hn. apply Hbuy, Hmint2, Hsup in Hn. eapply supply_le_mono; [|exact Hn].
    rewrite Ep2, Ep, Ei2, Ei. fold price. lia.
  - rewrite Egp3. lia.
Qed.
End Transition.

(** A plain transfer of value: what a message to an account without code does
    to the balances. *)

(** [z] at [a], zero elsewhere. *)
Definition at_addr (a : Address) (z : Z) (b : Address) : Z := if decide (b = a) then z else 0.

Section Worlds.
Context (ech : Hash).

Lemma w_balance_Add a z w b : w_balance (w_AddBalance ech a z w) b = w_balance w b + at_addr a z b.
Proof. apply shifts_AddBalance. Qed.
Lemma w_balance_Sub_at a z w b : w_balance (w_SubBalance ech a z w) b = w_balance w b - at_addr a z b.
Proof. apply w_balance_Sub. Qed.
Lemma w_nonce_Add a z w b : w_nonce (w_AddBalance ech a z w) b = w_nonce w b.
Proof.
  rewrite !(w_nonce_new ech). unfold w_AddBalance. apply upd_acct_cases. by case_decide; subst.
Qed.
Lemma w_nonce_Sub a z w b : w_nonce (w_SubBalance ech a z w) b = w_nonce w b.
Proof.
  rewrite !(w_nonce_new ech). unfold w_SubBalance. apply upd_acct_cases. by case_decide; subst.
Qed.
Lemma w_nonce_SetNonce a n w b :
  w_nonce (w_SetNonce ech a n w) b = if decide (b = a) then n else w_nonce w b.
Proof.
  rewrite !(w_nonce_new ech). unfold w_SetNonce. apply upd_acct_cases. by case_decide; subst.
Qed.
Lemma w_code_upd a g w b :
  (forall o, a_code (g o) = a_code o) -> w_code (upd_acct ech a g w) b = w_code w b.
Proof.
  intros Hg. rewrite !(w_code_new ech). apply upd_acct_cases. case_decide; subst; [apply Hg|done].
Qed.
End Worlds.

Section Transfer.
Context {S : Type} `{SDB : StateDB S} `{CR : Crypto} {CS : CryptoSpec}
        `{SP : !StateDBSpec S Keccak256Hash}.
Context (e : Env).
Abbreviation ech := (Keccak256Hash []).

(** The worlds before and after a transfer have the same refunds, and balances
    and nonces that differ by [db] and [dn]. *)
Definition moves (w w' : world) (db dn : Address -> Z) : Prop :=
  (forall a, w_balance w' a = w_balance w a + db a) /\
  (forall a, w_nonce w' a = w_nonce w a + dn a) /\ w_refund w' = w_refund w.

(** Running an account without code does nothing. *)
Lemma Run_no_code n (v : EVM S) c input :
  c_Code c = [] -> Run e (Datatypes.S n) v c input = Done ([], None, set_depth (evm_depth v + 1 - 1) (set_returnData [] (set_depth (evm_depth v + 1) v)), c).
Proof. intros E. cbn [Run]. unfold Run_body. by rewrite E. Qed.

(** The state in which the callee starts. *)
Lemma enter_moves s from to value :
  sinv s -> w_code (cur (abs s)) to = [] ->
  let s' := Transfer (if negb (w_exist (cur (abs s)) to) then CreateAccount to s else s) from to value in
  sinv s' /\ w_code (cur (abs s')) to = [] /\
  moves (cur (abs s)) (cur (abs s')) (fun a => at_addr to value a - at_addr from value a) (fun _ => 0).
Proof.
  intros I Hcode s'.
  set (s1 := if negb (w_exist (cur (abs s)) to) then CreateAccount to s else s) in *.
  assert (H1 : sinv s1 /\ w_code (cur (abs s1)) to = [] /\
               moves (cur (abs s)) (cur (abs s1)) (fun _ => 0) (fun _ => 0)).
  { unfold s1. destruct (w_exist (cur (abs s)) to) eqn:Hex; simpl.
    - repeat split; try done; intros; lia.
    - destruct (CreateAccount_spec to s I) as [I1 [E1 _]]. simpl in E1. split; [done|].
      assert (Hn : w_acct (cur (abs s)) to = None)
        by (unfold w_exist in Hex; by destruct (w_acct (cur (abs s)) to)).
      split; [|repeat split; intros; rewrite ?E1; try done].
      + rewrite E1. unfold w_CreateAccount, w_code. simpl. by rewrite decide_True.
      + unfold w_CreateAccount, w_balance. simpl. case_decide; [subst; rewrite Hn|]; simpl; lia.
      + unfold w_CreateAccount, w_nonce. simpl. case_decide; [subst; rewrite Hn|]; simpl; lia.
      + destruct E1 as (_ & -> & _). done. }
  destruct H1 as (I1 & Hc1 & Hb1 & Hn1 & Hr1).
  destruct (SubBalance_spec from value s1 I1) as [I2 [E2 _]].
  destruct (AddBalance_spec to value _ I2) as [I3 [E3 _]]. simpl in E2, E3. rewrite E2 in E3.
  split; [done|]. split; [|split; [|split]].
  - unfold s', Transfer. rewrite E3. unfold w_AddBalance, w_SubBalance.
    by rewrite !w_code_upd.
  - intros a. unfold s', Transfer. rewrite E3, w_balance_Add, w_balance_Sub_at, Hb1. lia.
  - intros a. unfold s', Transfer. rewrite E3, w_nonce_Add, w_nonce_Sub, Hn1. lia.
  - destruct E3 as (_ & E3 & _). unfold s', Transfer. by rewrite E3.
Qed.

Lemma moves_equiv w1 w1' w2 w2' db dn : w1 ≡ w1' -> w2 ≡ w2' -> moves w1 w2 db dn -> moves w1' w2' db dn.
Proof.
  intros E1 E2 (Hb & Hn & Hr). split; [|split].
  - intros a. specialize (Hb a). by rewrite E1, E2 in Hb.
  - intros a. specialize (Hn a). by rewrite E1, E2 in Hn.
  - destruct E1 as (_ & E1 & _), E2 as (_ & E2 & _). congruence.
Qed.

(** A call of an account without code. *)
Lemma Call_plain n (v : EVM S) from to input gas value :
  evm_ok v -> evm_depth v = 0 -> precompiles e !! to = None ->
  w_code (cur (abs (evm_StateDB v))) to = [] ->
  0 <= value <= w_balance (cur (abs (evm_StateDB v))) from ->
  exists v', Call e (Run e (Datatypes.S n)) v (AccountRef from) to input gas value
             = Done ([], gas, None, v') /\ sinv (evm_StateDB v') /\
    moves (cur (abs (evm_StateDB v))) (cur (abs (evm_StateDB v')))
      (fun a => at_addr to value a - at_addr from value a) (fun _ => 0).
Proof.
  intros Hv Hdepth Hpre Hcode Hval. unfold Call. rewrite Hdepth, andb_false_r. simpl.
  destruct (CanTransfer_ok False (evm_StateDB v) from value (proj1 Hv)) as (can & s0 & E0 & R0 & A0 & _).
  assert (Hcan : can = true).
  { unfold CanTransfer in E0. destruct (GetBalance_spec from _ (proj1 (proj1 Hv))) as (_ & _ & Eb).
    destruct (GetBalance from (evm_StateDB v)) as [b s]. simplify_eq. simpl in *. apply Z.leb_le. lia. }
  rewrite E0, Hcan. simpl. pose proof (srel_ok _ _ _ _ R0) as Hs0.
  destruct (Snapshot_spec s0 (proj1 Hs0)) as [Isn [Wsn _]].
  destruct (Snapshot s0) as [id sn]. simpl in *.
  destruct (Exist_spec to sn Isn) as (I1 & A1 & Ef). destruct (Exist to sn) as [found s1]. simpl in *.
  assert (W1 : cur (abs s1) ≡ cur (abs (evm_StateDB v))) by (by rewrite A1, Wsn, A0).
  assert (Ex : found = w_exist (cur (abs s1)) to) by (by rewrite A1). clear Ef. subst found.
  destruct (negb _ && _) eqn:Eskip.
  { eexists. split; [done|]. split; [done|]. apply andb_true_iff in Eskip as [_ [_ Hz]%andb_true_iff].
    assert (value = 0) as -> by (apply Z.eqb_eq in Hz; unfold Sign in Hz; lia).
    apply (moves_equiv _ _ _ _ _ _ (reflexivity _) (symmetry W1)).
    unfold at_addr. repeat split; intros; repeat case_decide; lia. }
  destruct (enter_moves s1 from to value I1) as (I2 & Hc2 & Hmv); [by rewrite W1|].
  set (s2 := Transfer _ _ _ _) in *. unfold load_code. cbn [evm_StateDB set_StateDB set_jumpdests].
  destruct (GetCodeHash_spec to s2 I2) as (I3 & A3 & _). destruct (GetCodeHash to s2) as [h s3]. simpl in *.
  destruct (GetCode_spec to s3 I3) as (I4 & A4 & Ec). destruct (GetCode to s3) as [code s4]. simpl in *.
  assert (code = []) as -> by (by rewrite Ec, A3). unfold run. cbn [c_CodeAddr SetCallCode]. rewrite Hpre.
  change (Run_body e (Run e n) (Datatypes.S n)) with (Run (S := S) e (Datatypes.S n)).
  rewrite Run_no_code by done. simpl. eexists. split; [done|]. split; [done|].
  apply (moves_equiv (cur (abs s1)) _ (cur (abs s2)) _ _ _ W1); [by rewrite A4, A3|done].
Qed.

(** ** The message *)

(** The checks pass: the nonce is the next one, the balance covers the gas and
    the block has gas left. *)
Lemma preCheck_pass (st : StateTransition S) :
  st_ok st ->
  let msg := st_msg st in let w := cur (abs (st_state st)) in
  (msg_CheckNonce msg = true -> msg_Nonce msg = w_nonce w (msg_From msg)) ->
  msg_Gas msg * st_gasPrice st <= w_balance w (msg_From msg) -> msg_Gas msg <= st_gp st ->
  exists st', preCheck st = (None, st').
Proof.
  intros Hst msg w Hn Hb Hgp. pose proof Hst as (Hv & _).
  assert (Hbuy : forall s, sinv s -> abs s ≡ abs (st_state st) ->
                   exists st', buyGas (st_set_state s st) = (None, st')).
  { intros s Is As. unfold buyGas. cbn [st_state st_set_state st_set_evm st_evm evm_StateDB set_StateDB st_msg
      st_gasPrice st_gp].
    destruct (GetBalance_spec (msg_From (st_msg st)) s Is) as (_ & _ & Eb).
    destruct (GetBalance _ s) as [b s']. simpl in Eb.
    assert (b = w_balance w (msg_From msg)) as -> by (rewrite Eb; by rewrite As). fold msg.
    destruct (Z.ltb_spec (w_balance w (msg_From msg)) (msg_Gas msg * st_gasPrice st)); [lia|].
    unfold SubGas. destruct (Z.ltb_spec (st_gp st) (msg_Gas msg)); [lia|]. by eexists. }
  unfold preCheck. fold msg. destruct (msg_CheckNonce msg) eqn:Ec.
  - destruct (GetNonce_spec (msg_From msg) _ (proj1 (proj1 Hv))) as (I1 & A1 & En). fold (st_state st) in *.
    destruct (GetNonce _ _) as [nonce s1]. simpl in *. rewrite En, (Hn eq_refl). fold w.
    rewrite Z.ltb_irrefl. by apply Hbuy.
  - destruct (Hbuy (st_state st) (proj1 (proj1 Hv)) (reflexivity _)) as [st' E]. exists st'.
    rewrite <-E. by destruct st as [? ? ? ? ? ? ? []].
Qed.

(** What the checks leave, when they pass. *)
Lemma preCheck_paid (st : StateTransition S) :
  st_ok st -> st_gas st = 0 ->
  let msg := st_msg st in let w := cur (abs (st_state st)) in
  (msg_CheckNonce msg = true -> msg_Nonce msg = w_nonce w (msg_From msg)) ->
  msg_Gas msg * st_gasPrice st <= w_balance w (msg_From msg) -> msg_Gas msg <= st_gp st ->
  exists st', preCheck st = (None, st') /\ st_ok st' /\ st_same st st' /\ st_gas st' = msg_Gas msg /\
    st_initialGas st' = msg_Gas msg /\ st_gp st' = st_gp st - msg_Gas msg /\ 0 <= st_gp st' /\
    evm_depth (st_evm st') = evm_depth (st_evm st) /\
    cur (abs (st_state st')) ≡ w_SubBalance ech (msg_From msg) (msg_Gas msg * st_gasPrice st) w.
Proof.
  intros Hst Hg0 msg w Hn Hb Hgp. destruct (preCheck_pass st Hst Hn Hb Hgp) as [st' E].
  pose proof (preCheck_ok st Hst Hg0) as Hok. pose proof (preCheck_depth st) as Hd. rewrite E in Hok, Hd.
  exists st'. destruct Hok as (? & ? & ? & ? & ? & ? & _ & ? & _). by repeat (split; [done|]).
Qed.

Lemma execute_plain n (st : StateTransition S) to :
  st_ok st -> evm_depth (st_evm st) = 0 -> msg_To (st_msg st) = Some to -> precompiles e !! to = None ->
  let w := cur (abs (st_state st)) in let from := msg_From (st_msg st) in
  w_code w to = [] -> 0 <= st_value st <= w_balance w from ->
  exists v', execute_msg e (Run e (Datatypes.S n)) st = Done ([], None, st_set_gas (st_gas st) (st_set_evm v' st)) /\
    sinv (evm_StateDB v') /\ w_refund (cur (abs (evm_StateDB v'))) = w_refund w /\
    (forall a, w_balance (cur (abs (evm_StateDB v'))) a =
               w_balance w a + at_addr to (st_value st) a - at_addr from (st_value st) a) /\
    (forall a, w_nonce (cur (abs (evm_StateDB v'))) a =
               if decide (a = from) then u64 (w_nonce w a + 1) else w_nonce w a).
Proof.
  intros Hst Hd Hto Hpre w from Hcode Hval. pose proof Hst as (Hv & _). unfold execute_msg.
  unfold st_to. rewrite Hto. cbn [ref_Address]. fold from.
  destruct (GetNonce_reads _ False from _ (proj1 Hv)) as [En R1]. fold (st_state st) in *.
  destruct (GetNonce_spec from _ (proj1 (proj1 Hv))) as (_ & A1 & _). fold (st_state st) in *.
  destruct (GetNonce from (st_state st)) as [nonce s1]. cbn [fst snd] in *.
  pose proof (srel_ok _ _ _ _ R1) as Hs1.
  assert (R2 := srel_SetNonce _ False from (u64 (nonce + 1)) s1 Hs1 ltac:(tauto)).
  destruct (SetNonce_spec from (u64 (nonce + 1)) s1 (proj1 Hs1)) as [_ [E2 _]]. simpl in E2.
  rewrite A1 in E2. fold w in E2. set (s2 := SetNonce _ _ s1) in *.
  destruct (Call_plain n (set_StateDB s2 (st_evm st)) from to (st_data st) (st_gas st) (st_value st))
    as (v' & EC & I' & Hb & Hn & Hr).
  - apply evm_ok_set_StateDB; [done|by apply srel_ok in R2].
  - done.
  - done.
  - simpl. rewrite E2. unfold w_SetNonce. by rewrite w_code_upd.
  - simpl. by rewrite E2, w_balance_SetNonce.
  - exists v'. cbn [st_evm st_set_state st_set_evm st_msg st_data st_gas st_value].
    rewrite Hto. change (default 0%N (Some to)) with to. rewrite EC. cbn [outcome_bind]. split; [done|]. split; [done|].
    split; [|split].
    + rewrite Hr. simpl. destruct E2 as (_ & E2 & _). by rewrite E2.
    + intros a. rewrite Hb. simpl. rewrite E2, w_balance_SetNonce. lia.
    + intros a. rewrite Hn. simpl. rewrite E2, w_nonce_SetNonce, Z.add_0_r. subst nonce.
      by case_decide; subst.
Qed.

(** No refund: the gas left is paid back. *)
Lemma refundGas_plain (st : StateTransition S) :
  sinv (st_state st) -> is_u64 (st_gp st) -> 0 <= st_gas st <= st_initialGas st ->
  st_initialGas st < 2 ^ 62 -> st_gp st + st_initialGas st <= MaxUint64 -> w_refund (cur (abs (st_state st))) = 0 ->
  exists st', refundGas st = Done st' /\ st_gas st' = st_gas st /\ st_initialGas st' = st_initialGas st /\
    st_gasPrice st' = st_gasPrice st /\ st_gp st' = st_gp st + st_gas st /\ sinv (st_state st') /\
    cur (abs (st_state st')) ≡
      w_AddBalance ech (msg_From (st_msg st)) (st_gas st * st_gasPrice st) (cur (abs (st_state st))).
Proof.
  intros I Hgpu Hg Hini Hgp Href. unfold refundGas, gasUsed.
  rewrite (u64_small (st_initialGas st - st_gas st)) by (unfold is_u64; lia).
  rewrite (GetRefund_spec (st_state st) I), Href.
  assert (0 <= (st_initialGas st - st_gas st) / 2) by (apply Z.div_pos; lia).
  assert (E0 : (if 0 <? (st_initialGas st - st_gas st) / 2 then 0 else (st_initialGas st - st_gas st) / 2) = 0)
    by (destruct (Z.ltb_spec 0 ((st_initialGas st - st_gas st) / 2)); lia).
  rewrite E0, Z.add_0_r, (u64_small (st_gas st)) by (unfold is_u64; lia).
  unfold AddGas. cbn [st_gas st_set_gas st_set_state st_set_evm st_gp]. unfold is_u64 in Hgpu.
  destruct (Z.ltb_spec (MaxUint64 - st_gas st) (st_gp st)); [lia|]. cbn [outcome_bind].
  rewrite u64_small by (unfold is_u64; lia). eexists. split; [done|]. do 4 (split; [done|]).
  by destruct (AddBalance_spec (msg_From (st_msg st)) (st_gas st * st_gasPrice st) (st_state st) I) as [? [? _]].
Qed.
End Transfer.
