(* ===== verification/TxTheorems.v ===== *)
(** Messages: the theorems on core/state_transition.go. *)
From S2P Require Import Prelude BigMath Params Opcodes Machine Analysis StateSpec Supply StateRel MachineFacts Vm.
From S2P Require Import Precompiles PrecompileFacts Evm Instructions JumpTable Interpreter CallFacts OpSafe RunSafe.
From S2P Require Import StateObject Statedb StateUndo StateRefine StateRevert Sample VmTheorems StateTransition.
From S2P Require Import TransitionFacts.

(** [IntrinsicGas] is 21000, or 53000 for a creation since Homestead,
    plus 68 for every non-zero and 4 for every zero byte of data; it is an
    error exactly if this does not fit into 64 bits. *)
Theorem IntrinsicGas_price (data : bytes) (creation homestead : bool) :
  len data < 2 ^ 62 ->
  IntrinsicGas data creation homestead =
    let nz := len (filter (fun b => b2z b <> 0) data) in
    let gas := (if creation && homestead then 53000 else 21000) + 68 * nz + 4 * (len data - nz) in
    if gas <=? MaxUint64 then inr gas else inl ErrOutOfGas.
Proof. intros H. by rewrite IntrinsicGas_exact. Qed.
Lemma IntrinsicGas_price_witness :
  IntrinsicGas [Byte.x00; Byte.x01] false true = inr (21000 + 68 * 1 + 4 * (2 - 1)).
Proof. apply (IntrinsicGas_price [Byte.x00; Byte.x01] false true). reflexivity. Defined.

Section Theorems.
Context {S : Type} `{SDB : StateDB S} `{CR : Crypto} {CS : CryptoSpec}
        `{SP : !StateDBSpec S Keccak256Hash}.
Context (e : Env).


(** C9: applying a message creates no money: whatever bounds the sum of the
    balances of all accounts before it bounds the sum after it, with the
    fee in the account of the coinbase, and whatever the contracts do. *)
Theorem ApplyMessage_no_mint (fuel : nat) (v : EVM S) (msg : Message) (gp : Z) :
  collision_free -> env_ok e -> evm_ok v -> evm_readOnly v = false -> small (msg_Data msg) ->
  0 <= msg_Gas msg < 2 ^ 62 -> msg_Gas msg < Z.of_nat fuel ->
  0 <= msg_GasPrice msg -> 0 <= msg_Value msg -> is_u64 gp ->
  exists r st', ApplyMessage e (Run e fuel) v msg gp = Done (r, st') /\
    forall n, supply_le (cur (abs (evm_StateDB v))) n -> supply_le (cur (abs (st_state st'))) n.
Proof.
  intros Hfree He Hv Hro Hd Hg Hfuel Hp Hval Hgp. unfold ApplyMessage.
  set (st := NewStateTransition v msg gp). assert (Hst : st_ok st) by (by repeat (split; [done|])).
  destruct (owp_done _ _ Hfree (TransitionDb_ok e He fuel st Hst eq_refl Hfuel))
    as ([r st'] & -> & _ & Hm & _). by exists r, st'.
Qed.

(** C35: a message to an account without code that is not a precompiled
    contract is a transfer, when nothing is to be refunded.  Once its nonce,
    balance and gas suffice it succeeds, uses exactly the intrinsic gas, and
    moves the value from the sender to the recipient and the price of the gas
    from the sender to the coinbase; no other balance changes, and the only
    nonce that changes is the sender's. *)
Theorem plain_transfer (n : nat) (v : EVM S) (msg : Message) (to : Address) (gp : Z) :
  let w := cur (abs (evm_StateDB v)) in let from := msg_From msg in
  env_ok e -> evm_ok v -> evm_depth v = 0 -> evm_readOnly v = false -> small (msg_Data msg) ->
  0 <= msg_GasPrice msg -> 0 <= msg_Value msg -> is_u64 gp ->
  msg_To msg = Some to -> precompiles e !! to = None -> w_code w to = [] -> w_refund w = 0 ->
  (msg_CheckNonce msg = true -> msg_Nonce msg = w_nonce w from) ->
  msg_Gas msg * msg_GasPrice msg + msg_Value msg <= w_balance w from ->
  intrinsic (msg_Data msg) false (env_IsHomestead e) <= msg_Gas msg ->
  msg_Gas msg < 2 ^ 62 -> msg_Gas msg <= gp ->
  exists used st', ApplyMessage e (Run e (Datatypes.S n)) v msg gp = Done (inr ([], used, false), st') /\
    used = intrinsic (msg_Data msg) false (env_IsHomestead e) /\ st_gp st' = gp - used /\
    (forall a, w_balance (cur (abs (st_state st'))) a =
       w_balance w a - at_addr from (msg_Value msg + used * msg_GasPrice msg) a
         + at_addr to (msg_Value msg) a + at_addr (Coinbase (env_ctx e)) (used * msg_GasPrice msg) a) /\
    (forall a, w_nonce (cur (abs (st_state st'))) a =
       if decide (a = from) then u64 (w_nonce w a + 1) else w_nonce w a).
Proof.
  intros w from He Hv Hdepth Hro Hd Hp Hval Hgpu Hto Hpre Hcode Href Hnonce Hbal Hig Hgas Hgp.
  set (ig := intrinsic _ _ _) in *. pose proof (intrinsic_pos (msg_Data msg) false (env_IsHomestead e)).
  fold ig in H. set (st := NewStateTransition v msg gp).
  assert (Hst : st_ok st) by (repeat (split; [done|]); split; [cbn; lia|by repeat (split; [done|])]).
  destruct (preCheck_paid st Hst eq_refl Hnonce)
    as (st1 & E1 & Hst1 & (Em & Ep & Ev & Ed) & Eg & Ei & Egp & Hgp1 & Hdep1 & W1);
    [change (msg_Gas msg * msg_GasPrice msg <= w_balance w from); lia|done|].
  cbn [st NewStateTransition st_msg st_gasPrice st_value st_data st_gp st_state st_evm] in *.
  fold from in W1. change (cur (abs (st_state st))) with w in W1. unfold ApplyMessage, TransitionDb. fold st. rewrite E1, Em, Ed, Hto.
  rewrite bool_decide_false by done. rewrite IntrinsicGas_exact by done. fold ig.
  destruct (Z.leb_spec ig MaxUint64); [|lia]. unfold useGas. rewrite Eg.
  destruct (Z.ltb_spec (msg_Gas msg) ig); [lia|]. rewrite u64_small by (unfold is_u64; lia).
  destruct (execute_plain e n (st_set_gas (msg_Gas msg - ig) st1) to) as (v' & -> & I2 & Hr2 & Hb2 & Hn2);
    [done|by rewrite <-Hdepth|by cbn; rewrite Em|done| | |].
  { cbn. rewrite W1. unfold w_SubBalance. by rewrite w_code_upd. }
  { cbn. rewrite Ev, Em, W1, w_balance_Sub_at. unfold at_addr. fold from. rewrite decide_True by done. lia. }
  cbn [outcome_bind]. rewrite bool_decide_false by done.
  set (st2 := st_set_gas _ _).
  assert (Href2 : w_refund (cur (abs (st_state st2))) = 0).
  { transitivity (w_refund (cur (abs (st_state st1)))); [exact Hr2|]. destruct W1 as (_ & -> & _). done. }
  destruct (refundGas_plain st2 I2) as (st3 & -> & Eg3 & Ei3 & Ep3 & Egp3 & I3 & W3);
    [unfold is_u64 in *; cbn; lia|cbn; lia|cbn; lia|cbn; unfold is_u64 in *; lia|done|].
  cbn [outcome_bind]. rewrite bool_decide_false by (by intros []).
  assert (Eu : gasUsed st3 = ig).
  { unfold gasUsed. rewrite Eg3, Ei3. cbn. rewrite Ei, u64_small by (unfold is_u64; lia). lia. }
  change (gasUsed (st_set_state _ st3)) with (gasUsed st3). rewrite Eu, Ep3.
  destruct (AddBalance_spec (Coinbase (env_ctx e)) (ig * st_gasPrice st2) (st_state st3) I3) as [_ [W4 _]].
  eexists ig, _. split; [done|]. split; [done|]. split; [cbn; rewrite Egp3; cbn; lia|].
  cbn [st_state st_set_state st_set_evm st_evm evm_StateDB set_StateDB] in *. simpl in W4.
  cbn [st2 st_gasPrice st_set_gas st_set_evm st_gas st_msg st_evm] in *.
  rewrite Em, Ep in *. change (st_value (st_set_gas (msg_Gas msg - ig) st1)) with (st_value st1) in Hb2.
  split; intros a.
  - rewrite W4, w_balance_Add, W3, w_balance_Add, Hb2, Ev.
    change (st_state (st_set_gas (msg_Gas msg - ig) st1)) with (st_state st1). rewrite W1, w_balance_Sub_at.
    unfold at_addr. fold from. repeat case_decide; lia.
  - rewrite W4, w_nonce_Add, W3, w_nonce_Add, Hn2.
    change (st_state (st_set_gas (msg_Gas msg - ig) st1)) with (st_state st1). fold from.
    case_decide; by rewrite W1, w_nonce_Sub.
Qed.
End Theorems.

(** ** Witnesses *)

(** 5 from account 17 to account 40. *)
Definition sample_msg : Message :=
  {| msg_From := 17%N; msg_To := Some 40%N; msg_GasPrice := 1; msg_Gas := 30000; msg_Value := 5;
     msg_Nonce := 0; msg_CheckNonce := true; msg_Data := [Byte.x00; Byte.x01] |}.


Lemma plain_transfer_witness : exists used st',
  ApplyMessage sample_env (Run sample_env 1) (sample_evm false) sample_msg 8000000
    = Done (inr ([], used, false), st') /\
  used = intrinsic [Byte.x00; Byte.x01] false true /\
  w_balance (cur (abs (st_state st'))) 40%N =
    w_balance (cur (abs sample_state)) 40%N - at_addr 17%N (5 + used * 1) 40%N + at_addr 40%N 5 40%N
      + at_addr 18%N (used * 1) 40%N.
Proof.
  destruct (plain_transfer sample_env 0 (sample_evm false) sample_msg 40%N 8000000)
    as (used & st' & H & Hu & _ & Hb & _).
  - apply sample_env_ok.
  - apply sample_evm_ok.
  - reflexivity.
  - reflexivity.
  - reflexivity.
  - simpl. lia.
  - simpl. lia.
  - unfold is_u64. lia.
  - reflexivity.
  - by vm_compute.
  - by vm_compute.
  - by vm_compute.
  - intros _. by vm_compute.
  - by vm_compute.
  - by vm_compute.
  - simpl. lia.
  - simpl. lia.
  - exists used, st'. exact (conj H (conj Hu (Hb 40%N))).
Defined.

Example sample_transfer :
  match ApplyMessage sample_env (Run sample_env 1) (sample_evm false) sample_msg 8000000 with
  | Done (inr ([], used, false), st') =>
      used = 21072 /\ st_gp st' = 8000000 - 21072 /\ (sd_GetBalance 40%N (st_state st')).1 = 5 /\
      (sd_GetBalance 17%N (st_state st')).1 = 1000000 - 5 - 21072 /\
      (sd_GetBalance 18%N (st_state st')).1 = 21072 /\ (sd_GetNonce 17%N (st_state st')).1 = 1
  | _ => False
  end.
Proof. by vm_compute. Qed.

Lemma ApplyMessage_no_mint_witness : exists r st',
  ApplyMessage sample_env (Run sample_env sample_fuel) (sample_evm false) sample_msg 8000000 = Done (r, st') /\
  forall n, supply_le (cur (abs sample_state)) n -> supply_le (cur (abs (st_state st'))) n.
Proof.
  apply (ApplyMessage_no_mint sample_env sample_fuel (sample_evm false) sample_msg 8000000).
  - apply sample_collision_free.
  - apply sample_env_ok.
  - apply sample_evm_ok.
  - reflexivity.
  - reflexivity.
  - simpl. lia.
  - pose proof sample_fuel_enough. change (30000 < Z.of_nat sample_fuel). lia.
  - simpl. lia.
  - simpl. lia.
  - unfold is_u64. lia.
Defined.
