(* ===== verification/Managed.v ===== *)
(** core/state/managed_state.go: a state that hands out nonces ahead of the
    transactions that use them.

    The field [stateObject] of an account is written and never read; it is
    left out. *)
From S2P Require Import Prelude BigMath StateSpec Supply StateRel Vm StateObject Statedb StateFinal StateUndo.
From S2P Require Import StateRefine StateRevert.

Record maccount := { nstart : Z; nonces : list bool }.

Section Managed.
Context `{DB : Database} `{CR : Crypto}.

Record ManagedState := { ms_StateDB : Statedb; ms_accounts : gmap Address maccount }.

Definition newAccount (so : stateObject) : maccount := {| nstart := acc_Nonce (so_data so); nonces := [] |}.

Definition ManageState (statedb : Statedb) : outcome ManagedState :=
  let* s := sd_Copy statedb in Done {| ms_StateDB := s; ms_accounts := ∅ |}.

Definition ms_SetState (statedb : Statedb) (ms : ManagedState) : ManagedState :=
  {| ms_StateDB := statedb; ms_accounts := ms_accounts ms |}.

Definition hasAccount (addr : Address) (ms : ManagedState) : bool :=
  match ms_accounts ms !! addr with Some _ => true | None => false end.

(** The nonce after the ones handed out. *)
Definition maccount_next (m : maccount) : Z := u64 (len (nonces m) + nstart m).

Definition getAccount (addr : Address) (ms : ManagedState) : maccount * ManagedState :=
  match ms_accounts ms !! addr with
  | None =>
      let '(so, s) := GetOrNewStateObject addr (ms_StateDB ms) in
      let m := newAccount so in
      (m, {| ms_StateDB := s; ms_accounts := <[addr := m]> (ms_accounts ms) |})
  | Some m =>
      let '(so, s) := getStateObject addr (ms_StateDB ms) in
      match so with
      | Some so =>
          if maccount_next m <? acc_Nonce (so_data so)
          then let m := newAccount so in
               (m, {| ms_StateDB := s; ms_accounts := <[addr := m]> (ms_accounts ms) |})
          else (m, {| ms_StateDB := s; ms_accounts := ms_accounts ms |})
      | None => (m, {| ms_StateDB := s; ms_accounts := ms_accounts ms |})
      end
  end.

Definition ms_setAccount (addr : Address) (m : maccount) (ms : ManagedState) : ManagedState :=
  {| ms_StateDB := ms_StateDB ms; ms_accounts := <[addr := m]> (ms_accounts ms) |}.

(** The difference wraps around when [n] is below the start. *)
Definition RemoveNonce (addr : Address) (n : Z) (ms : ManagedState) : ManagedState :=
  if hasAccount addr ms then
    let '(m, ms) := getAccount addr ms in
    let k := u64 (n - nstart m) in
    if k <=? len (nonces m)
    then ms_setAccount addr {| nstart := nstart m; nonces := take (Z.to_nat k) (nonces m) |} ms
    else ms
  else ms.

(** The loop of [NewNonce]: the first nonce not in use. *)
Fixpoint first_free (l : list bool) (i : Z) : option Z :=
  match l with
  | [] => None
  | b :: l => if negb b then Some i else first_free l (i + 1)
  end.

Definition NewNonce (addr : Address) (ms : ManagedState) : Z * ManagedState :=
  let '(m, ms) := getAccount addr ms in
  match first_free (nonces m) 0 with
  | Some i => (u64 (nstart m + i), ms)
  | None =>
      let m := {| nstart := nstart m; nonces := nonces m ++ [true] |} in
      (u64 (len (nonces m) - 1 + nstart m), ms_setAccount addr m ms)
  end.

Definition ms_GetNonce (addr : Address) (ms : ManagedState) : Z * ManagedState :=
  if hasAccount addr ms then
    let '(m, ms) := getAccount addr ms in (maccount_next m, ms)
  else
    let '(n, s) := sd_GetNonce addr (ms_StateDB ms) in
    (n, {| ms_StateDB := s; ms_accounts := ms_accounts ms |}).

Definition ms_SetNonce (addr : Address) (nonce : Z) (ms : ManagedState) : ManagedState :=
  {| ms_StateDB := sd_SetNonce addr nonce (ms_StateDB ms);
     ms_accounts := <[addr := {| nstart := nonce; nonces := [] |}]> (ms_accounts ms) |}.
End Managed.

(** ** What the managed state promises *)

Section ManagedFacts.
Context `{DS : DatabaseSpec} {tracked : bool}.
Implicit Types (ms : ManagedState) (a b : Address).

(** All the nonces on record are in use, and fit. *)
Definition maccount_ok (m : maccount) : Prop :=
  Forall (fun x => x = true) (nonces m) /\ 0 <= nstart m /\ nstart m + len (nonces m) < 2 ^ 64.
Definition ms_ok ms : Prop :=
  sd_inv tracked (ms_StateDB ms) /\
  (forall a m, ms_accounts ms !! a = Some m -> maccount_ok m) /\
  (forall a, is_u64 (w_nonce (w_of (ms_StateDB ms)) a)).

(** The next nonce of an account, as a function of its address: the
    specification of the component. *)
Definition ms_nonce ms a : Z :=
  let n := w_nonce (w_of (ms_StateDB ms)) a in
  match ms_accounts ms !! a with
  | Some m => Z.max (len (nonces m) + nstart m) n
  | None => n
  end.
Lemma maccount_next_ok m : maccount_ok m -> maccount_next m = len (nonces m) + nstart m.
Proof. intros (_ & H0 & H1). apply u64_small. unfold is_u64. pose proof (len_nonneg (nonces m)). lia. Qed.

(** Replacing the state by one with the same nonces, and an account. *)
Lemma ms_ok_set ms s accs :
  ms_ok ms -> sd_inv tracked s -> (forall a, w_nonce (w_of s) a = w_nonce (w_of (ms_StateDB ms)) a) ->
  (forall a m, accs !! a = Some m -> maccount_ok m) -> ms_ok {| ms_StateDB := s; ms_accounts := accs |}.
Proof. intros (_ & _ & H) I W A. split; [done|]. split; [done|]. intros a. simpl. by rewrite W. Qed.

Lemma maccount_ok_new n : is_u64 n -> maccount_ok {| nstart := n; nonces := [] |}.
Proof. intros [? ?]. split; [by constructor|]. unfold len. simpl. lia. Qed.

Lemma GetOrNew_nonce a s o s' :
  sd_inv tracked s -> GetOrNewStateObject a s = (o, s') ->
  sd_inv tracked s' /\ acc_Nonce (so_data o) = w_nonce (w_of s) a /\
  forall b, w_nonce (w_of s') b = w_nonce (w_of s) b.
Proof.
  intros I E. pose proof I as (O & _ & _ & L & _).
  destruct (GetOrNewStateObject_spec a s o s' O L E) as (X & _ & _ & _ & Hn & _).
  pose proof (touch_id_spec a s o s' O L E) as W.
  split; [by apply (ext_inv s s')|]. rewrite (w_nonce_new emptyCode). split; [apply Hn|].
  intros b. rewrite W. unfold w_nonce at 1. simpl. case_decide; [subst b|done].
  simpl. by rewrite (w_nonce_new emptyCode).
Qed.

(** What looking at the account [a] gives: its record [m], with the same
    nonces as before. *)
Definition looked_up ms a m ms' : Prop :=
  ms_ok ms' /\ ms_accounts ms' !! a = Some m /\ len (nonces m) + nstart m = ms_nonce ms a /\
  (forall b, ms_nonce ms' b = ms_nonce ms b) /\
  (forall b, w_nonce (w_of (ms_StateDB ms')) b = w_nonce (w_of (ms_StateDB ms)) b).

Lemma looked_up_new a ms so s :
  ms_ok ms -> sd_inv tracked s -> (forall b, w_nonce (w_of s) b = w_nonce (w_of (ms_StateDB ms)) b) ->
  acc_Nonce (so_data so) = w_nonce (w_of (ms_StateDB ms)) a -> ms_nonce ms a = w_nonce (w_of (ms_StateDB ms)) a ->
  looked_up ms a (newAccount so) {| ms_StateDB := s; ms_accounts := <[a := newAccount so]> (ms_accounts ms) |}.
Proof.
  intros H I W Hso Ha. pose proof H as (_ & A & N).
  assert (Hn : len (nonces (newAccount so)) + nstart (newAccount so) = acc_Nonce (so_data so)) by done.
  split; [|split; [apply lookup_insert_eq|split; [congruence|split]]].
  - apply (ms_ok_set ms); try done. intros b m'. rewrite lookup_insert. case_decide; [|apply A].
    intros [= <-]. unfold newAccount. rewrite Hso. apply maccount_ok_new, N.
  - intros b. unfold ms_nonce at 1. simpl. rewrite W, lookup_insert. case_decide; [|done].
    subst b. rewrite Hn, Hso, Ha. lia.
  - done.
Qed.

Lemma looked_up_same a ms m s :
  ms_ok ms -> sd_inv tracked s -> (forall b, w_nonce (w_of s) b = w_nonce (w_of (ms_StateDB ms)) b) ->
  ms_accounts ms !! a = Some m -> w_nonce (w_of (ms_StateDB ms)) a <= len (nonces m) + nstart m ->
  looked_up ms a m {| ms_StateDB := s; ms_accounts := ms_accounts ms |}.
Proof.
  intros H I W Em Hle. split; [by apply (ms_ok_set ms); [..|apply H]|]. split; [done|].
  split; [unfold ms_nonce; rewrite Em; lia|]. split; [|done]. intros b. unfold ms_nonce. simpl. by rewrite W.
Qed.

Lemma getAccount_spec a ms :
  ms_ok ms -> let '(m, ms') := getAccount a ms in looked_up ms a m ms'.
Proof.
  intros H. pose proof H as (I & A & N). unfold getAccount.
  destruct (ms_accounts ms !! a) as [m|] eqn:Em.
  - destruct (getStateObject a (ms_StateDB ms)) as [r s] eqn:Eg. pose proof I as (O & _ & _ & L & _).
    destruct (getStateObject_spec a _ r s O L Eg) as (X & W & Hr). destruct (ext_reads _ _ I X W) as [I' _].
    assert (Hw : forall b, w_nonce (w_of s) b = w_nonce (w_of (ms_StateDB ms)) b) by (intros b; by rewrite W).
    destruct r as [so|].
    + assert (Hso : acc_Nonce (so_data so) = w_nonce (w_of (ms_StateDB ms)) a).
      { destruct Hr as (_ & _ & Hr). rewrite <-Hw, (w_nonce_new emptyCode), (acct_or_new_Some _ _ _ _ Hr). done. }
      rewrite (maccount_next_ok m (A a m Em)), Hso.
      destruct (Z.ltb_spec (len (nonces m) + nstart m) (w_nonce (w_of (ms_StateDB ms)) a)).
      * apply looked_up_new; try done. unfold ms_nonce. rewrite Em. lia.
      * by apply looked_up_same.
    + apply looked_up_same; try done. rewrite <-Hw. unfold w_nonce. rewrite (proj1 Hr). simpl.
      destruct (A a m Em) as (_ & H0 & _). pose proof (len_nonneg (nonces m)). lia.
  - destruct (GetOrNewStateObject a (ms_StateDB ms)) as [so s] eqn:Eg.
    destruct (GetOrNew_nonce a _ so s I Eg) as (I' & Hso & Hw).
    apply looked_up_new; try done. unfold ms_nonce. by rewrite Em.
Qed.

Lemma ms_GetNonce_spec a ms :
  ms_ok ms ->
  ms_ok (ms_GetNonce a ms).2 /\ (ms_GetNonce a ms).1 = ms_nonce ms a /\
  (forall b, ms_nonce (ms_GetNonce a ms).2 b = ms_nonce ms b).
Proof.
  intros H. unfold ms_GetNonce, hasAccount. destruct (ms_accounts ms !! a) as [m0|] eqn:Em.
  - pose proof (getAccount_spec a ms H) as HA. destruct (getAccount a ms) as [m ms'].
    destruct HA as (H' & E & Hn & Hs & _). split; [done|]. split; [|done]. simpl.
    rewrite maccount_next_ok; [done|]. by eapply H'.
  - pose proof H as (I & A & N). destruct (GetNonce_refines a (ms_StateDB ms) I) as (I' & [W _] & E).
    destruct (sd_GetNonce a (ms_StateDB ms)) as [n s]. simpl in *.
    assert (Hw : forall b, w_nonce (w_of s) b = w_nonce (w_of (ms_StateDB ms)) b) by (intros b; by rewrite W).
    split; [by apply (ms_ok_set ms)|]. split; [unfold ms_nonce; by rewrite Em|].
    intros b. unfold ms_nonce. simpl. by rewrite Hw.
Qed.

Lemma w_nonce_set a n w b :
  w_nonce (w_SetNonce emptyCode a n w) b = if decide (b = a) then n else w_nonce w b.
Proof. unfold w_nonce, w_SetNonce, upd_acct, set_acct. simpl. by case_decide. Qed.

Lemma ms_SetNonce_spec a n ms :
  ms_ok ms -> is_u64 n ->
  ms_ok (ms_SetNonce a n ms) /\
  (forall b, ms_nonce (ms_SetNonce a n ms) b = if decide (b = a) then n else ms_nonce ms b).
Proof.
  intros (I & A & N) Hn. destruct (SetNonce_refines a n (ms_StateDB ms) I) as (I' & [W _]). simpl in W.
  assert (Hw : forall b, w_nonce (w_of (sd_SetNonce a n (ms_StateDB ms))) b =
                 if decide (b = a) then n else w_nonce (w_of (ms_StateDB ms)) b).
  { intros b. rewrite W. apply w_nonce_set. }
  split; [split; [done|split; simpl]|].
  - intros b m. rewrite lookup_insert. case_decide; [|apply A]. intros [= <-]. by apply maccount_ok_new.
  - intros b. rewrite Hw. case_decide; [done|apply N].
  - intros b. unfold ms_nonce. simpl. rewrite Hw, lookup_insert.
    destruct (decide (a = b)) as [<-|]; case_decide; try done. unfold len. simpl. lia.
Qed.

Lemma first_free_none l : Forall (fun x => x = true) l -> forall i, first_free l i = None.
Proof. induction 1 as [|x l ->]; intros i; simpl; auto. Qed.

(** Replacing a record that was looked up. *)
Lemma ms_setAccount_spec ms a m' :
  ms_ok ms -> maccount_ok m' -> ms_ok (ms_setAccount a m' ms) /\
  (forall b, ms_nonce (ms_setAccount a m' ms) b =
     if decide (b = a) then Z.max (len (nonces m') + nstart m') (w_nonce (w_of (ms_StateDB ms)) a) else ms_nonce ms b).
Proof.
  intros (I & A & N) Hm. split.
  - split; [done|]. split; [|done]. intros b m. simpl. rewrite lookup_insert.
    case_decide; [by intros [= <-]|apply A].
  - intros b. unfold ms_nonce. simpl. rewrite lookup_insert.
    destruct (decide (a = b)) as [<-|]; case_decide; done.
Qed.

Lemma NewNonce_spec a ms :
  ms_ok ms -> ms_nonce ms a + 1 < 2 ^ 64 ->
  ms_ok (NewNonce a ms).2 /\ (NewNonce a ms).1 = ms_nonce ms a /\
  (forall b, ms_nonce (NewNonce a ms).2 b = if decide (b = a) then ms_nonce ms a + 1 else ms_nonce ms b).
Proof.
  intros H Hlt. unfold NewNonce. pose proof (getAccount_spec a ms H) as HA.
  destruct (getAccount a ms) as [m ms']. destruct HA as (H' & E & Hn & Hs & _).
  assert (Hm : maccount_ok m) by (by eapply H'). destruct Hm as (Ht & H0 & H1).
  rewrite first_free_none by done. simpl.
  assert (Hw : w_nonce (w_of (ms_StateDB ms')) a <= ms_nonce ms a).
  { rewrite <-Hs. unfold ms_nonce. rewrite E. lia. }
  assert (Hl : len (nonces m ++ [true]) = len (nonces m) + 1) by (rewrite len_app; done).
  destruct (ms_setAccount_spec ms' a {| nstart := nstart m; nonces := nonces m ++ [true] |}) as [O' S']; [done| |].
  { split; [apply Forall_app; split; [done|by repeat constructor]|]. simpl. rewrite Hl. lia. }
  split; [done|]. split.
  - rewrite Hl, u64_small; [lia|]. unfold is_u64. pose proof (len_nonneg (nonces m)). lia.
  - intros b. rewrite S'. simpl. rewrite Hl. case_decide; [lia|apply Hs].
Qed.

(** The first nonce on record. *)
Definition ms_start ms a : option Z :=
  (fun m => if len (nonces m) + nstart m <? w_nonce (w_of (ms_StateDB ms)) a
            then w_nonce (w_of (ms_StateDB ms)) a else nstart m) <$> ms_accounts ms !! a.

Lemma getAccount_start a ms st :
  ms_ok ms -> ms_start ms a = Some st -> nstart (getAccount a ms).1 = st.
Proof.
  intros H. pose proof H as (I & A & N). unfold ms_start, getAccount.
  destruct (ms_accounts ms !! a) as [m|] eqn:Em; [|done]. simpl. intros [= <-].
  destruct (getStateObject a (ms_StateDB ms)) as [r s] eqn:Eg. pose proof I as (O & _ & _ & L & _).
  destruct (getStateObject_spec a _ r s O L Eg) as (X & W & Hr).
  assert (Hw : w_nonce (w_of (ms_StateDB ms)) a = w_nonce (w_of s) a) by by rewrite W. rewrite Hw.
  destruct r as [so|].
  - assert (Hso : acc_Nonce (so_data so) = w_nonce (w_of s) a).
    { destruct Hr as (_ & _ & Hr). rewrite (w_nonce_new emptyCode), (acct_or_new_Some _ _ _ _ Hr). done. }
    rewrite (maccount_next_ok m (A a m Em)), <-Hso.
    by destruct (len (nonces m) + nstart m <? acc_Nonce (so_data so)).
  - unfold w_nonce. rewrite (proj1 Hr). simpl. destruct (A a m Em) as (_ & H0 & _).
    pose proof (len_nonneg (nonces m)). destruct (Z.ltb_spec (len (nonces m) + nstart m) 0); [lia|done].
Qed.

(** [RemoveNonce] hands back the nonces from [n] on, if [n] is on record. *)
Lemma RemoveNonce_spec a n ms :
  ms_ok ms -> is_u64 n ->
  ms_ok (RemoveNonce a n ms) /\
  (forall b, ms_nonce (RemoveNonce a n ms) b =
     match ms_start ms a with
     | Some st => if bool_decide (b = a) && (st <=? n) && (n <=? ms_nonce ms a)
                  then Z.max n (w_nonce (w_of (ms_StateDB ms)) a) else ms_nonce ms b
     | None => ms_nonce ms b
     end).
Proof.
  intros H Hn. unfold RemoveNonce, hasAccount. pose proof (getAccount_start a ms) as Hst.
  destruct (ms_start ms a) as [st|] eqn:Est; unfold ms_start in Est;
    destruct (ms_accounts ms !! a) as [m0|] eqn:Em; try done. specialize (Hst st H eq_refl).
  pose proof (getAccount_spec a ms H) as HA. destruct (getAccount a ms) as [m ms']. simpl in Hst. subst st.
  destruct HA as (H' & E & Hnx & Hs & Hw). assert (Hm : maccount_ok m) by (by eapply H').
  destruct Hm as (Ht & H0 & H1). pose proof (len_nonneg (nonces m)) as Hl.
  assert (Hk : u64 (n - nstart m) = if nstart m <=? n then n - nstart m else n - nstart m + 2 ^ 64).
  { unfold u64, is_u64 in *. destruct (Z.leb_spec (nstart m) n); zlia. }
  rewrite Hk, <-Hnx. destruct (Z.leb_spec (nstart m) n) as [Hle|Hle].
  - destruct (Z.leb_spec (n - nstart m) (len (nonces m))) as [Hin|Hin].
    + set (m' := {| nstart := _ |}).
      assert (Hm' : maccount_ok m' /\ len (nonces m') + nstart m' = n).
      { unfold m', maccount_ok, len in *. simpl. rewrite length_take. split; [|lia].
        split; [by apply Forall_take|lia]. }
      destruct Hm' as [Hm' Hn']. destruct (ms_setAccount_spec ms' a m' H' Hm') as [O' S'].
      split; [done|]. intros b. rewrite S', Hn', Hw, Hs.
      destruct (Z.leb_spec n (len (nonces m) + nstart m)); [|lia].
      by destruct (decide (b = a)); [rewrite bool_decide_true|rewrite bool_decide_false].
    + split; [done|]. intros b. rewrite Hs. destruct (Z.leb_spec n (len (nonces m) + nstart m)); [lia|].
      by rewrite andb_false_r.
  - unfold is_u64 in Hn. destruct (Z.leb_spec (n - nstart m + 2 ^ 64) (len (nonces m))); [lia|].
    split; [done|]. intros b. by rewrite andb_false_r.
Qed.

End ManagedFacts.
