(* ===== verification/ManagedTheorems.v ===== *)
(** The theorem on the nonces that a managed state hands out. *)
From S2P Require Import Prelude BigMath Params StateSpec Supply StateRel Vm StateObject Statedb StateFinal StateUndo.
From S2P Require Import StateRefine StateRevert StateFinalFacts Sample StateTheorems FinalTheorems Managed.

Section ManagedTheorems.
Context `{DS : DatabaseSpec} {TS : TrieSpec} {RO : RangeOrder}.
Implicit Types (ms : ManagedState) (a b : Address).

(** [NewNonce] for the accounts in turn. *)
Fixpoint new_nonces (addrs : list Address) ms : list Z * ManagedState :=
  match addrs with
  | [] => ([], ms)
  | a :: addrs =>
      let '(n, ms) := NewNonce a ms in
      let '(ns, ms) := new_nonces addrs ms in (n :: ns, ms)
  end.

(** How often an account occurs. *)
Definition occurs a (addrs : list Address) : Z := len (filter (eq a) addrs).
(** The nonces of accounts that start from [base]. *)
Fixpoint numbered (base : Address -> Z) (addrs : list Address) : list Z :=
  match addrs with
  | [] => []
  | a :: addrs => base a :: numbered (fun b => if decide (b = a) then base a + 1 else base b) addrs
  end.

Lemma numbered_ext addrs : forall f g, (forall a, f a = g a) -> numbered f addrs = numbered g addrs.
Proof.
  induction addrs as [|a addrs IH]; intros f g H; [done|]. simpl. rewrite H. f_equal. apply IH. intros b. by rewrite !H.
Qed.
Lemma occurs_cons a b addrs : occurs a (b :: addrs) = (if decide (a = b) then 1 else 0) + occurs a addrs.
Proof. unfold occurs. rewrite filter_cons. case_decide; [apply len_cons|done]. Qed.
Lemma occurs_nonneg a addrs : 0 <= occurs a addrs.
Proof. apply len_nonneg. Qed.

Lemma new_nonces_spec addrs : forall ms,
  ms_ok (tracked := true) ms -> (forall a, ms_nonce ms a + occurs a addrs < 2 ^ 64) ->
  (new_nonces addrs ms).1 = numbered (ms_nonce ms) addrs /\ ms_ok (tracked := true) (new_nonces addrs ms).2 /\
  (forall a, ms_nonce (new_nonces addrs ms).2 a = ms_nonce ms a + occurs a addrs).
Proof.
  induction addrs as [|a addrs IH]; intros ms Hok Hlt; simpl; [split; [done|]; split; [done|]; intros a; unfold occurs, len; simpl; lia|].
  destruct (NewNonce_spec a ms Hok) as (Hok' & Hn & Hs).
  { specialize (Hlt a). rewrite occurs_cons, decide_True in Hlt by done. pose proof (occurs_nonneg a addrs). lia. }
  destruct (NewNonce a ms) as [n ms']. cbn [fst snd] in *. destruct (IH ms' Hok') as (E & Hok2 & Hs2).
  { intros b. specialize (Hlt b). rewrite occurs_cons in Hlt. rewrite Hs. case_decide; subst; lia. }
  destruct (new_nonces addrs ms') as [ns ms2]. cbn [fst snd] in *. subst n ns. split; [|split; [done|]].
  - f_equal. apply numbered_ext. done.
  - intros b. rewrite Hs2, Hs, occurs_cons. case_decide; subst; lia.
Qed.

(** The managed copy of a state hands out the nonces of every account one
    after the other from the one in the state, whatever the order of the
    accounts, and shows the next one to hand out. *)
Theorem NewNonce_consecutive (s : Statedb) (addrs : list Address) :
  sd_inv true s -> resets_marked s ->
  (forall a, 0 <= w_nonce (w_of s) a /\ w_nonce (w_of s) a + occurs a addrs < 2 ^ 64) ->
  exists ms, ManageState s = Done ms /\
    (new_nonces addrs ms).1 = numbered (w_nonce (w_of s)) addrs /\
    forall a, (ms_GetNonce a (new_nonces addrs ms).2).1 = w_nonce (w_of s) a + occurs a addrs.
Proof.
  intros I R Hn. unfold ManageState. destruct (Copy_spec s I R) as (s' & -> & I' & W & _). cbn [outcome_bind].
  eexists. split; [done|]. set (ms := {| ms_StateDB := s'; ms_accounts := ∅ |}).
  assert (Hw : forall a, ms_nonce ms a = w_nonce (w_of s) a).
  { intros a. unfold ms_nonce, ms. simpl. rewrite lookup_empty. by rewrite W. }
  destruct (new_nonces_spec addrs ms) as (E & Hok & Hs).
  - split; [done|]. split; [by intros a m|]. intros a. change (ms_StateDB ms) with s'.
    specialize (Hw a). unfold ms_nonce in Hw. simpl in Hw. rewrite lookup_empty in Hw. rewrite Hw.
    specialize (Hn a). pose proof (occurs_nonneg a addrs). unfold is_u64. lia.
  - intros a. rewrite Hw. apply Hn.
  - split; [rewrite E; by apply numbered_ext|]. intros a.
    destruct (ms_GetNonce_spec a _ Hok) as (_ & -> & _). by rewrite Hs, Hw.
Qed.
End ManagedTheorems.

(** All nonces of a state are below a bound, as a program. *)
Definition small_nonces (k : Z) (s : Statedb) : bool :=
  forallb (fun p => (0 <=? acc_Nonce (so_data p.2)) && (acc_Nonce (so_data p.2) <? k)) (map_to_list (sd_stateObjects s)) &&
  forallb (fun p => (0 <=? acc_Nonce p.2) && (acc_Nonce p.2 <? k)) (map_to_list (sd_trie s : gmap Address Account)).
Lemma small_nonces_ok (CR : Crypto) k s : 0 < k -> small_nonces k s = true -> forall a, 0 <= w_nonce (w_of (CR := CR) s) a < k.
Proof.
  intros Hk [H1 H2]%andb_true_iff a. rewrite forallb_forall in H1, H2. unfold w_nonce. simpl. unfold acct_of.
  destruct (sd_stateObjects s !! a) as [o|] eqn:Eo.
  - specialize (H1 (a, o)). simpl in H1. destruct (so_deleted o); simpl; [lia|].
    assert (H : (a, o) ∈ map_to_list (sd_stateObjects s)) by (by apply elem_of_map_to_list).
    apply list_elem_of_In, H1 in H. lia.
  - change (AT_TryGet (sd_trie s) a) with ((sd_trie s : gmap Address Account) !! a).
    destruct ((sd_trie s : gmap Address Account) !! a) as [d|] eqn:Ed; simpl; [|lia].
    assert (H : (a, d) ∈ map_to_list (sd_trie s : gmap Address Account)) by (by apply elem_of_map_to_list).
    apply list_elem_of_In, H2 in H. simpl in H. lia.
Qed.

Lemma NewNonce_consecutive_witness :
  exists ms, ManageState sample_touched = Done ms /\
    (new_nonces [6; 5; 6]%N ms).1 = numbered (w_nonce (w_of sample_touched)) [6; 5; 6]%N /\
    forall a, (ms_GetNonce a (new_nonces [6; 5; 6]%N ms).2).1 = w_nonce (w_of sample_touched) a + occurs a [6; 5; 6]%N.
Proof.
  apply (NewNonce_consecutive sample_touched [6; 5; 6]%N); [apply sample_touched_inv|apply no_resets_marked; vm_compute; reflexivity|].
  intros a. assert (H : 0 <= w_nonce (w_of sample_touched) a < 10) by (apply small_nonces_ok; [lia|vm_compute; reflexivity]).
  assert (Ho : occurs a [6; 5; 6]%N <= 3) by (rewrite !occurs_cons; unfold occurs, len; simpl; repeat case_decide; lia). lia.
Defined.
