(* ===== verification/Rlp.v ===== *)
(** RLP, the serialisation of blocks and transactions: rlp/encode.go,
    rlp/raw.go and rlp/decode.go.

    The encoder and the decoder of a value are chosen by its Go type, through
    reflection.  [rtype] has the types for which [makeWriter] and
    [makeDecoder] are modelled, [rval] the values.  Not covered are arrays of
    anything but bytes, the tail field of a struct, and types that implement
    [Encoder] or [Decoder] themselves.  A decoder fills a fresh value; the
    context strings of errors are left out. *)
From S2P Require Import Prelude BigMath.

(** ** Errors *)

(** The messages of [decodeError]. *)
Inductive decodeMsg :=
| msgCanonInt | msgCanonSize | msgExpectedList | msgExpectedString | msgTooLong | msgTooManyElements
| msgTooShort | msgTooFewElements.

Inductive rlpError :=
| EOL
| ErrExpectedString | ErrExpectedList | ErrCanonInt | ErrCanonSize | ErrElemTooLarge | ErrValueTooLarge
| ErrMoreThanOneValue
| errNotInList | errNotAtEOL | errUintOverflow
| io_EOF | io_ErrUnexpectedEOF
| errNegativeBigInt
| errBoolValue (n : Z)
| decodeError (msg : decodeMsg)
| errType.
#[export] Instance decodeMsg_eq_dec : EqDecision decodeMsg.
Proof. solve_decision. Defined.
#[export] Instance rlpError_eq_dec : EqDecision rlpError.
Proof. solve_decision. Defined.

(** ** Types and values *)

Inductive rtype :=
| RawT
| UintT (bits : Z)
| BoolT
| BigT
| BytesT
| ArrayT (n : nat)
| SliceT (t : rtype)
| StructT (ts : list rtype)
| PtrT (t : rtype)
| OptPtrT (t : rtype)
| IfaceT.

(** [VBytes] is a byte slice, a byte array or a string; [VList] a slice or
    the fields of a struct; a pointer or an interface is the value in it, or
    [VNil]. *)
Inductive rval :=
| VRaw (b : bytes)
| VUint (n : Z)
| VBool (b : bool)
| VBig (n : Z)
| VBytes (b : bytes)
| VList (l : list rval)
| VNil.

(** ** encode.go *)

(** The least number of bytes, most significant first. *)
Definition putint (i : Z) : bytes :=
  if i <? 2 ^ 8 then be_fixed 1 i
  else if i <? 2 ^ 16 then be_fixed 2 i
  else if i <? 2 ^ 24 then be_fixed 3 i
  else if i <? 2 ^ 32 then be_fixed 4 i
  else if i <? 2 ^ 40 then be_fixed 5 i
  else if i <? 2 ^ 48 then be_fixed 6 i
  else if i <? 2 ^ 56 then be_fixed 7 i
  else be_fixed 8 i.

(** The loop ends within eight rounds on 64 bits. *)
Fixpoint intsize_loop (fuel : nat) (sz i : Z) : Z :=
  let i := Z.shiftr i 8 in
  if i =? 0 then sz else match fuel with O => sz | S fuel => intsize_loop fuel (sz + 1) i end.
Definition intsize (i : Z) : Z := intsize_loop 7 1 i.

Definition headsize (sz : Z) : Z := if sz <? 56 then 1 else 1 + intsize sz.

(** The bytes that [puthead] puts into its buffer. *)
Definition puthead (smalltag largetag sz : Z) : bytes :=
  if sz <? 56 then [z2b (smalltag + sz)]
  else let s := putint sz in z2b (largetag + len s) :: s.

Record listhead := { lh_offset : Z; lh_size : Z }.
Definition listhead_encode (h : listhead) : bytes := puthead 0xC0 0xF7 (u64 (lh_size h)).

Record encbuf := { eb_str : bytes; eb_lheads : list listhead; eb_lhsize : Z }.
Definition eb_new : encbuf := {| eb_str := []; eb_lheads := []; eb_lhsize := 0 |}.

Definition eb_append (b : bytes) (w : encbuf) : encbuf :=
  {| eb_str := eb_str w ++ b; eb_lheads := eb_lheads w; eb_lhsize := eb_lhsize w |}.

Definition encodeStringHeader (sz : Z) (w : encbuf) : encbuf :=
  if sz <? 56 then eb_append [z2b (0x80 + sz)] w
  else let s := putint (u64 sz) in eb_append (z2b (0xB7 + len s) :: s) w.

Definition encodeString (b : bytes) (w : encbuf) : encbuf :=
  match b with
  | [x] => if b2z x <=? 0x7F then eb_append [x] w else eb_append b (encodeStringHeader (len b) w)
  | _ => eb_append b (encodeStringHeader (len b) w)
  end.

Definition eb_size (w : encbuf) : Z := len (eb_str w) + eb_lhsize w.

(** The list head is pointed to by its index. *)
Definition eb_list (w : encbuf) : nat * encbuf :=
  (length (eb_lheads w),
   {| eb_str := eb_str w;
      eb_lheads := eb_lheads w ++ [{| lh_offset := len (eb_str w); lh_size := eb_lhsize w |}];
      eb_lhsize := eb_lhsize w |}).
Definition eb_listEnd (lh : nat) (w : encbuf) : encbuf :=
  match eb_lheads w !! lh with
  | None => w
  | Some h =>
      let sz := eb_size w - lh_offset h - lh_size h in
      {| eb_str := eb_str w;
         eb_lheads := <[lh := {| lh_offset := lh_offset h; lh_size := sz |}]> (eb_lheads w);
         eb_lhsize := if sz <? 56 then eb_lhsize w + 1 else eb_lhsize w + (1 + intsize (u64 sz)) |}
  end.

(** The loop of [toBytes]; the buffer [out] has its final length. *)
Fixpoint toBytes_loop (heads : list listhead) (str out : bytes) (strpos pos : Z) : outcome bytes :=
  match heads with
  | [] => Done (copy_at out pos (drop (Z.to_nat strpos) str))
  | head :: heads =>
      let* chunk := slice str strpos (lh_offset head) in
      let* dst := slice out pos (len out) in
      let n := Z.min (len dst) (len chunk) in
      let out := copy_at out pos chunk in
      let pos := pos + n in
      let strpos := strpos + n in
      let enc := listhead_encode head in
      if len out <? pos + len enc then GoPanic
      else toBytes_loop heads str (copy_at out pos enc) strpos (pos + len enc)
  end.
Definition toBytes (w : encbuf) : outcome bytes :=
  toBytes_loop (eb_lheads w) (eb_str w) (zeros (eb_size w)) 0 0.

Definition writer : Type := encbuf -> rlpError + encbuf.

Definition writeUint (i : Z) (w : encbuf) : encbuf :=
  if i =? 0 then eb_append [z2b 0x80] w
  else if i <? 128 then eb_append [z2b i] w
  else let s := putint i in eb_append (z2b (0x80 + len s) :: s) w.

Definition writeBool (b : bool) (w : encbuf) : encbuf :=
  if b then eb_append [z2b 0x01] w else eb_append [z2b 0x80] w.

Definition writeBigInt (i : Z) : writer := fun w =>
  if i <? 0 then inl errNegativeBigInt
  else if i =? 0 then inr (eb_append [z2b 0x80] w)
  else inr (encodeString (big_Bytes i) w).

(** The elements of a slice, the fields of a struct. *)
Fixpoint write_all (ws : list writer) : writer := fun w =>
  match ws with
  | [] => inr w
  | wr :: ws => match wr w with inl err => inl err | inr w => write_all ws w end
  end.

(** [makeSliceWriter] and [makeStructWriter]. *)
Definition writeList (ws : list writer) : writer := fun w =>
  let '(lh, w) := eb_list w in
  match write_all ws w with
  | inl err => inl err
  | inr w => inr (eb_listEnd lh w)
  end.

(** [writeInterface]: the dynamic types are byte slices and slices of
    interfaces, which are what the decoder makes. *)
Fixpoint writeInterface (v : rval) : writer :=
  match v with
  | VNil => fun w => inr (eb_append [z2b 0xC0] w)
  | VBytes b => fun w => inr (encodeString b w)
  | VList l => writeList (map writeInterface l)
  | _ => fun _ => inl errType
  end.

(** The writer that [makePtrWriter] picks for a nil pointer: for most types,
    that of the zero value of the element type. *)
Fixpoint nilfunc (t : rtype) : writer := fun w =>
  match t with
  | ArrayT _ => inr (eb_append [z2b 0x80] w)
  | StructT _ => writeList [] w
  | UintT _ => inr (writeUint 0 w)
  | BoolT => inr (writeBool false w)
  | BigT => inr (eb_append [z2b 0x80] w)
  | BytesT => inr (encodeString [] w)
  | SliceT _ => writeList [] w
  | IfaceT => inr (eb_append [z2b 0xC0] w)
  | RawT => inr w
  | PtrT t | OptPtrT t => nilfunc t w
  end.

(** [makeWriter].  Ill-typed values do not arise in Go; they give
    [errType]. *)
Fixpoint write (t : rtype) (v : rval) {struct t} : writer :=
  match t with
  | RawT => match v with VRaw b => fun w => inr (eb_append b w) | _ => fun _ => inl errType end
  | UintT _ => match v with VUint n => fun w => inr (writeUint n w) | _ => fun _ => inl errType end
  | BoolT => match v with VBool b => fun w => inr (writeBool b w) | _ => fun _ => inl errType end
  | BigT => match v with
            | VBig n => writeBigInt n
            | VNil => fun w => inr (eb_append [z2b 0x80] w)
            | _ => fun _ => inl errType
            end
  | BytesT | ArrayT _ =>
      match v with VBytes b => fun w => inr (encodeString b w) | _ => fun _ => inl errType end
  | SliceT t => match v with VList l => writeList (map (write t) l) | _ => fun _ => inl errType end
  | StructT ts =>
      match v with
      | VList l =>
          if (length ts =? length l)%nat then writeList (zip_with write ts l) else fun _ => inl errType
      | _ => fun _ => inl errType
      end
  | PtrT t | OptPtrT t => match v with VNil => nilfunc t | _ => write t v end
  | IfaceT => writeInterface v
  end.

Definition EncodeToBytes (t : rtype) (v : rval) : outcome (rlpError + bytes) :=
  match write t v eb_new with
  | inl err => Done (inl err)
  | inr w => let* b := toBytes w in Done (inr b)
  end.
