(* ===== verification/RlpDecode.v ===== *)
(** Reading RLP: rlp/raw.go, on slices, and rlp/decode.go, on streams.

    The stream reads from a [bytes.Reader], whose unread part is [rs_r]; the
    innermost list is the head of [rs_stack]. *)
From S2P Require Import Prelude BigMath Rlp.

(** ** raw.go *)

Inductive Kind := KByte | KString | KList.
#[export] Instance Kind_eq_dec : EqDecision Kind.
Proof. solve_decision. Defined.

Definition ListSize (contentSize : Z) : Z := u64 (headsize contentSize + contentSize).

Definition raw_readSize (b : bytes) (slen : Z) : rlpError + Z :=
  if len b <? slen then inl io_ErrUnexpectedEOF
  else
    let s := big_SetBytes (take (Z.to_nat slen) b) in
    if (s <? 56) || match b with x :: _ => b2z x =? 0 | [] => true end then inl ErrCanonSize else inr s.

(** Kind, size of the tag, size of the content. *)
Definition raw_readKind (buf : bytes) : rlpError + (Kind * Z * Z) :=
  match buf with
  | [] => inl io_ErrUnexpectedEOF
  | b :: buf1 =>
      let b := b2z b in
      let r :=
        if b <? 0x80 then inr (KByte, 0, 1)
        else if b <? 0xB8 then
          let contentsize := b - 0x80 in
          if (contentsize =? 1) && match buf1 with x :: _ => b2z x <? 128 | [] => false end
          then inl ErrCanonSize else inr (KString, 1, contentsize)
        else if b <? 0xC0 then
          match raw_readSize buf1 (b - 0xB7) with inl err => inl err | inr n => inr (KString, b - 0xB7 + 1, n) end
        else if b <? 0xF8 then inr (KList, 1, b - 0xC0)
        else
          match raw_readSize buf1 (b - 0xF7) with inl err => inl err | inr n => inr (KList, b - 0xF7 + 1, n) end in
      match r with
      | inl err => inl err
      | inr (k, tagsize, contentsize) =>
          if u64 (len buf - tagsize) <? contentsize then inl ErrValueTooLarge else inr (k, tagsize, contentsize)
      end
  end.

(** Kind, content and rest. *)
Definition Split (b : bytes) : outcome (rlpError + (Kind * bytes * bytes)) :=
  match raw_readKind b with
  | inl err => Done (inl err)
  | inr (k, ts, cs) =>
      let* content := slice b ts (u64 (ts + cs)) in
      let* rest := slice b (u64 (ts + cs)) (len b) in
      Done (inr (k, content, rest))
  end.

Definition SplitString (b : bytes) : outcome (rlpError + (bytes * bytes)) :=
  let* r := Split b in
  match r with
  | inl err => Done (inl err)
  | inr (k, content, rest) =>
      if decide (k = KList) then Done (inl ErrExpectedString) else Done (inr (content, rest))
  end.
Definition SplitList (b : bytes) : outcome (rlpError + (bytes * bytes)) :=
  let* r := Split b in
  match r with
  | inl err => Done (inl err)
  | inr (k, content, rest) =>
      if decide (k = KList) then Done (inr (content, rest)) else Done (inl ErrExpectedList)
  end.

(** The loop of [CountValues]; every round shortens the slice. *)
Fixpoint CountValues_loop (fuel : nat) (b : bytes) (i : Z) : outcome (rlpError + Z) :=
  if len b =? 0 then Done (inr i)
  else match fuel with
       | O => NoFuel
       | S fuel =>
           match raw_readKind b with
           | inl err => Done (inl err)
           | inr (_, tagsize, sz) =>
               let* b := slice b (u64 (tagsize + sz)) (len b) in CountValues_loop fuel b (i + 1)
           end
       end.
Definition CountValues (b : bytes) : outcome (rlpError + Z) := CountValues_loop (length b) b 0.

(** ** decode.go: streams *)

Record Stream := mkStream {
  rs_r : bytes;
  rs_remaining : Z;
  rs_limited : bool;
  rs_kind : option Kind;
  rs_size : Z;
  rs_byteval : byte;
  rs_kinderr : option rlpError;
  rs_stack : list (Z * Z)
}.

Definition rs_set_r (r : bytes) (s : Stream) : Stream :=
  mkStream r (rs_remaining s) (rs_limited s) (rs_kind s) (rs_size s) (rs_byteval s) (rs_kinderr s) (rs_stack s).
Definition rs_set_remaining (n : Z) (s : Stream) : Stream :=
  mkStream (rs_r s) n (rs_limited s) (rs_kind s) (rs_size s) (rs_byteval s) (rs_kinderr s) (rs_stack s).
Definition rs_rearm (s : Stream) : Stream :=
  mkStream (rs_r s) (rs_remaining s) (rs_limited s) None (rs_size s) (rs_byteval s) (rs_kinderr s) (rs_stack s).
Definition rs_set_kind (k : option Kind) (sz : Z) (s : Stream) : Stream :=
  mkStream (rs_r s) (rs_remaining s) (rs_limited s) k sz (rs_byteval s) (rs_kinderr s) (rs_stack s).
Definition rs_set_byteval (b : byte) (s : Stream) : Stream :=
  mkStream (rs_r s) (rs_remaining s) (rs_limited s) (rs_kind s) (rs_size s) b (rs_kinderr s) (rs_stack s).
Definition rs_set_kinderr (err : option rlpError) (s : Stream) : Stream :=
  mkStream (rs_r s) (rs_remaining s) (rs_limited s) (rs_kind s) (rs_size s) (rs_byteval s) err (rs_stack s).
Definition rs_set_stack (st : list (Z * Z)) (s : Stream) : Stream :=
  mkStream (rs_r s) (rs_remaining s) (rs_limited s) (rs_kind s) (rs_size s) (rs_byteval s) (rs_kinderr s) st.

(** [NewStream] on a [bytes.Reader]: without a limit, the length is one. *)
Definition NewStream (r : bytes) (inputLimit : Z) : Stream :=
  mkStream r (if 0 <? inputLimit then inputLimit else len r) true None 0 Byte.x00 None [].

(** Stream operations change the stream and may fail. *)
Definition SM (A : Type) : Type := Stream -> outcome ((rlpError + A) * Stream).
Definition sm_ret {A} (x : A) : SM A := fun s => Done (inr x, s).
Definition sm_err {A} (err : rlpError) : SM A := fun s => Done (inl err, s).
Definition sm_bind {A B} (m : SM A) (k : A -> SM B) : SM B := fun s =>
  let* r := m s in
  match r with
  | (inl err, s) => Done (inl err, s)
  | (inr x, s) => k x s
  end.
(** The error, if any, as a value. *)
Definition sm_try {A} (m : SM A) : SM (rlpError + A) := fun s => let* r := m s in Done (inr r.1, r.2).
Definition sm_upd (f : Stream -> Stream) : SM unit := fun s => Done (inr tt, f s).
Definition sm_get : SM Stream := fun s => Done (inr s, s).
Notation "'let!' x ':=' m 'in' k" := (sm_bind m (fun x => k))
  (at level 10, x pattern, m at level 100, k at level 200,
   format "'[v' 'let!'  x  ':='  m  'in' '//' k ']'") : go_scope.

Definition willRead (n : Z) : SM unit := fun s =>
  let s := rs_rearm s in
  match rs_stack s with
  | (pos, sz) :: st =>
      if u64 (sz - pos) <? n then Done (inl ErrElemTooLarge, s)
      else
        let s := rs_set_stack ((u64 (pos + n), sz) :: st) s in
        if rs_limited s then
          if rs_remaining s <? n then Done (inl ErrValueTooLarge, s)
          else Done (inr tt, rs_set_remaining (u64 (rs_remaining s - n)) s)
        else Done (inr tt, s)
  | [] =>
      if rs_limited s then
        if rs_remaining s <? n then Done (inl ErrValueTooLarge, s)
        else Done (inr tt, rs_set_remaining (u64 (rs_remaining s - n)) s)
      else Done (inr tt, s)
  end.

Definition readByte : SM byte :=
  let! _ := willRead 1 in
  fun s => match rs_r s with
           | [] => Done (inl io_ErrUnexpectedEOF, s)
           | b :: r => Done (inr b, rs_set_r r s)
           end.

(** Reads a slice of [n] bytes: [make([]byte, n)] panics on a length that is
    not an [int]. *)
Definition readFull (n : Z) : SM bytes := fun s =>
  if two63 <=? n then GoPanic
  else (let! _ := willRead n in
        fun s => if len (rs_r s) <? n then Done (inl io_ErrUnexpectedEOF, rs_set_r [] s)
                 else Done (inr (take (Z.to_nat n) (rs_r s)), rs_set_r (drop (Z.to_nat n) (rs_r s)) s)) s.

(** [uintbuf] has eight bytes: a longer size would be out of range. *)
Definition readUint (sz : Z) : SM Z :=
  if sz =? 0 then let! _ := sm_upd rs_rearm in sm_ret 0
  else if sz =? 1 then let! b := readByte in sm_ret (b2z b)
  else if 8 <? sz then fun _ => GoPanic
  else
    let! buf := readFull sz in
    match buf with
    | x :: _ => if b2z x =? 0 then sm_err ErrCanonSize else sm_ret (big_SetBytes buf)
    | [] => fun _ => GoPanic
    end.

(** The size of a long string or list. *)
Definition readLongSize (k : Kind) (slen : Z) : SM (Kind * Z * option rlpError) :=
  let! r := sm_try (readUint slen) in
  sm_ret match r with
         | inl err => (k, 0, Some err)
         | inr sz => (k, sz, if sz <? 56 then Some ErrCanonSize else None)
         end.

(** The three results of [readKind]. *)
Definition readKind : SM (Kind * Z * option rlpError) :=
  let! r := sm_try readByte in
  let! s := sm_get in
  match r with
  | inl err =>
      let err := match rs_stack s with
                 | [] => match err with io_ErrUnexpectedEOF | ErrValueTooLarge => io_EOF | _ => err end
                 | _ => err
                 end in
      sm_ret (KByte, 0, Some err)
  | inr b =>
      let! _ := sm_upd (rs_set_byteval Byte.x00) in
      if b2z b <? 0x80 then let! _ := sm_upd (rs_set_byteval b) in sm_ret (KByte, 0, None)
      else if b2z b <? 0xB8 then sm_ret (KString, b2z b - 0x80, None)
      else if b2z b <? 0xC0 then readLongSize KString (b2z b - 0xB7)
      else if b2z b <? 0xF8 then sm_ret (KList, b2z b - 0xC0, None)
      else readLongSize KList (b2z b - 0xF7)
  end.

(** The error that [Kind] returns for a value of size [sz] ahead. *)
Definition fits (s : Stream) (tos : option (Z * Z)) (sz : Z) : option rlpError :=
  match tos with
  | None => if rs_limited s && (rs_remaining s <? sz) then Some ErrValueTooLarge else None
  | Some (pos, tsz) => if u64 (tsz - pos) <? sz then Some ErrElemTooLarge else None
  end.

Definition stream_Kind : SM (Kind * Z) :=
  let! s := sm_get in
  let! _ :=
    match rs_kind s with
    | Some _ => sm_ret tt
    | None =>
        let! _ := sm_upd (rs_set_kinderr None) in
        if match head (rs_stack s) with Some (pos, sz) => pos =? sz | None => false end then sm_err EOL
        else
          let! r := readKind in
          let '(k, sz, err) := r in
          let! s := sm_get in
          let err := match err with Some e => Some e | None => fits s (head (rs_stack s)) sz end in
          sm_upd (fun s => rs_set_kinderr err (rs_set_kind (Some k) sz s))
    end in
  fun s => match rs_kinderr s with
           | Some err => Done (inl err, s)
           | None => Done (inr (default KByte (rs_kind s), rs_size s), s)
           end.

Definition stream_Bytes : SM bytes :=
  let! ks := stream_Kind in
  let '(k, sz) := ks in
  match k with
  | KByte => let! s := sm_get in let! _ := sm_upd rs_rearm in sm_ret [rs_byteval s]
  | KString =>
      let! b := readFull sz in
      match b with
      | [x] => if b2z x <? 128 then sm_err ErrCanonSize else sm_ret b
      | _ => sm_ret b
      end
  | KList => sm_err ErrExpectedString
  end.

(** Reads the content and puts a new header in front of it. *)
Definition stream_Raw : SM bytes :=
  let! ks := stream_Kind in
  let '(k, sz) := ks in
  match k with
  | KByte => let! s := sm_get in let! _ := sm_upd rs_rearm in sm_ret [rs_byteval s]
  | KString => let! b := readFull sz in sm_ret (puthead 0x80 0xB7 sz ++ b)
  | KList => let! b := readFull sz in sm_ret (puthead 0xC0 0xF7 sz ++ b)
  end.

Definition stream_uint (maxbits : Z) : SM Z :=
  let! ks := stream_Kind in
  let '(k, sz) := ks in
  match k with
  | KByte =>
      let! s := sm_get in
      if b2z (rs_byteval s) =? 0 then sm_err ErrCanonInt
      else let! _ := sm_upd rs_rearm in sm_ret (b2z (rs_byteval s))
  | KString =>
      if maxbits / 8 <? sz then sm_err errUintOverflow
      else
        let! r := sm_try (readUint sz) in
        match r with
        | inl ErrCanonSize => sm_err ErrCanonInt
        | inl err => sm_err err
        | inr v => if (0 <? sz) && (v <? 128) then sm_err ErrCanonSize else sm_ret v
        end
  | KList => sm_err ErrExpectedString
  end.

Definition stream_Bool : SM bool :=
  let! num := stream_uint 8 in
  if num =? 0 then sm_ret false else if num =? 1 then sm_ret true else sm_err (errBoolValue num).

Definition stream_List : SM Z :=
  let! ks := stream_Kind in
  let '(k, sz) := ks in
  if decide (k = KList) then
    let! _ := sm_upd (fun s => rs_set_kind None 0 (rs_set_stack ((0, sz) :: rs_stack s) s)) in sm_ret sz
  else sm_err ErrExpectedList.

Definition stream_ListEnd : SM unit := fun s =>
  match rs_stack s with
  | [] => Done (inl errNotInList, s)
  | (pos, sz) :: st =>
      if negb (pos =? sz) then Done (inl errNotAtEOL, s)
      else
        let st := match st with (opos, osz) :: st => (u64 (opos + sz), osz) :: st | [] => [] end in
        Done (inr tt, rs_set_kind None 0 (rs_set_stack st s))
  end.

(** ** decode.go: values *)

Definition wrapStreamError (err : rlpError) : rlpError :=
  match err with
  | ErrCanonInt => decodeError msgCanonInt
  | ErrCanonSize => decodeError msgCanonSize
  | ErrExpectedList => decodeError msgExpectedList
  | ErrExpectedString => decodeError msgExpectedString
  | errUintOverflow => decodeError msgTooLong
  | errNotAtEOL => decodeError msgTooManyElements
  | err => err
  end.
Definition sm_wrap {A} (m : SM A) : SM A :=
  let! r := sm_try m in match r with inl err => sm_err (wrapStreamError err) | inr x => sm_ret x end.

Definition decodeBigInt : SM rval :=
  let! b := sm_wrap stream_Bytes in
  match b with
  | x :: _ => if b2z x =? 0 then sm_err (wrapStreamError ErrCanonInt) else sm_ret (VBig (big_SetBytes b))
  | [] => sm_ret (VBig (big_SetBytes b))
  end.

Definition decodeByteArray (vlen : Z) : SM rval :=
  let! ks := stream_Kind in
  let '(k, sz) := ks in
  match k with
  | KByte =>
      if vlen =? 0 then sm_err (decodeError msgTooLong)
      else if 1 <? vlen then sm_err (decodeError msgTooShort)
      else
        let! bv := sm_try (stream_uint 64) in
        sm_ret (VBytes [z2b match bv with inr n => n | inl _ => 0 end])
  | KString =>
      if vlen <? sz then sm_err (decodeError msgTooLong)
      else if sz <? vlen then sm_err (decodeError msgTooShort)
      else
        let! b := readFull vlen in
        match b with
        | [x] => if b2z x <? 128 then sm_err (wrapStreamError ErrCanonSize) else sm_ret (VBytes b)
        | _ => sm_ret (VBytes b)
        end
  | KList => sm_err (wrapStreamError ErrExpectedString)
  end.

(** Decodes elements until the end of the list. *)
Fixpoint decodeSliceElems (fuel : nat) (elemdec : SM rval) : SM (list rval) :=
  match fuel with
  | O => fun _ => NoFuel
  | S fuel =>
      let! r := sm_try elemdec in
      match r with
      | inl EOL => sm_ret []
      | inl err => sm_err err
      | inr v => let! l := decodeSliceElems fuel elemdec in sm_ret (v :: l)
      end
  end.

Definition decodeListSlice (fuel : nat) (elemdec : SM rval) : SM rval :=
  let! sz := sm_wrap stream_List in
  if sz =? 0 then let! _ := stream_ListEnd in sm_ret (VList [])
  else
    let! l := decodeSliceElems fuel elemdec in
    let! _ := stream_ListEnd in sm_ret (VList l).

(** The fields of a struct, in order. *)
Fixpoint decode_fields (decs : list (SM rval)) : SM (list rval) :=
  match decs with
  | [] => sm_ret []
  | dec :: decs =>
      let! r := sm_try dec in
      match r with
      | inl EOL => sm_err (decodeError msgTooFewElements)
      | inl err => sm_err err
      | inr v => let! l := decode_fields decs in sm_ret (v :: l)
      end
  end.
Definition decodeStruct (decs : list (SM rval)) : SM rval :=
  let! _ := sm_wrap stream_List in
  let! l := decode_fields decs in
  let! _ := sm_wrap stream_ListEnd in sm_ret (VList l).

(** [makeOptionalPtrDecoder]: an empty value is a nil pointer. *)
Definition decodeOptionalPtr (dec : SM rval) : SM rval :=
  let! r := sm_try stream_Kind in
  match r with
  | inl err => let! _ := sm_upd rs_rearm in sm_err err
  | inr (k, sz) =>
      if (sz =? 0) && negb (bool_decide (k = KByte)) then let! _ := sm_upd rs_rearm in sm_ret VNil
      else dec
  end.

Definition decodeInterface (fuel : nat) (rec : SM rval) : SM rval :=
  let! ks := stream_Kind in
  if decide (ks.1 = KList) then decodeListSlice fuel rec
  else let! b := stream_Bytes in sm_ret (VBytes b).

(** [makeDecoder].  The fuel bounds the depth and the length of lists. *)
Fixpoint rlp_decode (fuel : nat) (t : rtype) : SM rval :=
  match fuel with
  | O => fun _ => NoFuel
  | S fuel =>
      match t with
      | RawT => let! b := stream_Raw in sm_ret (VRaw b)
      | UintT bits => let! n := sm_wrap (stream_uint bits) in sm_ret (VUint n)
      | BoolT => let! b := sm_wrap stream_Bool in sm_ret (VBool b)
      | BigT => decodeBigInt
      | BytesT => let! b := sm_wrap stream_Bytes in sm_ret (VBytes b)
      | ArrayT n => decodeByteArray (Z.of_nat n)
      | SliceT t => decodeListSlice fuel (rlp_decode fuel t)
      | StructT ts => decodeStruct (map (rlp_decode fuel) ts)
      | PtrT t => rlp_decode fuel t
      | OptPtrT t => decodeOptionalPtr (rlp_decode fuel t)
      | IfaceT => decodeInterface fuel (rlp_decode fuel IfaceT)
      end
  end.

(** Enough fuel for an input: the depth of the type, and one per byte. *)
Fixpoint tdepth (t : rtype) : nat :=
  match t with
  | SliceT t | PtrT t | OptPtrT t => S (tdepth t)
  | StructT ts => S (foldr (fun t n => Nat.max (tdepth t) n) O ts)
  | _ => O
  end.
Definition rlp_fuel (t : rtype) (b : bytes) : nat := tdepth t + length b + 2.

Definition DecodeBytes (t : rtype) (b : bytes) : outcome (rlpError + rval) :=
  let* r := rlp_decode (rlp_fuel t b) t (NewStream b (len b)) in
  match r with
  | (inl err, _) => Done (inl err)
  | (inr v, s) => if 0 <? len (rs_r s) then Done (inl ErrMoreThanOneValue) else Done (inr v)
  end.
