(* ===== verification/RlpFacts.v ===== *)
(** What RLP values look like in bytes, and that the encoder produces it. *)
From S2P Require Import Prelude BigMath Rlp.

(** ** Minimal big-endian numbers *)

Lemma byte_length i n : 1 <= n -> 256 ^ (n - 1) <= i < 256 ^ n -> (BitLen i + 7) / 8 = n.
Proof.
  intros Hn [H1 H2]. change 256 with (2 ^ 8) in H1, H2. rewrite <-Z.pow_mul_r in H1, H2 by lia.
  assert (BitLen i <= 8 * n) by (apply BitLen_spec; lia).
  assert (~ BitLen i <= 8 * (n - 1)) by (intros ?%BitLen_spec; lia). zlia.
Qed.

Lemma be_fixed_big_Bytes n i : 1 <= n -> 256 ^ (n - 1) <= i < 256 ^ n -> be_fixed (Z.to_nat n) i = big_Bytes i.
Proof.
  intros Hn H. unfold big_Bytes. rewrite (byte_length i n) by done.
  rewrite Z.abs_eq; [done|]. pose proof (Z.pow_pos_nonneg 256 (n - 1)). lia.
Qed.

Lemma putint_big_Bytes i : 0 < i < 2 ^ 64 -> putint i = big_Bytes i.
Proof.
  intros Hi. unfold putint.
  destruct (Z.ltb_spec i (2 ^ 8)); [apply (be_fixed_big_Bytes 1); lia|].
  destruct (Z.ltb_spec i (2 ^ 16)); [apply (be_fixed_big_Bytes 2); lia|].
  destruct (Z.ltb_spec i (2 ^ 24)); [apply (be_fixed_big_Bytes 3); lia|].
  destruct (Z.ltb_spec i (2 ^ 32)); [apply (be_fixed_big_Bytes 4); lia|].
  destruct (Z.ltb_spec i (2 ^ 40)); [apply (be_fixed_big_Bytes 5); lia|].
  destruct (Z.ltb_spec i (2 ^ 48)); [apply (be_fixed_big_Bytes 6); lia|].
  destruct (Z.ltb_spec i (2 ^ 56)); [apply (be_fixed_big_Bytes 7); lia|].
  apply (be_fixed_big_Bytes 8); lia.
Qed.

Lemma big_SetBytes_cons x l : big_SetBytes (x :: l) = b2z x * 256 ^ len l + big_SetBytes l.
Proof.
  change (x :: l) with ([x] ++ l). by rewrite big_SetBytes_app.
Qed.

(** A byte string without leading zeros is the encoding of its value. *)
Definition no_lead (l : bytes) : Prop := match l with x :: _ => b2z x <> 0 | [] => True end.
Lemma big_Bytes_canonical l : no_lead l -> big_Bytes (big_SetBytes l) = l.
Proof.
  destruct l as [|x l]; intros Hx; [done|]. pose proof (big_SetBytes_range (x :: l)) as Hr.
  assert (Hl : len (x :: l) = len l + 1) by (unfold len; simpl; lia). pose proof (len_nonneg l) as Hn.
  rewrite <-(be_fixed_big_Bytes (len (x :: l))).
  - unfold len at 1. rewrite Nat2Z.id. apply be_fixed_big_SetBytes.
  - lia.
  - split; [|apply Hr]. rewrite Hl, Z.add_simpl_r, big_SetBytes_cons. simpl in Hx. pose proof (b2z_range x).
    pose proof (big_SetBytes_nonneg l). pose proof (Z.pow_pos_nonneg 256 (len l)). nia.
Qed.

Lemma big_Bytes_no_lead i : no_lead (big_Bytes i).
Proof.
  unfold no_lead. destruct (big_Bytes i) as [|x l] eqn:E; [done|]. intros Hx.
  pose proof (big_Bytes_value i) as Hv. rewrite E, big_SetBytes_cons, Hx in Hv.
  pose proof (big_SetBytes_range l) as Hr. pose proof (len_nonneg l) as Hn.
  pose proof (len_big_Bytes i) as Hl. rewrite E in Hl.
  assert (Hlen : len (x :: l) = len l + 1) by (unfold len; simpl; lia).
  assert (Hb : BitLen i <= 8 * len l).
  { apply BitLen_spec; [lia|]. rewrite Z.pow_mul_r by lia. change (2 ^ 8) with 256. lia. }
  zlia.
Qed.

Lemma big_Bytes_0 : big_Bytes 0 = [].
Proof. reflexivity. Qed.

(** ** Headers *)

Lemma putint_range i : 0 <= i < 2 ^ 64 -> 1 <= len (putint i) <= 8.
Proof. intros Hi. unfold putint. repeat case_match; rewrite len_be_fixed; lia. Qed.

(** One round of the loop of [intsize]. *)
Ltac intsize_step i b := destruct (Z.ltb_spec i b);
  [rewrite Z.div_small by lia; reflexivity|];
  match goal with |- context [?x / ?y =? 0] => destruct (Z.eqb_spec (x / y) 0); [zlia|] end.

Lemma intsize_putint i : 0 <= i < 2 ^ 64 -> intsize i = len (putint i).
Proof.
  intros Hi. unfold intsize, putint.
  assert (Hs : forall z, Z.shiftr z 8 = z / 256) by (intros; by rewrite Z.shiftr_div_pow2).
  cbn [intsize_loop]. rewrite !Hs, !Z.div_div by lia.
  intsize_step i (2 ^ 8). intsize_step i (2 ^ 16). intsize_step i (2 ^ 24). intsize_step i (2 ^ 32).
  intsize_step i (2 ^ 40). intsize_step i (2 ^ 48). intsize_step i (2 ^ 56).
  by rewrite Z.div_small by lia.
Qed.

Lemma headsize_puthead st lt sz : 0 <= sz < 2 ^ 64 -> headsize sz = len (puthead st lt sz).
Proof.
  intros Hs. unfold headsize, puthead. destruct (sz <? 56); [done|]. rewrite intsize_putint by done.
  unfold len. simpl. lia.
Qed.

Lemma puthead_range st lt sz : 0 <= sz < 2 ^ 64 -> 1 <= len (puthead st lt sz) <= 9.
Proof.
  intros Hs. unfold puthead. destruct (sz <? 56); [unfold len; simpl; lia|].
  pose proof (putint_range sz Hs). unfold len in *. simpl. lia.
Qed.

(** ** The encoding of values *)

Definition enc_str (b : bytes) : bytes :=
  match b with
  | [x] => if b2z x <=? 0x7F then [x] else puthead 0x80 0xB7 1 ++ b
  | _ => puthead 0x80 0xB7 (len b) ++ b
  end.
Definition enc_list (p : bytes) : bytes := puthead 0xC0 0xF7 (len p) ++ p.

Fixpoint enc_iface (v : rval) : bytes :=
  match v with
  | VBytes b => enc_str b
  | VList l => enc_list (concat (map enc_iface l))
  | _ => enc_list []
  end.

(** The encoding of a nil pointer to a [t]. *)
Fixpoint enc_nil (t : rtype) : bytes :=
  match t with
  | StructT _ | SliceT _ | IfaceT => enc_list []
  | RawT => []
  | PtrT t | OptPtrT t => enc_nil t
  | _ => enc_str []
  end.

Fixpoint enc (t : rtype) (v : rval) {struct t} : bytes :=
  match t, v with
  | RawT, VRaw b => b
  | UintT _, VUint n => enc_str (big_Bytes n)
  | BoolT, VBool b => enc_str (if b then [Byte.x01] else [])
  | BigT, VBig n => enc_str (big_Bytes n)
  | BytesT, VBytes b | ArrayT _, VBytes b => enc_str b
  | SliceT t, VList l => enc_list (concat (map (enc t) l))
  | StructT ts, VList l =>
      enc_list (concat (zip_with enc ts l))
  | PtrT t, _ | OptPtrT t, _ => match v with VNil => enc_nil t | _ => enc t v end
  | IfaceT, _ => enc_iface v
  | _, _ => enc_str []
  end.

(** The values of a type.  A pointer that is decoded as nil when it is empty
    holds a value with a non-empty encoding. *)
Fixpoint iface_ok (v : rval) : bool :=
  match v with VBytes _ => true | VList l => forallb iface_ok l | _ => false end.
Definition one_value (b : bytes) : Prop :=
  (exists x, b = [x] /\ b2z x < 0x80) \/ (exists c, b = puthead 0x80 0xB7 (len c) ++ c /\ len c < 2 ^ 64) \/
  (exists c, b = enc_list c /\ len c < 2 ^ 64).

Fixpoint has_type (t : rtype) (v : rval) {struct t} : Prop :=
  match t, v with
  | RawT, VRaw b => one_value b
  | UintT bits, VUint n => 0 <= n < 2 ^ bits /\ bits ∈ [8; 16; 32; 64]
  | BoolT, VBool _ => True
  | BigT, VBig n => 0 <= n
  | BytesT, VBytes _ => True
  | ArrayT n, VBytes b => length b = n /\ b <> [Byte.x00]
  | SliceT t, VList l => Forall (has_type t) l
  | StructT ts, VList l =>
      length ts = length l /\ foldr and True (zip_with has_type ts l)
  | PtrT t, _ => v <> VNil /\ has_type t v
  | OptPtrT t, VNil => enc_nil t <> []
  | OptPtrT t, _ => has_type t v /\ enc t v <> enc_str [] /\ enc t v <> enc_list []
  | IfaceT, _ => iface_ok v = true
  | _, _ => False
  end.

(** ** The encoder

    A writer emits string data and list headers; the buffer keeps them apart
    and [toBytes] puts them together. *)

Abbreviation tokens := (list (bytes + Z)).
Fixpoint strs (T : tokens) : bytes :=
  match T with [] => [] | inl b :: T => b ++ strs T | inr _ :: T => strs T end.
Fixpoint heads (off : Z) (T : tokens) : list listhead :=
  match T with
  | [] => []
  | inl b :: T => heads (off + len b) T
  | inr n :: T => {| lh_offset := off; lh_size := n |} :: heads off T
  end.
Fixpoint flat (T : tokens) : bytes :=
  match T with
  | [] => []
  | inl b :: T => b ++ flat T
  | inr n :: T => puthead 0xC0 0xF7 n ++ flat T
  end.
Fixpoint hsize (T : tokens) : Z :=
  match T with [] => 0 | inl _ :: T => hsize T | inr n :: T => len (puthead 0xC0 0xF7 n) + hsize T end.

Definition emit (T : tokens) (w : encbuf) : encbuf :=
  {| eb_str := eb_str w ++ strs T; eb_lheads := eb_lheads w ++ heads (len (eb_str w)) T;
     eb_lhsize := eb_lhsize w + hsize T |}.

Lemma strs_app T U : strs (T ++ U) = strs T ++ strs U.
Proof. induction T as [|[b|n] T IH]; simpl; rewrite ?IH, ?app_assoc; done. Qed.
Lemma flat_app T U : flat (T ++ U) = flat T ++ flat U.
Proof. induction T as [|[b|n] T IH]; simpl; rewrite ?IH, ?app_assoc; done. Qed.
Lemma hsize_app T U : hsize (T ++ U) = hsize T + hsize U.
Proof. induction T as [|[b|n] T IH]; simpl; rewrite ?IH; lia. Qed.
Lemma heads_app T U : forall off, heads off (T ++ U) = heads off T ++ heads (off + len (strs T)) U.
Proof.
  induction T as [|[b|n] T IH]; intros off; simpl; rewrite ?IH, ?len_app, ?Z.add_assoc; try done.
  by rewrite Z.add_0_r.
Qed.
Lemma flat_len T : len (flat T) = len (strs T) + hsize T.
Proof. induction T as [|[b|n] T IH]; simpl; rewrite ?len_app, ?IH; unfold len; simpl; lia. Qed.

Lemma emit_app T U w : emit (T ++ U) w = emit U (emit T w).
Proof.
  unfold emit. simpl. rewrite strs_app, heads_app, hsize_app, len_app, !app_assoc. f_equal. lia.
Qed.
Lemma emit_str b w : emit [inl b] w = eb_append b w.
Proof. unfold emit, eb_append. simpl. rewrite !app_nil_r. f_equal. lia. Qed.

(** [wr] emits tokens that flatten to [b]. *)
Definition emits (wr : writer) (b : bytes) : Prop :=
  exists T, (forall w, wr w = inr (emit T w)) /\ flat T = b /\ forall n, inr n ∈ T -> 0 <= n < 2 ^ 64.

Lemma emits_append b : emits (fun w => inr (eb_append b w)) b.
Proof.
  exists [inl b]. split; [intros; by rewrite emit_str|]. split; [apply app_nil_r|].
  by intros n Hn%list_elem_of_singleton.
Qed.

Lemma encodeString_eq b w : len b < 2 ^ 64 -> encodeString b w = eb_append (enc_str b) w.
Proof.
  intros Hb. assert (Hh : forall n, 0 <= n < 2 ^ 64 -> eb_append b (encodeStringHeader n w) =
    eb_append (puthead 0x80 0xB7 n ++ b) w).
  { intros n Hn. unfold encodeStringHeader, puthead, eb_append. rewrite u64_small by done.
    destruct (n <? 56); simpl; by rewrite <-app_assoc. }
  pose proof (len_nonneg b). unfold encodeString, enc_str.
  destruct b as [|x [|y b]]; [by apply Hh| |by apply Hh]. destruct (b2z x <=? 127); [done|by apply Hh].
Qed.
Lemma emits_string b : len b < 2 ^ 64 -> emits (fun w => inr (encodeString b w)) (enc_str b).
Proof.
  intros Hb. destruct (emits_append (enc_str b)) as (T & HT & HF & HN). exists T. split; [|done].
  intros w. by rewrite encodeString_eq, HT.
Qed.

Lemma enc_str_nil : enc_str [] = [z2b 0x80].
Proof. reflexivity. Qed.
Lemma enc_list_nil : enc_list [] = [z2b 0xC0].
Proof. reflexivity. Qed.

Lemma emits_all wrs bs : Forall2 emits wrs bs -> emits (write_all wrs) (concat bs).
Proof.
  induction 1 as [|wr b wrs bs (T & HT & HF & HN) _ (U & HU & HG & HM)].
  - exists []. split; [|split; [done|by intros n Hn%elem_of_nil]]. intros w. simpl. unfold emit. simpl. rewrite !app_nil_r, Z.add_0_r. by destruct w.
  - exists (T ++ U). split; [|split; [by rewrite flat_app, HF, HG|intros n [Hn|Hn]%elem_of_app; auto]].
    intros w. simpl. by rewrite HT, HU, emit_app.
Qed.

Lemma emits_list wrs b :
  emits (write_all wrs) b -> len b < 2 ^ 64 -> emits (writeList wrs) (enc_list b).
Proof.
  intros (T & HT & HF & HN) Hb. exists (inr (len b) :: T).
  split; [|split; [by rewrite <-HF|intros n [[= ->]|Hn]%elem_of_cons; [pose proof (len_nonneg b); lia|auto]]].
  intros w. unfold writeList, eb_list. rewrite HT. f_equal.
  unfold emit, eb_listEnd. simpl. rewrite <-app_assoc. cbn [app]. rewrite list_lookup_middle by done. simpl.
  rewrite insert_app_r_alt, Nat.sub_diag by lia. simpl.
  assert (Hs : eb_size {| eb_str := eb_str w ++ strs T;
      eb_lheads := eb_lheads w ++ {| lh_offset := len (eb_str w); lh_size := eb_lhsize w |} :: heads (len (eb_str w)) T;
      eb_lhsize := eb_lhsize w + hsize T |} - len (eb_str w) - eb_lhsize w = len b).
  { unfold eb_size. simpl. rewrite len_app, <-HF, flat_len. lia. }
  rewrite Hs. f_equal. pose proof (len_nonneg b).
  rewrite (u64_small (len b)) by done. rewrite <-(headsize_puthead 0xC0 0xF7) by lia. unfold headsize.
  destruct (len b <? 56); lia.
Qed.

(** Copying a chunk that fits over a buffer. *)
Lemma take_copy_at (out : bytes) pos b :
  0 <= pos -> pos + len b <= len out ->
  take (Z.to_nat (pos + len b)) (copy_at out pos b) = take (Z.to_nat pos) out ++ b.
Proof.
  intros H1 H2. unfold copy_at, len in *. rewrite (take_ge b) by lia.
  rewrite app_assoc. rewrite take_app_le by (rewrite length_app, length_take; lia).
  apply take_ge. rewrite length_app, length_take. lia.
Qed.

Lemma toBytes_loop_spec T : forall pre pend out pos,
  0 <= pos -> len out = pos + len pend + len (flat T) -> (forall n, inr n ∈ T -> 0 <= n < 2 ^ 64) ->
  toBytes_loop (heads (len pre + len pend) T) (pre ++ pend ++ strs T) out (len pre) pos =
    Done (take (Z.to_nat pos) out ++ pend ++ flat T).
Proof.
  induction T as [|[b|n] T IH]; intros pre pend out pos Hpos Hout Hn; cbn [heads toBytes_loop strs flat] in *;
    pose proof (len_nonneg pend) as Hpe; pose proof (len_nonneg pre) as Hpr.
  - f_equal. rewrite !app_nil_r in *. unfold len at 1. rewrite Nat2Z.id, drop_app_length.
    change (len []) with 0 in Hout.
    rewrite <-(take_copy_at out pos pend) by lia. rewrite take_ge; [done|].
    pose proof (len_copy_at out pos pend). unfold len in *. lia.
  - rewrite len_app in Hout. replace (len pre + len pend + len b) with (len pre + len (pend ++ b)) by (rewrite len_app; lia).
    replace (pre ++ pend ++ b ++ strs T) with (pre ++ (pend ++ b) ++ strs T) by (by rewrite <-app_assoc).
    rewrite IH; [by rewrite <-!app_assoc|done|rewrite len_app; lia|]. intros m Hm. apply Hn. by right.
  - rewrite len_app in Hout. pose proof (len_nonneg (flat T)). pose proof (len_nonneg (strs T)).
    assert (Hnn : 0 <= n < 2 ^ 64) by (apply Hn; by left). pose proof (puthead_range 0xC0 0xF7 n Hnn) as Hh.
    rewrite slice_done by (cbn [lh_offset]; rewrite ?len_app; lia). cbn [outcome_bind lh_offset].
    replace (len pre + len pend - len pre) with (len pend) by lia.
    replace (take (Z.to_nat (len pend)) (drop (Z.to_nat (len pre)) (pre ++ pend ++ strs T))) with pend
      by (unfold len; by rewrite !Nat2Z.id, drop_app_length, take_app_length).
    rewrite slice_done by lia. cbn [outcome_bind].
    rewrite (Z.min_r _ (len pend)) by (unfold len in *; rewrite length_take, length_drop; lia).
    unfold listhead_encode. cbn [lh_size]. rewrite u64_small by done.
    set (h := puthead _ _ n) in *. set (o1 := copy_at out pos pend).
    assert (L1 : len o1 = len out) by (apply len_copy_at; lia).
    destruct (Z.ltb_spec (len o1) (pos + len pend + len h)); [lia|].
    assert (L2 : len (copy_at o1 (pos + len pend) h) = len out) by (rewrite len_copy_at; lia).
    replace (pre ++ pend ++ strs T) with ((pre ++ pend) ++ [] ++ strs T) by (by rewrite <-app_assoc).
    assert (Hp : len pre + len pend = len (pre ++ pend) + @len byte []) by (rewrite len_app; unfold len; simpl; lia).
    rewrite Hp at 1. rewrite <-(len_app pre pend).
    rewrite IH; [|lia|rewrite L2; change (len []) with 0; lia|intros m Hm; apply Hn; by right].
    rewrite take_copy_at by lia. unfold o1. rewrite take_copy_at by lia. by rewrite <-!app_assoc.
Qed.

(** Induction on types and values with lists inside. *)
Lemma rtype_induction (P : rtype -> Prop) :
  P RawT -> (forall bits, P (UintT bits)) -> P BoolT -> P BigT -> P BytesT -> (forall n, P (ArrayT n)) ->
  (forall t, P t -> P (SliceT t)) -> (forall ts, Forall P ts -> P (StructT ts)) ->
  (forall t, P t -> P (PtrT t)) -> (forall t, P t -> P (OptPtrT t)) -> P IfaceT -> forall t, P t.
Proof.
  intros H1 H2 H3 H4 H5 H6 H7 H8 H9 H10 H11. fix IH 1. intros [|bits| | | |n|t|ts|t|t|];
    [exact H1|apply H2|exact H3|exact H4|exact H5|apply H6|apply H7, IH| |apply H9, IH|apply H10, IH|exact H11].
  apply H8. induction ts as [|t ts IHts]; constructor; [apply IH|exact IHts].
Qed.
Lemma iface_induction (P : rval -> Prop) :
  (forall b, P (VBytes b)) -> (forall l, Forall P l -> P (VList l)) ->
  forall v, iface_ok v = true -> P v.
Proof.
  intros H1 H2. fix IH 1. intros [b|n|b|n|b|l|]; simpl; try done.
  intros Hl. apply H2. induction l as [|v l IHl]; [constructor|]. simpl in Hl. apply andb_true_iff in Hl as [Hv Hl].
  constructor; [by apply IH|by apply IHl].
Qed.

Lemma len_enc_list p : len p < 2 ^ 64 -> len (enc_list p) = headsize (len p) + len p.
Proof.
  intros Hp. unfold enc_list. rewrite len_app, (headsize_puthead 0xC0 0xF7); [done|].
  pose proof (len_nonneg p). lia.
Qed.
Lemma len_enc_list_lt p n : len (enc_list p) < n -> len p < n.
Proof. unfold enc_list. rewrite len_app. pose proof (len_nonneg (puthead 0xC0 0xF7 (len p))). lia. Qed.
Lemma len_enc_str_lt b n : len (enc_str b) < n -> len b < n.
Proof.
  assert (Ha : forall sz, len (puthead 0x80 0xB7 sz ++ b) < n -> len b < n).
  { intros sz. rewrite len_app. pose proof (len_nonneg (puthead 0x80 0xB7 sz)). lia. }
  unfold enc_str. destruct b as [|x [|y b]]; try apply Ha. destruct (_ <=? _); [done|apply Ha].
Qed.
Lemma len_concat_elem (l : list bytes) b : b ∈ l -> len b <= len (concat l).
Proof.
  induction l as [|c l IH]; [by intros ?%elem_of_nil|]. intros [->|Hb]%elem_of_cons; simpl; rewrite len_app.
  - pose proof (len_nonneg (concat l)). lia.
  - specialize (IH Hb). pose proof (len_nonneg c). lia.
Qed.

(** The elements of a list, each with its writer. *)
Lemma emits_elems {A} (wr : A -> writer) (en : A -> bytes) l :
  (forall x, x ∈ l -> len (en x) < 2 ^ 64 -> emits (wr x) (en x)) ->
  len (enc_list (concat (map en l))) < 2 ^ 64 ->
  emits (writeList (map wr l)) (enc_list (concat (map en l))).
Proof.
  intros H Hlen%len_enc_list_lt. apply emits_list; [|done]. apply emits_all.
  assert (Hl : forall x, x ∈ l -> len (en x) < 2 ^ 64).
  { intros x Hx. eapply Z.le_lt_trans; [apply (len_concat_elem (map en l))|done].
    apply list_elem_of_fmap. by exists x. }
  clear Hlen. induction l as [|x l IH]; [constructor|]. simpl. constructor.
  - apply H; [by left|apply Hl; by left].
  - apply IH; [intros y Hy; apply H|intros y Hy; apply Hl]; by right.
Qed.

Lemma writeInterface_emits v :
  iface_ok v = true -> len (enc_iface v) < 2 ^ 64 -> emits (writeInterface v) (enc_iface v).
Proof.
  intros Hv. pattern v. revert v Hv. apply iface_induction.
  - intros b Hb. by apply emits_string, len_enc_str_lt.
  - intros l IH Hl. simpl. apply emits_elems; [|done]. rewrite Forall_forall in IH. exact IH.
Qed.

Lemma writeUint_eq n w : 0 <= n < 2 ^ 64 -> writeUint n w = eb_append (enc_str (big_Bytes n)) w.
Proof.
  intros Hn. unfold writeUint. destruct (Z.eqb_spec n 0) as [->|]; [done|].
  destruct (Z.ltb_spec n 128).
  - rewrite <-(be_fixed_big_Bytes 1) by lia. simpl. rewrite b2z_z2b, Z.mod_small by lia.
    by destruct (Z.leb_spec n 127); [|lia].
  - rewrite <-putint_big_Bytes by lia. pose proof (putint_range n Hn) as Hr. f_equal.
    unfold enc_str. destruct (putint n) as [|x [|y l]] eqn:E; [done| |].
    + assert (Hx : n < 2 ^ 8).
      { pose proof (big_Bytes_value n) as Hv. rewrite <-putint_big_Bytes, E in Hv by lia.
        unfold big_SetBytes in Hv. simpl in Hv. pose proof (b2z_range x). lia. }
      unfold putint in E. destruct (Z.ltb_spec n (2 ^ 8)); [|lia]. injection E as <-.
      rewrite b2z_z2b, Z.mod_small by lia. by destruct (Z.leb_spec n 127); [lia|].
    + unfold puthead. destruct (Z.ltb_spec (len (x :: y :: l)) 56); [done|lia].
Qed.

Lemma emits_eq wr wr' b : (forall w, wr w = wr' w) -> emits wr b -> emits wr' b.
Proof. intros E (T & HT & HF). exists T. split; [|done]. intros w. by rewrite <-E. Qed.

Lemma emits_nil t : emits (nilfunc t) (enc_nil t).
Proof.
  assert (HL : emits (writeList []) (enc_list [])) by (apply (emits_list [] []); [apply (emits_all [] []); constructor|done]).
  induction t using rtype_induction; simpl;
    first [exact HL|done|apply (emits_append [z2b 0x80])|apply (emits_append [z2b 0xC0])|by apply (emits_string [])|idtac].
  apply (emits_eq (fun w => inr (eb_append [] w))); [|apply emits_append].
  intros w. unfold eb_append. rewrite app_nil_r. by destruct w.
Qed.

Lemma emits_fields ts : forall l,
  Forall (fun t => forall v, has_type t v -> len (enc t v) < 2 ^ 64 -> emits (write t v) (enc t v)) ts ->
  length ts = length l -> foldr and True (zip_with has_type ts l) -> len (concat (zip_with enc ts l)) < 2 ^ 64 ->
  emits (write_all (zip_with write ts l)) (concat (zip_with enc ts l)).
Proof.
  intros l IH Hlen Ht Hb. apply emits_all. revert l Hlen Ht Hb.
  induction IH as [|t ts Hhd _ IH]; intros [|v l] Hlen Ht Hb; try done.
  simpl in *. destruct Ht as [Hv Ht]. rewrite len_app in Hb.
  pose proof (len_nonneg (enc t v)). pose proof (len_nonneg (concat (zip_with enc ts l))).
  constructor; [apply Hhd; [done|lia]|apply IH; [congruence|done|lia]].
Qed.

Lemma write_emits t : forall v, has_type t v -> len (enc t v) < 2 ^ 64 -> emits (write t v) (enc t v).
Proof.
  induction t as [|bits| | | |n|t IH|ts IH|t IH|t IH|] using rtype_induction; intros v Ht Hlen.
  - destruct v; try done. apply emits_append.
  - destruct v as [|n| | | | |]; try done. destruct Ht as [Hn Hb]. simpl.
    apply (emits_eq (fun w => inr (eb_append (enc_str (big_Bytes n)) w))); [|apply emits_append].
    intros w. rewrite writeUint_eq; [done|]. split; [lia|]. apply (Z.lt_le_trans _ (2 ^ bits)); [lia|].
    apply Z.pow_le_mono_r; [lia|]. repeat (apply elem_of_cons in Hb as [->|Hb]; [lia|]). by apply elem_of_nil in Hb.
  - destruct v as [| |b| | | |]; try done. destruct b; apply emits_append.
  - destruct v as [| | |n| | |]; try done. simpl in *.
    apply (emits_eq (fun w => inr (encodeString (big_Bytes n) w))).
    + intros w. unfold writeBigInt. destruct (Z.ltb_spec n 0); [lia|]. destruct (Z.eqb_spec n 0) as [->|]; [|done].
      by rewrite encodeString_eq.
    + by apply emits_string, len_enc_str_lt.
  - destruct v; try done. by apply emits_string, len_enc_str_lt.
  - destruct v; try done. by apply emits_string, len_enc_str_lt.
  - destruct v as [| | | | |l|]; try done. apply (emits_elems (write t) (enc t)); [|done].
    intros x Hx. apply IH. simpl in Ht. rewrite Forall_forall in Ht. auto.
  - destruct v as [| | | | |l|]; try done. destruct Ht as [Hl Ht]. simpl in *.
    rewrite Hl, Nat.eqb_refl. apply emits_list; [|by apply len_enc_list_lt].
    apply emits_fields; try done. by apply len_enc_list_lt.
  - destruct Ht as [Hnil Ht]. destruct v; try done; by apply IH.
  - destruct v; try (by apply IH; [apply Ht|done]). apply emits_nil.
  - apply writeInterface_emits; done.
Qed.

Lemma EncodeToBytes_spec t v :
  has_type t v -> len (enc t v) < 2 ^ 64 -> EncodeToBytes t v = Done (inr (enc t v)).
Proof.
  intros Ht Hlen. destruct (write_emits t v Ht Hlen) as (T & HT & HF & HN). unfold EncodeToBytes, toBytes.
  rewrite HT. unfold emit, eb_size. simpl.
  replace (len (strs T) + (0 + hsize T)) with (len (enc t v)) by (rewrite <-HF, flat_len; lia).
  rewrite (toBytes_loop_spec T [] []); [simpl; by rewrite HF|done| |done].
  rewrite len_zeros by apply len_nonneg. rewrite HF. unfold len. simpl. lia.
Qed.
