(* ===== verification/RlpDecodeFacts.v ===== *)
(** What the input stream of the decoder and the decoders of values do. *)
From S2P Require Import Prelude BigMath Rlp RlpDecode RlpFacts.

(** The operations of the stream: what they read and what they give back.

    [src s r st] says what is unread and which lists are open; a list is a
    pair of the position in it and its size, innermost first. *)

Implicit Types (s : Stream) (r h c : bytes) (st : list (Z * Z)).

(** ** States *)

Definition fok st : Prop := Forall (fun f => 0 <= f.1 <= f.2 /\ f.2 < 2 ^ 63) st.
Definition src s r st : Prop :=
  rs_r s = r /\ rs_limited s = true /\ rs_remaining s = len r /\ rs_stack s = st /\ fok st /\ len r < 2 ^ 63.
(** Between values. *)
Definition ready s r st : Prop := src s r st /\ rs_kind s = None.
(** After the header of a value. *)
Definition ahead s (k : Kind) (sz : Z) r st : Prop :=
  src s r st /\ rs_kind s = Some k /\ rs_size s = sz /\ rs_kinderr s = None.

(** [n] more bytes fit into the innermost list; the position after them. *)
Definition room st (n : Z) : Prop := match st with (p, z) :: _ => n <= z - p | [] => True end.
Definition adv (n : Z) st : list (Z * Z) := match st with (p, z) :: st => (p + n, z) :: st | [] => [] end.
Definition at_end st : Prop := match st with (p, z) :: _ => p = z | [] => False end.

Lemma room_adv st n m : room (adv n st) m <-> room st (n + m).
Proof. destruct st as [|[p z] st]; simpl; [done|]. lia. Qed.
Lemma adv_adv st n m : adv m (adv n st) = adv (n + m) st.
Proof. destruct st as [|[p z] st]; simpl; [done|]. do 2 f_equal. lia. Qed.
Lemma adv_0 st : adv 0 st = st.
Proof. destruct st as [|[p z] st]; simpl; [done|]. do 2 f_equal. lia. Qed.
Lemma fok_adv st n : 0 <= n -> room st n -> fok st -> fok (adv n st).
Proof.
  intros Hn Hr Hf. destruct st as [|[p z] st]; [done|]. inversion_clear Hf as [|? ? H1 H2]. simpl in *.
  constructor; [simpl; lia|done].
Qed.
#[export] Instance room_dec st n : Decision (room st n).
Proof. destruct st as [|[p z] st]; simpl; apply _. Defined.

(** ** Reading bytes *)

Lemma willRead_spec n s r st :
  src s r st -> 0 <= n ->
  if decide (room st n /\ n <= len r)
  then willRead n s = Done (inr tt, rs_set_remaining (len r - n) (rs_set_stack (adv n st) (rs_rearm s)))
  else exists err s', willRead n s = Done (inl err, s') /\ err <> EOL.
Proof.
  intros (Er & El & Em & Es & Hf & Hr) Hn. pose proof (len_nonneg r) as Hl.
  unfold willRead. cbn [rs_rearm rs_stack]. rewrite Es.
  destruct st as [|[p z] st]; cbn [rs_limited rs_remaining rs_rearm rs_stack rs_set_stack room adv].
  - rewrite El, Em. destruct (Z.ltb_spec (len r) n); case_decide as Hd; try (destruct Hd; lia).
    + by eexists _, _.
    + rewrite u64_small by (unfold is_u64; lia). do 2 f_equal. by destruct s; simpl in *; subst.
  - inversion_clear Hf as [|? ? Hp _]. simpl in Hp. rewrite u64_small by (unfold is_u64; lia).
    destruct (Z.ltb_spec (z - p) n); case_decide as Hd; try (destruct Hd; lia); [by eexists _, _| |].
    + rewrite El, Em. destruct (Z.ltb_spec (len r) n); [lia|].
      rewrite !u64_small by (unfold is_u64; lia). done.
    + rewrite El, Em. destruct (Z.ltb_spec (len r) n); [by eexists _, _|]. by destruct Hd.
Qed.

Lemma readByte_ok s b r st :
  src s (b :: r) st -> room st 1 ->
  exists s', readByte s = Done (inr b, s') /\ ready s' r (adv 1 st) /\ rs_byteval s' = rs_byteval s.
Proof.
  intros H Hroom. pose proof (willRead_spec 1 s _ st H ltac:(lia)) as Hw. unfold readByte, sm_bind.
  destruct H as (Er & El & Em & Es & Hf & Hr). pose proof (len_nonneg r).
  assert (Hc : len (b :: r) = len r + 1) by (unfold len; simpl; lia).
  rewrite decide_True in Hw by (split; [done|lia]). rewrite Hw. cbn. rewrite Er. eexists. split; [done|].
  split; [|done]. split; [|done]. repeat split; try done; cbn; try lia. by apply fok_adv.
Qed.
Lemma readByte_total s r st :
  src s r st ->
  (exists b r' s', r = b :: r' /\ room st 1 /\ readByte s = Done (inr b, s') /\ ready s' r' (adv 1 st) /\
                   rs_byteval s' = rs_byteval s) \/
  (exists err s', readByte s = Done (inl err, s') /\ err <> EOL /\ (r = [] \/ ~ room st 1)).
Proof.
  intros H. destruct r as [|b r].
  - right. pose proof (willRead_spec 1 s _ st H ltac:(lia)) as Hw. rewrite decide_False in Hw by (by intros [_ ?]).
    destruct Hw as (err & s' & Hw & He). unfold readByte, sm_bind. rewrite Hw. cbn. eexists _, _. by repeat split; [|left].
  - destruct (decide (room st 1)) as [Hroom|Hroom].
    + left. destruct (readByte_ok s b r st H Hroom) as (s' & E & R & B). by eexists _, _, _.
    + right. pose proof (willRead_spec 1 s _ st H ltac:(lia)) as Hw. rewrite decide_False in Hw by (by intros [? _]).
      destruct Hw as (err & s' & Hw & He). unfold readByte, sm_bind. rewrite Hw. cbn. eexists _, _. by repeat split; [|right].
Qed.

Lemma readFull_ok s c r st :
  src s (c ++ r) st -> room st (len c) ->
  exists s', readFull (len c) s = Done (inr c, s') /\ ready s' r (adv (len c) st).
Proof.
  intros H Hroom. pose proof (len_nonneg c) as Hc. pose proof (willRead_spec (len c) s _ st H Hc) as Hw.
  unfold readFull, sm_bind. destruct H as (Er & El & Em & Es & Hf & Hr). pose proof (len_nonneg r).
  rewrite len_app in *. destruct (Z.leb_spec two63 (len c)); [lia|].
  rewrite decide_True in Hw by (split; [done|lia]). rewrite Hw. cbn. rewrite Er, len_app.
  destruct (Z.ltb_spec (len c + len r) (len c)); [lia|]. unfold len at 1 2. rewrite Nat2Z.id.
  rewrite take_app_length, drop_app_length. eexists. split; [done|].
  split; [|done]. repeat split; try done; cbn; try lia. by apply fok_adv.
Qed.
Lemma readFull_total n s r st :
  src s r st -> 0 <= n < 2 ^ 63 ->
  (exists c r' s', r = c ++ r' /\ len c = n /\ room st n /\ readFull n s = Done (inr c, s') /\ ready s' r' (adv n st)) \/
  (exists err s', readFull n s = Done (inl err, s') /\ err <> EOL).
Proof.
  intros H Hn. destruct (decide (room st n /\ n <= len r)) as [[Hroom Hle]|Hd].
  - left. assert (Hl : len (take (Z.to_nat n) r) = n) by (unfold len in *; rewrite length_take; lia).
    rewrite <-(take_drop (Z.to_nat n) r) in H. rewrite <-Hl in Hroom.
    destruct (readFull_ok s _ _ st H Hroom) as (s' & E & R). rewrite Hl in *.
    exists (take (Z.to_nat n) r), (drop (Z.to_nat n) r), s'. by rewrite take_drop.
  - right. pose proof (willRead_spec n s _ st H ltac:(lia)) as Hw. rewrite decide_False in Hw by done.
    destruct Hw as (err & s' & Hw & He). unfold readFull, sm_bind.
    destruct (Z.leb_spec two63 n); [lia|]. rewrite Hw. cbn. by eexists _, _.
Qed.

(** ** Headers *)

Lemma readUint_ok s sz r st :
  0 < sz < 2 ^ 64 -> src s (putint sz ++ r) st -> room st (len (putint sz)) ->
  exists s', readUint (len (putint sz)) s = Done (inr sz, s') /\ ready s' r (adv (len (putint sz)) st).
Proof.
  intros Hsz H Hroom. pose proof (putint_range sz ltac:(lia)) as Hl. pose proof (big_Bytes_value sz) as Hv.
  pose proof (big_Bytes_no_lead sz) as Hz. rewrite <-putint_big_Bytes in Hv, Hz by lia. rewrite Z.abs_eq in Hv by lia.
  unfold readUint. destruct (Z.eqb_spec (len (putint sz)) 0); [lia|].
  destruct (Z.eqb_spec (len (putint sz)) 1) as [E|E].
  - destruct (putint sz) as [|b [|]]; try (unfold len in E; simpl in E; lia). rewrite E in *.
    destruct (readByte_ok s b r st H Hroom) as (s' & E' & R & _). exists s'. split; [|done].
    unfold sm_bind. rewrite E'. cbn. by rewrite <-Hv.
  - destruct (Z.ltb_spec 8 (len (putint sz))); [lia|].
    destruct (readFull_ok s _ r st H Hroom) as (s' & E' & R). exists s'. split; [|done].
    unfold sm_bind. rewrite E'. cbn. destruct (putint sz) as [|b l]; [unfold len in *; simpl in *; lia|].
    simpl in Hz. destruct (Z.eqb_spec (b2z b) 0); [done|]. by rewrite Hv.
Qed.
Lemma readUint_total n s r st :
  1 <= n <= 8 -> src s r st ->
  (exists c r' s', r = c ++ r' /\ len c = n /\ (n = 1 \/ no_lead c) /\ room st n /\
     readUint n s = Done (inr (big_SetBytes c), s') /\ ready s' r' (adv n st)) \/
  (exists err s', readUint n s = Done (inl err, s') /\ err <> EOL).
Proof.
  intros Hn H. unfold readUint. destruct (Z.eqb_spec n 0); [lia|]. destruct (Z.eqb_spec n 1) as [->|E].
  - unfold sm_bind. destruct (readByte_total s r st H) as [(b & r' & s' & -> & Hr & E & R & _)|(err & s' & E & He & _)].
    + left. exists [b], r', s'. rewrite E. cbn. do 2 (split; [done|]). by split; [left|].
    + right. rewrite E. by eexists _, _.
  - destruct (Z.ltb_spec 8 n); [lia|]. unfold sm_bind.
    destruct (readFull_total n s r st H ltac:(lia)) as [(c & r' & s' & -> & Hc & Hr & E' & R)|(err & s' & E' & He)].
    + rewrite E'. cbn. destruct c as [|b c]; [unfold len in Hc; simpl in Hc; lia|].
      destruct (Z.eqb_spec (b2z b) 0) as [Hz|Hz]; [right; by eexists _, _|].
      left. exists (b :: c), r', s'. do 2 (split; [done|]). by split; [right|].
    + right. rewrite E'. by eexists _, _.
Qed.

(** The header [h] of a value of kind [k] and size [sz]; a single byte [bv]
    is its own header. *)
Definition header (k : Kind) (sz : Z) (bv : byte) h : Prop :=
  match k with
  | KByte => sz = 0 /\ h = [bv] /\ b2z bv < 0x80
  | KString => 0 <= sz < 2 ^ 64 /\ h = puthead 0x80 0xB7 sz
  | KList => 0 <= sz < 2 ^ 64 /\ h = puthead 0xC0 0xF7 sz
  end.

Lemma readLongSize_ok k s sz r st :
  56 <= sz < 2 ^ 64 -> src s (putint sz ++ r) st -> room st (len (putint sz)) ->
  exists s', readLongSize k (len (putint sz)) s = Done (inr (k, sz, None), s') /\
    ready s' r (adv (len (putint sz)) st).
Proof.
  intros Hsz H Hroom. destruct (readUint_ok s sz r st ltac:(lia) H Hroom) as (s' & E & R). exists s'.
  split; [|done]. unfold readLongSize, sm_bind, sm_try. rewrite E. cbn. by destruct (Z.ltb_spec sz 56); [lia|].
Qed.

(** A size in its least number of bytes. *)
Lemma putint_canonical c n :
  len c = n -> 1 <= n <= 8 -> n = 1 \/ no_lead c -> 0 < big_SetBytes c -> putint (big_SetBytes c) = c.
Proof.
  intros Hc Hn Hl Hv. pose proof (big_SetBytes_range c) as Hr. rewrite Hc in Hr.
  assert (256 ^ n <= 256 ^ 8) by (apply Z.pow_le_mono_r; lia). change (256 ^ 8) with (2 ^ 64) in *.
  rewrite putint_big_Bytes by lia. apply big_Bytes_canonical. destruct Hl as [->|Hl]; [|done].
  destruct c as [|b [|]]; try (unfold len in Hc; simpl in Hc; lia). simpl.
  unfold big_SetBytes in Hv. simpl in Hv. lia.
Qed.

Lemma readLongSize_total k n s r st :
  1 <= n <= 8 -> src s r st ->
  exists sz e s', readLongSize k n s = Done (inr (k, sz, e), s') /\
    ((e = None /\ 56 <= sz < 2 ^ 64 /\ len (putint sz) = n /\ room st n /\
      exists r', r = putint sz ++ r' /\ ready s' r' (adv n st)) \/
     (exists err, e = Some err /\ err <> EOL)).
Proof.
  intros Hn H. unfold readLongSize, sm_bind, sm_try.
  destruct (readUint_total n s r st Hn H) as [(c & r' & s' & -> & Hc & Hl & Hr & E & R)|(err & s' & E & He)]; rewrite E; cbn.
  - eexists _, _, s'. split; [done|]. destruct (Z.ltb_spec (big_SetBytes c) 56) as [Hlt|Hge]; [right; by eexists|left].
    pose proof (putint_canonical c n Hc Hn Hl ltac:(lia)) as Hp. rewrite Hp.
    pose proof (big_SetBytes_range c) as Hb. rewrite Hc in Hb.
    assert (256 ^ n <= 256 ^ 8) by (apply Z.pow_le_mono_r; lia). change (256 ^ 8) with (2 ^ 64) in *.
    split; [done|]. split; [lia|]. do 2 (split; [done|]). by exists r'.
  - eexists _, _, s'. split; [done|]. right. by eexists.
Qed.

(** Running the monad. *)
Ltac sm_run := unfold sm_bind, sm_try, sm_get, sm_upd, sm_ret, sm_err in *; cbn [outcome_bind fst snd] in *.

Lemma src_byteval b s r st : src s r st -> src (rs_set_byteval b s) r st.
Proof. done. Qed.
Lemma ready_byteval b s r st : ready s r st -> ready (rs_set_byteval b s) r st.
Proof. done. Qed.

Lemma b2z_tag t n : 0 <= t + n < 256 -> b2z (z2b (t + n)) = t + n.
Proof. intros. rewrite b2z_z2b. by apply Z.mod_small. Qed.

(** Deciding comparisons of numbers by arithmetic. *)
Ltac ltb_true := match goal with |- context [?x <? ?y] => destruct (Z.ltb_spec x y); [|lia] end.
Ltac ltb_false := match goal with |- context [?x <? ?y] => destruct (Z.ltb_spec x y); [lia|] end.

Lemma readKind_ok s k sz bv h r st :
  src s (h ++ r) st -> header k sz bv h -> room st (len h) ->
  exists s', readKind s = Done (inr (k, sz, None), s') /\ ready s' r (adv (len h) st) /\
    (k = KByte -> rs_byteval s' = bv).
Proof.
  intros H Hh Hroom.
  assert (Hr1 : forall b h', h = b :: h' -> exists s1, readByte s = Done (inr b, s1) /\ ready s1 (h' ++ r) (adv 1 st) /\
    room (adv 1 st) (len h')).
  { intros b h' ->. assert (Hl : len (b :: h') = 1 + len h') by (unfold len; simpl; lia). rewrite Hl in Hroom.
    pose proof (len_nonneg h'). destruct (readByte_ok s b (h' ++ r) st H) as (s1 & E & R & _).
    { destruct st as [|[p z] st]; simpl in *; [done|lia]. }
    exists s1. split; [done|]. split; [done|]. by apply room_adv. }
  assert (Ha : forall b h', h = b :: h' -> adv (len h') (adv 1 st) = adv (len h) st).
  { intros b h' ->. rewrite adv_adv. f_equal. unfold len. simpl. lia. }
  unfold readKind. destruct k; simpl in Hh.
  - destruct Hh as (-> & -> & Hbv). destruct (Hr1 bv [] eq_refl) as (s1 & E & R & _). sm_run. rewrite E. cbn.
    destruct (Z.ltb_spec (b2z bv) 128); [|lia]. sm_run. eexists. split; [done|]. split; [|done].
    rewrite <-(Ha bv []), adv_0 by done. done.
  - destruct Hh as [Hsz Eh]. unfold puthead in Eh. destruct (Z.ltb_spec sz 56).
    + destruct (Hr1 _ _ Eh) as (s1 & E & R & _). sm_run. rewrite E. cbn. rewrite b2z_tag by lia.
      ltb_false. ltb_true. rewrite Z.add_simpl_l. sm_run. eexists. split; [done|]. split; [|done].
      rewrite <-(Ha _ [] Eh), adv_0. done.
    + pose proof (putint_range sz Hsz). destruct (Hr1 _ _ Eh) as (s1 & E & [R Rk] & Hroom1). sm_run. rewrite E. cbn.
      rewrite b2z_tag by lia. do 2 ltb_false. ltb_true. rewrite Z.add_simpl_l. sm_run.
      destruct (readLongSize_ok KString (rs_set_byteval Byte.x00 s1) sz r (adv 1 st)) as (s2 & E2 & R2);
        [lia|done|done|]. exists s2. split; [done|]. split; [|done]. by rewrite <-(Ha _ _ Eh).
  - destruct Hh as [Hsz Eh]. unfold puthead in Eh. destruct (Z.ltb_spec sz 56).
    + destruct (Hr1 _ _ Eh) as (s1 & E & R & _). sm_run. rewrite E. cbn. rewrite b2z_tag by lia.
      do 3 ltb_false. ltb_true. rewrite Z.add_simpl_l. sm_run. eexists. split; [done|]. split; [|done].
      rewrite <-(Ha _ [] Eh), adv_0. done.
    + pose proof (putint_range sz Hsz). destruct (Hr1 _ _ Eh) as (s1 & E & [R Rk] & Hroom1). sm_run. rewrite E. cbn.
      rewrite b2z_tag by lia. do 4 ltb_false. rewrite Z.add_simpl_l. sm_run.
      destruct (readLongSize_ok KList (rs_set_byteval Byte.x00 s1) sz r (adv 1 st)) as (s2 & E2 & R2);
        [lia|done|done|]. exists s2. split; [done|]. split; [|done]. by rewrite <-(Ha _ _ Eh).
Qed.

(** A header read: what it was and where the stream is. *)
Definition got_header s r st (k : Kind) (sz : Z) : Prop :=
  exists bv h r', r = h ++ r' /\ header k sz bv h /\ room st (len h) /\ ready s r' (adv (len h) st) /\
    (k = KByte -> rs_byteval s = bv).

Lemma got_header_long s r st k sz b n :
  0 <= n <= 8 -> k <> KByte ->
  b = z2b ((match k with KList => 0xF7 | _ => 0xB7 end) + n) ->
  56 <= sz < 2 ^ 64 -> len (putint sz) = n -> room (adv 1 st) n -> room st 1 ->
  ready s r (adv n (adv 1 st)) -> got_header s (b :: putint sz ++ r) st k sz.
Proof.
  intros Hn Hk Hb Hsz Hl Hroom Hroom1 R.
  exists Byte.x00, (b :: putint sz), r. assert (Hlh : len (b :: putint sz) = 1 + n) by (unfold len in *; simpl; lia).
  rewrite Hlh. split; [done|]. split; [|split; [by apply room_adv|split; [by rewrite adv_adv in R|done]]].
  unfold header, puthead. destruct k; [done| |]; (split; [lia|]); ltb_false; by rewrite Hl, <-Hb.
Qed.

Lemma readKind_total s r st :
  src s r st ->
  exists k sz e s', readKind s = Done (inr (k, sz, e), s') /\
    ((e = None /\ got_header s' r st k sz) \/ (exists err, e = Some err /\ err <> EOL)).
Proof.
  intros H. unfold readKind. sm_run.
  destruct (readByte_total s r st H) as [(b & r1 & s1 & -> & Hroom & E & [R Rk] & _)|(err & s1 & E & He & _)];
    rewrite E; cbn; sm_run.
  2:{ eexists _, _, _, _. split; [done|]. right. eexists. split; [done|].
      destruct (rs_stack s1); [|done]. by destruct err. }
  pose proof (b2z_range b) as Hb.
  assert (Hlong : forall k n, 1 <= n <= 8 -> k <> KByte -> b2z b = match k with KList => 0xF7 | _ => 0xB7 end + n ->
    exists k' sz e s', readLongSize k n (rs_set_byteval Byte.x00 s1) = Done (inr (k', sz, e), s') /\
      ((e = None /\ got_header s' (b :: r1) st k' sz) \/ (exists err, e = Some err /\ err <> EOL))).
  { intros k n Hn Hk Hbk.
    destruct (readLongSize_total k n (rs_set_byteval Byte.x00 s1) r1 (adv 1 st) Hn R) as (sz & e & s' & E' & H').
    eexists _, _, _, _. split; [done|]. destruct H' as [(-> & Hsz & Hl & Hr & r' & -> & R')|]; [left|by right].
    split; [done|]. apply (got_header_long s' r' st k sz b n); try done; [lia|]. by rewrite <-Hbk, z2b_b2z. }
  assert (Hshort : forall k sz s2, header k sz b [b] -> ready s2 r1 (adv 1 st) -> (k = KByte -> rs_byteval s2 = b) ->
    got_header s2 (b :: r1) st k sz).
  { intros k sz s2 Hh R2 Hbv. exists b, [b], r1. by do 4 (split; [done|]). }
  destruct (Z.ltb_spec (b2z b) 128); sm_run.
  { eexists _, _, _, _. split; [done|]. left. split; [done|]. by apply Hshort. }
  destruct (Z.ltb_spec (b2z b) 184); sm_run.
  { eexists _, _, _, _. split; [done|]. left. split; [done|]. apply Hshort; [|done|done].
    split; [lia|]. unfold puthead. ltb_true. replace (128 + (b2z b - 128)) with (b2z b) by lia. by rewrite z2b_b2z. }
  destruct (Z.ltb_spec (b2z b) 192); sm_run; [apply (Hlong KString); [lia|done|lia]|].
  destruct (Z.ltb_spec (b2z b) 248); sm_run; [|apply (Hlong KList); [lia|done|lia]].
  eexists _, _, _, _. split; [done|]. left. split; [done|]. apply Hshort; [|done|done].
  split; [lia|]. unfold puthead. ltb_true. replace (192 + (b2z b - 192)) with (b2z b) by lia. by rewrite z2b_b2z.
Qed.

(** ** Kind *)

Lemma fits_spec s r st sz :
  src s r st -> fits s (head (rs_stack s)) sz = None <-> match st with [] => sz <= len r | _ => room st sz end.
Proof.
  intros (Er & El & Em & Es & Hf & Hr). rewrite Es. unfold fits. destruct st as [|[p z] st]; simpl.
  - rewrite El, Em. simpl. destruct (Z.ltb_spec (len r) sz); split; (done || lia).
  - inversion_clear Hf as [|? ? Hp _]. simpl in Hp. rewrite u64_small by (unfold is_u64; lia).
    destruct (Z.ltb_spec (z - p) sz); split; (done || lia).
Qed.
Lemma fits_err s tos sz err : fits s tos sz = Some err -> err <> EOL.
Proof. unfold fits. destruct tos as [[p z]|]; case_match; intros [= <-]; done. Qed.

(** What fits: at the top level the input, in a list the list. *)
Definition fit st r sz : Prop := match st with [] => sz <= len r | _ => room st sz end.

Lemma stream_Kind_ready_ok s k sz bv h r st :
  ready s (h ++ r) st -> header k sz bv h -> room st (len h) -> 0 < len h -> fit (adv (len h) st) r sz ->
  exists s', stream_Kind s = Done (inr (k, sz), s') /\ ahead s' k sz r (adv (len h) st) /\
    (k = KByte -> rs_byteval s' = bv).
Proof.
  intros [H Hk] Hh Hroom Hpos Hfit.
  destruct (readKind_ok (rs_set_kinderr None s) k sz bv h r st H Hh Hroom) as (s1 & E & [R Rk] & Hbv).
  unfold stream_Kind. sm_run. rewrite Hk. cbn. destruct H as (Er & El & Em & Es & Hf & Hr). rewrite Es.
  assert (Hend : match head st with Some (p, z) => p =? z | None => false end = false).
  { destruct st as [|[p z] st]; [done|]. simpl in *. apply Z.eqb_neq. lia. }
  rewrite Hend. sm_run. rewrite E. cbn.
  assert (Hf1 : fits s1 (head (rs_stack s1)) sz = None) by (by eapply fits_spec).
  rewrite Hf1. cbn. eexists. split; [done|]. by repeat split; try apply R.
Qed.

Lemma stream_Kind_ahead s k sz r st : ahead s k sz r st -> stream_Kind s = Done (inr (k, sz), s).
Proof. intros (_ & Hk & Hs & He). unfold stream_Kind. sm_run. rewrite Hk. cbn. by rewrite He, Hk, Hs. Qed.

Lemma stream_Kind_total s r st :
  ready s r st ->
  (exists k sz bv h r' s', stream_Kind s = Done (inr (k, sz), s') /\ r = h ++ r' /\ header k sz bv h /\
     room st (len h) /\ fit (adv (len h) st) r' sz /\ ahead s' k sz r' (adv (len h) st) /\
     (k = KByte -> rs_byteval s' = bv)) \/
  (exists s', stream_Kind s = Done (inl EOL, s') /\ at_end st /\ ready s' r st) \/
  (exists err s', stream_Kind s = Done (inl err, s') /\ err <> EOL).
Proof.
  intros [H Hk]. unfold stream_Kind. sm_run. rewrite Hk. cbn.
  pose proof H as (Er & El & Em & Es & Hf & Hr). rewrite Es.
  destruct (match head st with Some (p, z) => p =? z | None => false end) eqn:Hend; sm_run.
  { right. left. eexists. split; [done|]. split; [|done]. destruct st as [|[p z] st]; [done|]. by apply Z.eqb_eq. }
  destruct (readKind_total (rs_set_kinderr None s) r st H) as (k & sz & e & s1 & E & Hcase). rewrite E. cbn.
  destruct Hcase as [(-> & bv & h & r' & -> & Hh & Hroom & [R Rk] & Hbv)|(err & -> & He)].
  - destruct (fits s1 (head (rs_stack s1)) sz) as [err|] eqn:Ef; cbn.
    + right. right. eexists _, _. split; [done|]. by eapply fits_err.
    + left. eexists k, sz, bv, h, r', _. split; [done|]. do 3 (split; [done|]).
      split; [by eapply fits_spec|]. split; [|done]. by repeat split; try apply R.
  - right. right. cbn. by eexists _, _.
Qed.

(** Decoding is exactly the inverse of encoding: a decoder accepts the
    encodings of the values of its type and nothing else, and it always
    ends. *)

Implicit Types (e : bytes).

(** ** What a decoder does

    [accepts m x e]: on input that begins with [e], [m] gives [x].
    [reads n m R]: on at most [n] bytes, [m] gives an [x] and has read an [e]
    with [R x e], or is at the end of the list, or fails. *)
Definition accepts {A} (m : SM A) (x : A) e : Prop :=
  forall s r st, ready s (e ++ r) st -> room st (len e) ->
    exists s', m s = Done (inr x, s') /\ ready s' r (adv (len e) st).

Definition fails {A} (m : SM A) s : Prop := exists err s', m s = Done (inl err, s') /\ err <> EOL.
Definition ends {A} (m : SM A) s r st : Prop :=
  exists s', m s = Done (inl EOL, s') /\ at_end st /\ ready s' r st.
Definition reads {A} (n : Z) (m : SM A) (R : A -> bytes -> Prop) : Prop :=
  forall s r st, ready s r st -> len r <= n ->
    (exists x e r' s', m s = Done (inr x, s') /\ R x e /\ 0 < len e /\ r = e ++ r' /\ room st (len e) /\
       ready s' r' (adv (len e) st)) \/
    ends m s r st \/ fails m s.

(** A decoder starts by looking at the kind of the value ahead, which it may
    have been told before. *)
Definition kind_first {A} (m : SM A) : Prop :=
  forall s, match stream_Kind s with
            | Done (inr _, s') => m s' = m s
            | Done (inl err, s') =>
                exists err' s'', m s = Done (inl err', s'') /\ (err' = EOL <-> err = EOL) /\
                  (s'' = s' \/ s'' = rs_rearm s')
            | _ => True
            end.

Lemma stream_Kind_idem s ks s' : stream_Kind s = Done (inr ks, s') -> stream_Kind s' = Done (inr ks, s').
Proof.
  intros E. assert (H : rs_kinderr s' = None /\ is_Some (rs_kind s') /\ ks = (default KByte (rs_kind s'), rs_size s')).
  { unfold stream_Kind in E. sm_run. destruct (rs_kind s) as [k|] eqn:Ek; cbn in E.
    - destruct (rs_kinderr s) eqn:Ee; [done|]. injection E as <- <-. by rewrite Ek.
    - destruct (match head (rs_stack s) with Some _ => _ | None => _ end); sm_run; [done|].
      destruct (readKind _) as [[[err|[[k sz] err]] s1]| |]; try done; cbn in E.
      destruct (match err with Some e => Some e | None => _ end); cbn in E; [done|]. by injection E as <- <-. }
  destruct H as (He & [k Hk] & ->). unfold stream_Kind. sm_run. rewrite Hk. cbn. by rewrite He, Hk.
Qed.

Lemma kf_Kind : kind_first stream_Kind.
Proof.
  intros s. destruct (stream_Kind s) as [[[err|ks] s']| |] eqn:E; try done.
  - exists err, s'. by repeat split; [..|left].
  - by apply (stream_Kind_idem s).
Qed.
Lemma kf_bind {A B} (m : SM A) (k : A -> SM B) : kind_first m -> kind_first (sm_bind m k).
Proof.
  intros H s. specialize (H s). destruct (stream_Kind s) as [[[err|ks] s']| |]; try done.
  - destruct H as (err' & s'' & E & ?). exists err', s''. unfold sm_bind. by rewrite E.
  - unfold sm_bind. by rewrite H.
Qed.
Lemma wrap_EOL err : wrapStreamError err = EOL <-> err = EOL.
Proof. by destruct err. Qed.
Lemma kf_wrap {A} (m : SM A) : kind_first m -> kind_first (sm_wrap m).
Proof.
  intros H s. specialize (H s). destruct (stream_Kind s) as [[[err|ks] s']| |]; try done.
  - destruct H as (err' & s'' & E & Heq & Hs). exists (wrapStreamError err'), s''.
    unfold sm_wrap. sm_run. rewrite E. cbn. split; [done|]. by rewrite wrap_EOL.
  - unfold sm_wrap. sm_run. by rewrite H.
Qed.
Lemma kf_OptionalPtr dec : kind_first dec -> kind_first (decodeOptionalPtr dec).
Proof.
  intros H s. specialize (H s). unfold decodeOptionalPtr. sm_run.
  destruct (stream_Kind s) as [[[err|ks] s']| |] eqn:E; try done.
  - cbn. exists err, (rs_rearm s'). by repeat split; [..|right].
  - by rewrite (stream_Kind_idem s ks s') by done.
Qed.

Create HintDb rlp.
#[export] Hint Resolve kf_Kind kf_bind kf_wrap kf_OptionalPtr : rlp.

(** At the end of a list such a decoder says so. *)
Lemma kf_ends {A} (m : SM A) s r st : kind_first m -> ready s r st -> at_end st -> ends m s r st.
Proof.
  intros H R Hend. specialize (H s).
  assert (E : exists s', stream_Kind s = Done (inl EOL, s') /\ ready s' r st).
  { destruct R as [Hs Hk]. unfold stream_Kind. sm_run. rewrite Hk. cbn. pose proof Hs as (_ & _ & _ & Es & _). rewrite Es.
    destruct st as [|[p z] st]; [done|]. simpl in Hend. subst z. cbn. rewrite Z.eqb_refl. cbn.
    eexists. split; [done|]. by split. }
  destruct E as (s' & E & R'). rewrite E in H. destruct H as (err & s'' & Em & He & Hs).
  exists s''. rewrite (proj2 He) in Em by done. split; [done|]. split; [done|]. destruct Hs as [->| ->]; [done|]. by destruct R'.
Qed.

(** ** Strings *)

Lemma enc_str_cases b :
  (exists x, b = [x] /\ b2z x < 0x80 /\ enc_str b = [x]) \/
  (enc_str b = puthead 0x80 0xB7 (len b) ++ b /\ forall x, b = [x] -> 0x80 <= b2z x).
Proof.
  unfold enc_str. destruct b as [|x [|y b]]; [by right| |by right].
  destruct (Z.leb_spec (b2z x) 127); [left; exists x|right].
  - split; [done|]. split; [lia|done].
  - split; [done|]. intros ? [= <-]. lia.
Qed.

(** The content of a value that is ahead. *)
Lemma fit_content h c r st : room st (len h + len c) -> fit (adv (len h) st) (c ++ r) (len c).
Proof.
  intros Hr. unfold fit. destruct st as [|[p z] st]; simpl in *; [|lia].
  rewrite len_app. pose proof (len_nonneg r). lia.
Qed.
Lemma room_le st n m : 0 <= n <= m -> room st m -> room st n.
Proof. destruct st as [|[p z] st]; simpl; lia. Qed.

Lemma header_pos k sz bv h : header k sz bv h -> 1 <= len h <= 9.
Proof.
  destruct k; simpl.
  - intros (_ & -> & _). unfold len. simpl. lia.
  - intros [Hs ->]. by apply puthead_range.
  - intros [Hs ->]. by apply puthead_range.
Qed.

(** Looking at a header whose content follows. *)
Lemma Kind_content s k sz bv h c r st :
  ready s (h ++ c ++ r) st -> header k sz bv h -> sz = len c -> room st (len h + len c) ->
  exists s', stream_Kind s = Done (inr (k, sz), s') /\ ahead s' k sz (c ++ r) (adv (len h) st) /\
    (k = KByte -> rs_byteval s' = bv) /\ room (adv (len h) st) (len c).
Proof.
  intros R Hh -> Hr. pose proof (header_pos _ _ _ _ Hh). pose proof (len_nonneg c).
  destruct (stream_Kind_ready_ok s k (len c) bv h (c ++ r) st R Hh) as (s' & E & A & Hb).
  - eapply room_le; [|exact Hr]. lia.
  - lia.
  - by apply fit_content.
  - exists s'. do 3 (split; [done|]). by apply room_adv.
Qed.

Lemma ahead_src s k sz r st : ahead s k sz r st -> src s r st.
Proof. by intros [? _]. Qed.
Lemma ahead_rearm s k sz r st : ahead s k sz r st -> ready (rs_rearm s) r st.
Proof. by intros [? _]. Qed.

Lemma accepts_bytes b : len b < 2 ^ 63 -> accepts stream_Bytes b (enc_str b).
Proof.
  intros Hlen s r st R Hroom. unfold stream_Bytes. sm_run.
  destruct (enc_str_cases b) as [(x & -> & Hx & E)|[E Hx]]; rewrite E in *.
  - destruct (Kind_content s KByte 0 x [x] [] r st R) as (s' & -> & A & Hb & _); [done|done|done|]. cbn.
    rewrite Hb by done. eexists. split; [done|]. by eapply ahead_rearm.
  - rewrite <-app_assoc in R. rewrite len_app in Hroom. pose proof (len_nonneg b).
    destruct (Kind_content s KString (len b) Byte.x00 _ b r st R) as (s' & -> & A & _ & Hr2);
      [split; [lia|done]|done|done|]. cbn.
    destruct (readFull_ok s' b r _ (ahead_src _ _ _ _ _ A) Hr2) as (s2 & -> & R2). cbn.
    rewrite adv_adv, <-len_app in R2. exists s2. split; [|done].
    destruct b as [|x [|y b]]; try done. destruct (Z.ltb_spec (b2z x) 128); [|done].
    specialize (Hx x eq_refl). lia.
Qed.

(** The decoder [K] of what follows a header [h]. *)
Definition reads_content {A} s h r st (m : SM A) (R : A -> bytes -> Prop) : Prop :=
  (exists x c r' s', m s = Done (inr x, s') /\ R x (h ++ c) /\ r = c ++ r' /\ room (adv (len h) st) (len c) /\
     ready s' r' (adv (len c) (adv (len h) st))) \/
  fails m s.

Lemma reads_kind {A} n (K : Kind * Z -> SM A) (R : A -> bytes -> Prop) :
  (forall s k sz bv h r st,
     header k sz bv h -> room st (len h) -> fit (adv (len h) st) r sz -> ahead s k sz r (adv (len h) st) ->
     (k = KByte -> rs_byteval s = bv) -> len h + len r <= n -> reads_content s h r st (K (k, sz)) R) ->
  reads n (let! ks := stream_Kind in K ks) R.
Proof.
  intros HK s r st Rd Hn. unfold ends, fails. sm_run.
  destruct (stream_Kind_total s r st Rd)
    as [(k & sz & bv & h & r' & s' & E & -> & Hh & Hroom & Hfit & A1 & Hbv)|[(s' & E & Hend & R')|(err & s' & E & He)]];
    rewrite E; cbn.
  - rewrite len_app in Hn. pose proof (header_pos _ _ _ _ Hh). pose proof (len_nonneg r').
    destruct (HK s' k sz bv h r' st Hh Hroom Hfit A1 Hbv ltac:(lia)) as [(x & c & r2 & s2 & E2 & HR & -> & Hr2 & R2)|(err & s2 & E2 & He)].
    + left. pose proof (len_nonneg c). exists x, (h ++ c), r2, s2. rewrite len_app, app_assoc. split; [done|].
      split; [done|]. split; [lia|]. split; [done|]. split; [by apply room_adv|]. by rewrite adv_adv in R2.
    + right. right. by exists err, s2.
  - right. left. by exists s'.
  - right. right. by exists err, s'.
Qed.

(** An equal decoder, a larger relation. *)
Lemma reads_mono {A} n m (R R' : A -> bytes -> Prop) :
  (forall x e, len e <= n -> R x e -> R' x e) -> reads n m R -> reads n m R'.
Proof.
  intros HR H s r st Rd Hn. destruct (H s r st Rd Hn) as [(x & e & r' & s' & E & HX & Hp & -> & Hroom & R2)|H']; [left|by right].
  exists x, e, r', s'. split; [done|]. split; [|done]. apply HR; [|done]. rewrite len_app in Hn.
  pose proof (len_nonneg r'). lia.
Qed.
Lemma reads_wrap {A} n (m : SM A) R : reads n m R -> reads n (sm_wrap m) R.
Proof.
  intros H s r st Rd Hn. unfold sm_wrap, ends, fails. sm_run.
  destruct (H s r st Rd Hn) as [(x & e & r' & s' & E & HX)|[(s' & E & Hend & R')|(err & s' & E & He)]]; rewrite E; cbn.
  - left. by exists x, e, r', s'.
  - right. left. by exists s'.
  - right. right. exists (wrapStreamError err), s'. split; [done|]. by rewrite wrap_EOL.
Qed.
Lemma reads_map {A B} n (m : SM A) (f : A -> B) (R : A -> bytes -> Prop) (R' : B -> bytes -> Prop) :
  (forall x e, R x e -> R' (f x) e) -> reads n m R -> reads n (let! x := m in sm_ret (f x)) R'.
Proof.
  intros Hf H s r st Rd Hn. unfold ends, fails. sm_run.
  destruct (H s r st Rd Hn) as [(x & e & r' & s' & E & HX & Hrest)|[(s' & E & Hend & Rd')|(err & s' & E & He)]]; rewrite E; cbn.
  - left. exists (f x), e, r', s'. split; [done|]. split; [by apply Hf|done].
  - right. left. by exists s'.
  - right. right. by exists err, s'.
Qed.
Lemma accepts_wrap {A} (m : SM A) x e : accepts m x e -> accepts (sm_wrap m) x e.
Proof.
  intros H s r st R Hr. destruct (H s r st R Hr) as (s' & E & R'). exists s'. split; [|done].
  unfold sm_wrap. sm_run. by rewrite E.
Qed.
Lemma accepts_map {A B} (m : SM A) (f : A -> B) x e :
  accepts m x e -> accepts (let! x := m in sm_ret (f x)) (f x) e.
Proof.
  intros H s r st R Hr. destruct (H s r st R Hr) as (s' & E & R'). exists s'. split; [|done]. sm_run. by rewrite E.
Qed.

(** The content of a string of the size announced, or a failure. *)
Lemma content_read s k sz bv h r st :
  header k sz bv h -> k <> KByte -> fit (adv (len h) st) r sz -> ahead s k sz r (adv (len h) st) ->
  (exists c r' s', readFull sz s = Done (inr c, s') /\ r = c ++ r' /\ len c = sz /\ room (adv (len h) st) sz /\
     ready s' r' (adv sz (adv (len h) st))) \/ fails (readFull sz) s.
Proof.
  intros Hh Hk Hfit [A1 _].
  assert (Hsz : 0 <= sz < 2 ^ 63).
  { assert (0 <= sz) by (destruct k; simpl in Hh; [done|lia|lia]). split; [done|].
    destruct A1 as (_ & _ & _ & _ & Hf & Hlen). unfold fit in Hfit. destruct (adv (len h) st) as [|[p z] st'] eqn:Ea; [lia|].
    simpl in Hfit. inversion_clear Hf as [|? ? Hp _]. simpl in Hp. lia. }
  destruct (readFull_total sz s r _ A1 Hsz) as [(c & r' & s' & -> & Hc & Hroom & E & R)|H]; [left|by right].
  by exists c, r', s'.
Qed.

Lemma reads_bytes n : reads n stream_Bytes (fun b e => e = enc_str b).
Proof.
  apply reads_kind. intros s k sz bv h r st Hh Hroom Hfit A1 Hbv Hn. unfold reads_content. destruct k.
  - destruct Hh as (-> & -> & Hb). left. sm_run. exists [bv], [], r, (rs_rearm s). rewrite Hbv by done.
    split; [done|]. split; [|split; [done|]].
    + unfold enc_str. by destruct (Z.leb_spec (b2z bv) 127); [|lia].
    + split; [|rewrite adv_0; by eapply ahead_rearm]. change (len []) with 0.
      destruct st as [|[p z] st]; simpl in *; [done|]. unfold len in Hroom. simpl in Hroom. unfold len. simpl. lia.
  - destruct (content_read s KString sz bv h r st Hh ltac:(done) Hfit A1)
      as [(c & r' & s' & E & -> & Hc & Hr & R)|(err & s' & E & He)]; sm_run; unfold fails; rewrite E; cbn.
    2:{ right. by exists err, s'. }
    destruct Hh as [_ ->]. subst sz.
    assert (Hd : (exists x, c = [x] /\ b2z x < 128) \/ enc_str c = puthead 128 183 (len c) ++ c).
    { destruct (enc_str_cases c) as [(x & -> & Hx & _)|[E' _]]; [left; by exists x|by right]. }
    destruct Hd as [(x & -> & Hx)|Hd].
    + right. destruct (Z.ltb_spec (b2z x) 128); [|lia]. by exists ErrCanonSize, s'.
    + destruct c as [|x [|y c]]; [left|destruct (Z.ltb_spec (b2z x) 128); [right; by exists ErrCanonSize, s'|left]|left];
        eexists _, _, r', s'; (split; [reflexivity|]); by rewrite Hd.
  - right. sm_run. by exists ErrExpectedString, s.
Qed.

(** ** Integers *)

Definition uint_bits (bits : Z) : Prop := bits ∈ [8; 16; 32; 64].
Lemma uint_bits_cases bits : uint_bits bits -> 8 <= bits <= 64 /\ bits = 8 * (bits / 8).
Proof.
  unfold uint_bits. rewrite !elem_of_cons, elem_of_nil. intros [->|[->|[->|[->|[]]]]]; done.
Qed.

Lemma big_Bytes_byte n : 0 < n < 256 -> big_Bytes n = [z2b n].
Proof. intros Hn. by rewrite <-(be_fixed_big_Bytes 1) by lia. Qed.

(** The encoding of a number, by its size. *)
Lemma enc_uint_cases n :
  0 <= n ->
  (n = 0 /\ enc_str (big_Bytes n) = puthead 0x80 0xB7 0) \/
  (0 < n < 128 /\ enc_str (big_Bytes n) = [z2b n]) \/
  (128 <= n /\ enc_str (big_Bytes n) = puthead 0x80 0xB7 (len (big_Bytes n)) ++ big_Bytes n).
Proof.
  intros Hn. destruct (Z.eqb_spec n 0) as [->|]; [by left|right]. destruct (Z.ltb_spec n 128).
  - left. split; [lia|]. rewrite big_Bytes_byte by lia. simpl. rewrite b2z_z2b, Z.mod_small by lia.
    by destruct (Z.leb_spec n 127); [|lia].
  - right. split; [done|]. destruct (enc_str_cases (big_Bytes n)) as [(x & Ex & Hx & _)|[E _]]; [|done].
    pose proof (big_Bytes_value n) as Hv. rewrite Ex in Hv. unfold big_SetBytes in Hv. simpl in Hv. lia.
Qed.

Lemma big_Bytes_len_bound n k : 0 <= k -> 0 <= n < 256 ^ k -> len (big_Bytes n) <= k.
Proof.
  intros Hk Hn. rewrite len_big_Bytes. assert (BitLen n <= 8 * k); [|zlia].
  apply BitLen_spec; [lia|]. rewrite Z.pow_mul_r by lia. change (2 ^ 8) with 256. lia.
Qed.

Lemma accepts_uint bits n :
  uint_bits bits -> 0 <= n < 2 ^ bits -> accepts (stream_uint bits) n (enc_str (big_Bytes n)).
Proof.
  intros Hb Hn s r st R Hroom. destruct (uint_bits_cases bits Hb) as [Hb1 Hb2].
  unfold stream_uint. sm_run. destruct (enc_uint_cases n ltac:(lia)) as [[-> E]|[[Hr E]|[Hr E]]]; rewrite E in *.
  - destruct (Kind_content s KString 0 Byte.x00 _ [] r st R) as (s' & -> & A & _ & _); [done|done|done|]. cbn.
    destruct (Z.ltb_spec (bits / 8) 0); [zlia|]. cbn. eexists. split; [done|]. by eapply ahead_rearm.
  - destruct (Kind_content s KByte 0 (z2b n) [z2b n] [] r st R) as (s' & -> & A & Hbv & _); [|done|done|].
    { simpl. split; [done|]. split; [done|]. rewrite b2z_z2b, Z.mod_small; lia. }
    cbn. rewrite Hbv, b2z_z2b, Z.mod_small by (done || lia). destruct (Z.eqb_spec n 0); [lia|]. cbn.
    eexists. split; [done|]. by eapply ahead_rearm.
  - assert (Hlt : n < 2 ^ 64) by (assert (2 ^ bits <= 2 ^ 64) by (apply Z.pow_le_mono_r; lia); lia).
    pose proof (big_Bytes_len_bound n (bits / 8) ltac:(zlia)) as Hl. rewrite <-putint_big_Bytes in * by lia.
    change 256 with (2 ^ 8) in Hl. rewrite <-Z.pow_mul_r, <-Hb2 in Hl by zlia. specialize (Hl ltac:(lia)).
    pose proof (putint_range n ltac:(lia)). rewrite <-app_assoc in R. rewrite len_app in Hroom.
    destruct (Kind_content s KString (len (putint n)) Byte.x00 _ (putint n) r st R) as (s' & -> & A & _ & Hr2);
      [split; [lia|done]|done|done|]. cbn.
    destruct (Z.ltb_spec (bits / 8) (len (putint n))); [lia|]. sm_run.
    destruct (readUint_ok s' n r _ ltac:(lia) (ahead_src _ _ _ _ _ A) Hr2) as (s2 & -> & R2). cbn.
    destruct (Z.ltb_spec n 128); [lia|]. rewrite andb_false_r. exists s2. split; [done|].
    by rewrite adv_adv, <-len_app in R2.
Qed.

Lemma reads_uint m bits :
  uint_bits bits -> reads m (stream_uint bits) (fun n e => 0 <= n < 2 ^ bits /\ e = enc_str (big_Bytes n)).
Proof.
  intros Hb. destruct (uint_bits_cases bits Hb) as [Hb1 Hb2]. apply reads_kind.
  intros s k sz bv h r st Hh Hroom Hfit A1 Hbv Hm. unfold reads_content, fails. destruct k.
  - destruct Hh as (-> & -> & Hx). sm_run. rewrite Hbv by done.
    destruct (Z.eqb_spec (b2z bv) 0); cbn; [right; by exists ErrCanonInt, s|left].
    pose proof (b2z_range bv). assert (2 ^ 8 <= 2 ^ bits) by (apply Z.pow_le_mono_r; lia).
    exists (b2z bv), [], r, (rs_rearm s). split; [done|]. split; [split; [lia|]|].
    + destruct (enc_uint_cases (b2z bv) ltac:(lia)) as [[? _]|[[_ ->]|[? _]]]; [lia| |lia]. by rewrite z2b_b2z.
    + split; [done|]. change (len []) with 0. split; [|rewrite adv_0; by eapply ahead_rearm].
      apply room_adv. by rewrite Z.add_0_r.
  - sm_run. destruct Hh as [Hsz ->]. destruct (Z.ltb_spec (bits / 8) sz); sm_run; [right; by exists errUintOverflow, s|].
    destruct (Z.eqb_spec sz 0) as [->|Hz].
    + left. exists 0, [], r, (rs_rearm s). split; [done|]. split; [split; [lia|done]|]. split; [done|].
      change (len []) with 0. split; [|rewrite adv_0; by eapply ahead_rearm]. apply room_adv. by rewrite Z.add_0_r.
    + destruct (readUint_total sz s r _ ltac:(lia) (ahead_src _ _ _ _ _ A1))
        as [(c & r' & s' & -> & Hc & Hl & Hr & E & R)|(err & s' & E & He)]; rewrite E; cbn.
      2:{ right. destruct err; cbn; try done; by eexists _, s'. }
      assert (Hs : (0 <? sz) = true) by (apply Z.ltb_lt; lia). rewrite Hs. cbn.
      destruct (Z.ltb_spec (big_SetBytes c) 128); [right; by exists ErrCanonSize, s'|left].
      pose proof (big_SetBytes_range c) as Hrng. rewrite Hc in Hrng.
      assert (256 ^ sz <= 2 ^ bits).
      { change 256 with (2 ^ 8). rewrite <-Z.pow_mul_r by lia. apply Z.pow_le_mono_r; lia. }
      assert (Hcan : big_Bytes (big_SetBytes c) = c).
      { rewrite <-putint_big_Bytes; [apply (putint_canonical c sz); try done; lia|].
        assert (2 ^ bits <= 2 ^ 64) by (apply Z.pow_le_mono_r; lia). lia. }
      exists (big_SetBytes c), c, r', s'. split; [done|]. split; [split; [lia|]|].
      * destruct (enc_uint_cases (big_SetBytes c) ltac:(lia)) as [[? _]|[[? _]|[_ ->]]]; [lia|lia|]. by rewrite Hcan, Hc.
      * rewrite Hc. done.
  - right. sm_run. by exists ErrExpectedString, s.
Qed.

(** A check after a decoder. *)
Lemma reads_check {A B} n (m : SM A) (f : A -> rlpError + B) (m' : SM B) (R : A -> bytes -> Prop) (R' : B -> bytes -> Prop) :
  (forall s, m' s = sm_bind m (fun x => match f x with inl err => sm_err err | inr y => sm_ret y end) s) ->
  (forall x e, R x e -> match f x with inl err => err <> EOL | inr y => R' y e end) -> reads n m R -> reads n m' R'.
Proof.
  intros Hm' Hf H s r st Rd Hn. unfold ends, fails. rewrite Hm'. sm_run.
  destruct (H s r st Rd Hn) as [(x & e & r' & s' & E & HX & Hrest)|[(s' & E & Hend & Rd')|(err & s' & E & He)]]; rewrite E; cbn.
  - specialize (Hf x e HX). destruct (f x) as [err|y]; [right; right; by exists err, s'|left].
    by exists y, e, r', s'.
  - right. left. by exists s'.
  - right. right. by exists err, s'.
Qed.
Lemma accepts_check {A B} (m : SM A) (f : A -> rlpError + B) (m' : SM B) x y e :
  (forall s, m' s = sm_bind m (fun x => match f x with inl err => sm_err err | inr y => sm_ret y end) s) ->
  f x = inr y -> accepts m x e -> accepts m' y e.
Proof.
  intros Hm' Hf H s r st R Hr. destruct (H s r st R Hr) as (s' & E & R'). exists s'. split; [|done].
  rewrite Hm'. sm_run. rewrite E. cbn. by rewrite Hf.
Qed.

Definition check_bool (n : Z) : rlpError + bool :=
  if n =? 0 then inr false else if n =? 1 then inr true else inl (errBoolValue n).
Lemma stream_Bool_check s :
  stream_Bool s = sm_bind (stream_uint 8) (fun x => match check_bool x with inl err => sm_err err | inr y => sm_ret y end) s.
Proof.
  unfold stream_Bool, check_bool. sm_run. destruct (stream_uint 8 s) as [[[err|n] s']| |]; try done. cbn.
  destruct (n =? 0); [done|]. by destruct (n =? 1).
Qed.
Definition enc_bool (b : bool) : bytes := enc_str (if b then [Byte.x01] else []).
Lemma accepts_bool b : accepts stream_Bool b (enc_bool b).
Proof.
  apply (accepts_check (stream_uint 8) check_bool _ (if b then 1 else 0)); [apply stream_Bool_check|by destruct b|].
  assert (E : enc_bool b = enc_str (big_Bytes (if b then 1 else 0))) by by destruct b. rewrite E.
  apply accepts_uint; [by left|]. destruct b; lia.
Qed.
Lemma reads_bool n : reads n stream_Bool (fun b e => e = enc_bool b).
Proof.
  eapply (reads_check n (stream_uint 8) check_bool); [apply stream_Bool_check| |apply reads_uint; by left].
  intros x e [_ ->]. unfold check_bool. destruct (Z.eqb_spec x 0) as [->|]; [done|].
  by destruct (Z.eqb_spec x 1) as [->|].
Qed.

Definition check_big (b : bytes) : rlpError + rval :=
  match b with
  | x :: _ => if b2z x =? 0 then inl (wrapStreamError ErrCanonInt) else inr (VBig (big_SetBytes b))
  | [] => inr (VBig (big_SetBytes b))
  end.
Lemma decodeBigInt_check s :
  decodeBigInt s = sm_bind (sm_wrap stream_Bytes) (fun x => match check_big x with inl err => sm_err err | inr y => sm_ret y end) s.
Proof.
  unfold decodeBigInt, check_big. sm_run. destruct (sm_wrap stream_Bytes s) as [[[err|b] s']| |]; try done. cbn.
  destruct b as [|x b]; [done|]. by destruct (b2z x =? 0).
Qed.
Lemma accepts_big n : 0 <= n -> len (big_Bytes n) < 2 ^ 63 -> accepts decodeBigInt (VBig n) (enc_str (big_Bytes n)).
Proof.
  intros Hn Hl. apply (accepts_check (sm_wrap stream_Bytes) check_big _ (big_Bytes n)); [apply decodeBigInt_check| |by apply accepts_wrap, accepts_bytes].
  pose proof (big_Bytes_no_lead n) as Hz. pose proof (big_Bytes_value n) as Hv. rewrite Z.abs_eq in Hv by done.
  unfold check_big. destruct (big_Bytes n) as [|x l]; [by rewrite Hv|]. simpl in Hz.
  destruct (Z.eqb_spec (b2z x) 0); [done|]. by rewrite Hv.
Qed.
Lemma reads_big n : reads n decodeBigInt (fun v e => exists z, v = VBig z /\ 0 <= z /\ e = enc_str (big_Bytes z)).
Proof.
  eapply (reads_check n (sm_wrap stream_Bytes) check_big); [apply decodeBigInt_check| |apply reads_wrap, reads_bytes].
  intros b e ->. assert (Hok : no_lead b -> exists z, VBig (big_SetBytes b) = VBig z /\ 0 <= z /\ enc_str b = enc_str (big_Bytes z)).
  { intros Hb. exists (big_SetBytes b). split; [done|]. split; [apply big_SetBytes_nonneg|]. by rewrite big_Bytes_canonical. }
  unfold check_big. destruct b as [|x b]; [by apply Hok|]. destruct (Z.eqb_spec (b2z x) 0); [done|]. by apply Hok.
Qed.

(** ** Byte arrays and raw values *)

Lemma enc_str_long b : length b <> 1%nat -> enc_str b = puthead 0x80 0xB7 (len b) ++ b.
Proof. by destruct b as [|x [|y b]]. Qed.

Lemma accepts_array n b :
  n <> 1%nat -> length b = n -> len b < 2 ^ 63 -> accepts (decodeByteArray (Z.of_nat n)) (VBytes b) (enc_str b).
Proof.
  intros Hn Hl Hb s r st R Hroom. unfold decodeByteArray. sm_run. rewrite enc_str_long in * by lia.
  rewrite <-app_assoc in R. rewrite len_app in Hroom. pose proof (len_nonneg b).
  destruct (Kind_content s KString (len b) Byte.x00 _ b r st R) as (s' & -> & A & _ & Hr2); [split; [lia|done]|done|done|].
  cbn. assert (Z.of_nat n = len b) by (unfold len; lia). destruct (Z.ltb_spec (Z.of_nat n) (len b)); [lia|].
  destruct (Z.ltb_spec (len b) (Z.of_nat n)); [lia|]. replace (Z.of_nat n) with (len b).
  destruct (readFull_ok s' b r _ (ahead_src _ _ _ _ _ A) Hr2) as (s2 & E & R2). sm_run. rewrite E. cbn.
  rewrite adv_adv, <-len_app in R2. exists s2. split; [|done]. destruct b as [|x [|y b]]; [done|simpl in *; lia|done].
Qed.

Lemma reads_array m n :
  n <> 1%nat -> reads m (decodeByteArray (Z.of_nat n)) (fun v e => exists b, v = VBytes b /\ length b = n /\ e = enc_str b).
Proof.
  intros Hn1. apply reads_kind. intros s k sz bv h r st Hh Hroom Hfit A1 Hbv Hn. unfold reads_content, fails. destruct k.
  - right. sm_run. destruct (Z.eqb_spec (Z.of_nat n) 0); [by eexists _, s|].
    destruct (Z.ltb_spec 1 (Z.of_nat n)); [by eexists _, s|lia].
  - destruct (Z.ltb_spec (Z.of_nat n) sz); sm_run; [right; by eexists _, s|].
    destruct (Z.ltb_spec sz (Z.of_nat n)); sm_run; [right; by eexists _, s|].
    assert (sz = Z.of_nat n) as <- by lia.
    destruct (content_read s KString sz bv h r st Hh ltac:(done) Hfit A1)
      as [(c & r' & s' & E & -> & Hc & Hr & R)|(err & s' & E & He)]; sm_run; rewrite E; cbn.
    2:{ right. by exists err, s'. }
    left. destruct Hh as [_ ->]. subst sz. exists (VBytes c), c, r', s'.
    assert (Hl : length c = n) by (unfold len in *; lia).
    split; [destruct c as [|x [|y c]]; [done|simpl in *; lia|done]|]. split; [|done].
    exists c. split; [done|]. split; [done|]. by rewrite enc_str_long by lia.
  - right. sm_run. by eexists _, s.
Qed.

Lemma accepts_raw b : one_value b -> accepts stream_Raw b b.
Proof.
  intros Hb s r st R Hroom. unfold stream_Raw. sm_run. pose proof R as [(_ & _ & _ & _ & _ & Hlen) _]. rewrite len_app in Hlen.
  pose proof (len_nonneg r). destruct Hb as [(x & -> & Hx)|[(c & -> & Hc)|(c & -> & Hc)]].
  - destruct (Kind_content s KByte 0 x [x] [] r st R) as (s' & -> & A & Hb & _); [done|done|done|]. cbn.
    rewrite Hb by done. eexists. split; [done|]. by eapply ahead_rearm.
  - rewrite <-app_assoc in R. rewrite len_app in Hroom. pose proof (len_nonneg c).
    destruct (Kind_content s KString (len c) Byte.x00 _ c r st R) as (s' & -> & A & _ & Hr2); [split; [lia|done]|done|done|]. cbn.
    destruct (readFull_ok s' c r _ (ahead_src _ _ _ _ _ A) Hr2) as (s2 & E & R2). sm_run. rewrite E. cbn.
    rewrite adv_adv, <-len_app in R2. by exists s2.
  - unfold enc_list in *. rewrite <-app_assoc in R. rewrite len_app in Hroom. pose proof (len_nonneg c).
    destruct (Kind_content s KList (len c) Byte.x00 _ c r st R) as (s' & -> & A & _ & Hr2); [split; [lia|done]|done|done|]. cbn.
    destruct (readFull_ok s' c r _ (ahead_src _ _ _ _ _ A) Hr2) as (s2 & E & R2). sm_run. rewrite E. cbn.
    rewrite adv_adv, <-len_app in R2. by exists s2.
Qed.
Lemma reads_raw n : reads n stream_Raw (fun b e => e = b /\ one_value b).
Proof.
  apply reads_kind. intros s k sz bv h r st Hh Hroom Hfit A1 Hbv Hn. unfold reads_content, fails. destruct k.
  - destruct Hh as (-> & -> & Hb). left. sm_run. exists [bv], [], r, (rs_rearm s). rewrite Hbv by done.
    split; [done|]. split; [split; [done|]; left; by exists bv|]. split; [done|]. change (len []) with 0.
    split; [|rewrite adv_0; by eapply ahead_rearm]. apply room_adv. by rewrite Z.add_0_r.
  - destruct (content_read s KString sz bv h r st Hh ltac:(done) Hfit A1)
      as [(c & r' & s' & E & -> & Hc & Hr & R)|(err & s' & E & He)]; sm_run; rewrite E; cbn; [left|right; by exists err, s'].
    destruct Hh as [Hs ->]. subst sz. eexists _, c, r', s'. split; [done|]. split; [|done].
    split; [done|]. right. left. exists c. split; [done|lia].
  - destruct (content_read s KList sz bv h r st Hh ltac:(done) Hfit A1)
      as [(c & r' & s' & E & -> & Hc & Hr & R)|(err & s' & E & He)]; sm_run; rewrite E; cbn; [left|right; by exists err, s'].
    destruct Hh as [Hs ->]. subst sz. eexists _, c, r', s'. split; [done|]. split; [|done].
    split; [done|]. right. right. exists c. split; [done|lia].
Qed.
