(* ===== verification/RlpTyped.v ===== *)
(** Decoding values of a type. *)
From S2P Require Import Prelude BigMath Rlp RlpDecode RlpFacts RlpDecodeFacts.

(** Lists, structs and the decoders of all types. *)

Implicit Types (s : Stream) (r h c e : bytes) (st : list (Z * Z)) (v : rval).

(** ** Opening and closing a list *)

Abbreviation lhead n := (puthead 0xC0 0xF7 n).

Lemma List_ok s p r st :
  ready s (enc_list p ++ r) st -> room st (len (enc_list p)) ->
  exists s', stream_List s = Done (inr (len p), s') /\ ready s' (p ++ r) ((0, len p) :: adv (len (lhead (len p))) st).
Proof.
  unfold enc_list. intros R Hroom. rewrite <-app_assoc in R. rewrite len_app in Hroom. pose proof (len_nonneg p).
  pose proof R as [(_ & _ & _ & _ & _ & Hlen) _]. rewrite !len_app in Hlen. pose proof (len_nonneg r).
  pose proof (len_nonneg (lhead (len p))).
  destruct (Kind_content s KList (len p) Byte.x00 _ p r st R) as (s' & E & A & _ & Hr2); [split; [lia|done]|done|done|].
  unfold stream_List. sm_run. rewrite E. cbn. eexists. split; [done|].
  destruct A as [(Er & El & Em & Es & Hf & Hl) _]. split; [|done]. repeat split; try done; cbn; [by rewrite Es|].
  constructor; [cbn; lia|done].
Qed.

Lemma ListEnd_ok s r z st :
  ready s r ((z, z) :: st) -> 0 <= z -> room st z -> exists s', stream_ListEnd s = Done (inr tt, s') /\ ready s' r (adv z st).
Proof.
  intros [(Er & El & Em & Es & Hf & Hl) _] Hz Hroom. unfold stream_ListEnd. rewrite Es, Z.eqb_refl. cbn.
  inversion_clear Hf as [|? ? Hzz Hf']. eexists. split; [done|]. split; [|done].
  repeat split; try done; cbn; [|by apply fok_adv]. destruct st as [|[p z'] st]; [done|]. simpl in *.
  inversion_clear Hf' as [|? ? Hp _]. simpl in Hp. rewrite u64_small; [done|]. unfold is_u64. lia.
Qed.

Lemma List_total s r st :
  ready s r st ->
  (exists sz h r' s', stream_List s = Done (inr sz, s') /\ 0 <= sz < 2 ^ 63 /\ h = lhead sz /\ r = h ++ r' /\
     room st (len h) /\ room (adv (len h) st) sz /\ ready s' r' ((0, sz) :: adv (len h) st)) \/
  ends stream_List s r st \/ fails stream_List s.
Proof.
  intros R. unfold stream_List, ends, fails. sm_run.
  destruct (stream_Kind_total s r st R)
    as [(k & sz & bv & h & r' & s' & E & -> & Hh & Hroom & Hfit & A1 & Hbv)|[(s' & E & Hend & R')|(err & s' & E & He)]];
    rewrite E; cbn.
  2:{ right. left. by exists s'. }
  2:{ right. right. by exists err, s'. }
  destruct (decide (k = KList)) as [->|]; [|right; right; by eexists _, s']. left.
  destruct Hh as [Hsz ->]. destruct A1 as [(Er & El & Em & Es & Hf & Hl) _].
  assert (Hroom2 : room (adv (len (lhead sz)) st) sz) by (destruct st as [|[p z] st]; [done|exact Hfit]).
  assert (Hlt : sz < 2 ^ 63).
  { unfold fit in Hfit. destruct (adv (len (lhead sz)) st) as [|[p z] st'] eqn:Ea; [lia|].
    simpl in Hfit. inversion_clear Hf as [|? ? Hp _]. simpl in Hp. lia. }
  eexists sz, _, r', _. split; [done|]. split; [lia|]. do 4 (split; [done|]).
  split; [|done]. repeat split; try done; cbn; [by rewrite Es|]. constructor; [cbn; lia|done].
Qed.

(** ** The elements of a list *)

Lemma elems_ok dec fuel : forall l es s r p z st,
  kind_first dec -> Forall2 (accepts dec) l es -> (length l < fuel)%nat ->
  ready s (concat es ++ r) ((p, z) :: st) -> z - p = len (concat es) ->
  exists s', decodeSliceElems fuel dec s = Done (inr l, s') /\ ready s' r ((z, z) :: st).
Proof.
  induction fuel as [|fuel IH]; intros l es s r p z st Hk HF Hl R Hz; [lia|]. cbn [decodeSliceElems]. sm_run.
  inversion HF as [|x e l' es' Hx HF']; subst.
  - simpl in *. change (len []) with 0 in Hz. destruct (kf_ends dec s r ((p, z) :: st) Hk R) as (s' & E & _ & R'); [simpl; lia|].
    rewrite E. cbn. exists s'. split; [done|]. by replace p with z in R' by lia.
  - simpl in R, Hz. rewrite <-app_assoc in R. rewrite len_app in Hz. pose proof (len_nonneg (concat es')).
    destruct (Hx s _ _ R) as (s1 & E1 & R1); [simpl; lia|]. rewrite E1. cbn.
    destruct (IH l' es' s1 r (p + len e) z st) as (s2 & E2 & R2); try done; [simpl in Hl; lia|lia|].
    sm_run. rewrite E2. by exists s2.
Qed.

Lemma elems_total {R : rval -> bytes -> Prop} dec n fuel : forall s r p z st,
  reads n dec R -> ready s r ((p, z) :: st) -> len r <= n -> (length r < fuel)%nat ->
  (exists l es r' s', decodeSliceElems fuel dec s = Done (inr l, s') /\ Forall2 R l es /\ r = concat es ++ r' /\
     z - p = len (concat es) /\ ready s' r' ((z, z) :: st)) \/ fails (decodeSliceElems fuel dec) s.
Proof.
  induction fuel as [|fuel IH]; intros s r p z st HR Rd Hn Hf; [lia|]. cbn [decodeSliceElems]. unfold fails. sm_run.
  destruct (HR s r _ Rd Hn) as [(x & e & r' & s' & E & HX & Hpos & -> & Hroom & R')|[(s' & E & Hend & R')|(err & s' & E & He)]];
    rewrite E; cbn.
  - rewrite len_app in Hn. unfold len in Hpos. rewrite length_app in Hf. simpl in Hroom, R'.
    destruct (IH s' r' _ _ _ HR R') as [(l & es & r2 & s2 & E2 & HF & -> & Hz & R2)|(err & s2 & E2 & He)];
      [pose proof (len_nonneg e); lia|lia| |]; sm_run; rewrite E2; cbn.
    + left. exists (x :: l), (e :: es), r2, s2. split; [done|]. split; [by constructor|]. simpl.
      rewrite len_app, app_assoc. split; [done|]. split; [lia|done].
    + right. by exists err, s2.
  - left. simpl in Hend. subst z. exists [], [], r, s'. split; [done|]. split; [constructor|]. simpl. split; [done|].
    split; [unfold len; simpl; lia|done].
  - right. destruct err; try done; by eexists _, s'.
Qed.

Lemma accepts_slice dec l es fuel :
  kind_first dec -> Forall2 (accepts dec) l es -> (length l < fuel)%nat ->
  Forall (fun e => 0 < len e) es ->
  accepts (decodeListSlice fuel dec) (VList l) (enc_list (concat es)).
Proof.
  intros Hk HF Hl Hpos s r st R Hroom. unfold decodeListSlice, sm_wrap. sm_run.
  assert (Ha : len (enc_list (concat es)) = len (lhead (len (concat es))) + len (concat es)) by apply len_app.
  destruct (List_ok s _ r st R Hroom) as (s1 & E1 & R1). rewrite E1. cbn.
  assert (Hroom1 : room (adv (len (lhead (len (concat es)))) st) (len (concat es))) by (apply room_adv; by rewrite <-Ha).
  destruct (Z.eqb_spec (len (concat es)) 0) as [Hz|Hz].
  - assert (Hes : es = []).
    { destruct Hpos as [|e es He _]; [done|]. simpl in Hz. rewrite len_app in Hz.
      pose proof (len_nonneg (concat es)). lia. }
    subst es. inversion HF; subst. destruct (ListEnd_ok s1 r 0 _ R1 ltac:(lia) Hroom1) as (s2 & E2 & R2).
    sm_run. rewrite E2. cbn. rewrite adv_adv in R2. by exists s2.
  - destruct (elems_ok dec fuel l es s1 r 0 (len (concat es)) _ Hk HF Hl R1) as (s2 & E2 & R2); [lia|].
    sm_run. rewrite E2. cbn. destruct (ListEnd_ok s2 r _ _ R2 (len_nonneg _) Hroom1) as (s3 & E3 & R3).
    rewrite E3. cbn. rewrite adv_adv, <-Ha in R3. by exists s3.
Qed.

(** What [decodeListSlice] does in a list of size [sz]. *)
Definition slice_rest (fuel : nat) (dec : SM rval) (sz : Z) : SM rval :=
  if sz =? 0 then let! _ := stream_ListEnd in sm_ret (VList [])
  else let! l := decodeSliceElems fuel dec in let! _ := stream_ListEnd in sm_ret (VList l).

Lemma slice_rest_total n dec fuel (R : rval -> bytes -> Prop) sz s r st :
  reads n dec R -> ready s r ((0, sz) :: st) -> len r <= n -> len r < Z.of_nat fuel -> 0 <= sz -> room st sz ->
  (exists l es r' s', slice_rest fuel dec sz s = Done (inr (VList l), s') /\ Forall2 R l es /\ r = concat es ++ r' /\
     sz = len (concat es) /\ ready s' r' (adv sz st)) \/ fails (slice_rest fuel dec sz) s.
Proof.
  intros HR Rd Hn Hfuel Hsz Hroom. unfold slice_rest. destruct (Z.eqb_spec sz 0) as [->|Hz]; unfold fails; sm_run.
  - destruct (ListEnd_ok s r 0 _ Rd ltac:(lia) Hroom) as (s2 & E2 & R2). rewrite E2. left. by exists [], [], r, s2.
  - destruct (elems_total dec n fuel s r 0 sz _ HR Rd Hn) as [(l & es & r' & s2 & E2 & HF & -> & Hzz & R2)|(err & s2 & E2 & He)];
      [unfold len in *; lia| |]; rewrite E2; cbn.
    + left. destruct (ListEnd_ok s2 r' sz _ R2 ltac:(lia) Hroom) as (s3 & E3 & R3). rewrite E3. exists l, es, r', s3.
      split; [done|]. split; [done|]. split; [done|]. split; [lia|done].
    + right. by exists err, s2.
Qed.

Lemma reads_slice n dec fuel (R : rval -> bytes -> Prop) :
  reads (n - 1) dec R -> n <= Z.of_nat fuel ->
  reads n (decodeListSlice fuel dec) (fun v e => exists l es, v = VList l /\ Forall2 R l es /\ e = enc_list (concat es)).
Proof.
  intros HR Hfuel s r st Rd Hn. change (decodeListSlice fuel dec) with (let! sz := sm_wrap stream_List in slice_rest fuel dec sz).
  unfold sm_wrap, ends, fails. sm_run.
  destruct (List_total s r st Rd) as [(sz & h & r1 & s1 & E & Hsz & -> & -> & Hroom & Hroom1 & R1)|[(s' & E & Hend & R')|(err & s' & E & He)]];
    rewrite E; cbn.
  2:{ right. left. by exists s'. }
  2:{ right. right. eexists _, s'. split; [done|]. by rewrite wrap_EOL. }
  rewrite len_app in Hn. pose proof (puthead_range 0xC0 0xF7 sz ltac:(lia)) as Hh. pose proof (len_nonneg r1).
  destruct (slice_rest_total (n - 1) dec fuel R sz s1 r1 _ HR R1)
    as [(l & es & r' & s2 & E2 & HF & -> & -> & R2)|(err & s2 & E2 & He)]; [lia|lia|lia|done|..]; rewrite E2.
  - left. exists (VList l), (enc_list (concat es)), r', s2. split; [done|]. split; [by exists l, es|].
    unfold enc_list. rewrite len_app, <-app_assoc. pose proof (len_nonneg (concat es)). split; [lia|]. split; [done|].
    split; [by apply room_adv|]. by rewrite adv_adv in R2.
  - right. right. by exists err, s2.
Qed.

(** ** The fields of a struct *)

Lemma fields_ok decs l es :
  Forall3 accepts decs l es -> forall s r st, ready s (concat es ++ r) st -> room st (len (concat es)) ->
  exists s', decode_fields decs s = Done (inr l, s') /\ ready s' r (adv (len (concat es)) st).
Proof.
  induction 1 as [|dec x e decs l es Hx _ IH]; intros s r st R Hroom; simpl in *; sm_run.
  - exists s. split; [done|]. change (len []) with 0. by rewrite adv_0.
  - rewrite <-app_assoc in R. rewrite len_app in Hroom. pose proof (len_nonneg (concat es)). pose proof (len_nonneg e).
    destruct (Hx s _ _ R) as (s1 & E1 & R1); [eapply room_le; [|exact Hroom]; lia|]. rewrite E1. cbn.
    destruct (IH s1 r _ R1) as (s2 & E2 & R2); [by apply room_adv|]. sm_run. rewrite E2. cbn.
    rewrite adv_adv, <-len_app in R2. by exists s2.
Qed.

Lemma fields_total n (decs : list (SM rval)) (Rs : list (rval -> bytes -> Prop)) :
  Forall2 (reads n) decs Rs -> forall s r st, ready s r st -> len r <= n ->
  (exists l es r' s', decode_fields decs s = Done (inr l, s') /\ Forall3 (fun R x e => R x e) Rs l es /\
     r = concat es ++ r' /\ room st (len (concat es)) /\ ready s' r' (adv (len (concat es)) st)) \/
  fails (decode_fields decs) s.
Proof.
  induction 1 as [|dec R decs Rs HR _ IH]; intros s r st Rd Hn; simpl; unfold fails; sm_run.
  - left. exists [], [], r, s. split; [done|]. split; [constructor|]. split; [done|]. change (len (concat [])) with 0.
    rewrite adv_0. split; [|done]. destruct Rd as [(_ & _ & _ & _ & Hf & _) _]. destruct st as [|[p z] st]; [done|].
    simpl. inversion_clear Hf as [|? ? Hp _]. simpl in Hp. lia.
  - destruct (HR s r st Rd Hn) as [(x & e & r' & s' & E & HX & Hpos & -> & Hroom & R')|[(s' & E & Hend & R')|(err & s' & E & He)]];
      rewrite E; cbn.
    + rewrite len_app in Hn. pose proof (len_nonneg e).
      destruct (IH s' r' _ R') as [(l & es & r2 & s2 & E2 & HF & -> & Hroom2 & R2)|(err & s2 & E2 & He)]; [lia| |];
        sm_run; rewrite E2; cbn.
      * left. exists (x :: l), (e :: es), r2, s2. split; [done|]. split; [by constructor|]. simpl. rewrite len_app, app_assoc.
        split; [done|]. split; [by apply room_adv|]. by rewrite adv_adv in R2.
      * right. by exists err, s2.
    + right. by eexists _, s'.
    + right. destruct err; try done; by eexists _, s'.
Qed.

Lemma accepts_struct decs l es :
  Forall3 accepts decs l es -> accepts (decodeStruct decs) (VList l) (enc_list (concat es)).
Proof.
  intros HF s r st R Hroom. unfold decodeStruct, sm_wrap. sm_run.
  assert (Ha : len (enc_list (concat es)) = len (lhead (len (concat es))) + len (concat es)) by apply len_app.
  destruct (List_ok s _ r st R Hroom) as (s1 & E1 & R1). rewrite E1. cbn.
  assert (Hroom1 : room (adv (len (lhead (len (concat es)))) st) (len (concat es))) by (apply room_adv; by rewrite <-Ha).
  destruct (fields_ok decs l es HF s1 r _ R1) as (s2 & E2 & R2); [simpl; lia|]. rewrite E2. cbn.
  destruct (ListEnd_ok s2 r (len (concat es)) _ R2 (len_nonneg _) Hroom1) as (s3 & E3 & R3). rewrite E3. cbn.
  rewrite adv_adv, <-Ha in R3. by exists s3.
Qed.

Lemma reads_struct n decs Rs :
  Forall2 (reads (n - 1)) decs Rs ->
  reads n (decodeStruct decs) (fun v e => exists l es, v = VList l /\ Forall3 (fun R x e => R x e) Rs l es /\
                                           e = enc_list (concat es)).
Proof.
  intros HF s r st Rd Hn. unfold decodeStruct, sm_wrap, ends, fails. sm_run.
  destruct (List_total s r st Rd) as [(sz & h & r1 & s1 & E & Hsz & -> & -> & Hroom & Hroom1 & R1)|[(s' & E & Hend & R')|(err & s' & E & He)]];
    rewrite E; cbn.
  2:{ right. left. by exists s'. }
  2:{ right. right. eexists _, s'. split; [done|]. by rewrite wrap_EOL. }
  rewrite len_app in Hn. pose proof (puthead_range 0xC0 0xF7 sz ltac:(lia)) as Hh.
  destruct (fields_total (n - 1) decs Rs HF s1 r1 _ R1) as [(l & es & r' & s2 & E2 & HF2 & -> & Hr2 & R2)|(err & s2 & E2 & He)];
    [lia| |]; rewrite E2; cbn; [|right; right; by exists err, s2].
  simpl in R2. destruct (Z.eqb_spec (len (concat es)) sz) as [Hz|Hz].
  - left. subst sz. destruct (ListEnd_ok s2 r' (len (concat es)) _ R2 (len_nonneg _) Hroom1) as (s3 & E3 & R3). rewrite E3. cbn.
    exists (VList l), (enc_list (concat es)), r', s3. split; [done|]. split; [by exists l, es|].
    unfold enc_list. rewrite len_app, <-app_assoc. pose proof (len_nonneg (concat es)). split; [lia|]. split; [done|].
    split; [by apply room_adv|]. by rewrite adv_adv in R3.
  - right. right. exists (decodeError msgTooManyElements), s2. split; [|done].
    unfold stream_ListEnd. destruct R2 as [(_ & _ & _ & -> & _) _]. apply Z.eqb_neq in Hz. cbn. by rewrite Z.add_0_l, Hz.
Qed.

(** ** Optional pointers *)

Definition is_empty e : Prop := e = enc_str [] \/ e = enc_list [].
Definition empty_kind (ks : Kind * Z) : bool := (ks.2 =? 0) && negb (bool_decide (ks.1 = KByte)).

Lemma is_empty_len e : is_empty e -> len e = 1.
Proof. by intros [->| ->]. Qed.

(** The kind ahead tells an empty value from the others. *)
Lemma Kind_empty s e r st :
  one_value e -> ready s (e ++ r) st -> room st (len e) ->
  exists ks s', stream_Kind s = Done (inr ks, s') /\ (empty_kind ks = true <-> is_empty e).
Proof.
  assert (Hc : forall c, len c = 0 -> c = []) by (intros []; unfold len; simpl; [done|lia]).
  unfold empty_kind.
  intros [(x & -> & Hx)|[(c & -> & Hl)|(c & -> & Hl)]] R Hroom;
    try (unfold enc_list in *; rewrite len_app in Hroom; rewrite <-app_assoc in R; pose proof (len_nonneg c)).
  - destruct (Kind_content s KByte 0 x [x] [] r st R) as (s' & E & _); [done|done|by rewrite Z.add_0_r|].
    exists (KByte, 0), s'. split; [done|]. split; [done|]. by intros [[= ->]|[= ->]]; vm_compute in Hx.
  - destruct (Kind_content s KString (len c) Byte.x00 _ c r st R) as (s' & E & _); [split; [lia|done]|done|done|].
    exists (KString, len c), s'. split; [done|]. cbn. rewrite andb_true_r, Z.eqb_eq. split; [by left; rewrite (Hc c)|].
    intros Hq%is_empty_len. rewrite len_app in Hq. pose proof (puthead_range 0x80 0xB7 (len c)). lia.
  - destruct (Kind_content s KList (len c) Byte.x00 _ c r st R) as (s' & E & _); [split; [lia|done]|done|done|].
    exists (KList, len c), s'. split; [done|]. cbn. rewrite andb_true_r, Z.eqb_eq. split; [by right; rewrite (Hc c)|].
    intros Hq%is_empty_len. rewrite len_app in Hq. pose proof (puthead_range 0xC0 0xF7 (len c)). lia.
Qed.

Lemma one_value_empty e : is_empty e -> one_value e.
Proof. intros [->| ->]; right; [left|right]; by exists []. Qed.

Lemma decodeOptionalPtr_eq dec s ks s' :
  stream_Kind s = Done (inr ks, s') ->
  decodeOptionalPtr dec s = if empty_kind ks then Done (inr VNil, rs_rearm s') else dec s'.
Proof. intros E. unfold decodeOptionalPtr, empty_kind. sm_run. rewrite E. destruct ks as [k sz]. cbn. by destruct (_ && _). Qed.

Lemma accepts_nil dec e : is_empty e -> accepts (decodeOptionalPtr dec) VNil e.
Proof.
  intros He s r st R Hroom. destruct (Kind_empty s e r st (one_value_empty e He) R Hroom) as (ks & s' & E & Hk).
  rewrite (decodeOptionalPtr_eq dec s ks s' E), (proj2 Hk He). eexists. split; [done|].
  assert (Hh : exists k, header k 0 Byte.x00 e) by (destruct He as [->| ->]; [by exists KString|by exists KList]).
  destruct Hh as (k & Hh).
  destruct (Kind_content s k 0 Byte.x00 e [] r st R Hh) as (s2 & E2 & A & _ & _); [done|by rewrite Z.add_0_r|].
  rewrite E in E2. injection E2 as _ <-. by eapply ahead_rearm.
Qed.

Lemma accepts_opt dec v e :
  kind_first dec -> one_value e -> ~ is_empty e -> accepts dec v e -> accepts (decodeOptionalPtr dec) v e.
Proof.
  intros Hk Ho He Ha s r st R Hroom. destruct (Ha s r st R Hroom) as (s' & E & R'). exists s'. split; [|done].
  destruct (Kind_empty s e r st Ho R Hroom) as (ks & s1 & E1 & Hks).
  rewrite (decodeOptionalPtr_eq dec s ks s1 E1). specialize (Hk s). rewrite E1 in Hk.
  destruct (empty_kind ks); [by destruct He; apply Hks|]. by rewrite Hk.
Qed.

Lemma reads_opt n dec (R : rval -> bytes -> Prop) :
  kind_first dec -> reads n dec R -> (forall v e, R v e -> one_value e) ->
  reads n (decodeOptionalPtr dec) (fun v e => (v = VNil /\ is_empty e) \/ (R v e /\ ~ is_empty e)).
Proof.
  intros Hk HR Ho s r st Rd Hn. pose proof (kf_OptionalPtr dec Hk) as Hopt. pose proof (Hopt s) as Hk'. specialize (Hk s).
  destruct (stream_Kind_total s r st Rd)
    as [(k & sz & bv & h & r' & s1 & E1 & -> & Hh & Hroom & Hfit & A & Hbv)|[(s1 & E1 & Hend & R1)|(err & s1 & E1 & He)]].
  2:{ right. left. by apply kf_ends. }
  2:{ right. right. rewrite E1 in Hk'. destruct Hk' as (err' & s2 & E2 & Hq & _). exists err', s2. split; [done|]. by rewrite Hq. }
  unfold ends, fails. rewrite E1 in Hk. rewrite (decodeOptionalPtr_eq dec s _ _ E1). destruct (empty_kind (k, sz)) eqn:Hc.
  - unfold empty_kind in Hc. cbn [fst snd] in Hc. apply andb_true_iff in Hc as [->%Z.eqb_eq Hkb]. simpl in *. left. pose proof (header_pos _ _ _ _ Hh).
    exists VNil, h, r', (rs_rearm s1). split; [done|]. split; [|split; [lia|split; [done|split; [done|by eapply ahead_rearm]]]].
    left. split; [done|]. destruct k; [done|left|right]; by destruct Hh as [_ ->].
  - rewrite Hk. destruct (HR s (h ++ r') st Rd Hn) as [(x & e & r2 & s2 & E2 & HX & Hpos & Er & Hre & Hrest)|HH]; [|by right].
    left. exists x, e, r2, s2. split; [done|]. split; [|done]. right. split; [done|]. intros Hemp.
    rewrite Er in Rd. destruct (Kind_empty s e r2 st (Ho x e HX) Rd Hre) as (ks & s3 & E3 & Hks).
    rewrite E1 in E3. injection E3 as <- _. by rewrite (proj2 Hks Hemp) in Hc.
Qed.

(** The decoder of every type accepts exactly the encodings of its values, and
    always ends. *)


(** [e] is an encoding of the value [v] of type [t].  A nil pointer has two,
    the empty string and the empty list. *)
Fixpoint encodes (t : rtype) (v : rval) (e : bytes) {struct t} : Prop :=
  match t, v with
  | RawT, VRaw b => one_value b /\ e = b
  | UintT bits, VUint n => 0 <= n < 2 ^ bits /\ e = enc_str (big_Bytes n)
  | BoolT, VBool b => e = enc_bool b
  | BigT, VBig n => 0 <= n /\ e = enc_str (big_Bytes n)
  | BytesT, VBytes b => e = enc_str b
  | ArrayT n, VBytes b => length b = n /\ e = enc_str b
  | SliceT t, VList l => exists es, Forall2 (encodes t) l es /\ e = enc_list (concat es)
  | StructT ts, VList l =>
      length ts = length l /\ exists es, Forall2 id (zip_with encodes ts l) es /\ e = enc_list (concat es)
  | PtrT t, _ => encodes t v e
  | OptPtrT t, _ => (v = VNil /\ is_empty e) \/ (encodes t v e /\ ~ is_empty e)
  | IfaceT, _ => iface_ok v = true /\ e = enc_iface v
  | _, _ => False
  end.

(** The types that are decoded correctly: a one-byte array is not, see
    [decodeByteArray]. *)
Fixpoint wf_type (t : rtype) : bool :=
  match t with
  | UintT bits => bool_decide (uint_bits bits)
  | ArrayT n => negb (n =? 1)%nat
  | SliceT t | PtrT t | OptPtrT t => wf_type t
  | StructT ts => forallb wf_type ts
  | _ => true
  end.

(** ** Encodings are single values *)

Lemma enc_str_one b : len (enc_str b) < 2 ^ 64 -> one_value (enc_str b).
Proof.
  intros Hl%len_enc_str_lt. destruct (enc_str_cases b) as [(x & -> & Hx & ->)|[-> _]]; [left|right; left]; eauto.
Qed.
Lemma enc_list_one p : len (enc_list p) < 2 ^ 64 -> one_value (enc_list p).
Proof. intros Hl%len_enc_list_lt. right. right. eauto. Qed.
Lemma encodes_one t : forall v e, encodes t v e -> len e < 2 ^ 64 -> one_value e.
Proof.
  induction t as [|bits| | | |n|t IH|ts IH|t IH|t IH|] using rtype_induction; intros v e H Hl; simpl in H.
  1-8: destruct v; try done; destruct_and?; repeat match goal with H : exists _, _ |- _ => destruct H end; destruct_and?; subst;
    first [done|by apply enc_str_one|by apply enc_list_one].
  - by eapply IH.
  - destruct H as [[_ H]|[H _]]; [by apply one_value_empty|by eapply IH].
  - destruct H as [H ->]. destruct v; try done; [by apply enc_str_one|by apply enc_list_one].
Qed.
Lemma one_value_pos e : one_value e -> 0 < len e.
Proof.
  intros [(x & -> & _)|[(c & -> & Hl)|(c & -> & Hl)]]; [done| |]; unfold enc_list; rewrite len_app; pose proof (len_nonneg c).
  - pose proof (puthead_range 0x80 0xB7 (len c)). lia.
  - pose proof (puthead_range 0xC0 0xF7 (len c)). lia.
Qed.

(** ** Every decoder looks at the kind first *)

Lemma kf_decode t : forall fuel, (tdepth t < fuel)%nat -> kind_first (rlp_decode fuel t).
Proof.
  induction t as [|bits| | | |n|t IH|ts IH|t IH|t IH|] using rtype_induction; intros [|fuel] Hf; simpl in Hf; try lia; cbn [rlp_decode].
  - unfold stream_Raw. auto with rlp.
  - unfold stream_uint. auto with rlp.
  - unfold stream_Bool, stream_uint. auto 6 with rlp.
  - unfold decodeBigInt, stream_Bytes. auto 6 with rlp.
  - unfold stream_Bytes. auto 6 with rlp.
  - unfold decodeByteArray. auto 6 with rlp.
  - unfold decodeListSlice, stream_List. auto 6 with rlp.
  - unfold decodeStruct, stream_List. auto 6 with rlp.
  - apply IH. lia.
  - apply kf_OptionalPtr, IH. lia.
  - unfold decodeInterface. auto with rlp.
Qed.

(** ** Encodings are accepted *)

Lemma len_concat_cons e (es : list bytes) : len (concat (e :: es)) = len e + len (concat es).
Proof. simpl. apply len_app. Qed.
Lemma enc_list_longer p : len p < len (enc_list p).
Proof. unfold enc_list. rewrite len_app. unfold puthead. destruct (_ <? 56); unfold len; simpl; lia. Qed.

(** The elements of a list are not longer than its content, and no more of
    them than it has bytes. *)
Lemma elems_bounds {A} (P : A -> bytes -> Prop) l es :
  Forall2 P l es -> (forall x e, P x e -> len e < 2 ^ 63 -> 0 < len e) -> len (concat es) < 2 ^ 63 ->
  Forall2 (fun x e => P x e /\ 0 < len e <= len (concat es)) l es /\ Z.of_nat (length l) <= len (concat es).
Proof.
  intros HF Hpos. induction HF as [|x e l es Hx HF IH]; intros Hl; [split; [constructor|done]|].
  rewrite len_concat_cons in *. pose proof (len_nonneg e). pose proof (len_nonneg (concat es)).
  specialize (Hpos x e Hx ltac:(lia)). destruct IH as [IH1 IH2]; [lia|]. simpl length. split; [|lia].
  constructor; [split; [done|lia]|]. eapply Forall2_impl; [exact IH1|]. intros x' e' [? ?]. split; [done|lia].
Qed.

Lemma accepts_elems dec fuel (P : rval -> bytes -> Prop) l es :
  kind_first dec -> Forall2 P l es -> (forall x e, P x e -> len e < 2 ^ 63 -> 0 < len e) ->
  (forall x e, P x e -> x ∈ l -> len e <= len (concat es) -> accepts dec x e) ->
  len (concat es) < 2 ^ 63 -> len (concat es) < Z.of_nat fuel ->
  accepts (decodeListSlice fuel dec) (VList l) (enc_list (concat es)).
Proof.
  intros Hk HF Hpos Ha Hl Hfuel. destruct (elems_bounds P l es HF Hpos Hl) as [Hb Hn].
  apply accepts_slice; [done| |lia|].
  - apply Forall2_same_length_lookup. apply Forall2_same_length_lookup in Hb as [? Hb]. split; [done|].
    intros i x e Hx He. destruct (Hb i x e Hx He) as [HP ?]. apply Ha; [done|by eapply list_elem_of_lookup_2|lia].
  - apply Forall_lookup. intros i e He. destruct (Forall2_lookup_r _ _ _ _ _ Hb He) as (x & _ & _ & ?). lia.
Qed.

Lemma encodes_pos t v e : encodes t v e -> len e < 2 ^ 63 -> 0 < len e.
Proof. intros H Hl. eapply one_value_pos, encodes_one; [done|lia]. Qed.

Lemma enc_iface_one v : len (enc_iface v) < 2 ^ 64 -> one_value (enc_iface v).
Proof. destruct v; first [apply enc_list_one|apply enc_str_one]. Qed.

(** The kind decides between a list and a string. *)
Lemma decodeInterface_eq fuel rec s :
  decodeInterface fuel rec s =
    match stream_Kind s with
    | Done (inr (KList, _), _) => decodeListSlice fuel rec s
    | Done (inr _, _) => (let! b := stream_Bytes in sm_ret (VBytes b)) s
    | Done (inl err, s') => Done (inl err, s')
    | GoPanic => GoPanic
    | NoFuel => NoFuel
    end.
Proof.
  assert (HB : kind_first (let! b := stream_Bytes in sm_ret (VBytes b))) by (unfold stream_Bytes; auto with rlp).
  assert (HL : kind_first (decodeListSlice fuel rec)) by (unfold decodeListSlice, stream_List; auto 6 with rlp).
  specialize (HB s). specialize (HL s). unfold decodeInterface. unfold sm_bind at 1.
  destruct (stream_Kind s) as [[[err|[k sz]] s1]| |]; try done. cbn [fst].
  destruct k; cbn; [rewrite decide_False by done; exact HB|rewrite decide_False by done; exact HB|by rewrite decide_True].
Qed.
Lemma stream_Bytes_Kind s : forall x s',
  stream_Bytes s = Done (inr x, s') -> exists k sz s1, stream_Kind s = Done (inr (k, sz), s1) /\ k <> KList.
Proof.
  intros x s' E. unfold stream_Bytes in E. sm_run. destruct (stream_Kind s) as [[[err|[k sz]] s1]| |]; try done.
  exists k, sz, s1. split; [done|]. by intros ->.
Qed.
Lemma decodeListSlice_Kind fuel rec s : forall x s',
  decodeListSlice fuel rec s = Done (inr x, s') -> exists sz s1, stream_Kind s = Done (inr (KList, sz), s1).
Proof.
  intros x s' E. unfold decodeListSlice, stream_List, sm_wrap in E. sm_run.
  destruct (stream_Kind s) as [[[err|[k sz]] s1]| |]; try done. exists sz, s1. by destruct k.
Qed.

Lemma accepts_iface v : iface_ok v = true -> forall fuel,
  len (enc_iface v) < 2 ^ 63 -> len (enc_iface v) < Z.of_nat fuel -> accepts (rlp_decode fuel IfaceT) v (enc_iface v).
Proof.
  intros Hv. pattern v. revert v Hv. apply iface_induction.
  - intros b [|fuel] Hl Hf; [pose proof (len_nonneg (enc_iface (VBytes b))); lia|]. simpl enc_iface in *.
    intros s r st R Hroom. destruct (accepts_bytes b (len_enc_str_lt _ _ Hl) s r st R Hroom) as (s' & E & R').
    exists s'. split; [|done]. cbn [rlp_decode]. rewrite decodeInterface_eq.
    destruct (stream_Bytes_Kind s _ _ E) as (k & sz & s1 & -> & Hk). sm_run. rewrite E. by destruct k.
  - intros l IH [|fuel] Hl Hf; [pose proof (len_nonneg (enc_iface (VList l))); lia|]. simpl enc_iface in *.
    pose proof (enc_list_longer (concat (map enc_iface l))) as Hlong.
    assert (Ha : accepts (decodeListSlice fuel (rlp_decode fuel IfaceT)) (VList l) (enc_list (concat (map enc_iface l)))).
    { apply (accepts_elems _ _ (fun v e => e = enc_iface v)); [| | | |lia|lia].
      - apply kf_decode. simpl. pose proof (len_nonneg (concat (map enc_iface l))). lia.
      - apply Forall2_fmap_r, Forall_Forall2_diag. by apply Forall_true.
      - intros x e -> Hx. apply one_value_pos, enc_iface_one. lia.
      - intros x e -> Hx He. rewrite Forall_forall in IH. apply IH; [done|lia|lia]. }
    intros s r st R Hroom. destruct (Ha s r st R Hroom) as (s' & E & R'). exists s'. split; [|done].
    cbn [rlp_decode]. rewrite decodeInterface_eq. by destruct (decodeListSlice_Kind _ _ _ _ _ E) as (sz & s1 & ->).
Qed.

Definition accepted (t : rtype) : Prop :=
  forall v e fuel, wf_type t = true -> encodes t v e -> len e < 2 ^ 63 -> Z.of_nat (tdepth t) + len e < Z.of_nat fuel ->
    accepts (rlp_decode fuel t) v e.

Abbreviation fields_depth ts := (foldr (fun t n => Nat.max (tdepth t) n) O ts).

Lemma accepted_fields fuel ts : forall l es,
  Forall accepted ts -> forallb wf_type ts = true -> length ts = length l -> Forall2 id (zip_with encodes ts l) es ->
  len (concat es) < 2 ^ 63 -> Z.of_nat (fields_depth ts) + len (concat es) < Z.of_nat fuel ->
  Forall3 accepts (map (rlp_decode fuel) ts) l es.
Proof.
  induction ts as [|t ts IH]; intros [|x l] es Ha Hwf Hl HF Hlen Hfuel; simpl in *; try done.
  - inversion_clear HF. constructor.
  - inversion HF as [|? e ? es' Hx HF']; subst. rewrite len_concat_cons in *.
    inversion_clear Ha as [|? ? Ht Hts]. apply andb_true_iff in Hwf as [Hwf1 Hwf2].
    pose proof (len_nonneg e). pose proof (len_nonneg (concat es')).
    constructor; [apply Ht; [done|done|lia|lia]|apply IH; [done|done|congruence|done|lia|lia]].
Qed.

Lemma accepts_decode t : accepted t.
Proof.
  induction t as [|bits| | | |n|t IH|ts IH|t IH|t IH|] using rtype_induction; intros v e fuel Hwf H Hl Hf;
    pose proof (len_nonneg e); (destruct fuel as [|fuel]; [lia|]); cbn [rlp_decode]; simpl in Hwf, H, Hf.
  - destruct v as [b| | | | | |]; try done. destruct H as [H ->]. apply (accepts_map stream_Raw VRaw), accepts_raw, H.
  - destruct v as [|z| | | | |]; try done. destruct H as [H ->]. apply (accepts_map (sm_wrap (stream_uint bits)) VUint), accepts_wrap, accepts_uint; [|done].
    by apply bool_decide_eq_true in Hwf.
  - destruct v as [| |b| | | |]; try done. subst e. apply (accepts_map (sm_wrap stream_Bool) VBool), accepts_wrap, accepts_bool.
  - destruct v as [| | |z| | |]; try done. destruct H as [H ->]. apply accepts_big; [done|]. by apply len_enc_str_lt.
  - destruct v as [| | | |b| |]; try done. subst e. apply (accepts_map (sm_wrap stream_Bytes) VBytes), accepts_wrap, accepts_bytes. by apply len_enc_str_lt.
  - destruct v as [| | | |b| |]; try done. destruct H as [H ->]. apply negb_true_iff, Nat.eqb_neq in Hwf.
    apply accepts_array; [done|done|by apply len_enc_str_lt].
  - destruct v as [| | | | |l|]; try done. destruct H as (es & HF & ->). pose proof (enc_list_longer (concat es)).
    apply (accepts_elems _ _ (encodes t)); [apply kf_decode; lia|done|apply encodes_pos| |lia|lia].
    intros x e He _ Hle. apply IH; [done|done|lia|lia].
  - destruct v as [| | | | |l|]; try done. destruct H as (Hlen & es & HF & ->). pose proof (enc_list_longer (concat es)).
    apply accepts_struct, accepted_fields; try done; lia.
  - apply IH; [done|done|done|lia].
  - destruct H as [[-> He]|[H He]]; [by apply accepts_nil|].
    apply accepts_opt; [apply kf_decode; lia|eapply encodes_one; [done|lia]|done|apply IH; [done|done|done|lia]].
  - destruct H as [H ->]. apply (accepts_iface v H (S fuel)); [done|lia].
Qed.

(** ** Nothing else is *)

Lemma reads_len {A} n m (R : A -> bytes -> Prop) : reads n m R -> reads n m (fun x e => R x e /\ len e <= n).
Proof. apply reads_mono. tauto. Qed.
Lemma reads_iface_eq n fuel rec (R : rval -> bytes -> Prop) :
  reads n (decodeListSlice fuel rec) R -> reads n (let! b := stream_Bytes in sm_ret (VBytes b)) R ->
  reads n (decodeInterface fuel rec) R.
Proof.
  intros HL HB s r st Rd Hn. unfold ends, fails. rewrite decodeInterface_eq.
  specialize (HL s r st Rd Hn). specialize (HB s r st Rd Hn). unfold ends, fails in *.
  destruct (stream_Kind_total s r st Rd)
    as [(k & sz & bv & h & r' & s1 & E1 & _)|[(s1 & E1 & Hend & R1)|(err & s1 & E1 & He)]]; rewrite E1.
  - by destruct k.
  - right. left. by exists s1.
  - right. right. by exists err, s1.
Qed.

Definition read_back (t : rtype) : Prop :=
  forall n fuel, wf_type t = true -> n < 2 ^ 63 -> Z.of_nat (tdepth t) + n < Z.of_nat fuel ->
    reads n (rlp_decode fuel t) (encodes t).

Lemma reads_fields n fuel ts :
  Forall read_back ts -> forallb wf_type ts = true -> n < 2 ^ 63 -> Z.of_nat (fields_depth ts) + n < Z.of_nat fuel ->
  Forall2 (reads n) (map (rlp_decode fuel) ts) (map encodes ts).
Proof.
  intros Ha Hwf Hn Hf. induction Ha as [|t ts Ht Hts IH]; simpl in *; [constructor|].
  apply andb_true_iff in Hwf as [Hwf1 Hwf2]. constructor; [apply Ht; [done|done|lia]|apply IH; [done|lia]].
Qed.
Lemma zip_encodes ts : forall l es,
  Forall3 (fun R x e => R x e) (map encodes ts) l es -> length ts = length l /\ Forall2 id (zip_with encodes ts l) es.
Proof.
  induction ts as [|t ts IH]; intros l es H; inversion H; subst; simpl; [by repeat constructor|].
  destruct (IH _ _ ltac:(eassumption)). split; [congruence|by constructor].
Qed.

Lemma iface_list l es :
  Forall2 (fun v e => iface_ok v = true /\ e = enc_iface v) l es -> forallb iface_ok l = true /\ es = map enc_iface l.
Proof. induction 1 as [|v e l es [H1 ->] _ [IH1 ->]]; simpl; [done|]. by rewrite H1, IH1. Qed.

Lemma reads_iface fuel : forall n, n < Z.of_nat fuel -> reads n (rlp_decode fuel IfaceT) (encodes IfaceT).
Proof.
  induction fuel as [|fuel IH]; intros n Hn; [intros s r st _ Hr; pose proof (len_nonneg r); lia|]. cbn [rlp_decode].
  apply reads_iface_eq.
  - eapply reads_mono; [|apply (reads_slice n _ fuel (encodes IfaceT)); [apply IH; lia|lia]].
    intros v e _ (l & es & -> & HF & ->). apply iface_list in HF as [H ->]. done.
  - eapply reads_map; [|apply reads_bytes]. by intros b e ->.
Qed.

Lemma reads_decode t : read_back t.
Proof.
  induction t as [|bits| | | |n|t IH|ts IH|t IH|t IH|] using rtype_induction; intros m fuel Hwf Hm Hf;
    (destruct (Z.ltb_spec m 0); [intros s r st _ Hr; pose proof (len_nonneg r); lia|]);
    (destruct fuel as [|fuel]; [lia|]); simpl in Hwf, Hf; [cbn [rlp_decode] ..|by apply reads_iface].
  - eapply reads_map; [|apply reads_raw]. by intros b e [-> H'].
  - eapply reads_map; [|apply reads_wrap, reads_uint; by apply bool_decide_eq_true in Hwf]. by intros z e.
  - eapply reads_map; [|apply reads_wrap, reads_bool]. by intros z e.
  - eapply reads_mono; [|apply reads_big]. intros v e _ (z & -> & Hz & ->). done.
  - eapply reads_map; [|apply reads_wrap, reads_bytes]. by intros z e.
  - apply negb_true_iff, Nat.eqb_neq in Hwf. eapply reads_mono; [|by apply reads_array]. by intros v e _ (b & -> & Hz & ->).
  - eapply reads_mono; [|apply (reads_slice m _ fuel (encodes t)); [apply IH; [done|lia|lia]|lia]].
    intros v e _ (l & es & -> & HF & ->). by exists es.
  - eapply reads_mono; [|apply reads_struct, (reads_fields (m - 1)); [done|done|lia|lia]].
    intros v e _ (l & es & -> & HF & ->). apply zip_encodes in HF as [? ?]. split; [done|]. by exists es.
  - apply IH; [done|done|lia].
  - eapply reads_mono; [|apply reads_opt; [apply kf_decode; lia|apply reads_len, IH; [done|done|lia]|]].
    + intros v e _ H'. destruct v; simpl in *; tauto.
    + intros v e [Hv He]. eapply encodes_one; [done|lia].
Qed.

(** ** Decoding a whole input *)

Lemma NewStream_ready b : len b < 2 ^ 63 -> ready (NewStream b (len b)) b [].
Proof.
  intros Hb. split; [|done]. repeat split; try done; [|by constructor]. simpl. destruct (Z.ltb_spec 0 (len b)); done.
Qed.

Lemma DecodeBytes_spec t b :
  wf_type t = true -> len b < 2 ^ 63 ->
  exists res, DecodeBytes t b = Done res /\ forall v, res = inr v <-> encodes t v b.
Proof.
  intros Hwf Hb. pose proof (NewStream_ready b Hb) as Rd.
  assert (Hf : Z.of_nat (tdepth t) + len b < Z.of_nat (rlp_fuel t b)) by (unfold rlp_fuel, len; lia).
  assert (Hacc : forall v, encodes t v b -> DecodeBytes t b = Done (inr v)).
  { intros v Hv. destruct (accepts_decode t v b (rlp_fuel t b) Hwf Hv Hb Hf (NewStream b (len b)) [] []) as (s' & E & [(Er & _) _]);
      [by rewrite app_nil_r|done|]. unfold DecodeBytes. rewrite E. cbn. by rewrite Er. }
  assert (Hex : exists res, DecodeBytes t b = Done res /\ forall v, res = inr v -> encodes t v b).
  { destruct (reads_decode t (len b) (rlp_fuel t b) Hwf Hb Hf _ _ _ Rd ltac:(lia))
      as [(v & e & r' & s' & E & He & _ & -> & _ & [(Er & _) _])|[(s' & E & [] & _)|(err & s' & E & _)]];
      unfold DecodeBytes; rewrite E; cbn [outcome_bind]; [|by eexists]. rewrite Er.
    destruct (Z.ltb_spec 0 (len r')) as [|Hr]; [by eexists|]. eexists. split; [done|]. intros v' [= <-].
    destruct r'; [by rewrite app_nil_r|]. unfold len in Hr. simpl in Hr. lia. }
  destruct Hex as (res & E & Hr). exists res. split; [done|]. intros v. split; [apply Hr|].
  intros Hv. rewrite (Hacc v Hv) in E. by injection E.
Qed.

(** ** The encoding of a value is one of its encodings *)

Lemma enc_nil_cases t : enc_nil t = [] \/ is_empty (enc_nil t).
Proof. induction t; simpl; try done; first [by left|by right; left|by right; right]. Qed.

Lemma enc_encodes t : forall v, has_type t v -> encodes t v (enc t v).
Proof.
  induction t as [|bits| | | |n|t IH|ts IH|t IH|t IH|] using rtype_induction; intros v Ht.
  1-6: destruct v; simpl in *; tauto.
  - destruct v as [| | | | |l|]; try done. simpl in *. exists (map (enc t) l). split; [|done].
    apply Forall2_fmap_r, Forall_Forall2_diag. eapply Forall_impl; [exact Ht|exact IH].
  - destruct v as [| | | | |l|]; try done. simpl in *. destruct Ht as [Hl Ht]. split; [done|].
    exists (zip_with enc ts l). split; [|done]. revert l Hl Ht.
    induction IH as [|t ts Hhd _ IH]; intros [|v l] Hl Ht; simpl in *; try done.
    destruct Ht. constructor; [by apply Hhd|apply IH; [congruence|done]].
  - destruct v; simpl in *; try (by destruct Ht); by apply IH, Ht.
  - destruct v; simpl in *; try (right; split; [by apply IH, Ht|unfold is_empty; tauto]).
    left. split; [done|]. by destruct (enc_nil_cases t).
  - destruct v; done.
Qed.

(** Without optional pointers a value has one encoding only. *)
Fixpoint no_optional (t : rtype) : bool :=
  match t with
  | OptPtrT _ => false
  | SliceT t | PtrT t => no_optional t
  | StructT ts => forallb no_optional ts
  | _ => true
  end.

Lemma encodes_elems (P : rval -> Prop) (en : rval -> bytes) (R : rval -> bytes -> Prop) l es :
  (forall v e, R v e -> P v /\ e = en v) -> Forall2 R l es -> Forall P l /\ es = map en l.
Proof. intros H. induction 1 as [|v e l es [Hv ->]%H _ [IH ->]]; simpl; split; try done; by constructor. Qed.

Definition unique_enc (t : rtype) : Prop :=
  forall v e, wf_type t = true -> no_optional t = true -> encodes t v e -> has_type t v /\ e = enc t v.

Lemma fields_unique ts : forall l es,
  Forall unique_enc ts -> forallb wf_type ts = true -> forallb no_optional ts = true -> length ts = length l ->
  Forall2 id (zip_with encodes ts l) es -> foldr and True (zip_with has_type ts l) /\ es = zip_with enc ts l.
Proof.
  intros l es IH. revert l es. induction IH as [|t ts Hhd _ IH]; intros [|v l] es Hwf Hno Hl HF; try done; [by inversion HF|].
  simpl in *. apply andb_true_iff in Hwf as [Hw1 Hw2], Hno as [Hn1 Hn2]. inversion HF as [|? e ? es' He HF']; subst.
  destruct (Hhd v e Hw1 Hn1 He) as [? ->]. destruct (IH l es' Hw2 Hn2 ltac:(congruence) HF') as [? ->]. done.
Qed.

Lemma encodes_unique t : unique_enc t.
Proof.
  induction t as [|bits| | | |n|t IH|ts IH|t IH|t IH|] using rtype_induction; intros v e Hwf Hno H; simpl in Hwf, Hno.
  1-5: destruct v; simpl in *; try done; destruct_and?; subst; split_and?; try done.
  - by apply bool_decide_eq_true in Hwf.
  - destruct v; simpl in *; try done. destruct H as [? ->]. split; [|done]. split; [done|]. intros ->. simpl in *. subst n. done.
  - destruct v as [| | | | |l|]; try done. destruct H as (es & HF & ->). simpl.
    apply (encodes_elems (has_type t) (enc t)) in HF as [? ->]; [done|]. intros v e. by apply IH.
  - destruct v as [| | | | |l|]; try done. destruct H as (Hl & es & HF & ->). simpl.
    destruct (fields_unique ts l es IH Hwf Hno Hl HF) as [? ->]. done.
  - assert (H' : encodes t v e) by (by destruct v). destruct (IH v e Hwf Hno H') as [Ht ->].
    assert (Hv : v <> VNil).
    { intros ->. clear -Ht Hno. induction t as [| | | | | | | |t IH| |]; simpl in Ht; try done. by destruct Ht. }
    destruct v; try done; by split.
  - done.
  - destruct H as [H ->]. by destruct v.
Qed.
