(* ===== verification/RlpRaw.v ===== *)
(** Splitting encoded values without decoding them: rlp/raw.go. *)
From S2P Require Import Prelude BigMath Rlp RlpDecode RlpFacts RlpDecodeFacts RlpTyped.

Implicit Types (b c e r : bytes).

(** The encoding [e] of a value of kind [k] with content [c]. *)
Definition small_byte c : Prop := exists x, c = [x] /\ b2z x < 0x80.
Definition is_item (k : Kind) c e : Prop :=
  match k with
  | KByte => small_byte c /\ e = c
  | KString => ~ small_byte c /\ e = puthead 0x80 0xB7 (len c) ++ c
  | KList => e = enc_list c
  end.


Lemma raw_readSize_iff n b sz :
  1 <= n <= 8 ->
  raw_readSize b n = inr sz <-> 56 <= sz < 2 ^ 64 /\ len (putint sz) = n /\ exists r, b = putint sz ++ r.
Proof.
  intros Hn. unfold raw_readSize. split.
  - destruct (Z.ltb_spec (len b) n) as [|Hl]; [done|]. destruct (_ || _) eqn:Hc; [done|]. intros [= <-].
    apply orb_false_iff in Hc as [Hs%Z.ltb_ge Hlead]. set (c := take (Z.to_nat n) b) in *.
    assert (Hlc : len c = n) by (unfold c, len in *; rewrite length_take; lia).
    assert (Hnl : no_lead c).
    { unfold c. destruct b as [|x b]; [done|]. replace (Z.to_nat n) with (S (Z.to_nat (n - 1))) by lia. simpl. by apply Z.eqb_neq. }
    rewrite (putint_canonical c n Hlc Hn); [|by right|lia]. pose proof (big_SetBytes_range c) as Hr. rewrite Hlc in Hr.
    assert (256 ^ n <= 256 ^ 8) by (apply Z.pow_le_mono_r; lia). change (256 ^ 8) with (2 ^ 64) in *.
    split; [lia|]. split; [done|]. exists (drop (Z.to_nat n) b). symmetry. apply take_drop.
  - intros (Hs & Hl & r & ->). rewrite len_app. pose proof (len_nonneg r). ltb_false.
    replace (Z.to_nat n) with (length (putint sz)) by (unfold len in Hl; lia). rewrite take_app_length.
    rewrite putint_big_Bytes, big_Bytes_value, Z.abs_eq by lia. ltb_false. rewrite orb_false_l.
    pose proof (big_Bytes_no_lead sz) as Hnl. rewrite putint_big_Bytes in Hl by lia.
    destruct (big_Bytes sz) as [|x l]; [change (@len byte []) with 0 in Hl; lia|]. simpl. simpl in Hnl. by apply Z.eqb_neq in Hnl; rewrite Hnl.
Qed.

(** ** The tag *)

Definition raw_tag (x : byte) (buf1 : bytes) : rlpError + (Kind * Z * Z) :=
  let b := b2z x in
  if b <? 0x80 then inr (KByte, 0, 1)
  else if b <? 0xB8 then
    let contentsize := b - 0x80 in
    if (contentsize =? 1) && match buf1 with x :: _ => b2z x <? 128 | [] => false end
    then inl ErrCanonSize else inr (KString, 1, contentsize)
  else if b <? 0xC0 then
    match raw_readSize buf1 (b - 0xB7) with inl err => inl err | inr n => inr (KString, b - 0xB7 + 1, n) end
  else if b <? 0xF8 then inr (KList, 1, b - 0xC0)
  else
    match raw_readSize buf1 (b - 0xF7) with inl err => inl err | inr n => inr (KList, b - 0xF7 + 1, n) end.

Lemma raw_readKind_cons x b :
  raw_readKind (x :: b) =
    match raw_tag x b with
    | inl err => inl err
    | inr (k, ts, cs) => if u64 (len (x :: b) - ts) <? cs then inl ErrValueTooLarge else inr (k, ts, cs)
    end.
Proof. reflexivity. Qed.

(** What follows a tag: nothing for a byte, and no small byte alone for a
    string. *)
Definition tagged (k : Kind) (h : bytes) (cs : Z) r : Prop :=
  match k with
  | KByte => h = [] /\ cs = 1 /\ exists x r', r = x :: r' /\ b2z x < 0x80
  | KString => 0 <= cs < 2 ^ 64 /\ h = puthead 0x80 0xB7 cs /\ (cs = 1 -> forall x r', r = x :: r' -> 0x80 <= b2z x)
  | KList => 0 <= cs < 2 ^ 64 /\ h = puthead 0xC0 0xF7 cs
  end.

Lemma puthead_short st lt sz x : 0 <= sz < 56 -> b2z x = st + sz -> puthead st lt sz = [x].
Proof. intros Hs Hx. unfold puthead. ltb_true. by rewrite <-Hx, z2b_b2z. Qed.
Lemma puthead_long st lt sz x : 56 <= sz -> b2z x = lt + len (putint sz) -> puthead st lt sz = x :: putint sz.
Proof. intros Hs Hx. unfold puthead. ltb_false. by rewrite <-Hx, z2b_b2z. Qed.

Lemma raw_tag_sound x b k ts cs :
  raw_tag x b = inr (k, ts, cs) -> exists h r, x :: b = h ++ r /\ len h = ts /\ tagged k h cs r.
Proof.
  unfold raw_tag. pose proof (b2z_range x) as Hx.
  destruct (Z.ltb_spec (b2z x) 128); [intros [= <- <- <-]; exists [], (x :: b); split; [done|]; split; [done|]; by repeat split; eauto|].
  destruct (Z.ltb_spec (b2z x) 184).
  { destruct (_ && _) eqn:Hc; [done|]. intros [= <- <- <-]. exists [x], b. split; [done|]. split; [done|]. split; [lia|].
    split; [by rewrite (puthead_short _ _ _ x) by lia|]. intros H1 y r' ->. rewrite H1 in Hc. simpl in Hc. by apply Z.ltb_ge in Hc. }
  destruct (Z.ltb_spec (b2z x) 192).
  { destruct (raw_readSize b _) as [|n] eqn:E; [done|]. intros [= <- <- <-]. apply raw_readSize_iff in E as (Hs & Hl & r & ->); [|lia].
    exists (x :: putint n), r. split; [done|]. split; [rewrite len_cons; lia|]. split; [lia|]. split; [|lia].
    symmetry. apply puthead_long; lia. }
  destruct (Z.ltb_spec (b2z x) 248).
  { intros [= <- <- <-]. exists [x], b. split; [done|]. split; [done|]. split; [lia|]. by rewrite (puthead_short _ _ _ x) by lia. }
  destruct (raw_readSize b _) as [|n] eqn:E; [done|]. intros [= <- <- <-]. apply raw_readSize_iff in E as (Hs & Hl & r & ->); [|lia].
  exists (x :: putint n), r. split; [done|]. split; [rewrite len_cons; lia|]. split; [lia|].
  symmetry. apply puthead_long; lia.
Qed.

Lemma raw_tag_complete k h cs x b r :
  tagged k h cs r -> x :: b = h ++ r -> raw_tag x b = inr (k, len h, cs).
Proof.
  unfold raw_tag. destruct k; cbn [tagged].
  - intros (-> & -> & y & r' & -> & Hy) [= <- <-]. by ltb_true.
  - intros (Hs & -> & Hc) E. unfold puthead in *. destruct (Z.ltb_spec cs 56) as [Hlt|Hge]; injection E as -> ->.
    + rewrite b2z_tag by lia. ltb_false. ltb_true. replace (128 + cs - 128) with cs by lia.
      destruct (Z.eqb_spec cs 1) as [->|]; [|done]. destruct r as [|y r']; [done|]. specialize (Hc eq_refl y r' eq_refl).
      cbn [andb]. by ltb_false.
    + pose proof (putint_range cs Hs). rewrite b2z_tag by lia. do 2 ltb_false. ltb_true. rewrite len_cons.
      replace (183 + len (putint cs) - 183) with (len (putint cs)) by lia.
      rewrite (proj2 (raw_readSize_iff (len (putint cs)) _ cs ltac:(lia))) by (split; [lia|eauto]). do 2 f_equal. f_equal. lia.
  - intros (Hs & ->) E. unfold puthead in *. destruct (Z.ltb_spec cs 56) as [Hlt|Hge]; injection E as -> ->.
    + rewrite b2z_tag by lia. do 3 ltb_false. ltb_true. do 2 f_equal. lia.
    + pose proof (putint_range cs Hs). rewrite b2z_tag by lia. do 4 ltb_false. rewrite len_cons.
      replace (247 + len (putint cs) - 247) with (len (putint cs)) by lia.
      rewrite (proj2 (raw_readSize_iff (len (putint cs)) _ cs ltac:(lia))) by (split; [lia|eauto]). do 2 f_equal. f_equal. lia.
Qed.

(** ** Values *)

Lemma raw_readKind_iff b k ts cs :
  len b < 2 ^ 63 ->
  raw_readKind b = inr (k, ts, cs) <->
    exists h c r, b = h ++ c ++ r /\ is_item k c (h ++ c) /\ ts = len h /\ cs = len c.
Proof.
  intros Hb. split.
  - destruct b as [|x b]; [done|]. rewrite raw_readKind_cons. destruct (raw_tag x b) as [|[[k' ts'] cs']] eqn:E; [done|].
    apply raw_tag_sound in E as (h & r & E & <- & Ht). rewrite E in *. rewrite len_app in *.
    replace (len h + len r - len h) with (len r) by lia. pose proof (len_nonneg h). pose proof (len_nonneg r).
    rewrite u64_small by (unfold is_u64; lia). destruct (Z.ltb_spec (len r) cs') as [|Hcs]; [done|]. intros [= <- <- <-].
    exists h, (take (Z.to_nat cs') r), (drop (Z.to_nat cs') r). rewrite take_drop. split; [done|].
    assert (Hcs0 : 0 <= cs') by (destruct k'; simpl in Ht; lia).
    assert (Hlc : len (take (Z.to_nat cs') r) = cs') by (unfold len in *; rewrite length_take; lia).
    split; [|by rewrite Hlc]. destruct k'; simpl in *.
    + destruct Ht as (-> & -> & y & r' & -> & Hy). simpl. rewrite take_0. by split; [exists y|].
    + destruct Ht as (Hs & -> & Hc). rewrite Hlc. split; [|done]. intros (y & Ey & Hy). rewrite Ey in Hlc. change (len [y]) with 1 in Hlc.
      destruct r as [|y' r']; [by destruct (Z.to_nat cs')|]. subst cs'. simpl in Ey. injection Ey as <-.
      specialize (Hc eq_refl y' r' eq_refl). lia.
    + destruct Ht as (Hs & ->). unfold enc_list. by rewrite Hlc.
  - intros (h & c & r & -> & Hi & -> & ->). rewrite !len_app in Hb. pose proof (len_nonneg h). pose proof (len_nonneg r). pose proof (len_nonneg c).
    assert (Ht : tagged k h (len c) (c ++ r) /\ h ++ c <> []).
    { destruct k; simpl in *.
      - destruct Hi as [(y & -> & Hy) Eh]. destruct h as [|z h]; [|apply (f_equal length) in Eh; rewrite length_app in Eh; simpl in Eh; lia].
        by repeat split; eauto.
      - destruct Hi as [Hn ->%app_inv_tail]. repeat split; try lia.
        + intros Hl x r' E. destruct (Z.leb_spec 128 (b2z x)); [done|]. destruct Hn. exists x.
          destruct c as [|y [|z c]]; try (unfold len in Hl; simpl in Hl; lia). by injection E as -> _.
        + unfold puthead. by destruct (_ <? 56).
      - apply app_inv_tail in Hi as ->. repeat split; try lia. unfold puthead. by destruct (_ <? 56). }
    destruct Ht as [Ht Hne]. rewrite app_assoc. destruct (h ++ c) as [|x b] eqn:E; [done|]. cbn [app]. rewrite raw_readKind_cons.
    assert (E' : x :: b ++ r = h ++ c ++ r) by (by rewrite app_assoc, E).
    rewrite (raw_tag_complete _ _ _ _ _ _ Ht E'), E', !len_app.
    replace (len h + (len c + len r) - len h) with (len c + len r) by lia. rewrite u64_small by (unfold is_u64; lia). by ltb_false.
Qed.

Lemma is_item_head k c e : is_item k c e -> exists h, e = h ++ c.
Proof. destruct k; simpl; [intros [_ ->]; by exists []|intros [_ ->]; by eexists|intros ->; by eexists]. Qed.
Lemma raw_readKind_item k c e r :
  is_item k c e -> len (e ++ r) < 2 ^ 63 -> raw_readKind (e ++ r) = inr (k, len e - len c, len c).
Proof.
  intros Hi Hb. destruct (is_item_head k c e Hi) as (h & ->). apply raw_readKind_iff; [done|].
  exists h, c, r. rewrite app_assoc, len_app. do 2 (split; [done|]). split; [lia|done].
Qed.
Lemma is_item_len k c e : is_item k c e -> len c < 2 ^ 63 -> len c <= len e /\ 0 < len e.
Proof.
  intros Hi Hc. pose proof (len_nonneg c). destruct k; simpl in Hi.
  - destruct Hi as [(x & -> & _) ->]. by split.
  - destruct Hi as [_ ->]. rewrite len_app. pose proof (puthead_range 0x80 0xB7 (len c)). lia.
  - subst e. unfold enc_list. rewrite len_app. pose proof (puthead_range 0xC0 0xF7 (len c)). lia.
Qed.

Lemma drop_len h r : drop (Z.to_nat (len h)) (h ++ r) = r.
Proof. unfold len. by rewrite Nat2Z.id, drop_app_length. Qed.
Lemma take_len h r : take (Z.to_nat (len h)) (h ++ r) = h.
Proof. unfold len. by rewrite Nat2Z.id, take_app_length. Qed.

Lemma Split_item k c e r :
  is_item k c e -> len (e ++ r) < 2 ^ 63 -> Split (e ++ r) = Done (inr (k, c, r)).
Proof.
  intros Hi Hb. unfold Split. rewrite (raw_readKind_item k c e r Hi Hb). destruct (is_item_head k c e Hi) as (h & ->).
  rewrite !len_app in *. pose proof (len_nonneg h). pose proof (len_nonneg r). pose proof (len_nonneg c).
  replace (len h + len c - len c) with (len h) by lia. rewrite u64_small by (unfold is_u64; lia).
  rewrite !slice_done by (rewrite ?len_app; lia). cbn [outcome_bind]. rewrite <-len_app, drop_len.
  rewrite <-(app_assoc h c r), drop_len. replace (len (h ++ c) - len h) with (len c) by (rewrite len_app; lia). rewrite take_len.
  rewrite take_ge; [done|]. rewrite !len_app. unfold len. lia.
Qed.

(** [Split] takes the first value apart, whatever it is. *)
Lemma Split_spec b :
  len b < 2 ^ 63 ->
  exists res, Split b = Done res /\
    forall k c rest, res = inr (k, c, rest) <-> exists e, b = e ++ rest /\ is_item k c e.
Proof.
  intros Hb. destruct (raw_readKind b) as [err|[[k ts] cs]] eqn:E.
  - exists (inl err). split; [unfold Split; by rewrite E|]. intros k c rest. split; [done|]. intros (e & -> & Hi).
    by rewrite (raw_readKind_item k c e rest) in E.
  - apply raw_readKind_iff in E as (h & c & r & -> & Hi & -> & ->); [|done]. rewrite app_assoc in *.
    exists (inr (k, c, r)). rewrite (Split_item k c) by done. split; [done|]. intros k' c' rest. split.
    + intros [= <- <- <-]. by exists (h ++ c).
    + intros (e & E & Hi'). pose proof (Split_item k' c' e rest Hi') as E'. rewrite <-E in E'.
      rewrite (Split_item k c) in E' by done. specialize (E' Hb). congruence.
Qed.

(** ** Counting *)

Definition item e : Prop := exists k c, is_item k c e.

Lemma CountValues_loop_step fuel k c e r i :
  is_item k c e -> len (e ++ r) < 2 ^ 63 -> CountValues_loop (S fuel) (e ++ r) i = CountValues_loop fuel r (i + 1).
Proof.
  intros Hi Hb. cbn [CountValues_loop]. rewrite (raw_readKind_item k c e r Hi Hb).
  destruct (is_item_head k c e Hi) as (h & ->). rewrite !len_app in *.
  pose proof (len_nonneg h). pose proof (len_nonneg r). pose proof (len_nonneg c).
  destruct (is_item_len k c (h ++ c) Hi ltac:(lia)) as [_ Hpos]. rewrite len_app in Hpos.
  replace (len h + len c - len c + len c) with (len (h ++ c)) by (rewrite len_app; lia).
  rewrite u64_small by (unfold is_u64; rewrite len_app; lia). destruct (Z.eqb_spec (len h + len c + len r) 0); [lia|].
  rewrite slice_done by (rewrite ?len_app; lia). cbn [outcome_bind].
  rewrite drop_len, take_ge by (rewrite len_app; unfold len; lia). done.
Qed.

Lemma CountValues_loop_items es : forall fuel i,
  Forall item es -> len (concat es) < 2 ^ 63 -> (length (concat es) <= fuel)%nat ->
  CountValues_loop fuel (concat es) i = Done (inr (i + Z.of_nat (length es))).
Proof.
  induction es as [|e es IH]; intros fuel i Hes Hl Hf.
  - simpl. rewrite Z.add_0_r. by destruct fuel.
  - inversion_clear Hes as [|? ? (k & c & Hi) Hes']. simpl in *. rewrite len_app in Hl. rewrite length_app in Hf.
    pose proof (len_nonneg e). pose proof (len_nonneg (concat es)).
    assert (Hc : len c < 2 ^ 63) by (destruct (is_item_head k c e Hi) as (h & ->); rewrite len_app in Hl; pose proof (len_nonneg h); lia).
    destruct (is_item_len k c e Hi Hc) as [_ Hpos]. unfold len in Hpos. destruct fuel as [|fuel]; [lia|].
    rewrite (CountValues_loop_step fuel k c) by (done || rewrite len_app; lia). rewrite IH; [do 2 f_equal; lia|done|lia|lia].
Qed.

Lemma CountValues_loop_total fuel : forall b i,
  len b < 2 ^ 63 -> (length b <= fuel)%nat ->
  (exists es, b = concat es /\ Forall item es) \/ (exists err, CountValues_loop fuel b i = Done (inl err)).
Proof.
  induction fuel as [|fuel IH]; intros b i Hb Hf; (destruct (decide (b = [])) as [->|Hne]; [left; by exists []|]).
  - destruct b; [done|simpl in Hf; lia].
  - destruct (raw_readKind b) as [err|[[k ts] cs]] eqn:E.
    + right. exists err. cbn [CountValues_loop]. rewrite E. destruct (Z.eqb_spec (len b) 0) as [H0|_]; [|done].
      destruct b; [done|unfold len in H0; simpl in H0; lia].
    + apply raw_readKind_iff in E as (h & c & r & -> & Hi & _); [|done]. rewrite app_assoc in *.
      rewrite (CountValues_loop_step fuel k c) by done. rewrite !len_app in Hb. pose proof (len_nonneg h). pose proof (len_nonneg r). pose proof (len_nonneg c).
      destruct (is_item_len k c (h ++ c) Hi ltac:(lia)) as [_ Hpos].
      destruct (IH r (i + 1)) as [(es & -> & Hes)|He]; [lia|rewrite length_app in Hf; unfold len in Hpos; lia| |by right].
      left. exists ((h ++ c) :: es). split; [done|]. constructor; [by exists k, c|done].
Qed.

(** [CountValues] gives the number of values that make up its input. *)
Lemma CountValues_spec b :
  len b < 2 ^ 63 ->
  exists res, CountValues b = Done res /\
    forall n, res = inr n <-> exists es, b = concat es /\ Forall item es /\ n = Z.of_nat (length es).
Proof.
  intros Hb. unfold CountValues.
  assert (Hok : forall es, b = concat es -> Forall item es -> CountValues_loop (length b) b 0 = Done (inr (Z.of_nat (length es)))).
  { intros es -> Hes. by rewrite CountValues_loop_items. }
  destruct (CountValues_loop_total (length b) b 0 Hb ltac:(lia)) as [(es & Eb & Hes)|(err & E)].
  - rewrite (Hok es Eb Hes). eexists. split; [done|]. intros n. split; [intros [= <-]; eauto|].
    intros (es' & Eb' & Hes' & ->). pose proof (Hok es Eb Hes) as H1. rewrite (Hok es' Eb' Hes') in H1. congruence.
  - rewrite E. eexists. split; [done|]. intros n. split; [done|]. intros (es & Eb & Hes & _).
    rewrite (Hok es Eb Hes) in E. congruence.
Qed.
