(* ===== verification/RlpWriter.v ===== *)
(** Encoding into an [io.Writer] and from an [io.Reader]: [Encode] and
    [EncodeToReader] of rlp/encode.go, which give the bytes of
    [EncodeToBytes] in pieces. *)
From S2P Require Import Prelude BigMath Rlp RlpFacts.

(** ** Encode

    [Write b w] is the writer's method: the number of bytes it took and its
    error. *)
Section Writer.
Context {W : Type} (Write : bytes -> W -> Z * option rlpError * W).

Fixpoint toWriter_loop (heads : list listhead) (str : bytes) (strpos : Z) (out : W)
  : outcome (option rlpError * W) :=
  match heads with
  | [] =>
      if strpos <? len str then
        let* rest := slice str strpos (len str) in
        let '(_, err, out) := Write rest out in Done (err, out)
      else Done (None, out)
  | head :: heads =>
      let* r :=
        (if 0 <? lh_offset head - strpos then
           let* chunk := slice str strpos (lh_offset head) in
           let '(n, err, out) := Write chunk out in Done (strpos + n, err, out)
         else Done (strpos, None, out)) in
      match r with
      | (_, Some err, out) => Done (Some err, out)
      | (strpos, None, out) =>
          let '(_, err, out) := Write (listhead_encode head) out in
          match err with
          | Some err => Done (Some err, out)
          | None => toWriter_loop heads str strpos out
          end
      end
  end.
Definition toWriter (w : encbuf) (out : W) : outcome (option rlpError * W) :=
  toWriter_loop (eb_lheads w) (eb_str w) 0 out.

Definition Encode (t : rtype) (v : rval) (out : W) : outcome (option rlpError * W) :=
  match write t v eb_new with
  | inl err => Done (Some err, out)
  | inr eb => toWriter eb out
  end.
End Writer.

(** ** EncodeToReader *)

Record encReader := mkEncReader {
  er_buf : option encbuf;
  er_lhpos : nat;
  er_strpos : Z;
  er_piece : option bytes
}.

Definition EncodeToReader (t : rtype) (v : rval) : rlpError + (Z * encReader) :=
  match write t v eb_new with
  | inl err => inl err
  | inr eb => inr (eb_size eb, mkEncReader (Some eb) 0 0 None)
  end.

Definition er_next (r : encReader) : outcome (option bytes * encReader) :=
  match er_buf r, er_piece r with
  | None, _ => Done (None, r)
  | Some _, Some p => Done (Some p, r)
  | Some buf, None =>
      match eb_lheads buf !! er_lhpos r with
      | Some head =>
          let sizebefore := lh_offset head - er_strpos r in
          if 0 <? sizebefore then
            let* p := slice (eb_str buf) (er_strpos r) (lh_offset head) in
            Done (Some p, mkEncReader (Some buf) (er_lhpos r) (er_strpos r + sizebefore) None)
          else Done (Some (listhead_encode head), mkEncReader (Some buf) (S (er_lhpos r)) (er_strpos r) None)
      | None =>
          if er_strpos r <? len (eb_str buf) then
            let* p := slice (eb_str buf) (er_strpos r) (len (eb_str buf)) in
            Done (Some p, mkEncReader (Some buf) (er_lhpos r) (len (eb_str buf)) None)
          else Done (None, r)
      end
  end.

(** [Read] into a slice of [size] bytes, of which [out] has been filled.  The
    fuel bounds the number of pieces. *)
Fixpoint er_Read_loop (fuel : nat) (size : Z) (out : bytes) (r : encReader)
  : outcome (bytes * option rlpError * encReader) :=
  match fuel with
  | O => NoFuel
  | S fuel =>
      let* pr := er_next r in
      let '(piece, r) := pr in
      match piece with
      | None => Done (out, Some io_EOF, mkEncReader None (er_lhpos r) (er_strpos r) None)
      | Some piece =>
          let nn := Z.min (size - len out) (len piece) in
          let out := out ++ take (Z.to_nat nn) piece in
          if nn <? len piece
          then Done (out, None, mkEncReader (er_buf r) (er_lhpos r) (er_strpos r) (Some (drop (Z.to_nat nn) piece)))
          else er_Read_loop fuel size out (mkEncReader (er_buf r) (er_lhpos r) (er_strpos r) None)
      end
  end.
Definition er_fuel (r : encReader) : nat :=
  match er_buf r with None => 1 | Some buf => 2 * length (eb_lheads buf) + 4 end.
Definition er_Read (size : Z) (r : encReader) : outcome (bytes * option rlpError * encReader) :=
  er_Read_loop (er_fuel r) size [] r.

(** ** The pieces *)

Fixpoint flat_heads (heads : list listhead) (str : bytes) (strpos : Z) : bytes :=
  match heads with
  | [] => drop (Z.to_nat strpos) str
  | h :: heads =>
      take (Z.to_nat (lh_offset h - strpos)) (drop (Z.to_nat strpos) str) ++ listhead_encode h ++
      flat_heads heads str (lh_offset h)
  end.
(** The offsets of the heads from [strpos] on do not decrease. *)
Fixpoint ordered (heads : list listhead) (strpos n : Z) : Prop :=
  match heads with
  | [] => 0 <= strpos <= n
  | h :: heads => 0 <= strpos <= lh_offset h /\ ordered heads (lh_offset h) n
  end.

Lemma heads_flat T : forall pre pend,
  (forall n, inr n ∈ T -> 0 <= n < 2 ^ 64) ->
  flat_heads (heads (len pre + len pend) T) (pre ++ pend ++ strs T) (len pre) = pend ++ flat T /\
  ordered (heads (len pre + len pend) T) (len pre) (len (pre ++ pend ++ strs T)).
Proof.
  assert (Hd : forall p q : bytes, drop (Z.to_nat (len p)) (p ++ q) = q) by (intros; unfold len; by rewrite Nat2Z.id, drop_app_length).
  assert (Ht : forall p q : bytes, take (Z.to_nat (len p)) (p ++ q) = p) by (intros; unfold len; by rewrite Nat2Z.id, take_app_length).
  induction T as [|[b|n] T IH]; intros pre pend Hn; cbn [heads flat_heads strs flat ordered];
    pose proof (len_nonneg pend); pose proof (len_nonneg pre).
  - rewrite Hd. split; [done|]. rewrite !len_app. pose proof (len_nonneg (@nil byte)). lia.
  - replace (len pre + len pend + len b) with (len pre + len (pend ++ b)) by (rewrite len_app; lia).
    destruct (IH pre (pend ++ b)) as [E O]; [intros n Hm; apply Hn; by right|]. rewrite <-!app_assoc in *. done.
  - cbn [lh_offset]. replace (len pre + len pend - len pre) with (len pend) by lia. rewrite Hd, Ht.
    unfold listhead_encode. cbn [lh_size]. rewrite u64_small by (apply Hn; by left).
    destruct (IH (pre ++ pend) []) as [E O]; [intros m Hm; apply Hn; by right|]. cbn [app] in E, O.
    change (@len byte []) with 0 in E, O. rewrite Z.add_0_r, <-app_assoc in E, O. rewrite (len_app pre pend) in E, O.
    rewrite E. split; [done|]. split; [lia|done].
Qed.

(** Encoding, whichever way it is taken out. *)
Lemma write_flat t v :
  has_type t v -> len (enc t v) < 2 ^ 64 ->
  exists eb, write t v eb_new = inr eb /\ flat_heads (eb_lheads eb) (eb_str eb) 0 = enc t v /\
    ordered (eb_lheads eb) 0 (len (eb_str eb)) /\ eb_size eb = len (enc t v).
Proof.
  intros Ht Hlen. destruct (write_emits t v Ht Hlen) as (T & HT & HF & HN). exists (emit T eb_new).
  destruct (heads_flat T [] [] HN) as [E O]. split; [apply HT|]. split; [by rewrite <-HF|]. split; [exact O|].
  unfold eb_size. simpl. rewrite <-HF, flat_len. lia.
Qed.

(** ** Writers *)

(** A writer that takes everything: [R b w] says that [w] has taken [b].  A
    hash function, a buffer and a counter are such writers. *)
Definition appends {W} (Write : bytes -> W -> Z * option rlpError * W) (R : bytes -> W -> Prop) : Prop :=
  forall b w a, R a w -> exists w', Write b w = (len b, None, w') /\ R (a ++ b) w'.

Lemma ordered_le heads : forall strpos n, ordered heads strpos n -> 0 <= strpos <= n.
Proof. induction heads as [|h heads IH]; intros strpos n H; simpl in H; [done|]. destruct H as [? ?%IH]. lia. Qed.

Lemma toWriter_loop_spec {W} (Write : bytes -> W -> Z * option rlpError * W) R heads : forall str strpos w a,
  appends Write R -> ordered heads strpos (len str) -> R a w ->
  exists w', toWriter_loop Write heads str strpos w = Done (None, w') /\ R (a ++ flat_heads heads str strpos) w'.
Proof.
  induction heads as [|h heads IH]; intros str strpos w a HW HO Ha; cbn [toWriter_loop flat_heads ordered] in *.
  - destruct (Z.ltb_spec strpos (len str)).
    + rewrite slice_done by lia. cbn [outcome_bind]. rewrite take_ge by (rewrite length_drop; unfold len; lia).
      destruct (HW (drop (Z.to_nat strpos) str) w a Ha) as (w' & -> & E). by exists w'.
    + exists w. rewrite drop_ge, app_nil_r by (unfold len in *; lia). done.
  - destruct HO as [Ho HO]. pose proof (ordered_le _ _ _ HO) as Hle.
    set (c := take (Z.to_nat (lh_offset h - strpos)) (drop (Z.to_nat strpos) str)).
    assert (Hc : len c = lh_offset h - strpos) by (unfold c, len in *; rewrite length_take, length_drop; lia).
    assert (Hchunk : exists w1, (if 0 <? lh_offset h - strpos then
        let* chunk := slice str strpos (lh_offset h) in
        let '(n, err, out) := Write chunk w in Done (strpos + n, err, out)
      else Done (strpos, None, w)) = Done (lh_offset h, None, w1) /\ R (a ++ c) w1).
    { destruct (Z.ltb_spec 0 (lh_offset h - strpos)).
      - rewrite slice_done by lia. cbn [outcome_bind]. fold c. destruct (HW c w a Ha) as (w1 & -> & E). exists w1.
        split; [do 3 f_equal; lia|done].
      - exists w. split; [do 3 f_equal; lia|]. unfold c. replace (Z.to_nat _) with 0%nat by lia. by rewrite app_nil_r. }
    destruct Hchunk as (w1 & -> & E1). cbn [outcome_bind]. destruct (HW (listhead_encode h) w1 _ E1) as (w2 & -> & E2).
    destruct (IH str (lh_offset h) w2 _ HW HO E2) as (w3 & -> & E3). exists w3. split; [done|].
    by rewrite <-!app_assoc in E3.
Qed.

(** [Encode] writes the bytes that [EncodeToBytes] gives. *)
Lemma Encode_spec {W} (Write : bytes -> W -> Z * option rlpError * W) R t v w a :
  appends Write R -> has_type t v -> len (enc t v) < 2 ^ 64 -> R a w ->
  exists w', Encode Write t v w = Done (None, w') /\ R (a ++ enc t v) w'.
Proof.
  intros HW Ht Hl Ha. destruct (write_flat t v Ht Hl) as (eb & E & EF & HO & _). unfold Encode, toWriter. rewrite E.
  destruct (toWriter_loop_spec Write R (eb_lheads eb) (eb_str eb) 0 w a HW HO Ha) as (w' & -> & E'). exists w'. by rewrite <-EF.
Qed.

(** ** Any value

    Whatever is written, the list heads stay in order and the buffer knows
    the size of what it holds, so that neither [Encode] nor [EncodeToBytes]
    panics. *)

(** The size that [listEnd] counts for a head. *)
Definition head_count (sz : Z) : Z := if sz <? 56 then 1 else 1 + intsize (u64 sz).
Fixpoint heads_count (heads : list listhead) : Z :=
  match heads with [] => 0 | h :: heads => head_count (lh_size h) + heads_count heads end.

(** What a writer adds to the buffer. *)
Definition grows (w w' : encbuf) : Prop :=
  exists b heads, eb_str w' = eb_str w ++ b /\ eb_lheads w' = eb_lheads w ++ heads /\
    eb_lhsize w' = eb_lhsize w + heads_count heads /\ ordered heads (len (eb_str w)) (len (eb_str w')) /\
    Forall (fun h => 0 <= lh_size h) heads.
Definition keeps_ok (wr : writer) : Prop := forall w w', wr w = inr w' -> grows w w'.

Lemma head_count_pos sz : 1 <= head_count sz.
Proof.
  unfold head_count. assert (Hu : 0 <= u64 sz < 2 ^ 64) by apply u64_range. rewrite intsize_putint by done.
  pose proof (putint_range (u64 sz) Hu). destruct (_ <? _); lia.
Qed.
Lemma heads_count_nonneg l : 0 <= heads_count l.
Proof. induction l as [|h l IH]; simpl; [lia|]. pose proof (head_count_pos (lh_size h)). lia. Qed.
Lemma heads_count_app l k : heads_count (l ++ k) = heads_count l + heads_count k.
Proof. induction l as [|h l IH]; simpl; rewrite ?IH; lia. Qed.
Lemma ordered_grow heads : forall p n n', ordered heads p n -> n <= n' -> ordered heads p n'.
Proof. induction heads as [|h heads IH]; intros p n n' H Hn; simpl in *; [lia|]. destruct H. split; [done|by eapply IH]. Qed.
Lemma ordered_later heads p p' n : 0 <= p' -> p' <= p -> ordered heads p n -> ordered heads p' n.
Proof. destruct heads; simpl; intros; [lia|]. destruct_and?. split; [lia|done]. Qed.
Lemma ordered_app l k : forall p n n', ordered l p n -> ordered k n n' -> ordered (l ++ k) p n'.
Proof.
  induction l as [|h l IH]; intros p n n' Hl Hk; simpl in *; [by eapply ordered_later; [..|exact Hk]; lia|].
  destruct Hl. split; [done|by eapply IH].
Qed.
Lemma grows_append b w : grows w (eb_append b w).
Proof.
  exists b, []. simpl. rewrite app_nil_r, len_app. pose proof (len_nonneg b). pose proof (len_nonneg (eb_str w)).
  do 2 (split; [done|]). split; [lia|]. split; [lia|constructor].
Qed.
Lemma grows_trans w1 w2 w3 : grows w1 w2 -> grows w2 w3 -> grows w1 w3.
Proof.
  intros (b1 & h1 & E1 & E2 & E3 & O1 & P1) (b2 & h2 & F1 & F2 & F3 & O2 & P2). exists (b1 ++ b2), (h1 ++ h2).
  rewrite heads_count_app, F1, F2, F3, E1, E2, E3, !app_assoc in *. do 2 (split; [done|]). split; [lia|].
  split; [by eapply ordered_app|by apply Forall_app].
Qed.
Lemma grows_string b w : grows w (encodeString b w).
Proof.
  assert (Hh : forall n, grows w (encodeStringHeader n w)) by (intros; unfold encodeStringHeader; destruct (_ <? _); apply grows_append).
  unfold encodeString. destruct b as [|x [|y b]]; [|destruct (_ <=? _); [apply grows_append|]|];
    (eapply grows_trans; [apply Hh|apply grows_append]).
Qed.
Lemma write_all_ok ws : Forall keeps_ok ws -> keeps_ok (write_all ws).
Proof.
  induction 1 as [|wr ws Hw _ IH]; intros w w' E; simpl in E.
  - injection E as <-. pose proof (grows_append [] w) as H. unfold eb_append in H. rewrite app_nil_r in H. by destruct w.
  - destruct (wr w) as [|w1] eqn:E1; [done|]. eapply grows_trans; [by apply Hw|by apply IH].
Qed.
Lemma writeList_ok ws : Forall keeps_ok ws -> keeps_ok (writeList ws).
Proof.
  intros H w w'. unfold writeList, eb_list. destruct (write_all ws _) as [|w1] eqn:E; [done|]. intros [= <-].
  apply (write_all_ok ws H) in E as (b & heads & E1 & E2 & E3 & O & P). simpl in E1, E2, E3, O. rewrite <-app_assoc in E2. cbn [app] in E2.
  unfold eb_listEnd. rewrite E2, list_lookup_middle by done. cbn [lh_offset lh_size]. set (sz := eb_size w1 - _ - _).
  exists b, ({| lh_offset := len (eb_str w); lh_size := sz |} :: heads). simpl. split; [done|]. split.
  { rewrite insert_app_r_alt, Nat.sub_diag by lia. done. }
  split; [unfold head_count; destruct (sz <? 56); lia|]. pose proof (len_nonneg (eb_str w)).
  split; [split; [lia|done]|]. constructor; [|done]. simpl. unfold sz, eb_size. rewrite E1, E3, len_app.
  pose proof (len_nonneg b). pose proof (heads_count_nonneg heads). lia.
Qed.
Create HintDb rlp_ok.
#[local] Hint Resolve grows_append grows_string : rlp_ok.

Lemma grows_uint n w : grows w (writeUint n w).
Proof. unfold writeUint. destruct (n =? 0), (n <? 128); auto with rlp_ok. Qed.
Lemma grows_bool b w : grows w (writeBool b w).
Proof. unfold writeBool. destruct b; auto with rlp_ok. Qed.
#[local] Hint Resolve grows_uint grows_bool : rlp_ok.
Lemma keeps_inr (f : encbuf -> encbuf) : (forall w, grows w (f w)) -> keeps_ok (fun w => inr (f w)).
Proof. intros H w w' [= <-]. apply H. Qed.

Lemma writeInterface_ok : forall v, keeps_ok (writeInterface v).
Proof.
  fix IH 1. intros [b|n|b|n|b|l|]. 1-4: intros w w'; discriminate.
  - apply keeps_inr. clear IH. auto with rlp_ok.
  - apply writeList_ok. induction l as [|v l IHl]; constructor; [apply IH|exact IHl].
  - apply keeps_inr. clear IH. auto with rlp_ok.
Qed.
Lemma nilfunc_ok t : keeps_ok (nilfunc t).
Proof.
  assert (Hnil : keeps_ok (fun w => inr w)) by exact (write_all_ok [] (Forall_nil_2 _)).
  induction t using rtype_induction;
    first [assumption|by apply writeList_ok|apply (keeps_inr _ (grows_append _))|apply (keeps_inr _ (grows_uint 0))
          |apply (keeps_inr _ (grows_bool false))|apply (keeps_inr _ (grows_string []))].
Qed.
Lemma write_ok t : forall v, keeps_ok (write t v).
Proof.
  assert (Herr : forall e, keeps_ok (fun _ => inl e)) by (intros e w w'; discriminate).
  induction t as [|bits| | | |n|t IH|ts IH|t IH|t IH|] using rtype_induction; intros v.
  - destruct v; try apply Herr. apply (keeps_inr _ (grows_append b)).
  - destruct v; try apply Herr. apply (keeps_inr _ (grows_uint n)).
  - destruct v; try apply Herr. apply (keeps_inr _ (grows_bool b)).
  - destruct v as [| | |n| | |]; try apply Herr; [|apply (keeps_inr _ (grows_append _))]. simpl. unfold writeBigInt. intros w w'.
    destruct (_ <? _); [done|]. destruct (_ =? _); intros [= <-]; auto with rlp_ok.
  - destruct v; try apply Herr. apply (keeps_inr _ (grows_string b)).
  - destruct v; try apply Herr. apply (keeps_inr _ (grows_string b)).
  - destruct v as [| | | | |l|]; try apply Herr. apply writeList_ok. induction l; constructor; auto.
  - destruct v as [| | | | |l|]; try apply Herr. cbn [write]. destruct (_ =? _)%nat; [|apply Herr]. apply writeList_ok.
    revert l. induction IH as [|t ts Ht _ IHts]; intros [|x l]; simpl; constructor; auto.
  - destruct v; first [apply IH|apply nilfunc_ok].
  - destruct v; first [apply IH|apply nilfunc_ok].
  - apply writeInterface_ok.
Qed.

Lemma Encode_total {W} (Write : bytes -> W -> Z * option rlpError * W) t v w :
  appends Write (fun _ _ => True) -> exists r, Encode Write t v w = Done r.
Proof.
  intros HW. unfold Encode, toWriter. destruct (write t v eb_new) as [|eb] eqn:E; [by eexists|].
  destruct (write_ok t v _ _ E) as (b & heads & _ & E2 & _ & O & _). simpl in E2, O. rewrite <-E2 in O.
  destruct (toWriter_loop_spec Write (fun _ _ => True) (eb_lheads eb) (eb_str eb) 0 w []) as (w' & -> & _); by eauto.
Qed.

Lemma listhead_fits h : 0 <= lh_size h -> len (listhead_encode h) <= head_count (lh_size h).
Proof.
  intros H0. unfold listhead_encode, head_count. assert (Hu : 0 <= u64 (lh_size h) < 2 ^ 64) by apply u64_range.
  rewrite <-(headsize_puthead 0xC0 0xF7) by done. unfold headsize.
  destruct (Z.ltb_spec (lh_size h) 56) as [Hs|].
  - rewrite (u64_small (lh_size h)) by (unfold is_u64; lia). by destruct (Z.ltb_spec (lh_size h) 56); [|lia].
  - rewrite intsize_putint by done. pose proof (putint_range _ Hu). destruct (_ <? _); lia.
Qed.
Lemma toBytes_loop_total heads : forall str out strpos pos,
  ordered heads strpos (len str) -> Forall (fun h => 0 <= lh_size h) heads -> 0 <= pos ->
  pos + (len str - strpos) + heads_count heads <= len out ->
  exists b, toBytes_loop heads str out strpos pos = Done b.
Proof.
  induction heads as [|h heads IH]; intros str out strpos pos HO HP Hpos Hout; cbn [toBytes_loop]; [by eexists|].
  cbn [ordered heads_count] in HO, Hout. destruct HO as [Ho HO]. apply Forall_cons in HP as [Hh HP].
  pose proof (ordered_le _ _ _ HO). pose proof (heads_count_nonneg heads). pose proof (head_count_pos (lh_size h)).
  pose proof (listhead_fits h Hh). pose proof (len_nonneg (listhead_encode h)).
  rewrite slice_done by lia. cbn [outcome_bind]. rewrite slice_done by lia. cbn [outcome_bind].
  set (chunk := take _ (drop _ str)). assert (Hc : len chunk = lh_offset h - strpos).
  { unfold chunk, len in *. rewrite length_take, length_drop. lia. }
  rewrite Hc, Z.min_r by (unfold len in *; rewrite length_take, length_drop; lia).
  assert (L1 : len (copy_at out pos chunk) = len out) by (apply len_copy_at; lia). rewrite L1.
  destruct (Z.ltb_spec (len out) (pos + (lh_offset h - strpos) + len (listhead_encode h))); [lia|].
  apply IH; [by replace (strpos + (lh_offset h - strpos)) with (lh_offset h) by lia|done|lia|].
  rewrite len_copy_at; lia.
Qed.
Lemma EncodeToBytes_total t v : exists r, EncodeToBytes t v = Done r.
Proof.
  unfold EncodeToBytes, toBytes. destruct (write t v eb_new) as [|eb] eqn:E; [by eexists|].
  destruct (write_ok t v _ _ E) as (b & heads & E1 & E2 & E3 & O & P). simpl in *. rewrite <-E2 in *.
  destruct (toBytes_loop_total (eb_lheads eb) (eb_str eb) (zeros (eb_size eb)) 0 0) as [r ->]; [done|done|done| |by eexists].
  pose proof (heads_count_nonneg (eb_lheads eb)). pose proof (len_nonneg (eb_str eb)).
  unfold eb_size. rewrite len_zeros by lia. lia.
Qed.

(** ** Readers *)

(** What is still to be read. *)
Definition er_rest (r : encReader) : bytes :=
  match er_buf r with
  | None => []
  | Some buf => default [] (er_piece r) ++ flat_heads (drop (er_lhpos r) (eb_lheads buf)) (eb_str buf) (er_strpos r)
  end.
Definition er_ok (r : encReader) : Prop :=
  match er_buf r with
  | None => True
  | Some buf => ordered (drop (er_lhpos r) (eb_lheads buf)) (er_strpos r) (len (eb_str buf)) /\ er_piece r <> Some []
  end.
Abbreviation er_clear r := (mkEncReader (er_buf r) (er_lhpos r) (er_strpos r) None).
(** An upper bound of the pieces left. *)
Definition er_pieces (r : encReader) : Z :=
  match er_buf r with
  | None => 0
  | Some buf =>
      let hs := drop (er_lhpos r) (eb_lheads buf) in
      (match er_piece r with Some _ => 1 | None => 0 end) + 2 * Z.of_nat (length hs) +
      (if er_strpos r <? match hs with [] => len (eb_str buf) | h :: _ => lh_offset h end then 1 else 0)
  end.

Lemma listhead_encode_ne h : listhead_encode h <> [].
Proof. unfold listhead_encode, puthead. by destruct (_ <? 56). Qed.
Lemma slice_split str a b : 0 <= a <= b -> b <= len str ->
  exists c : bytes, slice str a b = Done c /\ c = take (Z.to_nat (b - a)) (drop (Z.to_nat a) str) /\ len c = b - a.
Proof.
  intros Ha Hb. rewrite slice_done by lia. eexists. do 2 (split; [done|]). unfold len in *. rewrite length_take, length_drop. lia.
Qed.
Lemma len_ne (c : bytes) : 0 < len c -> c <> [].
Proof. by intros H ->. Qed.

Lemma er_next_spec r :
  er_ok r ->
  (er_rest r = [] /\ er_next r = Done (None, r)) \/
  (exists p r', er_next r = Done (Some p, r') /\ p <> [] /\ er_rest r = p ++ er_rest (er_clear r') /\
     er_ok (er_clear r') /\ er_pieces (er_clear r') < er_pieces r /\ is_Some (er_buf r') /\ er_piece r <> Some []).
Proof.
  unfold er_ok, er_rest, er_next, er_pieces. destruct (er_buf r) as [buf|] eqn:Eb; [|by left]. cbn [er_buf er_piece er_lhpos er_strpos].
  intros [HO Hp]. destruct (er_piece r) as [p|] eqn:Ep.
  { right. exists p, r. rewrite Eb. cbn [default from_option]. split; [done|]. split; [congruence|]. do 2 (split; [done|]). split; [lia|done]. }
  destruct (eb_lheads buf !! er_lhpos r) as [h|] eqn:Eh.
  - rewrite (drop_S _ h _ Eh) in *. cbn [flat_heads ordered length] in *. destruct HO as [Ho HO]. pose proof (ordered_le _ _ _ HO) as Hle.
    destruct (Z.ltb_spec 0 (lh_offset h - er_strpos r)); right.
    + destruct (slice_split (eb_str buf) (er_strpos r) (lh_offset h)) as (c & E & Ec & Hc); [lia|lia|]. rewrite E.
      eexists _, _. split; [done|]. cbn [er_buf er_piece er_lhpos er_strpos]. rewrite (drop_S _ h _ Eh). cbn [flat_heads ordered length].
      split; [apply len_ne; lia|]. replace (er_strpos r + (lh_offset h - er_strpos r)) with (lh_offset h) by lia.
      split; [rewrite Ec; replace (Z.to_nat (lh_offset h - lh_offset h)) with 0%nat by lia; done|].
      split; [by split; [split; [lia|done]|]|]. split; [|by split; [eexists|]].
      rewrite Z.ltb_irrefl. destruct (Z.ltb_spec (er_strpos r) (lh_offset h)); lia.
    + eexists _, _. split; [done|]. cbn [er_buf er_piece er_lhpos er_strpos default from_option].
      assert (er_strpos r = lh_offset h) as Heq by lia. rewrite Heq in *. split; [apply listhead_encode_ne|].
      split; [by replace (Z.to_nat (lh_offset h - lh_offset h)) with 0%nat by lia|]. split; [done|]. split; [|by split; [eexists|]].
      simpl. rewrite Z.ltb_irrefl. destruct (_ <? match drop _ _ with [] => _ | _ => _ end); lia.
  - apply lookup_ge_None in Eh. rewrite drop_ge in * by done. cbn [flat_heads ordered length] in *.
    destruct (Z.ltb_spec (er_strpos r) (len (eb_str buf))); [right|left].
    + destruct (slice_split (eb_str buf) (er_strpos r) (len (eb_str buf))) as (c & E & Ec & Hc); [lia|lia|]. rewrite E.
      eexists _, _. split; [done|]. cbn [er_buf er_piece er_lhpos er_strpos]. rewrite (drop_ge (eb_lheads buf)) by done. cbn [flat_heads ordered length].
      split; [apply len_ne; lia|]. rewrite (drop_ge (eb_str buf) (Z.to_nat (len (eb_str buf)))), app_nil_r by (unfold len; lia).
      split; [rewrite Ec, take_ge by (rewrite length_drop; unfold len; lia); done|]. pose proof (len_nonneg (eb_str buf)).
      split; [by split; [lia|]|]. split; [rewrite Z.ltb_irrefl; lia|by split; [eexists|]].
    + rewrite drop_ge by (unfold len in *; lia). done.
Qed.

Lemma er_Read_loop_spec fuel : forall size out r,
  er_ok r -> len out <= size -> er_pieces r < Z.of_nat fuel ->
  exists data err r', er_Read_loop fuel size out r = Done (out ++ data, err, r') /\ er_rest r = data ++ er_rest r' /\ er_ok r' /\
    ((err = None /\ len (out ++ data) = size) \/ (err = Some io_EOF /\ er_rest r' = [] /\ len (out ++ data) <= size)).
Proof.
  induction fuel as [|fuel IH]; intros size out r Hok Hout Hf.
  { unfold er_pieces in Hf. destruct (er_buf r); [|lia]. destruct (_ <? _) in Hf; destruct (er_piece r); lia. }
  cbn [er_Read_loop]. destruct (er_next_spec r Hok) as [[Hr ->]|(p & r' & -> & Hp & Hr & Hok' & Hpc & [buf Hb] & _)]; cbn [outcome_bind].
  - exists [], (Some io_EOF). eexists. split; [by rewrite app_nil_r|].
    split; [exact Hr|]. split; [exact I|]. right. rewrite app_nil_r. done.
  - rewrite Hb in *. set (nn := Z.min _ _). assert (Hnn : 0 <= nn <= len p) by (pose proof (len_nonneg p); lia).
    destruct (Z.ltb_spec nn (len p)) as [Hlt|Hge].
    + eexists (take (Z.to_nat nn) p), None, _. split; [done|]. rewrite Hr. unfold er_rest, er_ok in *.
      cbn [er_buf er_piece er_lhpos er_strpos default from_option app] in *.
      split; [rewrite <-(take_drop (Z.to_nat nn) p) at 1; by rewrite <-app_assoc|]. split; [|left; split; [done|]].
      * split; [by destruct Hok'|]. intros [= E]. apply (f_equal length) in E. rewrite length_drop in E. unfold len in *. simpl in E. lia.
      * rewrite len_app. unfold len in *. rewrite length_take. lia.
    + assert (Hall : take (Z.to_nat nn) p = p) by (apply take_ge; unfold len in *; lia). rewrite Hall.
      destruct (IH size (out ++ p) (mkEncReader (Some buf) (er_lhpos r') (er_strpos r') None)) as (data & err & r2 & E & Er & Hok2 & Hend);
        [done|rewrite len_app; lia|lia|]. rewrite E. exists (p ++ data), err, r2. rewrite <-app_assoc in *. split; [done|].
      rewrite Hr, Er, <-app_assoc. done.
Qed.

(** [Read] fills the buffer, or gives all there was and the end. *)
Lemma er_Read_spec size r :
  er_ok r -> 0 <= size ->
  exists data err r', er_Read size r = Done (data, err, r') /\ er_rest r = data ++ er_rest r' /\ er_ok r' /\
    ((err = None /\ len data = size) \/ (err = Some io_EOF /\ er_rest r' = [] /\ len data <= size)).
Proof.
  intros Hok Hs. apply (er_Read_loop_spec (er_fuel r) size [] r); [done|done|].
  unfold er_pieces, er_fuel. destruct (er_buf r) as [buf|]; [|lia]. rewrite length_drop.
  destruct (_ <? _); destruct (er_piece r); lia.
Qed.

(** Reading with buffers of any sizes until the end. *)
Fixpoint read_pieces (sizes : list Z) (r : encReader) : outcome (bytes * option rlpError) :=
  match sizes with
  | [] => Done ([], None)
  | size :: sizes =>
      let* res := er_Read size r in
      let '(data, err, r) := res in
      match err with
      | Some err => Done (data, Some err)
      | None => let* rest := read_pieces sizes r in Done (data ++ rest.1, rest.2)
      end
  end.
Lemma read_pieces_spec sizes : forall r,
  er_ok r -> Forall (fun n => 0 <= n) sizes ->
  exists data err, read_pieces sizes r = Done (data, err) /\
    match err with
    | None => exists rest, er_rest r = data ++ rest /\ len data = foldr Z.add 0 sizes
    | Some err => err = io_EOF /\ data = er_rest r
    end.
Proof.
  induction sizes as [|size sizes IH]; intros r Hok Hs; cbn [read_pieces foldr]; [exists [], None; split; [done|]; by exists (er_rest r)|].
  inversion_clear Hs as [|? ? Hs1 Hs2].
  destruct (er_Read_spec size r Hok Hs1) as (data & err & r' & -> & Hr & Hok' & [[-> Hl]|(-> & Hr' & Hl)]); cbn [outcome_bind].
  - destruct (IH r' Hok' Hs2) as (rest & err & -> & H). cbn [outcome_bind fst snd]. eexists _, _. split; [done|].
    destruct err as [err|]; [destruct H as [-> ->]; by rewrite Hr|]. destruct H as (rest' & Er & El).
    exists rest'. rewrite Hr, Er, app_assoc, len_app. split; [done|lia].
  - eexists _, _. split; [done|]. split; [done|]. by rewrite Hr, Hr', app_nil_r.
Qed.

Lemma EncodeToReader_spec t v :
  has_type t v -> len (enc t v) < 2 ^ 64 ->
  exists r, EncodeToReader t v = inr (len (enc t v), r) /\ er_ok r /\ er_rest r = enc t v.
Proof.
  intros Ht Hl. destruct (write_flat t v Ht Hl) as (eb & E & EF & HO & Hs). unfold EncodeToReader. rewrite E, Hs.
  eexists. split; [done|]. split; [by split|]. done.
Qed.
