(* ===== verification/RlpTheorems.v ===== *)
(** What rlp promises its clients: encoding and decoding are inverse to each
    other, and decoding accepts nothing but encodings. *)
From S2P Require Import Prelude BigMath Rlp RlpDecode RlpFacts RlpDecodeFacts RlpTyped RlpRaw.

(** A struct with a field of most types. *)
Definition sample_struct : rtype :=
  StructT [UintT 64; BigT; BoolT; ArrayT 2; OptPtrT (ArrayT 20); SliceT BytesT; PtrT (StructT [IfaceT; RawT])].
Definition sample_value : rval :=
  VList [VUint 1024; VBig (2 ^ 70); VBool true; VBytes [Byte.x00; Byte.x01]; VNil; VList [VBytes []; VBytes [Byte.xff]];
         VList [VList [VBytes [Byte.x07]; VList []]; VRaw [Byte.x05]]].

Definition sample_bytes : bytes := Eval vm_compute in enc sample_struct sample_value.







(** Split never panics and takes exactly the first value off its input;
    CountValues gives the number of values its input consists of. *)
Theorem raw_split_count (b : bytes) (Hlen : len b < 2 ^ 63) :
  (exists res, Split b = Done res /\
     forall k c rest, res = inr (k, c, rest) <-> exists e, b = e ++ rest /\ is_item k c e) /\
  (exists res, CountValues b = Done res /\
     forall n, res = inr n <-> exists es, b = concat es /\ Forall item es /\ n = Z.of_nat (length es)).
Proof.
  split; [by apply Split_spec|by apply CountValues_spec].
Qed.

Lemma raw_split_count_witness :
  exists res, Split sample_bytes = Done res /\
    forall k c rest, res = inr (k, c, rest) <-> exists e, sample_bytes = e ++ rest /\ is_item k c e.
Proof. apply (raw_split_count sample_bytes). vm_compute. reflexivity. Defined.

(** ** Arrays of one byte

    [decodeByteArray] drops the error of [s.Uint] for a zero byte and, as the
    stream still has it ahead, the caller gets the same byte again. *)

Definition one_zero : bytes := [Byte.xc1; Byte.x00].
Definition stuck_stream (s : Stream) : Prop := decodeByteArray 1 s = Done (inr (VBytes [Byte.x00]), s).

Lemma stuck_elems fuel s : stuck_stream s -> decodeSliceElems fuel (decodeByteArray 1) s = NoFuel.
Proof.
  intros H. induction fuel as [|fuel IH]; [done|]. cbn [decodeSliceElems]. sm_run. rewrite H. cbn. by rewrite IH.
Qed.

(** The byte is read once, and from then on given again and again. *)
Definition at_zero : Stream := mkStream [Byte.x00] 1 true None 0 Byte.x00 None [(0, 1)].
Lemma zero_read : exists s, decodeByteArray 1 at_zero = Done (inr (VBytes [Byte.x00]), s) /\ stuck_stream s.
Proof. eexists. split; [vm_compute; reflexivity|]. vm_compute. reflexivity. Qed.

(** The encoding of a [[][1]byte] whose one element is zero is never decoded:
    no number of rounds of the loop over the elements is enough. *)
Theorem DecodeBytes_hangs (fuel : nat) :
  EncodeToBytes (SliceT (ArrayT 1)) (VList [VBytes [Byte.x00]]) = Done (inr one_zero) /\
  rlp_decode fuel (SliceT (ArrayT 1)) (NewStream one_zero 2) = NoFuel.
Proof.
  split; [vm_compute; reflexivity|]. destruct fuel as [|[|fuel]]; [reflexivity|vm_compute; reflexivity|].
  assert (E : decodeSliceElems (S fuel) (decodeByteArray 1) at_zero = NoFuel).
  { destruct zero_read as (s & E & Hs). cbn [decodeSliceElems]. unfold sm_try, sm_bind, sm_ret. rewrite E. cbn -[decodeByteArray decodeSliceElems].
    rewrite (stuck_elems fuel s Hs). reflexivity. }
  change (rlp_decode (S (S fuel)) (SliceT (ArrayT 1))) with (decodeListSlice (S fuel) (decodeByteArray 1)).
  unfold decodeListSlice, sm_bind. set (r := sm_wrap stream_List _). vm_compute in r. subst r.
  cbn -[decodeSliceElems decodeByteArray]. change (mkStream _ _ _ _ _ _ _ _) with at_zero. rewrite E. reflexivity.
Qed.
