(* ===== verification/Transaction.v ===== *)
(** Transactions and their signatures: core/types/transaction.go and
    core/types/transaction_signing.go.

    A [*big.Int] of a transaction is never nil.  [atomic.Value] caches are
    options; an operation that fills one returns the transaction with it. *)
From S2P Require Import Prelude BigMath Params Vm StateTransition Rlp RlpDecode RlpWriter.

(** ** Data *)

Record txdata := mkTxdata {
  td_AccountNonce : Z;
  td_Price : Z;
  td_GasLimit : Z;
  td_Recipient : option Address;
  td_Amount : Z;
  td_Payload : bytes;
  td_V : Z;
  td_R : Z;
  td_S : Z
}.

(** [chainIdMul] is twice [chainId]. *)
Inductive Signer :=
| FrontierSigner
| HomesteadSigner
| EIP155Signer (chainId chainIdMul : Z).
#[export] Instance Signer_eq_dec : EqDecision Signer.
Proof. solve_decision. Defined.

Record Transaction := mkTransaction {
  tx_data : txdata;
  tx_hash : option Hash;
  tx_size : option Z;
  tx_from : option (Signer * Address)
}.

Definition td_set_sig (r s v : Z) (d : txdata) : txdata :=
  {| td_AccountNonce := td_AccountNonce d; td_Price := td_Price d; td_GasLimit := td_GasLimit d;
     td_Recipient := td_Recipient d; td_Amount := td_Amount d; td_Payload := td_Payload d;
     td_V := v; td_R := r; td_S := s |}.
Definition tx_set_hash (h : Hash) (tx : Transaction) : Transaction :=
  mkTransaction (tx_data tx) (Some h) (tx_size tx) (tx_from tx).
Definition tx_set_size (n : Z) (tx : Transaction) : Transaction :=
  mkTransaction (tx_data tx) (tx_hash tx) (Some n) (tx_from tx).
Definition tx_set_from (sc : Signer * Address) (tx : Transaction) : Transaction :=
  mkTransaction (tx_data tx) (tx_hash tx) (tx_size tx) (Some sc).

(** ** transaction.go *)

Definition newTransaction (nonce : Z) (to : option Address) (amount : option Z) (gasLimit : Z) (gasPrice : option Z)
    (data : bytes) : Transaction :=
  {| tx_data :=
       {| td_AccountNonce := nonce; td_Recipient := to; td_Payload := data; td_Amount := default 0 amount;
          td_GasLimit := gasLimit; td_Price := default 0 gasPrice; td_V := 0; td_R := 0; td_S := 0 |};
     tx_hash := None; tx_size := None; tx_from := None |}.
Definition NewTransaction (nonce : Z) (to : Address) (amount : option Z) (gasLimit : Z) (gasPrice : option Z)
    (data : bytes) : Transaction := newTransaction nonce (Some to) amount gasLimit gasPrice data.
Definition NewContractCreation (nonce : Z) (amount : option Z) (gasLimit : Z) (gasPrice : option Z)
    (data : bytes) : Transaction := newTransaction nonce None amount gasLimit gasPrice data.

Definition isProtectedV (V : Z) : bool :=
  if BitLen V <=? 8 then
    let v := big_Uint64 V in negb (v =? 27) && negb (v =? 28)
  else true.

Definition deriveChainId (v : Z) : Z :=
  if BitLen v <=? 64 then
    let v := big_Uint64 v in
    if (v =? 27) || (v =? 28) then 0 else u64 (v - 35) / 2
  else (v - 35) / 2.

Definition tx_ChainId (tx : Transaction) : Z := deriveChainId (td_V (tx_data tx)).
Definition tx_Protected (tx : Transaction) : bool := isProtectedV (td_V (tx_data tx)).

(** [chainId] is nil in a configuration without one. *)
Definition NewEIP155Signer (chainId : option Z) : Signer :=
  let chainId := default 0 chainId in EIP155Signer chainId (chainId * 2).

Definition deriveSigner (V : Z) : Signer :=
  if negb (V =? 0) && isProtectedV V then NewEIP155Signer (Some (deriveChainId V)) else HomesteadSigner.

(** The struct [txdata] for rlp. *)
Definition txdata_t : rtype :=
  StructT [UintT 64; BigT; UintT 64; OptPtrT (ArrayT 20); BigT; BytesT; BigT; BigT; BigT].
Definition recipient_val (to : option Address) : rval :=
  match to with Some a => VBytes (Address_Bytes a) | None => VNil end.
Definition txdata_val (d : txdata) : rval :=
  VList [VUint (td_AccountNonce d); VBig (td_Price d); VUint (td_GasLimit d); recipient_val (td_Recipient d);
         VBig (td_Amount d); VBytes (td_Payload d); VBig (td_V d); VBig (td_R d); VBig (td_S d)].
Definition val_recipient (v : rval) : option Address :=
  match v with VBytes b => Some (BytesToAddress b) | _ => None end.
Definition val_txdata (v : rval) : option txdata :=
  match v with
  | VList [VUint nonce; VBig price; VUint gas; to; VBig amount; VBytes payload; VBig v; VBig r; VBig s] =>
      Some (mkTxdata nonce price gas (val_recipient to) amount payload v r s)
  | _ => None
  end.

(** [EncodeRLP] into a writer, and the writers used with it. *)
Definition tx_EncodeRLP {W} (Write : bytes -> W -> Z * option rlpError * W) (tx : Transaction) (w : W)
  : outcome (option rlpError * W) := Encode Write txdata_t (txdata_val (tx_data tx)) w.
Definition hash_Write (b : bytes) (w : bytes) : Z * option rlpError * bytes := (len b, None, w ++ b).
Definition writeCounter_Write (b : bytes) (c : Z) : Z * option rlpError * Z := (len b, None, c + len b).

(** [DecodeRLP] from the stream that [rlp.DecodeBytes] makes of its input. *)
Definition tx_DecodeRLP (b : bytes) : SM Transaction := fun s =>
  let* k := stream_Kind s in
  let '(ks, s) := k in
  let sz := match ks with inr (_, sz) => sz | inl _ => 0 end in
  let* r := rlp_decode (rlp_fuel txdata_t b) txdata_t s in
  match r with
  | (inl err, s) => Done (inl err, s)
  | (inr v, s) =>
      match val_txdata v with
      | Some d => Done (inr (mkTransaction d None (Some (ListSize sz)) None), s)
      | None => Done (inl errType, s)
      end
  end.

(** [rlp.DecodeBytes] into a transaction. *)
Definition DecodeTransaction (b : bytes) : outcome (rlpError + Transaction) :=
  let* r := tx_DecodeRLP b (NewStream b (len b)) in
  match r with
  | (inl err, _) => Done (inl err)
  | (inr tx, s) => if 0 <? len (rs_r s) then Done (inl ErrMoreThanOneValue) else Done (inr tx)
  end.

Definition tx_Cost (tx : Transaction) : Z :=
  td_Price (tx_data tx) * td_GasLimit (tx_data tx) + td_Amount (tx_data tx).
Definition tx_RawSignatureValues (tx : Transaction) : Z * Z * Z :=
  (td_V (tx_data tx), td_R (tx_data tx), td_S (tx_data tx)).

Definition tx_Size (tx : Transaction) : outcome (Z * Transaction) :=
  match tx_size tx with
  | Some n => Done (n, tx)
  | None =>
      let* r := tx_EncodeRLP writeCounter_Write tx 0 in
      Done (r.2, tx_set_size r.2 tx)
  end.

Inductive sigError := ErrInvalidSig | ErrInvalidChainId | errRecover | errInvalidPublicKey | errSign.

(** The public parts of the packages for keys and signatures. *)
Class Ecdsa := {
  PrivateKey : Type;
  crypto_Sign : bytes -> PrivateKey -> option bytes
}.

Section Signing.
Context `{CR : Crypto}.

(** core/types/block.go: the errors of the encoder are dropped, and with them
    everything that would have been hashed. *)
Definition rlpHash (t : rtype) (v : rval) : outcome Hash :=
  let* r := Encode hash_Write t v [] in Done (Keccak256Hash r.2).

Definition tx_Hash (tx : Transaction) : outcome (Hash * Transaction) :=
  match tx_hash tx with
  | Some h => Done (h, tx)
  | None => let* h := rlpHash txdata_t (txdata_val (tx_data tx)) in Done (h, tx_set_hash h tx)
  end.

(** ** transaction_signing.go *)

Definition MakeSigner (config : ChainConfig) (blockNumber : Z) : Signer :=
  if IsEIP155 config blockNumber then NewEIP155Signer (ChainId config)
  else if IsHomestead config blockNumber then HomesteadSigner
  else FrontierSigner.

(** [s.Equal(s2)]. *)
Definition signer_Equal (s s2 : Signer) : bool :=
  match s, s2 with
  | EIP155Signer c _, EIP155Signer c2 _ => c2 =? c
  | HomesteadSigner, HomesteadSigner => true
  | FrontierSigner, FrontierSigner => true
  | _, _ => false
  end.

(** What is signed: a slice of interfaces is written like a struct with fields
    of their dynamic types. *)
Definition sigfields_t : list rtype := [UintT 64; BigT; UintT 64; OptPtrT (ArrayT 20); BigT; BytesT].
Definition sigfields (d : txdata) : list rval :=
  [VUint (td_AccountNonce d); VBig (td_Price d); VUint (td_GasLimit d); recipient_val (td_Recipient d);
   VBig (td_Amount d); VBytes (td_Payload d)].
Definition signed_t (s : Signer) : rtype :=
  StructT (match s with EIP155Signer _ _ => sigfields_t ++ [BigT; UintT 64; UintT 64] | _ => sigfields_t end).
Definition signed_val (s : Signer) (d : txdata) : rval :=
  VList (match s with
         | EIP155Signer chainId _ => sigfields d ++ [VBig chainId; VUint 0; VUint 0]
         | _ => sigfields d
         end).
Definition signer_Hash (s : Signer) (tx : Transaction) : outcome Hash :=
  rlpHash (signed_t s) (signed_val s (tx_data tx)).

Definition recoverPlain (sighash : Hash) (R S Vb : Z) (homestead : bool) : outcome (sigError + Address) :=
  if 8 <? BitLen Vb then Done (inl ErrInvalidSig)
  else
    let V := u64 (big_Uint64 Vb - 27) mod 256 in
    if negb (ValidateSignatureValues V R S homestead) then Done (inl ErrInvalidSig)
    else
      let r := big_Bytes R in
      let s := big_Bytes S in
      let sig := zeros 65 in
      if (32 <? len r) || (64 <? len s) then GoPanic
      else
        let sig := copy_at sig (32 - len r) r in
        let sig := copy_at sig (64 - len s) s in
        let sig := <[64%nat := z2b V]> sig in
        match Ecrecover (Hash_Bytes sighash) sig with
        | None => Done (inl errRecover)
        | Some [] => Done (inl errInvalidPublicKey)
        | Some (x :: pub) =>
            if negb (b2z x =? 4) then Done (inl errInvalidPublicKey)
            else
              let k := Keccak256 pub in
              let* low := slice k 12 (len k) in
              Done (inr (BytesToAddress (copy_at (zeros 20) 0 low)))
        end.

Definition frontier_Sender (tx : Transaction) : outcome (sigError + Address) :=
  let* h := signer_Hash FrontierSigner tx in
  recoverPlain h (td_R (tx_data tx)) (td_S (tx_data tx)) (td_V (tx_data tx)) false.
Definition homestead_Sender (tx : Transaction) : outcome (sigError + Address) :=
  let* h := signer_Hash HomesteadSigner tx in
  recoverPlain h (td_R (tx_data tx)) (td_S (tx_data tx)) (td_V (tx_data tx)) true.
Definition signer_Sender (s : Signer) (tx : Transaction) : outcome (sigError + Address) :=
  match s with
  | FrontierSigner => frontier_Sender tx
  | HomesteadSigner => homestead_Sender tx
  | EIP155Signer chainId chainIdMul =>
      if negb (tx_Protected tx) then homestead_Sender tx
      else if negb (tx_ChainId tx =? chainId) then Done (inl ErrInvalidChainId)
      else
        let V := td_V (tx_data tx) - chainIdMul - 8 in
        let* h := signer_Hash s tx in
        recoverPlain h (td_R (tx_data tx)) (td_S (tx_data tx)) V true
  end.

(** R, S and V. *)
Definition frontier_SignatureValues (sig : bytes) : outcome (Z * Z * Z) :=
  if negb (len sig =? 65) then GoPanic
  else
    let* r := slice sig 0 32 in
    let* s := slice sig 32 64 in
    let* v := index sig 64 in
    Done (big_SetBytes r, big_SetBytes s, big_SetBytes [z2b (b2z v + 27)]).
Definition SignatureValues (signer : Signer) (sig : bytes) : outcome (Z * Z * Z) :=
  match signer with
  | EIP155Signer chainId chainIdMul =>
      let* rsv := frontier_SignatureValues sig in
      if negb (Sign chainId =? 0) then
        let* v := index sig 64 in
        Done (rsv.1, b2z (z2b (b2z v + 35)) + chainIdMul)
      else Done rsv
  | _ => frontier_SignatureValues sig
  end.

Definition WithSignature (signer : Signer) (sig : bytes) (tx : Transaction) : outcome Transaction :=
  let* rsv := SignatureValues signer sig in
  let '(r, s, v) := rsv in
  Done (mkTransaction (td_set_sig r s v (tx_data tx)) None None None).

Definition SignTx `{EC : Ecdsa} (tx : Transaction) (s : Signer) (prv : PrivateKey) : outcome (sigError + Transaction) :=
  let* h := signer_Hash s tx in
  match crypto_Sign (Hash_Bytes h) prv with
  | None => Done (inl errSign)
  | Some sig => let* tx := WithSignature s sig tx in Done (inr tx)
  end.

Definition Sender (signer : Signer) (tx : Transaction) : outcome ((sigError + Address) * Transaction) :=
  let derive :=
    let* r := signer_Sender signer tx in
    match r with
    | inl err => Done (inl err, tx)
    | inr addr => Done (inr addr, tx_set_from (signer, addr) tx)
    end in
  match tx_from tx with
  | Some (sg, from) => if signer_Equal sg signer then Done (inr from, tx) else derive
  | None => derive
  end.

(** [msg.from] is the zero address when the sender cannot be derived. *)
Definition AsMessage (s : Signer) (tx : Transaction) : outcome ((sigError + Message) * Transaction) :=
  let d := tx_data tx in
  let* r := Sender s tx in
  match r with
  | (inl err, tx) => Done (inl err, tx)
  | (inr from, tx) =>
      Done (inr {| msg_From := from; msg_To := td_Recipient d; msg_GasPrice := td_Price d; msg_Gas := td_GasLimit d;
                   msg_Value := td_Amount d; msg_Nonce := td_AccountNonce d; msg_CheckNonce := true;
                   msg_Data := td_Payload d |}, tx)
  end.

(** ** Sets of transactions *)

Fixpoint tx_hashes (l : list Transaction) : outcome (list Hash) :=
  match l with
  | [] => Done []
  | tx :: l => let* h := tx_Hash tx in let* hs := tx_hashes l in Done (h.1 :: hs)
  end.
Fixpoint keep_others (remove : gset Hash) (a : list Transaction) : outcome (list Transaction) :=
  match a with
  | [] => Done []
  | tx :: a =>
      let* h := tx_Hash tx in
      let* keep := keep_others remove a in
      Done (if decide (h.1 ∈ remove) then keep else h.2 :: keep)
  end.
Definition TxDifference (a b : list Transaction) : outcome (list Transaction) :=
  let* hs := tx_hashes b in keep_others (list_to_set hs) a.
End Signing.
