(* ===== verification/TxFacts.v ===== *)
(** Signatures, senders, encodings and caches of transactions. *)
From S2P Require Import Prelude BigMath Params Vm PrecompileFacts StateTransition Rlp RlpDecode RlpFacts.
From S2P Require Import RlpDecodeFacts RlpTyped RlpRaw RlpWriter Transaction.

(** Signatures and replay protection. *)

(** What the signature packages document. *)
Class EcdsaSpec `{CR : Crypto} `{EC : Ecdsa} := {
  public_key : PrivateKey -> bytes;
  public_key_format prv : exists k, public_key prv = z2b 4 :: k /\ len k = 64;
  Sign_len h prv sig : crypto_Sign h prv = Some sig -> len sig = 65;
  Sign_valid h prv r s v homestead :
    crypto_Sign h prv = Some (r ++ s ++ [v]) -> len r = 32 -> len s = 32 ->
    ValidateSignatureValues (b2z v) (big_SetBytes r) (big_SetBytes s) homestead = true;
  Sign_Ecrecover h prv sig : crypto_Sign h prv = Some sig -> Ecrecover h sig = Some (public_key prv);
  Validate_range v r s homestead :
    ValidateSignatureValues v r s homestead = true -> (v = 0 \/ v = 1) /\ 1 <= r < 2 ^ 256 /\ 1 <= s < 2 ^ 256
}.

Record td_ok (d : txdata) : Prop := {
  ok_nonce : is_u64 (td_AccountNonce d);
  ok_price : 0 <= td_Price d;
  ok_gas : is_u64 (td_GasLimit d);
  ok_to : forall a, td_Recipient d = Some a -> (a < 2 ^ 160)%N;
  ok_amount : 0 <= td_Amount d;
  ok_sig : 0 <= td_V d /\ 0 <= td_R d /\ 0 <= td_S d
}.

Lemma len_Address_Bytes a : len (Address_Bytes a) = 20.
Proof. apply len_be_fixed. Qed.
Lemma recipient_has_type to : has_type (OptPtrT (ArrayT 20)) (recipient_val to).
Proof.
  destruct to as [a|]; [|done]. pose proof (len_Address_Bytes a) as Hl. unfold recipient_val.
  assert (Hn : length (Address_Bytes a) = 20%nat) by (unfold len in Hl; lia).
  assert (Ht : has_type (ArrayT 20) (VBytes (Address_Bytes a))) by (split; [done|]; intros E; by rewrite E in Hn).
  assert (He : ~ is_empty (enc (ArrayT 20) (VBytes (Address_Bytes a)))).
  { intros H%is_empty_len. cbn [enc] in H. rewrite enc_str_long, len_app in H by lia.
    pose proof (len_nonneg (puthead 128 183 (len (Address_Bytes a)))). lia. }
  unfold is_empty in He. split; [done|]. split; tauto.
Qed.

Lemma sigfields_have_type d : td_ok d -> foldr and True (zip_with has_type sigfields_t (sigfields d)).
Proof.
  intros H. pose proof (recipient_has_type (td_Recipient d)) as Hr. destruct H as [Hn Hp Hg Ht Ha Hs].
  unfold is_u64 in *. cbn [foldr zip_with sigfields sigfields_t]. repeat split; try done; try set_solver; lia.
Qed.
(** Fields after those. *)
Lemma more_fields_type d ts l :
  td_ok d -> foldr and True (zip_with has_type ts l) -> length ts = length l ->
  has_type (StructT (sigfields_t ++ ts)) (VList (sigfields d ++ l)).
Proof.
  intros H Hl Hlen. pose proof (sigfields_have_type d H) as Hf. split; [simpl; lia|].
  cbn [foldr zip_with sigfields sigfields_t app] in *. tauto.
Qed.
Lemma txdata_has_type d : td_ok d -> has_type txdata_t (txdata_val d).
Proof. intros H. apply (more_fields_type d [BigT; BigT; BigT] [_; _; _] H); [|done]. destruct H as [_ _ _ _ _ ?]. simpl. tauto. Qed.

Definition signer_ok (s : Signer) : Prop :=
  match s with EIP155Signer c m => 0 <= c /\ m = 2 * c | _ => True end.
Lemma signed_has_type s d : td_ok d -> signer_ok s -> has_type (signed_t s) (signed_val s d).
Proof.
  intros H Hs. unfold signed_t, signed_val. destruct s as [| |c m]; [split; [done|by apply sigfields_have_type]..|].
  destruct Hs as [Hc _]. apply more_fields_type; [done| |done]. simpl. repeat split; try done; set_solver.
Qed.

(** ** Hashes *)

Lemma hash_Write_appends : appends hash_Write eq.
Proof. intros b w a ->. by eexists. Qed.
Lemma rlpHash_spec `{CR : Crypto} t v :
  has_type t v -> len (enc t v) < 2 ^ 64 -> rlpHash t v = Done (Keccak256Hash (enc t v)).
Proof.
  intros Ht Hl. destruct (Encode_spec hash_Write eq t v [] [] hash_Write_appends Ht Hl eq_refl) as (w & E & <-).
  unfold rlpHash. by rewrite E.
Qed.

(** The bytes that are signed. *)
Definition payload (s : Signer) (d : txdata) : bytes := enc (signed_t s) (signed_val s d).
Lemma signer_Hash_spec `{CR : Crypto} s tx :
  td_ok (tx_data tx) -> signer_ok s -> len (payload s (tx_data tx)) < 2 ^ 64 ->
  signer_Hash s tx = Done (Keccak256Hash (payload s (tx_data tx))).
Proof. intros. apply rlpHash_spec; [by apply signed_has_type|done]. Qed.
Lemma payload_set_sig s r t v d : payload s (td_set_sig r t v d) = payload s d.
Proof. reflexivity. Qed.

(** ** V and chain ids *)

Lemma isProtectedV_spec v : 0 <= v -> isProtectedV v = false <-> v = 27 \/ v = 28.
Proof.
  intros Hv. unfold isProtectedV. destruct (Z.leb_spec (BitLen v) 8) as [H|H].
  - apply BitLen_spec in H; [|lia]. unfold big_Uint64. rewrite Z.abs_eq, u64_small by (unfold is_u64; lia).
    destruct (Z.eqb_spec v 27), (Z.eqb_spec v 28); simpl; split; (done || lia).
  - split; [done|]. intros Hc. assert (BitLen v <= 8); [|lia]. apply BitLen_spec; lia.
Qed.
Lemma deriveChainId_signed c b : 0 <= c -> b = 0 \/ b = 1 -> deriveChainId (b + 35 + 2 * c) = c.
Proof.
  intros Hc Hb. unfold deriveChainId. assert (Hd : (b + 35 + 2 * c - 35) / 2 = c) by (symmetry; apply (Z.div_unique _ _ _ b); lia).
  destruct (Z.leb_spec (BitLen (b + 35 + 2 * c)) 64) as [H|H]; [|done].
  apply BitLen_spec in H; [|lia]. unfold big_Uint64. rewrite Z.abs_eq, (u64_small (b + 35 + 2 * c)) by (unfold is_u64; lia).
  destruct (Z.eqb_spec (b + 35 + 2 * c) 27), (Z.eqb_spec (b + 35 + 2 * c) 28); simpl; try lia.
  rewrite u64_small by (unfold is_u64; lia). done.
Qed.

(** ** The signature as bytes *)

Lemma big_Bytes_strip (l : bytes) :
  exists k, 0 <= k /\ l = zeros k ++ big_Bytes (big_SetBytes l) /\ len l = k + len (big_Bytes (big_SetBytes l)).
Proof.
  induction l as [|x l (k & Hk & E & Hl)]; [by exists 0|]. destruct (decide (b2z x = 0)) as [Hx|Hx].
  - exists (k + 1). rewrite big_SetBytes_cons, Hx, Z.mul_0_l, Z.add_0_l. split; [lia|]. split; [|rewrite len_cons; lia].
    assert (x = Byte.x00) as -> by (rewrite <-(z2b_b2z x), Hx; reflexivity).
    unfold zeros. replace (Z.to_nat (k + 1)) with (S (Z.to_nat k)) by lia. simpl. f_equal. exact E.
  - exists 0. split; [done|]. rewrite big_Bytes_canonical by done. split; done.
Qed.
Lemma copy_at_app (a b c d : bytes) : len b = len d -> copy_at (a ++ b ++ c) (len a) d = a ++ d ++ c.
Proof.
  intros H. unfold copy_at, len in *. rewrite Nat2Z.id, take_app_length. f_equal. rewrite !length_app.
  rewrite take_ge by lia. f_equal. rewrite app_assoc. apply drop_app_length'. rewrite length_app. lia.
Qed.
Lemma zeros_app a b : 0 <= a -> 0 <= b -> zeros (a + b) = zeros a ++ zeros b.
Proof. intros. unfold zeros. rewrite Z2Nat.inj_add by lia. apply replicate_add. Qed.

Lemma sig_bytes (r s : bytes) (v : byte) :
  len r = 32 -> len s = 32 ->
  let r' := big_Bytes (big_SetBytes r) in let s' := big_Bytes (big_SetBytes s) in
  len r' <= 32 /\ len s' <= 32 /\
  <[64%nat := v]> (copy_at (copy_at (zeros 65) (32 - len r') r') (64 - len s') s') = r ++ s ++ [v].
Proof.
  intros Hr Hs r' s'. destruct (big_Bytes_strip r) as (k & Hk & Er & Hlr). destruct (big_Bytes_strip s) as (j & Hj & Es & Hls).
  fold r' in Er, Hlr. fold s' in Es, Hls. pose proof (len_nonneg r'). pose proof (len_nonneg s').
  split; [lia|]. split; [lia|].
  assert (E65 : zeros 65 = zeros k ++ zeros (len r') ++ zeros j ++ zeros (len s') ++ [Byte.x00]).
  { change [Byte.x00] with (zeros 1). rewrite <-!zeros_app by lia. f_equal. lia. }
  assert (Hz : forall n, 0 <= n -> len (zeros n) = n) by (intros; by apply len_zeros).
  rewrite E65. replace (32 - len r') with (len (zeros k)) by (rewrite Hz; lia). rewrite copy_at_app by (apply Hz; lia).
  rewrite (app_assoc (zeros k)), <-Er, (app_assoc r). replace (64 - len s') with (len (r ++ zeros j)) by (rewrite len_app, Hz; lia).
  rewrite copy_at_app by (apply Hz; lia). rewrite <-app_assoc, (app_assoc (zeros j)), <-Es, (app_assoc r), (app_assoc r).
  replace 64%nat with (length (r ++ s)) by (rewrite length_app; unfold len in *; lia).
  by rewrite insert_app_r_alt, Nat.sub_diag by lia.
Qed.

Lemma sig_split (sig : bytes) : len sig = 65 -> exists r s v, sig = r ++ s ++ [v] /\ len r = 32 /\ len s = 32.
Proof.
  intros H. unfold len in *. exists (take 32 sig), (take 32 (drop 32 sig)).
  destruct (drop 64 sig) as [|v [|]] eqn:E; try (apply (f_equal length) in E; rewrite length_drop in E; simpl in E; lia).
  exists v. rewrite !length_take, length_drop. split; [|lia]. rewrite <-E, <-(take_drop 32 sig) at 1. f_equal.
  rewrite <-(take_drop 32 (drop 32 sig)) at 1. f_equal. by rewrite drop_drop.
Qed.

(** ** Signing and recovering *)

Section Recover.
Context `{CR : Crypto} `{CS : !CryptoSpec} `{EC : Ecdsa} `{ES : !EcdsaSpec}.

(** The address of a key. *)
Definition key_address (prv : PrivateKey) : Address :=
  BytesToAddress (drop 12 (Keccak256 (tail (public_key prv)))).

Lemma recoverPlain_signed h prv r s v homestead :
  crypto_Sign (Hash_Bytes h) prv = Some (r ++ s ++ [v]) -> len r = 32 -> len s = 32 ->
  recoverPlain h (big_SetBytes r) (big_SetBytes s) (b2z v + 27) homestead = Done (inr (key_address prv)).
Proof.
  intros Hs Hr Hs'. pose proof (Sign_valid _ _ _ _ _ homestead Hs Hr Hs') as Hval. pose proof (Validate_range _ _ _ _ Hval) as (Hv & _).
  unfold recoverPlain. destruct (Z.ltb_spec 8 (BitLen (b2z v + 27))) as [Hb|_].
  { assert (BitLen (b2z v + 27) <= 8); [apply BitLen_spec; lia|lia]. }
  assert (HV : u64 (big_Uint64 (b2z v + 27) - 27) mod 256 = b2z v).
  { unfold big_Uint64. rewrite Z.abs_eq, (u64_small (b2z v + 27)) by (unfold is_u64; lia). rewrite u64_small by (unfold is_u64; lia). zlia. }
  rewrite HV, Hval. cbn [negb]. destruct (sig_bytes r s v Hr Hs') as (Hlr & Hls & E).
  destruct (Z.ltb_spec 32 (len (big_Bytes (big_SetBytes r)))); [lia|].
  destruct (Z.ltb_spec 64 (len (big_Bytes (big_SetBytes s)))); [lia|]. cbn [orb]. rewrite z2b_b2z, E.
  rewrite (Sign_Ecrecover _ _ _ Hs). unfold key_address. destruct (public_key_format prv) as (k & -> & Hk).
  change (b2z (z2b 4) =? 4) with true. cbn [negb tail].
  pose proof (Keccak256_len k) as HK. rewrite slice_done by lia. cbn [outcome_bind]. do 3 f_equal.
  rewrite take_ge by (rewrite length_drop; unfold len in *; lia).
  set (low := drop _ _). assert (Hlow : len low = 20) by (unfold low, len in *; rewrite length_drop; lia).
  pose proof (copy_at_app [] (zeros 20) [] low) as E2. cbn [app] in E2. rewrite !app_nil_r in E2. apply E2. by rewrite Hlow.
Qed.

(** A recovered signature has V 27 or 28. *)
Lemma recoverPlain_V h R S V homestead :
  0 <= V -> V <> 27 -> V <> 28 -> recoverPlain h R S V homestead = Done (inl ErrInvalidSig).
Proof.
  intros H0 H1 H2. unfold recoverPlain. destruct (Z.ltb_spec 8 (BitLen V)) as [|Hb]; [done|]. apply BitLen_spec in Hb; [|lia].
  set (v := u64 _ mod 256). destruct (ValidateSignatureValues v R S homestead) eqn:E; [|done].
  apply Validate_range in E as (Hv & _). exfalso. unfold v, big_Uint64 in Hv.
  rewrite Z.abs_eq, (u64_small V) in Hv by (unfold is_u64; lia). unfold u64 in Hv. change (2 ^ 64) with two64 in Hv.
  assert (Hm : (V - 27) mod two64 mod 256 = (V - 27) mod 256) by (apply Z.mod_mod_divide; by exists (2 ^ 56)).
  rewrite Hm in Hv. assert (0 <= V < 256) by lia.
  destruct (Z.leb_spec 27 V); [rewrite Z.mod_small in Hv by lia; lia|].
  rewrite <-(Z.mod_add _ 1) in Hv by lia. rewrite Z.mod_small in Hv by lia. lia.
Qed.

Lemma SignatureValues_spec s r t v :
  len r = 32 -> len t = 32 -> b2z v = 0 \/ b2z v = 1 -> signer_ok s ->
  SignatureValues s (r ++ t ++ [v]) =
    Done (big_SetBytes r, big_SetBytes t,
          match s with EIP155Signer c _ => if c =? 0 then b2z v + 27 else b2z v + 35 + 2 * c | _ => b2z v + 27 end).
Proof.
  intros Hr Ht Hv Hs.
  assert (Hi : index (r ++ t ++ [v]) 64 = Done v).
  { unfold index. simpl. rewrite lookup_app_r by (unfold len in *; lia). rewrite lookup_app_r by (unfold len in *; lia).
    by replace (_ - _ - _)%nat with 0%nat by (unfold len in *; lia). }
  assert (Hf : frontier_SignatureValues (r ++ t ++ [v]) = Done (big_SetBytes r, big_SetBytes t, b2z v + 27)).
  { unfold frontier_SignatureValues. rewrite !len_app, Hr, Ht. change (len [v]) with 1. cbn [Z.add Z.eqb Pos.add Pos.eqb negb].
    rewrite !slice_done, Hi by (rewrite ?len_app; change (len [v]) with 1; lia). cbn [outcome_bind]. do 2 f_equal; [f_equal|].
    - change (Z.to_nat 0) with 0%nat. rewrite drop_0. replace (Z.to_nat (32 - 0)) with (length r) by (unfold len in *; lia).
      by rewrite take_app_length.
    - replace (Z.to_nat 32) with (length r) by (unfold len in *; lia). rewrite drop_app_length.
      replace (Z.to_nat (64 - 32)) with (length t) by (unfold len in *; lia). by rewrite take_app_length.
    - unfold big_SetBytes. simpl. rewrite b2z_z2b, Z.mod_small; lia. }
  destruct s as [| |c m]; [done|done|]. simpl. rewrite Hf. destruct Hs as [Hc ->]. cbn [outcome_bind fst].
  unfold Sign. destruct (Z.eqb_spec (Z.sgn c) 0), (Z.eqb_spec c 0); try lia; [done|]. cbn [negb]. rewrite Hi. cbn [outcome_bind].
  rewrite b2z_z2b, Z.mod_small by lia. done.
Qed.

(** ** SignTx *)

(** The signer that recovers what [s] signed. *)
Definition recovers (s : Signer) : Prop := match s with EIP155Signer c _ => c <> 0 | _ => True end.
Definition fits_rlp (s : Signer) (d : txdata) : Prop := len (payload s d) < 2 ^ 64.

Lemma SignTx_spec tx s prv sig :
  td_ok (tx_data tx) -> signer_ok s -> fits_rlp s (tx_data tx) ->
  crypto_Sign (Hash_Bytes (Keccak256Hash (payload s (tx_data tx)))) prv = Some sig ->
  exists r t v tx', sig = r ++ t ++ [v] /\ len r = 32 /\ len t = 32 /\ (b2z v = 0 \/ b2z v = 1) /\
    SignTx tx s prv = Done (inr tx') /\
    tx' = mkTransaction (td_set_sig (big_SetBytes r) (big_SetBytes t)
       (match s with EIP155Signer c _ => if c =? 0 then b2z v + 27 else b2z v + 35 + 2 * c | _ => b2z v + 27 end) (tx_data tx)) None None None.
Proof.
  intros Htx Hs Hf Hsig. pose proof (Sign_len _ _ _ Hsig) as Hl. destruct (sig_split sig Hl) as (r & t & v & -> & Hr & Ht).
  pose proof (Sign_valid _ _ _ _ _ true Hsig Hr Ht) as Hval. apply Validate_range in Hval as (Hv & _).
  eexists r, t, v, _. do 4 (split; [done|]). split; [|done]. unfold SignTx.
  rewrite signer_Hash_spec by done. cbn [outcome_bind]. rewrite Hsig. unfold WithSignature. by rewrite SignatureValues_spec.
Qed.

Lemma td_ok_set_sig r t v d : td_ok d -> 0 <= r -> 0 <= t -> 0 <= v -> td_ok (td_set_sig r t v d).
Proof. intros [] Hr Ht Hv. by split. Qed.

(** Signers that hash without a chain id recover from an unprotected V. *)
Lemma homestead_Sender_unprotected h prv r t v tx :
  crypto_Sign (Hash_Bytes h) prv = Some (r ++ t ++ [v]) -> len r = 32 -> len t = 32 ->
  signer_Hash HomesteadSigner tx = Done h ->
  td_R (tx_data tx) = big_SetBytes r -> td_S (tx_data tx) = big_SetBytes t -> td_V (tx_data tx) = b2z v + 27 ->
  homestead_Sender tx = Done (inr (key_address prv)) /\ frontier_Sender tx = Done (inr (key_address prv)).
Proof.
  intros Hsig Hr Ht Eh ER ES' EV. unfold homestead_Sender, frontier_Sender.
  change (signer_Hash FrontierSigner tx) with (signer_Hash HomesteadSigner tx). rewrite Eh. cbn [outcome_bind].
  rewrite ER, ES', EV. split; by apply recoverPlain_signed.
Qed.

Lemma signer_Sender_signed tx s prv sig :
  td_ok (tx_data tx) -> signer_ok s -> recovers s -> fits_rlp s (tx_data tx) ->
  crypto_Sign (Hash_Bytes (Keccak256Hash (payload s (tx_data tx)))) prv = Some sig ->
  exists tx', SignTx tx s prv = Done (inr tx') /\ signer_Sender s tx' = Done (inr (key_address prv)).
Proof.
  intros Htx Hs Hrec Hf Hsig. destruct (SignTx_spec tx s prv sig Htx Hs Hf Hsig) as (r & t & v & tx' & -> & Hr & Ht & Hv & E & Etx).
  exists tx'. split; [done|]. pose proof (big_SetBytes_range r). pose proof (big_SetBytes_range t).
  assert (Hh : forall s', signer_ok s' -> fits_rlp s' (tx_data tx) -> signer_Hash s' tx' = Done (Keccak256Hash (payload s' (tx_data tx)))).
  { intros s' Hs' Hf'. subst tx'. by apply (signer_Hash_spec s' tx). }
  destruct s as [| |c m]; cbn [signer_Sender].
  - eapply homestead_Sender_unprotected; [exact Hsig|done|done|by apply (Hh FrontierSigner)|by subst tx'..].
  - eapply homestead_Sender_unprotected; [exact Hsig|done|done|by apply Hh|by subst tx'..].
  - destruct Hs as [Hc ->]. simpl in Hrec. destruct (Z.eqb_spec c 0) as [|_]; [done|].
    assert (EV : td_V (tx_data tx') = b2z v + 35 + 2 * c) by (by subst tx'). unfold tx_Protected, tx_ChainId. rewrite EV.
    destruct (isProtectedV _) eqn:EP; [|apply isProtectedV_spec in EP; lia]. cbn [negb].
    rewrite deriveChainId_signed, Z.eqb_refl by done. cbn [negb]. rewrite Hh by done. cbn [outcome_bind].
    replace (b2z v + 35 + 2 * c - 2 * c - 8) with (b2z v + 27) by lia. subst tx'. cbn [tx_data td_R td_S td_set_sig]. by apply recoverPlain_signed.
Qed.

(** A transaction signed for a chain is refused everywhere else. *)
Lemma signer_Sender_elsewhere tx c prv sig s' :
  td_ok (tx_data tx) -> 0 < c -> fits_rlp (NewEIP155Signer (Some c)) (tx_data tx) ->
  crypto_Sign (Hash_Bytes (Keccak256Hash (payload (NewEIP155Signer (Some c)) (tx_data tx)))) prv = Some sig ->
  signer_ok s' -> fits_rlp s' (tx_data tx) -> (forall m, s' <> EIP155Signer c m) ->
  exists tx' err, SignTx tx (NewEIP155Signer (Some c)) prv = Done (inr tx') /\ signer_Sender s' tx' = Done (inl err).
Proof.
  intros Htx Hc Hf Hsig Hs' Hf' Hne. assert (Hs : signer_ok (NewEIP155Signer (Some c))) by (simpl; lia).
  destruct (SignTx_spec tx _ prv sig Htx Hs Hf Hsig) as (r & t & v & tx' & -> & Hr & Ht & Hv & E & Etx).
  simpl in Etx. destruct (Z.eqb_spec c 0); [lia|]. pose proof (big_SetBytes_range r). pose proof (big_SetBytes_range t).
  assert (EV : td_V (tx_data tx') = b2z v + 35 + 2 * c) by (by subst tx').
  assert (Hh : signer_Hash s' tx' = Done (Keccak256Hash (payload s' (tx_data tx)))).
  { subst tx'. by apply (signer_Hash_spec s' tx). }
  destruct s' as [| |c' m'].
  - exists tx', ErrInvalidSig. split; [done|]. simpl. unfold frontier_Sender. rewrite Hh, EV. cbn [outcome_bind]. apply recoverPlain_V; lia.
  - exists tx', ErrInvalidSig. split; [done|]. simpl. unfold homestead_Sender. rewrite Hh, EV. cbn [outcome_bind]. apply recoverPlain_V; lia.
  - exists tx', ErrInvalidChainId. split; [done|]. simpl. unfold tx_Protected, tx_ChainId. rewrite EV, deriveChainId_signed by lia.
    destruct (isProtectedV _) eqn:EP; [|apply isProtectedV_spec in EP; lia]. cbn [negb].
    destruct (Z.eqb_spec c c') as [<-|]; [by destruct (Hne m')|done].
Qed.

(** With chain id zero the chain id is hashed, but V says otherwise: the
    sender is recovered from another hash. *)
Lemma signer_Sender_chain0 tx prv sig :
  td_ok (tx_data tx) -> fits_rlp (NewEIP155Signer None) (tx_data tx) ->
  crypto_Sign (Hash_Bytes (Keccak256Hash (payload (NewEIP155Signer None) (tx_data tx)))) prv = Some sig ->
  exists tx', SignTx tx (NewEIP155Signer None) prv = Done (inr tx') /\ signer_Sender (NewEIP155Signer None) tx' = homestead_Sender tx'.
Proof.
  intros Htx Hf Hsig. destruct (SignTx_spec tx (NewEIP155Signer None) prv sig Htx (conj (Z.le_refl 0) eq_refl) Hf Hsig) as (r & t & v & tx' & -> & Hr & Ht & Hv & E & Etx).
  exists tx'. split; [done|]. simpl in *. assert (EV : td_V (tx_data tx') = b2z v + 27) by (by subst tx'). unfold tx_Protected. rewrite EV.
  destruct (isProtectedV _) eqn:EP; [|done]. assert (isProtectedV (b2z v + 27) = false); [|congruence]. apply isProtectedV_spec; lia.
Qed.
End Recover.

(** ** What a signature covers *)

Lemma enc_inj t v1 v2 :
  wf_type t = true -> has_type t v1 -> has_type t v2 -> len (enc t v1) < 2 ^ 63 -> enc t v1 = enc t v2 -> v1 = v2.
Proof.
  intros Hwf H1 H2 Hl E. destruct (DecodeBytes_spec t (enc t v1) Hwf Hl) as (res & _ & H).
  pose proof (proj2 (H v1) (enc_encodes t v1 H1)) as E1. rewrite E in H. pose proof (proj2 (H v2) (enc_encodes t v2 H2)) as E2. congruence.
Qed.

(** The fields that are signed for. *)
Definition td_fields (d : txdata) : Z * Z * Z * option Address * Z * bytes :=
  (td_AccountNonce d, td_Price d, td_GasLimit d, td_Recipient d, td_Amount d, td_Payload d).

Lemma Address_Bytes_inj a b : (a < 2 ^ 160)%N -> (b < 2 ^ 160)%N -> Address_Bytes a = Address_Bytes b -> a = b.
Proof.
  intros Ha Hb E. apply (f_equal big_SetBytes) in E. unfold Address_Bytes in E. rewrite !big_SetBytes_be_fixed in E.
  change (256 ^ Z.of_nat 20) with (2 ^ 160) in E. rewrite !Z.mod_small in E by lia. lia.
Qed.
Lemma VBytes_inj x y : VBytes x = VBytes y -> x = y.
Proof. by intros [= ->]. Qed.
Lemma sigfields_inj d1 d2 : td_ok d1 -> td_ok d2 -> sigfields d1 = sigfields d2 -> td_fields d1 = td_fields d2.
Proof.
  intros [_ _ _ H1 _ _] [_ _ _ H2 _ _] E. unfold sigfields in E. injection E as E1 E2 E3 E4 E5 E6. unfold td_fields.
  assert (Hto : td_Recipient d1 = td_Recipient d2); [|congruence]. clear E1 E2 E3 E5 E6.
  destruct (td_Recipient d1) as [a|], (td_Recipient d2) as [b|]; try done. apply VBytes_inj in E4. f_equal.
  by apply Address_Bytes_inj; [apply H1|apply H2|].
Qed.

(** With and without a chain id: nine values in the list and six. *)
Lemma enc_str_item b : item (enc_str b).
Proof.
  destruct (enc_str_cases b) as [(x & -> & Hx & E)|[E Hx]]; rewrite E; [exists KByte, [x]|exists KString, b].
  - split; [by exists x|done].
  - split; [|done]. intros (x & -> & Hlt). specialize (Hx x eq_refl). lia.
Qed.
Lemma sigfields_items d : Forall item (zip_with enc sigfields_t (sigfields d)).
Proof. repeat constructor; try apply enc_str_item. simpl. destruct (td_Recipient d) as [a|]; [apply (enc_str_item (Address_Bytes a))|apply (enc_str_item [])]. Qed.

Lemma items_length es es' :
  Forall item es -> Forall item es' -> len (concat es) < 2 ^ 63 -> concat es = concat es' -> length es = length es'.
Proof.
  intros H H' Hl E. destruct (CountValues_spec (concat es) Hl) as (res & _ & HC).
  assert (E1 : res = inr (Z.of_nat (length es))) by (apply HC; eauto).
  assert (E2 : res = inr (Z.of_nat (length es'))) by (apply HC; exists es'; split; [exact E|]; split; [exact H'|reflexivity]).
  rewrite E1 in E2. injection E2. lia.
Qed.
Lemma enc_list_inj p q : len (enc_list p) < 2 ^ 63 -> enc_list p = enc_list q -> p = q.
Proof.
  intros Hl E. pose proof (Split_item KList p (enc_list p) [] eq_refl) as Ep. pose proof (Split_item KList q (enc_list q) [] eq_refl) as Eq.
  rewrite !app_nil_r in *. rewrite <-E in Eq. specialize (Ep Hl). specialize (Eq Hl). congruence.
Qed.

Definition payload_items (s : Signer) (d : txdata) : list bytes :=
  zip_with enc sigfields_t (sigfields d) ++
  match s with EIP155Signer c _ => [enc_str (big_Bytes c); enc_str []; enc_str []] | _ => [] end.
Lemma payload_eq s d : payload s d = enc_list (concat (payload_items s d)).
Proof. by destruct s. Qed.
Lemma payload_items_ok s d : Forall item (payload_items s d).
Proof. apply Forall_app. split; [apply sigfields_items|]. destruct s; repeat constructor; apply enc_str_item. Qed.

(** Two signers that sign the same bytes. *)
Definition signs_alike (s1 s2 : Signer) : Prop :=
  match s1, s2 with
  | EIP155Signer c1 _, EIP155Signer c2 _ => c1 = c2
  | EIP155Signer _ _, _ | _, EIP155Signer _ _ => False
  | _, _ => True
  end.
Lemma payload_inj s1 s2 d1 d2 :
  td_ok d1 -> td_ok d2 -> signer_ok s1 -> signer_ok s2 -> len (payload s1 d1) < 2 ^ 63 ->
  payload s1 d1 = payload s2 d2 -> td_fields d1 = td_fields d2 /\ signs_alike s1 s2.
Proof.
  intros H1 H2 Hs1 Hs2 Hl E.
  assert (Hn : length (payload_items s1 d1) = length (payload_items s2 d2)).
  { rewrite !payload_eq in *. apply enc_list_inj in E; [|done].
    apply items_length; [apply payload_items_ok|apply payload_items_ok| |done]. by apply len_enc_list_lt. }
  assert (Hsame : signed_t s1 = signed_t s2) by (destruct s1, s2; done).
  assert (Hv : signed_val s1 d1 = signed_val s2 d2).
  { apply (enc_inj (signed_t s1)); [by destruct s1|by apply signed_has_type|rewrite Hsame; by apply signed_has_type|done|].
    rewrite Hsame at 2. exact E. }
  destruct s1, s2; try done; injection Hv as Hv; (split; [apply sigfields_inj; [done|done|]|]; unfold sigfields; try done; simpl; congruence).
Qed.

(** Transactions on the wire, and their caches. *)

Abbreviation tx_enc d := (enc txdata_t (txdata_val d)).

(** ** Encoding and decoding *)

Lemma Address_Bytes_back a : (a < 2 ^ 160)%N -> BytesToAddress (Address_Bytes a) = a.
Proof.
  intros Ha. rewrite BytesToAddress_spec. unfold Address_Bytes. rewrite big_SetBytes_be_fixed.
  change (256 ^ Z.of_nat 20) with (2 ^ 160). rewrite !Z.mod_small by (rewrite ?Z.mod_small; lia). lia.
Qed.
Lemma val_txdata_val d : td_ok d -> val_txdata (txdata_val d) = Some d.
Proof.
  intros H. pose proof (ok_to d H) as Ht. destruct d as [n p g to a pl v r s]. cbn in *. do 2 f_equal.
  destruct to as [x|]; [|done]. simpl. f_equal. by apply Address_Bytes_back, Ht.
Qed.
Lemma tx_enc_list d : exists c, tx_enc d = enc_list c.
Proof. by eexists. Qed.

(** The kind of a list, and the size that [DecodeRLP] makes of it. *)
Lemma Kind_list s c : ready s (enc_list c) [] -> exists s', stream_Kind s = Done (inr (KList, len c), s').
Proof.
  intros R. pose proof R as [(_ & _ & _ & _ & _ & Hl) _]. pose proof (enc_list_longer c). pose proof (len_nonneg c).
  assert (R' : ready s (lhead (len c) ++ c ++ []) []) by (by rewrite app_nil_r).
  destruct (Kind_content _ KList (len c) Byte.x00 _ c [] [] R') as (s1 & EK & _); [split; [lia|done]|done|done|by exists s1].
Qed.
Lemma ListSize_enc c : len (enc_list c) < 2 ^ 63 -> ListSize (len c) = len (enc_list c).
Proof.
  intros Hl. pose proof (enc_list_longer c). pose proof (len_nonneg (enc_list c)). unfold ListSize.
  rewrite <-len_enc_list, u64_small; [done|unfold is_u64; lia|lia].
Qed.

Lemma tx_DecodeRLP_spec d :
  td_ok d -> len (tx_enc d) < 2 ^ 63 ->
  DecodeTransaction (tx_enc d) = Done (inr (mkTransaction d None (Some (len (tx_enc d))) None)).
Proof.
  intros Hd Hl. set (b := tx_enc d) in *. pose proof (NewStream_ready b Hl) as Rd.
  assert (Hf : Z.of_nat (tdepth txdata_t) + len b < Z.of_nat (rlp_fuel txdata_t b)) by (unfold rlp_fuel, len; lia).
  destruct (accepts_decode txdata_t (txdata_val d) b (rlp_fuel txdata_t b) eq_refl (enc_encodes _ _ (txdata_has_type d Hd)) Hl Hf
    (NewStream b (len b)) [] []) as (s' & E & [(Er & _) _]); [by rewrite app_nil_r|done|].
  destruct (tx_enc_list d) as [c Ec]. fold b in Ec.
  assert (HK : exists s1, stream_Kind (NewStream b (len b)) = Done (inr (KList, len c), s1)) by (apply Kind_list; by rewrite <-Ec).
  destruct HK as (s1 & EK). pose proof (kf_decode txdata_t (rlp_fuel txdata_t b) ltac:(unfold rlp_fuel; lia) (NewStream b (len b))) as Hk.
  rewrite EK in Hk. unfold DecodeTransaction, tx_DecodeRLP. rewrite EK. cbn [outcome_bind]. rewrite Hk, E. cbn [outcome_bind].
  rewrite val_txdata_val by done. cbn [outcome_bind]. rewrite Er. cbn [len length Z.of_nat Z.ltb Z.compare]. do 4 f_equal.
  rewrite ListSize_enc by (by rewrite <-Ec). by rewrite Ec.
Qed.

(** Whatever is decoded is a well-formed transaction that encodes into as many
    bytes. *)
Lemma Address_Bytes_of bs : length bs = 20%nat -> Address_Bytes (BytesToAddress bs) = bs.
Proof.
  intros Hl. pose proof (big_SetBytes_range bs) as Hr. unfold len in Hr. rewrite Hl in Hr. change (256 ^ Z.of_nat 20) with (2 ^ 160) in Hr.
  rewrite BytesToAddress_spec, Z.mod_small by lia. unfold Address_Bytes. rewrite Z2N.id by lia.
  rewrite <-(be_fixed_big_SetBytes bs) at 2. by rewrite Hl.
Qed.
Lemma BytesToAddress_bound b : (BytesToAddress b < 2 ^ 160)%N.
Proof. rewrite BytesToAddress_spec. pose proof (Z.mod_pos_bound (big_SetBytes b) (2 ^ 160)). lia. Qed.

Lemma recipient_encodes v e :
  encodes (OptPtrT (ArrayT 20)) v e -> recipient_val (val_recipient v) = v /\ len e = len (enc (OptPtrT (ArrayT 20)) v).
Proof.
  intros [[-> He%is_empty_len]|[H _]]; [by split|]. destruct v as [| | | |bs| |]; try done. destruct H as [Hl ->].
  simpl. rewrite Address_Bytes_of by done. done.
Qed.

Lemma len_enc_list_eq p q : len p = len q -> len (enc_list p) = len (enc_list q).
Proof. intros H. unfold enc_list. by rewrite !len_app, H. Qed.
Lemma txdata_encodes v b :
  encodes txdata_t v b ->
  exists d, val_txdata v = Some d /\ td_ok d /\ txdata_val d = v /\ len (tx_enc d) = len b.
Proof.
  destruct v as [| | | | |l|]; try done. intros (Hl & es & HF & ->).
  do 9 (destruct l as [|? l]; [done|]). destruct l; [|done]. cbn [zip_with] in HF.
  do 9 (apply Forall2_cons_inv_l in HF as (? & ? & ? & HF & ->)). apply Forall2_nil_inv_l in HF as ->. unfold id in *.
  repeat match goal with
  | H : encodes (OptPtrT _) _ _ |- _ => apply recipient_encodes in H as [Hto Hle]
  | H : encodes (UintT _) ?v _ |- _ => destruct v; try done; destruct H as [? ->]
  | H : encodes BigT ?v _ |- _ => destruct v; try done; destruct H as [? ->]
  | H : encodes BytesT ?v _ |- _ => destruct v; try done; simpl in H; subst
  end.
  eexists. split; [reflexivity|]. unfold txdata_val. cbn [td_AccountNonce td_Price td_GasLimit td_Recipient td_Amount td_Payload td_V td_R td_S].
  rewrite Hto. split; [|split; [done|]].
  - split; cbn; try done. intros a Ha. destruct r2; try done. injection Ha as <-. apply BytesToAddress_bound.
  - cbn [enc txdata_t zip_with concat]. apply len_enc_list_eq. cbn [enc] in Hle. rewrite !len_app, Hle. done.
Qed.

(** An error of [Kind], which [DecodeRLP] drops, comes again. *)
Lemma stream_Kind_err s r err s' :
  ready s r [] -> stream_Kind s = Done (inl err, s') -> stream_Kind s' = Done (inl err, s').
Proof.
  intros [Hs Hk] E. pose proof Hs as (_ & _ & _ & Est & _). unfold stream_Kind in E. sm_run. rewrite Hk, Est in E. cbn in E.
  destruct (readKind_total (rs_set_kinderr None s) r [] Hs) as (k & sz & e & s1 & Er & _). rewrite Er in E. cbn in E.
  set (e' := match e with Some _ => _ | None => _ end) in E. destruct e' as [err'|] eqn:Ee; [|done]. cbn in E. injection E as <- <-.
  unfold stream_Kind. sm_run. done.
Qed.

Lemma DecodeTransaction_spec b :
  len b < 2 ^ 63 ->
  exists res, DecodeTransaction b = Done res /\
    forall tx, res = inr tx ->
      td_ok (tx_data tx) /\ encodes txdata_t (txdata_val (tx_data tx)) b /\
      tx = mkTransaction (tx_data tx) None (Some (len (tx_enc (tx_data tx)))) None.
Proof.
  intros Hb. pose proof (NewStream_ready b Hb) as Rd. set (s := NewStream b (len b)) in *.
  assert (Hf : Z.of_nat (tdepth txdata_t) + len b < Z.of_nat (rlp_fuel txdata_t b)) by (unfold rlp_fuel, len; lia).
  assert (Hkf : kind_first (rlp_decode (rlp_fuel txdata_t b) txdata_t)) by (apply kf_decode; unfold rlp_fuel; lia).
  unfold DecodeTransaction, tx_DecodeRLP. fold s.
  destruct (stream_Kind s) as [[[err|[k sz]] s1]| |] eqn:EK.
  - pose proof (Hkf s1) as Hk1. rewrite (stream_Kind_err s b err s1 Rd EK) in Hk1. destruct Hk1 as (err' & s2 & E & _).
    cbn [outcome_bind]. rewrite E. by eexists.
  - pose proof (Hkf s) as Hk1. rewrite EK in Hk1. cbn [outcome_bind]. rewrite Hk1.
    destruct (reads_decode txdata_t (len b) (rlp_fuel txdata_t b) eq_refl Hb Hf s b [] Rd ltac:(lia))
      as [(v & e & r' & s' & E & He & _ & Eb & _ & [(Er & _) _])|[(s' & _ & [] & _)|(err & s' & E & _)]]; rewrite E; cbn [outcome_bind]; [|by eexists].
    destruct (txdata_encodes v e He) as (d & -> & Hd & Ev & Hlen). cbn [outcome_bind]. rewrite Er.
    destruct (Z.ltb_spec 0 (len r')) as [|Hr]; [by eexists|].
    assert (r' = []) as -> by (destruct r'; [done|unfold len in Hr; simpl in Hr; lia]). rewrite app_nil_r in Eb. subst e.
    eexists. split; [done|]. intros tx [= <-]. cbn [tx_data]. split; [done|]. rewrite Ev. split; [done|]. do 2 f_equal.
    destruct v as [| | | | |l|]; try done. destruct He as (_ & es & _ & Eb). rewrite Ev in Hlen.
    rewrite Eb in Rd, Hb. destruct (Kind_list s (concat es) Rd) as (s2 & EK2). rewrite EK in EK2. injection EK2 as _ -> _.
    rewrite ListSize_enc by done. rewrite <-Eb. by rewrite Hlen.
  - exfalso. destruct (stream_Kind_total s b [] Rd) as [(? & ? & ? & ? & ? & ? & E & _)|[(? & E & _)|(? & ? & E & _)]]; congruence.
  - exfalso. destruct (stream_Kind_total s b [] Rd) as [(? & ? & ? & ? & ? & ? & E & _)|[(? & E & _)|(? & ? & E & _)]]; congruence.
Qed.

(** ** Caches *)

Lemma writeCounter_appends : appends writeCounter_Write (fun b n => n = len b).
Proof. intros b n a ->. exists (len (a ++ b)). unfold writeCounter_Write. by rewrite len_app. Qed.

Section Caches.
Context `{CR : Crypto} `{CS : !CryptoSpec} `{EC : Ecdsa} `{ES : !EcdsaSpec}.

Lemma recoverPlain_total h R S V homestead : exists res, recoverPlain h R S V homestead = Done res.
Proof.
  unfold recoverPlain. destruct (8 <? BitLen V); [by eexists|]. destruct (ValidateSignatureValues _ R S homestead) eqn:E; [|by eexists].
  apply Validate_range in E as (_ & HR & HS). cbn [negb].
  assert (Hlen : forall x, 1 <= x < 2 ^ 256 -> len (big_Bytes x) <= 32) by (intros; by apply big_Bytes_len_bound; [|lia]).
  pose proof (Hlen R HR). pose proof (Hlen S HS). destruct (Z.ltb_spec 32 (len (big_Bytes R))); [lia|].
  destruct (Z.ltb_spec 64 (len (big_Bytes S))); [lia|]. cbn [orb].
  destruct (Ecrecover _ _) as [[|x pub]|]; [by eexists| |by eexists]. destruct (negb _); [by eexists|].
  pose proof (Keccak256_len pub) as HK. rewrite slice_done by lia. by eexists.
Qed.

Definition tx_fits (s : Signer) (d : txdata) : Prop :=
  len (tx_enc d) < 2 ^ 63 /\ fits_rlp HomesteadSigner d /\ fits_rlp s d.
Lemma signer_Sender_total s tx :
  td_ok (tx_data tx) -> signer_ok s -> tx_fits s (tx_data tx) -> exists res, signer_Sender s tx = Done res.
Proof.
  intros Htx Hs (_ & Hf0 & Hf).
  assert (HH : exists res, homestead_Sender tx = Done res).
  { unfold homestead_Sender. rewrite signer_Hash_spec by done. apply recoverPlain_total. }
  destruct s as [| |c m]; cbn [signer_Sender]; [|done|].
  - unfold frontier_Sender. rewrite signer_Hash_spec by done. apply recoverPlain_total.
  - destruct (tx_Protected tx); [|done]. cbn [negb]. destruct (tx_ChainId tx =? c); [|by eexists]. cbn [negb].
    rewrite signer_Hash_spec by done. apply recoverPlain_total.
Qed.

(** What the caches of a transaction hold is what would be computed. *)
Definition caches_ok (tx : Transaction) : Prop :=
  (forall h, tx_hash tx = Some h -> h = Keccak256Hash (tx_enc (tx_data tx))) /\
  (forall n, tx_size tx = Some n -> n = len (tx_enc (tx_data tx))) /\
  (forall s a, tx_from tx = Some (s, a) -> signer_ok s /\ signer_Sender s tx = Done (inr a)).

Lemma signer_Equal_Sender s s' tx :
  signer_ok s -> signer_ok s' -> signer_Equal s s' = true -> signer_Sender s tx = signer_Sender s' tx.
Proof.
  intros Hs Hs' E. destruct s as [| |c m], s' as [| |c' m']; try done. simpl in E. apply Z.eqb_eq in E as ->.
  destruct Hs as [_ ->], Hs' as [_ ->]. done.
Qed.

Lemma tx_Hash_spec tx :
  td_ok (tx_data tx) -> len (tx_enc (tx_data tx)) < 2 ^ 63 -> caches_ok tx ->
  exists tx', tx_Hash tx = Done (Keccak256Hash (tx_enc (tx_data tx)), tx') /\ tx_data tx' = tx_data tx /\ caches_ok tx'.
Proof.
  intros Htx Hl Hc. pose proof Hc as (Hh & Hs & Hf). unfold tx_Hash. destruct (tx_hash tx) as [h|] eqn:E.
  - exists tx. rewrite (Hh h) by done. done.
  - rewrite rlpHash_spec; [|by apply txdata_has_type|lia]. cbn [outcome_bind]. eexists. split; [done|]. split; [done|].
    split; [by intros h [= <-]|]. by split.
Qed.

Lemma tx_Size_spec tx :
  td_ok (tx_data tx) -> len (tx_enc (tx_data tx)) < 2 ^ 63 -> caches_ok tx ->
  exists tx', tx_Size tx = Done (len (tx_enc (tx_data tx)), tx') /\ tx_data tx' = tx_data tx /\ caches_ok tx'.
Proof.
  intros Htx Hl Hc. pose proof Hc as (Hh & Hs & Hf). unfold tx_Size. destruct (tx_size tx) as [n|] eqn:E.
  - exists tx. rewrite (Hs n) by done. done.
  - unfold tx_EncodeRLP.
    destruct (Encode_spec _ _ txdata_t (txdata_val (tx_data tx)) 0 [] writeCounter_appends (txdata_has_type _ Htx) ltac:(lia) eq_refl)
      as (w & -> & ->). cbn [outcome_bind snd app].
    eexists. split; [done|]. split; [done|]. split; [done|]. split; [by intros h [= <-]|done].
Qed.

Lemma Sender_spec s tx :
  td_ok (tx_data tx) -> signer_ok s -> tx_fits s (tx_data tx) -> caches_ok tx ->
  exists res tx', signer_Sender s tx = Done res /\ Sender s tx = Done (res, tx') /\ tx_data tx' = tx_data tx /\ caches_ok tx'.
Proof.
  intros Htx Hs Hf Hc. pose proof Hc as (Hh & Hz & Hfrom). destruct (signer_Sender_total s tx Htx Hs Hf) as [res E].
  assert (Hd : exists tx', (let* r := signer_Sender s tx in
      match r with inl err => Done (inl err, tx) | inr addr => Done (inr addr, tx_set_from (s, addr) tx) end) = Done (res, tx') /\
      tx_data tx' = tx_data tx /\ caches_ok tx').
  { rewrite E. cbn [outcome_bind]. destruct res as [err|a]; [by exists tx|]. eexists. split; [done|]. split; [done|].
    split; [done|]. split; [done|]. intros s' a' [= <- <-]. split; [done|]. exact E. }
  destruct Hd as (tx' & Ed & Hdt & Hct). unfold Sender. destruct (tx_from tx) as [[sg from]|] eqn:Ef; [|by eexists _, _].
  destruct (Hfrom sg from eq_refl) as [Hsg Esg]. destruct (signer_Equal sg s) eqn:Eq; [|by eexists _, _].
  exists (inr from), tx. rewrite <-(signer_Equal_Sender sg s) by done. done.
Qed.
End Caches.
