(* ===== verification/SignTheorems.v ===== *)
(** What signing a transaction promises, and a signature scheme for which the
    documented laws hold. *)
From S2P Require Import Prelude BigMath Params Vm PrecompileFacts StateTransition Rlp RlpDecode RlpFacts.
From S2P Require Import RlpDecodeFacts RlpTyped RlpRaw RlpWriter Transaction TxFacts Sample.

Section SignTheorems.
Context `{CR : Crypto} `{CS : !CryptoSpec} `{EC : Ecdsa} `{ES : !EcdsaSpec}.


(** C28: a transaction signed for a chain is refused by the signers of every
    other chain, and by those without replay protection. *)
Theorem replay_protection (tx : Transaction) (c : Z) (prv : PrivateKey) (sig : bytes) (s' : Signer)
    (Htx : td_ok (tx_data tx)) (Hc : 0 < c) (Hf : fits_rlp (NewEIP155Signer (Some c)) (tx_data tx))
    (Hsig : crypto_Sign (Hash_Bytes (Keccak256Hash (payload (NewEIP155Signer (Some c)) (tx_data tx)))) prv = Some sig)
    (Hs' : signer_ok s') (Hf' : fits_rlp s' (tx_data tx)) (Hne : forall m, s' <> EIP155Signer c m) :
  exists tx' err, SignTx tx (NewEIP155Signer (Some c)) prv = Done (inr tx') /\ Sender s' tx' = Done (inl err, tx').
Proof.
  destruct (signer_Sender_elsewhere tx c prv sig s' Htx Hc Hf Hsig Hs' Hf' Hne) as (tx' & err & E & ES').
  destruct (SignTx_spec tx (NewEIP155Signer (Some c)) prv sig Htx ltac:(simpl; lia) Hf Hsig) as (r & t & v & tx1 & _ & _ & _ & _ & E1 & Etx).
  rewrite E in E1. injection E1 as <-. exists tx', err. split; [done|]. unfold Sender. rewrite ES', Etx. done.
Qed.

(** C32: the bytes that are hashed for a signature determine nonce, price, gas
    limit, recipient, amount and data, and whether and which chain id is
    signed for. *)
Theorem signed_bytes_determine (s1 s2 : Signer) (d1 d2 : txdata)
    (H1 : td_ok d1) (H2 : td_ok d2) (Hs1 : signer_ok s1) (Hs2 : signer_ok s2) (Hl1 : len (payload s1 d1) < 2 ^ 63) (Hl2 : len (payload s2 d2) < 2 ^ 63)
    (Heq : EncodeToBytes (signed_t s1) (signed_val s1 d1) = EncodeToBytes (signed_t s2) (signed_val s2 d2)) :
  td_fields d1 = td_fields d2 /\ signs_alike s1 s2.
Proof.
  apply payload_inj; try done. rewrite !EncodeToBytes_spec in Heq by (try (by apply signed_has_type); unfold payload in *; lia).
  by injection Heq.
Qed.

(** C33: hash, size and sender of a transaction do not depend on what is in
    its caches, and never panic. *)
Theorem caches_transparent (s : Signer) (tx : Transaction)
    (Htx : td_ok (tx_data tx)) (Hs : signer_ok s) (Hf : tx_fits s (tx_data tx)) (Hc : caches_ok tx) :
  (exists tx', tx_Hash tx = Done (Keccak256Hash (tx_enc (tx_data tx)), tx') /\ tx_data tx' = tx_data tx /\ caches_ok tx') /\
  (exists tx', tx_Size tx = Done (len (tx_enc (tx_data tx)), tx') /\ tx_data tx' = tx_data tx /\ caches_ok tx') /\
  (exists res tx', signer_Sender s tx = Done res /\ Sender s tx = Done (res, tx') /\ tx_data tx' = tx_data tx /\ caches_ok tx').
Proof.
  pose proof Hf as [Hl _]. split; [by apply tx_Hash_spec|]. split; [by apply tx_Size_spec|by apply Sender_spec].
Qed.
End SignTheorems.



(** ** A signature scheme

    The second half of a signature is the sum of key and hash; it satisfies
    what is asked of the signature packages. *)
Definition toy_mod : Z := 2 ^ 256 - 1.
#[local] Instance toy_crypto : Crypto := {|
  Keccak256 b := be_fixed 32 (big_SetBytes b);
  Keccak256Hash := sample_hash;
  CreateAddress a n := BytesToAddress (Address_Bytes a ++ big_Bytes n);
  ValidateSignatureValues v r s homestead :=
    ((v =? 0) || (v =? 1)) && (1 <=? r) && (r <? 2 ^ 256) && (1 <=? s) && (s <? 2 ^ 256);
  Ecrecover h sig :=
    Some (z2b 4 :: be_fixed 64 ((big_SetBytes (take 32 (drop 32 sig)) - 1 - big_SetBytes h) mod toy_mod));
  sha256_Sum256 b := be_fixed 32 (big_SetBytes b);
  ripemd160_Sum b := be_fixed 20 (big_SetBytes b);
  G1 := unit;
  G2 := unit;
  G1_Unmarshal b := Some tt;
  G2_Unmarshal b := Some tt;
  G1_Add x y := tt;
  G1_ScalarMult x n := tt;
  G1_Marshal x := be_fixed 64 0;
  PairingCheck l k := true
|}.
#[local] Instance toy_crypto_spec : CryptoSpec.
Proof.
  split; try (intros; apply len_be_fixed). intros h s pub H. cbn [Ecrecover toy_crypto] in H. apply (inj Some) in H as <-.
  rewrite len_cons, len_be_fixed. done.
Qed.

Definition toy_s (h : bytes) (k : Z) : Z := 1 + (k + big_SetBytes h) mod toy_mod.
#[local] Instance toy_ecdsa : Ecdsa := {|
  PrivateKey := Z;
  crypto_Sign h k :=
    if (0 <=? k) && (k <? toy_mod) then Some (be_fixed 32 1 ++ be_fixed 32 (toy_s h k) ++ [Byte.x00]) else None
|}.
Lemma toy_s_range h k : 1 <= toy_s h k < 2 ^ 256.
Proof. unfold toy_s, toy_mod. pose proof (Z.mod_pos_bound (k + big_SetBytes h) (2 ^ 256 - 1)). lia. Qed.
Lemma be32_value z : 0 <= z < 2 ^ 256 -> big_SetBytes (be_fixed 32 z) = z.
Proof. intros. rewrite big_SetBytes_be_fixed. by apply Z.mod_small. Qed.

#[local] Instance toy_ecdsa_spec : EcdsaSpec.
Proof.
  refine {| public_key (k : @PrivateKey toy_ecdsa) := z2b 4 :: be_fixed 64 k |}.
  - intros k. eexists. split; [done|]. apply len_be_fixed.
  - intros h k sig. cbn -[be_fixed toy_s]. destruct (_ && _); [|done]. intros <-%(inj Some). rewrite !len_app, !len_be_fixed. done.
  - intros h k r s v homestead. cbn -[be_fixed toy_s]. destruct (_ && _); [|done]. intros E%(inj Some) Hr Hs.
    apply app_inj_1 in E as [<- E]; [|unfold len in Hr; rewrite length_be_fixed; lia].
    apply app_inj_1 in E as [<- E]; [|unfold len in Hs; rewrite length_be_fixed; lia]. injection E as <-.
    pose proof (toy_s_range h k). rewrite !be32_value by lia. change (b2z Byte.x00) with 0.
    rewrite !andb_true_iff, !Z.leb_le, !Z.ltb_lt. repeat split; done || lia.
  - intros h k sig. cbn -[be_fixed toy_s]. destruct (_ && _) eqn:Hk; [|done]. intros <-%(inj Some).
    apply andb_true_iff in Hk as [Hk1%Z.leb_le Hk2%Z.ltb_lt]. do 3 f_equal.
    rewrite drop_app_length' by (by rewrite length_be_fixed). rewrite take_app_length' by (by rewrite length_be_fixed).
    rewrite be32_value by (pose proof (toy_s_range h k); lia). unfold toy_s.
    replace (1 + (k + big_SetBytes h) mod toy_mod - 1 - big_SetBytes h) with ((k + big_SetBytes h) mod toy_mod - big_SetBytes h) by lia.
    rewrite Zminus_mod_idemp_l. replace (k + big_SetBytes h - big_SetBytes h) with k by lia. apply Z.mod_small. lia.
  - intros v r s homestead. cbn -[Z.pow]. rewrite !andb_true_iff, orb_true_iff, !Z.eqb_eq, !Z.leb_le, !Z.ltb_lt. tauto.
Defined.

(** A transfer, and the same signed by key 5 for chain 1. *)
Definition sample_tx : Transaction := NewTransaction 3 0x1234%N (Some 10) 21000 (Some 2) [].
Lemma sample_tx_ok : td_ok (tx_data sample_tx).
Proof. split; try done. intros a [= <-]. done. Qed.


Lemma replay_protection_witness :
  exists tx' err, SignTx sample_tx (NewEIP155Signer (Some 1)) 5 = Done (inr tx') /\
    Sender (NewEIP155Signer (Some 2)) tx' = Done (inl err, tx').
Proof.
  eapply replay_protection; [apply sample_tx_ok|reflexivity|vm_compute; reflexivity|vm_compute; reflexivity| |vm_compute; reflexivity|discriminate].
  split; [discriminate|reflexivity].
Defined.

(** The transfer and the same with a signature: two different structs. *)
Definition sample_signed : Transaction :=
  Eval vm_compute in match SignTx sample_tx HomesteadSigner 5 with Done (inr tx) => tx | _ => sample_tx end.
Lemma sample_signed_ok : td_ok (tx_data sample_signed).
Proof. split; [vm_compute; by split|done|vm_compute; by split|by intros a [= <-]|done|vm_compute; by repeat split]. Qed.
Lemma signed_bytes_determine_witness :
  tx_data sample_tx <> tx_data sample_signed /\
  td_fields (tx_data sample_tx) = td_fields (tx_data sample_signed) /\ signs_alike FrontierSigner HomesteadSigner.
Proof.
  split; [discriminate|].
  apply signed_bytes_determine; [apply sample_tx_ok|apply sample_signed_ok|exact I|exact I|vm_compute; reflexivity..].
Defined.

(** The transfer with hash and size in its caches. *)
Definition sample_cached : Transaction :=
  Eval vm_compute in
    match tx_Hash sample_tx with
    | Done (_, tx) => match tx_Size tx with Done (_, tx) => tx | _ => sample_tx end
    | _ => sample_tx
    end.
Lemma caches_transparent_witness :
  (exists tx', tx_Hash sample_cached = Done (Keccak256Hash (tx_enc (tx_data sample_tx)), tx') /\
    tx_data tx' = tx_data sample_tx /\ caches_ok tx') /\
  is_Some (tx_hash sample_cached) /\ is_Some (tx_size sample_cached).
Proof.
  split; [|split; eexists; reflexivity]. apply (caches_transparent HomesteadSigner sample_cached); [apply sample_tx_ok|exact I| |].
  - split; [vm_compute; reflexivity|split; vm_compute; reflexivity].
  - split; [|split; [|discriminate]]; intros x [= <-]; vm_compute; reflexivity.
Defined.


(** ** Chain id zero

    A signer made for a configuration without a chain id signs a hash with
    chain id zero in it, and recovers from one without. *)
Theorem chain0_wrong_sender :
  exists tx' a, SignTx sample_tx (NewEIP155Signer None) 5 = Done (inr tx') /\
    signer_Sender (NewEIP155Signer None) tx' = Done (inr a) /\ a <> key_address 5.
Proof.
  eexists _, _. split; [vm_compute; reflexivity|]. split; [vm_compute; reflexivity|]. vm_compute. discriminate.
Qed.
