(* ===== verification/Heap.v ===== *)
(** The binary heap of Go's container/heap, on slices.

    [less] is the [Less] of the elements at two indices; [Push] and [Pop] of
    the interface append to the slice and take its last element off, as all
    heaps of the program do. *)
From Stdlib Require Import Sorting.Sorted.
From S2P Require Import Prelude.

Section Heap.
Context {A : Type} (less : A -> A -> bool).
Implicit Types (l : list A) (i j k n : nat).

Definition heap_Swap i j l : list A :=
  match l !! i, l !! j with
  | Some x, Some y => <[i := y]> (<[j := x]> l)
  | _, _ => l
  end.
Definition heap_Less l i j : bool :=
  match l !! i, l !! j with
  | Some x, Some y => less x y
  | _, _ => false
  end.

(** The index falls, so that [j] rounds are enough. *)
Fixpoint heap_up_loop (fuel : nat) j l : list A :=
  match fuel with
  | O => l
  | S fuel =>
      let i := ((j - 1) / 2)%nat in
      if (i =? j)%nat || negb (heap_Less l j i) then l else heap_up_loop fuel i (heap_Swap i j l)
  end.
Definition heap_up j l : list A := heap_up_loop j j l.

(** The index rises below [n]. *)
Fixpoint heap_down_loop (fuel : nat) i n l : list A * nat :=
  match fuel with
  | O => (l, i)
  | S fuel =>
      let j1 := (2 * i + 1)%nat in
      if (n <=? j1)%nat then (l, i)
      else
        let j2 := (j1 + 1)%nat in
        let j := if (j2 <? n)%nat && heap_Less l j2 j1 then j2 else j1 in
        if negb (heap_Less l j i) then (l, i) else heap_down_loop fuel j n (heap_Swap i j l)
  end.
Definition heap_down i0 n l : list A * bool :=
  let '(l, i) := heap_down_loop n i0 n l in (l, (i0 <? i)%nat).

(** From the last inner node to the root. *)
Fixpoint heap_Init_loop i n l : list A :=
  match i with
  | O => l
  | S i => heap_Init_loop i n (heap_down i n l).1
  end.
Definition heap_Init l : list A := heap_Init_loop (length l / 2) (length l) l.

Definition heap_Push (x : A) l : list A := let l := l ++ [x] in heap_up (length l - 1) l.

(** Takes the last element off; an empty slice has none. *)
Definition pop_last l : outcome (A * list A) :=
  match last l with
  | Some x => Done (x, take (length l - 1) l)
  | None => GoPanic
  end.
Definition heap_Pop l : outcome (A * list A) :=
  match l with
  | [] => GoPanic
  | _ => let n := (length l - 1)%nat in pop_last (heap_down 0 n (heap_Swap 0 n l)).1
  end.

Definition heap_Fix i l : list A :=
  let '(l', moved) := heap_down i (length l) l in if moved then l' else heap_up i l'.

Definition heap_Remove i l : outcome (A * list A) :=
  let n := (length l - 1)%nat in
  if (n =? i)%nat then pop_last l
  else
    let '(l', moved) := heap_down i n (heap_Swap i n l) in
    pop_last (if moved then l' else heap_up i l').

(** ** Order *)

Class WeakOrder : Prop := {
  less_asym x y : less x y = true -> less y x = false;
  less_neg_trans x y z : less x y = false -> less y z = false -> less x z = false
}.
Context `{WO : WeakOrder}.

Lemma less_irrefl x : less x x = false.
Proof. destruct (less x x) eqn:E; [|done]. pose proof (less_asym _ _ E). congruence. Qed.

(** ** Swapping *)

Lemma length_Swap i j l : length (heap_Swap i j l) = length l.
Proof. unfold heap_Swap. destruct (l !! i), (l !! j); rewrite ?length_insert; done. Qed.
Lemma lookup_Swap i j l k :
  (i < length l)%nat -> (j < length l)%nat ->
  heap_Swap i j l !! k = if decide (k = i) then l !! j else if decide (k = j) then l !! i else l !! k.
Proof.
  intros [x Hx]%lookup_lt_is_Some [y Hy]%lookup_lt_is_Some. unfold heap_Swap. rewrite Hx, Hy.
  pose proof (lookup_lt_Some _ _ _ Hx). pose proof (lookup_lt_Some _ _ _ Hy).
  destruct (decide (k = i)) as [->|Hi]; [rewrite list_lookup_insert_eq; [done|by rewrite length_insert]|].
  rewrite list_lookup_insert_ne by done. destruct (decide (k = j)) as [->|Hj]; [by rewrite list_lookup_insert_eq|].
  by rewrite list_lookup_insert_ne.
Qed.
Lemma Swap_perm i j l : heap_Swap i j l ≡ₚ l.
Proof.
  unfold heap_Swap. destruct (l !! i) as [x|] eqn:Hx, (l !! j) as [y|] eqn:Hy; try done.
  destruct (decide (i = j)) as [->|Hne].
  - rewrite Hx in Hy. injection Hy as <-. rewrite list_insert_insert_eq. by rewrite list_insert_id.
  - apply Permutation_insert_swap; done.
Qed.

(** ** Parents and children *)

Definition parent j : nat := ((j - 1) / 2)%nat.
Lemma parent_iff i j : (0 < j)%nat -> parent j = i <-> j = (2 * i + 1)%nat \/ j = (2 * i + 2)%nat.
Proof.
  intros Hj. unfold parent. pose proof (Nat.div_mod (j - 1) 2 ltac:(lia)) as Hd.
  pose proof (Nat.mod_upper_bound (j - 1) 2 ltac:(lia)). split; [intros <-; lia|].
  intros [-> | ->]; symmetry; [apply (Nat.div_unique _ _ _ 0)|apply (Nat.div_unique _ _ _ 1)]; lia.
Qed.
Lemma parent_lt j : (0 < j)%nat -> (parent j < j)%nat.
Proof. intros Hj. destruct (proj1 (parent_iff (parent j) j Hj) eq_refl); lia. Qed.

Lemma Less_lookup l i j x y : l !! i = Some x -> l !! j = Some y -> heap_Less l i j = less x y.
Proof. intros Hx Hy. unfold heap_Less. by rewrite Hx, Hy. Qed.
Lemma Less_trans l i j k :
  (j < length l)%nat -> heap_Less l i j = false -> heap_Less l j k = false -> heap_Less l i k = false.
Proof.
  intros [y Hy]%lookup_lt_is_Some. unfold heap_Less. rewrite Hy. destruct (l !! i), (l !! k); try done. apply less_neg_trans.
Qed.
Lemma Less_asym l i j : heap_Less l i j = true -> heap_Less l j i = false.
Proof. unfold heap_Less. destruct (l !! i), (l !! j); try done. apply less_asym. Qed.

Definition transp i j k : nat := if decide (k = i) then j else if decide (k = j) then i else k.
Lemma Less_Swap i j l a b :
  (i < length l)%nat -> (j < length l)%nat ->
  heap_Less (heap_Swap i j l) a b = heap_Less l (transp i j a) (transp i j b).
Proof.
  intros Hi Hj. unfold heap_Less. rewrite !lookup_Swap by done. unfold transp.
  by repeat case_decide.
Qed.
Lemma transp_l i j : transp i j i = j.
Proof. unfold transp. by rewrite decide_True. Qed.
Lemma transp_r i j : transp i j j = i.
Proof. unfold transp. destruct (decide (j = i)); [done|]. by rewrite decide_True. Qed.
Lemma transp_ne i j k : k <> i -> k <> j -> transp i j k = k.
Proof. intros. unfold transp. by rewrite !decide_False. Qed.

(** Nodes below [n] whose parent is at least [lo] are not less than it. *)
Definition edges (lo n : nat) l : Prop :=
  forall j, (0 < j < n)%nat -> (lo <= parent j)%nat -> heap_Less l j (parent j) = false.
(** The same, but for the children of [i], which may be less than [i] and not
    less than its parent. *)
Definition edges_below (lo n i : nat) l : Prop :=
  (forall j, (0 < j < n)%nat -> (lo <= parent j)%nat -> parent j <> i -> heap_Less l j (parent j) = false) /\
  (forall j, (0 < j < n)%nat -> parent j = i -> (0 < i)%nat -> (lo <= parent i)%nat -> heap_Less l j (parent i) = false).

(** The edges but that of [i] to its parent. *)
Definition edges_around (n i : nat) l : Prop :=
  (forall j, (0 < j < n)%nat -> j <> i -> parent j <> i -> heap_Less l j (parent j) = false) /\
  (forall j, (0 < j < n)%nat -> parent j = i -> (0 < i)%nat -> heap_Less l j (parent i) = false).

(** The least child. *)
Definition least_child n l i : nat :=
  let j1 := (2 * i + 1)%nat in let j2 := (j1 + 1)%nat in
  if (j2 <? n)%nat && heap_Less l j2 j1 then j2 else j1.
Lemma least_child_spec n l i :
  (2 * i + 1 < n)%nat -> (n <= length l)%nat ->
  let j := least_child n l i in
  parent j = i /\ (0 < j < n)%nat /\ forall k, (0 < k < n)%nat -> parent k = i -> heap_Less l k j = false.
Proof.
  intros Hn Hl j.
  assert (Hj : j = (2 * i + 1)%nat /\ (forall k, k = (2 * i + 2)%nat -> (k < n)%nat -> heap_Less l k j = false) \/
               j = (2 * i + 2)%nat /\ (j < n)%nat /\ heap_Less l (2 * i + 1) j = false).
  { unfold j, least_child. replace (2 * i + 1 + 1)%nat with (2 * i + 2)%nat by lia.
    destruct (Nat.ltb_spec (2 * i + 2) n); cbn [andb]; [|left; split; [done|lia]].
    destruct (heap_Less l (2 * i + 2) (2 * i + 1)) eqn:E; [right|left; split; [done|by intros k ->]].
    split; [done|]. split; [done|]. by apply Less_asym. }
  assert (Hirr : forall k, heap_Less l k k = false).
  { intros k. unfold heap_Less. destruct (l !! k); [|done]. apply less_irrefl. }
  destruct Hj as [[-> H]|(-> & Hlt & H)]; (split; [apply parent_iff; lia|]; split; [lia|]);
    intros k Hk [-> | ->]%parent_iff; try lia; auto. apply H; lia.
Qed.

Lemma down_step lo n i l :
  (n <= length l)%nat -> (lo <= i)%nat -> (2 * i + 1 < n)%nat ->
  (forall j, (0 < j < n)%nat -> (lo <= parent j)%nat -> j <> i -> parent j <> i -> heap_Less l j (parent j) = false) ->
  (forall j, (0 < j < n)%nat -> parent j = i -> (0 < i)%nat -> (lo <= parent i)%nat -> heap_Less l j (parent i) = false) ->
  let j := least_child n l i in
  heap_Less l j i = true -> edges_below lo n j (heap_Swap i j l).
Proof.
  intros Hn Hlo Hi H1 H2 j Hless. destruct (least_child_spec n l i Hi Hn) as (Hp & Hj & Hk). fold j in Hp, Hj, Hk.
  assert (Hij : (i < j)%nat) by (rewrite <-Hp; apply parent_lt; lia).
  split.
  - intros k Hkn Hlok Hpk. rewrite Less_Swap by lia. destruct (decide (k = j)) as [->|Hkj].
    + rewrite Hp, transp_r, transp_l. by apply Less_asym.
    + destruct (decide (parent k = i)) as [Hpi|Hpi].
      * rewrite Hpi, transp_l. assert (k <> i) by (intros ->; pose proof (parent_lt i); lia). rewrite transp_ne by done. by apply Hk.
      * rewrite (transp_ne i j (parent k)) by done. destruct (decide (k = i)) as [->|Hki].
        -- rewrite transp_l. apply H2; try lia; done.
        -- rewrite transp_ne by done. by apply H1.
  - intros k Hkn Hpk H0 Hlok. rewrite Less_Swap by lia. rewrite Hp, transp_l.
    assert (k > j)%nat by (rewrite <-Hpk; apply parent_lt; lia). rewrite transp_ne by lia. rewrite <-Hpk. apply H1; try lia.
Qed.

Lemma down_stop lo n i l :
  (n <= length l)%nat -> edges_below lo n i l ->
  (2 * i + 1 < n -> heap_Less l (least_child n l i) i = false)%nat -> edges lo n l.
Proof.
  intros Hn [H1 H2] Hs j Hj Hlo. destruct (decide (parent j = i)) as [Hp|]; [|by apply H1].
  assert (Hlt : (2 * i + 1 < n)%nat) by (apply parent_iff in Hp; lia).
  destruct (least_child_spec n l i Hlt Hn) as (Hpc & Hc & Hk). rewrite Hp.
  apply (Less_trans l j (least_child n l i) i); [lia|by apply Hk|by apply Hs].
Qed.

Lemma heap_down_loop_spec fuel : forall lo n i l,
  (n <= length l)%nat -> (n <= fuel + i)%nat -> (lo <= i)%nat -> edges_below lo n i l ->
  exists l' i', heap_down_loop fuel i n l = (l', i') /\ edges lo n l' /\ l' ≡ₚ l /\ (i <= i')%nat /\
    (forall k, (n <= k \/ k < i)%nat -> l' !! k = l !! k) /\ (i' = i -> l' = l).
Proof.
  induction fuel as [|fuel IH]; intros lo n i l Hn Hf Hlo He; cbn [heap_down_loop].
  { exists l, i. split; [done|]. split; [|done]. apply (down_stop lo n i); [done|done|lia]. }
  destruct (Nat.leb_spec n (2 * i + 1)).
  { exists l, i. split; [done|]. split; [|done]. apply (down_stop lo n i); [done|done|lia]. }
  fold (least_child n l i). destruct (heap_Less l (least_child n l i) i) eqn:E; cbn [negb].
  - destruct (least_child_spec n l i ltac:(lia) Hn) as (Hp & Hj & _). set (j := least_child n l i) in *.
    assert (Hij : (i < j)%nat) by (rewrite <-Hp; apply parent_lt; lia).
    destruct (IH lo n j (heap_Swap i j l)) as (l' & i' & E' & He' & Hperm & Hi' & Hk & _);
      [by rewrite length_Swap|lia|lia|destruct He; apply down_step; auto; lia|].
    exists l', i'. split; [done|]. split; [done|]. split; [by rewrite Hperm, Swap_perm|]. split; [lia|]. split; [|lia].
    intros k Hkn. rewrite Hk by lia. rewrite lookup_Swap by lia. by rewrite !decide_False by lia.
  - exists l, i. split; [done|]. split; [|done]. apply (down_stop lo n i); [done|done|]. intros. done.
Qed.

(** From a node whose own edge may be wrong as well. *)
Lemma heap_down_around n i l :
  (n <= length l)%nat -> (i < n)%nat -> edges_around n i l ->
  exists l' moved, heap_down i n l = (l', moved) /\ l' ≡ₚ l /\ (forall k, (n <= k)%nat -> l' !! k = l !! k) /\
    if moved then edges 0 n l'
    else l' = l /\ (forall j, (0 < j < n)%nat -> j <> i -> heap_Less l j (parent j) = false).
Proof.
  intros Hn Hi [H1 H2]. unfold heap_down. destruct n as [|n]; [lia|]. cbn [heap_down_loop].
  assert (Hstay : forall j, (0 < j < S n)%nat -> j <> i -> (2 * i + 1 < S n -> heap_Less l (least_child (S n) l i) i = false)%nat ->
    heap_Less l j (parent j) = false).
  { intros j Hj Hji Hs. destruct (decide (parent j = i)) as [Hp|]; [|by apply H1].
    assert (Hlt : (2 * i + 1 < S n)%nat) by (apply parent_iff in Hp; lia).
    destruct (least_child_spec (S n) l i Hlt Hn) as (_ & Hc & Hk). rewrite Hp.
    apply (Less_trans l j (least_child (S n) l i) i); [lia|by apply Hk|by apply Hs]. }
  destruct (Nat.leb_spec (S n) (2 * i + 1)).
  { exists l, false. rewrite Nat.ltb_irrefl. do 3 (split; [done|]). split; [done|]. intros j Hj Hji. apply Hstay; [done|done|lia]. }
  fold (least_child (S n) l i). destruct (heap_Less l (least_child (S n) l i) i) eqn:E; cbn [negb].
  - destruct (least_child_spec (S n) l i ltac:(lia) Hn) as (Hp & Hj & _).
    pose proof (down_step 0 (S n) i l Hn ltac:(lia) ltac:(lia) ltac:(auto) ltac:(auto) E) as Hstep. set (j := least_child (S n) l i) in *.
    assert (Hij : (i < j)%nat) by (rewrite <-Hp; apply parent_lt; lia).
    destruct (heap_down_loop_spec n 0 (S n) j (heap_Swap i j l)) as (l' & i' & -> & He' & Hperm & Hi' & Hk & _);
      [by rewrite length_Swap|lia|lia|done|].
    exists l', true. destruct (Nat.ltb_spec i i'); [|lia]. split; [done|]. split; [by rewrite Hperm, Swap_perm|]. split; [|done].
    intros k Hkn. rewrite Hk by lia. rewrite lookup_Swap by lia. by rewrite !decide_False by lia.
  - exists l, false. rewrite Nat.ltb_irrefl. do 3 (split; [done|]). split; [done|]. intros j Hj Hji. by apply Hstay.
Qed.

(** ** Moving up *)

Definition edges_above (n j : nat) l : Prop :=
  (forall k, (0 < k < n)%nat -> k <> j -> heap_Less l k (parent k) = false) /\
  (forall k, (0 < k < n)%nat -> parent k = j -> (0 < j)%nat -> heap_Less l k (parent j) = false).

Lemma up_step n j l :
  (n <= length l)%nat -> (0 < j < n)%nat -> edges_above n j l -> heap_Less l j (parent j) = true ->
  edges_above n (parent j) (heap_Swap (parent j) j l).
Proof.
  intros Hn Hj [H1 H2] E. pose proof (parent_lt j ltac:(lia)) as Hp. set (i := parent j) in *.
  assert (Hij : heap_Less l i j = false) by (by apply Less_asym).
  split.
  - intros k Hk Hki. rewrite Less_Swap by lia. destruct (decide (k = j)) as [->|Hkj].
    + fold i. rewrite transp_l, transp_r. done.
    + rewrite (transp_ne i j k) by done. destruct (decide (parent k = j)) as [Hpj|Hpj].
      * rewrite Hpj, transp_r. by apply H2; [| |lia].
      * destruct (decide (parent k = i)) as [Hpi|Hpi]; [|rewrite transp_ne by done; by apply H1].
        rewrite Hpi, transp_l. apply (Less_trans l k i j); [lia| |done]. rewrite <-Hpi. by apply H1.
  - intros k Hk Hpk Hi0. rewrite Less_Swap by lia. pose proof (parent_lt i Hi0). rewrite (transp_ne i j (parent i)) by lia.
    assert (Hie : heap_Less l i (parent i) = false) by (apply H1; lia).
    destruct (decide (k = j)) as [->|Hkj]; [by rewrite transp_r|].
    pose proof (parent_lt k ltac:(lia)). rewrite transp_ne by (done || lia). apply (Less_trans l k i (parent i)); [lia| |done].
    rewrite <-Hpk. by apply H1.
Qed.

Lemma heap_up_loop_spec fuel : forall n j l,
  (n <= length l)%nat -> (j < n)%nat -> (j <= fuel)%nat -> edges_above n j l ->
  edges 0 n (heap_up_loop fuel j l) /\ heap_up_loop fuel j l ≡ₚ l /\
  (forall k, (n <= k)%nat -> heap_up_loop fuel j l !! k = l !! k).
Proof.
  induction fuel as [|fuel IH]; intros n j l Hn Hj Hf He; cbn [heap_up_loop].
  { assert (j = 0%nat) as -> by lia. split; [|done]. intros k Hk _. apply He; lia. }
  fold (parent j). destruct (Nat.eqb_spec (parent j) j) as [Hpj|Hpj]; cbn [orb].
  { assert (j = 0%nat) as -> by (destruct j; [done|]; pose proof (parent_lt (S j)); lia). split; [|done]. intros k Hk _. apply He; lia. }
  assert (H0 : (0 < j)%nat) by (destruct j; [done|lia]). pose proof (parent_lt j H0) as Hlt.
  destruct (heap_Less l j (parent j)) eqn:E; cbn [negb].
  - destruct (IH n (parent j) (heap_Swap (parent j) j l)) as (He' & Hp & Hk); [by rewrite length_Swap|lia|lia|by apply up_step|].
    split; [done|]. split; [by rewrite Hp, Swap_perm|]. intros k Hkn. rewrite Hk by done. rewrite lookup_Swap by lia. by rewrite !decide_False by lia.
  - split; [|done]. intros k Hk _. destruct (decide (k = j)) as [->|]; [done|]. by apply He.
Qed.

(** ** The operations *)

Definition heap_ok l : Prop := edges 0 (length l) l.

(** The root is least. *)
Lemma heap_least l x : heap_ok l -> head l = Some x -> forall y, y ∈ l -> less y x = false.
Proof.
  intros Hok Hx y [j Hj]%list_elem_of_lookup. destruct l as [|z l]; [done|]. injection Hx as ->.
  assert (H : forall n j, (j <= n)%nat -> (j < length (x :: l))%nat -> heap_Less (x :: l) j 0 = false).
  { induction n as [|n IH]; intros i Hi Hl.
    - assert (i = 0%nat) as -> by lia. apply less_irrefl.
    - destruct (decide (i = 0%nat)) as [->|Hi0]; [apply less_irrefl|]. pose proof (parent_lt i ltac:(lia)).
      apply (Less_trans _ i (parent i)); [lia|apply Hok; lia|apply IH; lia]. }
  specialize (H j j ltac:(lia) (lookup_lt_Some _ _ _ Hj)). by rewrite (Less_lookup _ j 0 y x) in H.
Qed.

Lemma heap_Init_spec l : heap_ok (heap_Init l) /\ heap_Init l ≡ₚ l.
Proof.
  assert (H : forall i l, (i <= length l)%nat -> edges i (length l) l ->
    heap_ok (heap_Init_loop i (length l) l) /\ heap_Init_loop i (length l) l ≡ₚ l).
  { induction i as [|i IH]; intros l0 Hi He; cbn [heap_Init_loop]; [done|].
    destruct (heap_down_loop_spec (length l0) i (length l0) i l0) as (l' & i' & E & He' & Hp & _); [lia|lia|lia| |].
    { split; [intros j Hj Hlo Hne; apply He; lia|]. intros j Hj Hpj H0 Hlo. pose proof (parent_lt i H0). lia. }
    unfold heap_down. rewrite E. cbn [fst]. pose proof (Permutation_length Hp) as Hlen. rewrite <-Hlen in He' |- *.
    destruct (IH l') as [Hok Hp']; [lia|done|]. split; [done|]. by rewrite Hp'. }
  apply H; [apply Nat.Div0.div_le_upper_bound; lia|]. intros j Hj Hlo. exfalso.
  pose proof (Nat.div_mod (length l) 2 ltac:(lia)). pose proof (Nat.mod_upper_bound (length l) 2 ltac:(lia)).
  destruct (proj1 (parent_iff (parent j) j ltac:(lia)) eq_refl); lia.
Qed.

Lemma heap_Push_spec x l : heap_ok l -> heap_ok (heap_Push x l) /\ heap_Push x l ≡ₚ x :: l.
Proof.
  intros Hok. unfold heap_Push, heap_up. rewrite length_app. simpl.
  replace (length l + 1 - 1)%nat with (length l) by lia.
  destruct (heap_up_loop_spec (length l) (length (l ++ [x])) (length l) (l ++ [x])) as (He & Hp & _);
    [lia|rewrite length_app; simpl; lia|lia| |].
  - rewrite length_app. simpl. split.
    + intros k Hk Hne. pose proof (parent_lt k ltac:(lia)). unfold heap_Less. rewrite !lookup_app_l by lia. apply Hok; lia.
    + intros k Hk Hpk. pose proof (parent_lt k ltac:(lia)). lia.
  - split; [unfold heap_ok; by rewrite (Permutation_length Hp)|]. rewrite Hp. by rewrite Permutation_app_comm.
Qed.

Lemma edges_take n l : (n <= length l)%nat -> edges 0 n l -> heap_ok (take n l).
Proof.
  intros Hn He j Hj _. rewrite length_take in Hj. pose proof (parent_lt j ltac:(lia)). unfold heap_Less.
  rewrite !lookup_take_lt by lia. apply He; lia.
Qed.
(** Taking the last element off, when the rest is a heap. *)
Lemma pop_last_spec n l x :
  length l = S n -> l !! n = Some x -> edges 0 n l -> exists l', pop_last l = Done (x, l') /\ heap_ok l' /\ l ≡ₚ x :: l'.
Proof.
  intros Hn Hx He. unfold pop_last. rewrite last_lookup, Hn. simpl. rewrite Hx, Nat.sub_0_r. eexists. split; [done|].
  split; [apply edges_take; [lia|done]|]. rewrite <-(take_drop n l) at 1. rewrite (drop_S _ x) by done.
  rewrite (drop_ge _ (S n)) by lia. by rewrite Permutation_app_comm.
Qed.

Lemma heap_Pop_spec x l :
  heap_ok (x :: l) -> exists l', heap_Pop (x :: l) = Done (x, l') /\ heap_ok l' /\ l' ≡ₚ l /\ forall y, y ∈ l -> less y x = false.
Proof.
  intros Hok. unfold heap_Pop. set (l0 := x :: l) in *. assert (Hlen : length l0 = S (length l)) by done.
  replace (length l0 - 1)%nat with (length l) by lia. set (n := length l) in *.
  destruct (heap_down_loop_spec n 0 n 0 (heap_Swap 0 n l0)) as (l' & i' & E & He' & Hp & _ & Hk & _); [rewrite length_Swap; lia|lia|lia| |].
  { split; [|lia]. intros j Hj _ Hpj. rewrite Less_Swap by lia. pose proof (parent_lt j ltac:(lia)). rewrite !transp_ne by lia. apply Hok; lia. }
  unfold heap_down. rewrite E. cbn [fst].
  assert (Hx : l' !! n = Some x) by (rewrite Hk by lia; rewrite lookup_Swap by lia; case_decide as Hd; [by rewrite Hd|by rewrite decide_True]).
  assert (Hl' : length l' = S n) by (rewrite (Permutation_length Hp), length_Swap; done).
  destruct (pop_last_spec n l' x Hl' Hx He') as (l2 & -> & Hok2 & Hp2). exists l2. split; [done|]. split; [done|].
  split; [apply (Permutation_cons_inv (a := x)); by rewrite <-Hp2, Hp, Swap_perm|].
  intros y Hy. apply (heap_least l0 x); [done|done|by right].
Qed.

(** An element replaced by another. *)
Lemma heap_Fix_spec i x l :
  (i < length l)%nat -> heap_ok l -> heap_ok (heap_Fix i (<[i := x]> l)) /\ heap_Fix i (<[i := x]> l) ≡ₚ <[i := x]> l.
Proof.
  intros Hi Hok. unfold heap_Fix. rewrite length_insert. set (l1 := <[i := x]> l).
  assert (Hl1 : length l1 = length l) by apply length_insert.
  assert (Hne : forall a b, a <> i -> b <> i -> heap_Less l1 a b = heap_Less l a b).
  { intros a b Ha Hb. unfold heap_Less, l1. by rewrite !list_lookup_insert_ne. }
  assert (Hch : forall j, (0 < j < length l)%nat -> parent j = i -> (0 < i)%nat -> heap_Less l1 j (parent i) = false).
  { intros j Hj Hpj H0. pose proof (parent_lt i H0). pose proof (parent_lt j ltac:(lia)). rewrite Hne by lia.
    apply (Less_trans l j i); [done|rewrite <-Hpj; apply Hok; lia|apply Hok; lia]. }
  destruct (heap_down_around (length l) i l1) as (l' & moved & -> & Hp & _ & Hm); [lia|done| |].
  { split; [|done]. intros j Hj Hji Hpj. rewrite Hne by done. apply Hok; lia. }
  destruct moved; [split; [unfold heap_ok; rewrite (Permutation_length Hp), Hl1; done|done]|].
  destruct Hm as [-> Hm]. unfold heap_up. destruct (heap_up_loop_spec i (length l) i l1) as (He & Hp' & _); [lia|done|lia|by split|].
  split; [unfold heap_ok; rewrite (Permutation_length Hp'), Hl1; done|done].
Qed.

Lemma heap_Remove_spec i x l :
  heap_ok l -> l !! i = Some x -> exists l', heap_Remove i l = Done (x, l') /\ heap_ok l' /\ l ≡ₚ x :: l'.
Proof.
  intros Hok Hx. pose proof (lookup_lt_Some _ _ _ Hx) as Hi. unfold heap_Remove. set (n := (length l - 1)%nat).
  assert (Hn : length l = S n) by lia. destruct (Nat.eqb_spec n i) as [->|Hni].
  { apply (pop_last_spec i); [done|done|]. intros j Hj _. apply Hok; lia. }
  set (l1 := heap_Swap i n l). assert (Hl1 : length l1 = S n) by (unfold l1; by rewrite length_Swap).
  assert (Hne : forall a b, (a < n)%nat -> (b < n)%nat -> a <> i -> b <> i -> heap_Less l1 a b = heap_Less l a b).
  { intros a b Ha Hb Hai Hbi. unfold l1. rewrite Less_Swap by lia. by rewrite !transp_ne by lia. }
  assert (Hch : forall j, (0 < j < n)%nat -> parent j = i -> (0 < i)%nat -> heap_Less l1 j (parent i) = false).
  { intros j Hj Hpj H0. pose proof (parent_lt i H0). pose proof (parent_lt j ltac:(lia)). rewrite Hne by lia.
    apply (Less_trans l j i); [done|rewrite <-Hpj; apply Hok; lia|apply Hok; lia]. }
  assert (Hlast : l1 !! n = Some x) by (unfold l1; rewrite lookup_Swap by lia; rewrite decide_False by done; by rewrite decide_True).
  destruct (heap_down_around n i l1) as (l' & moved & E & Hp & Hk & Hm); [lia|lia| |].
  { split; [|done]. intros j Hj Hji Hpj. pose proof (parent_lt j ltac:(lia)). rewrite Hne by lia. apply Hok; lia. }
  rewrite E. assert (Hend : forall l2, edges 0 n l2 -> l2 ≡ₚ l1 -> l2 !! n = l1 !! n ->
    exists l3, pop_last l2 = Done (x, l3) /\ heap_ok l3 /\ l ≡ₚ x :: l3).
  { intros l2 He Hp2 Hk2. destruct (pop_last_spec n l2 x) as (l3 & E3 & Hok3 & Hp3);
      [by rewrite (Permutation_length Hp2)|by rewrite Hk2|done|]. exists l3. split; [done|]. split; [done|].
    by rewrite <-Hp3, Hp2; unfold l1; rewrite Swap_perm. }
  destruct moved; [apply Hend; [done|done|by apply Hk]|]. destruct Hm as [-> Hm]. unfold heap_up.
  destruct (heap_up_loop_spec i n i l1) as (He & Hp' & Hk'); [lia|lia|lia|by split|]. apply Hend; [done|done|by apply Hk'].
Qed.
End Heap.

(** ** Sorting

    [sort.Sort] puts the elements into an order that [Less] allows; it does
    not say which of equal elements comes first. *)
Class SortOrder := {
  go_sort : forall {A}, (A -> A -> bool) -> list A -> list A;
  go_sort_perm : forall {A} (less : A -> A -> bool) l, go_sort less l ≡ₚ l;
  go_sort_sorted : forall {A} (less : A -> A -> bool) l,
    WeakOrder less -> StronglySorted (fun x y => less y x = false) (go_sort less l)
}.
