(* ===== verification/TxList.v ===== *)
(** The transactions of one account, by nonce: the first half of
    core/tx_list.go.

    Maps are iterated in the order that [range] gives.  The index of a
    [txSortedMap] has the nonces of its items; if a nonce had none, a nil
    pointer would come out, which every caller dereferences, and this is a
    panic here. *)
From S2P Require Import Prelude Heap Transaction.

Definition tx_Nonce (tx : Transaction) : Z := td_AccountNonce (tx_data tx).
Definition tx_GasPrice (tx : Transaction) : Z := td_Price (tx_data tx).
Definition tx_Gas (tx : Transaction) : Z := td_GasLimit (tx_data tx).

(** ** txSortedMap *)

Record txSortedMap := mkSortedMap {
  sm_items : gmap Z Transaction;
  sm_index : list Z;
  sm_cache : option (list Transaction)
}.

Section TxList.
Context `{RO : RangeOrder} `{SO : SortOrder}.

Definition nonce_less (x y : Z) : bool := x <? y.
Definition TxByNonce_Less (x y : Transaction) : bool := tx_Nonce x <? tx_Nonce y.

Definition newTxSortedMap : txSortedMap := mkSortedMap ∅ [] None.

Definition sm_Get (nonce : Z) (m : txSortedMap) : option Transaction := sm_items m !! nonce.

Definition sm_Put (tx : Transaction) (m : txSortedMap) : txSortedMap :=
  let nonce := tx_Nonce tx in
  let index := match sm_items m !! nonce with None => heap_Push nonce_less nonce (sm_index m) | Some _ => sm_index m end in
  mkSortedMap (<[nonce := tx]> (sm_items m)) index None.

(** Takes the transaction with the lowest nonce out. *)
Definition sm_pop_lowest (m : txSortedMap) : outcome (Transaction * txSortedMap) :=
  let* p := heap_Pop nonce_less (sm_index m) in
  let '(nonce, index) := p in
  match sm_items m !! nonce with
  | Some tx => Done (tx, mkSortedMap (delete nonce (sm_items m)) index (sm_cache m))
  | None => GoPanic
  end.

(** Each round takes one nonce off the index. *)
Fixpoint sm_Forward_loop (fuel : nat) (threshold : Z) (m : txSortedMap) : outcome (list Transaction * txSortedMap) :=
  match sm_index m with
  | n :: _ =>
      if n <? threshold then
        match fuel with
        | O => NoFuel
        | S fuel =>
            let* p := sm_pop_lowest m in
            let* r := sm_Forward_loop fuel threshold p.2 in
            Done (p.1 :: r.1, r.2)
        end
      else Done ([], m)
  | [] => Done ([], m)
  end.
Definition sm_Forward (threshold : Z) (m : txSortedMap) : outcome (list Transaction * txSortedMap) :=
  let* r := sm_Forward_loop (length (sm_index m)) threshold m in
  let '(removed, m) := r in
  match sm_cache m with
  | None => Done (removed, m)
  | Some c =>
      let* c := slice c (len removed) (len c) in
      Done (removed, mkSortedMap (sm_items m) (sm_index m) (Some c))
  end.

Definition sm_Filter (f : Transaction -> bool) (m : txSortedMap) : list Transaction * txSortedMap :=
  let removed := filter (fun tx => f tx = true) (map snd (range (sm_items m))) in
  let items := filter (fun kv => f kv.2 = false) (sm_items m) in
  match removed with
  | [] => ([], mkSortedMap items (sm_index m) (sm_cache m))
  | _ => (removed, mkSortedMap items (heap_Init nonce_less (map fst (range items))) None)
  end.

(** The loop of [Cap], [count] rounds from the end of the sorted index. *)
Fixpoint sm_Cap_loop (count : nat) (size : Z) (ix : list Z) (items : gmap Z Transaction)
  : outcome (list Transaction * gmap Z Transaction) :=
  match count with
  | O => Done ([], items)
  | S count =>
      let* nonce := index ix (size - 1) in
      match items !! nonce with
      | None => GoPanic
      | Some tx =>
          let* r := sm_Cap_loop count (size - 1) ix (delete nonce items) in
          Done (tx :: r.1, r.2)
      end
  end.
Definition sm_Len (m : txSortedMap) : Z := Z.of_nat (size (sm_items m)).
Definition sm_Cap (threshold : Z) (m : txSortedMap) : outcome (list Transaction * txSortedMap) :=
  if sm_Len m <=? threshold then Done ([], m)
  else
    let ix := go_sort nonce_less (sm_index m) in
    let* r := sm_Cap_loop (Z.to_nat (sm_Len m - threshold)) (sm_Len m) ix (sm_items m) in
    let '(drops, items) := r in
    let* ix := slice ix 0 threshold in
    let ix := heap_Init nonce_less ix in
    match sm_cache m with
    | None => Done (drops, mkSortedMap items ix None)
    | Some c =>
        let* c := slice c 0 (len c - len drops) in
        Done (drops, mkSortedMap items ix (Some c))
    end.

(** The first position of a nonce in the index. *)
Fixpoint index_of (nonce : Z) (ix : list Z) : option nat :=
  match ix with
  | [] => None
  | n :: ix => if n =? nonce then Some O else S <$> index_of nonce ix
  end.
Definition sm_Remove (nonce : Z) (m : txSortedMap) : outcome (bool * txSortedMap) :=
  match sm_items m !! nonce with
  | None => Done (false, m)
  | Some _ =>
      let* ix :=
        match index_of nonce (sm_index m) with
        | Some i => let* p := heap_Remove nonce_less i (sm_index m) in Done p.2
        | None => Done (sm_index m)
        end in
      Done (true, mkSortedMap (delete nonce (sm_items m)) ix None)
  end.

(** The run of nonces from [next] on; [next] wraps around. *)
Fixpoint sm_Ready_loop (fuel : nat) (next : Z) (m : txSortedMap) : outcome (list Transaction * txSortedMap) :=
  match sm_index m with
  | n :: _ =>
      if n =? next then
        match fuel with
        | O => NoFuel
        | S fuel =>
            let* p := sm_pop_lowest m in
            let* r := sm_Ready_loop fuel (u64 (next + 1)) p.2 in
            Done (p.1 :: r.1, r.2)
        end
      else Done ([], m)
  | [] => Done ([], m)
  end.
Definition sm_Ready (start : Z) (m : txSortedMap) : outcome (list Transaction * txSortedMap) :=
  match sm_index m with
  | [] => Done ([], m)
  | n :: _ =>
      if start <? n then Done ([], m)
      else
        let* r := sm_Ready_loop (length (sm_index m)) n m in
        Done (r.1, mkSortedMap (sm_items r.2) (sm_index r.2) None)
  end.

Definition sm_Flatten (m : txSortedMap) : list Transaction * txSortedMap :=
  match sm_cache m with
  | Some c => (c, m)
  | None =>
      let c := go_sort TxByNonce_Less (map snd (range (sm_items m))) in
      (c, mkSortedMap (sm_items m) (sm_index m) (Some c))
  end.

(** ** txList *)

Record txList := mkTxList {
  tl_strict : bool;
  tl_txs : txSortedMap;
  tl_costcap : Z;
  tl_gascap : Z
}.

Definition newTxList (strict : bool) : txList := mkTxList strict newTxSortedMap 0 0.
Definition tl_set_txs (m : txSortedMap) (l : txList) : txList := mkTxList (tl_strict l) m (tl_costcap l) (tl_gascap l).

Definition tl_Overlaps (tx : Transaction) (l : txList) : bool :=
  match sm_Get (tx_Nonce tx) (tl_txs l) with Some _ => true | None => false end.

(** [int64(priceBump)] is negative from [2^63] on. *)
Definition int64_of (n : Z) : Z := if n <? 2 ^ 63 then n else n - 2 ^ 64.
Definition bump_threshold (price priceBump : Z) : Z :=
  (price * int64_of (u64 (100 + int64_of priceBump))) / 100.

Definition tl_Add (tx : Transaction) (priceBump : Z) (l : txList) : bool * option Transaction * txList :=
  let old := sm_Get (tx_Nonce tx) (tl_txs l) in
  let better :=
    match old with
    | None => true
    | Some old =>
        negb ((tx_GasPrice tx <=? tx_GasPrice old) || (tx_GasPrice tx <? bump_threshold (tx_GasPrice old) priceBump))
    end in
  if negb better then (false, None, l)
  else
    (true, old,
     {| tl_strict := tl_strict l; tl_txs := sm_Put tx (tl_txs l);
        tl_costcap := if tl_costcap l <? tx_Cost tx then tx_Cost tx else tl_costcap l;
        tl_gascap := if tl_gascap l <? tx_Gas tx then tx_Gas tx else tl_gascap l |}).

Definition tl_Forward (threshold : Z) (l : txList) : outcome (list Transaction * txList) :=
  let* r := sm_Forward threshold (tl_txs l) in Done (r.1, tl_set_txs r.2 l).

(** The lowest nonce of the removed transactions. *)
Definition lowest_nonce (removed : list Transaction) : Z :=
  foldl (fun lowest tx => if tx_Nonce tx <? lowest then tx_Nonce tx else lowest) MaxUint64 removed.
(** Removed and, in strict mode, invalidated transactions. *)
Definition tl_Filter (costLimit gasLimit : Z) (l : txList) : list Transaction * list Transaction * txList :=
  if (tl_costcap l <=? costLimit) && (tl_gascap l <=? gasLimit) then ([], [], l)
  else
    let '(removed, m) := sm_Filter (fun tx => (costLimit <? tx_Cost tx) || (gasLimit <? tx_Gas tx)) (tl_txs l) in
    let l := mkTxList (tl_strict l) m costLimit gasLimit in
    match removed with
    | [] => ([], [], l)
    | _ =>
        if tl_strict l then
          let '(invalids, m) := sm_Filter (fun tx => lowest_nonce removed <? tx_Nonce tx) m in
          (removed, invalids, tl_set_txs m l)
        else (removed, [], l)
    end.

Definition tl_Cap (threshold : Z) (l : txList) : outcome (list Transaction * txList) :=
  let* r := sm_Cap threshold (tl_txs l) in Done (r.1, tl_set_txs r.2 l).

Definition tl_Remove (tx : Transaction) (l : txList) : outcome (bool * list Transaction * txList) :=
  let nonce := tx_Nonce tx in
  let* r := sm_Remove nonce (tl_txs l) in
  let '(removed, m) := r in
  if negb removed then Done (false, [], l)
  else if tl_strict l then
    let '(invalids, m) := sm_Filter (fun tx => nonce <? tx_Nonce tx) m in
    Done (true, invalids, tl_set_txs m l)
  else Done (true, [], tl_set_txs m l).

Definition tl_Ready (start : Z) (l : txList) : outcome (list Transaction * txList) :=
  let* r := sm_Ready start (tl_txs l) in Done (r.1, tl_set_txs r.2 l).
Definition tl_Len (l : txList) : Z := sm_Len (tl_txs l).
Definition tl_Empty (l : txList) : bool := tl_Len l =? 0.
Definition tl_Flatten (l : txList) : list Transaction * txList :=
  let '(txs, m) := sm_Flatten (tl_txs l) in (txs, tl_set_txs m l).
End TxList.
