(* ===== verification/TxListFacts.v ===== *)
(** The lists of an account as maps by nonce. *)
From stdpp Require Import sorting.
From S2P Require Import Prelude Transaction Heap TxList.

(** The lists of an account behave as maps from nonces to transactions. *)

Implicit Types (m : txSortedMap) (items : gmap Z Transaction) (R : list Transaction).

#[export] Instance nonce_less_order : WeakOrder nonce_less.
Proof. split; unfold nonce_less; intros; bool_cases; (done || lia). Qed.
#[export] Instance TxByNonce_order : WeakOrder TxByNonce_Less.
Proof. split; unfold TxByNonce_Less; intros; bool_cases; (done || lia). Qed.

(** ** Removing transactions *)

Inductive removes : list Transaction -> gmap Z Transaction -> gmap Z Transaction -> Prop :=
| removes_nil items : removes [] items items
| removes_cons tx R items items' :
    items !! tx_Nonce tx = Some tx -> removes R (delete (tx_Nonce tx) items) items' -> removes (tx :: R) items items'.

Lemma removes_lookup R items items' : removes R items items' -> forall n,
  items' !! n = if decide (n ∈ map tx_Nonce R) then None else items !! n.
Proof.
  induction 1 as [items|tx R items items' Htx HR IH]; intros n; [done|]. rewrite IH. simpl.
  destruct (decide (n ∈ map tx_Nonce R)); [by rewrite decide_True by (by right)|].
  destruct (decide (n = tx_Nonce tx)) as [->|Hne]; [rewrite decide_True by (by left); by rewrite lookup_delete_eq|].
  rewrite decide_False by (by intros [?|?]%elem_of_cons). by rewrite lookup_delete_ne.
Qed.
Lemma removes_elem R items items' tx : removes R items items' -> tx ∈ R -> items !! tx_Nonce tx = Some tx.
Proof.
  induction 1 as [items|tx' R items items' Htx HR IH]; [by intros ?%elem_of_nil|]. intros [->|Hin]%elem_of_cons; [done|].
  specialize (IH Hin). by apply lookup_delete_Some in IH as [_ ?].
Qed.
Lemma removes_gone R items items' tx : removes R items items' -> tx ∈ R -> items' !! tx_Nonce tx = None.
Proof.
  intros HR Hin. rewrite (removes_lookup _ _ _ HR). rewrite decide_True; [done|]. apply list_elem_of_fmap. by exists tx.
Qed.
Lemma removes_kept R items items' n tx : removes R items items' -> items' !! n = Some tx -> items !! n = Some tx.
Proof. intros HR. rewrite (removes_lookup _ _ _ HR). by case_decide. Qed.
Lemma removes_app R1 R2 items1 items2 items3 :
  removes R1 items1 items2 -> removes R2 items2 items3 -> removes (R1 ++ R2) items1 items3.
Proof. induction 1 as [|tx R items items' Htx HR IH]; [done|]. intros H2. simpl. constructor; [done|by apply IH]. Qed.
Lemma removes_perm R items items' :
  removes R items items' -> (map_to_list items).*2 ≡ₚ R ++ (map_to_list items').*2.
Proof.
  induction 1 as [items|tx R items items' Htx HR IH]; [done|]. simpl. rewrite <-IH.
  rewrite <-(insert_delete_id items (tx_Nonce tx) tx) at 1 by done. by rewrite map_to_list_insert by apply lookup_delete_eq.
Qed.
Lemma removes_size R items items' : removes R items items' -> size items = (length R + size items')%nat.
Proof.
  intros HR. pose proof (Permutation_length (removes_perm _ _ _ HR)) as H. rewrite length_app, !length_fmap, !length_map_to_list in H. done.
Qed.

(** All that satisfy a predicate. *)
Lemma removes_all R items items' :
  (forall tx, tx ∈ R -> items !! tx_Nonce tx = Some tx) -> NoDup (map tx_Nonce R) ->
  (forall n, items' !! n = if decide (n ∈ map tx_Nonce R) then None else items !! n) -> removes R items items'.
Proof.
  revert items. induction R as [|tx R IH]; intros items Hin Hnd Hl.
  - assert (items' = items) as ->; [|constructor]. apply map_eq. intros n. by rewrite Hl.
  - simpl in Hnd. apply NoDup_cons in Hnd as [Hnin Hnd]. constructor; [apply Hin; by left|]. apply IH; [|done|].
    + intros tx' Htx'. rewrite lookup_delete_ne; [apply Hin; by right|]. intros E. apply Hnin. rewrite E. apply list_elem_of_fmap. by exists tx'.
    + intros n. rewrite Hl. simpl. destruct (decide (n ∈ map tx_Nonce R)); [by rewrite decide_True by (by right)|].
      destruct (decide (n = tx_Nonce tx)) as [->|Hne]; [rewrite decide_True by (by left); by rewrite lookup_delete_eq|].
      rewrite decide_False by (by intros [?|?]%elem_of_cons). by rewrite lookup_delete_ne.
Qed.

(** ** Well-formed maps *)

Definition nlt (x y : Transaction) : Prop := tx_Nonce x < tx_Nonce y.
#[export] Instance nlt_anti : AntiSymm eq nlt.
Proof. unfold nlt. intros x y ? ?. lia. Qed.

(** [c] has the items in the order of their nonces. *)
Definition sorted_items items (c : list Transaction) : Prop :=
  c ≡ₚ (map_to_list items).*2 /\ StronglySorted nlt c.
Definition items_ok items : Prop := forall n tx, items !! n = Some tx -> tx_Nonce tx = n /\ is_u64 n.

Record sm_ok m : Prop := {
  ok_heap : heap_ok nonce_less (sm_index m);
  ok_index : sm_index m ≡ₚ (map_to_list (sm_items m)).*1;
  ok_items : items_ok (sm_items m);
  ok_cache : forall c, sm_cache m = Some c -> sorted_items (sm_items m) c
}.

Lemma removes_items_ok R items items' : removes R items items' -> items_ok items -> items_ok items'.
Proof. intros HR Hok n tx Hn. apply Hok. by eapply removes_kept. Qed.
Lemma sorted_unique items c c' : sorted_items items c -> sorted_items items c' -> c = c'.
Proof. intros [Hp Hs] [Hp' Hs']. apply (StronglySorted_unique nlt); [done|done|]. by rewrite Hp, Hp'. Qed.

Lemma index_elem m n : sm_ok m -> n ∈ sm_index m <-> is_Some (sm_items m !! n).
Proof.
  intros Hok. rewrite (ok_index m Hok), list_elem_of_fmap. split.
  - intros ([k tx] & -> & H%elem_of_map_to_list). by exists tx.
  - intros [tx Htx]. exists (n, tx). split; [done|]. by apply elem_of_map_to_list.
Qed.
Lemma items_nonces items : items_ok items -> (map_to_list items).*1 = map tx_Nonce (map_to_list items).*2.
Proof.
  intros Hok. rewrite <-list_fmap_compose. apply list_fmap_ext. intros i [n tx] Hi. simpl.
  symmetry. apply Hok. apply elem_of_map_to_list. by eapply list_elem_of_lookup_2.
Qed.
Lemma items_NoDup items : items_ok items -> NoDup (map tx_Nonce (map_to_list items).*2).
Proof. intros Hok. rewrite <-items_nonces by done. apply NoDup_fst_map_to_list. Qed.
Lemma elem_values items tx : items_ok items -> tx ∈ (map_to_list items).*2 <-> items !! tx_Nonce tx = Some tx.
Proof.
  intros Hok. rewrite list_elem_of_fmap. split.
  - intros ([n tx'] & -> & H%elem_of_map_to_list). simpl. by destruct (Hok _ _ H) as [-> _].
  - intros H. exists (tx_Nonce tx, tx). split; [done|]. by apply elem_of_map_to_list.
Qed.

(** The index alone, while the cache is not up to date. *)
Record ix_ok m : Prop := {
  ix_heap : heap_ok nonce_less (sm_index m);
  ix_index : sm_index m ≡ₚ (map_to_list (sm_items m)).*1;
  ix_items : items_ok (sm_items m)
}.
Lemma sm_ix m : sm_ok m -> ix_ok m.
Proof. intros []. by split. Qed.
Lemma ix_elem m n : ix_ok m -> n ∈ sm_index m <-> is_Some (sm_items m !! n).
Proof.
  intros [H1 H2 H3]. apply (index_elem (mkSortedMap (sm_items m) (sm_index m) None)). by split.
Qed.
Lemma ix_length m : ix_ok m -> length (sm_index m) = size (sm_items m).
Proof. intros [_ H _]. rewrite (Permutation_length H), length_fmap. apply length_map_to_list. Qed.

Lemma delete_keys items n tx :
  items !! n = Some tx -> (map_to_list items).*1 ≡ₚ n :: (map_to_list (delete n items)).*1.
Proof.
  intros H. rewrite <-(insert_delete_id items n tx) at 1 by done. by rewrite map_to_list_insert by apply lookup_delete_eq.
Qed.
Lemma items_ok_delete items n : items_ok items -> items_ok (delete n items).
Proof. intros Hok k tx [_ Hk]%lookup_delete_Some. by apply Hok. Qed.

Lemma pop_lowest_spec m n ix :
  ix_ok m -> sm_index m = n :: ix ->
  exists tx m', sm_pop_lowest m = Done (tx, m') /\ tx_Nonce tx = n /\ sm_items m !! n = Some tx /\ ix_ok m' /\
    sm_items m' = delete n (sm_items m) /\ sm_cache m' = sm_cache m /\ length (sm_index m') = length ix /\
    (forall k, is_Some (sm_items m' !! k) -> n < k).
Proof.
  intros Hok Hix. pose proof Hok as [Hh Hp Hi]. unfold sm_pop_lowest. rewrite Hix in *.
  destruct (heap_Pop_spec nonce_less n ix Hh) as (ix' & -> & Hh' & Hp' & Hmin). cbn [outcome_bind].
  destruct (proj1 (ix_elem m n Hok)) as [tx Htx]; [rewrite Hix; by left|]. rewrite Htx. eexists tx, _. split; [done|].
  cbn [sm_items sm_index sm_cache]. destruct (Hi _ _ Htx) as [Hn _].
  assert (Hkeys : ix' ≡ₚ (map_to_list (delete n (sm_items m))).*1).
  { apply (Permutation_cons_inv (a := n)). rewrite Hp', Hp. by apply delete_keys in Htx. }
  split; [done|]. split; [done|]. split; [split; [done|done|by apply items_ok_delete]|].
  split; [done|]. split; [done|]. split; [by apply Permutation_length|].
  intros k [tx' Hk]. assert (Hki : k ∈ ix').
  { rewrite Hkeys. apply list_elem_of_fmap. exists (k, tx'). split; [done|]. by apply elem_of_map_to_list. }
  rewrite Hp' in Hki. specialize (Hmin k Hki). unfold nonce_less in Hmin. apply lookup_delete_Some in Hk as [Hne _]. apply Z.ltb_ge in Hmin. lia.
Qed.

(** ** Sorted contents *)

Lemma sorted_strict (l : list Transaction) :
  StronglySorted (fun x y => TxByNonce_Less y x = false) l -> NoDup (map tx_Nonce l) -> StronglySorted nlt l.
Proof.
  induction 1 as [|x l Hs IH Hx]; [constructor|]. simpl. rewrite NoDup_cons. intros [Hn Hnd]. constructor; [by apply IH|].
  rewrite Forall_forall in *. intros y Hy. specialize (Hx y Hy). unfold TxByNonce_Less in Hx. apply Z.ltb_ge in Hx. unfold nlt.
  destruct (decide (tx_Nonce x = tx_Nonce y)) as [E|]; [|lia]. destruct Hn. rewrite E. apply list_elem_of_fmap. by exists y.
Qed.

Section Ops.
Context `{RO : RangeOrder} `{SO : SortOrder}.

Lemma range_values items : map snd (range items) ≡ₚ (map_to_list items).*2.
Proof. by rewrite range_perm. Qed.
Lemma sort_items items l : items_ok items -> l ≡ₚ (map_to_list items).*2 -> sorted_items items (go_sort TxByNonce_Less l).
Proof.
  intros Hok Hl. split; [by rewrite go_sort_perm|]. apply sorted_strict; [apply go_sort_sorted, _|].
  rewrite go_sort_perm, Hl. by apply items_NoDup.
Qed.
Lemma sorted_exists items : items_ok items -> exists c, sorted_items items c.
Proof. intros Hok. eexists. by apply (sort_items items (map_to_list items).*2). Qed.

Lemma sorted_elem items c tx : items_ok items -> sorted_items items c -> tx ∈ c <-> items !! tx_Nonce tx = Some tx.
Proof. intros Hok [Hp _]. rewrite Hp. by apply elem_values. Qed.

(** Removing the lowest ones takes the front off, removing the highest ones
    the back. *)
Lemma StronglySorted_join (l1 l2 : list Transaction) :
  StronglySorted nlt l1 -> StronglySorted nlt l2 -> (forall x y, x ∈ l1 -> y ∈ l2 -> nlt x y) -> StronglySorted nlt (l1 ++ l2).
Proof.
  intros H1 H2 H12. induction H1 as [|x l1 Hs IH Hx]; [done|]. simpl. constructor.
  - apply IH. intros. apply H12; [by right|done].
  - apply Forall_app. split; [done|]. apply Forall_forall. intros y Hy. apply H12; [by left|done].
Qed.
Lemma sorted_front R items items' c :
  items_ok items -> removes R items items' -> StronglySorted nlt R ->
  (forall x y, x ∈ R -> items' !! tx_Nonce y = Some y -> nlt x y) -> sorted_items items c ->
  exists c', c = R ++ c' /\ sorted_items items' c'.
Proof.
  intros Hok HR Hs Hlt Hc. pose proof (removes_items_ok _ _ _ HR Hok) as Hok'. destruct (sorted_exists items' Hok') as [c' Hc'].
  exists c'. split; [|done]. apply (sorted_unique items); [done|]. split; [rewrite (removes_perm _ _ _ HR); by rewrite (proj1 Hc')|].
  apply StronglySorted_join; [done|by destruct Hc'|]. intros x y Hx Hy. apply Hlt; [done|]. by apply (sorted_elem items' c').
Qed.
Lemma sorted_back R items items' c :
  items_ok items -> removes R items items' -> StronglySorted nlt (rev R) ->
  (forall x y, x ∈ R -> items' !! tx_Nonce y = Some y -> nlt y x) -> sorted_items items c ->
  exists c', c = c' ++ rev R /\ sorted_items items' c'.
Proof.
  intros Hok HR Hs Hlt Hc. pose proof (removes_items_ok _ _ _ HR Hok) as Hok'. destruct (sorted_exists items' Hok') as [c' Hc'].
  assert (Hrev : rev R ≡ₚ R) by (symmetry; apply Permutation_rev).
  exists c'. split; [|done]. apply (sorted_unique items); [done|].
  split; [rewrite (removes_perm _ _ _ HR), Hrev; rewrite (proj1 Hc'); by rewrite Permutation_app_comm|].
  apply StronglySorted_join; [by destruct Hc'|done|]. intros x y Hx Hy. apply Hlt; [by rewrite Hrev in Hy|]. by apply (sorted_elem items' c').
Qed.

(** ** The operations of a sorted map *)

Lemma sm_new_ok : sm_ok newTxSortedMap.
Proof. by split. Qed.

Lemma sm_Put_spec tx m :
  sm_ok m -> is_u64 (tx_Nonce tx) -> sm_ok (sm_Put tx m) /\ sm_items (sm_Put tx m) = <[tx_Nonce tx := tx]> (sm_items m).
Proof.
  intros [Hh Hp Hi Hc] Hu. split; [|done]. unfold sm_Put.
  assert (Hi' : items_ok (<[tx_Nonce tx := tx]> (sm_items m))).
  { intros n tx' [[<- <-]|[_ H]]%lookup_insert_Some; [done|by apply Hi]. }
  destruct (sm_items m !! tx_Nonce tx) as [old|] eqn:E; split; try done; cbn [sm_index sm_items].
  - rewrite Hp, <-insert_delete_eq. rewrite (delete_keys (sm_items m) _ old) by done.
    by rewrite map_to_list_insert by apply lookup_delete_eq.
  - apply heap_Push_spec; [apply _|done].
  - rewrite (proj2 (heap_Push_spec nonce_less _ _ Hh)), Hp. by rewrite map_to_list_insert.
Qed.

Lemma sm_Forward_loop_spec fuel t : forall m,
  ix_ok m -> (length (sm_index m) <= fuel)%nat ->
  exists R m', sm_Forward_loop fuel t m = Done (R, m') /\ ix_ok m' /\ sm_cache m' = sm_cache m /\
    removes R (sm_items m) (sm_items m') /\ StronglySorted nlt R /\
    Forall (fun x => tx_Nonce x < t) R /\ (forall n, is_Some (sm_items m' !! n) -> t <= n).
Proof.
  induction fuel as [|fuel IH]; intros m Hok Hf.
  - destruct m as [items [|n ix] c]; [|simpl in Hf; lia]. eexists [], _. split; [done|]. do 2 (split; [done|]).
    split; [constructor|]. do 2 (split; [constructor|]). intros n Hn. by apply (ix_elem _ _ Hok), elem_of_nil in Hn.
  - destruct (sm_index m) as [|n ix] eqn:Hix; cbn [sm_Forward_loop]; rewrite Hix.
    + eexists [], _. split; [done|]. do 2 (split; [done|]). split; [constructor|]. do 2 (split; [constructor|]).
      intros n Hn. apply (ix_elem _ _ Hok) in Hn. rewrite Hix in Hn. by apply elem_of_nil in Hn.
    + destruct (Z.ltb_spec n t) as [Hlt|Hge].
      * destruct (pop_lowest_spec m n ix Hok Hix) as (tx & m1 & -> & Hn & Htx & Hok1 & Hi1 & Hc1 & Hl1 & Hlow). cbn [outcome_bind fst snd].
        destruct (IH m1 Hok1) as (R & m' & -> & Hok' & Hc' & HR & Hs & Hlt' & Hge); [simpl in Hf; lia|]. cbn [outcome_bind fst snd].
        eexists (tx :: R), m'. split; [done|]. split; [done|]. split; [congruence|]. split; [constructor; [by rewrite Hn|by rewrite Hn, <-Hi1]|].
        split; [constructor; [done|]|split; [constructor; [lia|done]|done]]. apply Forall_forall. intros x Hx.
        unfold nlt. rewrite Hn. apply Hlow. exists x. by eapply removes_elem.
      * eexists [], m. split; [done|]. do 2 (split; [done|]). split; [constructor|]. do 2 (split; [constructor|]).
        intros k Hk. apply (ix_elem _ _ Hok) in Hk. rewrite Hix in Hk. pose proof (ix_heap m Hok) as Hh. rewrite Hix in Hh.
        pose proof (heap_least nonce_less (n :: ix) n Hh eq_refl k Hk) as Hmin. unfold nonce_less in Hmin. apply Z.ltb_ge in Hmin. lia.
Qed.

Lemma len_sub {A} (l1 l2 : list A) : len (l1 ++ l2) - len l1 = len l2.
Proof. unfold len. rewrite length_app. lia. Qed.
Lemma slice_front {A} (l1 l2 : list A) : slice (l1 ++ l2) 0 (len l1) = Done l1.
Proof. rewrite slice_done by (unfold len; rewrite ?length_app; lia). rewrite Z.sub_0_r. change (Z.to_nat 0) with 0%nat. rewrite drop_0. unfold len. by rewrite Nat2Z.id, take_app_length. Qed.
Lemma slice_back {A} (l1 l2 : list A) : slice (l1 ++ l2) (len l1) (len (l1 ++ l2)) = Done l2.
Proof.
  rewrite slice_done by (unfold len; rewrite ?length_app; lia). rewrite len_sub. unfold len.
  by rewrite !Nat2Z.id, drop_app_length, take_ge.
Qed.

Lemma sm_Forward_spec t m :
  sm_ok m ->
  exists R m', sm_Forward t m = Done (R, m') /\ sm_ok m' /\ removes R (sm_items m) (sm_items m') /\
    Forall (fun x => tx_Nonce x < t) R /\ (forall n, is_Some (sm_items m' !! n) -> t <= n).
Proof.
  intros Hok. unfold sm_Forward.
  destruct (sm_Forward_loop_spec (length (sm_index m)) t m (sm_ix m Hok)) as (R & m' & -> & [Hh Hp Hi] & Hc & HR & Hs & Hlt & Hge); [lia|].
  cbn [outcome_bind]. rewrite Hc. destruct (sm_cache m) as [c|] eqn:Ec.
  - destruct (sorted_front R (sm_items m) (sm_items m') c) as (c' & -> & Hc'); [apply Hok|done|done| |by apply Hok|].
    { intros x y Hx Hy. rewrite Forall_forall in Hlt. specialize (Hlt x Hx). specialize (Hge (tx_Nonce y) (mk_is_Some _ _ Hy)). unfold nlt. lia. }
    rewrite slice_back. cbn [outcome_bind]. eexists R, _. split; [done|]. split; [|done]. split; try done. by intros c [= <-].
  - eexists R, m'. split; [done|]. split; [|done]. split; try done. by rewrite Hc.
Qed.

Lemma sm_Filter_spec f m :
  sm_ok m -> let r := sm_Filter f m in
  sm_ok r.2 /\ removes r.1 (sm_items m) (sm_items r.2) /\ Forall (fun x => f x = true) r.1 /\
  (forall n x, sm_items r.2 !! n = Some x -> f x = false).
Proof.
  intros [Hh Hp Hi Hc]. unfold sm_Filter. set (R := filter _ (map snd _)). set (items := filter _ (sm_items m)).
  assert (HinR : forall tx, tx ∈ R <-> f tx = true /\ sm_items m !! tx_Nonce tx = Some tx).
  { intros tx. unfold R. rewrite list_elem_of_filter, range_values, elem_values by done. done. }
  assert (HR : removes R (sm_items m) items).
  { apply removes_all.
    - intros tx Htx. by apply HinR.
    - unfold R. pose proof (items_NoDup _ Hi) as Hnd. rewrite <-range_values in Hnd.
      eapply sublist_NoDup; [exact Hnd|]. apply fmap_sublist, sublist_filter.
    - intros n. unfold items. destruct (decide (n ∈ map tx_Nonce R)) as [Hn|Hn].
      + apply list_elem_of_fmap in Hn as (tx & -> & [Hf Htx]%HinR). apply map_lookup_filter_None. right. intros x Hx. rewrite Htx in Hx.
        injection Hx as <-. simpl. by rewrite Hf.
      + destruct (sm_items m !! n) as [tx|] eqn:E; [|apply map_lookup_filter_None; by left]. apply map_lookup_filter_Some. split; [done|].
        simpl. destruct (f tx) eqn:Hf; [|done]. destruct Hn. apply list_elem_of_fmap. destruct (Hi _ _ E) as [<- _]. exists tx. split; [done|]. by apply HinR. }
  assert (Hf : Forall (fun x => f x = true) R) by (apply Forall_forall; intros x Hx; by apply HinR).
  assert (Hkept : forall n x, items !! n = Some x -> f x = false) by (intros n x Hx; unfold items in Hx; by apply map_lookup_filter_Some in Hx as [_ ?]).
  pose proof (removes_items_ok _ _ _ HR Hi) as Hi'. destruct R as [|r R'] eqn:ER; cbn [fst snd sm_items].
  - split; [|done]. assert (items = sm_items m) as -> by (by inversion HR). by split.
  - split; [|done]. split; cbn [sm_index sm_items sm_cache]; try done; [apply heap_Init_spec, _|].
    rewrite (proj2 (heap_Init_spec nonce_less _)). by rewrite range_perm.
Qed.

Lemma sm_Flatten_spec m :
  sm_ok m -> let r := sm_Flatten m in sorted_items (sm_items m) r.1 /\ sm_ok r.2 /\ sm_items r.2 = sm_items m.
Proof.
  intros [Hh Hp Hi Hc]. unfold sm_Flatten. destruct (sm_cache m) as [c|] eqn:Ec; cbn [fst snd].
  - split; [by apply Hc|]. split; [|done]. split; try done. by rewrite Ec.
  - assert (Hs : sorted_items (sm_items m) (go_sort TxByNonce_Less (map snd (range (sm_items m))))) by (apply sort_items; [done|apply range_values]).
    split; [done|]. split; [|done]. split; try done. by intros c [= <-].
Qed.

Lemma index_of_spec n ix : n ∈ ix -> exists i, index_of n ix = Some i /\ ix !! i = Some n.
Proof.
  induction ix as [|x ix IH]; [by intros ?%elem_of_nil|]. intros [->|Hin]%elem_of_cons; simpl.
  - exists O. by rewrite Z.eqb_refl.
  - destruct (Z.eqb_spec x n) as [->|]; [by exists O|]. destruct (IH Hin) as (i & -> & Hi). by exists (S i).
Qed.
Lemma sm_Remove_spec n m :
  sm_ok m -> exists m', sm_Remove n m = Done (bool_decide (is_Some (sm_items m !! n)), m') /\ sm_ok m' /\
    sm_items m' = delete n (sm_items m).
Proof.
  intros Hok. pose proof Hok as [Hh Hp Hi Hc]. unfold sm_Remove. destruct (sm_items m !! n) as [tx|] eqn:E.
  - rewrite bool_decide_true by done. destruct (index_of_spec n (sm_index m)) as (i & -> & Hix); [apply index_elem; [done|by rewrite E]|].
    destruct (heap_Remove_spec nonce_less i n (sm_index m) Hh Hix) as (ix' & -> & Hh' & Hp'). cbn [outcome_bind snd].
    eexists. split; [done|]. split; [|done]. split; try done; cbn [sm_items sm_index]; [|by apply items_ok_delete].
    apply (Permutation_cons_inv (a := n)). rewrite <-Hp', Hp. by apply (delete_keys _ n tx).
  - rewrite bool_decide_false by (by intros [? ?]). exists m. split; [done|]. split; [done|]. by rewrite delete_id.
Qed.

(** ** Ready *)

Lemma sm_Ready_loop_spec fuel : forall next m,
  ix_ok m -> (length (sm_index m) <= fuel)%nat -> is_u64 next -> (forall k, is_Some (sm_items m !! k) -> next <= k) ->
  exists R m', sm_Ready_loop fuel next m = Done (R, m') /\ ix_ok m' /\ removes R (sm_items m) (sm_items m') /\
    map tx_Nonce R = seqZ next (len R) /\ (forall k, is_Some (sm_items m' !! k) -> next + len R < k) /\
    (sm_items m !! next = None -> R = []).
Proof.
  induction fuel as [|fuel IH]; intros next m Hok Hf Hu Hge.
  { assert (Hnone : forall k, ~ is_Some (sm_items m !! k)).
    { intros k Hk. apply (ix_elem _ _ Hok) in Hk. destruct (sm_index m); [by apply elem_of_nil in Hk|simpl in Hf; lia]. }
    exists [], m. unfold sm_Ready_loop. destruct (sm_index m); [|simpl in Hf; lia]. split; [done|]. split; [done|].
    split; [constructor|]. split; [done|]. split; [intros k Hk; by apply Hnone in Hk|done]. }
  cbn [sm_Ready_loop]. destruct (sm_index m) as [|n ix] eqn:Hix.
  - exists [], m. split; [done|]. split; [done|]. split; [constructor|]. split; [done|]. split; [|done].
    intros k Hk. apply (ix_elem _ _ Hok) in Hk. rewrite Hix in Hk. by apply elem_of_nil in Hk.
  - pose proof (ix_heap m Hok) as Hh. rewrite Hix in Hh.
    assert (Hmin : forall k, is_Some (sm_items m !! k) -> n <= k).
    { intros k Hk. apply (ix_elem _ _ Hok) in Hk. rewrite Hix in Hk.
      pose proof (heap_least nonce_less (n :: ix) n Hh eq_refl k Hk) as Hm. unfold nonce_less in Hm. by apply Z.ltb_ge in Hm. }
    assert (Hn : is_Some (sm_items m !! n)) by (apply (ix_elem _ _ Hok); rewrite Hix; by left).
    destruct (Z.eqb_spec n next) as [->|Hne].
    + destruct (pop_lowest_spec m next ix Hok Hix) as (tx & m1 & -> & Etx & Htx & Hok1 & Hi1 & Hc1 & Hl1 & Hlow). cbn [outcome_bind fst snd].
      destruct (decide (next + 1 < 2 ^ 64)) as [Hw|Hw].
      * rewrite (u64_small (next + 1)) by (unfold is_u64 in *; lia).
        destruct (IH (next + 1) m1 Hok1) as (R & m' & -> & Hok' & HR & Hseq & Hgt & _);
          [simpl in Hf; lia|unfold is_u64 in *; lia|intros k Hk; specialize (Hlow k Hk); lia|]. cbn [outcome_bind fst snd].
        exists (tx :: R), m'. split; [done|]. split; [done|]. split; [constructor; [by rewrite Etx|by rewrite Etx, <-Hi1]|].
        assert (Hlen : len (tx :: R) = 1 + len R) by (unfold len; simpl; lia). rewrite Hlen. split; [|split; [intros k Hk; specialize (Hgt k Hk); lia|by rewrite Htx]].
        rewrite seqZ_cons by (unfold len; lia). simpl. rewrite Etx. f_equal. rewrite Hseq. f_equal; lia.
      * assert (Hnone : forall k, ~ is_Some (sm_items m1 !! k)).
        { intros k Hk. specialize (Hlow k Hk). destruct Hk as [x Hx]. destruct (ix_items m1 Hok1 k x Hx) as [_ Hk]. unfold is_u64 in *. lia. }
        assert (Hix1 : sm_index m1 = []).
        { destruct (sm_index m1) as [|k ?] eqn:E; [done|]. destruct (Hnone k). apply (ix_elem _ _ Hok1). rewrite E. by left. }
        assert (Hdone : sm_Ready_loop fuel (u64 (next + 1)) m1 = Done ([], m1)) by (destruct fuel; cbn [sm_Ready_loop]; by rewrite Hix1).
        rewrite Hdone. cbn [outcome_bind fst snd]. exists [tx], m1. split; [done|]. split; [done|].
        split; [constructor; [by rewrite Etx|rewrite Etx, <-Hi1; constructor]|]. split; [by simpl; rewrite Etx|].
        split; [intros k Hk; by apply Hnone in Hk|by rewrite Htx].
    + exists [], m. split; [done|]. split; [done|]. split; [constructor|]. split; [done|]. split; [|done].
      intros k Hk. specialize (Hmin k Hk). specialize (Hge n Hn). unfold len. simpl. lia.
Qed.

Lemma sm_Ready_spec start m :
  sm_ok m ->
  exists R m', sm_Ready start m = Done (R, m') /\ sm_ok m' /\ removes R (sm_items m) (sm_items m') /\
    ((R = [] /\ forall k, is_Some (sm_items m !! k) -> start < k) \/
     (exists lo, lo <= start /\ R <> [] /\ map tx_Nonce R = seqZ lo (len R) /\ (forall k, is_Some (sm_items m !! k) -> lo <= k) /\
        (forall k, is_Some (sm_items m' !! k) -> lo + len R < k))).
Proof.
  intros Hok. unfold sm_Ready. destruct (sm_index m) as [|n ix] eqn:Hix.
  - exists [], m. split; [done|]. split; [done|]. split; [constructor|]. left. split; [done|].
    intros k Hk. apply (index_elem _ _ Hok) in Hk. rewrite Hix in Hk. by apply elem_of_nil in Hk.
  - pose proof (ok_heap m Hok) as Hh. rewrite Hix in Hh.
    assert (Hmin : forall k, is_Some (sm_items m !! k) -> n <= k).
    { intros k Hk. apply (index_elem _ _ Hok) in Hk. rewrite Hix in Hk.
      pose proof (heap_least nonce_less (n :: ix) n Hh eq_refl k Hk) as Hm. unfold nonce_less in Hm. by apply Z.ltb_ge in Hm. }
    assert (Hn : is_Some (sm_items m !! n)) by (apply (index_elem _ _ Hok); rewrite Hix; by left).
    destruct (Z.ltb_spec start n) as [Hlt|Hle].
    + exists [], m. split; [done|]. split; [done|]. split; [constructor|]. left. split; [done|]. intros k Hk. specialize (Hmin k Hk). lia.
    + destruct Hn as [tx Htx]. rewrite <-Hix.
      destruct (sm_Ready_loop_spec (length (sm_index m)) n m (sm_ix m Hok)) as (R & m' & -> & [Hh' Hp' Hi'] & HR & Hseq & Hgt & _);
        [lia|by apply (ok_items m Hok n tx)|done|]. cbn [outcome_bind fst snd].
      eexists R, _. split; [done|]. split; [by split|]. split; [done|]. right. exists n. split; [done|]. split; [|done].
      intros ->. inversion HR. subst. assert (Hs : is_Some (sm_items m' !! n)) by (rewrite <-H; by rewrite Htx).
      specialize (Hgt n Hs). unfold len in Hgt. simpl in Hgt. lia.
Qed.

(** ** Cap *)

Lemma sorted_by_nonce (l : list Transaction) : StronglySorted Z.lt (map tx_Nonce l) -> StronglySorted nlt l.
Proof.
  induction l as [|x l IH]; [constructor|]. simpl. intros H. inversion_clear H as [|? ? Hs Hx]. constructor; [by apply IH|].
  rewrite Forall_fmap in Hx. exact Hx.
Qed.
Lemma sorted_index ix : NoDup ix -> StronglySorted Z.lt (go_sort nonce_less ix).
Proof.
  intros Hnd. rewrite <-(go_sort_perm nonce_less ix) in Hnd. pose proof (go_sort_sorted nonce_less ix _) as Hs.
  induction Hs as [|x l Hs IH Hx]; [constructor|]. apply NoDup_cons in Hnd as [Hn Hnd]. constructor; [by apply IH|].
  rewrite Forall_forall in *. intros y Hy. specialize (Hx y Hy). unfold nonce_less in Hx. apply Z.ltb_ge in Hx.
  destruct (decide (x = y)) as [->|]; [done|lia].
Qed.
Lemma StronglySorted_split {A} (Q : A -> A -> Prop) (a b : list A) :
  StronglySorted Q (a ++ b) -> StronglySorted Q a /\ StronglySorted Q b /\ (forall x y, x ∈ a -> y ∈ b -> Q x y).
Proof.
  induction a as [|x a IH]; simpl; intros H; [by repeat split; [constructor|..|intros ? ? ?%elem_of_nil]|].
  inversion_clear H as [|? ? Hs Hx]. destruct (IH Hs) as (Ha & Hb & Hab). apply Forall_app in Hx as [Hxa Hxb].
  split; [by constructor|]. split; [done|]. intros y z [->|Hy]%elem_of_cons Hz; [|by apply Hab]. rewrite Forall_forall in Hxb. by apply Hxb.
Qed.

Lemma sm_Cap_loop_spec a b : forall c items,
  items_ok items -> NoDup b -> (forall n, n ∈ b -> is_Some (items !! n)) ->
  exists R items', sm_Cap_loop (length b) (len (a ++ b)) (a ++ b ++ c) items = Done (R, items') /\
    removes R items items' /\ map tx_Nonce (rev R) = b.
Proof.
  induction b as [|x b IH] using rev_ind; intros c items Hok Hnd Hin.
  { exists [], items. split; [done|]. split; [constructor|done]. }
  rewrite length_app, Nat.add_comm. simpl length. cbn [Nat.add sm_Cap_loop].
  assert (Hlen : len (a ++ b ++ [x]) = len (a ++ b) + 1) by (unfold len; rewrite !length_app; simpl; lia).
  rewrite Hlen. replace (len (a ++ b) + 1 - 1) with (len (a ++ b)) by lia.
  assert (Hi : index (a ++ (b ++ [x]) ++ c) (len (a ++ b)) = Done x).
  { unfold index. destruct (Z.leb_spec 0 (len (a ++ b))); [|unfold len in *; lia]. unfold len. rewrite Nat2Z.id, <-app_assoc, app_assoc.
    rewrite lookup_app_r, Nat.sub_diag by lia. done. }
  rewrite Hi. cbn [outcome_bind]. apply NoDup_app in Hnd as (Hnd & Hx & _). destruct (Hin x) as [tx Htx]; [set_solver|]. rewrite Htx.
  destruct (Hok _ _ Htx) as [Etx _].
  destruct (IH (x :: c) (delete x items)) as (R & items' & E & HR & Hrev); [by apply items_ok_delete|done| |].
  { intros n Hn. assert (n <> x) by (intros ->; apply (Hx x Hn); by left). rewrite lookup_delete_ne by done. apply Hin. set_solver. }
  replace (a ++ (b ++ [x]) ++ c) with (a ++ b ++ x :: c) by (by rewrite <-(app_assoc b)). rewrite E. cbn [outcome_bind fst snd].
  exists (tx :: R), items'. split; [done|]. split; [constructor; [by rewrite Etx|by rewrite Etx]|]. simpl. rewrite map_app, Hrev. simpl. by rewrite Etx.
Qed.

Lemma sm_Cap_spec threshold m :
  sm_ok m -> 0 <= threshold ->
  exists R m', sm_Cap threshold m = Done (R, m') /\ sm_ok m' /\ removes R (sm_items m) (sm_items m') /\
    (forall x y, x ∈ R -> sm_items m' !! tx_Nonce y = Some y -> nlt y x) /\ sm_Len m' = Z.min (sm_Len m) threshold.
Proof.
  intros Hok Ht. pose proof Hok as [Hh Hp Hi Hc]. unfold sm_Cap. destruct (Z.leb_spec (sm_Len m) threshold) as [Hle|Hgt].
  { exists [], m. split; [done|]. split; [done|]. split; [constructor|]. split; [by intros x y Hx%elem_of_nil|lia]. }
  set (ix := go_sort nonce_less (sm_index m)). assert (Hix : ix ≡ₚ (map_to_list (sm_items m)).*1) by (unfold ix; by rewrite go_sort_perm).
  assert (Hlen : len ix = sm_Len m) by (unfold len, sm_Len; by rewrite (Permutation_length Hix), length_fmap, length_map_to_list).
  assert (Hnd : NoDup ix) by (rewrite Hix; apply NoDup_fst_map_to_list).
  assert (Hsort : StronglySorted Z.lt ix) by (apply sorted_index; rewrite Hp; apply NoDup_fst_map_to_list).
  set (a := take (Z.to_nat threshold) ix). set (b := drop (Z.to_nat threshold) ix).
  assert (Hab : ix = a ++ b) by (by rewrite <-(take_drop (Z.to_nat threshold) ix)).
  assert (Hla : len a = threshold) by (unfold a, len in *; rewrite length_take; lia).
  assert (Hlb : Z.to_nat (sm_Len m - threshold) = length b) by (unfold b, len in *; rewrite length_drop; lia).
  rewrite Hab in Hsort. destruct (StronglySorted_split Z.lt a b Hsort) as (Hsa & Hsb & Hlt).
  assert (Hin : forall n, n ∈ ix <-> is_Some (sm_items m !! n)).
  { intros n. rewrite <-(index_elem m n Hok). unfold ix. by rewrite go_sort_perm. }
  destruct (sm_Cap_loop_spec a b [] (sm_items m) Hi) as (R & items' & E & HR & Hrev).
  { rewrite Hab in Hnd. by apply NoDup_app in Hnd as (_ & _ & ?). }
  { intros n Hn. apply Hin. rewrite Hab. set_solver. }
  rewrite app_nil_r, <-Hab, Hlen, <-Hlb in E. rewrite E. cbn [outcome_bind].
  assert (Hsl : slice ix 0 threshold = Done a) by (rewrite Hab, <-Hla; apply slice_front). rewrite Hsl. cbn [outcome_bind].
  pose proof (removes_items_ok _ _ _ HR Hi) as Hi'.
  assert (HinR : forall n, n ∈ map tx_Nonce R <-> n ∈ b) by (intros n; rewrite <-Hrev, map_rev; by rewrite <-Permutation_rev).
  assert (Hkeys : a ≡ₚ (map_to_list items').*1).
  { apply NoDup_Permutation; [rewrite Hab in Hnd; by apply NoDup_app in Hnd as (? & _)|apply NoDup_fst_map_to_list|]. intros n.
    rewrite list_elem_of_fmap. split.
    - intros Hn. destruct (proj1 (Hin n)) as [tx Htx]; [rewrite Hab; set_solver|]. exists (n, tx). split; [done|]. apply elem_of_map_to_list.
      rewrite (removes_lookup _ _ _ HR). rewrite decide_False; [done|]. rewrite HinR. intros Hb. specialize (Hlt n n Hn Hb). lia.
    - intros ([k tx] & -> & H%elem_of_map_to_list). simpl. rewrite (removes_lookup _ _ _ HR) in H. case_decide as Hd; [done|]. rewrite HinR in Hd.
      assert (Hk : k ∈ ix) by (apply Hin; by rewrite H). rewrite Hab in Hk. apply elem_of_app in Hk as [?|?]; done. }
  assert (Hbelow : forall x y, x ∈ R -> items' !! tx_Nonce y = Some y -> nlt y x).
  { intros x y Hx Hy. apply Hlt.
    - rewrite Hkeys. apply list_elem_of_fmap. exists (tx_Nonce y, y). split; [done|]. by apply elem_of_map_to_list.
    - apply HinR. apply list_elem_of_fmap. by exists x. }
  assert (Hsize : Z.of_nat (size items') = threshold).
  { rewrite <-length_map_to_list, <-(length_fmap fst), <-(Permutation_length Hkeys). exact Hla. }
  assert (Hend : forall cache, (forall c, cache = Some c -> sorted_items items' c) ->
    sm_ok (mkSortedMap items' (heap_Init nonce_less a) cache)).
  { intros cache Hcache. split; cbn [sm_index sm_items sm_cache]; try done; [apply heap_Init_spec, _|].
    by rewrite (proj2 (heap_Init_spec nonce_less a)). }
  assert (Hm : Z.of_nat (size items') = Z.min (sm_Len m) threshold) by lia.
  destruct (sm_cache m) as [c|] eqn:Ec.
  - destruct (sorted_back R (sm_items m) items' c) as (c' & -> & Hc'); [done|done|apply sorted_by_nonce; by rewrite Hrev|done|by apply Hc|].
    assert (Hlr : len (c' ++ rev R) - len R = len c') by (unfold len; rewrite length_app, length_rev; lia). rewrite Hlr, slice_front. cbn [outcome_bind].
    eexists R, _. split; [done|]. split; [apply Hend; by intros c [= <-]|]. done.
  - eexists R, _. split; [done|]. split; [by apply Hend|]. done.
Qed.
End Ops.

(** The lists of an account that the pool keeps: what each operation of
    [txList] takes out, and what it leaves. *)

Abbreviation tl_items l := (sm_items (tl_txs l)).

Section TxListSpec.
Context `{RO : RangeOrder} `{SO : SortOrder}.

(** Items satisfy [Pt] and stay below the caps. *)
Record tl_ok (Pt : Transaction -> Prop) (strict : bool) (l : txList) : Prop := {
  tl_ok_map : sm_ok (tl_txs l);
  tl_ok_strict : tl_strict l = strict;
  tl_ok_items : forall n tx, tl_items l !! n = Some tx -> Pt tx /\ tx_Cost tx <= tl_costcap l /\ tx_Gas tx <= tl_gascap l
}.

(** All the nonces left are below all those taken out. *)
Definition prefix_of (items items' : gmap Z Transaction) : Prop :=
  forall n k, is_Some (items' !! n) -> is_Some (items !! k) -> items' !! k = None -> n < k.

Lemma prefix_of_refl items : prefix_of items items.
Proof. intros n k _ [x Hx] H. congruence. Qed.

Implicit Types (l : txList) (Pt : Transaction -> Prop) (strict : bool).

Lemma tl_new_ok Pt strict : tl_ok Pt strict (newTxList strict).
Proof. split; [apply sm_new_ok|done|]. simpl. intros n tx. by rewrite lookup_empty. Qed.

(** Replacing the map by a smaller one. *)
Lemma tl_ok_sub Pt strict l m :
  tl_ok Pt strict l -> sm_ok m -> (forall n tx, sm_items m !! n = Some tx -> tl_items l !! n = Some tx) ->
  tl_ok Pt strict (tl_set_txs m l).
Proof. intros [Hm Hs Hi] Hm' Hsub. split; [done|done|]. intros n tx H. by apply (Hi n), Hsub. Qed.
Lemma tl_ok_nonce Pt strict l n tx : tl_ok Pt strict l -> tl_items l !! n = Some tx -> tx_Nonce tx = n /\ is_u64 n.
Proof. intros [[_ _ Hi _] _ _]. apply Hi. Qed.

Lemma tl_Len_nonneg l : 0 <= tl_Len l.
Proof. unfold tl_Len, sm_Len. lia. Qed.
Lemma tl_Empty_spec l : tl_Empty l = true <-> tl_items l = ∅.
Proof. unfold tl_Empty, tl_Len, sm_Len. rewrite Z.eqb_eq, <-map_size_empty_iff. lia. Qed.
Lemma tl_nonempty l : tl_items l <> ∅ <-> 0 < tl_Len l.
Proof. unfold tl_Len, sm_Len. rewrite <-map_size_empty_iff. lia. Qed.

Lemma tl_Overlaps_spec tx l : tl_Overlaps tx l = true <-> is_Some (tl_items l !! tx_Nonce tx).
Proof. unfold tl_Overlaps, sm_Get. destruct (tl_items l !! tx_Nonce tx); naive_solver. Qed.

(** ** Adding *)

(** Whether the new transaction may take the place of the old one. *)
Definition replaces (bump : Z) (tx old : Transaction) : Prop :=
  tx_GasPrice old < tx_GasPrice tx /\ bump_threshold (tx_GasPrice old) bump <= tx_GasPrice tx.

Lemma tl_Add_spec Pt strict tx bump l :
  tl_ok Pt strict l -> is_u64 (tx_Nonce tx) -> Pt tx ->
  (exists l', tl_Add tx bump l = (true, tl_items l !! tx_Nonce tx, l') /\ tl_ok Pt strict l' /\
     tl_items l' = <[tx_Nonce tx := tx]> (tl_items l) /\
     (forall old, tl_items l !! tx_Nonce tx = Some old -> replaces bump tx old)) \/
  (tl_Add tx bump l = (false, None, l) /\ exists old, tl_items l !! tx_Nonce tx = Some old /\ ~ replaces bump tx old).
Proof.
  intros [Hm Hs Hi] Hu HP. unfold tl_Add, sm_Get, replaces. destruct (sm_Put_spec tx (tl_txs l) Hm Hu) as [Hok Hit].
  set (old := tl_items l !! tx_Nonce tx). set (better := match old with None => true | Some old => _ end).
  destruct better eqn:Hb; [left|right].
  - eexists. split; [done|]. split; [|split; [exact Hit|]].
    + split; [done|done|]. cbn [tl_txs tl_costcap tl_gascap]. rewrite Hit. intros n tx' [[<- <-]|[_ H]]%lookup_insert_Some.
      * split; [done|]. bool_cases; lia.
      * destruct (Hi n tx' H) as (? & ? & ?). split; [done|]. bool_cases; lia.
    + intros o Ho. unfold better in Hb. rewrite Ho in Hb. bool_cases; try done; lia.
  - split; [done|]. unfold better in Hb. destruct old as [o|] eqn:Eo; [|done]. exists o. split; [done|]. bool_cases; try done; lia.
Qed.

(** ** Taking out *)

Lemma tl_Forward_spec Pt strict t l :
  tl_ok Pt strict l ->
  exists R l', tl_Forward t l = Done (R, l') /\ tl_ok Pt strict l' /\ removes R (tl_items l) (tl_items l') /\
    Forall (fun x => tx_Nonce x < t) R /\ (forall n, is_Some (tl_items l' !! n) -> t <= n).
Proof.
  intros Hl. destruct (sm_Forward_spec t (tl_txs l) (tl_ok_map _ _ _ Hl)) as (R & m & E & Hm & HR & H1 & H2).
  unfold tl_Forward. rewrite E. eexists R, _. split; [done|]. split; [|done]. apply (tl_ok_sub Pt); [done..|].
  intros n tx. by apply (removes_kept R).
Qed.

Lemma lowest_nonce_spec R :
  Forall (fun x => is_u64 (tx_Nonce x)) R -> R <> [] ->
  (exists x, x ∈ R /\ lowest_nonce R = tx_Nonce x) /\ Forall (fun x => lowest_nonce R <= tx_Nonce x) R.
Proof.
  unfold lowest_nonce. intros Hu. 
  assert (H : forall acc R, let r := foldl (fun lowest tx => if tx_Nonce tx <? lowest then tx_Nonce tx else lowest) acc R in
    (r = acc \/ exists x, x ∈ R /\ r = tx_Nonce x) /\ r <= acc /\ Forall (fun x => r <= tx_Nonce x) R).
  { clear. intros acc R. revert acc. induction R as [|y R IH]; intros acc; simpl; [split; [by left|split; [lia|constructor]]|].
    destruct (IH (if tx_Nonce y <? acc then tx_Nonce y else acc)) as (H1 & H2 & H3).
    split; [|split; [bool_cases; lia|constructor; [bool_cases; lia|done]]].
    destruct H1 as [H1|(x & Hx & H1)]; [|right; exists x; split; [by right|done]].
    destruct (tx_Nonce y <? acc) eqn:?; [right; exists y; split; [by left|done]|by left]. }
  intros Hne. destruct (H MaxUint64 R) as (H1 & H2 & H3). split; [|done]. destruct H1 as [H1|?]; [|done].
  destruct R as [|x R]; [done|]. exists x. split; [by left|]. apply Forall_cons in Hu as [Hx _]. apply Forall_cons in H3 as [H3 _].
  rewrite H1 in *. unfold is_u64 in *. lia.
Qed.

(** Cutting a strict list above the lowest nonce that is taken out. *)
Lemma cut_prefix R V low items mid items' :
  items_ok items -> removes R items mid -> removes V mid items' -> Forall (fun x => low <= tx_Nonce x) R ->
  (exists x, x ∈ R /\ low = tx_Nonce x) -> Forall (fun x => (low <? tx_Nonce x) = true) V ->
  (forall n x, items' !! n = Some x -> (low <? tx_Nonce x) = false) -> prefix_of items items'.
Proof.
  intros Hi HR HV HRl (x & Hx & ->) HVl Hk n k [y Hn] [z Hz] Hgone.
  assert (Hmid : mid !! n = Some y) by (by eapply removes_kept).
  assert (Hny : tx_Nonce y = n) by (apply (Hi n y); by eapply removes_kept).
  assert (n <> tx_Nonce x) by (intros ->; pose proof (removes_gone _ _ _ x HR Hx); congruence).
  specialize (Hk n y Hn). rewrite (removes_lookup _ _ _ HV) in Hgone.
  destruct (decide (k ∈ map tx_Nonce V)) as [(v & -> & Hv)%list_elem_of_fmap|].
  - rewrite Forall_forall in HVl. specialize (HVl v Hv). lia.
  - rewrite (removes_lookup _ _ _ HR) in Hgone. case_decide as Hd; [|congruence].
    apply list_elem_of_fmap in Hd as (v & -> & Hv). rewrite Forall_forall in HRl. specialize (HRl v Hv). lia.
Qed.

Definition affordable (cost gas : Z) (tx : Transaction) : Prop := tx_Cost tx <= cost /\ tx_Gas tx <= gas.

Lemma tl_Filter_spec Pt strict c g l :
  tl_ok Pt strict l ->
  exists R V l', tl_Filter c g l = (R, V, l') /\ tl_ok Pt strict l' /\ removes (R ++ V) (tl_items l) (tl_items l') /\
    Forall (fun x => ~ affordable c g x) R /\ (forall n x, tl_items l' !! n = Some x -> affordable c g x) /\
    (if strict then prefix_of (tl_items l) (tl_items l') else V = []).
Proof.
  intros Hl. pose proof Hl as [Hm Hs Hi]. unfold tl_Filter, affordable.
  destruct ((tl_costcap l <=? c) && (tl_gascap l <=? g)) eqn:E.
  { exists [], [], l. split; [done|]. split; [done|]. split; [constructor|]. split; [constructor|]. split.
    - intros n x H. apply Hi in H. bool_cases; try done; lia.
    - destruct strict; [apply prefix_of_refl|done]. }
  set (f := fun tx => (c <? tx_Cost tx) || (g <? tx_Gas tx)).
  destruct (sm_Filter_spec f (tl_txs l) Hm) as (Hm1 & HR & Hf & Hk). destruct (sm_Filter f (tl_txs l)) as [R m]. cbn [fst snd] in *.
  assert (Hf' : Forall (fun x => ~ (tx_Cost x <= c /\ tx_Gas x <= g)) R).
  { eapply Forall_impl; [exact Hf|]. unfold f. intros x Hx. simpl in Hx. bool_cases; try done; lia. }
  assert (Hk' : forall n x, sm_items m !! n = Some x -> tx_Cost x <= c /\ tx_Gas x <= g).
  { intros n x H. specialize (Hk n x H). unfold f in Hk. bool_cases; try done; lia. }
  assert (Hl1 : tl_ok Pt strict (mkTxList (tl_strict l) m c g)).
  { split; [done|done|]. intros n x H. cbn [tl_txs tl_costcap tl_gascap] in *. split; [|by apply (Hk' n)]. apply (Hi n). by eapply removes_kept. }
  rewrite Hs in Hl1 |- *. destruct R as [|r R']; [|set (R := r :: R') in *; cbn [tl_strict]; destruct strict].
  - eexists [], [], _. split; [done|]. split; [exact Hl1|]. split; [done|]. split; [done|]. split; [done|].
    destruct strict; [|done]. inversion HR as [? H0 H1 H2|]. cbn [tl_txs]. rewrite H2. apply prefix_of_refl.
  - assert (HneR : R <> []) by done. set (cut := fun tx => lowest_nonce R <? tx_Nonce tx).
    destruct (sm_Filter_spec cut m Hm1) as (Hm2 & HV & Hc & Hck). destruct (sm_Filter cut m) as [V m2]. cbn [fst snd] in *.
    destruct (lowest_nonce_spec R) as [Hlow Hall]; [|done|].
    { apply Forall_forall. intros x Hx. by destruct (ok_items _ Hm _ _ (removes_elem R _ _ x HR Hx)). }
    eexists R, V, _. split; [done|]. split; [|split; [by eapply removes_app|split; [done|split]]].
    + apply (tl_ok_sub Pt); [done..|]. cbn [tl_txs]. intros n x. by apply (removes_kept V).
    + cbn [tl_set_txs tl_txs]. intros n x H. apply (Hk' n). by eapply removes_kept.
    + cbn [tl_set_txs tl_txs]. apply (cut_prefix R V (lowest_nonce R) _ (sm_items m)); try done. apply (ok_items _ Hm).
  - eexists R, [], _. split; [done|]. split; [exact Hl1|]. split; [by rewrite app_nil_r|]. done.
Qed.

Lemma tl_Cap_spec Pt strict t l :
  tl_ok Pt strict l -> 0 <= t ->
  exists R l', tl_Cap t l = Done (R, l') /\ tl_ok Pt strict l' /\ removes R (tl_items l) (tl_items l') /\
    prefix_of (tl_items l) (tl_items l') /\ tl_Len l' = Z.min (tl_Len l) t.
Proof.
  intros Hl Ht. destruct (sm_Cap_spec t (tl_txs l) (tl_ok_map _ _ _ Hl) Ht) as (R & m & E & Hm & HR & Hlt & Hlen).
  unfold tl_Cap. rewrite E. eexists R, _. split; [done|]. split; [|split; [exact HR|split; [|exact Hlen]]].
  - apply (tl_ok_sub Pt); [done..|]. intros n tx. by apply (removes_kept R).
  - cbn [tl_set_txs tl_txs]. intros n k [y Hn] [z Hz] Hg.
    assert (Hy : tx_Nonce y = n) by (by apply (ok_items _ Hm) in Hn as [? _]).
    assert (Hz' : tx_Nonce z = k) by (by apply (ok_items _ (tl_ok_map _ _ _ Hl)) in Hz as [? _]).
    rewrite <-Hy, <-Hz'. apply Hlt; [|by rewrite Hy]. rewrite (removes_lookup _ _ _ HR) in Hg. case_decide as Hd; [|congruence].
    apply list_elem_of_fmap in Hd as (v & -> & Hv). pose proof (removes_elem _ _ _ v HR Hv). naive_solver.
Qed.

Lemma tl_Remove_spec Pt strict tx l :
  tl_ok Pt strict l ->
  match tl_items l !! tx_Nonce tx with
  | None => tl_Remove tx l = Done (false, [], l)
  | Some x =>
      exists V l', tl_Remove tx l = Done (true, V, l') /\ tl_ok Pt strict l' /\
        removes (x :: V) (tl_items l) (tl_items l') /\ (if strict then prefix_of (tl_items l) (tl_items l') else V = []) /\
        Forall (fun y => tx_Nonce tx < tx_Nonce y) V
  end.
Proof.
  intros Hl. pose proof Hl as [Hm Hs Hi]. unfold tl_Remove.
  destruct (sm_Remove_spec (tx_Nonce tx) (tl_txs l) Hm) as (m & -> & Hm1 & Hit). cbn [outcome_bind].
  destruct (tl_items l !! tx_Nonce tx) as [x|] eqn:Ex; [|done]. rewrite bool_decide_true by done. cbn [negb].
  assert (Hx : tx_Nonce x = tx_Nonce tx) by (by apply (ok_items _ Hm) in Ex as [? _]).
  assert (HR : removes [x] (tl_items l) (sm_items m)) by (constructor; [by rewrite Hx|rewrite Hx, <-Hit; constructor]).
  assert (Hsub : forall n y, sm_items m !! n = Some y -> tl_items l !! n = Some y) by (intros n y; by apply (removes_kept [x])).
  rewrite Hs. destruct strict.
  - set (cut := fun y => tx_Nonce tx <? tx_Nonce y).
    destruct (sm_Filter_spec cut m Hm1) as (Hm2 & HV & Hc & Hck). destruct (sm_Filter cut m) as [V m2]. cbn [fst snd] in *.
    eexists V, _. split; [done|]. split; [|split; [by apply (removes_app [x] V _ (sm_items m))|split]].
    + apply (tl_ok_sub Pt); [done..|]. intros n y H. by eapply Hsub, removes_kept.
    + apply (cut_prefix [x] V (tx_Nonce tx) _ (sm_items m)); try done; [apply (ok_items _ Hm)|constructor; [lia|constructor]|].
      exists x. split; [by left|done].
    + eapply Forall_impl; [exact Hc|]. unfold cut. intros y Hy. simpl in Hy. lia.
  - eexists [], _. split; [done|]. split; [by apply (tl_ok_sub Pt)|]. done.
Qed.

Lemma tl_Ready_spec Pt strict start l :
  tl_ok Pt strict l ->
  exists R l', tl_Ready start l = Done (R, l') /\ tl_ok Pt strict l' /\ removes R (tl_items l) (tl_items l') /\
    ((R = [] /\ forall k, is_Some (tl_items l !! k) -> start < k) \/
     (exists lo, lo <= start /\ R <> [] /\ map tx_Nonce R = seqZ lo (len R) /\ (forall k, is_Some (tl_items l !! k) -> lo <= k) /\
        (forall k, is_Some (tl_items l' !! k) -> lo + len R < k))).
Proof.
  intros Hl. destruct (sm_Ready_spec start (tl_txs l) (tl_ok_map _ _ _ Hl)) as (R & m & E & Hm & HR & H).
  unfold tl_Ready. rewrite E. eexists R, _. split; [done|]. split; [|split; [exact HR|exact H]]. apply (tl_ok_sub Pt); [done..|].
  intros n tx. by apply (removes_kept R).
Qed.

Lemma tl_Flatten_spec Pt strict l :
  tl_ok Pt strict l -> let r := tl_Flatten l in
  sorted_items (tl_items l) r.1 /\ tl_ok Pt strict r.2 /\ tl_items r.2 = tl_items l.
Proof.
  intros Hl. destruct (sm_Flatten_spec (tl_txs l) (tl_ok_map _ _ _ Hl)) as (Hs & Hm & Hi).
  unfold tl_Flatten. destruct (sm_Flatten (tl_txs l)) as [c m]. cbn [fst snd] in *. split; [done|]. split; [|done].
  apply (tl_ok_sub Pt); [done..|]. intros n tx. by rewrite Hi.
Qed.
End TxListSpec.
