(* ===== verification/TxPriced.v ===== *)
(** All transactions of the pool by price: [txPricedList] of core/tx_list.go,
    [txLookup] and [accountSet] of core/tx_pool.go, and the priority queue
    that the pool uses.

    Hash, size and sender of a transaction are what its methods return.  The
    methods do not panic on any transaction (PricedFacts.tx_methods_end), so
    that the values given here for a panic are never those of a call. *)
From S2P Require Import Prelude BigMath Heap Vm Transaction TxList.

Section TxPriced.
Context `{CR : Crypto}.

Definition hash_of (tx : Transaction) : Hash := match tx_Hash tx with Done (h, _) => h | _ => 0%N end.
Definition size_of (tx : Transaction) : Z := match tx_Size tx with Done (n, _) => n | _ => 0 end.
Definition sender_of (signer : Signer) (tx : Transaction) : sigError + Address :=
  match Sender signer tx with Done (r, _) => r | _ => inl errRecover end.
(** The address that is left when the error is dropped. *)
Definition from_of (signer : Signer) (tx : Transaction) : Address :=
  match sender_of signer tx with inr a => a | inl _ => 0%N end.

(** ** txLookup and accountSet *)

Abbreviation txLookup := (gmap Hash Transaction).
Definition lk_Get (hash : Hash) (t : txLookup) : option Transaction := t !! hash.
Definition lk_Count (t : txLookup) : Z := Z.of_nat (size t).
Definition lk_Add (tx : Transaction) (t : txLookup) : txLookup := <[hash_of tx := tx]> t.
Definition lk_Remove (hash : Hash) (t : txLookup) : txLookup := delete hash t.

Record accountSet := mkAccountSet { as_accounts : gset Address; as_signer : Signer }.
Definition newAccountSet (signer : Signer) : accountSet := mkAccountSet ∅ signer.
Definition as_contains (addr : Address) (s : accountSet) : bool := bool_decide (addr ∈ as_accounts s).
Definition as_containsTx (tx : Transaction) (s : accountSet) : bool :=
  match sender_of (as_signer s) tx with inr addr => as_contains addr s | inl _ => false end.
Definition as_add (addr : Address) (s : accountSet) : accountSet := mkAccountSet ({[addr]} ∪ as_accounts s) (as_signer s).

(** ** txPricedList *)

Definition price_less (x y : Transaction) : bool :=
  if tx_GasPrice x <? tx_GasPrice y then true
  else if tx_GasPrice y <? tx_GasPrice x then false
  else tx_Nonce y <? tx_Nonce x.

(** The pointer to the lookup is an argument of the operations. *)
Record txPricedList := mkPriced { pl_items : list Transaction; pl_stales : Z }.
Definition newTxPricedList : txPricedList := mkPriced [] 0.

Definition pl_Put (tx : Transaction) (l : txPricedList) : txPricedList :=
  mkPriced (heap_Push price_less tx (pl_items l)) (pl_stales l).

Definition pl_Removed `{RO : RangeOrder} (all : txLookup) (l : txPricedList) : txPricedList :=
  let stales := pl_stales l + 1 in
  if stales <=? Z.quot (len (pl_items l)) 4 then mkPriced (pl_items l) stales
  else mkPriced (heap_Init price_less (map snd (range all))) 0.

(** The loops pop one element per round, so that their number bounds them. *)
Fixpoint pl_Cap_loop (fuel : nat) (all : txLookup) (threshold : Z) (local : accountSet) (l : txPricedList)
  : outcome (list Transaction * list Transaction * txPricedList) :=
  match pl_items l with
  | [] => Done ([], [], l)
  | _ =>
      match fuel with
      | O => NoFuel
      | S fuel =>
          let* p := heap_Pop price_less (pl_items l) in
          let '(tx, items) := p in
          match lk_Get (hash_of tx) all with
          | None => pl_Cap_loop fuel all threshold local (mkPriced items (pl_stales l - 1))
          | Some _ =>
              if threshold <=? tx_GasPrice tx then Done ([], [tx], mkPriced items (pl_stales l))
              else
                let* r := pl_Cap_loop fuel all threshold local (mkPriced items (pl_stales l)) in
                let '(drop, save, l) := r in
                if as_containsTx tx local then Done (drop, tx :: save, l) else Done (tx :: drop, save, l)
          end
      end
  end.
Definition pl_push_all (txs : list Transaction) (l : txPricedList) : txPricedList :=
  foldl (fun l tx => pl_Put tx l) l txs.
Definition pl_Cap (all : txLookup) (threshold : Z) (local : accountSet) (l : txPricedList)
  : outcome (list Transaction * txPricedList) :=
  let* r := pl_Cap_loop (length (pl_items l)) all threshold local l in
  let '(drop, save, l) := r in Done (drop, pl_push_all save l).

(** Stale elements at the start are popped. *)
Fixpoint pl_unstale (fuel : nat) (all : txLookup) (l : txPricedList) : outcome txPricedList :=
  match pl_items l with
  | [] => Done l
  | head :: _ =>
      match lk_Get (hash_of head) all with
      | Some _ => Done l
      | None =>
          match fuel with
          | O => NoFuel
          | S fuel =>
              let* p := heap_Pop price_less (pl_items l) in
              pl_unstale fuel all (mkPriced p.2 (pl_stales l - 1))
          end
      end
  end.
Definition pl_Underpriced (all : txLookup) (tx : Transaction) (local : accountSet) (l : txPricedList)
  : outcome (bool * txPricedList) :=
  if as_containsTx tx local then Done (false, l)
  else
    let* l := pl_unstale (length (pl_items l)) all l in
    match pl_items l with
    | [] => Done (false, l)
    | cheapest :: _ => Done (tx_GasPrice tx <=? tx_GasPrice cheapest, l)
    end.

Fixpoint pl_Discard_loop (fuel : nat) (all : txLookup) (count : Z) (local : accountSet) (l : txPricedList)
  : outcome (list Transaction * list Transaction * txPricedList) :=
  match pl_items l with
  | [] => Done ([], [], l)
  | _ =>
      if count <=? 0 then Done ([], [], l)
      else
        match fuel with
        | O => NoFuel
        | S fuel =>
            let* p := heap_Pop price_less (pl_items l) in
            let '(tx, items) := p in
            match lk_Get (hash_of tx) all with
            | None => pl_Discard_loop fuel all count local (mkPriced items (pl_stales l - 1))
            | Some _ =>
                if as_containsTx tx local then
                  let* r := pl_Discard_loop fuel all count local (mkPriced items (pl_stales l)) in
                  let '(drop, save, l) := r in Done (drop, tx :: save, l)
                else
                  let* r := pl_Discard_loop fuel all (count - 1) local (mkPriced items (pl_stales l)) in
                  let '(drop, save, l) := r in Done (tx :: drop, save, l)
            end
        end
  end.
(** [make] panics for a negative capacity. *)
Definition pl_Discard (all : txLookup) (count : Z) (local : accountSet) (l : txPricedList)
  : outcome (list Transaction * txPricedList) :=
  if count <? 0 then GoPanic
  else
    let* r := pl_Discard_loop (length (pl_items l)) all count local l in
    let '(drop, save, l) := r in Done (drop, pl_push_all save l).
End TxPriced.

(** ** Priority queues

    The vendored prque keeps its elements in blocks; here they are one list.
    The priorities are numbers of transactions. *)
Definition prque (A : Type) : Type := list (A * Z).
Definition prque_less {A} (x y : A * Z) : bool := y.2 <? x.2.
Definition prque_Push {A} (data : A) (priority : Z) (p : prque A) : prque A := heap_Push prque_less (data, priority) p.
Definition prque_Pop {A} (p : prque A) : outcome (A * prque A) :=
  let* r := heap_Pop prque_less p in Done (r.1.1, r.2).
Definition prque_Empty {A} (p : prque A) : bool := match p with [] => true | _ => false end.
