(* ===== verification/PricedFacts.v ===== *)
(** The price heap of the pool covers the transactions that the pool knows,
    and what it drops is cheapest.

    Some elements of the heap are stale: the pool has forgotten them. *)
From S2P Require Import Prelude BigMath Heap Vm PrecompileFacts Rlp RlpFacts RlpWriter Transaction TxFacts TxList TxPriced.

#[export] Instance price_less_order : WeakOrder price_less.
Proof. split; unfold price_less; intros; bool_cases; (done || lia). Qed.
#[export] Instance prque_less_order A : WeakOrder (@prque_less A).
Proof. split; unfold prque_less; intros; bool_cases; (done || lia). Qed.

(** No method of a transaction that the pool uses panics: [hash_of], [size_of]
    and [sender_of] are what the methods return, for every transaction. *)
Definition methods_end `{CR : Crypto} (signer : Signer) (tx : Transaction) : Prop :=
  (exists tx', tx_Hash tx = Done (hash_of tx, tx')) /\ (exists tx', tx_Size tx = Done (size_of tx, tx')) /\
  (exists tx', Sender signer tx = Done (sender_of signer tx, tx')).
Section Methods.
Context `{CR : Crypto} `{CS : !CryptoSpec} `{EC : Ecdsa} `{ES : !EcdsaSpec}.

Lemma rlpHash_total t v : exists h, rlpHash t v = Done h.
Proof.
  unfold rlpHash. destruct (Encode_total hash_Write t v []) as [r ->]; [|by eexists]. intros b w a _. by eexists.
Qed.
Lemma signer_Sender_ends signer tx : exists r, signer_Sender signer tx = Done r.
Proof.
  assert (HS : forall s R S V hs, exists r, (let* h := signer_Hash s tx in recoverPlain h R S V hs) = Done r).
  { intros s R S V hs. unfold signer_Hash. destruct (rlpHash_total (signed_t s) (signed_val s (tx_data tx))) as [h ->]. apply recoverPlain_total. }
  destruct signer as [| |c m]; simpl; [apply HS|apply HS|]. destruct (negb (tx_Protected tx)); [apply HS|].
  destruct (negb _); [by eexists|apply HS].
Qed.
Lemma tx_methods_end signer tx : methods_end signer tx.
Proof.
  split; [|split].
  - unfold hash_of, tx_Hash. destruct (tx_hash tx) as [h|]; [by eexists|].
    destruct (rlpHash_total txdata_t (txdata_val (tx_data tx))) as [h ->]. by eexists.
  - unfold size_of, tx_Size. destruct (tx_size tx) as [n|]; [by eexists|].
    destruct (Encode_total writeCounter_Write txdata_t (txdata_val (tx_data tx)) 0) as [r E]; [intros b w a _; by eexists|].
    unfold tx_EncodeRLP. rewrite E. by eexists.
  - unfold sender_of, Sender. destruct (signer_Sender_ends signer tx) as [r ->]. cbn [outcome_bind].
    destruct (tx_from tx) as [[sg from]|]; [destruct (signer_Equal sg signer); [by eexists|]|]; destruct r; by eexists.
Qed.
End Methods.

Section PricedFacts.
Context `{CR : Crypto} `{RO : RangeOrder}.
Implicit Types (all : gmap Hash Transaction) (l : txPricedList) (tx x y : Transaction) (D : list Hash).

Definition is_live all x : Prop := is_Some (all !! hash_of x).

(** Transactions whose hashes are in [D] may be missing: they are about to be
    dropped. *)
Record pl_ok all D l : Prop := {
  pl_ok_heap : heap_ok price_less (pl_items l);
  pl_ok_keys : forall h tx, all !! h = Some tx -> hash_of tx = h;
  pl_ok_covers : forall h tx, all !! h = Some tx -> tx ∈ pl_items l \/ h ∈ D
}.

Lemma pl_ok_new : pl_ok ∅ [] newTxPricedList.
Proof. split; [by intros j Hj; simpl in Hj; lia|..]; intros h tx; by rewrite lookup_empty. Qed.
Lemma pl_ok_sub all all' D D' l :
  pl_ok all D l -> (forall h tx, all' !! h = Some tx -> all !! h = Some tx /\ (h ∈ D -> h ∈ D')) -> pl_ok all' D' l.
Proof.
  intros [Hh Hk Hc] Hsub. split; [done|..]; intros h tx Hl; destruct (Hsub h tx Hl) as [Hl' HD]; [by apply Hk|].
  destruct (Hc h tx Hl'); auto.
Qed.

Lemma pl_Put_ok all D tx l : pl_ok all D l -> pl_ok (lk_Add tx all) D (pl_Put tx l).
Proof.
  intros [Hh Hk Hc]. destruct (heap_Push_spec price_less tx (pl_items l) Hh) as [Hh' Hp]. split; [done|..]; intros h x.
  - unfold lk_Add. intros [[<- <-]|[_ Hx]]%lookup_insert_Some; [done|by apply Hk].
  - unfold pl_Put, lk_Add. cbn [pl_items]. rewrite Hp, elem_of_cons. intros [[_ <-]|[_ Hx]]%lookup_insert_Some; [by left; left|].
    destruct (Hc h x Hx); auto.
Qed.

Lemma pl_Removed_ok all D l : pl_ok all D l -> pl_ok all D (pl_Removed all l).
Proof.
  intros [Hh Hk Hc]. unfold pl_Removed. case_match; [by split|].
  destruct (heap_Init_spec price_less (map snd (range all))) as [Hh' Hp].
  split; [done|done|]. intros h tx Hl. left. cbn [pl_items]. rewrite Hp. apply list_elem_of_fmap. exists (h, tx). split; [done|].
  rewrite range_perm. by apply elem_of_map_to_list.
Qed.

Lemma pl_push_all_spec txs : forall l,
  heap_ok price_less (pl_items l) ->
  heap_ok price_less (pl_items (pl_push_all txs l)) /\ pl_items (pl_push_all txs l) ≡ₚ txs ++ pl_items l.
Proof.
  induction txs as [|tx txs IH]; intros l Hh; [done|]. destruct (heap_Push_spec price_less tx (pl_items l) Hh) as [Hh' Hp].
  destruct (IH (pl_Put tx l) Hh') as [H1 H2]. split; [exact H1|]. cbn [pl_push_all foldl]. unfold pl_push_all in H2. rewrite H2.
  unfold pl_Put. cbn [pl_items]. rewrite Hp. by rewrite <-Permutation_middle.
Qed.

(** ** Popping

    What a loop that pops elements does with them: [drop], keep in [save], or
    throw away because they are stale. *)
Record popped all (local : accountSet) l (drop save : list Transaction) l' : Prop := {
  pp_heap : heap_ok price_less (pl_items l');
  pp_stale : exists stale, pl_items l ≡ₚ drop ++ save ++ stale ++ pl_items l' /\ Forall (fun x => ~ is_live all x) stale;
  pp_drop : Forall (fun x => is_live all x /\ as_containsTx x local = false) drop;
  pp_save : Forall (is_live all) save;
  pp_least : forall x y, x ∈ drop -> y ∈ pl_items l' -> price_less y x = false
}.

Lemma popped_none all local l : heap_ok price_less (pl_items l) -> popped all local l [] [] l.
Proof. intros Hh. split; try done; [by exists []|]. by intros x y ?%elem_of_nil. Qed.

Section Step.
Context (all : gmap Hash Transaction) (local : accountSet) (l : txPricedList) (x : Transaction) (items : list Transaction) (n : Z).
Hypothesis (Hmin : forall y, y ∈ items -> price_less y x = false).
Hypothesis (Hp : pl_items l ≡ₚ x :: items).
Let l1 := mkPriced items n.

Lemma popped_stale drop save l' :
  ~ is_live all x -> popped all local l1 drop save l' -> popped all local l drop save l'.
Proof using Hp.
  intros Hx [H1 (stale & H2 & H2') H3 H4 H5]. split; try done. exists (x :: stale). split; [|by constructor].
  rewrite Hp. unfold l1 in H2. simpl in H2. rewrite H2. solve_Permutation.
Qed.
Lemma popped_save drop save l' :
  is_live all x -> popped all local l1 drop save l' -> popped all local l drop (x :: save) l'.
Proof using Hp.
  intros Hx [H1 (stale & H2 & H2') H3 H4 H5]. split; try done; [|by constructor]. exists stale. split; [|done].
  rewrite Hp. unfold l1 in H2. simpl in H2. rewrite H2. simpl. by rewrite <-Permutation_middle.
Qed.
Lemma popped_drop drop save l' :
  is_live all x -> as_containsTx x local = false -> popped all local l1 drop save l' -> popped all local l (x :: drop) save l'.
Proof using Hp Hmin.
  intros Hx Hloc [H1 (stale & H2 & H2') H3 H4 H5]. unfold l1 in H2. simpl in H2. split; try done; [|by constructor|].
  - exists stale. split; [|done]. rewrite Hp, H2. done.
  - intros a b [->|Ha]%elem_of_cons Hb; [|by apply H5]. apply Hmin. rewrite H2. set_solver.
Qed.
End Step.

(** Kept elements are pushed back. *)
Lemma popped_covers all local l drop save l' :
  popped all local l drop save l' -> pl_ok all [] l -> pl_ok all (map hash_of drop) (pl_push_all save l').
Proof.
  intros [Hh (stale & Hp & Hs) Hd Hsv _] [_ Hk Hc]. destruct (pl_push_all_spec save l' Hh) as [H1 H2]. split; [done..|].
  intros h tx Hl. rewrite H2. assert (Hin : tx ∈ pl_items l) by (destruct (Hc h tx Hl) as [?|?%elem_of_nil]; done).
  rewrite Hp, !elem_of_app in Hin.
  destruct Hin as [Hin|[Hin|[Hin|Hin]]]; [right|left; set_solver|exfalso|left; set_solver].
  - rewrite <-(Hk h tx Hl). apply list_elem_of_fmap. by exists tx.
  - rewrite Forall_forall in Hs. apply (Hs tx Hin). unfold is_live. by rewrite (Hk h tx Hl), Hl.
Qed.

(** One round of a loop: the head of the heap goes. *)
Lemma pop_round x items0 :
  heap_ok price_less (x :: items0) ->
  exists items, heap_Pop price_less (x :: items0) = Done (x, items) /\ heap_ok price_less items /\
    (x :: items0) ≡ₚ (x :: items) /\ length items = length items0 /\ forall y, y ∈ items -> price_less y x = false.
Proof.
  intros Hh. destruct (heap_Pop_spec price_less x items0 Hh) as (items & E & Hh' & Hp & Hmin). exists items.
  split; [done|]. split; [done|]. split; [by rewrite Hp|]. split; [by apply Permutation_length|]. intros y. rewrite Hp. apply Hmin.
Qed.

Lemma pl_Cap_loop_spec fuel all t local : forall l,
  heap_ok price_less (pl_items l) -> (length (pl_items l) <= fuel)%nat ->
  exists drop save l', pl_Cap_loop fuel all t local l = Done (drop, save, l') /\ popped all local l drop save l' /\
    Forall (fun x => tx_GasPrice x < t) drop /\ Forall (fun x => t <= tx_GasPrice x \/ as_containsTx x local = true) save /\
    Forall (fun x => t <= tx_GasPrice x) (pl_items l').
Proof.
  induction fuel as [|fuel IH]; intros [items0 st] Hh Hf; cbn [pl_Cap_loop pl_items pl_stales] in *;
    (destruct items0 as [|x items0]; [exists [], [], (mkPriced [] st); split; [done|]; split; [by apply popped_none|done]|]);
    [simpl in Hf; lia|].
  destruct (pop_round x items0 Hh) as (items & -> & Hh' & Hp & Hlen & Hmin). cbn [outcome_bind]. simpl in Hf.
  unfold lk_Get. destruct (all !! hash_of x) as [y|] eqn:El.
  - assert (Hx : is_live all x) by (by unfold is_live; rewrite El).
    destruct (Z.leb_spec t (tx_GasPrice x)) as [Hle|Hlt].
    + exists [], [x], (mkPriced items st). split; [done|]. split; [apply (popped_save all local (mkPriced (x :: items0) st) x items st Hp); [done|]; by apply popped_none|].
      split; [done|]. split; [constructor; [by left|done]|]. apply Forall_forall. intros z Hz. specialize (Hmin z Hz).
      unfold price_less in Hmin. bool_cases; try done; lia.
    + destruct (IH (mkPriced items st) Hh') as (drop & save & l' & -> & Hpp & H1 & H2 & H3); [simpl; lia|]. cbn [outcome_bind].
      destruct (as_containsTx x local) eqn:Eloc.
      * exists drop, (x :: save), l'. split; [done|]. split; [by apply (popped_save all local (mkPriced (x :: items0) st) x items st Hp)|].
        split; [done|]. split; [constructor; [by right|done]|done].
      * exists (x :: drop), save, l'. split; [done|]. split; [by apply (popped_drop all local (mkPriced (x :: items0) st) x items st Hmin Hp)|].
        split; [by constructor|]. done.
  - destruct (IH (mkPriced items (st - 1)) Hh') as (drop & save & l' & -> & Hpp & H1 & H2 & H3); [simpl; lia|].
    exists drop, save, l'. split; [done|]. split; [|done]. apply (popped_stale all local (mkPriced (x :: items0) st) x items (st - 1) Hp); [|done].
    unfold is_live. rewrite El. by intros [? ?].
Qed.

(** [Cap] drops exactly the live remote transactions below the threshold. *)
Lemma pl_Cap_spec all t local l :
  pl_ok all [] l ->
  exists drop l', pl_Cap all t local l = Done (drop, l') /\ pl_ok all (map hash_of drop) l' /\
    Forall (fun x => is_live all x /\ as_containsTx x local = false /\ tx_GasPrice x < t) drop /\
    (forall h tx, all !! h = Some tx -> tx_GasPrice tx < t -> as_containsTx tx local = false -> tx ∈ drop).
Proof.
  intros Hok. pose proof Hok as [Hh Hk Hc].
  destruct (pl_Cap_loop_spec (length (pl_items l)) all t local l Hh) as (drop & save & l' & E & Hpp & H1 & H2 & H3); [lia|].
  unfold pl_Cap. rewrite E. cbn [outcome_bind]. eexists drop, _. split; [done|]. split; [by eapply popped_covers|].
  pose proof Hpp as [_ (stale & Hp & Hs) Hd _ _]. split.
  - apply Forall_forall. intros x Hx. rewrite Forall_forall in Hd, H1. destruct (Hd x Hx). auto.
  - intros h tx Hl Hlt Hloc. assert (Hin : tx ∈ pl_items l) by (destruct (Hc h tx Hl) as [?|?%elem_of_nil]; done).
    rewrite Hp, !elem_of_app in Hin. rewrite Forall_forall in Hs, H2, H3.
    destruct Hin as [Hin|[Hin|[Hin|Hin]]]; [done|..]; exfalso.
    + destruct (H2 tx Hin); [lia|congruence].
    + apply (Hs tx Hin). unfold is_live. by rewrite (Hk h tx Hl), Hl.
    + specialize (H3 tx Hin). simpl in H3. lia.
Qed.

Lemma pl_unstale_spec fuel all D : forall l,
  pl_ok all D l -> (length (pl_items l) <= fuel)%nat ->
  exists l', pl_unstale fuel all l = Done l' /\ pl_ok all D l' /\ (forall x, head (pl_items l') = Some x -> is_live all x).
Proof.
  induction fuel as [|fuel IH]; intros [items0 st] Hok Hf; pose proof Hok as [Hh Hk Hc]; cbn [pl_unstale pl_items pl_stales] in *;
    (destruct items0 as [|x items0]; [by exists (mkPriced [] st)|]); [simpl in Hf; lia|].
  unfold lk_Get. destruct (all !! hash_of x) as [y|] eqn:El.
  { eexists. split; [done|]. split; [done|]. intros z [= <-]. unfold is_live. by rewrite El. }
  destruct (pop_round x items0 Hh) as (items & -> & Hh' & Hp & Hlen & Hmin). cbn [outcome_bind snd]. apply IH; [|simpl in *; lia].
  split; [done|done|]. intros h tx Hl. destruct (Hc h tx Hl) as [Hin|]; [|by right]. left. cbn [pl_items].
  rewrite Hp in Hin. apply elem_of_cons in Hin as [->|?]; [|done]. rewrite (Hk h x Hl) in El. congruence.
Qed.

(** A transaction is underpriced if it is remote and no live one is
    cheaper. *)
Lemma pl_Underpriced_spec all tx local l :
  pl_ok all [] l ->
  exists b l', pl_Underpriced all tx local l = Done (b, l') /\ pl_ok all [] l' /\
    (if b then as_containsTx tx local = false /\ (forall h x, all !! h = Some x -> tx_GasPrice tx <= tx_GasPrice x)
     else as_containsTx tx local = true \/ all = ∅ \/ exists x, is_live all x /\ tx_GasPrice x < tx_GasPrice tx).
Proof.
  intros Hok. unfold pl_Underpriced. destruct (as_containsTx tx local) eqn:Eloc; [exists false, l; auto|].
  destruct (pl_unstale_spec (length (pl_items l)) all [] l Hok) as (l' & -> & Hok' & Hlive); [lia|]. cbn [outcome_bind].
  pose proof Hok' as [Hh Hk Hc]. assert (Hin : forall h x, all !! h = Some x -> x ∈ pl_items l').
  { intros h x Hl. by destruct (Hc h x Hl) as [?|?%elem_of_nil]. }
  destruct (pl_items l') as [|x items] eqn:Ei; (eexists _, l'; split; [done|]); (split; [done|]).
  - right. left. apply map_empty. intros h. destruct (all !! h) as [y|] eqn:El; [|done]. by apply Hin, elem_of_nil in El.
  - destruct (Z.leb_spec (tx_GasPrice tx) (tx_GasPrice x)) as [Hle|Hlt].
    + split; [done|]. intros h y Hl. pose proof (heap_least price_less _ x Hh eq_refl y (Hin h y Hl)) as Hm.
      unfold price_less in Hm. bool_cases; try done; lia.
    + right. right. exists x. split; [by apply Hlive|lia].
Qed.

Lemma pl_Discard_loop_spec fuel all local : forall count l,
  heap_ok price_less (pl_items l) -> (length (pl_items l) <= fuel)%nat ->
  exists drop save l', pl_Discard_loop fuel all count local l = Done (drop, save, l') /\ popped all local l drop save l' /\
    Forall (fun x => as_containsTx x local = true) save /\ (pl_items l' = [] \/ Z.max 0 count = len drop) /\ len drop <= Z.max 0 count.
Proof.
  induction fuel as [|fuel IH]; intros count [items0 st] Hh Hf; cbn [pl_Discard_loop pl_items pl_stales] in *;
    (destruct items0 as [|x items0]; [exists [], [], (mkPriced [] st); split; [done|]; split; [by apply popped_none|]; split; [done|];
       split; [by left|unfold len; simpl; lia]|]);
    [simpl in Hf; lia|].
  destruct (Z.leb_spec count 0) as [Hle|Hgt].
  { eexists [], [], _. split; [done|]. split; [by apply popped_none|]. split; [done|]. unfold len. simpl. lia. }
  destruct (pop_round x items0 Hh) as (items & -> & Hh' & Hp & Hlen & Hmin). cbn [outcome_bind]. simpl in Hf.
  unfold lk_Get. destruct (all !! hash_of x) as [y|] eqn:El.
  - assert (Hx : is_live all x) by (by unfold is_live; rewrite El).
    destruct (as_containsTx x local) eqn:Eloc.
    + destruct (IH count (mkPriced items st) Hh') as (drop & save & l' & -> & Hpp & H1 & H2 & H3); [simpl; lia|].
      exists drop, (x :: save), l'. split; [done|]. split; [by apply (popped_save all local (mkPriced (x :: items0) st) x items st Hp)|]. split; [by constructor|done].
    + destruct (IH (count - 1) (mkPriced items st) Hh') as (drop & save & l' & -> & Hpp & H1 & H2 & H3); [simpl; lia|].
      exists (x :: drop), save, l'. split; [done|]. split; [by apply (popped_drop all local (mkPriced (x :: items0) st) x items st Hmin Hp)|]. split; [done|].
      rewrite len_cons. destruct H2; [auto with lia|]; split; [right|]; lia.
  - destruct (IH count (mkPriced items (st - 1)) Hh') as (drop & save & l' & -> & Hpp & H1 & H2 & H3); [simpl; lia|].
    exists drop, save, l'. split; [done|]. split; [|done]. apply (popped_stale all local (mkPriced (x :: items0) st) x items (st - 1) Hp); [|done].
    unfold is_live. rewrite El. by intros [? ?].
Qed.

(** [Discard] drops cheapest live remote transactions, and all of them if it
    drops fewer than asked. *)
Lemma pl_Discard_spec all count local l :
  pl_ok all [] l -> 0 <= count ->
  exists drop l', pl_Discard all count local l = Done (drop, l') /\ pl_ok all (map hash_of drop) l' /\
    Forall (fun x => is_live all x /\ as_containsTx x local = false) drop /\ len drop <= count /\
    (forall h tx, all !! h = Some tx -> as_containsTx tx local = false ->
       tx ∈ drop \/ len drop = count /\ forall x, x ∈ drop -> price_less tx x = false).
Proof.
  intros Hok Hcount. pose proof Hok as [Hh Hk Hc].
  destruct (pl_Discard_loop_spec (length (pl_items l)) all local count l Hh) as (drop & save & l' & E & Hpp & H1 & H2 & H3); [lia|].
  unfold pl_Discard. rewrite (proj2 (Z.ltb_ge count 0)), E by done. cbn [outcome_bind]. eexists drop, _. split; [done|].
  split; [by eapply popped_covers|]. pose proof Hpp as [_ (stale & Hp & Hs) Hd _ Hleast]. split; [done|]. split; [lia|].
  intros h tx Hl Hloc. assert (Hin : tx ∈ pl_items l) by (destruct (Hc h tx Hl) as [?|?%elem_of_nil]; done).
  rewrite Hp, !elem_of_app in Hin. rewrite Forall_forall in Hs, H1.
  destruct Hin as [Hin|[Hin|[Hin|Hin]]]; [by left|exfalso|exfalso|right].
  - specialize (H1 tx Hin). simpl in H1. congruence.
  - apply (Hs tx Hin). unfold is_live. by rewrite (Hk h tx Hl), Hl.
  - split; [destruct H2 as [H2|?]; [rewrite H2 in Hin; by apply elem_of_nil in Hin|lia]|]. intros x Hx. by apply Hleast.
Qed.
End PricedFacts.
