(* ===== verification/TxPool.v ===== *)
(** The transaction pool: core/tx_pool.go.

    The pool is a value that every operation returns anew; the lock makes the
    operations sequential.  A list in a map of the pool is replaced where the
    source changes it through its pointer.  Left out are the journal on disk,
    the event feed and the metrics.  Times are nanoseconds since the zero
    time; [now] is what [time.Now] returns.

    The states of the chain are used through the interface [PoolChain]. *)
From S2P Require Import Prelude BigMath Params Opcodes Machine Heap Vm StateTransition Transaction TxList TxPriced.

(** ** Interfaces *)

(** What the pool uses of [state.StateDB] and [state.ManagedState]. *)
Class PoolChain (S M : Type) := {
  pc_GetNonce : Address -> S -> Z * S;
  pc_GetBalance : Address -> S -> Z * S;
  pc_ManageState : S -> outcome M;
  pm_GetNonce : Address -> M -> Z * M;
  pm_SetNonce : Address -> Z -> M -> M
}.

(** What it uses of a block and a header. *)
Record poolBlock := mkPoolBlock {
  pb_Hash : Hash;
  pb_ParentHash : Hash;
  pb_Number : Z;
  pb_Root : Hash;
  pb_GasLimit : Z;
  pb_Transactions : list Transaction
}.

Record TxPoolConfig := mkTxPoolConfig {
  NoLocals : bool;
  Rejournal : Z;
  PriceLimit : Z;
  PriceBump : Z;
  AccountSlots : Z;
  GlobalSlots : Z;
  AccountQueue : Z;
  GlobalQueue : Z;
  Lifetime : Z
}.
Definition Second : Z := 1000000000.
Definition DefaultTxPoolConfig : TxPoolConfig :=
  {| NoLocals := false; Rejournal := 3600 * Second; PriceLimit := 1; PriceBump := 10; AccountSlots := 16;
     GlobalSlots := 4096; AccountQueue := 64; GlobalQueue := 1024; Lifetime := 3 * 3600 * Second |}.
Definition sanitize (config : TxPoolConfig) : TxPoolConfig :=
  {| NoLocals := NoLocals config;
     Rejournal := if Rejournal config <? Second then Second else Rejournal config;
     PriceLimit := if PriceLimit config <? 1 then PriceLimit DefaultTxPoolConfig else PriceLimit config;
     PriceBump := if PriceBump config <? 1 then PriceBump DefaultTxPoolConfig else PriceBump config;
     AccountSlots := AccountSlots config; GlobalSlots := GlobalSlots config; AccountQueue := AccountQueue config;
     GlobalQueue := GlobalQueue config; Lifetime := Lifetime config |}.

(** A natural number as a floating point number with [bits] bits of mantissa:
    the nearest one, with an even mantissa if there are two. *)
Definition round_float (bits n : Z) : Z :=
  let e := Z.log2 n + 1 - bits in
  if e <=? 0 then n
  else
    let m := n / 2 ^ e in
    let r := n mod 2 ^ e in
    let half := 2 ^ (e - 1) in
    if (half <? r) || ((half =? r) && Z.odd m) then (m + 1) * 2 ^ e else m * 2 ^ e.

Inductive poolError :=
| ErrInvalidSender | ErrPoolNonceTooLow | ErrUnderpriced | ErrReplaceUnderpriced | ErrInsufficientFunds
| ErrIntrinsicGas | ErrGasLimit | ErrNegativeValue | ErrOversizedData
| errKnown (hash : Hash)
| errPoolVm (err : vmError).

Inductive TxStatus := TxStatusUnknown | TxStatusQueued | TxStatusPending | TxStatusIncluded.

Section TxPool.
Context {S M : Type} `{PC : PoolChain S M} `{CR : Crypto} `{RO : RangeOrder} `{SO : SortOrder}.

Record TxPool := mkTxPool {
  tp_config : TxPoolConfig;
  tp_gasPrice : Z;
  tp_signer : Signer;
  tp_currentState : S;
  tp_pendingState : M;
  tp_currentMaxGas : Z;
  tp_locals : accountSet;
  tp_pending : gmap Address txList;
  tp_queue : gmap Address txList;
  tp_beats : gmap Address Z;
  tp_all : gmap Hash Transaction;
  tp_priced : txPricedList;
  tp_homestead : bool
}.
Implicit Types pool : TxPool.

Definition tp_set_states (s : S) (m : M) (gas : Z) pool : TxPool :=
  mkTxPool (tp_config pool) (tp_gasPrice pool) (tp_signer pool) s m gas (tp_locals pool) (tp_pending pool) (tp_queue pool)
    (tp_beats pool) (tp_all pool) (tp_priced pool) (tp_homestead pool).
Definition tp_set_current (s : S) pool : TxPool := tp_set_states s (tp_pendingState pool) (tp_currentMaxGas pool) pool.
Definition tp_set_managed (m : M) pool : TxPool := tp_set_states (tp_currentState pool) m (tp_currentMaxGas pool) pool.
Definition tp_set_gasPrice (p : Z) pool : TxPool :=
  mkTxPool (tp_config pool) p (tp_signer pool) (tp_currentState pool) (tp_pendingState pool) (tp_currentMaxGas pool)
    (tp_locals pool) (tp_pending pool) (tp_queue pool) (tp_beats pool) (tp_all pool) (tp_priced pool) (tp_homestead pool).
Definition tp_set_homestead (b : bool) pool : TxPool :=
  mkTxPool (tp_config pool) (tp_gasPrice pool) (tp_signer pool) (tp_currentState pool) (tp_pendingState pool)
    (tp_currentMaxGas pool) (tp_locals pool) (tp_pending pool) (tp_queue pool) (tp_beats pool) (tp_all pool) (tp_priced pool) b.
Definition tp_set_locals (l : accountSet) pool : TxPool :=
  mkTxPool (tp_config pool) (tp_gasPrice pool) (tp_signer pool) (tp_currentState pool) (tp_pendingState pool)
    (tp_currentMaxGas pool) l (tp_pending pool) (tp_queue pool) (tp_beats pool) (tp_all pool) (tp_priced pool) (tp_homestead pool).
Definition tp_set_lists (pending queue : gmap Address txList) (beats : gmap Address Z) pool : TxPool :=
  mkTxPool (tp_config pool) (tp_gasPrice pool) (tp_signer pool) (tp_currentState pool) (tp_pendingState pool)
    (tp_currentMaxGas pool) (tp_locals pool) pending queue beats (tp_all pool) (tp_priced pool) (tp_homestead pool).
Definition tp_set_pending (p : gmap Address txList) pool : TxPool := tp_set_lists p (tp_queue pool) (tp_beats pool) pool.
Definition tp_set_queue (q : gmap Address txList) pool : TxPool := tp_set_lists (tp_pending pool) q (tp_beats pool) pool.
Definition tp_set_beats (b : gmap Address Z) pool : TxPool := tp_set_lists (tp_pending pool) (tp_queue pool) b pool.
Definition tp_set_all (all : gmap Hash Transaction) (priced : txPricedList) pool : TxPool :=
  mkTxPool (tp_config pool) (tp_gasPrice pool) (tp_signer pool) (tp_currentState pool) (tp_pendingState pool)
    (tp_currentMaxGas pool) (tp_locals pool) (tp_pending pool) (tp_queue pool) (tp_beats pool) all priced (tp_homestead pool).

(** Runs [f] on the elements in order. *)
Fixpoint for_each {A} (f : A -> TxPool -> outcome TxPool) (l : list A) pool : outcome TxPool :=
  match l with
  | [] => Done pool
  | x :: l => let* pool := f x pool in for_each f l pool
  end.

(** [pool.all.Remove] and [pool.priced.Removed] one after the other. *)
Definition forget_tx (hash : Hash) pool : TxPool :=
  let all := lk_Remove hash (tp_all pool) in tp_set_all all (pl_Removed all (tp_priced pool)) pool.
(** [pool.all.Add] and [pool.priced.Put]. *)
Definition remember_tx (tx : Transaction) pool : TxPool :=
  tp_set_all (lk_Add tx (tp_all pool)) (pl_Put tx (tp_priced pool)) pool.

Definition current_nonce (addr : Address) pool : Z * TxPool :=
  let '(n, s) := pc_GetNonce addr (tp_currentState pool) in (n, tp_set_current s pool).
Definition current_balance (addr : Address) pool : Z * TxPool :=
  let '(n, s) := pc_GetBalance addr (tp_currentState pool) in (n, tp_set_current s pool).
Definition pending_nonce (addr : Address) pool : Z * TxPool :=
  let '(n, m) := pm_GetNonce addr (tp_pendingState pool) in (n, tp_set_managed m pool).
Definition set_pending_nonce (addr : Address) (n : Z) pool : TxPool :=
  tp_set_managed (pm_SetNonce addr n (tp_pendingState pool)) pool.

(** ** Validation *)

Definition validateTx (tx : Transaction) (local : bool) pool : option poolError * TxPool :=
  if 32 * 1024 <? size_of tx then (Some ErrOversizedData, pool)
  else if td_Amount (tx_data tx) <? 0 then (Some ErrNegativeValue, pool)
  else if tp_currentMaxGas pool <? tx_Gas tx then (Some ErrGasLimit, pool)
  else
    match sender_of (tp_signer pool) tx with
    | inl _ => (Some ErrInvalidSender, pool)
    | inr from =>
        let local := local || as_contains from (tp_locals pool) in
        if negb local && (tx_GasPrice tx <? tp_gasPrice pool) then (Some ErrUnderpriced, pool)
        else
          let '(nonce, pool) := current_nonce from pool in
          if tx_Nonce tx <? nonce then (Some ErrPoolNonceTooLow, pool)
          else
            let '(balance, pool) := current_balance from pool in
            if balance <? tx_Cost tx then (Some ErrInsufficientFunds, pool)
            else
              match IntrinsicGas (td_Payload (tx_data tx)) (bool_decide (td_Recipient (tx_data tx) = None)) (tp_homestead pool) with
              | inl err => (Some (errPoolVm err), pool)
              | inr intrGas => if tx_Gas tx <? intrGas then (Some ErrIntrinsicGas, pool) else (None, pool)
              end
    end.

(** ** Moving transactions between the lists *)

Definition enqueueTx (hash : Hash) (tx : Transaction) pool : (poolError + bool) * TxPool :=
  let from := from_of (tp_signer pool) tx in
  let list := default (newTxList false) (tp_queue pool !! from) in
  let '(inserted, old, list) := tl_Add tx (PriceBump (tp_config pool)) list in
  let pool := tp_set_queue (<[from := list]> (tp_queue pool)) pool in
  if negb inserted then (inl ErrReplaceUnderpriced, pool)
  else
    let pool := match old with Some old => forget_tx (hash_of old) pool | None => pool end in
    let pool := match lk_Get hash (tp_all pool) with None => remember_tx tx pool | Some _ => pool end in
    (inr (match old with Some _ => true | None => false end), pool).

Definition promoteTx (now : Z) (addr : Address) (hash : Hash) (tx : Transaction) pool : bool * TxPool :=
  let list := default (newTxList true) (tp_pending pool !! addr) in
  let '(inserted, old, list) := tl_Add tx (PriceBump (tp_config pool)) list in
  let pool := tp_set_pending (<[addr := list]> (tp_pending pool)) pool in
  if negb inserted then (false, forget_tx hash pool)
  else
    let pool := match old with Some old => forget_tx (hash_of old) pool | None => pool end in
    let pool := match lk_Get hash (tp_all pool) with None => remember_tx tx pool | Some _ => pool end in
    let pool := tp_set_beats (<[addr := now]> (tp_beats pool)) pool in
    (true, set_pending_nonce addr (u64 (tx_Nonce tx + 1)) pool).

(** Lowers the nonce of an account to that of a dropped transaction. *)
Definition lower_nonce (addr : Address) (nonce : Z) pool : TxPool :=
  let '(n, pool) := pending_nonce addr pool in
  if nonce <? n then set_pending_nonce addr nonce pool else pool.

Definition requeue (tx : Transaction) pool : outcome TxPool := Done (enqueueTx (hash_of tx) tx pool).2.

(** The part of [removeTx] for the future queue. *)
Definition remove_queued (addr : Address) (tx : Transaction) pool : outcome TxPool :=
  match tp_queue pool !! addr with
  | None => Done pool
  | Some future =>
      let* r := tl_Remove tx future in
      let future := r.2 in
      Done (tp_set_queue (if tl_Empty future then delete addr (tp_queue pool) else <[addr := future]> (tp_queue pool)) pool)
  end.

Definition removeTx (hash : Hash) (outofbound : bool) pool : outcome TxPool :=
  match lk_Get hash (tp_all pool) with
  | None => Done pool
  | Some tx =>
      let addr := from_of (tp_signer pool) tx in
      let pool :=
        if outofbound then forget_tx hash pool else tp_set_all (lk_Remove hash (tp_all pool)) (tp_priced pool) pool in
      match tp_pending pool !! addr with
      | None => remove_queued addr tx pool
      | Some pending =>
          let* r := tl_Remove tx pending in
          let '(removed, invalids, pending) := r in
          if negb removed then remove_queued addr tx (tp_set_pending (<[addr := pending]> (tp_pending pool)) pool)
          else
            let pool :=
              if tl_Empty pending
              then tp_set_lists (delete addr (tp_pending pool)) (tp_queue pool) (delete addr (tp_beats pool)) pool
              else tp_set_pending (<[addr := pending]> (tp_pending pool)) pool in
            let* pool := for_each requeue invalids pool in
            Done (lower_nonce addr (tx_Nonce tx) pool)
      end
  end.

Definition remove_hash (outofbound : bool) (tx : Transaction) pool : outcome TxPool := removeTx (hash_of tx) outofbound pool.
Definition forget (tx : Transaction) pool : outcome TxPool := Done (forget_tx (hash_of tx) pool).

(** ** Promotion *)

Fixpoint promote_all (now : Z) (addr : Address) (txs : list Transaction) pool : TxPool :=
  match txs with
  | [] => pool
  | tx :: txs => promote_all now addr txs (promoteTx now addr (hash_of tx) tx pool).2
  end.

(** One account of [promoteExecutables].  [int] of the limit is negative from
    [2^63] on. *)
Definition promote_account (now : Z) (addr : Address) pool : outcome TxPool :=
  match tp_queue pool !! addr with
  | None => Done pool
  | Some list =>
      let '(nonce, pool) := current_nonce addr pool in
      let* r := tl_Forward nonce list in
      let '(olds, list) := r in
      let* pool := for_each forget olds pool in
      let '(balance, pool) := current_balance addr pool in
      let '(drops, _, list) := tl_Filter balance (tp_currentMaxGas pool) list in
      let* pool := for_each forget drops pool in
      let '(start, pool) := pending_nonce addr pool in
      let* r := tl_Ready start list in
      let '(ready, list) := r in
      let pool := promote_all now addr ready pool in
      let* r :=
        (if as_contains addr (tp_locals pool) then Done ([], list)
         else tl_Cap (int64_of (AccountQueue (tp_config pool))) list) in
      let '(capped, list) := r in
      let* pool := for_each forget capped pool in
      Done (tp_set_queue (if tl_Empty list then delete addr (tp_queue pool) else <[addr := list]> (tp_queue pool)) pool)
  end.

(** The number of transactions in lists. *)
Definition count_txs (m : gmap Address txList) : Z := foldr (fun kv n => tl_Len kv.2 + n) 0 (map_to_list m).

(** Takes the last transaction of an account off its pending list. *)
Definition cap_offender (addr : Address) pool : outcome TxPool :=
  match tp_pending pool !! addr with
  | None => GoPanic
  | Some list =>
      let* r := tl_Cap (tl_Len list - 1) list in
      let '(drops, list) := r in
      let pool := tp_set_pending (<[addr := list]> (tp_pending pool)) pool in
      for_each (fun tx pool => Done (lower_nonce addr (tx_Nonce tx) (forget_tx (hash_of tx) pool))) drops pool
  end.

Definition pending_len (addr : Address) pool : outcome Z :=
  match tp_pending pool !! addr with None => GoPanic | Some l => Done (tl_Len l) end.

(** Rounds in which every offender loses a transaction, while there are too
    many and [last] has more than [limit].  Every round takes at least one of
    the [pending] ones. *)
Fixpoint cap_rounds (fuel : nat) (offenders : list Address) (last : Address) (limit pending : Z) pool : outcome (Z * TxPool) :=
  if GlobalSlots (tp_config pool) <? pending then
    let* n := pending_len last pool in
    if limit <? n then
      match fuel with
      | O => NoFuel
      | Datatypes.S fuel =>
          let* pool := for_each cap_offender offenders pool in
          cap_rounds fuel offenders last limit (u64 (pending - len offenders)) pool
      end
    else Done (pending, pool)
  else Done (pending, pool).

(** Spammers join the offenders one by one, who are cut down to the size of
    the new one. *)
Fixpoint spam_rounds (fuel : nat) (spammers : prque Address) (offenders : list Address) (pending : Z) pool
  : outcome (list Address * Z * TxPool) :=
  if (GlobalSlots (tp_config pool) <? pending) && negb (prque_Empty spammers) then
    match fuel with
    | O => NoFuel
    | Datatypes.S fuel =>
        let* p := prque_Pop spammers in
        let '(offender, spammers) := p in
        match last offenders with
        | None => spam_rounds fuel spammers (offenders ++ [offender]) pending pool
        | Some prev =>
            let* threshold := pending_len offender pool in
            let* r := cap_rounds (Z.to_nat pending) offenders prev threshold pending pool in
            let '(pending, pool) := r in
            spam_rounds fuel spammers (offenders ++ [offender]) pending pool
        end
    end
  else Done (offenders, pending, pool).

Definition truncate_pending pool : outcome TxPool :=
  let pending := count_txs (tp_pending pool) in
  if GlobalSlots (tp_config pool) <? pending then
    let spammers :=
      foldl (fun q kv => if negb (as_contains kv.1 (tp_locals pool)) && (AccountSlots (tp_config pool) <? tl_Len kv.2)
                         then prque_Push kv.1 (round_float 24 (tl_Len kv.2)) q else q) [] (range (tp_pending pool)) in
    let* r := spam_rounds (length spammers) spammers [] pending pool in
    let '(offenders, pending, pool) := r in
    match last offenders with
    | None => Done pool
    | Some addr =>
        if GlobalSlots (tp_config pool) <? pending then
          let* r := cap_rounds (Z.to_nat pending) offenders addr (AccountSlots (tp_config pool)) pending pool in Done r.2
        else Done pool
    end
  else Done pool.

(** Transactions from the end of a list, which is given reversed, with what
    is left to drop. *)
Fixpoint drop_last_txs (drop : Z) (txs : list Transaction) pool : outcome (Z * TxPool) :=
  match txs with
  | [] => Done (drop, pool)
  | tx :: txs =>
      if 0 <? drop then
        let* pool := remove_hash true tx pool in drop_last_txs (drop - 1) txs pool
      else Done (drop, pool)
  end.
(** The addresses come from the end of the slice. *)
Fixpoint drop_queued (drop : Z) (addresses : list (Address * Z)) pool : outcome TxPool :=
  match addresses with
  | [] => Done pool
  | addr :: addresses =>
      if 0 <? drop then
        match tp_queue pool !! addr.1 with
        | None => GoPanic
        | Some list =>
            let size := tl_Len list in
            let '(txs, list) := tl_Flatten list in
            let pool := tp_set_queue (<[addr.1 := list]> (tp_queue pool)) pool in
            if size <=? drop then
              let* pool := for_each (remove_hash true) txs pool in drop_queued (u64 (drop - size)) addresses pool
            else
              let* r := drop_last_txs drop (rev txs) pool in
              drop_queued r.1 addresses r.2
        end
      else Done pool
  end.
Definition heartbeat_less (x y : Address * Z) : bool := x.2 <? y.2.
Definition truncate_queue pool : outcome TxPool :=
  let queued := count_txs (tp_queue pool) in
  if GlobalQueue (tp_config pool) <? queued then
    let addresses := filter (fun ab => as_contains ab.1 (tp_locals pool) = false)
                       (map (fun kv => (kv.1, default 0 (tp_beats pool !! kv.1))) (range (tp_queue pool))) in
    drop_queued (queued - GlobalQueue (tp_config pool)) (rev (go_sort heartbeat_less addresses)) pool
  else Done pool.

(** [None] stands for all accounts with queued transactions. *)
Definition promoteExecutables (now : Z) (accounts : option (list Address)) pool : outcome TxPool :=
  let accounts := default (map fst (range (tp_queue pool))) accounts in
  let* pool := for_each (promote_account now) accounts pool in
  let* pool := truncate_pending pool in
  truncate_queue pool.

(** ** Demotion *)

Definition demote_account (addr : Address) (list : txList) pool : outcome TxPool :=
  let '(nonce, pool) := current_nonce addr pool in
  let* r := tl_Forward nonce list in
  let '(olds, list) := r in
  let* pool := for_each forget olds pool in
  let '(balance, pool) := current_balance addr pool in
  let '(drops, invalids, list) := tl_Filter balance (tp_currentMaxGas pool) list in
  let* pool := for_each forget drops pool in
  let* pool := for_each requeue invalids pool in
  let* r :=
    (if (0 <? tl_Len list) && match sm_Get nonce (tl_txs list) with None => true | Some _ => false end
     then tl_Cap 0 list else Done ([], list)) in
  let '(gapped, list) := r in
  let* pool := for_each requeue gapped pool in
  Done (if tl_Empty list
        then tp_set_lists (delete addr (tp_pending pool)) (tp_queue pool) (delete addr (tp_beats pool)) pool
        else tp_set_pending (<[addr := list]> (tp_pending pool)) pool).

(** The loop takes the lists as they are when it comes to them; none is
    changed before. *)
Definition demoteUnexecutables pool : outcome TxPool :=
  for_each (fun addr pool =>
    match tp_pending pool !! addr with None => Done pool | Some list => demote_account addr list pool end)
    (map fst (range (tp_pending pool))) pool.

(** ** Adding *)

(** Room for a new transaction in a full pool. *)
Definition make_room (tx : Transaction) (local : bool) pool : outcome (bool * TxPool) :=
  let limit := u64 (GlobalSlots (tp_config pool) + GlobalQueue (tp_config pool)) in
  if limit <=? lk_Count (tp_all pool) then
    let* r := (if local then Done (false, tp_priced pool) else pl_Underpriced (tp_all pool) tx (tp_locals pool) (tp_priced pool)) in
    let '(underpriced, priced) := r in
    let pool := tp_set_all (tp_all pool) priced pool in
    if underpriced then Done (false, pool)
    else
      let* r := pl_Discard (tp_all pool) (lk_Count (tp_all pool) - int64_of (u64 (limit - 1))) (tp_locals pool) (tp_priced pool) in
      let '(drop, priced) := r in
      let* pool := for_each (remove_hash false) drop (tp_set_all (tp_all pool) priced pool) in
      Done (true, pool)
  else Done (true, pool).

(** Replacing a pending transaction. *)
Definition replace_pending (from : Address) (list : txList) (tx : Transaction) pool : (poolError + bool) * TxPool :=
  let '(inserted, old, list) := tl_Add tx (PriceBump (tp_config pool)) list in
  if negb inserted then (inl ErrReplaceUnderpriced, pool)
  else
    let pool := tp_set_pending (<[from := list]> (tp_pending pool)) pool in
    let pool := match old with Some old => forget_tx (hash_of old) pool | None => pool end in
    (inr (match old with Some _ => true | None => false end), remember_tx tx pool).

Definition add (tx : Transaction) (local : bool) pool : outcome ((poolError + bool) * TxPool) :=
  let hash := hash_of tx in
  match lk_Get hash (tp_all pool) with
  | Some _ => Done (inl (errKnown hash), pool)
  | None =>
      let '(err, pool) := validateTx tx local pool in
      match err with
      | Some err => Done (inl err, pool)
      | None =>
          let* r := make_room tx local pool in
          let '(accepted, pool) := r in
          if negb accepted then Done (inl ErrUnderpriced, pool)
          else
            let from := from_of (tp_signer pool) tx in
            let enqueue :=
              let '(r, pool) := enqueueTx hash tx pool in
              match r with
              | inl err => Done (inl err, pool)
              | inr replace =>
                  Done (inr replace, if local then tp_set_locals (as_add from (tp_locals pool)) pool else pool)
              end in
            match tp_pending pool !! from with
            | Some list => if tl_Overlaps tx list then Done (replace_pending from list tx pool) else enqueue
            | None => enqueue
            end
      end
  end.

Definition addTx (now : Z) (tx : Transaction) (local : bool) pool : outcome (option poolError * TxPool) :=
  let* r := add tx local pool in
  match r with
  | (inl err, pool) => Done (Some err, pool)
  | (inr true, pool) => Done (None, pool)
  | (inr false, pool) =>
      let* pool := promoteExecutables now (Some [from_of (tp_signer pool) tx]) pool in Done (None, pool)
  end.

(** Errors, and the accounts with new transactions. *)
Fixpoint add_each (txs : list Transaction) (local : bool) (dirty : gset Address) pool
  : outcome (list (option poolError) * gset Address * TxPool) :=
  match txs with
  | [] => Done ([], dirty, pool)
  | tx :: txs =>
      let* r := add tx local pool in
      let '(err, dirty, pool) :=
        match r with
        | (inl err, pool) => (Some err, dirty, pool)
        | (inr true, pool) => (None, dirty, pool)
        | (inr false, pool) => (None, {[from_of (tp_signer pool) tx]} ∪ dirty, pool)
        end in
      let* r := add_each txs local dirty pool in
      let '(errs, dirty, pool) := r in Done (err :: errs, dirty, pool)
  end.
Definition addTxsLocked (now : Z) (txs : list Transaction) (local : bool) pool : outcome (list (option poolError) * TxPool) :=
  let* r := add_each txs local ∅ pool in
  let '(errs, dirty, pool) := r in
  if decide (dirty = ∅) then Done (errs, pool)
  else
    let addrs := map fst (range (gset_to_gmap tt dirty)) in
    let* pool := promoteExecutables now (Some addrs) pool in Done (errs, pool).

Definition AddLocal (now : Z) (tx : Transaction) pool := addTx now tx (negb (NoLocals (tp_config pool))) pool.
Definition AddRemote (now : Z) (tx : Transaction) pool := addTx now tx false pool.
Definition AddLocals (now : Z) (txs : list Transaction) pool := addTxsLocked now txs (negb (NoLocals (tp_config pool))) pool.
Definition AddRemotes (now : Z) (txs : list Transaction) pool := addTxsLocked now txs false pool.

Definition SetGasPrice (price : Z) pool : outcome TxPool :=
  let pool := tp_set_gasPrice price pool in
  let* r := pl_Cap (tp_all pool) price (tp_locals pool) (tp_priced pool) in
  let '(drop, priced) := r in
  for_each (remove_hash false) drop (tp_set_all (tp_all pool) priced pool).

(** The eviction of [loop]: transactions of accounts without a recent
    heartbeat.  A duration does not exceed [2^63 - 1]. *)
Definition time_Since (now t : Z) : Z := Z.min (now - t) (2 ^ 63 - 1).
Definition evict_account (now : Z) (addr : Address) pool : outcome TxPool :=
  if as_contains addr (tp_locals pool) then Done pool
  else if Lifetime (tp_config pool) <? time_Since now (default 0 (tp_beats pool !! addr)) then
    match tp_queue pool !! addr with
    | None => Done pool
    | Some list =>
        let '(txs, list) := tl_Flatten list in
        for_each (remove_hash true) txs (tp_set_queue (<[addr := list]> (tp_queue pool)) pool)
    end
  else Done pool.
Definition evict (now : Z) pool : outcome TxPool := for_each (evict_account now) (map fst (range (tp_queue pool))) pool.

(** ** New heads *)

(** The chain behind the pool at some moment. *)
Record poolChain := mkPoolChain {
  bc_CurrentBlock : poolBlock;
  bc_GetBlock : Hash -> Z -> option poolBlock;
  bc_StateAt : Hash -> option S
}.
Implicit Types chain : poolChain.

Definition parent_block chain (b : poolBlock) : option poolBlock :=
  bc_GetBlock chain (pb_ParentHash b) (u64 (pb_Number b - 1)).

(** Transactions of the blocks from [b] down to the number [n], and the
    block there; none if a parent is missing. *)
Fixpoint descend (fuel : nat) chain (n : Z) (txs : list Transaction) (b : poolBlock)
  : outcome (option (list Transaction * poolBlock)) :=
  if n <? pb_Number b then
    match fuel with
    | O => NoFuel
    | Datatypes.S fuel =>
        match parent_block chain b with
        | None => Done None
        | Some p => descend fuel chain n (txs ++ pb_Transactions b) p
        end
    end
  else Done (Some (txs, b)).
(** Both chains down to the common ancestor. *)
Fixpoint join (fuel : nat) chain (discarded included : list Transaction) (rem add : poolBlock)
  : outcome (option (list Transaction * list Transaction)) :=
  if decide (pb_Hash rem = pb_Hash add) then Done (Some (discarded, included))
  else
    match fuel with
    | O => NoFuel
    | Datatypes.S fuel =>
        match parent_block chain rem with
        | None => Done None
        | Some rem' =>
            match parent_block chain add with
            | None => Done None
            | Some add' =>
                join fuel chain (discarded ++ pb_Transactions rem) (included ++ pb_Transactions add) rem' add'
            end
        end
    end.
(** A number is read as a [uint64]; the distance is computed in floating
    point.  Each block has a lower number than the one before. *)
Definition reorg_depth (old new : Z) : Z := round_float 53 (Z.abs (round_float 53 old - round_float 53 new)).
Definition reorg_fuel (b : poolBlock) : nat := Z.to_nat (pb_Number b + 1).
(** Transactions to inject again; none if a chain has no root. *)
Definition reorg chain (oldHead newHead : poolBlock) : outcome (option (list Transaction)) :=
  if 64 <? reorg_depth (pb_Number oldHead) (pb_Number newHead) then Done (Some [])
  else
    match bc_GetBlock chain (pb_Hash oldHead) (pb_Number oldHead), bc_GetBlock chain (pb_Hash newHead) (pb_Number newHead) with
    | Some rem, Some add =>
        let* r := descend (reorg_fuel rem) chain (pb_Number add) [] rem in
        match r with
        | None => Done None
        | Some (discarded, rem) =>
            let* r := descend (reorg_fuel add) chain (pb_Number rem) [] add in
            match r with
            | None => Done None
            | Some (included, add) =>
                let* r := join (reorg_fuel rem) chain discarded included rem add in
                match r with
                | None => Done None
                | Some (discarded, included) => let* txs := TxDifference discarded included in Done (Some txs)
                end
            end
        end
    | _, _ => GoPanic
    end.
Definition reinjected chain (oldHead newHead : option poolBlock) : outcome (option (list Transaction)) :=
  match oldHead with
  | None => Done (Some [])
  | Some old =>
      match newHead with
      | None => GoPanic
      | Some new => if decide (pb_Hash old = pb_ParentHash new) then Done (Some []) else reorg chain old new
      end
  end.

(** The nonce after the last pending transaction of an account. *)
Definition update_nonce (addr : Address) pool : outcome TxPool :=
  match tp_pending pool !! addr with
  | None => Done pool
  | Some list =>
      let '(txs, list) := tl_Flatten list in
      let pool := tp_set_pending (<[addr := list]> (tp_pending pool)) pool in
      let* tx := index txs (len txs - 1) in
      Done (set_pending_nonce addr (u64 (tx_Nonce tx + 1)) pool)
  end.

(** The second half of [reset], from the state of the new head on. *)
Definition reset_to (now : Z) (statedb : S) (gasLimit : Z) (reinject : list Transaction) pool : outcome TxPool :=
  let* m := pc_ManageState statedb in
  let pool := tp_set_states statedb m gasLimit pool in
  let* r := addTxsLocked now reinject false pool in
  let* pool := demoteUnexecutables r.2 in
  let* pool := for_each update_nonce (map fst (range (tp_pending pool))) pool in
  promoteExecutables now None pool.
Definition reset (now : Z) chain (oldHead newHead : option poolBlock) pool : outcome TxPool :=
  let* r := reinjected chain oldHead newHead in
  match r with
  | None => Done pool
  | Some reinject =>
      let newHead := default (bc_CurrentBlock chain) newHead in
      match bc_StateAt chain (pb_Root newHead) with
      | None => Done pool
      | Some statedb => reset_to now statedb (pb_GasLimit newHead) reinject pool
      end
  end.

(** A [ChainHeadEvent] in [loop], whose head is the pool's previous one. *)
Definition new_head (now : Z) (chainconfig : ChainConfig) chain (head block : poolBlock) pool : outcome TxPool :=
  let pool := if IsHomestead chainconfig (pb_Number block) then tp_set_homestead true pool else pool in
  reset now chain (Some head) (Some block) pool.

(** The pool of a chain.  If the state of its head is not available, the code
    logs an error and goes on with a pool whose states are nil, on which the
    first operation that looks at an account panics; the model has no such
    pool and gives none.  The first head is not tested for Homestead. *)
Definition empty_pool (config : TxPoolConfig) (chainconfig : ChainConfig) (statedb : S) (m : M) (gasLimit : Z) : TxPool :=
  let config := sanitize config in
  let signer := NewEIP155Signer (ChainId chainconfig) in
  {| tp_config := config; tp_gasPrice := PriceLimit config; tp_signer := signer; tp_currentState := statedb;
     tp_pendingState := m; tp_currentMaxGas := gasLimit; tp_locals := newAccountSet signer;
     tp_pending := ∅; tp_queue := ∅; tp_beats := ∅; tp_all := ∅; tp_priced := newTxPricedList; tp_homestead := false |}.
Definition NewTxPool (now : Z) (config : TxPoolConfig) (chainconfig : ChainConfig) chain : outcome (option TxPool) :=
  let header := bc_CurrentBlock chain in
  match bc_StateAt chain (pb_Root header) with
  | None => Done None
  | Some statedb =>
      let* m := pc_ManageState statedb in
      let pool := empty_pool config chainconfig statedb m (pb_GasLimit header) in
      let* pool := reset now chain None (Some header) pool in Done (Some pool)
  end.

(** ** Queries *)

Definition stats pool : Z * Z := (count_txs (tp_pending pool), count_txs (tp_queue pool)).

Definition tx_status pool (hash : Hash) : TxStatus :=
  match lk_Get hash (tp_all pool) with
  | None => TxStatusUnknown
  | Some tx =>
      match tp_pending pool !! from_of (tp_signer pool) tx with
      | Some list => match sm_Get (tx_Nonce tx) (tl_txs list) with Some _ => TxStatusPending | None => TxStatusQueued end
      | None => TxStatusQueued
      end
  end.
Definition Status (hashes : list Hash) pool : list TxStatus := map (tx_status pool) hashes.
Definition Get (hash : Hash) pool : option Transaction := lk_Get hash (tp_all pool).

(** Flattening fills the caches of the lists. *)
Definition flatten_lists (m : gmap Address txList) : gmap Address (list Transaction) := (fun l => (tl_Flatten l).1) <$> m.
Definition flattened (m : gmap Address txList) : gmap Address txList := (fun l => (tl_Flatten l).2) <$> m.
Definition Pending pool : gmap Address (list Transaction) * TxPool :=
  (flatten_lists (tp_pending pool), tp_set_pending (flattened (tp_pending pool)) pool).
Definition Content pool : gmap Address (list Transaction) * gmap Address (list Transaction) * TxPool :=
  (flatten_lists (tp_pending pool), flatten_lists (tp_queue pool),
   tp_set_lists (flattened (tp_pending pool)) (flattened (tp_queue pool)) (tp_beats pool) pool).
(** The transactions of the local accounts. *)
Definition local_txs pool (addr : Address) : list Transaction :=
  default [] (flatten_lists (tp_pending pool) !! addr) ++ default [] (flatten_lists (tp_queue pool) !! addr).
End TxPool.
