(* ===== verification/PoolInv.v ===== *)
(** The invariant of the transaction pool: every transaction in one slot of one
    list; and the steps that move transactions. *)
From S2P Require Import Prelude BigMath Params Machine Vm StateTransition Transaction Heap TxList TxListFacts.
From S2P Require Import TxPriced PricedFacts TxPool.

(** Where the transactions of the pool are.

    A slot is an account and a nonce.  The pool has two places for a slot: the
    pending list ([true]) and the queue ([false]) of the account.
    Transactions on their way from one place to another float. *)

Abbreviation slot := (Address * Z)%type.

Section Placed.
Context `{CR : Crypto} (signer : Signer).
Implicit Types (w : bool -> slot -> option Transaction) (F R : list Transaction) (all : gmap Hash Transaction).
Implicit Types (b : bool) (s : slot) (tx : Transaction).

Definition slot_of tx : slot := (from_of signer tx, tx_Nonce tx).

Record placed w F all : Prop := {
  c_slot : forall b s tx, w b s = Some tx -> slot_of tx = s;
  c_disj : forall s tx, w true s = Some tx -> w false s = None;
  c_free : forall tx, tx ∈ F -> forall b, w b (slot_of tx) = None;
  c_nodup : NoDup (map slot_of F);
  c_all : forall h tx, all !! h = Some tx <-> h = hash_of tx /\ (tx ∈ F \/ exists b, w b (slot_of tx) = Some tx)
}.

Lemma placed_empty w : (forall b s, w b s = None) -> placed w [] ∅.
Proof.
  intros H. split; [intros; congruence|intros; congruence|by intros tx ?%elem_of_nil|constructor|].
  intros h tx. rewrite lookup_empty. split; [done|]. intros (_ & [?%elem_of_nil|[b Hb]]); [done|congruence].
Qed.

Lemma placed_ext w w' F F' all : (forall b s, w' b s = w b s) -> F' ≡ₚ F -> placed w F all -> placed w' F' all.
Proof.
  intros Hw HF [H1 H2 H3 H4 H5]. split.
  - intros b s tx. rewrite Hw. apply H1.
  - intros s tx. rewrite !Hw. apply H2.
  - intros tx. rewrite HF. intros Htx b. rewrite Hw. by apply H3.
  - by rewrite HF.
  - intros h tx. rewrite H5, HF. setoid_rewrite Hw. done.
Qed.

Lemma placed_known w F all tx : placed w F all -> (tx ∈ F \/ exists b, w b (slot_of tx) = Some tx) -> all !! hash_of tx = Some tx.
Proof. intros Hc H. by apply (c_all _ _ _ Hc). Qed.
Lemma placed_hash w F all h tx : placed w F all -> all !! h = Some tx -> h = hash_of tx.
Proof. intros Hc H. by apply (c_all _ _ _ Hc) in H as [-> _]. Qed.

(** A floating transaction is forgotten. *)
Lemma placed_forget w F all tx : placed w (tx :: F) all -> placed w F (delete (hash_of tx) all).
Proof.
  intros Hc. pose proof Hc as [H1 H2 H3 H4 H5]. simpl in H4. apply NoDup_cons in H4 as [Hn H4].
  split; [done|done|intros x Hx; apply H3; by right|done|]. intros h x. rewrite lookup_delete_Some, H5. split.
  - intros (Hne & -> & [[->|Hx]%elem_of_cons|Hx]); [done|auto|auto].
  - intros (-> & Hx). assert (Hx' : x ∈ tx :: F \/ exists b, w b (slot_of x) = Some x) by (destruct Hx; [left; by right|by right]).
    split; [|by split]. intros E.
    assert (Some x = Some tx) as [= ->].
    { rewrite <-(placed_known _ _ _ x Hc Hx'), <-(placed_known _ _ _ tx Hc) by (left; by left). by rewrite E. }
    destruct Hx as [Hx|[b Hb]]; [apply Hn, list_elem_of_fmap; by exists tx|]. rewrite H3 in Hb by (by left). done.
Qed.

(** A new transaction comes in. *)
Lemma placed_float w F all tx :
  placed w F all -> all !! hash_of tx = None -> (forall b, w b (slot_of tx) = None) -> slot_of tx ∉ map slot_of F ->
  placed w (tx :: F) (<[hash_of tx := tx]> all).
Proof.
  intros [H1 H2 H3 H4 H5] Hnew Hfree Hnin. split; [done|done| |by apply NoDup_cons|].
  - intros x [->|Hx]%elem_of_cons; [done|by apply H3].
  - intros h x. rewrite lookup_insert_Some, H5, elem_of_cons. split; [naive_solver|].
    intros (-> & [[->|Hx]|Hx]); [by left| |]; right; (split; [|by split; auto]); intros E;
      assert (Hk : all !! hash_of x = Some x) by (apply H5; auto); rewrite <-E in Hk; congruence.
Qed.

(** A floating transaction gets its place. *)
Lemma placed_put b w w' F all tx :
  placed w (tx :: F) all ->
  (forall b' s, w' b' s = if decide (b' = b /\ s = slot_of tx) then Some tx else w b' s) -> placed w' F all.
Proof.
  intros [H1 H2 H3 H4 H5] Hw. simpl in H4. apply NoDup_cons in H4 as [Hn H4].
  assert (Hfree : forall b, w b (slot_of tx) = None) by (apply H3; by left). split; [| | |done|].
  - intros b' s x. rewrite Hw. case_decide as Hd; [intros [= <-]; by destruct Hd|apply H1].
  - intros s x. rewrite !Hw. destruct (decide (s = slot_of tx)) as [->|Hs].
    + rewrite !Hfree. destruct b; repeat case_decide; naive_solver.
    + rewrite !decide_False by naive_solver. apply H2.
  - intros x Hx b'. rewrite Hw, decide_False; [apply H3; by right|]. intros [_ E]. apply Hn. rewrite <-E. apply list_elem_of_fmap. by exists x.
  - intros h x. rewrite H5, elem_of_cons. split.
    + intros (-> & [[->|Hx]|[b' Hb]]); (split; [done|]); [|by left|].
      * right. exists b. by rewrite Hw, decide_True.
      * right. exists b'. rewrite Hw, decide_False; [done|]. intros [_ E]. rewrite E, Hfree in Hb. done.
    + intros (-> & [Hx|[b' Hb]]); (split; [done|]); [by left; right|]. rewrite Hw in Hb. case_decide; [|eauto].
      injection Hb as ->. by left; left.
Qed.

(** Transactions leave their places. *)
Lemma placed_take b w w' R F all :
  placed w F all -> (forall tx, tx ∈ R -> w b (slot_of tx) = Some tx) -> NoDup (map slot_of R) ->
  (forall b' s, w' b' s = if decide (b' = b /\ s ∈ map slot_of R) then None else w b' s) -> placed w' (R ++ F) all.
Proof.
  intros [H1 H2 H3 H4 H5] HR HndR Hw.
  assert (Hsub : forall b' s x, w' b' s = Some x -> w b' s = Some x) by (intros b' s x; rewrite Hw; by case_decide).
  split.
  - intros b' s x Hx. by apply (H1 b'), Hsub.
  - intros s x Hx. rewrite Hw. case_decide; [done|]. by apply (H2 s x), Hsub.
  - intros x [Hx|Hx]%elem_of_app b'; rewrite Hw; [|rewrite (H3 x Hx); by case_decide].
    specialize (HR x Hx). assert (slot_of x ∈ map slot_of R) by (apply list_elem_of_fmap; by exists x).
    case_decide as Hd; [done|]. assert (b' <> b) by naive_solver.
    destruct b, b'; try done; [by apply (H2 _ x)|]. destruct (w true (slot_of x)) as [y|] eqn:Ey; [|done].
    apply H2 in Ey. congruence.
  - rewrite map_app. apply NoDup_app. split; [done|]. split; [|done].
    intros s (x & -> & Hx)%list_elem_of_fmap (y & E & Hy)%list_elem_of_fmap.
    specialize (HR x Hx). rewrite E, (H3 y Hy) in HR. done.
  - intros h x. rewrite H5, elem_of_app. split.
    + intros (-> & [Hx|[b' Hb]]); (split; [done|]); [by left; right|].
      destruct (decide (b' = b /\ slot_of x ∈ map slot_of R)) as [[-> Hin]|Hd]; [|right; exists b'; by rewrite Hw, decide_False].
      apply list_elem_of_fmap in Hin as (y & E & Hy). left. left. specialize (HR y Hy). rewrite <-E in HR. congruence.
    + intros (-> & [[Hx|Hx]|[b' Hb]]); (split; [done|]); [|by left|right; eauto]. right. exists b. by apply HR.
Qed.

(** A new transaction takes a place, and with it that of an old one. *)
Lemma placed_new b w w' all tx :
  placed w [] all -> all !! hash_of tx = None -> (forall b', b' <> b -> w b' (slot_of tx) = None) ->
  (forall b' s, w' b' s = if decide (b' = b /\ s = slot_of tx) then Some tx else w b' s) ->
  placed w' [] (<[hash_of tx := tx]> match w b (slot_of tx) with Some old => delete (hash_of old) all | None => all end).
Proof.
  intros Hp Hnew Hother Hw. destruct (w b (slot_of tx)) as [old|] eqn:Eold.
  - pose proof (c_slot _ _ _ Hp _ _ _ Eold) as Eslot.
    set (w1 := fun b' s => if decide (b' = b /\ s = slot_of tx) then None else w b' s).
    assert (H1 : placed w1 ([old] ++ []) all).
    { apply (placed_take b w w1 [old] [] all Hp).
      - intros x ->%list_elem_of_singleton. by rewrite Eslot.
      - apply NoDup_singleton.
      - intros b' s. unfold w1. simpl. rewrite Eslot. repeat case_decide; try done; set_solver. }
    apply placed_forget in H1. apply (placed_put b w1 w' [] _ tx).
    + apply placed_float; [done|rewrite lookup_delete_None; auto| |apply not_elem_of_nil]. intros b'. unfold w1. case_decide as Hd; [done|].
      apply Hother. naive_solver.
    + intros b' s. rewrite Hw. unfold w1. by case_decide.
  - apply (placed_put b w w' [] _ tx); [|done]. apply placed_float; [done|done| |apply not_elem_of_nil]. intros b'.
    destruct (decide (b' = b)) as [->|]; [done|by apply Hother].
Qed.
End Placed.

(** The invariant of the transaction pool, and the operations that move
    single transactions. *)

(** What the pool expects of the states: they answer from nonces and balances
    that reading does not change; a managed state shows the nonce that was
    set last.  [ps_fresh] states are those that the chain hands out. *)
Class PoolChainSpec (S M : Type) {PC : PoolChain S M} := {
  ps_ok : S -> Prop;
  ps_fresh : S -> Prop;
  pm_ok : M -> Prop;
  ps_nonce : S -> Address -> Z;
  ps_balance : S -> Address -> Z;
  pm_nonce : M -> Address -> Z;
  pc_GetNonce_ok a s : ps_ok s ->
    (pc_GetNonce a s).1 = ps_nonce s a /\ ps_ok (pc_GetNonce a s).2 /\
    forall b, ps_nonce (pc_GetNonce a s).2 b = ps_nonce s b /\ ps_balance (pc_GetNonce a s).2 b = ps_balance s b;
  pc_GetBalance_ok a s : ps_ok s ->
    (pc_GetBalance a s).1 = ps_balance s a /\ ps_ok (pc_GetBalance a s).2 /\
    forall b, ps_nonce (pc_GetBalance a s).2 b = ps_nonce s b /\ ps_balance (pc_GetBalance a s).2 b = ps_balance s b;
  pc_ManageState_ok s : ps_fresh s ->
    ps_ok s /\ exists m, pc_ManageState s = Done m /\ pm_ok m /\ forall a, pm_nonce m a = ps_nonce s a;
  ps_nonce_u64 s a : ps_ok s -> is_u64 (ps_nonce s a);
  pm_GetNonce_ok a m : pm_ok m ->
    (pm_GetNonce a m).1 = pm_nonce m a /\ pm_ok (pm_GetNonce a m).2 /\
    forall b, pm_nonce (pm_GetNonce a m).2 b = pm_nonce m b;
  pm_SetNonce_ok a n m : pm_ok m -> is_u64 n ->
    pm_ok (pm_SetNonce a n m) /\ forall b, pm_nonce (pm_SetNonce a n m) b = if decide (b = a) then n else pm_nonce m b
}.

(** ** Lists by account *)

Definition look (m : gmap Address txList) (s : slot) : option Transaction :=
  match m !! s.1 with Some l => tl_items l !! s.2 | None => None end.
Definition view (P Q : gmap Address txList) (b : bool) : slot -> option Transaction := look (if b then P else Q).

Definition put_list (a : Address) (l : txList) (m : gmap Address txList) : gmap Address txList :=
  if tl_Empty l then delete a m else <[a := l]> m.

Lemma look_insert a l m s : look (<[a := l]> m) s = if decide (s.1 = a) then tl_items l !! s.2 else look m s.
Proof. unfold look. rewrite lookup_insert. destruct (decide (a = s.1)); case_decide; congruence. Qed.
Lemma look_delete a m s : look (delete a m) s = if decide (s.1 = a) then None else look m s.
Proof. unfold look. rewrite lookup_delete. destruct (decide (a = s.1)); case_decide; try done; congruence. Qed.
Lemma look_put a l m s : look (put_list a l m) s = if decide (s.1 = a) then tl_items l !! s.2 else look m s.
Proof.
  unfold put_list. destruct (tl_Empty l) eqn:E; [|apply look_insert]. rewrite look_delete. apply tl_Empty_spec in E.
  rewrite E, lookup_empty. done.
Qed.
Lemma look_list a l m n : m !! a = Some l -> look m (a, n) = tl_items l !! n.
Proof. intros H. unfold look. simpl. by rewrite H. Qed.

Section PoolInv.
Context {S M : Type} {PC : PoolChain S M} {PS : PoolChainSpec S M} `{CR : Crypto} `{RO : RangeOrder} `{SO : SortOrder}.
Implicit Types (pool : TxPool (S := S) (M := M)) (P Q : gmap Address txList) (F R : list Transaction) (D : list Hash) (a : Address).

(** The largest nonce is not used: the one after it would not fit. *)
Definition tx_good (signer : Signer) a (tx : Transaction) : Prop :=
  sender_of signer tx = inr a /\ 0 <= tx_Nonce tx < 2 ^ 64 - 1.
Definition lists_ok (signer : Signer) (strict : bool) (m : gmap Address txList) : Prop :=
  forall a l, m !! a = Some l -> tl_ok (tx_good signer a) strict l.
Definition full (m : gmap Address txList) : Prop := forall a l, m !! a = Some l -> tl_items l <> ∅.

Definition cfg_ok (c : TxPoolConfig) : Prop :=
  0 <= AccountQueue c < 2 ^ 63 /\ is_u64 (AccountSlots c) /\ is_u64 (GlobalSlots c) /\ is_u64 (GlobalQueue c).

(** The invariant inside an operation: [P] and [Q] are the lists that the
    pool will have, [F] are the floating transactions, and the heap may miss
    those in [D]. *)
Record inv P Q F D pool : Prop := {
  inv_placed : placed (tp_signer pool) (view P Q) F (tp_all pool);
  inv_pending : lists_ok (tp_signer pool) true P;
  inv_queue : lists_ok (tp_signer pool) false Q;
  inv_float : Forall (fun tx => tx_good (tp_signer pool) (from_of (tp_signer pool) tx) tx) F;
  inv_priced : pl_ok (tp_all pool) D (tp_priced pool);
  inv_current : ps_ok (tp_currentState pool);
  inv_managed : pm_ok (tp_pendingState pool);
  inv_config : cfg_ok (tp_config pool);
  inv_locals : as_signer (tp_locals pool) = tp_signer pool
}.

(** The state that the pool works on. *)
Definition nonce_at pool a : Z := ps_nonce (tp_currentState pool) a.
Definition balance_at pool a : Z := ps_balance (tp_currentState pool) a.
Definition next_nonce pool a : Z := pm_nonce (tp_pendingState pool) a.
Definition at_slot pool : bool -> slot -> option Transaction := view (tp_pending pool) (tp_queue pool).

(** What an operation on the accounts [A] leaves alone. *)
Record frame (A : list Address) pool pool' : Prop := {
  fr_config : tp_config pool' = tp_config pool;
  fr_signer : tp_signer pool' = tp_signer pool;
  fr_maxGas : tp_currentMaxGas pool' = tp_currentMaxGas pool;
  fr_locals : tp_locals pool' = tp_locals pool;
  fr_nonce : forall a, nonce_at pool' a = nonce_at pool a;
  fr_balance : forall a, balance_at pool' a = balance_at pool a;
  fr_next : forall a, a ∉ A -> next_nonce pool' a = next_nonce pool a;
  fr_view : forall b s, s.1 ∉ A -> at_slot pool' b s = at_slot pool b s;
  fr_size : (size (tp_all pool') <= size (tp_all pool))%nat
}.

Lemma frame_refl A pool : frame A pool pool.
Proof. by split. Qed.
Lemma frame_trans A pool1 pool2 pool3 : frame A pool1 pool2 -> frame A pool2 pool3 -> frame A pool1 pool3.
Proof.
  intros [? ? ? ? N1 B1 X1 V1 ?] [? ? ? ? N2 B2 X2 V2 ?]. split; [congruence..| | | | |lia].
  - intros a. by rewrite N2.
  - intros a. by rewrite B2.
  - intros a Ha. by rewrite X2, X1.
  - intros b s Hs. by rewrite V2, V1.
Qed.
Lemma frame_mono A B pool pool' : A ⊆ B -> frame A pool pool' -> frame B pool pool'.
Proof. intros HAB []. split; try done; intros; [apply fr_next0|apply fr_view0]; set_solver. Qed.

(** The part of a frame that does not depend on the accounts. *)
Record base pool pool' : Prop := {
  ba_config : tp_config pool' = tp_config pool;
  ba_signer : tp_signer pool' = tp_signer pool;
  ba_maxGas : tp_currentMaxGas pool' = tp_currentMaxGas pool;
  ba_locals : tp_locals pool' = tp_locals pool;
  ba_nonce : forall a, nonce_at pool' a = nonce_at pool a;
  ba_balance : forall a, balance_at pool' a = balance_at pool a;
  ba_size : (size (tp_all pool') <= size (tp_all pool))%nat
}.
Lemma frame_base A pool pool' : frame A pool pool' -> base pool pool'.
Proof. by intros []. Qed.
Lemma base_refl pool : base pool pool.
Proof. by split. Qed.
Lemma base_trans pool1 pool2 pool3 : base pool1 pool2 -> base pool2 pool3 -> base pool1 pool3.
Proof.
  intros [? ? ? ? N1 B1 ?] [? ? ? ? N2 B2 ?]. split; [congruence..| | |lia]; intros a; by rewrite ?N2, ?B2.
Qed.

Lemma from_of_sender signer tx a : sender_of signer tx = inr a -> from_of signer tx = a.
Proof. unfold from_of. by intros ->. Qed.
Lemma good_slot signer tx a : tx_good signer a tx -> slot_of signer tx = (a, tx_Nonce tx).
Proof. intros [H _]. unfold slot_of. by rewrite (from_of_sender _ _ _ H). Qed.
Lemma good_from signer tx a : tx_good signer a tx -> tx_good signer (from_of signer tx) tx.
Proof. intros H. pose proof H as [Hs _]. by rewrite (from_of_sender _ _ _ Hs). Qed.
Lemma good_u64 signer tx a : tx_good signer a tx -> is_u64 (tx_Nonce tx).
Proof. intros [_ H]. unfold is_u64. lia. Qed.

Lemma lists_ok_insert signer strict m a l :
  lists_ok signer strict m -> tl_ok (tx_good signer a) strict l -> lists_ok signer strict (<[a := l]> m).
Proof. intros Hm Hl b k [[<- <-]|[_ H]]%lookup_insert_Some; [done|by apply Hm]. Qed.
Lemma lists_ok_put signer strict m a l : lists_ok signer strict (<[a := l]> m) -> lists_ok signer strict (put_list a l m).
Proof.
  intros Hm. unfold put_list. case_match; [|done]. intros b k [Hne Hx]%lookup_delete_Some. apply Hm. by rewrite lookup_insert_ne.
Qed.
Lemma full_put m a l : full m -> full (put_list a l m).
Proof.
  intros Hm b k. unfold put_list. destruct (tl_Empty l) eqn:E; [intros [_ Hx]%lookup_delete_Some; by eapply Hm|].
  intros [[<- <-]|[_ H]]%lookup_insert_Some; [|by eapply Hm]. intros He. apply tl_Empty_spec in He. congruence.
Qed.

(** The list of an account, a new one if there is none. *)
Definition list_of (strict : bool) (m : gmap Address txList) a : txList := default (newTxList strict) (m !! a).
Lemma list_of_ok signer strict m a : lists_ok signer strict m -> tl_ok (tx_good signer a) strict (list_of strict m a).
Proof. intros Hm. unfold list_of. destruct (m !! a) eqn:E; [by apply Hm|apply tl_new_ok]. Qed.
Lemma list_of_look strict m a n : tl_items (list_of strict m a) !! n = look m (a, n).
Proof. unfold list_of, look. simpl. by destruct (m !! a). Qed.

(** Only these parts of the pool matter. *)
Lemma inv_set P Q F D pool pool' :
  inv P Q F D pool -> tp_signer pool' = tp_signer pool -> tp_all pool' = tp_all pool -> tp_priced pool' = tp_priced pool ->
  ps_ok (tp_currentState pool') -> pm_ok (tp_pendingState pool') -> tp_config pool' = tp_config pool ->
  tp_locals pool' = tp_locals pool -> inv P Q F D pool'.
Proof. intros [] E1 E2 E3 H1 H2 E4 E5. split; rewrite ?E1, ?E2, ?E3, ?E4, ?E5; done. Qed.

(** ** Forgetting *)

Lemma forget_inv P Q tx F D pool : inv P Q (tx :: F) D pool -> inv P Q F D (forget_tx (hash_of tx) pool).
Proof.
  intros [Hp H1 H2 H3 H4]. unfold forget_tx. split; try done; cbn [tp_set_all tp_all tp_priced tp_signer].
  - by apply placed_forget.
  - by apply Forall_cons in H3 as [_ ?].
  - apply pl_Removed_ok. apply (pl_ok_sub _ _ _ _ _ H4). unfold lk_Remove. intros h x [_ Hx]%lookup_delete_Some. done.
Qed.

(** Steps that leave the lists alone. *)
Record quiet pool pool' : Prop := {
  qu_frame : frame [] pool pool';
  qu_pending : tp_pending pool' = tp_pending pool;
  qu_queue : tp_queue pool' = tp_queue pool;
  qu_beats : tp_beats pool' = tp_beats pool;
  qu_price : tp_gasPrice pool' = tp_gasPrice pool;
  qu_homestead : tp_homestead pool' = tp_homestead pool
}.
Lemma quiet_refl pool : quiet pool pool.
Proof. by split; [apply frame_refl|..]. Qed.
Lemma quiet_trans pool1 pool2 pool3 : quiet pool1 pool2 -> quiet pool2 pool3 -> quiet pool1 pool3.
Proof. intros [] []. split; try congruence. by eapply frame_trans. Qed.
Lemma quiet_frame A pool pool' : quiet pool pool' -> frame A pool pool'.
Proof. intros Hq. eapply frame_mono; [|apply Hq]. set_solver. Qed.

Lemma for_each_forget P Q R F D : forall pool,
  inv P Q (R ++ F) D pool -> exists pool', for_each forget R pool = Done pool' /\ inv P Q F D pool' /\ quiet pool pool'.
Proof.
  induction R as [|tx R IH]; intros pool Hi; cbn [for_each]; [by exists pool; split; [|split; [|apply quiet_refl]]|].
  cbn [forget outcome_bind]. apply forget_inv in Hi. destruct (IH _ Hi) as (pool' & E & Hi' & Hq).
  exists pool'. split; [exact E|]. split; [exact Hi'|]. apply (quiet_trans _ (forget_tx (hash_of tx) pool)); [|done].
  split; try done. split; try done. apply map_subseteq_size, delete_subseteq.
Qed.

Section Reads.
Context {P Q : gmap Address txList} {F : list Transaction} {D : list Hash} {pool : TxPool (S := S) (M := M)}.
Hypothesis Hi : inv P Q F D pool.

Lemma current_nonce_spec a :
  exists pool', current_nonce a pool = (nonce_at pool a, pool') /\ inv P Q F D pool' /\ quiet pool pool'.
Proof using Hi.
  unfold current_nonce. destruct (pc_GetNonce_ok a (tp_currentState pool) (inv_current _ _ _ _ _ Hi)) as (E & Hs & Hv).
  destruct (pc_GetNonce a (tp_currentState pool)) as [n s]. cbn [fst snd] in *. subst n. eexists. split; [done|]. split.
  - apply (inv_set P Q F D pool _ Hi); try done. apply Hi.
  - split; try done. split; try done; intros b; apply Hv.
Qed.
Lemma current_balance_spec a :
  exists pool', current_balance a pool = (balance_at pool a, pool') /\ inv P Q F D pool' /\ quiet pool pool'.
Proof using Hi.
  unfold current_balance. destruct (pc_GetBalance_ok a (tp_currentState pool) (inv_current _ _ _ _ _ Hi)) as (E & Hs & Hv).
  destruct (pc_GetBalance a (tp_currentState pool)) as [n s]. cbn [fst snd] in *. subst n. eexists. split; [done|]. split.
  - apply (inv_set P Q F D pool _ Hi); try done. apply Hi.
  - split; try done. split; try done; intros b; apply Hv.
Qed.
Lemma pending_nonce_spec a :
  exists pool', pending_nonce a pool = (next_nonce pool a, pool') /\ inv P Q F D pool' /\ quiet pool pool'.
Proof using Hi.
  unfold pending_nonce. destruct (pm_GetNonce_ok a (tp_pendingState pool) (inv_managed _ _ _ _ _ Hi)) as (E & Hs & Hv).
  destruct (pm_GetNonce a (tp_pendingState pool)) as [n m]. cbn [fst snd] in *. subst n. eexists. split; [done|]. split.
  - apply (inv_set P Q F D pool _ Hi); try done. apply Hi.
  - split; try done. split; try done. intros b _. apply Hv.
Qed.

(** Setting the next nonce of an account. *)
Lemma set_pending_nonce_spec a n :
  is_u64 n ->
  let pool' := set_pending_nonce a n pool in
  inv P Q F D pool' /\ frame [a] pool pool' /\ next_nonce pool' a = n /\
  tp_pending pool' = tp_pending pool /\ tp_queue pool' = tp_queue pool.
Proof using Hi.
  intros Hn. destruct (pm_SetNonce_ok a n (tp_pendingState pool) (inv_managed _ _ _ _ _ Hi) Hn) as [Hs Hv].
  split; [apply (inv_set P Q F D pool _ Hi); try done; apply Hi|]. split; [|split; [|done]].
  - split; try done. intros b Hb. unfold next_nonce. cbn [set_pending_nonce tp_set_managed tp_set_states tp_pendingState].
    rewrite Hv, decide_False; [done|]. set_solver.
  - unfold next_nonce. cbn [set_pending_nonce tp_set_managed tp_set_states tp_pendingState]. by rewrite Hv, decide_True.
Qed.
Lemma lower_nonce_spec a n :
  is_u64 n ->
  let pool' := lower_nonce a n pool in
  inv P Q F D pool' /\ frame [a] pool pool' /\ next_nonce pool' a = Z.min (next_nonce pool a) n /\
  tp_pending pool' = tp_pending pool /\ tp_queue pool' = tp_queue pool.
Proof using Hi.
  intros Hn. unfold lower_nonce. destruct (pending_nonce_spec a) as (pool1 & -> & Hi1 & Hq).
  destruct (Z.ltb_spec n (next_nonce pool a)) as [Hlt|Hge].
  - destruct (pm_SetNonce_ok a n (tp_pendingState pool1) (inv_managed _ _ _ _ _ Hi1) Hn) as [Hs Hv]. cbn zeta.
    assert (Hn' : forall b, next_nonce (set_pending_nonce a n pool1) b = if decide (b = a) then n else next_nonce pool1 b) by apply Hv.
    split; [apply (inv_set P Q F D pool1 _ Hi1); try done; apply Hi1|]. split; [|split].
    + apply (frame_trans _ _ pool1); [by apply quiet_frame|]. split; try done. intros b Hb. rewrite Hn', decide_False; [done|]. set_solver.
    + rewrite Hn', decide_True by done. lia.
    + by destruct Hq.
  - split; [done|]. split; [by apply quiet_frame|]. split; [|by destruct Hq].
    destruct Hq as [[] _ _ _ _]. rewrite fr_next0 by set_solver. lia.
Qed.
End Reads.

(** ** Out of a list *)

Lemma inv_same P Q P' Q' F D pool :
  inv P Q F D pool -> (forall s, look P' s = look P s) -> (forall s, look Q' s = look Q s) ->
  lists_ok (tp_signer pool) true P' -> lists_ok (tp_signer pool) false Q' -> inv P' Q' F D pool.
Proof.
  intros [Hp H1 H2 H3 H4 H5 H6 H7 H8] EP EQ HP HQ. split; try done. apply (placed_ext _ (view P Q) _ F); try done.
  intros [] s; unfold view; auto.
Qed.

(** What leaves a list floats. *)
Section Take.
Context {signer : Signer} {strict : bool} {m : gmap Address txList} {a : Address} {l l' : txList} {R : list Transaction}.
Hypothesis (Hm : lists_ok signer strict m) (Hl : m !! a = Some l) (HR : removes R (tl_items l) (tl_items l')).

Lemma removed_good tx : tx ∈ R -> tx_good signer a tx /\ tl_items l !! tx_Nonce tx = Some tx.
Proof using Hm Hl HR.
  intros Hin. pose proof (removes_elem _ _ _ _ HR Hin) as Hx. split; [|done]. by apply (tl_ok_items _ _ _ (Hm a l Hl) _ _ Hx).
Qed.
Lemma removed_slots : map (slot_of signer) R = map (fun n => (a, n)) (map tx_Nonce R).
Proof using Hm Hl HR.
  rewrite map_map. apply map_ext_in. intros tx Hin%list_elem_of_In. apply good_slot. by apply removed_good.
Qed.
Lemma removed_NoDup : NoDup (map tx_Nonce R).
Proof using HR.
  clear Hm Hl. induction HR as [|tx R0 items items' Htx HR0 IH]; [constructor|]. simpl. apply NoDup_cons. split; [|by apply IH].
  intros (y & E & Hy)%list_elem_of_fmap. pose proof (removes_elem _ _ _ _ HR0 Hy) as Hx. rewrite <-E, lookup_delete_eq in Hx. done.
Qed.
Lemma taken_look s :
  look (<[a := l']> m) s = if decide (s ∈ map (slot_of signer) R) then None else look m s.
Proof using Hm Hl HR.
  destruct s as [c n]. rewrite look_insert, removed_slots. simpl. destruct (decide (c = a)) as [->|Hne].
  - rewrite (removes_lookup _ _ _ HR), (look_list _ _ _ _ Hl).
    destruct (decide (n ∈ map tx_Nonce R)) as [Hin|Hin].
    + rewrite decide_True; [done|]. apply list_elem_of_fmap. by exists n.
    + rewrite decide_False; [done|]. intros (k & [= ->] & Hk)%list_elem_of_fmap. done.
  - rewrite decide_False; [done|]. intros (k & [= -> _] & Hk)%list_elem_of_fmap. done.
Qed.
Lemma removed_good_all : Forall (fun tx => tx_good signer (from_of signer tx) tx) R.
Proof using Hm Hl HR. apply Forall_forall. intros tx Hin. eapply good_from. by apply removed_good. Qed.
End Take.

Lemma take_pending P Q F D pool a l l' R :
  inv P Q F D pool -> P !! a = Some l -> tl_ok (tx_good (tp_signer pool) a) true l' ->
  removes R (tl_items l) (tl_items l') -> inv (<[a := l']> P) Q (R ++ F) D pool.
Proof.
  intros [Hp H1 H2 H3 H4 H5 H6 H7 H8] Hl Hl' HR. split; try done.
  - apply (placed_take _ true (view P Q) _ R F _ Hp).
    + intros tx Hin. destruct (removed_good H1 Hl HR tx Hin) as [Hg Hx]. rewrite (good_slot _ _ _ Hg). unfold view. by rewrite (look_list _ _ _ _ Hl).
    + rewrite (removed_slots H1 Hl HR). apply NoDup_fmap_2; [intros ? ? [= ->]; done|by eapply removed_NoDup].
    + intros [] s; unfold view; [rewrite (taken_look H1 Hl HR)|]; repeat case_decide; naive_solver.
  - by apply lists_ok_insert.
  - apply Forall_app. split; [by apply (removed_good_all H1 Hl HR)|done].
Qed.
Lemma take_queue P Q F D pool a l l' R :
  inv P Q F D pool -> Q !! a = Some l -> tl_ok (tx_good (tp_signer pool) a) false l' ->
  removes R (tl_items l) (tl_items l') -> inv P (<[a := l']> Q) (R ++ F) D pool.
Proof.
  intros [Hp H1 H2 H3 H4 H5 H6 H7 H8] Hl Hl' HR. split; try done.
  - apply (placed_take _ false (view P Q) _ R F _ Hp).
    + intros tx Hin. destruct (removed_good H2 Hl HR tx Hin) as [Hg Hx]. rewrite (good_slot _ _ _ Hg). unfold view. by rewrite (look_list _ _ _ _ Hl).
    + rewrite (removed_slots H2 Hl HR). apply NoDup_fmap_2; [intros ? ? [= ->]; done|by eapply removed_NoDup].
    + intros [] s; unfold view; [|rewrite (taken_look H2 Hl HR)]; repeat case_decide; naive_solver.
  - by apply lists_ok_insert.
  - apply Forall_app. split; [by apply (removed_good_all H2 Hl HR)|done].
Qed.
End PoolInv.

(** Moving transactions between the lists of the pool. *)

Section PoolMoves.
Context {S M : Type} {PC : PoolChain S M} {PS : PoolChainSpec S M} `{CR : Crypto} `{RO : RangeOrder} `{SO : SortOrder}.
Implicit Types (pool : TxPool (S := S) (M := M)) (P Q : gmap Address txList) (F R : list Transaction) (D : list Hash).
Implicit Types (a : Address) (tx : Transaction) (l : txList) (b : bool).

(** ** Into a list *)

(** A floating transaction finds its slot free. *)
Lemma float_free P Q tx F D pool b : inv P Q (tx :: F) D pool -> look (if b then P else Q) (slot_of (tp_signer pool) tx) = None.
Proof. intros [Hp _ _ _ _]. apply (c_free _ _ _ _ Hp tx (list_elem_of_here _ _) b). Qed.
Lemma float_good P Q tx F D pool :
  inv P Q (tx :: F) D pool -> tx_good (tp_signer pool) (from_of (tp_signer pool) tx) tx.
Proof. intros [_ _ _ Hg _]. by apply Forall_cons in Hg as [? _]. Qed.
Lemma float_known P Q tx F D pool : inv P Q (tx :: F) D pool -> tp_all pool !! hash_of tx = Some tx.
Proof. intros [Hp _ _ _ _]. apply (placed_known _ _ _ _ _ Hp). left. by left. Qed.

(** Adding to a list whose slot is free. *)
Lemma tl_Add_free signer strict a tx bump l :
  tl_ok (tx_good signer a) strict l -> tx_good signer a tx -> tl_items l !! tx_Nonce tx = None ->
  exists l', tl_Add tx bump l = (true, None, l') /\ tl_ok (tx_good signer a) strict l' /\
    tl_items l' = <[tx_Nonce tx := tx]> (tl_items l).
Proof.
  intros Hl Hg Hn. destruct (tl_Add_spec _ _ tx bump l Hl (good_u64 _ _ _ Hg) Hg) as [(l' & E & Hl' & Hi & _)|(_ & old & Ho & _)].
  - exists l'. by rewrite E, Hn.
  - congruence.
Qed.

Lemma look_add strict m a l' n tx s :
  tl_items l' = <[n := tx]> (tl_items (list_of strict m a)) ->
  look (<[a := l']> m) s = if decide (s = (a, n)) then Some tx else look m s.
Proof.
  intros Hit. destruct s as [c k]. rewrite look_insert, Hit. simpl. destruct (decide (c = a)) as [->|Hne].
  - rewrite lookup_insert, list_of_look. destruct (decide (n = k)); repeat case_decide; naive_solver.
  - rewrite decide_False by naive_solver. done.
Qed.
(** [m'] is [m] with [tx] in its slot. *)
Definition has_also (m m' : gmap Address txList) (s : slot) tx : Prop :=
  forall s', look m' s' = if decide (s' = s) then Some tx else look m s'.

Lemma put_pending P Q tx F D pool P' :
  inv P Q (tx :: F) D pool -> lists_ok (tp_signer pool) true P' -> has_also P P' (slot_of (tp_signer pool) tx) tx ->
  inv P' Q F D pool.
Proof.
  intros [Hp H1 H2 H3 H4 H5 H6 H7 H8] Hl Hh. split; try done; [|by apply Forall_cons in H3 as [_ ?]].
  apply (placed_put _ true (view P Q) _ _ _ tx Hp). intros [] s; unfold view; [rewrite Hh|]; repeat case_decide; naive_solver.
Qed.
Lemma put_queue P Q tx F D pool Q' :
  inv P Q (tx :: F) D pool -> lists_ok (tp_signer pool) false Q' -> has_also Q Q' (slot_of (tp_signer pool) tx) tx ->
  inv P Q' F D pool.
Proof.
  intros [Hp H1 H2 H3 H4 H5 H6 H7 H8] Hl Hh. split; try done; [|by apply Forall_cons in H3 as [_ ?]].
  apply (placed_put _ false (view P Q) _ _ _ tx Hp). intros [] s; unfold view; [|rewrite Hh]; repeat case_decide; naive_solver.
Qed.

(** Adding to the list of an account in a map. *)
Lemma add_free signer strict m tx bump :
  let a := from_of signer tx in
  lists_ok signer strict m -> tx_good signer a tx -> look m (slot_of signer tx) = None ->
  exists l', tl_Add tx bump (list_of strict m a) = (true, None, l') /\ lists_ok signer strict (<[a := l']> m) /\
    has_also m (<[a := l']> m) (slot_of signer tx) tx /\ tl_items l' <> ∅.
Proof.
  intros a Hm Hg Hf. pose proof (list_of_ok _ _ _ a Hm) as Hl.
  destruct (tl_Add_free signer strict a tx bump (list_of strict m a) Hl Hg) as (l' & E & Hl' & Hit).
  { rewrite list_of_look. exact Hf. }
  exists l'. split; [done|]. split; [by apply lists_ok_insert|]. split; [|rewrite Hit; apply insert_non_empty].
  intros s. by apply (look_add strict).
Qed.

(** [enqueueTx] of a transaction that the pool knows. *)
Lemma enqueue_float P tx F D pool :
  inv P (tp_queue pool) (tx :: F) D pool ->
  exists Q', enqueueTx (hash_of tx) tx pool = (inr false, tp_set_queue Q' pool) /\ inv P Q' F D (tp_set_queue Q' pool) /\
    has_also (tp_queue pool) Q' (slot_of (tp_signer pool) tx) tx /\ (full (tp_queue pool) -> full Q').
Proof.
  intros Hi. pose proof (float_good _ _ _ _ _ _ Hi) as Hg.
  destruct (add_free (tp_signer pool) false (tp_queue pool) tx (PriceBump (tp_config pool))) as (l' & E & Hl & Hh & Hne);
    [apply Hi|done|apply (float_free _ _ _ _ _ _ false Hi)|].
  exists (<[from_of (tp_signer pool) tx := l']> (tp_queue pool)). unfold enqueueTx. fold (list_of false (tp_queue pool) (from_of (tp_signer pool) tx)).
  rewrite E. cbn [negb]. unfold lk_Get. cbn [tp_set_queue tp_set_lists tp_all]. rewrite (float_known _ _ _ _ _ _ Hi).
  split; [done|]. split; [|split; [done|]].
  - apply (inv_set P _ F D pool); try done; try apply Hi. by eapply put_queue.
  - intros Hf a k [[<- <-]|[_ Hx]]%lookup_insert_Some; [done|by eapply Hf].
Qed.

(** [m'] is [m] with the transactions [R] in their slots. *)
Record filled (signer : Signer) (m m' : gmap Address txList) R : Prop := {
  fi_slots : forall s, is_Some (look m' s) <-> is_Some (look m s) \/ s ∈ map (slot_of signer) R;
  fi_same : forall s, s ∉ map (slot_of signer) R -> look m' s = look m s;
  fi_from : forall s x, look m' s = Some x -> look m s = Some x \/ x ∈ R;
  fi_full : full m -> full m'
}.
Lemma filled_nil signer m : filled signer m m [].
Proof. split; try done; [|by left]. intros s. simpl. rewrite elem_of_nil. tauto. Qed.
Lemma filled_cons signer m m1 m' tx R :
  has_also m m1 (slot_of signer tx) tx -> (full m -> full m1) -> filled signer m1 m' R -> filled signer m m' (tx :: R).
Proof.
  intros Hh Hf [H1 H2 H3 H4]. split; [..|auto]; intros s; simpl.
  - rewrite H1, Hh, elem_of_cons. case_decide; [|tauto]. split; [auto|]. intros _. left. eauto.
  - rewrite elem_of_cons. intros Hnot. rewrite H2 by tauto. rewrite Hh, decide_False by tauto. done.
  - intros x Hx. rewrite elem_of_cons. destruct (H3 s x Hx) as [Hx'|]; [|auto]. rewrite Hh in Hx'. case_decide; [|auto].
    injection Hx' as ->. auto.
Qed.

Lemma frame_lists A pool P' Q' beats :
  (forall s, s.1 ∉ A -> look P' s = look (tp_pending pool) s) -> (forall s, s.1 ∉ A -> look Q' s = look (tp_queue pool) s) ->
  frame A pool (tp_set_lists P' Q' beats pool).
Proof. intros HP HQ. split; try done. intros [] s Hs; [by apply HP|by apply HQ]. Qed.

Lemma for_each_requeue P R F D : forall pool,
  inv P (tp_queue pool) (R ++ F) D pool ->
  exists Q', for_each requeue R pool = Done (tp_set_queue Q' pool) /\ inv P Q' F D (tp_set_queue Q' pool) /\
    filled (tp_signer pool) (tp_queue pool) Q' R.
Proof.
  induction R as [|tx R IH]; intros pool Hi; cbn [for_each].
  { exists (tp_queue pool). split; [by destruct pool|]. split; [by apply (inv_set P _ F D pool); try apply Hi|apply filled_nil]. }
  destruct (enqueue_float P tx (R ++ F) D pool Hi) as (Q1 & E1 & Hi1 & Hh & Hf1).
  unfold requeue at 1. rewrite E1. cbn [snd outcome_bind].
  destruct (IH (tp_set_queue Q1 pool) Hi1) as (Q' & E & Hi' & Hf). exists Q'. split; [exact E|]. split; [exact Hi'|].
  by apply (filled_cons _ _ Q1).
Qed.

(** [promoteTx] of a transaction that the pool knows. *)
Lemma promote_float now a Q tx F D pool :
  inv (tp_pending pool) Q (tx :: F) D pool -> from_of (tp_signer pool) tx = a ->
  exists pool', promoteTx now a (hash_of tx) tx pool = (true, pool') /\ inv (tp_pending pool') Q F D pool' /\
    has_also (tp_pending pool) (tp_pending pool') (slot_of (tp_signer pool) tx) tx /\
    (full (tp_pending pool) -> full (tp_pending pool')) /\ tp_queue pool' = tp_queue pool /\ frame [a] pool pool' /\
    next_nonce pool' a = tx_Nonce tx + 1.
Proof.
  intros Hi <-. set (a := from_of (tp_signer pool) tx). pose proof (float_good _ _ _ _ _ _ Hi) as Hg.
  destruct (add_free (tp_signer pool) true (tp_pending pool) tx (PriceBump (tp_config pool))) as (l' & E & Hl & Hh & Hne);
    [apply Hi|done|apply (float_free _ _ _ _ _ _ true Hi)|]. fold a in E, Hl, Hh.
  unfold promoteTx. fold (list_of true (tp_pending pool) a). rewrite E. cbn [negb]. unfold lk_Get.
  cbn [tp_set_pending tp_set_lists tp_all]. rewrite (float_known _ _ _ _ _ _ Hi).
  set (P' := <[a := l']> (tp_pending pool)). set (pool1 := tp_set_beats _ _).
  assert (Hi1 : inv P' Q F D pool1) by (apply (inv_set P' Q F D pool); try done; try apply Hi; by eapply put_pending).
  destruct Hg as [Hs Hn]. rewrite u64_small by (unfold is_u64; lia).
  destruct (set_pending_nonce_spec Hi1 a (tx_Nonce tx + 1)) as (Hi2 & Hfr & Hnn & HP & HQ); [unfold is_u64; lia|].
  eexists. split; [done|]. split; [exact Hi2|]. split; [done|]. split; [|split; [done|split; [|done]]].
  - rewrite HP. intros Hf b k Hk. change (P' !! b = Some k) in Hk. revert Hk. intros [[<- <-]|[_ Hx]]%lookup_insert_Some; [done|by eapply Hf].
  - apply (frame_trans _ _ pool1); [|done]. refine (frame_lists [a] pool P' (tp_queue pool) (<[a := now]> (tp_beats pool)) _ _); [|done]. intros s Hs'. rewrite Hh, decide_False; [done|].
    intros ->. apply Hs'. by left.
Qed.

Lemma promote_all_spec now a Q R F D : forall pool,
  inv (tp_pending pool) Q (R ++ F) D pool -> Forall (fun tx => from_of (tp_signer pool) tx = a) R ->
  let pool' := promote_all now a R pool in
  inv (tp_pending pool') Q F D pool' /\ filled (tp_signer pool) (tp_pending pool) (tp_pending pool') R /\
  tp_queue pool' = tp_queue pool /\ frame [a] pool pool' /\
  next_nonce pool' a = match last R with Some tx => tx_Nonce tx + 1 | None => next_nonce pool a end.
Proof.
  induction R as [|tx R IH]; intros pool Hi HR; cbn [promote_all].
  { split; [done|]. split; [apply filled_nil|]. split; [done|]. split; [apply frame_refl|done]. }
  apply Forall_cons in HR as [Ha HR]. destruct (promote_float now a Q tx (R ++ F) D pool Hi Ha) as (pool1 & E & Hi1 & Hh & Hf & HQ & Hfr & Hn).
  rewrite E. cbn [snd]. destruct (IH pool1 Hi1) as (Hi' & Hfi & HQ' & Hfr' & Hn').
  { by rewrite (fr_signer _ _ _ Hfr). }
  rewrite (fr_signer _ _ _ Hfr) in Hfi. split; [done|]. split; [by eapply filled_cons|]. split; [congruence|].
  split; [by eapply frame_trans|]. rewrite Hn'. rewrite last_cons. by destruct (last R).
Qed.
End PoolMoves.
