(* ===== verification/PoolAccounts.v ===== *)
(** The operations of the pool on the lists of one account, and the removal of
    a transaction. *)
From S2P Require Import Prelude BigMath Params Machine Vm StateTransition Transaction Heap TxList TxListFacts.
From S2P Require Import TxPriced PricedFacts TxPool PoolInv.

(** The operations of the pool on the lists of one account. *)

Section PoolAccounts.
Context {S M : Type} {PC : PoolChain S M} {PS : PoolChainSpec S M} `{CR : Crypto} `{RO : RangeOrder} `{SO : SortOrder}.
Implicit Types (pool : TxPool (S := S) (M := M)) (P Q : gmap Address txList) (F R : list Transaction) (D : list Hash).
Implicit Types (a : Address) (tx : Transaction) (l : txList) (b : bool).

(** The invariant between operations.  Queues are not empty, and neither are
    pending lists if accounts are allowed a pending transaction. *)
Record pool_inv D pool : Prop := {
  pi_inv : inv (tp_pending pool) (tp_queue pool) [] D pool;
  pi_queue : full (tp_queue pool);
  pi_pending : 0 < AccountSlots (tp_config pool) -> full (tp_pending pool)
}.

(** The pending transactions of the account have the nonces from that of the
    state up to the next one to hand out, and the account can pay each. *)
Record in_order pool a : Prop := {
  io_nonce : nonce_at pool a <= next_nonce pool a;
  io_run : forall n, is_Some (at_slot pool true (a, n)) <-> nonce_at pool a <= n < next_nonce pool a;
  io_pays : forall n x, at_slot pool true (a, n) = Some x -> affordable (balance_at pool a) (tp_currentMaxGas pool) x
}.
(** Nothing in the queue could be pending. *)
Definition waiting pool a : Prop := forall n, is_Some (at_slot pool false (a, n)) -> next_nonce pool a < n.

Lemma in_order_same pool pool' a :
  nonce_at pool' a = nonce_at pool a -> next_nonce pool' a = next_nonce pool a -> balance_at pool' a = balance_at pool a ->
  tp_currentMaxGas pool' = tp_currentMaxGas pool -> (forall n, at_slot pool' true (a, n) = at_slot pool true (a, n)) ->
  in_order pool a -> in_order pool' a.
Proof.
  intros E1 E2 E3 E4 Ev [H1 H2 H3]. split; rewrite ?E1, ?E2, ?E3, ?E4; [done| |]; intros n; rewrite Ev; [apply H2|apply H3].
Qed.
Lemma in_order_frame A pool pool' a : frame A pool pool' -> a ∉ A -> in_order pool a -> in_order pool' a.
Proof.
  intros Hf Ha. apply in_order_same; [apply Hf|by apply Hf|apply Hf|apply Hf|]. intros n. by apply (fr_view _ _ _ Hf).
Qed.
Lemma waiting_frame A pool pool' a : frame A pool pool' -> a ∉ A -> waiting pool a -> waiting pool' a.
Proof. intros Hf Ha H n. rewrite (fr_view _ _ _ Hf), (fr_next _ _ _ Hf) by done. apply H. Qed.

(** Operations that keep accounts in order, and their queues waiting. *)
Record keeps_order pool pool' : Prop := {
  ko_order : forall a, in_order pool a -> in_order pool' a;
  ko_waiting : forall a, in_order pool a -> waiting pool a -> waiting pool' a
}.
Lemma keeps_order_refl pool : keeps_order pool pool.
Proof. by split. Qed.
Lemma keeps_order_trans pool1 pool2 pool3 : keeps_order pool1 pool2 -> keeps_order pool2 pool3 -> keeps_order pool1 pool3.
Proof. intros [] []. split; auto. Qed.
Lemma keeps_order_local a pool pool' :
  frame [a] pool pool' -> (in_order pool a -> in_order pool' a) -> (in_order pool a -> waiting pool a -> waiting pool' a) ->
  keeps_order pool pool'.
Proof.
  intros Hfr H1 H2. split; intros c Hc; destruct (decide (c = a)) as [->|Hne]; auto.
  - apply (in_order_frame [a] pool); [done|set_solver|done].
  - intros Hw. apply (waiting_frame [a] pool); [done|set_solver|done].
Qed.

(** Dropping transactions from a list that is not yet back in the queue. *)
Lemma drop_queue P Q D pool a l l' R :
  inv P (<[a := l]> Q) [] D pool -> tl_ok (tx_good (tp_signer pool) a) false l' -> removes R (tl_items l) (tl_items l') ->
  exists pool', for_each forget R pool = Done pool' /\ inv P (<[a := l']> Q) [] D pool' /\ quiet pool pool'.
Proof.
  intros Hi Hl' HR. apply for_each_forget. rewrite <-(insert_insert_eq Q a l' l).
  apply (take_queue _ _ [] D pool a l l' R Hi); [apply lookup_insert_eq|done|done].
Qed.
Lemma drop_pending P Q D pool a l l' R :
  inv (<[a := l]> P) Q [] D pool -> tl_ok (tx_good (tp_signer pool) a) true l' -> removes R (tl_items l) (tl_items l') ->
  exists pool', for_each forget R pool = Done pool' /\ inv (<[a := l']> P) Q [] D pool' /\ quiet pool pool'.
Proof.
  intros Hi Hl' HR. apply for_each_forget. rewrite <-(insert_insert_eq P a l' l).
  apply (take_pending _ _ [] D pool a l l' R Hi); [apply lookup_insert_eq|done|done].
Qed.

(** [int] of the limit of a queue, and what it leaves. *)
Lemma queue_limit D pool a l :
  inv (tp_pending pool) (<[a := l]> (tp_queue pool)) [] D pool ->
  exists R l' pool', (if as_contains a (tp_locals pool) then Done ([], l) else tl_Cap (int64_of (AccountQueue (tp_config pool))) l) = Done (R, l') /\
    for_each forget R pool = Done pool' /\ inv (tp_pending pool) (<[a := l']> (tp_queue pool)) [] D pool' /\ quiet pool pool' /\
    removes R (tl_items l) (tl_items l') /\
    (as_contains a (tp_locals pool) = false -> tl_Len l' <= AccountQueue (tp_config pool)).
Proof.
  intros Hi. pose proof (inv_queue _ _ _ _ _ Hi a l (lookup_insert_eq _ _ _)) as Hl.
  destruct (as_contains a (tp_locals pool)) eqn:Eloc.
  - exists [], l, pool. split; [done|]. split; [done|]. split; [done|]. split; [apply quiet_refl|]. split; [constructor|done].
  - destruct (inv_config _ _ _ _ _ Hi) as ([H0 H1] & _). unfold int64_of. rewrite (proj2 (Z.ltb_lt _ _)) by done.
    destruct (tl_Cap_spec _ _ (AccountQueue (tp_config pool)) l Hl H0) as (R & l' & E & Hl' & HR & _ & Hlen).
    destruct (drop_queue _ _ _ _ _ _ l' R Hi Hl' HR) as (pool' & Ef & Hi' & Hq). exists R, l', pool'.
    split; [done|]. split; [done|]. split; [done|]. split; [done|]. split; [done|]. intros _. lia.
Qed.

(** The nonces of a run. *)
Lemma run_nonces R lo n : map tx_Nonce R = seqZ lo (len R) -> n ∈ map tx_Nonce R <-> lo <= n < lo + len R.
Proof. intros ->. rewrite elem_of_seqZ. done. Qed.
Lemma run_last R lo : map tx_Nonce R = seqZ lo (len R) -> R <> [] -> exists tx, last R = Some tx /\ tx_Nonce tx = lo + len R - 1.
Proof.
  intros HR Hne. destruct R as [|x R _] using rev_ind; [done|]. exists x. split; [apply last_snoc|].
  rewrite len_app in HR |- *. replace (len [x]) with 1 in * by done. rewrite map_app, seqZ_app in HR by (pose proof (len_nonneg R); lia).
  apply app_inj_2 in HR as [_ HR]; [|done]. simpl in HR. injection HR as ->. lia.
Qed.

(** Promoting a run keeps the account in order. *)
Lemma ready_in_order pool pool' a l l' R :
  in_order pool a -> (forall n x, tl_items l !! n = Some x -> nonce_at pool a <= n /\ affordable (balance_at pool a) (tp_currentMaxGas pool) x /\
     look (tp_pending pool) (a, n) = None) ->
  ((R = [] /\ forall k, is_Some (tl_items l !! k) -> next_nonce pool a < k) \/
   (exists lo, lo <= next_nonce pool a /\ R <> [] /\ map tx_Nonce R = seqZ lo (len R) /\ (forall k, is_Some (tl_items l !! k) -> lo <= k) /\
      (forall k, is_Some (tl_items l' !! k) -> lo + len R < k))) ->
  removes R (tl_items l) (tl_items l') -> map (slot_of (tp_signer pool)) R = map (fun n => (a, n)) (map tx_Nonce R) ->
  filled (tp_signer pool) (tp_pending pool) (tp_pending pool') R -> frame [a] pool pool' ->
  next_nonce pool' a = match last R with Some tx => tx_Nonce tx + 1 | None => next_nonce pool a end ->
  in_order pool' a /\ forall n, is_Some (tl_items l' !! n) -> next_nonce pool' a < n.
Proof.
  intros [H1 H2 H3] Hl Hready HR Hslots Hfi Hfr Hn.
  assert (Hpays : forall n x, at_slot pool' true (a, n) = Some x -> affordable (balance_at pool' a) (tp_currentMaxGas pool') x).
  { intros n x Hx. rewrite (fr_balance _ _ _ Hfr), (fr_maxGas _ _ _ Hfr).
    destruct (fi_from _ _ _ _ Hfi _ _ Hx) as [Hx'|Hx']; [by eapply H3|]. by eapply Hl, removes_elem. }
  assert (Hin : forall n, is_Some (at_slot pool' true (a, n)) <-> nonce_at pool a <= n < next_nonce pool a \/ n ∈ map tx_Nonce R).
  { intros n. unfold at_slot, view. rewrite (fi_slots _ _ _ _ Hfi), Hslots, <-H2. apply or_iff_compat_l.
    rewrite list_elem_of_fmap. naive_solver. }
  destruct Hready as [[-> Hk]|(lo & Hlo & Hne & HRn & Hmin & Hk)].
  - simpl in Hn. assert (E : tl_items l' = tl_items l) by (by inversion HR). split; [|intros n; rewrite E, Hn; apply Hk]. split; [by rewrite Hn, (fr_nonce _ _ _ Hfr)| |done].
    intros n. rewrite Hin, Hn, (fr_nonce _ _ _ Hfr). simpl. rewrite elem_of_nil. tauto.
  - destruct (run_last R lo HRn Hne) as (tx & Hlast & Htx). rewrite Hlast in Hn.
    assert (Hnn : next_nonce pool' a = lo + len R) by lia.
    assert (lo = next_nonce pool a) as ->.
    { assert (Hlt : 0 < len R) by (destruct R; [done|rewrite len_cons; pose proof (len_nonneg R); lia]).
      assert (Hlo' : lo ∈ map tx_Nonce R) by (rewrite run_nonces by done; lia). apply list_elem_of_fmap in Hlo' as (x & -> & Hx).
      destruct (Hl _ _ (removes_elem _ _ _ _ HR Hx)) as (Hge & _ & Hnone). destruct (Z.eq_dec (tx_Nonce x) (next_nonce pool a)); [done|].
      destruct (proj2 (H2 (tx_Nonce x))) as [y Hy]; [lia|]. unfold at_slot, view in Hy. congruence. }
    split; [|rewrite Hnn; exact Hk]. split; [rewrite Hnn, (fr_nonce _ _ _ Hfr); pose proof (len_nonneg R); lia| |done].
    intros n. rewrite Hin, Hnn, (fr_nonce _ _ _ Hfr), (run_nonces _ _ _ HRn). pose proof (len_nonneg R). lia.
Qed.

(** The first steps of [promote_account] and [demote_account]: what the
    account cannot use any more goes. *)
Lemma clean_queue D pool a l :
  inv (tp_pending pool) (tp_queue pool) [] D pool -> tp_queue pool !! a = Some l ->
  exists pool1 R1 l1 pool2 pool3 R2 l2 pool4,
    current_nonce a pool = (nonce_at pool a, pool1) /\ tl_Forward (nonce_at pool a) l = Done (R1, l1) /\
    for_each forget R1 pool1 = Done pool2 /\ current_balance a pool2 = (balance_at pool a, pool3) /\
    tl_Filter (balance_at pool a) (tp_currentMaxGas pool3) l1 = (R2, [], l2) /\ for_each forget R2 pool3 = Done pool4 /\
    inv (tp_pending pool4) (<[a := l2]> (tp_queue pool4)) [] D pool4 /\ quiet pool pool4 /\
    (forall n x, tl_items l2 !! n = Some x -> tl_items l !! n = Some x /\ nonce_at pool a <= n /\
       affordable (balance_at pool a) (tp_currentMaxGas pool) x).
Proof.
  intros Hi Hl. destruct (current_nonce_spec Hi a) as (pool1 & E1 & Hi1 & Hq1). pose proof (inv_queue _ _ _ _ _ Hi a l Hl) as Hok.
  destruct (tl_Forward_spec _ _ (nonce_at pool a) l Hok) as (R1 & l1 & EF & Hl1 & HR1 & _ & Hge).
  rewrite <-(insert_id _ _ _ Hl) in Hi1. rewrite <-(fr_signer _ _ _ (qu_frame _ _ Hq1)) in Hl1.
  destruct (drop_queue _ _ _ _ _ _ l1 R1 Hi1 Hl1 HR1) as (pool2 & E2 & Hi2 & Hq2).
  destruct (current_balance_spec Hi2 a) as (pool3 & E3 & Hi3 & Hq3).
  assert (Hq : quiet pool pool2) by (by eapply quiet_trans).
  assert (Hb : balance_at pool2 a = balance_at pool a) by apply (fr_balance _ _ _ (qu_frame _ _ Hq)).
  rewrite Hb in E3. assert (Hq' : quiet pool pool3) by (by eapply quiet_trans).
  pose proof (inv_queue _ _ _ _ _ Hi3 a l1 (lookup_insert_eq _ _ _)) as Hok3.
  destruct (tl_Filter_spec _ _ (balance_at pool a) (tp_currentMaxGas pool3) l1 Hok3) as (R2 & V & l2 & EFi & Hl2 & HR2 & _ & Haff & ->).
  rewrite app_nil_r in HR2. destruct (drop_queue _ _ _ _ _ _ l2 R2 Hi3 Hl2 HR2) as (pool4 & E4 & Hi4 & Hq4).
  assert (Hq'' : quiet pool pool4) by (by eapply quiet_trans).
  exists pool1, R1, l1, pool2, pool3, R2, l2, pool4. do 6 (split; [done|]).
  rewrite (qu_pending _ _ Hq''), (qu_queue _ _ Hq''). do 2 (split; [done|]). intros n x Hx.
  rewrite <-(fr_maxGas _ _ _ (qu_frame _ _ Hq')). pose proof (removes_kept _ _ _ _ _ HR2 Hx) as Hx1.
  split; [by eapply removes_kept|]. split; [by apply Hge|by eapply Haff].
Qed.

(** Putting the list of an account back. *)
Lemma close_queue D pool a l F :
  inv (tp_pending pool) (<[a := l]> (tp_queue pool)) F D pool ->
  let pool' := tp_set_queue (put_list a l (tp_queue pool)) pool in
  inv (tp_pending pool') (tp_queue pool') F D pool' /\ frame [a] pool pool'.
Proof.
  intros Hi pool'. split.
  - apply (inv_set _ _ F D pool); try done; try apply Hi. apply (inv_same _ _ _ _ F D pool Hi); [done| |apply Hi|].
    + intros s. unfold pool'. simpl. by rewrite look_put, look_insert.
    + apply lists_ok_put, Hi.
  - apply frame_lists; [done|]. intros s Hs. rewrite look_put, decide_False; [done|]. set_solver.
Qed.
Lemma close_pending D pool a l F beats :
  inv (<[a := l]> (tp_pending pool)) (tp_queue pool) F D pool ->
  let pool' := tp_set_lists (put_list a l (tp_pending pool)) (tp_queue pool) beats pool in
  inv (tp_pending pool') (tp_queue pool') F D pool' /\ frame [a] pool pool'.
Proof.
  intros Hi pool'. split.
  - apply (inv_set _ _ F D pool); try done; try apply Hi. apply (inv_same _ _ _ _ F D pool Hi); [|done| |apply Hi].
    + intros s. unfold pool'. simpl. by rewrite look_put, look_insert.
    + apply lists_ok_put, Hi.
  - apply frame_lists; [|done]. intros s Hs. rewrite look_put, decide_False; [done|]. set_solver.
Qed.

Lemma quiet_in_order pool pool' a : quiet pool pool' -> in_order pool a -> in_order pool' a.
Proof. intros Hq. apply (in_order_frame []); [apply Hq|set_solver]. Qed.

Lemma promote_account_spec now a D pool :
  pool_inv D pool ->
  exists pool', promote_account now a pool = Done pool' /\ pool_inv D pool' /\ frame [a] pool pool' /\
    (in_order pool a -> in_order pool' a /\ waiting pool' a) /\
    (forall l, tp_queue pool' !! a = Some l -> as_contains a (tp_locals pool) = false -> tl_Len l <= AccountQueue (tp_config pool)).
Proof.
  intros [Hi HfQ HfP]. unfold promote_account. destruct (tp_queue pool !! a) as [l|] eqn:Hl.
  2:{ exists pool. split; [done|]. split; [by split|]. split; [apply frame_refl|]. split; [|by intros l; rewrite Hl].
      intros Ho. split; [done|]. intros n. unfold at_slot, view, look. simpl. rewrite Hl. by intros [? ?]. }
  destruct (clean_queue D pool a l Hi Hl) as (pool1 & R1 & l1 & pool2 & pool3 & R2 & l2 & pool4 & -> & E1 & E2 & E3 & E4 & E5 & Hi4 & Hq & Hl2).
  rewrite E1. cbn [outcome_bind]. rewrite E2. cbn [outcome_bind]. rewrite E3, E4, E5. cbn [outcome_bind]. clear E1 E2 E3 E4 E5.
  destruct (pending_nonce_spec Hi4 a) as (pool5 & -> & Hi5 & Hq5). pose proof (inv_queue _ _ _ _ _ Hi5 a l2 (lookup_insert_eq _ _ _)) as Hok.
  destruct (tl_Ready_spec _ _ (next_nonce pool4 a) l2 Hok) as (R & l3 & -> & Hl3 & HR & Hready). cbn [outcome_bind].
  pose proof (take_queue _ _ [] D pool5 a l2 l3 R Hi5 (lookup_insert_eq _ _ _) Hl3 HR) as Hi6. rewrite insert_insert_eq in Hi6.
  rewrite <-(qu_pending _ _ Hq5) in Hi6.
  pose proof (removed_slots (inv_queue _ _ _ _ _ Hi5) (lookup_insert_eq _ _ _) HR) as Hslots.
  destruct (promote_all_spec now a _ R [] D pool5 Hi6) as (Hi7 & Hfi & HQ & Hfr & Hnn).
  { apply Forall_forall. intros x Hx. destruct (removed_good (inv_queue _ _ _ _ _ Hi5) (lookup_insert_eq _ _ _) HR x Hx) as [[Hs _] _].
    by apply from_of_sender. }
  set (pool7 := promote_all now a R pool5) in *. rewrite <-(qu_queue _ _ Hq5), <-HQ in Hi7.
  destruct (queue_limit D pool7 a l3 Hi7) as (R4 & l4 & pool8 & -> & EF & Hi8 & Hq8 & HR4 & Hlim). cbn [outcome_bind]. rewrite EF. cbn [outcome_bind].
  set (Q' := if tl_Empty l4 then _ else _). assert (EQ : Q' = put_list a l4 (tp_queue pool8)) by done. clearbody Q'. subst Q'.
  assert (Hq45 : quiet pool pool5) by (by eapply quiet_trans).
  assert (Hfr8 : frame [a] pool pool8).
  { eapply frame_trans; [by apply quiet_frame, Hq45|]. eapply frame_trans; [exact Hfr|]. by apply quiet_frame. }
  assert (HQ8 : tp_queue pool8 = tp_queue pool) by (rewrite (qu_queue _ _ Hq8), HQ; apply Hq45).
  rewrite <-(qu_pending _ _ Hq8), <-(qu_queue _ _ Hq8) in Hi8. destruct (close_queue D pool8 a l4 [] Hi8) as [Hi9 Hfr9].
  set (pool9 := tp_set_queue _ pool8) in *. assert (Hq9 : forall n, at_slot pool9 false (a, n) = tl_items l4 !! n).
  { intros n. unfold at_slot, view, pool9. simpl. by rewrite look_put, decide_True. }
  assert (Hfr' : frame [a] pool pool9) by (by eapply frame_trans).
  exists pool9. split; [done|]. split; [split; [done|by apply full_put; rewrite HQ8|]|].
  { intros Hpos. unfold pool9. simpl. rewrite (qu_pending _ _ Hq8). apply (fi_full _ _ _ _ Hfi). rewrite (qu_pending _ _ Hq45). apply HfP.
    by rewrite <-(fr_config _ _ _ Hfr'). }
  split; [done|]. split.
  - intros Ho. destruct (ready_in_order pool5 pool7 a l2 l3 R) as [Ho7 Hk]; try done.
    + by apply (quiet_in_order pool).
    + intros n x Hx. destruct (Hl2 n x Hx) as (Hx' & Hge & Haff).
      rewrite (fr_balance _ _ _ (qu_frame _ _ Hq45)), (fr_nonce _ _ _ (qu_frame _ _ Hq45)), (fr_maxGas _ _ _ (qu_frame _ _ Hq45)), (qu_pending _ _ Hq45).
      split; [done|]. split; [done|]. destruct (look (tp_pending pool) (a, n)) as [y|] eqn:Ey; [|done].
      pose proof (c_disj _ _ _ _ (inv_placed _ _ _ _ _ Hi) (a, n) y Ey) as Hn. unfold view in Hn. rewrite (look_list _ _ _ _ Hl) in Hn. congruence.
    + by rewrite (fr_next _ _ _ (qu_frame _ _ Hq5)) by set_solver.
    + split; [apply (in_order_same pool8); try done; by apply (quiet_in_order pool7)|].
      intros n [x Hx]. rewrite Hq9 in Hx. change (next_nonce pool9 a) with (next_nonce pool8 a).
      rewrite (fr_next _ _ _ (qu_frame _ _ Hq8)) by set_solver. apply Hk. exists x. by eapply removes_kept.
  - intros l' Hl' Hloc. assert (l' = l4) as ->.
    { unfold pool9, put_list in Hl'. simpl in Hl'. destruct (tl_Empty l4); [by rewrite lookup_delete_eq in Hl'|].
      rewrite lookup_insert_eq in Hl'. congruence. }
    rewrite <-(fr_config _ _ _ Hfr8), (fr_config _ _ _ (qu_frame _ _ Hq8)). apply Hlim.
    by rewrite (fr_locals _ _ _ Hfr), (fr_locals _ _ _ (qu_frame _ _ Hq45)).
Qed.
End PoolAccounts.

(** Removing a transaction from the pool. *)

Section PoolRemove.
Context {S M : Type} {PC : PoolChain S M} {PS : PoolChainSpec S M} `{CR : Crypto} `{RO : RangeOrder} `{SO : SortOrder}.
Implicit Types (pool : TxPool (S := S) (M := M)) (P Q : gmap Address txList) (F R : list Transaction) (D : list Hash).
Implicit Types (a : Address) (tx : Transaction) (l : txList) (b : bool).

Lemma inv_weaken P Q F D D' pool : inv P Q F D pool -> D ⊆ D' -> inv P Q F D' pool.
Proof.
  intros [H1 H2 H3 H4 H5 H6 H7 H8 H9] HD. split; try done. apply (pl_ok_sub _ _ _ _ _ H5). intros h tx Hx. split; [done|]. set_solver.
Qed.
Lemma pool_inv_weaken D D' pool : pool_inv D pool -> D ⊆ D' -> pool_inv D' pool.
Proof. intros [H1 H2 H3] HD. split; try done. by eapply inv_weaken. Qed.
(** A hash that is not known need not be covered. *)
Lemma pool_inv_known h D pool : pool_inv (h :: D) pool -> tp_all pool !! h = None -> pool_inv D pool.
Proof.
  intros [[H1 H2 H3 H4 H5 H6 H7 H8 H9] HQ HP] Hn. split; try done. split; try done.
  apply (pl_ok_sub _ _ _ _ _ H5). intros k tx Hx. split; [done|]. intros [->|?]%elem_of_cons; [congruence|done].
Qed.

(** The first step of [removeTx]. *)
Definition unlisted (h : Hash) (outofbound : bool) pool : TxPool :=
  if outofbound then forget_tx h pool else tp_set_all (lk_Remove h (tp_all pool)) (tp_priced pool) pool.
Lemma unlisted_inv P Q tx F D oob pool :
  inv P Q (tx :: F) (hash_of tx :: D) pool -> inv P Q F D (unlisted (hash_of tx) oob pool).
Proof.
  intros Hi. pose proof (forget_inv _ _ _ _ _ _ Hi) as [H1 H2 H3 H4 H5 H6 H7 H8 H9]. pose proof (inv_priced _ _ _ _ _ Hi) as Hp.
  assert (Hsub : forall pl, pl_ok (lk_Remove (hash_of tx) (tp_all pool)) (hash_of tx :: D) pl -> pl_ok (lk_Remove (hash_of tx) (tp_all pool)) D pl).
  { intros pl Hl. apply (pl_ok_sub _ _ _ _ _ Hl). intros h x Hx. split; [done|]. intros [->|?]%elem_of_cons; [|done].
    unfold lk_Remove in Hx. by rewrite lookup_delete_eq in Hx. }
  unfold unlisted. destruct oob; split; try done; apply Hsub; [exact H5|].
  apply (pl_ok_sub _ _ _ _ _ Hp). unfold lk_Remove. by intros h x [_ Hx]%lookup_delete_Some.
Qed.
Lemma unlisted_quiet h oob pool : quiet pool (unlisted h oob pool) /\ tp_all (unlisted h oob pool) = delete h (tp_all pool).
Proof. unfold unlisted. destruct oob; (split; [|done]); split; try done; split; try done; apply map_subseteq_size, delete_subseteq. Qed.

Lemma lower_nonce_all a n pool : tp_all (lower_nonce a n pool) = tp_all pool /\ tp_priced (lower_nonce a n pool) = tp_priced pool.
Proof. unfold lower_nonce, pending_nonce. destruct (pm_GetNonce a (tp_pendingState pool)) as [k m]. by destruct (n <? k). Qed.

(** A transaction of the queue. *)
Lemma remove_queued_spec D oob pool tx :
  let a := from_of (tp_signer pool) tx in
  pool_inv (hash_of tx :: D) pool -> look (tp_queue pool) (slot_of (tp_signer pool) tx) = Some tx ->
  exists pool', remove_queued a tx (unlisted (hash_of tx) oob pool) = Done pool' /\ pool_inv D pool' /\ frame [a] pool pool' /\
    tp_all pool' = delete (hash_of tx) (tp_all pool) /\
    (forall s, at_slot pool' true s = at_slot pool true s) /\ next_nonce pool' a = next_nonce pool a /\
    (forall s, at_slot pool' false s = if decide (s = slot_of (tp_signer pool) tx) then None else at_slot pool false s) /\
    tp_pending pool' = tp_pending pool /\ tp_beats pool' = tp_beats pool /\
    exists l l', tp_queue pool !! a = Some l /\ tp_queue pool' = put_list a l' (tp_queue pool) /\ removes [tx] (tl_items l) (tl_items l').
Proof.
  intros a [Hi HfQ HfP] Hx. destruct (unlisted_quiet (hash_of tx) oob pool) as [Hq Hall]. unfold remove_queued.
  rewrite (qu_queue _ _ Hq). unfold look in Hx. simpl in Hx. fold a in Hx. destruct (tp_queue pool !! a) as [l|] eqn:Hl; [|done].
  pose proof (inv_queue _ _ _ _ _ Hi a l Hl) as Hok. pose proof (tl_Remove_spec _ _ tx l Hok) as HR. rewrite Hx in HR.
  destruct HR as (V & l' & -> & Hl' & HR & -> & _). cbn [outcome_bind fst snd].
  pose proof (take_queue _ _ [] _ pool a l l' [tx] Hi Hl Hl' HR) as Hi1. simpl in Hi1. apply (unlisted_inv _ _ _ _ _ oob) in Hi1.
  set (pool1 := unlisted (hash_of tx) oob pool) in *. rewrite <-(qu_pending _ _ Hq), <-(qu_queue _ _ Hq) in Hi1.
  destruct (close_queue D pool1 a l' [] Hi1) as [Hi2 Hfr2]. rewrite <-(qu_queue _ _ Hq).
  exists (tp_set_queue (put_list a l' (tp_queue pool1)) pool1). split; [done|]. split; [split; [exact Hi2| |]|].
  - apply full_put. by rewrite (qu_queue _ _ Hq).
  - simpl. rewrite (qu_pending _ _ Hq), (fr_config _ _ _ (qu_frame _ _ Hq)). done.
  - split; [eapply frame_trans; [by apply quiet_frame|done]|]. split; [done|]. split.
    { intros s. unfold at_slot, view. simpl. by rewrite (qu_pending _ _ Hq). }
    split; [apply (fr_next _ _ _ (qu_frame _ _ Hq)); set_solver|]. split.
    2:{ split; [apply (qu_pending _ _ Hq)|]. split; [apply (qu_beats _ _ Hq)|]. exists l, l'. split; [done|]. split; [simpl; by rewrite (qu_queue _ _ Hq)|done]. }
    intros s. unfold at_slot, view. simpl.
    rewrite look_put, (qu_queue _ _ Hq), <-look_insert. rewrite (taken_look (inv_queue _ _ _ _ _ Hi) Hl HR). simpl.
    destruct (decide (s = slot_of (tp_signer pool) tx)); case_decide; set_solver.
Qed.

(** The nonces that are left of a strict list without [tx] and those after
    it. *)
Lemma cut_nonces signer a l l' tx V n :
  tl_ok (tx_good signer a) true l -> removes (tx :: V) (tl_items l) (tl_items l') -> prefix_of (tl_items l) (tl_items l') ->
  Forall (fun y => tx_Nonce tx < tx_Nonce y) V ->
  is_Some (tl_items l' !! n) <-> is_Some (tl_items l !! n) /\ n < tx_Nonce tx.
Proof.
  intros Hl HR Hpre HV. pose proof (removes_elem _ _ _ tx HR (list_elem_of_here _ _)) as Hx. split.
  - intros [y Hy]. split; [exists y; by eapply removes_kept|]. apply Hpre; [by eexists|by eexists|]. by apply (removes_gone _ _ _ tx HR (list_elem_of_here _ _)).
  - intros [[y Hy] Hlt]. rewrite (removes_lookup _ _ _ HR), decide_False; [by eexists|]. simpl. rewrite elem_of_cons.
    intros [->|(v & -> & Hv)%list_elem_of_fmap]; [lia|]. rewrite Forall_forall in HV. specialize (HV v Hv). simpl in HV. lia.
Qed.

Lemma set_pending_id pool : tp_set_pending (tp_pending pool) pool = pool.
Proof. by destruct pool. Qed.

(** Between operations, a known transaction is in one of the lists. *)
Lemma known_listed D pool h tx :
  pool_inv D pool -> tp_all pool !! h = Some tx ->
  h = hash_of tx /\ exists b, at_slot pool b (slot_of (tp_signer pool) tx) = Some tx.
Proof.
  intros [Hi _ _] Hh. apply (c_all _ _ _ _ (inv_placed _ _ _ _ _ Hi)) in Hh as (-> & [?%elem_of_nil|?]); [done|]. by split.
Qed.

(** A pending transaction: those after it go back to the queue. *)
Lemma remove_pending_spec D oob pool tx l :
  let a := from_of (tp_signer pool) tx in
  pool_inv (hash_of tx :: D) pool -> tp_pending pool !! a = Some l -> tl_items l !! tx_Nonce tx = Some tx ->
  exists V l' Q' beats pool', tl_Remove tx l = Done (true, V, l') /\
    let pool1 := unlisted (hash_of tx) oob pool in
    let pool2 := tp_set_lists (put_list a l' (tp_pending pool1)) (tp_queue pool1) beats pool1 in
    (if tl_Empty l' then tp_set_lists (delete a (tp_pending pool1)) (tp_queue pool1) (delete a (tp_beats pool1)) pool1
     else tp_set_pending (<[a := l']> (tp_pending pool1)) pool1) = pool2 /\
    for_each requeue V pool2 = Done (tp_set_queue Q' pool2) /\ lower_nonce a (tx_Nonce tx) (tp_set_queue Q' pool2) = pool' /\
    pool_inv D pool' /\ frame [a] pool pool' /\ tp_all pool' = delete (hash_of tx) (tp_all pool) /\
    next_nonce pool' a = Z.min (next_nonce pool a) (tx_Nonce tx) /\
    (forall n, at_slot pool' true (a, n) = tl_items l' !! n) /\ removes (tx :: V) (tl_items l) (tl_items l') /\
    prefix_of (tl_items l) (tl_items l') /\ Forall (fun y => tx_Nonce tx < tx_Nonce y) V /\
    (forall n, is_Some (at_slot pool' false (a, n)) -> is_Some (at_slot pool false (a, n)) \/ tx_Nonce tx < n).
Proof.
  intros a [Hi HfQ HfP] Hl Hx. destruct (unlisted_quiet (hash_of tx) oob pool) as [Hq Hall].
  pose proof (inv_pending _ _ _ _ _ Hi a l Hl) as Hok. pose proof (tl_Remove_spec _ _ tx l Hok) as HR. rewrite Hx in HR.
  destruct HR as (V & l' & E & Hl' & HR & Hpre & HV).
  pose proof (take_pending _ _ [] _ pool a l l' _ Hi Hl Hl' HR) as Hi1. simpl in Hi1. apply (unlisted_inv _ _ _ _ _ oob) in Hi1.
  set (pool1 := unlisted (hash_of tx) oob pool) in *. rewrite app_nil_r, <-(qu_pending _ _ Hq), <-(qu_queue _ _ Hq) in Hi1.
  set (beats := if tl_Empty l' then delete a (tp_beats pool1) else tp_beats pool1).
  destruct (close_pending D pool1 a l' V beats Hi1) as [Hi2 Hfr2]. set (pool2 := tp_set_lists _ _ _ pool1) in *.
  rewrite <-(app_nil_r V) in Hi2. destruct (for_each_requeue _ V [] D pool2 Hi2) as (Q' & E3 & Hi3 & Hfi).
  destruct (lower_nonce_spec Hi3 a (tx_Nonce tx)) as (Hi4 & Hfr4 & Hn4 & HP4 & HQ4); [by apply (tl_ok_nonce _ _ _ _ _ Hok Hx)|].
  set (pool' := lower_nonce _ _ _) in *. exists V, l', Q', beats, pool'. split; [exact E|]. cbn zeta. fold pool2.
  pose proof (f_equal tail (removed_slots (inv_pending _ _ _ _ _ Hi) Hl HR)) as Hslots. simpl in Hslots.
  assert (Hsig : tp_signer pool2 = tp_signer pool) by apply (fr_signer _ _ _ (qu_frame _ _ Hq)). rewrite Hsig in Hfi.
  split; [unfold pool2, beats, put_list; by destruct (tl_Empty l')|]. split; [done|]. split; [done|].
  assert (Hin : forall s, s ∈ map (slot_of (tp_signer pool)) V -> s.1 = a /\ tx_Nonce tx < s.2).
  { intros s. rewrite Hslots. intros (n & -> & (v & -> & Hv)%list_elem_of_fmap)%list_elem_of_fmap. split; [done|].
    rewrite Forall_forall in HV. by apply HV. }
  assert (Hfr : frame [a] pool pool').
  { eapply frame_trans; [by apply quiet_frame, Hq|]. eapply frame_trans; [exact Hfr2|]. eapply frame_trans; [|exact Hfr4].
    apply frame_lists; [done|]. intros s Hs. apply (fi_same _ _ _ _ Hfi). intros Hs'. apply Hs. destruct (Hin s Hs') as [-> _]. by left. }
  assert (HQ : tp_queue pool' = Q') by (rewrite HQ4; done). assert (HP : tp_pending pool' = put_list a l' (tp_pending pool1)) by (rewrite HP4; done).
  split; [split; [rewrite HQ, HP; exact Hi4| |]|].
  - rewrite HQ. apply (fi_full _ _ _ _ Hfi). unfold pool2. simpl. by rewrite (qu_queue _ _ Hq).
  - rewrite HP, (fr_config _ _ _ Hfr), (qu_pending _ _ Hq). intros Hpos. by apply full_put, HfP.
  - split; [done|]. split; [unfold pool'; rewrite (proj1 (lower_nonce_all _ _ _)); exact Hall|]. split.
    { rewrite Hn4. f_equal. unfold pool2. apply (fr_next _ _ _ (qu_frame _ _ Hq)). set_solver. }
    split; [intros n; unfold at_slot, view; by rewrite HP, look_put, decide_True|]. split; [done|]. split; [done|]. split; [done|].
    intros n. unfold at_slot, view. rewrite HQ, (fi_slots _ _ _ _ Hfi). unfold pool2. simpl. rewrite (qu_queue _ _ Hq).
    intros [?|Hn]; [by left|right]. by apply (Hin _ Hn).
Qed.

Lemma cut_keeps_order pool pool' a tx l l' V :
  tl_ok (tx_good (tp_signer pool) a) true l -> tp_pending pool !! a = Some l -> tl_items l !! tx_Nonce tx = Some tx ->
  frame [a] pool pool' -> next_nonce pool' a = Z.min (next_nonce pool a) (tx_Nonce tx) ->
  (forall n, at_slot pool' true (a, n) = tl_items l' !! n) -> removes (tx :: V) (tl_items l) (tl_items l') ->
  prefix_of (tl_items l) (tl_items l') -> Forall (fun y => tx_Nonce tx < tx_Nonce y) V ->
  (forall n, is_Some (at_slot pool' false (a, n)) -> is_Some (at_slot pool false (a, n)) \/ tx_Nonce tx < n) ->
  keeps_order pool pool'.
Proof.
  intros Hok Hl Hx Hfr Hn Hp HR Hpre HV Hqv.
  assert (Hview : forall n, at_slot pool true (a, n) = tl_items l !! n) by (intros n; unfold at_slot, view; by apply look_list).
  apply (keeps_order_local a); [done| |].
  - intros [O1 O2 O3]. assert (Hk : nonce_at pool a <= tx_Nonce tx < next_nonce pool a) by (apply O2; rewrite Hview, Hx; by eexists).
    split; rewrite ?Hn, ?(fr_nonce _ _ _ Hfr); [lia| |].
    + intros n. rewrite Hp, (cut_nonces _ _ _ _ _ _ _ Hok HR Hpre HV), <-Hview, O2. lia.
    + intros n y. rewrite Hp, (fr_balance _ _ _ Hfr), (fr_maxGas _ _ _ Hfr). intros Hy. apply (O3 n). rewrite Hview. by eapply removes_kept.
  - intros [O1 O2 O3] Hw n Hs. rewrite Hn. destruct (Hqv n Hs) as [Ho|]; [specialize (Hw n Ho)|]; lia.
Qed.

(** A slot of a pending list is not in the queue. *)
Lemma pending_or_queued D pool a l tx b :
  pool_inv D pool -> tp_pending pool !! a = Some l -> from_of (tp_signer pool) tx = a ->
  at_slot pool b (slot_of (tp_signer pool) tx) = Some tx ->
  match tl_items l !! tx_Nonce tx with Some x => x = tx | None => look (tp_queue pool) (slot_of (tp_signer pool) tx) = Some tx end.
Proof.
  intros HI Hl <- Hb. destruct (tl_items l !! tx_Nonce tx) as [x|] eqn:Hx.
  - destruct b; unfold at_slot, view, slot_of in Hb; [rewrite (look_list _ _ _ _ Hl) in Hb; congruence|].
    pose proof (c_disj _ _ _ _ (inv_placed _ _ _ _ _ (pi_inv _ _ HI)) (from_of (tp_signer pool) tx, tx_Nonce tx) x) as Hd.
    unfold view in Hd. rewrite (look_list _ _ _ _ Hl) in Hd. specialize (Hd Hx). congruence.
  - destruct b; [|done]. unfold at_slot, view, slot_of in Hb. rewrite (look_list _ _ _ _ Hl) in Hb. congruence.
Qed.

(** [removeTx] takes the transaction out, whatever its place. *)
Lemma removeTx_spec h oob D pool :
  pool_inv (h :: D) pool ->
  exists pool', removeTx h oob pool = Done pool' /\ pool_inv D pool' /\ tp_all pool' = delete h (tp_all pool) /\
    (forall tx, tp_all pool !! h = Some tx -> frame [from_of (tp_signer pool) tx] pool pool') /\
    base pool pool' /\ keeps_order pool pool'.
Proof.
  intros HI. unfold removeTx, lk_Get. destruct (tp_all pool !! h) as [tx|] eqn:Eh.
  2:{ exists pool. split; [done|]. split; [by eapply pool_inv_known|]. rewrite delete_id by done. split; [done|]. split; [done|].
      split; [apply base_refl|apply keeps_order_refl]. }
  destruct (known_listed _ _ _ _ HI Eh) as (-> & b & Hb). set (a := from_of (tp_signer pool) tx).
  fold (unlisted (hash_of tx) oob pool). destruct (unlisted_quiet (hash_of tx) oob pool) as [Hq Hall].
  assert (Hend : forall r, (exists pool', r = Done pool' /\ pool_inv D pool' /\ tp_all pool' = delete (hash_of tx) (tp_all pool) /\
      frame [a] pool pool' /\ keeps_order pool pool') ->
    exists pool', r = Done pool' /\ pool_inv D pool' /\ tp_all pool' = delete (hash_of tx) (tp_all pool) /\
      (forall tx0, Some tx = Some tx0 -> frame [from_of (tp_signer pool) tx0] pool pool') /\ base pool pool' /\ keeps_order pool pool').
  { intros r (pool' & H1 & H2 & H3 & H4 & H5). exists pool'. do 3 (split; [done|]). split; [by intros tx0 [= <-]|].
    split; [by eapply frame_base|done]. }
  apply Hend. clear Hend.
  assert (Hqueued : look (tp_queue pool) (slot_of (tp_signer pool) tx) = Some tx -> exists pool',
    remove_queued a tx (unlisted (hash_of tx) oob pool) = Done pool' /\ pool_inv D pool' /\
    tp_all pool' = delete (hash_of tx) (tp_all pool) /\ frame [a] pool pool' /\ keeps_order pool pool').
  { intros Hx. destruct (remove_queued_spec D oob pool tx HI Hx) as (pool' & E & HI' & Hfr & Hal & Hp & Hn & Hqv & _). exists pool'.
    do 4 (split; [done|]). apply (keeps_order_local a); [done| |].
    - apply in_order_same; [apply Hfr|exact Hn|apply Hfr|apply Hfr|]. intros n. apply Hp.
    - intros _ Hw n. fold a in Hn. rewrite Hn, Hqv. case_decide; [by intros [? ?]|]. apply Hw. }
  assert (El : tp_pending (unlisted (hash_of tx) oob pool) !! a = tp_pending pool !! a) by (by rewrite (qu_pending _ _ Hq)).
  rewrite El. destruct (tp_pending pool !! a) as [l|] eqn:Hl.
  - pose proof (pending_or_queued _ _ a l tx b HI Hl eq_refl Hb) as Hx. pose proof (inv_pending _ _ _ _ _ (pi_inv _ _ HI) a l Hl) as Hok.
    destruct (tl_items l !! tx_Nonce tx) as [x|] eqn:Ex.
    + subst x. destruct (remove_pending_spec D oob pool tx l HI Hl Ex)
        as (V & l' & Q' & beats & pool' & E & E2 & E3 & E4 & HI' & Hfr & Hal & Hn & Hp & HR & Hpre & HV & Hqv).
      fold a in E2, E3, E4. rewrite E. cbn [outcome_bind negb]. rewrite E2, E3. cbn [outcome_bind]. rewrite E4.
      exists pool'. do 4 (split; [done|]). by apply (cut_keeps_order pool pool' a tx l l' V).
    + pose proof (tl_Remove_spec _ _ tx l Hok) as HR. rewrite Ex in HR. rewrite HR.
      cbn [outcome_bind negb]. rewrite insert_id, set_pending_id by done. by apply Hqueued.
  - apply Hqueued. destruct b; [|done]. unfold at_slot, view, look in Hb. simpl in Hb. fold a in Hb. by rewrite Hl in Hb.
Qed.

Lemma for_each_remove oob R D : forall pool,
  pool_inv (map hash_of R ++ D) pool ->
  exists pool', for_each (remove_hash oob) R pool = Done pool' /\ pool_inv D pool' /\
    (forall h, tp_all pool' !! h = if decide (h ∈ map hash_of R) then None else tp_all pool !! h) /\
    base pool pool' /\ keeps_order pool pool'.
Proof.
  induction R as [|tx R IH]; intros pool HI; cbn [for_each].
  { exists pool. split; [done|]. split; [done|]. split; [done|]. split; [apply base_refl|apply keeps_order_refl]. }
  unfold remove_hash at 1. destruct (removeTx_spec (hash_of tx) oob _ pool HI) as (pool1 & -> & HI1 & Hall1 & _ & Hb1 & Hk1).
  cbn [outcome_bind]. destruct (IH pool1 HI1) as (pool' & E & HI' & Hall & Hb & Hk). exists pool'. split; [exact E|]. split; [done|].
  split; [|split; [by eapply base_trans|by eapply keeps_order_trans]]. intros h. rewrite Hall, Hall1. simpl.
  destruct (decide (h ∈ map hash_of R)); [by rewrite decide_True by (by right)|].
  destruct (decide (h = hash_of tx)) as [->|Hne]; [rewrite decide_True by (by left); apply lookup_delete_eq|].
  rewrite decide_False by (by intros [?|?]%elem_of_cons). by rewrite lookup_delete_ne.
Qed.
End PoolRemove.
