(* ===== verification/PoolLimits.v ===== *)
(** The limits of the pool: pending and queued transactions, eviction, and
    promotion as a whole. *)
From S2P Require Import Prelude BigMath Params Machine Vm StateTransition Transaction Heap TxList TxListFacts.
From S2P Require Import TxPriced PricedFacts TxPool PoolInv PoolAccounts.

(** Cutting the pending transactions down to their limit. *)

(** ** Counting *)

Lemma count_txs_nonneg m : 0 <= count_txs m.
Proof. unfold count_txs. induction (map_to_list m) as [|x l IH]; simpl; [done|]. pose proof (tl_Len_nonneg x.2). lia. Qed.
Lemma count_perm (l1 l2 : list (Address * txList)) :
  l1 ≡ₚ l2 -> foldr (fun kv n => tl_Len kv.2 + n) 0 l1 = foldr (fun kv n => tl_Len kv.2 + n) 0 l2.
Proof. induction 1; simpl; lia. Qed.
Lemma count_insert m a l : m !! a = None -> count_txs (<[a := l]> m) = tl_Len l + count_txs m.
Proof. intros Hn. unfold count_txs. rewrite (count_perm _ _ (map_to_list_insert m a l Hn)). done. Qed.
Lemma count_delete m a l : m !! a = Some l -> count_txs m = tl_Len l + count_txs (delete a m).
Proof. intros Hl. rewrite <-(insert_delete_id m a l Hl) at 1. apply count_insert, lookup_delete_eq. Qed.
Lemma count_update m a l l' : m !! a = Some l -> count_txs (<[a := l']> m) = count_txs m - tl_Len l + tl_Len l'.
Proof.
  intros Hl. rewrite (count_delete m a l Hl), <-insert_delete_eq, count_insert by apply lookup_delete_eq. lia.
Qed.
Lemma count_put m a l l' : m !! a = Some l -> count_txs (put_list a l' m) = count_txs m - tl_Len l + tl_Len l'.
Proof.
  intros Hl. unfold put_list. destruct (tl_Empty l') eqn:E; [|by apply count_update].
  rewrite (count_delete m a l Hl). unfold tl_Empty in E. lia.
Qed.
Lemma count_member m a l : m !! a = Some l -> tl_Len l <= count_txs m.
Proof. intros Hl. rewrite (count_delete m a l Hl). pose proof (count_txs_nonneg (delete a m)). lia. Qed.

Section PoolPending.
Context {S M : Type} {PC : PoolChain S M} {PS : PoolChainSpec S M} `{CR : Crypto} `{RO : RangeOrder} `{SO : SortOrder}.
Implicit Types (pool : TxPool (S := S) (M := M)) (P Q : gmap Address txList) (F R : list Transaction) (D : list Hash).
Implicit Types (a : Address) (tx : Transaction) (l : txList) (b : bool).

(** Pending lists change only at the accounts [A], and the queue does not. *)
Record pending_only (A : list Address) pool pool' : Prop := {
  po_base : base pool pool';
  po_keeps : keeps_order pool pool';
  po_pending : forall a, a ∉ A -> tp_pending pool' !! a = tp_pending pool !! a;
  po_queue : tp_queue pool' = tp_queue pool
}.
Lemma pending_only_refl A pool : pending_only A pool pool.
Proof. split; [apply base_refl|apply keeps_order_refl|done|done]. Qed.
Lemma pending_only_trans A pool1 pool2 pool3 :
  pending_only A pool1 pool2 -> pending_only A pool2 pool3 -> pending_only A pool1 pool3.
Proof.
  intros [B1 K1 P1 Q1] [B2 K2 P2 Q2]. split; [by eapply base_trans|by eapply keeps_order_trans| |congruence].
  intros a Ha. by rewrite P2, P1.
Qed.
Lemma pending_only_mono A B pool pool' : A ⊆ B -> pending_only A pool pool' -> pending_only B pool pool'.
Proof. intros HAB []. split; try done. intros a Ha. apply po_pending0. set_solver. Qed.

Lemma removes_one R (items items' : gmap Z Transaction) : removes R items items' -> size items = Datatypes.S (size items') -> exists x, R = [x].
Proof. intros HR Hs. rewrite (removes_size _ _ _ HR) in Hs. destruct R as [|x [|y R]]; simpl in Hs; try lia. by exists x. Qed.

Lemma cap_offender_spec D pool a l :
  pool_inv D pool -> tp_pending pool !! a = Some l -> 0 < tl_Len l -> (0 < AccountSlots (tp_config pool) -> 1 < tl_Len l) ->
  exists pool' l', cap_offender a pool = Done pool' /\ pool_inv D pool' /\ pending_only [a] pool pool' /\
    tp_pending pool' !! a = Some l' /\ tl_Len l' = tl_Len l - 1 /\
    count_txs (tp_pending pool') = count_txs (tp_pending pool) - 1.
Proof.
  intros [Hi HfQ HfP] Hl Hpos Hfull. pose proof (inv_pending _ _ _ _ _ Hi a l Hl) as Hok. unfold cap_offender. rewrite Hl.
  destruct (tl_Cap_spec _ _ (tl_Len l - 1) l Hok) as (R & l' & -> & Hl' & HR & Hpre & Hlen); [lia|]. cbn [outcome_bind].
  assert (Hlen' : tl_Len l' = tl_Len l - 1) by lia.
  destruct (removes_one R _ _ HR) as [x ->]; [unfold tl_Len, sm_Len in *; lia|]. cbn [for_each outcome_bind].
  pose proof (take_pending _ _ [] _ pool a l l' [x] Hi Hl Hl' HR) as Hi1. simpl in Hi1.
  pose proof (removes_elem _ _ _ x HR (list_elem_of_here _ _)) as Hx.
  set (pool1 := tp_set_pending (<[a := l']> (tp_pending pool)) pool).
  assert (Hi2 : inv (tp_pending pool1) (tp_queue pool1) [x] D pool1) by (apply (inv_set _ _ _ _ pool); try done; apply Hi1).
  apply forget_inv in Hi2. set (pool2 := forget_tx (hash_of x) pool1) in *.
  destruct (lower_nonce_spec Hi2 a (tx_Nonce x)) as (Hi3 & Hfr3 & Hn3 & HP3 & HQ3); [by apply (tl_ok_nonce _ _ _ _ _ Hok Hx)|].
  set (pool' := lower_nonce a (tx_Nonce x) pool2) in *.
  assert (HP : tp_pending pool' = <[a := l']> (tp_pending pool)) by exact HP3. assert (HQ : tp_queue pool' = tp_queue pool) by exact HQ3.
  assert (Hfr : frame [a] pool pool').
  { eapply frame_trans; [|exact Hfr3]. apply (frame_trans _ _ pool1).
    - refine (frame_lists [a] pool _ (tp_queue pool) (tp_beats pool) _ _); [|done]. intros s Hs. rewrite look_insert, decide_False; [done|]. set_solver.
    - split; try done. apply map_subseteq_size, delete_subseteq. }
  exists pool', l'. split; [done|]. split; [split|].
  - rewrite HP, HQ. exact Hi3.
  - by rewrite HQ.
  - rewrite HP, (fr_config _ _ _ Hfr). intros Hs b k [[<- <-]|[_ Hk]]%lookup_insert_Some; [|by eapply HfP].
    apply tl_nonempty. specialize (Hfull Hs). lia.
  - split; [split; [by eapply frame_base| | |done]|].
    + apply (cut_keeps_order pool pool' a x l l' []); try done.
      * intros n. unfold at_slot, view. by rewrite HP, look_insert, decide_True.
      * intros n. unfold at_slot, view. rewrite HQ. by left.
    + intros c Hc. rewrite HP, lookup_insert_ne; [done|]. set_solver.
    + rewrite HP. split; [apply lookup_insert_eq|]. split; [done|]. rewrite (count_update _ _ l) by done. lia.
Qed.

(** The pending list of the account has [n] transactions. *)
Definition has_len pool (n : Z) a : Prop := exists l, tp_pending pool !! a = Some l /\ tl_Len l = n.
Lemma has_len_only A pool pool' n a : pending_only A pool pool' -> a ∉ A -> has_len pool n a -> has_len pool' n a.
Proof. intros [_ _ HP _] Ha (l & Hl & E). exists l. by rewrite HP. Qed.

Lemma cap_round_spec D n offenders : forall pool,
  pool_inv D pool -> NoDup offenders -> Forall (has_len pool n) offenders -> 0 < n -> (0 < AccountSlots (tp_config pool) -> 1 < n) ->
  exists pool', for_each cap_offender offenders pool = Done pool' /\ pool_inv D pool' /\ pending_only offenders pool pool' /\
    Forall (has_len pool' (n - 1)) offenders /\ count_txs (tp_pending pool') = count_txs (tp_pending pool) - len offenders.
Proof.
  induction offenders as [|a O IH]; intros pool HI Hnd Hlen Hn Hs; cbn [for_each].
  { exists pool. split; [done|]. split; [done|]. split; [apply pending_only_refl|]. split; [done|]. unfold len. simpl. lia. }
  apply NoDup_cons in Hnd as [Hnin Hnd]. apply Forall_cons in Hlen as [(l & Hl & El) Hlen].
  destruct (cap_offender_spec D pool a l HI Hl) as (pool1 & l1 & -> & HI1 & Hpo1 & Hl1 & El1 & Ec1); [lia|rewrite El; done|]. cbn [outcome_bind].
  destruct (IH pool1 HI1 Hnd) as (pool' & E & HI' & Hpo & Hlen' & Ec); [|done|by rewrite (ba_config _ _ (po_base _ _ _ Hpo1))|].
  { rewrite Forall_forall in Hlen |- *. intros c Hc. apply (has_len_only [a] pool); [done| |by apply Hlen]. set_solver. }
  exists pool'. split; [exact E|]. split; [done|]. split.
  { apply (pending_only_trans _ _ pool1); (eapply pending_only_mono; [|done]); set_solver. }
  split; [|rewrite len_cons; lia]. constructor; [|done]. apply (has_len_only O pool1); [done|done|]. exists l1. split; [done|lia].
Qed.

Lemma has_len_count pool n a : has_len pool n a -> n <= count_txs (tp_pending pool).
Proof. intros (l & Hl & <-). by eapply count_member. Qed.
Lemma pending_len_spec pool n a : has_len pool n a -> pending_len a pool = Done n.
Proof. intros (l & Hl & <-). unfold pending_len. by rewrite Hl. Qed.

Lemma cap_rounds_spec D offenders a limit : forall fuel n pool,
  pool_inv D pool -> NoDup offenders -> a ∈ offenders -> Forall (has_len pool n) offenders -> AccountSlots (tp_config pool) <= limit ->
  is_u64 (count_txs (tp_pending pool)) -> (Z.to_nat (count_txs (tp_pending pool)) <= fuel)%nat ->
  exists pool' n', cap_rounds fuel offenders a limit (count_txs (tp_pending pool)) pool = Done (count_txs (tp_pending pool'), pool') /\
    pool_inv D pool' /\ pending_only offenders pool pool' /\ Forall (has_len pool' n') offenders /\
    (count_txs (tp_pending pool') <= GlobalSlots (tp_config pool) \/ n' <= limit) /\ (n' = n \/ limit <= n' < n) /\
    count_txs (tp_pending pool') <= count_txs (tp_pending pool).
Proof.
  induction fuel as [|fuel IH]; intros n pool HI Hnd Ha Hlen Hlim Hu Hf; cbn [cap_rounds];
    (destruct (Z.ltb_spec (GlobalSlots (tp_config pool)) (count_txs (tp_pending pool))) as [Hgt|Hle];
     [|exists pool, n; split; [done|]; split; [done|]; split; [apply pending_only_refl|]; split; [done|]; split; [by left|]; split; [by left|lia]]).
  all: pose proof (inv_config _ _ _ _ _ (pi_inv _ _ HI)) as ((_ & _) & (Has & _) & (Hgs & _) & _);
    pose proof (proj1 (Forall_forall _ _) Hlen a Ha) as Hla; rewrite (pending_len_spec _ _ _ Hla); cbn [outcome_bind];
    (destruct (Z.ltb_spec limit n) as [Hgt'|Hle'];
     [|exists pool, n; split; [done|]; split; [done|]; split; [apply pending_only_refl|]; split; [done|]; split; [by right|]; split; [by left|lia]]).
  { lia. }
  destruct (cap_round_spec D n offenders pool HI Hnd Hlen) as (pool1 & -> & HI1 & Hpo1 & Hlen1 & Ec1); [lia|lia|]. cbn [outcome_bind].
  assert (0 < len offenders) by (destruct offenders; [by apply elem_of_nil in Ha|rewrite len_cons; pose proof (len_nonneg offenders); lia]).
  pose proof (count_txs_nonneg (tp_pending pool1)) as H0. pose proof (ba_config _ _ (po_base _ _ _ Hpo1)) as Ecfg.
  rewrite u64_small by (unfold is_u64 in *; lia). rewrite <-Ec1.
  destruct (IH (n - 1) pool1) as (pool' & n' & E & HI' & Hpo & Hlen' & Hor & Hn' & Hc); try done; [by rewrite Ecfg|unfold is_u64 in *; lia|lia|].
  exists pool', n'. split; [done|]. split; [done|]. split; [by eapply pending_only_trans|]. split; [done|]. rewrite <-Ecfg.
  split; [done|]. lia.
Qed.

(** The offenders have [n] transactions each, and the spammers that are left
    no more. *)
Record spam_ok (spammers : prque Address) (offenders : list Address) (n : Z) pool : Prop := {
  sp_heap : heap_ok prque_less spammers;
  sp_nodup : NoDup (map fst spammers ++ offenders);
  sp_lens : Forall (fun x => has_len pool x.2 x.1 /\ AccountSlots (tp_config pool) < x.2) spammers;
  sp_equal : Forall (has_len pool n) offenders;
  sp_least : offenders <> [] -> Forall (fun x => x.2 <= n) spammers
}.

(** The next spammer. *)
Lemma spam_next spammers offenders n pool :
  spam_ok spammers offenders n pool -> spammers <> [] ->
  exists a k rest, prque_Pop spammers = Done (a, rest) /\ map fst spammers ≡ₚ (a :: map fst rest) /\ length spammers = Datatypes.S (length rest) /\
    has_len pool k a /\ AccountSlots (tp_config pool) < k /\ (offenders <> [] -> k <= n) /\ (a ∉ offenders) /\
    NoDup (a :: offenders) /\ heap_ok prque_less rest /\ NoDup (map fst rest ++ offenders ++ [a]) /\
    Forall (fun x => has_len pool x.2 x.1 /\ AccountSlots (tp_config pool) < x.2) rest /\ Forall (fun x => x.2 <= k) rest.
Proof.
  intros [Hh Hnd Hl He Hle] Hne. destruct spammers as [|[a k] rest0]; [done|].
  destruct (heap_Pop_spec prque_less (a, k) rest0 Hh) as (rest & E & Hh' & Hp & Hmin). exists a, k, rest. unfold prque_Pop. rewrite E.
  apply Forall_cons in Hl as [[Hla Hsl] Hl]. simpl in Hla, Hsl, Hnd. apply NoDup_cons in Hnd as [Hna Hnd].
  split; [done|]. split; [simpl; by rewrite Hp|]. split; [simpl; by rewrite (Permutation_length Hp)|]. split; [done|]. split; [done|].
  split; [intros Ho; specialize (Hle Ho); by apply Forall_cons in Hle as [? _]|]. rewrite elem_of_app in Hna.
  split; [tauto|]. split; [apply NoDup_cons; split; [tauto|]; by apply NoDup_app in Hnd as (_ & _ & ?)|]. split; [done|].
  split; [|split; [by rewrite Hp|]].
  - rewrite (Permutation_app_comm offenders [a]). simpl. rewrite <-Permutation_middle. apply NoDup_cons. rewrite elem_of_app, Hp.
    split; [tauto|done].
  - apply Forall_forall. intros x Hx. rewrite Hp in Hx. specialize (Hmin x Hx). unfold prque_less in Hmin. simpl in Hmin. lia.
Qed.

Lemma spam_rounds_stop fuel spammers offenders pool :
  count_txs (tp_pending pool) <= GlobalSlots (tp_config pool) ->
  spam_rounds fuel spammers offenders (count_txs (tp_pending pool)) pool = Done (offenders, count_txs (tp_pending pool), pool).
Proof. intros Hle. destruct fuel; cbn [spam_rounds]; by rewrite (proj2 (Z.ltb_ge _ _)). Qed.

(** The next spammer joins the offenders, cut down to its size. *)
Lemma spam_join pool pool1 offenders rest a k :
  pending_only offenders pool pool1 -> NoDup (map fst rest ++ offenders ++ [a]) -> heap_ok prque_less rest ->
  has_len pool k a -> Forall (fun x => has_len pool x.2 x.1 /\ AccountSlots (tp_config pool) < x.2) rest ->
  Forall (fun x => x.2 <= k) rest -> Forall (has_len pool1 k) offenders -> spam_ok rest (offenders ++ [a]) k pool1.
Proof.
  intros Hpo Hnd Hh Hla Hl Hle He. pose proof Hnd as (_ & Hdis & Hnd2)%NoDup_app. apply NoDup_app in Hnd2 as (_ & Hna & _).
  split; [done|done| |apply Forall_app; split; [done|]|done].
  - rewrite (ba_config _ _ (po_base _ _ _ Hpo)). rewrite Forall_forall in Hl |- *. intros x Hx. destruct (Hl x Hx) as [Hx1 Hx2]. split; [|done].
    apply (has_len_only offenders pool); [done| |done]. intros Hin. apply (Hdis x.1); [apply list_elem_of_fmap; by exists x|set_solver].
  - constructor; [|done]. apply (has_len_only offenders pool); [done| |done]. intros Hin. apply (Hna a Hin). set_solver.
Qed.

Lemma spam_rounds_spec D : forall fuel spammers offenders n pool,
  pool_inv D pool -> spam_ok spammers offenders n pool -> (length spammers <= fuel)%nat -> is_u64 (count_txs (tp_pending pool)) ->
  exists pool' offenders', spam_rounds fuel spammers offenders (count_txs (tp_pending pool)) pool = Done (offenders', count_txs (tp_pending pool'), pool') /\
    pool_inv D pool' /\ pending_only (offenders ++ map fst spammers) pool pool' /\
    (count_txs (tp_pending pool') <= GlobalSlots (tp_config pool) \/
     (exists n', Forall (has_len pool' n') offenders') /\ offenders' ≡ₚ offenders ++ map fst spammers /\ NoDup offenders') /\
    is_u64 (count_txs (tp_pending pool')).
Proof.
  induction fuel as [|fuel IH]; intros spammers offenders n pool HI Hsp Hf Hu; cbn [spam_rounds].
  - assert (spammers = []) as -> by (destruct spammers; [done|simpl in Hf; lia]). rewrite andb_false_r. exists pool, offenders.
    simpl. rewrite app_nil_r. destruct Hsp as [_ Hnd _ He _]. simpl in Hnd. split; [done|]. split; [done|]. split; [apply pending_only_refl|].
    split; [right|done]. split; [by exists n|]. done.
  - destruct (Z.ltb_spec (GlobalSlots (tp_config pool)) (count_txs (tp_pending pool))) as [Hgt|Hle]; cbn [andb].
    2:{ exists pool, offenders. split; [done|]. split; [done|]. split; [apply pending_only_refl|]. split; [by left|done]. }
    destruct spammers as [|x sp] eqn:Esp.
    { exists pool, offenders. cbn [prque_Empty negb map]. rewrite app_nil_r. destruct Hsp as [_ Hnd _ He _]. simpl in Hnd.
      split; [done|]. split; [done|]. split; [apply pending_only_refl|]. split; [right; split; [by exists n|done]|done]. }
    rewrite <-Esp in *. assert (Hne : spammers <> []) by (by rewrite Esp). replace (prque_Empty spammers) with false by (by rewrite Esp). cbn [negb]. clear Esp x sp.
    destruct (spam_next _ _ _ _ Hsp Hne) as (a & k & rest & -> & Hfst & Hlen & Hla & Hsl & Hkn & Hna & Hnd & Hh & Hnd' & Hl & Hle).
    cbn [outcome_bind]. destruct (last offenders) as [prev|] eqn:Elast.
    + destruct Hsp as [_ _ _ He _]. rewrite (pending_len_spec _ _ _ Hla). cbn [outcome_bind].
      apply NoDup_cons in Hnd as [_ HndO]. assert (Hprev : prev ∈ offenders) by (by apply last_Some_elem_of).
      assert (HneO : offenders <> []) by (by destruct offenders). specialize (Hkn HneO).
      destruct (cap_rounds_spec D offenders prev k (Z.to_nat (count_txs (tp_pending pool))) n pool) as (pool1 & n1 & -> & HI1 & Hpo1 & He1 & Hor & Hn1 & Hc);
        [done|done|done|done|lia|done|lia|]. cbn [outcome_bind].
      pose proof (ba_config _ _ (po_base _ _ _ Hpo1)) as Ecfg. pose proof (count_txs_nonneg (tp_pending pool1)).
      assert (Hu1 : is_u64 (count_txs (tp_pending pool1))) by (unfold is_u64 in *; lia).
      assert (Hsub : forall B, pending_only B pool1 pool1 -> pending_only (offenders ++ map fst spammers) pool pool1).
      { intros _ _. eapply pending_only_mono; [|done]. set_solver. }
      destruct (Z.le_gt_cases (count_txs (tp_pending pool1)) (GlobalSlots (tp_config pool))) as [Hstop|Hgo].
      { rewrite spam_rounds_stop by (by rewrite Ecfg). exists pool1, (offenders ++ [a]). split; [done|]. split; [done|].
        split; [apply (Hsub []), pending_only_refl|]. split; [by left|done]. }
      assert (n1 = k) as -> by lia.
      destruct (IH rest (offenders ++ [a]) k pool1) as (pool' & O' & -> & HI' & Hpo' & Hres & Hu'); [done|by apply (spam_join pool)|lia|done|].
      exists pool', O'. split; [done|]. split; [done|]. rewrite <-app_assoc in Hpo', Hres. simpl in Hpo', Hres. rewrite <-Hfst in Hres.
      split; [|split; [by rewrite <-Ecfg|done]]. apply (pending_only_trans _ _ pool1); (eapply pending_only_mono; [|done]).
      * set_solver.
      * rewrite Hfst. done.
    + assert (offenders = []) as -> by (by apply last_None). simpl in Hnd'. cbn [app].
      destruct (IH rest [a] k pool) as (pool' & O' & -> & HI' & Hpo' & Hres & Hu'); [done| |lia|done|].
      { by apply (spam_join pool pool []). }
      exists pool', O'. split; [done|]. split; [done|]. simpl in Hpo', Hres |- *. rewrite <-Hfst in Hres.
      split; [|done]. eapply pending_only_mono; [|done]. rewrite Hfst. done.
Qed.

(** Numbers that a float32 has exactly. *)
Lemma round_float_exact n : 0 <= n <= 2 ^ 24 -> round_float 24 n = n.
Proof.
  intros Hn. destruct (Z.eq_dec n (2 ^ 24)) as [->|Hne]; [done|]. unfold round_float.
  destruct (Z.eq_dec n 0) as [->|H0]; [done|]. assert (Z.log2 n < 24) by (apply Z.log2_lt_pow2; lia).
  by rewrite (proj2 (Z.leb_le _ _)) by lia.
Qed.

(** The accounts that may lose transactions. *)
Definition spamming pool (kv : Address * txList) : Prop :=
  as_contains kv.1 (tp_locals pool) = false /\ AccountSlots (tp_config pool) < tl_Len kv.2.
Lemma collect_spammers pool (L : list (Address * txList)) : forall q,
  heap_ok prque_less q -> Forall (fun kv => tl_Len kv.2 <= 2 ^ 24) L ->
  let q' := foldl (fun q kv => if negb (as_contains kv.1 (tp_locals pool)) && (AccountSlots (tp_config pool) <? tl_Len kv.2)
                               then prque_Push kv.1 (round_float 24 (tl_Len kv.2)) q else q) q L in
  heap_ok prque_less q' /\ exists L', sublist L' L /\ Forall (spamming pool) L' /\
    q' ≡ₚ q ++ map (fun kv => (kv.1, tl_Len kv.2)) L' /\ (forall kv, kv ∈ L -> spamming pool kv -> kv ∈ L').
Proof.
  induction L as [|kv L IH]; intros q Hh Hb; simpl.
  { split; [done|]. exists []. split; [constructor|]. split; [constructor|]. simpl. rewrite app_nil_r. split; [done|]. by intros kv ?%elem_of_nil. }
  apply Forall_cons in Hb as [Hkv Hb]. unfold spamming.
  destruct (negb (as_contains kv.1 (tp_locals pool)) && (AccountSlots (tp_config pool) <? tl_Len kv.2)) eqn:E.
  - apply andb_true_iff in E as [E1%negb_true_iff E2%Z.ltb_lt]. rewrite round_float_exact by (pose proof (tl_Len_nonneg kv.2); lia).
    destruct (heap_Push_spec prque_less (kv.1, tl_Len kv.2) q Hh) as [Hh1 Hp1].
    destruct (IH _ Hh1 Hb) as (Hh' & L' & Hsub & Hsp & Hp & Hin). split; [done|]. exists (kv :: L').
    split; [by apply sublist_skip|]. split; [by constructor|]. split; [rewrite Hp; unfold prque_Push; rewrite Hp1; simpl; by rewrite <-Permutation_middle|].
    intros x [->|Hx]%elem_of_cons Hs; [by left|]. right. by apply Hin.
  - destruct (IH _ Hh Hb) as (Hh' & L' & Hsub & Hsp & Hp & Hin). split; [done|]. exists L'. split; [by apply sublist_cons|].
    split; [done|]. split; [done|]. intros x [->|Hx]%elem_of_cons Hs; [|by apply Hin]. destruct Hs as [Hs1 Hs2].
    rewrite Hs1, (proj2 (Z.ltb_lt _ _)) in E by done. done.
Qed.

Definition within_slots pool : Prop :=
  count_txs (tp_pending pool) <= GlobalSlots (tp_config pool) \/
  (forall a l, tp_pending pool !! a = Some l -> as_contains a (tp_locals pool) = false -> tl_Len l <= AccountSlots (tp_config pool)).

(** Once the spammers have no more than their share, nobody has. *)
Lemma spammers_cut pool pool' O n :
  pending_only O pool pool' -> (forall a l, tp_pending pool !! a = Some l -> spamming pool (a, l) -> a ∈ O) ->
  Forall (has_len pool' n) O -> n <= AccountSlots (tp_config pool) \/ O = [] -> within_slots pool'.
Proof.
  intros [Hb _ HP _] Hin Hlen Hn. right. intros a l Hl Hloc. rewrite (ba_config _ _ Hb). rewrite (ba_locals _ _ Hb) in Hloc.
  destruct (decide (a ∈ O)) as [Ha|Ha].
  - rewrite Forall_forall in Hlen. destruct (Hlen a Ha) as (l' & Hl' & E). assert (l' = l) as -> by congruence.
    destruct Hn as [Hn| ->]; [lia|]. by apply elem_of_nil in Ha.
  - rewrite HP in Hl by done. destruct (Z.le_gt_cases (tl_Len l) (AccountSlots (tp_config pool))) as [|Hgt]; [done|].
    exfalso. apply Ha, (Hin a l Hl). split; [done|]. simpl. lia.
Qed.

Lemma truncate_pending_spec D pool :
  pool_inv D pool -> (forall a l, tp_pending pool !! a = Some l -> tl_Len l <= 2 ^ 24) -> is_u64 (count_txs (tp_pending pool)) ->
  exists pool', truncate_pending pool = Done pool' /\ pool_inv D pool' /\ (exists A, pending_only A pool pool') /\ within_slots pool'.
Proof.
  intros HI Hb Hu. unfold truncate_pending.
  destruct (Z.ltb_spec (GlobalSlots (tp_config pool)) (count_txs (tp_pending pool))) as [Hgt|Hle].
  2:{ exists pool. split; [done|]. split; [done|]. split; [exists []; apply pending_only_refl|by left]. }
  destruct (collect_spammers pool (range (tp_pending pool)) []) as (Hh & L' & Hsub & Hsp & Hp & Hin); [by intros j Hj; simpl in Hj; lia| |].
  { apply Forall_forall. intros [a l] Hx. rewrite range_perm in Hx. apply elem_of_map_to_list in Hx. by eapply Hb. }
  match type of Hp with ?x ≡ₚ _ => set (spammers := x) in * end. simpl in Hp.
  assert (HL' : forall kv, kv ∈ L' -> tp_pending pool !! kv.1 = Some kv.2).
  { intros [a l] Hx. apply (elem_of_sublist _ _ _ Hx) in Hsub as Hx'. clear Hx. rename Hx' into Hx. rewrite range_perm in Hx. by apply elem_of_map_to_list in Hx. }
  assert (Hfst : map fst spammers ≡ₚ L'.*1) by (rewrite Hp, map_map; done).
  assert (Hok : spam_ok spammers [] 0 pool).
  { split; [done| | |constructor|done].
    - rewrite app_nil_r, Hfst. eapply sublist_NoDup; [apply (NoDup_range_keys (tp_pending pool))|]. by apply fmap_sublist.
    - rewrite Hp. apply Forall_map, Forall_forall. intros kv Hkv. simpl. split; [exists kv.2; split; [by apply HL'|done]|].
      rewrite Forall_forall in Hsp. by apply Hsp. }
  destruct (spam_rounds_spec D (length spammers) spammers [] 0 pool HI Hok) as (pool1 & O & -> & HI1 & Hpo1 & Hres & Hu1); [lia|done|].
  cbn [outcome_bind]. pose proof (po_base _ _ _ Hpo1) as Hba. simpl in Hpo1, Hres. pose proof (ba_config _ _ Hba) as Ecfg.
  assert (Hstop : count_txs (tp_pending pool1) <= GlobalSlots (tp_config pool1) ->
    exists pool', Done pool1 = Done pool' /\ pool_inv D pool' /\ (exists A, pending_only A pool pool') /\ within_slots pool').
  { intros Hle. exists pool1. split; [done|]. split; [done|]. split; [by eexists|by left]. }
  destruct (Z.ltb_spec (GlobalSlots (tp_config pool1)) (count_txs (tp_pending pool1))) as [Hgt1|Hle1];
    [|destruct (last O); by apply Hstop].
  destruct Hres as [Hres|((n1 & He1) & HpO & HndO)]; [rewrite Ecfg in Hgt1; lia|].
  assert (HinO : forall a l, tp_pending pool !! a = Some l -> spamming pool (a, l) -> a ∈ O).
  { intros a l Hl Hs. rewrite HpO, Hfst. apply list_elem_of_fmap. exists (a, l). split; [done|]. apply Hin; [|done].
    rewrite range_perm. by apply elem_of_map_to_list. }
  assert (Hpo : pending_only O pool pool1) by (eapply pending_only_mono; [|exact Hpo1]; by rewrite HpO).
  destruct (last O) as [addr|] eqn:Elast.
  - destruct (cap_rounds_spec D O addr (AccountSlots (tp_config pool1)) (Z.to_nat (count_txs (tp_pending pool1))) n1 pool1)
      as (pool2 & n2 & -> & HI2 & Hpo2 & He2 & Hor & _ & _); [done|done|by apply last_Some_elem_of|done|lia|done|lia|].
    cbn [outcome_bind snd]. exists pool2. split; [done|]. split; [done|].
    assert (Hpo' : pending_only O pool pool2) by (by eapply pending_only_trans). split; [by eexists|].
    destruct Hor as [Hor|Hor]; [left; by rewrite (ba_config _ _ (po_base _ _ _ Hpo2))|]. apply (spammers_cut pool pool2 O n2); try done.
    left. by rewrite <-Ecfg.
  - exists pool1. split; [done|]. split; [done|]. split; [by eexists|]. apply (spammers_cut pool pool1 O n1); try done. right. by apply last_None.
Qed.
End PoolPending.

(** Cutting the queued transactions down to their limit, and eviction. *)

Section PoolQueue.
Context {S M : Type} {PC : PoolChain S M} {PS : PoolChainSpec S M} `{CR : Crypto} `{RO : RangeOrder} `{SO : SortOrder}.
Implicit Types (pool : TxPool (S := S) (M := M)) (P Q : gmap Address txList) (F R : list Transaction) (D : list Hash).
Implicit Types (a : Address) (tx : Transaction) (l : txList) (b : bool).

(** Queues change only at the accounts [A], and pending lists do not. *)
Record queue_only (A : list Address) pool pool' : Prop := {
  qo_base : base pool pool';
  qo_keeps : keeps_order pool pool';
  qo_pending : tp_pending pool' = tp_pending pool;
  qo_beats : tp_beats pool' = tp_beats pool;
  qo_queue : forall a, a ∉ A -> tp_queue pool' !! a = tp_queue pool !! a;
  qo_sub : forall s x, look (tp_queue pool') s = Some x -> look (tp_queue pool) s = Some x
}.
Lemma queue_only_refl A pool : queue_only A pool pool.
Proof. by split; [apply base_refl|apply keeps_order_refl|..]. Qed.
Lemma queue_only_trans A pool1 pool2 pool3 : queue_only A pool1 pool2 -> queue_only A pool2 pool3 -> queue_only A pool1 pool3.
Proof.
  intros [B1 K1 P1 T1 Q1 S1] [B2 K2 P2 T2 Q2 S2]. split; [by eapply base_trans|by eapply keeps_order_trans|congruence|congruence| |auto].
  intros a Ha. by rewrite Q2, Q1.
Qed.
Lemma queue_only_mono A B pool pool' : A ⊆ B -> queue_only A pool pool' -> queue_only B pool pool'.
Proof. intros HAB []. split; try done. intros a Ha. apply qo_queue0. set_solver. Qed.

Lemma removeTx_queued oob D pool tx :
  pool_inv D pool -> look (tp_queue pool) (slot_of (tp_signer pool) tx) = Some tx ->
  removeTx (hash_of tx) oob pool = remove_queued (from_of (tp_signer pool) tx) tx (unlisted (hash_of tx) oob pool).
Proof.
  intros [Hi _ _] Hx. unfold removeTx, lk_Get.
  rewrite (placed_known _ _ _ _ tx (inv_placed _ _ _ _ _ Hi)) by (right; exists false; exact Hx).
  set (a := from_of (tp_signer pool) tx). fold (unlisted (hash_of tx) oob pool). destruct (unlisted_quiet (hash_of tx) oob pool) as [Hq _].
  assert (El : tp_pending (unlisted (hash_of tx) oob pool) !! a = tp_pending pool !! a) by (by rewrite (qu_pending _ _ Hq)).
  rewrite El. destruct (tp_pending pool !! a) as [l|] eqn:Hl; [|done].
  assert (Hn : tl_items l !! tx_Nonce tx = None).
  { destruct (tl_items l !! tx_Nonce tx) as [y|] eqn:Ey; [|done].
    pose proof (c_disj _ _ _ _ (inv_placed _ _ _ _ _ Hi) (a, tx_Nonce tx) y) as Hd. unfold view in Hd. rewrite (look_list _ _ _ _ Hl) in Hd.
    specialize (Hd Ey). unfold slot_of in Hx. fold a in Hx. congruence. }
  pose proof (tl_Remove_spec _ _ tx l (inv_pending _ _ _ _ _ Hi a l Hl)) as HR. rewrite Hn in HR. rewrite HR. cbn [outcome_bind negb].
  by rewrite insert_id, set_pending_id.
Qed.

Lemma remove_queue_tx D pool tx :
  pool_inv D pool -> look (tp_queue pool) (slot_of (tp_signer pool) tx) = Some tx ->
  exists pool', removeTx (hash_of tx) true pool = Done pool' /\ pool_inv D pool' /\
    queue_only [from_of (tp_signer pool) tx] pool pool' /\ count_txs (tp_queue pool') = count_txs (tp_queue pool) - 1 /\
    (forall s, look (tp_queue pool') s = if decide (s = slot_of (tp_signer pool) tx) then None else look (tp_queue pool) s).
Proof.
  intros HI Hx. pose proof (removeTx_queued true D pool tx HI Hx) as Er.
  destruct (removeTx_spec (hash_of tx) true D pool) as (pool1 & E1 & _ & _ & _ & Hb & Hk); [eapply pool_inv_weaken; [done|set_solver]|].
  destruct (remove_queued_spec D true pool tx) as (pool' & E & HI' & Hfr & _ & _ & _ & Hqv & HP & HT & l & l' & Hl & HQ & HR);
    [eapply pool_inv_weaken; [done|set_solver]|done|].
  rewrite E in Er. assert (pool1 = pool') as -> by congruence. exists pool'. split; [done|]. split; [done|]. split; [|split; [|done]].
  - split; [done|done|done|done| |intros s x Hs; unfold at_slot, view in Hqv; rewrite Hqv in Hs; by case_decide]. intros a Ha. rewrite HQ. unfold put_list. case_match; [rewrite lookup_delete_ne|rewrite lookup_insert_ne]; set_solver.
  - rewrite HQ, (count_put _ _ l) by done. pose proof (removes_size _ _ _ HR) as Hs. unfold tl_Len, sm_Len. simpl in Hs. lia.
Qed.

Lemma remove_queue_txs D a R : forall pool,
  pool_inv D pool -> NoDup (map (slot_of (tp_signer pool)) R) ->
  Forall (fun tx => from_of (tp_signer pool) tx = a /\ look (tp_queue pool) (slot_of (tp_signer pool) tx) = Some tx) R ->
  exists pool', for_each (remove_hash true) R pool = Done pool' /\ pool_inv D pool' /\ queue_only [a] pool pool' /\
    count_txs (tp_queue pool') = count_txs (tp_queue pool) - len R /\
    (forall s, look (tp_queue pool') s = if decide (s ∈ map (slot_of (tp_signer pool)) R) then None else look (tp_queue pool) s).
Proof.
  induction R as [|tx R IH]; intros pool HI Hnd HR; cbn [for_each].
  { exists pool. split; [done|]. split; [done|]. split; [apply queue_only_refl|]. split; [unfold len; simpl; lia|done]. }
  simpl in Hnd. apply NoDup_cons in Hnd as [Hn Hnd]. apply Forall_cons in HR as [[Ha Hx] HR].
  destruct (remove_queue_tx D pool tx HI Hx) as (pool1 & E1 & HI1 & Hqo1 & Hc1 & Hl1). unfold remove_hash at 1. rewrite E1. cbn [outcome_bind].
  pose proof (ba_signer _ _ (qo_base _ _ _ Hqo1)) as Esig. rewrite Ha in Hqo1.
  destruct (IH pool1 HI1) as (pool' & E & HI' & Hqo & Hc & Hl); rewrite ?Esig; [done| |].
  { rewrite Forall_forall in HR |- *. intros y Hy. destruct (HR y Hy) as [Hya Hyx]. split; [done|]. rewrite Hl1, decide_False; [done|].
    intros E. apply Hn. rewrite <-E. apply list_elem_of_fmap. by exists y. }
  exists pool'. split; [exact E|]. split; [done|]. split; [by eapply queue_only_trans|]. split; [rewrite len_cons; lia|].
  intros s. rewrite Hl, Esig, Hl1. simpl. destruct (decide (s ∈ map (slot_of (tp_signer pool)) R)); [by rewrite decide_True by (by right)|].
  destruct (decide (s = slot_of (tp_signer pool) tx)) as [->|]; [by rewrite decide_True by (by left)|]. by rewrite decide_False by (by intros [?|?]%elem_of_cons).
Qed.

Lemma drop_last_take drop txs : forall pool,
  0 <= drop -> drop_last_txs drop txs pool =
    (let* pool := for_each (remove_hash true) (take (Z.to_nat drop) txs) pool in Done (drop - len (take (Z.to_nat drop) txs), pool)).
Proof.
  revert drop. induction txs as [|tx txs IH]; intros drop pool Hd; cbn [drop_last_txs].
  { rewrite take_nil. cbn [for_each outcome_bind]. unfold len. simpl. do 2 f_equal. lia. }
  destruct (Z.ltb_spec 0 drop) as [Hpos|H0].
  - replace (Z.to_nat drop) with (Datatypes.S (Z.to_nat (drop - 1))) by lia. cbn [take for_each].
    destruct (remove_hash true tx pool) as [pool1| |]; [|done|done]. cbn [outcome_bind]. rewrite IH by lia. rewrite len_cons.
    destruct (for_each _ _ pool1); [|done|done]. cbn [outcome_bind]. do 2 f_equal. lia.
  - replace (Z.to_nat drop) with O by lia. cbn [take for_each outcome_bind]. unfold len. simpl. do 2 f_equal. lia.
Qed.

Lemma keeps_order_frame pool pool' : frame [] pool pool' -> keeps_order pool pool'.
Proof. intros Hf. split; intros a Ha; [|intros Hw]; [eapply in_order_frame|eapply waiting_frame]; try done; set_solver. Qed.

(** Flattening a queue only fills its cache. *)
Lemma flatten_queue D pool a l :
  pool_inv D pool -> tp_queue pool !! a = Some l ->
  let txs := (tl_Flatten l).1 in
  let pool' := tp_set_queue (<[a := (tl_Flatten l).2]> (tp_queue pool)) pool in
  pool_inv D pool' /\ queue_only [a] pool pool' /\ count_txs (tp_queue pool') = count_txs (tp_queue pool) /\
  (forall s, look (tp_queue pool') s = look (tp_queue pool) s) /\ len txs = tl_Len l /\ NoDup (map (slot_of (tp_signer pool)) txs) /\
  Forall (fun tx => from_of (tp_signer pool) tx = a /\ look (tp_queue pool) (slot_of (tp_signer pool) tx) = Some tx) txs /\
  (forall n, is_Some (look (tp_queue pool) (a, n)) -> (a, n) ∈ map (slot_of (tp_signer pool)) txs).
Proof.
  intros [Hi HfQ HfP] Hl txs pool'. pose proof (inv_queue _ _ _ _ _ Hi a l Hl) as Hok.
  destruct (tl_Flatten_spec _ _ l Hok) as ((Hp & Hs) & Hl' & Hit). fold txs in Hp, Hs. set (l' := (tl_Flatten l).2) in *.
  assert (Hlook : forall s, look (tp_queue pool') s = look (tp_queue pool) s).
  { intros s. unfold pool'. simpl. rewrite look_insert, Hit. case_decide as Hd; [|done]. destruct s as [c n]. simpl in *. subst c. by rewrite (look_list _ _ _ _ Hl). }
  pose proof (ok_items _ (tl_ok_map _ _ _ Hok)) as Hitems.
  assert (Hgood : forall tx, tx ∈ txs -> slot_of (tp_signer pool) tx = (a, tx_Nonce tx) /\ tl_items l !! tx_Nonce tx = Some tx).
  { intros tx Htx. rewrite Hp in Htx. apply elem_values in Htx; [|done]. split; [|done]. apply good_slot. by apply (tl_ok_items _ _ _ Hok _ _ Htx). }
  assert (Hslots : map (slot_of (tp_signer pool)) txs = map (fun n => (a, n)) (map tx_Nonce txs)).
  { rewrite map_map. apply map_ext_in. intros tx Hin%list_elem_of_In. by apply Hgood. }
  split; [split; [| |done]|].
  - apply (inv_set _ _ _ _ pool); try done; try apply Hi. apply (inv_same _ _ _ _ _ _ _ Hi); [done|exact Hlook|apply Hi|].
    apply lists_ok_insert; [apply Hi|done].
  - unfold pool'. cbn [tp_set_queue tp_set_lists tp_queue]. intros c k [[<- <-]|[_ Hk]]%lookup_insert_Some; [rewrite Hit|]; by eapply HfQ.
  - assert (Hfr : frame [] pool pool') by (apply frame_lists; done). split; [|split; [|split; [done|split; [|split; [|split]]]]].
    + split; [by eapply frame_base|by apply keeps_order_frame|done|done| |intros s x; by rewrite Hlook]. intros c Hc. unfold pool'. simpl. rewrite lookup_insert_ne; set_solver.
    + unfold pool'. simpl. rewrite (count_update _ _ l) by done. unfold tl_Len, sm_Len. rewrite Hit. lia.
    + unfold len, tl_Len, sm_Len. rewrite (Permutation_length Hp), length_fmap, length_map_to_list. done.
    + rewrite Hslots. apply NoDup_fmap_2; [by intros ? ? [= ->]|]. rewrite Hp. by apply items_NoDup.
    + apply Forall_forall. intros tx Htx. destruct (Hgood tx Htx) as [Hsl Hx]. rewrite Hsl. split; [by apply (f_equal fst) in Hsl|].
      by rewrite (look_list _ _ _ _ Hl).
    + intros n [x Hx]. rewrite (look_list _ _ _ _ Hl) in Hx. rewrite Hslots. apply list_elem_of_fmap. exists n. split; [done|].
      apply list_elem_of_fmap. exists x. destruct (Hitems _ _ Hx) as [En _]. split; [done|]. rewrite Hp, (elem_values _ _ Hitems). by rewrite En.
Qed.

(** Without transactions there is no queue. *)
Lemma queue_gone D pool a : pool_inv D pool -> (forall n, look (tp_queue pool) (a, n) = None) -> tp_queue pool !! a = None.
Proof.
  intros [_ HfQ _] Hn. destruct (tp_queue pool !! a) as [l|] eqn:Hl; [|done]. exfalso. apply (HfQ a l Hl). apply map_eq. intros n.
  rewrite lookup_empty, <-(Hn n). by rewrite (look_list _ _ _ _ Hl).
Qed.

(** Removing all queued transactions of an account. *)
Lemma empty_queue D pool a l :
  pool_inv D pool -> tp_queue pool !! a = Some l ->
  exists pool', for_each (remove_hash true) (tl_Flatten l).1 (tp_set_queue (<[a := (tl_Flatten l).2]> (tp_queue pool)) pool) = Done pool' /\
    pool_inv D pool' /\ queue_only [a] pool pool' /\ count_txs (tp_queue pool') = count_txs (tp_queue pool) - tl_Len l /\
    tp_queue pool' !! a = None.
Proof.
  intros HI Hl. destruct (flatten_queue D pool a l HI Hl) as (HI1 & Hqo1 & Hc1 & Hlook1 & Hlen & Hnd & HR & Hall).
  set (pool1 := tp_set_queue _ pool) in *.
  destruct (remove_queue_txs D a (tl_Flatten l).1 pool1 HI1) as (pool' & E & HI' & Hqo & Hc & Hlook); [done| |].
  { eapply Forall_impl; [exact HR|]. intros tx [H1 H2]. split; [done|]. by rewrite Hlook1. }
  exists pool'. split; [done|]. split; [done|]. split; [by eapply queue_only_trans|]. split; [lia|]. apply (queue_gone D); [done|].
  intros n. rewrite Hlook, Hlook1. case_decide as Hd; [done|]. destruct (look (tp_queue pool) (a, n)) eqn:Ex; [|done].
  exfalso. apply Hd. apply Hall. by rewrite Ex.
Qed.

Lemma drop_queued_spec D addrs : forall drop pool,
  pool_inv D pool -> is_u64 drop -> NoDup (map fst addrs) -> Forall (fun x => is_Some (tp_queue pool !! x.1)) addrs ->
  exists pool', drop_queued drop addrs pool = Done pool' /\ pool_inv D pool' /\ queue_only (map fst addrs) pool pool' /\
    (count_txs (tp_queue pool') = count_txs (tp_queue pool) - drop \/ Forall (fun x => tp_queue pool' !! x.1 = None) addrs).
Proof.
  induction addrs as [|[a t] addrs IH]; intros drop pool HI Hd Hnd Hin; cbn [drop_queued].
  { exists pool. split; [done|]. split; [done|]. split; [apply queue_only_refl|by right]. }
  simpl in Hnd. apply NoDup_cons in Hnd as [Hna Hnd]. apply Forall_cons in Hin as [[l Hl] Hin]. simpl in Hl.
  destruct (Z.ltb_spec 0 drop) as [Hpos|H0].
  2:{ exists pool. split; [done|]. split; [done|]. split; [apply queue_only_refl|left; unfold is_u64 in Hd; lia]. }
  cbn [fst]. rewrite Hl. destruct (empty_queue D pool a l HI Hl) as (pool2 & E2 & HI2 & Hqo2 & Hc2 & Hgone).
  destruct (flatten_queue D pool a l HI Hl) as (HI1 & Hqo1 & Hc1 & Hlook1 & Hlen & Hndt & HR & _).
  destruct (tl_Flatten l) as [txs l'] eqn:Efl. cbn [fst snd] in *. set (pool1 := tp_set_queue _ pool) in *.
  destruct (Z.leb_spec (tl_Len l) drop) as [Hle|Hgt].
  - rewrite E2. cbn [outcome_bind]. pose proof (tl_Len_nonneg l). rewrite u64_small by (unfold is_u64 in *; lia).
    destruct (IH (drop - tl_Len l) pool2 HI2) as (pool' & E & HI' & Hqo & Hres); [unfold is_u64 in *; lia|done| |].
    { rewrite Forall_forall in Hin |- *. intros x Hx. rewrite (qo_queue _ _ _ Hqo2); [by apply Hin|].
      intros E%list_elem_of_singleton. apply Hna. rewrite <-E. apply list_elem_of_fmap. by exists x. }
    exists pool'. split; [done|]. split; [done|]. split.
    { apply (queue_only_trans _ _ pool2); (eapply queue_only_mono; [|done]); simpl; set_solver. }
    destruct Hres as [Hres|Hres]; [left; lia|right]. constructor; [|done]. simpl. by rewrite (qo_queue _ _ _ Hqo).
  - rewrite drop_last_take by lia. set (R := take (Z.to_nat drop) (rev txs)).
    assert (HsubR : forall x, x ∈ R -> x ∈ txs) by (intros x Hx; apply list_elem_of_In, in_rev, list_elem_of_In; apply (elem_of_sublist _ _ _ Hx), sublist_take).
    assert (HlR : len R = drop) by (unfold R, len in *; rewrite length_take, length_rev; unfold is_u64 in Hd; lia).
    destruct (remove_queue_txs D a R pool1 HI1) as (pool3 & E3 & HI3 & Hqo3 & Hc3 & _).
    { change (tp_signer pool1) with (tp_signer pool). unfold R. rewrite <-firstn_map, map_rev.
      eapply sublist_NoDup; [|apply sublist_take]. by rewrite <-Permutation_rev. }
    { apply Forall_forall. intros x Hx. rewrite Forall_forall in HR. destruct (HR x (HsubR x Hx)) as [H1 H2]. split; [done|]. by rewrite Hlook1. }
    rewrite E3. cbn [outcome_bind fst snd]. rewrite HlR, Z.sub_diag.
    assert (Ez : drop_queued 0 addrs pool3 = Done pool3) by (by destruct addrs). rewrite Ez. exists pool3. split; [done|]. split; [done|].
    split; [|left; lia]. apply (queue_only_trans _ _ pool1); (eapply queue_only_mono; [|done]); simpl; set_solver.
Qed.

Definition within_queue pool : Prop :=
  count_txs (tp_queue pool) <= GlobalQueue (tp_config pool) \/
  (forall a, is_Some (tp_queue pool !! a) -> as_contains a (tp_locals pool) = true).

Lemma truncate_queue_spec D pool :
  pool_inv D pool -> is_u64 (count_txs (tp_queue pool)) ->
  exists pool', truncate_queue pool = Done pool' /\ pool_inv D pool' /\ (exists A, queue_only A pool pool') /\ within_queue pool'.
Proof.
  intros HI Hu. pose proof (inv_config _ _ _ _ _ (pi_inv _ _ HI)) as (_ & _ & _ & (Hg & _)). unfold truncate_queue.
  destruct (Z.ltb_spec (GlobalQueue (tp_config pool)) (count_txs (tp_queue pool))) as [Hgt|Hle].
  2:{ exists pool. split; [done|]. split; [done|]. split; [exists []; apply queue_only_refl|by left]. }
  set (addrs := rev _). set (beat := fun kv : Address * txList => (kv.1, default 0 (tp_beats pool !! kv.1))) in *.
  assert (Hp : addrs ≡ₚ filter (fun ab => as_contains ab.1 (tp_locals pool) = false) (map beat (range (tp_queue pool)))).
  { unfold addrs. rewrite <-Permutation_rev. apply go_sort_perm. }
  assert (Hfst : map fst (map beat (range (tp_queue pool))) = (range (tp_queue pool)).*1) by (by rewrite map_map).
  assert (Hkeys : forall a, a ∈ map fst addrs <-> is_Some (tp_queue pool !! a) /\ as_contains a (tp_locals pool) = false).
  { intros a. rewrite <-elem_of_range_keys, <-Hfst, Hp, !list_elem_of_fmap. setoid_rewrite list_elem_of_filter. naive_solver. }
  destruct (drop_queued_spec D addrs (count_txs (tp_queue pool) - GlobalQueue (tp_config pool)) pool HI) as (pool' & E & HI' & Hqo & Hres).
  - unfold is_u64 in *. lia.
  - rewrite Hp. eapply sublist_NoDup; [|apply fmap_sublist, sublist_filter]. change (NoDup (map fst (map beat (range (tp_queue pool))))). rewrite Hfst. apply NoDup_range_keys.
  - apply Forall_forall. intros x Hx. apply Hkeys. apply list_elem_of_fmap. by exists x.
  - exists pool'. split; [done|]. split; [done|]. split; [by eexists|]. unfold within_queue. rewrite (ba_config _ _ (qo_base _ _ _ Hqo)), (ba_locals _ _ (qo_base _ _ _ Hqo)).
    destruct Hres as [Hres|Hres]; [left; lia|right]. intros a Ha. destruct (as_contains a (tp_locals pool)) eqn:Eloc; [done|exfalso].
    destruct (decide (a ∈ map fst addrs)) as [Hin|Hin].
    + apply list_elem_of_fmap in Hin as (x & -> & Hx). rewrite Forall_forall in Hres. rewrite (Hres x Hx) in Ha. by destruct Ha.
    + rewrite (qo_queue _ _ _ Hqo) in Ha by done. by apply Hin, Hkeys.
Qed.

(** Who is evicted. *)
Definition expired (now : Z) pool a : bool :=
  negb (as_contains a (tp_locals pool)) && (Lifetime (tp_config pool) <? time_Since now (default 0 (tp_beats pool !! a))).

Lemma evict_account_spec now D pool a :
  pool_inv D pool ->
  exists pool', evict_account now a pool = Done pool' /\ pool_inv D pool' /\ queue_only [a] pool pool' /\
    tp_queue pool' !! a = if expired now pool a then None else tp_queue pool !! a.
Proof.
  intros HI. unfold evict_account, expired.
  destruct (as_contains a (tp_locals pool)); cbn [negb andb]; [exists pool; split; [done|]; split; [done|]; split; [apply queue_only_refl|done]|].
  destruct (Lifetime _ <? _); [|exists pool; split; [done|]; split; [done|]; split; [apply queue_only_refl|done]].
  destruct (tp_queue pool !! a) as [l|] eqn:Hl; [|exists pool; split; [done|]; split; [done|]; split; [apply queue_only_refl|done]].
  destruct (empty_queue D pool a l HI Hl) as (pool' & E & HI' & Hqo & _ & Hgone). exists pool'.
  destruct (tl_Flatten l) as [txs l']. cbn [fst snd] in E. done.
Qed.

Lemma evict_loop now D accounts : forall pool,
  pool_inv D pool ->
  exists pool', for_each (evict_account now) accounts pool = Done pool' /\ pool_inv D pool' /\ queue_only accounts pool pool' /\
    forall a, a ∈ accounts -> tp_queue pool' !! a = if expired now pool a then None else tp_queue pool !! a.
Proof.
  induction accounts as [|a accounts IH]; intros pool HI; cbn [for_each].
  { exists pool. split; [done|]. split; [done|]. split; [apply queue_only_refl|]. by intros a ?%elem_of_nil. }
  destruct (evict_account_spec now D pool a HI) as (pool1 & -> & HI1 & Hqo1 & Ha1). cbn [outcome_bind].
  destruct (IH pool1 HI1) as (pool' & E & HI' & Hqo & Hq). exists pool'. split; [exact E|]. split; [done|].
  split; [apply (queue_only_trans _ _ pool1); (eapply queue_only_mono; [|done]); set_solver|].
  assert (Hex : forall c, expired now pool1 c = expired now pool c).
  { intros c. unfold expired. by rewrite (ba_config _ _ (qo_base _ _ _ Hqo1)), (ba_locals _ _ (qo_base _ _ _ Hqo1)), (qo_beats _ _ _ Hqo1). }
  intros c [->|Hc]%elem_of_cons.
  - destruct (decide (a ∈ accounts)) as [Hin|Hin]; [rewrite (Hq a Hin), Ha1, Hex; by destruct (expired now pool a)|].
    by rewrite (qo_queue _ _ _ Hqo).
  - rewrite (Hq c Hc), Hex. destruct (expired now pool c) eqn:Ec; [done|]. destruct (decide (c = a)) as [->|Hne]; [by rewrite Ha1, Ec|].
    apply (qo_queue _ _ _ Hqo1). set_solver.
Qed.

(** [evict] empties exactly the queues of the remote accounts whose last
    heartbeat is too old. *)
Lemma evict_spec now D pool :
  pool_inv D pool ->
  exists pool', evict now pool = Done pool' /\ pool_inv D pool' /\ queue_only (map fst (range (tp_queue pool))) pool pool' /\
    forall a, tp_queue pool' !! a = if expired now pool a then None else tp_queue pool !! a.
Proof.
  intros HI. unfold evict. destruct (evict_loop now D (map fst (range (tp_queue pool))) pool HI) as (pool' & E & HI' & Hqo & Hq).
  exists pool'. split; [done|]. split; [done|]. split; [done|]. intros a.
  destruct (decide (a ∈ map fst (range (tp_queue pool)))) as [Hin|Hin]; [by apply Hq|].
  rewrite (qo_queue _ _ _ Hqo) by done. destruct (tp_queue pool !! a) eqn:El; [|by destruct (expired now pool a)].
  exfalso. apply Hin. apply elem_of_range_keys. by rewrite El.
Qed.
End PoolQueue.

(** [promoteExecutables]: what it promotes, and the limits it leaves. *)

Section PoolPromote.
Context {S M : Type} {PC : PoolChain S M} {PS : PoolChainSpec S M} `{CR : Crypto} `{RO : RangeOrder} `{SO : SortOrder}.
Implicit Types (pool : TxPool (S := S) (M := M)) (P Q : gmap Address txList) (F R : list Transaction) (D : list Hash).
Implicit Types (a : Address) (tx : Transaction) (l : txList) (b : bool).

(** ** The number of transactions *)

Definition txs_of (m : gmap Address txList) : list Transaction := map_to_list m ≫= fun kv => (map_to_list (tl_items kv.2)).*2.

Lemma length_txs_of m : len (txs_of m) = count_txs m.
Proof.
  unfold txs_of, count_txs, len. induction (map_to_list m) as [|kv L IH]; [done|]. rewrite bind_cons, length_app, length_fmap, length_map_to_list.
  cbn [foldr]. rewrite <-IH. unfold tl_Len, sm_Len. lia.
Qed.
Section Members.
Context {signer : Signer} {strict : bool} {m : gmap Address txList}.
Hypothesis Hm : lists_ok signer strict m.
Lemma elem_txs_of tx : tx ∈ txs_of m <-> look m (slot_of signer tx) = Some tx.
Proof using Hm.
  unfold txs_of. rewrite list_elem_of_bind. split.
  - intros ([a l] & Htx & Hl%elem_of_map_to_list). simpl in Htx. pose proof (Hm a l Hl) as Hok.
    apply elem_values in Htx; [|apply (tl_ok_map _ _ _ Hok)]. rewrite (good_slot signer tx a) by (by apply (tl_ok_items _ _ _ Hok _ _ Htx)).
    by rewrite (look_list _ _ _ _ Hl).
  - unfold look. destruct (m !! (slot_of signer tx).1) as [l|] eqn:Hl; [|done]. intros Hx. exists ((slot_of signer tx).1, l).
    split; [|by apply elem_of_map_to_list]. simpl. apply elem_values; [apply (tl_ok_map _ _ _ (Hm _ _ Hl))|done].
Qed.
Lemma NoDup_txs_of : NoDup (txs_of m).
Proof using Hm.
  apply NoDup_bind; [| |apply NoDup_map_to_list].
  - intros [a l] [c k] tx Hl%elem_of_map_to_list Hk%elem_of_map_to_list Hx Hy. simpl in Hx, Hy.
    apply elem_values in Hx; [|apply (tl_ok_map _ _ _ (Hm _ _ Hl))]. apply elem_values in Hy; [|apply (tl_ok_map _ _ _ (Hm _ _ Hk))].
    destruct (tl_ok_items _ _ _ (Hm _ _ Hl) _ _ Hx) as [[E1 _] _]. destruct (tl_ok_items _ _ _ (Hm _ _ Hk) _ _ Hy) as [[E2 _] _].
    assert (a = c) as -> by congruence. f_equal. congruence.
  - intros [a l] Hl%elem_of_map_to_list. simpl. apply (NoDup_fmap_1 tx_Nonce), items_NoDup, (tl_ok_map _ _ _ (Hm _ _ Hl)).
Qed.
End Members.

(** The pool knows just the transactions in its lists. *)
Lemma pool_count D pool : pool_inv D pool -> count_txs (tp_pending pool) + count_txs (tp_queue pool) = Z.of_nat (size (tp_all pool)).
Proof.
  intros [[Hp HP HQ _ _ _ _ _ _] _ _].
  assert (Hperm : (map_to_list (tp_all pool)).*2 ≡ₚ txs_of (tp_pending pool) ++ txs_of (tp_queue pool)).
  { apply NoDup_Permutation.
    - apply (NoDup_fmap_1 hash_of). rewrite <-list_fmap_compose.
      erewrite (list_fmap_ext (hash_of ∘ snd) fst); [apply NoDup_fst_map_to_list|].
      intros i [h tx] Hi%list_elem_of_lookup_2%elem_of_map_to_list. simpl. symmetry. by eapply placed_hash.
    - apply NoDup_app. split; [by eapply NoDup_txs_of|]. split; [|by eapply NoDup_txs_of]. intros tx Hx Hy.
      apply (elem_txs_of HP) in Hx. apply (elem_txs_of HQ) in Hy. pose proof (c_disj _ _ _ _ Hp _ _ Hx) as Hd. unfold view in Hd. congruence.
    - intros tx. rewrite elem_of_app, (elem_txs_of HP), (elem_txs_of HQ), list_elem_of_fmap. split.
      + intros ([h y] & -> & Hy%elem_of_map_to_list). apply (c_all _ _ _ _ Hp) in Hy as (_ & [?%elem_of_nil|[[] Hb]]); [done|by left|by right].
      + intros Hx. exists (hash_of tx, tx). split; [done|]. apply elem_of_map_to_list, (c_all _ _ _ _ Hp). split; [done|]. right.
        destruct Hx; [exists true|exists false]; done. }
  apply Permutation_length in Hperm. rewrite length_fmap, length_map_to_list, length_app in Hperm.
  rewrite <-!length_txs_of. unfold len. lia.
Qed.
Lemma pool_bounds D pool :
  pool_inv D pool -> Z.of_nat (size (tp_all pool)) <= 2 ^ 24 ->
  (forall a l, tp_pending pool !! a = Some l -> tl_Len l <= 2 ^ 24) /\ is_u64 (count_txs (tp_pending pool)) /\ is_u64 (count_txs (tp_queue pool)).
Proof.
  intros HI Hs. pose proof (pool_count D pool HI). pose proof (count_txs_nonneg (tp_pending pool)). pose proof (count_txs_nonneg (tp_queue pool)).
  unfold is_u64. split; [|lia]. intros a l Hl. pose proof (count_member _ _ _ Hl). lia.
Qed.

(** ** Promotion *)

(** A remote account has no more queued transactions than allowed. *)
Definition capped pool a : Prop :=
  forall l, tp_queue pool !! a = Some l -> as_contains a (tp_locals pool) = false -> tl_Len l <= AccountQueue (tp_config pool).
Lemma capped_sub pool pool' a :
  0 <= AccountQueue (tp_config pool) -> tp_config pool' = tp_config pool -> tp_locals pool' = tp_locals pool ->
  (forall n x, look (tp_queue pool') (a, n) = Some x -> look (tp_queue pool) (a, n) = Some x) -> capped pool a -> capped pool' a.
Proof.
  intros H0 Ec El Hsub Hc l Hl Hloc. rewrite Ec. rewrite El in Hloc. unfold look in Hsub. simpl in Hsub. rewrite Hl in Hsub.
  destruct (tp_queue pool !! a) as [l0|] eqn:Hl0.
  - etransitivity; [|by apply Hc]. unfold tl_Len, sm_Len. apply inj_le, map_subseteq_size, map_subseteq_spec. apply Hsub.
  - unfold tl_Len, sm_Len. replace (tl_items l) with (∅ : gmap Z Transaction); [rewrite map_size_empty; done|].
    symmetry. apply map_empty. intros n. destruct (tl_items l !! n) eqn:E; [|done]. by apply Hsub in E.
Qed.

Lemma promote_loop now D accounts : forall pool,
  pool_inv D pool ->
  exists pool', for_each (promote_account now) accounts pool = Done pool' /\ pool_inv D pool' /\ frame accounts pool pool' /\
    (forall a, in_order pool a -> in_order pool' a) /\
    (forall a, in_order pool a -> a ∈ accounts \/ waiting pool a -> waiting pool' a) /\
    (forall a, a ∈ accounts -> capped pool' a).
Proof.
  induction accounts as [|c accounts IH]; intros pool HI; cbn [for_each].
  { exists pool. split; [done|]. split; [done|]. split; [apply frame_refl|]. split; [done|]. split; [|by intros a ?%elem_of_nil].
    by intros a _ [?%elem_of_nil|?]. }
  destruct (promote_account_spec now c D pool HI) as (pool1 & -> & HI1 & Hfr1 & Ho1 & Hcap1). cbn [outcome_bind].
  destruct (IH pool1 HI1) as (pool' & E & HI' & Hfr & Ho & Hw & Hcap).
  assert (Ho1' : forall a, in_order pool a -> in_order pool1 a).
  { intros a Ha. destruct (decide (a = c)) as [->|]; [by apply Ho1|]. apply (in_order_frame [c] pool); [done|set_solver|done]. }
  exists pool'. split; [exact E|]. split; [done|]. split; [apply (frame_trans _ _ pool1); (eapply frame_mono; [|done]); set_solver|].
  split; [auto|]. split.
  - intros a Ha Hor. apply Hw; [by apply Ho1'|]. destruct (decide (a = c)) as [->|Hne]; [right; by apply Ho1|].
    destruct Hor as [[->|?]%elem_of_cons|Hwa]; [done|by left|right]. apply (waiting_frame [c] pool); [done|set_solver|done].
  - intros a [->|Ha]%elem_of_cons; [|by apply Hcap]. destruct (decide (c ∈ accounts)) as [Hin|Hin]; [by apply Hcap|].
    apply (capped_sub pool1); [|apply Hfr|apply Hfr| |].
    + destruct (inv_config _ _ _ _ _ (pi_inv _ _ HI1)) as ([? _] & _). done.
    + intros n x Hx. pose proof (fr_view _ _ _ Hfr false (c, n) Hin) as Ev. unfold at_slot, view in Ev. congruence.
    + intros l Hl. rewrite (fr_config _ _ _ Hfr1), (fr_locals _ _ _ Hfr1). by apply Hcap1.
Qed.

Lemma promoteExecutables_spec now accounts D pool :
  pool_inv D pool -> Z.of_nat (size (tp_all pool)) <= 2 ^ 24 ->
  let promoted := default (map fst (range (tp_queue pool))) accounts in
  exists pool', promoteExecutables now accounts pool = Done pool' /\ pool_inv D pool' /\ base pool pool' /\
    within_slots pool' /\ within_queue pool' /\ (forall a, a ∈ promoted -> capped pool' a) /\
    (forall a, in_order pool a -> in_order pool' a) /\ (forall a, in_order pool a -> a ∈ promoted \/ waiting pool a -> waiting pool' a).
Proof.
  intros HI Hsize promoted. unfold promoteExecutables. fold promoted.
  destruct (promote_loop now D promoted pool HI) as (pool1 & -> & HI1 & Hfr1 & Ho1 & Hw1 & Hcap1). cbn [outcome_bind].
  pose proof (fr_size _ _ _ Hfr1). destruct (pool_bounds D pool1 HI1) as (Hb1 & Hu1 & _); [lia|].
  destruct (truncate_pending_spec D pool1 HI1 Hb1 Hu1) as (pool2 & -> & HI2 & (A & Hpo) & Hslots). cbn [outcome_bind].
  pose proof (po_base _ _ _ Hpo) as Hb2. pose proof (ba_size _ _ Hb2). destruct (pool_bounds D pool2 HI2) as (_ & _ & Hu2); [lia|].
  destruct (truncate_queue_spec D pool2 HI2 Hu2) as (pool3 & -> & HI3 & (B & Hqo) & Hqueue). pose proof (qo_base _ _ _ Hqo) as Hb3.
  exists pool3. split; [done|]. split; [done|]. split; [eapply base_trans; [by eapply frame_base|by eapply base_trans]|].
  split.
  { unfold within_slots. rewrite (qo_pending _ _ _ Hqo), (ba_config _ _ Hb3), (ba_locals _ _ Hb3). done. }
  split; [done|]. split.
  { intros a Ha. destruct (inv_config _ _ _ _ _ (pi_inv _ _ HI1)) as ([? _] & _). apply (capped_sub pool1); [done| | | |by apply Hcap1].
    - rewrite (ba_config _ _ Hb3). apply Hb2.
    - rewrite (ba_locals _ _ Hb3). apply Hb2.
    - intros n x Hx. apply (qo_sub _ _ _ Hqo) in Hx. by rewrite (po_queue _ _ _ Hpo) in Hx. }
  assert (Hk : keeps_order pool1 pool3) by (eapply keeps_order_trans; [apply Hpo|apply Hqo]).
  split; [intros a Ha; by apply (ko_order _ _ Hk), Ho1|]. intros a Ha Hor. apply (ko_waiting _ _ Hk); [by apply Ho1|by apply Hw1].
Qed.
End PoolPromote.
