(* ===== verification/PoolAdd.v ===== *)
(** Adding transactions to the pool: validation, room, insertion, batches and
    the price limit. *)
From S2P Require Import Prelude BigMath Params Machine Vm StateTransition Transaction Heap TxList TxListFacts.
From S2P Require Import TxPriced PricedFacts TxPool PoolInv PoolAccounts PoolLimits.

(** Adding transactions to the pool. *)

Section PoolAdd.
Context {S M : Type} {PC : PoolChain S M} {PS : PoolChainSpec S M} `{CR : Crypto} `{RO : RangeOrder} `{SO : SortOrder}.
Implicit Types (pool : TxPool (S := S) (M := M)) (P Q : gmap Address txList) (F R : list Transaction) (D : list Hash).
Implicit Types (a : Address) (tx : Transaction) (l : txList) (b : bool).

Lemma pool_inv_quiet D pool pool' :
  pool_inv D pool -> inv (tp_pending pool) (tp_queue pool) [] D pool' -> quiet pool pool' -> pool_inv D pool'.
Proof.
  intros [Hi HQ HP] Hi' Hq. split; rewrite ?(qu_pending _ _ Hq), ?(qu_queue _ _ Hq), ?(fr_config _ _ _ (qu_frame _ _ Hq)); done.
Qed.

(** ** Validation *)

(** What the pool asks of a transaction of the account [a]. *)
Record acceptable pool (local : bool) tx a : Prop := {
  ac_size : size_of tx <= 32 * 1024;
  ac_value : 0 <= td_Amount (tx_data tx);
  ac_gas : tx_Gas tx <= tp_currentMaxGas pool;
  ac_sender : sender_of (tp_signer pool) tx = inr a;
  ac_price : local = true \/ as_contains a (tp_locals pool) = true \/ tp_gasPrice pool <= tx_GasPrice tx;
  ac_nonce : nonce_at pool a <= tx_Nonce tx;
  ac_cost : tx_Cost tx <= balance_at pool a;
  ac_intrinsic : exists g, IntrinsicGas (td_Payload (tx_data tx)) (bool_decide (td_Recipient (tx_data tx) = None)) (tp_homestead pool) = inr g /\
    g <= tx_Gas tx
}.


Lemma validateTx_spec D pool tx (local : bool) :
  pool_inv D pool ->
  exists err pool', validateTx tx local pool = (err, pool') /\ pool_inv D pool' /\ quiet pool pool' /\ tp_all pool' = tp_all pool /\
    (err = None <-> exists a, acceptable pool local tx a).
Proof.
  intros HI. unfold validateTx.
  assert (Hrej : forall (err : poolError) pool', pool_inv D pool' -> quiet pool pool' -> tp_all pool' = tp_all pool ->
    (forall a, ~ acceptable pool local tx a) -> exists err' pool'', (Some err, pool') = (err', pool'') /\
    pool_inv D pool'' /\ quiet pool pool'' /\ tp_all pool'' = tp_all pool /\ (err' = None <-> exists a, acceptable pool local tx a)).
  { intros err pool' H1 H2 H3 Hn. exists (Some err), pool'. do 4 (split; [done|]). split; [done|]. intros [a Ha]. by apply Hn in Ha. }
  pose proof (quiet_refl pool) as Hq0.
  destruct (Z.ltb_spec (32 * 1024) (size_of tx)); [apply Hrej; try done; intros a []; lia|].
  destruct (Z.ltb_spec (td_Amount (tx_data tx)) 0); [apply Hrej; try done; intros a []; lia|].
  destruct (Z.ltb_spec (tp_currentMaxGas pool) (tx_Gas tx)); [apply Hrej; try done; intros a []; lia|].
  destruct (sender_of (tp_signer pool) tx) as [e|a] eqn:Es; [apply Hrej; try done; intros c []; congruence|].
  assert (Ha : forall c, acceptable pool local tx c -> c = a) by (intros c []; congruence).
  destruct (negb (local || as_contains a (tp_locals pool)) && (tx_GasPrice tx <? tp_gasPrice pool)) eqn:Ep.
  { apply Hrej; try done. intros c Hc. rewrite (Ha c Hc) in Hc. destruct Hc.
    apply andb_true_iff in Ep as [Ep1 Ep2]. apply negb_true_iff, orb_false_iff in Ep1 as [-> Ep1]. destruct ac_price0 as [?|[?|?]]; [done|congruence|lia]. }
  assert (Hprice : local = true \/ as_contains a (tp_locals pool) = true \/ tp_gasPrice pool <= tx_GasPrice tx).
  { apply andb_false_iff in Ep as [Ep|Ep]; [|right; right; lia]. apply negb_false_iff, orb_true_iff in Ep. tauto. }
  destruct (current_nonce_spec (pi_inv _ _ HI) a) as (pool1 & E1 & Hi1 & Hq1). pose proof (pool_inv_quiet _ _ _ HI Hi1 Hq1) as HI1.
  assert (Ea1 : tp_all pool1 = tp_all pool) by (unfold current_nonce in E1; case_match; by simplify_eq).
  rewrite E1. destruct (Z.ltb_spec (tx_Nonce tx) (nonce_at pool a)).
  { apply Hrej; try done. intros c Hc. rewrite (Ha c Hc) in Hc. destruct Hc. lia. }
  destruct (current_balance_spec (pi_inv _ _ HI1) a) as (pool2 & E2 & Hi2 & Hq2). pose proof (pool_inv_quiet _ _ _ HI1 Hi2 Hq2) as HI2.
  assert (Ea2 : tp_all pool2 = tp_all pool) by (unfold current_balance in E2; case_match; by simplify_eq).
  assert (Hq : quiet pool pool2) by (by eapply quiet_trans).
  rewrite E2, (fr_balance _ _ _ (qu_frame _ _ Hq1)). destruct (Z.ltb_spec (balance_at pool a) (tx_Cost tx)).
  { apply Hrej; try done. intros c Hc. rewrite (Ha c Hc) in Hc. destruct Hc. lia. }
  rewrite (qu_homestead _ _ Hq). destruct (IntrinsicGas _ _ _) as [e|g] eqn:Eg.
  { apply Hrej; try done. intros c []. destruct ac_intrinsic0 as (g & ? & _). congruence. }
  destruct (Z.ltb_spec (tx_Gas tx) g).
  { apply Hrej; try done. intros c []. destruct ac_intrinsic0 as (g' & Eg' & Hg'). assert (g' = g) as -> by congruence. lia. }
  exists None, pool2. do 4 (split; [done|]). split; [|done]. intros _. exists a. split; try done. by exists g.
Qed.

(** ** Room *)

Lemma pool_inv_priced D D' pl pool : pool_inv D pool -> pl_ok (tp_all pool) D' pl -> pool_inv D' (tp_set_all (tp_all pool) pl pool).
Proof. intros [[] HQ HP] Hpl. split; try done; by split. Qed.

(** Pools with no limit on the number of transactions left. *)
Definition pool_full pool : Prop := u64 (GlobalSlots (tp_config pool) + GlobalQueue (tp_config pool)) <= lk_Count (tp_all pool).

(** Between [pool] and [pool'] only remote transactions go, and none that
    stays is cheaper. *)
Definition cheapest_gone pool pool' : Prop :=
  forall h, is_Some (tp_all pool !! h) -> tp_all pool' !! h = None ->
    exists x, hash_of x = h /\ as_containsTx x (tp_locals pool) = false /\
      forall k y, tp_all pool' !! k = Some y -> as_containsTx y (tp_locals pool) = false -> price_less y x = false.

Lemma cheapest_gone_same pool pool' : tp_all pool' = tp_all pool -> cheapest_gone pool pool'.
Proof. intros E h [x Hx]. rewrite E. congruence. Qed.

Lemma drop_remotes pool drop (l : txPricedList) :
  pool_inv [] pool -> pl_ok (tp_all pool) (map hash_of drop) l ->
  Forall (fun x => is_live (tp_all pool) x /\ as_containsTx x (tp_locals pool) = false) drop ->
  exists pool', for_each (remove_hash false) drop (tp_set_all (tp_all pool) l pool) = Done pool' /\ pool_inv [] pool' /\
    base pool pool' /\ keeps_order pool pool' /\ (forall h x, tp_all pool' !! h = Some x -> tp_all pool !! h = Some x) /\
    (forall h, is_Some (tp_all pool !! h) -> tp_all pool' !! h = None -> exists x, x ∈ drop /\ hash_of x = h) /\
    (forall h, h ∈ map hash_of drop -> tp_all pool' !! h = None).
Proof.
  intros HI Hl Hd. apply (pool_inv_priced _ _ _ _ HI) in Hl as HI1. set (pool1 := tp_set_all _ l pool) in *. rewrite <-(app_nil_r (map hash_of drop)) in HI1.
  destruct (for_each_remove false drop [] pool1 HI1) as (pool' & E & HI' & Hall & Hb & Hk).
  assert (Hq : quiet pool pool1) by (split; try done; by split).
  exists pool'. split; [done|]. split; [done|]. split; [eapply base_trans; [eapply frame_base, Hq|done]|]. split.
  { eapply keeps_order_trans; [|done]. split; [intros a; by apply quiet_in_order|]. intros a _. by apply (waiting_frame []), not_elem_of_nil. }
  change (tp_all pool1) with (tp_all pool) in Hall.
  split; [|split]; [intros h x|intros h [x Hx]|intros h Hh]; rewrite Hall.
  - by case_decide.
  - case_decide as Hd'; [|congruence]. intros _. apply list_elem_of_fmap in Hd' as (y & -> & Hy). by exists y.
  - by rewrite decide_True.
Qed.

Lemma room_count pool : pool_full pool -> is_u64 (GlobalSlots (tp_config pool)) -> is_u64 (GlobalQueue (tp_config pool)) ->
  Z.of_nat (size (tp_all pool)) <= 2 ^ 24 ->
  0 < lk_Count (tp_all pool) - int64_of (u64 (u64 (GlobalSlots (tp_config pool) + GlobalQueue (tp_config pool)) - 1)).
Proof.
  unfold pool_full, lk_Count. set (n := u64 (_ + _)). intros Hf _ _ Hs.
  assert (Hn : 0 <= n < 2 ^ 64) by (apply Z.mod_pos_bound; lia). clearbody n.
  destruct (decide (n = 0)) as [->|Hne]; [change (int64_of (u64 (0 - 1))) with (-1); lia|].
  rewrite u64_small by (unfold is_u64; lia). unfold int64_of. destruct (Z.ltb_spec (n - 1) (2 ^ 63)); lia.
Qed.

Lemma make_room_spec tx (local : bool) pool :
  pool_inv [] pool -> Z.of_nat (size (tp_all pool)) <= 2 ^ 24 ->
  exists ok pool', make_room tx local pool = Done (ok, pool') /\ pool_inv [] pool' /\ base pool pool' /\ keeps_order pool pool' /\
    (forall h x, tp_all pool' !! h = Some x -> tp_all pool !! h = Some x) /\ cheapest_gone pool pool' /\
    (tp_all pool' <> tp_all pool -> pool_full pool) /\
    (ok = false -> tp_all pool' = tp_all pool /\ pool_full pool /\ local = false /\ as_containsTx tx (tp_locals pool) = false /\
       forall h x, tp_all pool !! h = Some x -> tx_GasPrice tx <= tx_GasPrice x).
Proof.
  intros HI Hs. unfold make_room. destruct (Z.leb_spec (u64 (GlobalSlots (tp_config pool) + GlobalQueue (tp_config pool))) (lk_Count (tp_all pool))) as [Hfull|Hroom].
  2:{ exists true, pool. do 2 (split; [done|]). split; [apply base_refl|]. split; [apply keeps_order_refl|]. split; [done|].
      split; [by apply cheapest_gone_same|done]. }
  fold (pool_full pool) in Hfull. pose proof (inv_priced _ _ _ _ _ (pi_inv _ _ HI)) as Hpl.
  assert (Hund : exists b pl, (if local then Done (false, tp_priced pool) else pl_Underpriced (tp_all pool) tx (tp_locals pool) (tp_priced pool)) = Done (b, pl) /\
    pl_ok (tp_all pool) [] pl /\ (b = true -> local = false /\ as_containsTx tx (tp_locals pool) = false /\
      forall h x, tp_all pool !! h = Some x -> tx_GasPrice tx <= tx_GasPrice x)).
  { destruct local; [by exists false, (tp_priced pool)|]. destruct (pl_Underpriced_spec (tp_all pool) tx (tp_locals pool) _ Hpl) as (b & pl & E & Hok & Hb).
    exists b, pl. split; [done|]. split; [done|]. by intros ->. }
  destruct Hund as (b & pl & -> & Hok & Hb). cbn [outcome_bind]. pose proof (pool_inv_priced _ _ _ _ HI Hok) as HI1.
  set (pool1 := tp_set_all _ pl pool) in *. assert (Hq : quiet pool pool1) by (split; try done; by split).
  assert (Hk1 : keeps_order pool pool1).
  { split; [intros a; by apply quiet_in_order|]. intros a _. by apply (waiting_frame []), not_elem_of_nil. }
  destruct b.
  { exists false, pool1. do 2 (split; [done|]). split; [eapply frame_base, Hq|]. split; [done|]. split; [done|].
    split; [by apply cheapest_gone_same|]. split; [done|]. intros _. split; [done|]. split; [done|]. by apply Hb. }
  destruct (inv_config _ _ _ _ _ (pi_inv _ _ HI)) as (_ & _ & Hc1 & Hc2). pose proof (room_count pool Hfull Hc1 Hc2 Hs) as Hcnt.
  destruct (pl_Discard_spec (tp_all pool1) _ (tp_locals pool1) _ Hok (Z.lt_le_incl _ _ Hcnt)) as (drop & pl2 & E & Hok2 & Hd & _ & Hkeep).
  change (lk_Count (tp_all pool)) with (lk_Count (tp_all pool1)) in E. change (tp_priced pool1) with pl. rewrite E. cbn [outcome_bind].
  destruct (drop_remotes pool1 drop pl2 HI1 Hok2 Hd) as (pool' & E' & HI' & Hb' & Hk' & Hsub & Hgone & Hall). rewrite E'. cbn [outcome_bind].
  exists true, pool'. do 2 (split; [done|]). split; [eapply base_trans; [eapply frame_base, Hq|done]|]. split; [by eapply keeps_order_trans|].
  split; [done|]. split; [|done]. intros h Hh Hn. destruct (Hgone h Hh Hn) as (x & Hx & <-). exists x. split; [done|].
  rewrite Forall_forall in Hd. split; [by apply Hd|]. intros k y Hy Hloc. apply Hsub in Hy as Hy'.
  destruct (Hkeep k y Hy' Hloc) as [Hin|[_ Hle]]; [|by apply Hle].
  rewrite Hall in Hy; [done|]. rewrite <-(pl_ok_keys _ _ _ Hpl _ _ Hy'). apply list_elem_of_fmap. by exists y.
Qed.
End PoolAdd.

(** A new transaction in the pool. *)

Section PoolInsert.
Context {S M : Type} {PC : PoolChain S M} {PS : PoolChainSpec S M} `{CR : Crypto} `{RO : RangeOrder} `{SO : SortOrder}.
Implicit Types (pool : TxPool (S := S) (M := M)) (P Q : gmap Address txList) (F R : list Transaction) (D : list Hash).
Implicit Types (a : Address) (tx : Transaction) (l : txList) (b : bool).

(** What the chain and the configuration say. *)
Record steady pool pool' : Prop := {
  sy_config : tp_config pool' = tp_config pool;
  sy_signer : tp_signer pool' = tp_signer pool;
  sy_maxGas : tp_currentMaxGas pool' = tp_currentMaxGas pool;
  sy_nonce : forall a, nonce_at pool' a = nonce_at pool a;
  sy_balance : forall a, balance_at pool' a = balance_at pool a
}.
Lemma base_steady pool pool' : base pool pool' -> steady pool pool'.
Proof. by intros []. Qed.
Lemma steady_trans pool1 pool2 pool3 : steady pool1 pool2 -> steady pool2 pool3 -> steady pool1 pool3.
Proof. intros [? ? ? N1 B1] [? ? ? N2 B2]. split; [congruence..| |]; intros a; by rewrite ?N2, ?B2. Qed.

(** [tx] takes its slot among the pending ([b]) or the queued ones. *)
Record added b tx pool pool' : Prop := {
  ad_all : tp_all pool' = <[hash_of tx := tx]> match at_slot pool b (slot_of (tp_signer pool) tx) with
                                               | Some old => delete (hash_of old) (tp_all pool) | None => tp_all pool end;
  ad_view : forall b' s, at_slot pool' b' s = if decide (b' = b /\ s = slot_of (tp_signer pool) tx) then Some tx else at_slot pool b' s;
  ad_replaces : forall old, at_slot pool b (slot_of (tp_signer pool) tx) = Some old -> replaces (PriceBump (tp_config pool)) tx old;
  ad_steady : steady pool pool';
  ad_next : forall a, next_nonce pool' a = next_nonce pool a
}.

Lemma size_insert_le (all : gmap Hash Transaction) h tx : (size (<[h := tx]> all) <= size all + 1)%nat.
Proof. rewrite map_size_insert. case_match; simpl; lia. Qed.
Lemma added_size b tx pool pool' : added b tx pool pool' -> (size (tp_all pool') <= size (tp_all pool) + 1)%nat.
Proof.
  intros H. rewrite (ad_all _ _ _ _ H). etransitivity; [apply size_insert_le|]. case_match; [|lia].
  apply Nat.add_le_mono_r, map_subseteq_size, delete_subseteq.
Qed.

(** The invariant with the new transaction in its slot. *)
Lemma inv_new b P Q P' Q' D pool tx :
  let s0 := slot_of (tp_signer pool) tx in
  inv P Q [] D pool -> tp_all pool !! hash_of tx = None -> (forall b', b' <> b -> view P Q b' s0 = None) ->
  (forall b' s, view P' Q' b' s = if decide (b' = b /\ s = s0) then Some tx else view P Q b' s) ->
  lists_ok (tp_signer pool) true P' -> lists_ok (tp_signer pool) false Q' ->
  inv P' Q' [] D (remember_tx tx match view P Q b s0 with Some old => forget_tx (hash_of old) pool | None => pool end).
Proof.
  intros s0 [H1 H2 H3 H4 H5 H6 H7 H8 H9] Hnew Hoth Hw HP HQ.
  pose proof (placed_new _ b _ _ _ tx H1 Hnew Hoth Hw) as Hp. fold s0 in Hp. destruct (view P Q b s0) as [old|]; split; try done; apply pl_Put_ok; [|done].
  apply pl_Removed_ok. apply (pl_ok_sub _ _ _ _ _ H5). unfold lk_Remove. by intros h x [_ Hx]%lookup_delete_Some.
Qed.

(** Adding to the list of an account: either the transaction takes its slot,
    or the one there stays. *)
Lemma add_listed strict m pool tx a :
  lists_ok (tp_signer pool) strict m -> tx_good (tp_signer pool) a tx ->
  let s0 := slot_of (tp_signer pool) tx in
  (exists l', tl_Add tx (PriceBump (tp_config pool)) (list_of strict m a) = (true, look m s0, l') /\
     lists_ok (tp_signer pool) strict (<[a := l']> m) /\ has_also m (<[a := l']> m) s0 tx /\ tl_items l' <> ∅ /\
     (forall old, look m s0 = Some old -> replaces (PriceBump (tp_config pool)) tx old)) \/
  (tl_Add tx (PriceBump (tp_config pool)) (list_of strict m a) = (false, None, list_of strict m a) /\
   exists old, look m s0 = Some old /\ ~ replaces (PriceBump (tp_config pool)) tx old).
Proof.
  intros Hm Hg s0. pose proof (list_of_ok _ _ _ a Hm) as Hl. unfold s0. rewrite (good_slot _ _ _ Hg).
  destruct (tl_Add_spec _ _ tx (PriceBump (tp_config pool)) _ Hl (good_u64 _ _ _ Hg) Hg) as [(l' & E & Hl' & Hit & Hrep)|(E & old & Ho & Hn)];
    [left|right].
  - exists l'. rewrite E. rewrite list_of_look in *. split; [done|]. split; [by apply lists_ok_insert|]. split; [|split; [rewrite Hit; apply insert_non_empty|done]].
    intros s. by apply (look_add strict).
  - split; [done|]. exists old. by rewrite list_of_look in Ho.
Qed.

Lemma list_of_Some strict m a l : m !! a = Some l -> list_of strict m a = l.
Proof. unfold list_of. by intros ->. Qed.
Lemma full_insert m a l : full m -> tl_items l <> ∅ -> full (<[a := l]> m).
Proof. intros Hf Hl c k [[<- <-]|[_ Hx]]%lookup_insert_Some; [done|by eapply Hf]. Qed.

(** The tail of [enqueueTx] and of [replace_pending]. *)
Definition swapped tx (old : option Transaction) pool : TxPool :=
  remember_tx tx match old with Some old => forget_tx (hash_of old) pool | None => pool end.
Lemma swapped_new tx old pool :
  tp_all pool !! hash_of tx = None ->
  lk_Get (hash_of tx) (tp_all match old with Some old => forget_tx (hash_of old) pool | None => pool end) = None.
Proof. intros H. unfold lk_Get. destruct old; [|done]. simpl. unfold lk_Remove. rewrite lookup_delete_None. by right. Qed.

Lemma swapped_spec b P' Q' D pool tx :
  let s0 := slot_of (tp_signer pool) tx in
  let pool' := swapped tx (at_slot pool b s0) (tp_set_lists P' Q' (tp_beats pool) pool) in
  pool_inv D pool -> tp_all pool !! hash_of tx = None -> (forall b', b' <> b -> at_slot pool b' s0 = None) ->
  (forall b' s, view P' Q' b' s = if decide (b' = b /\ s = s0) then Some tx else at_slot pool b' s) ->
  lists_ok (tp_signer pool) true P' -> lists_ok (tp_signer pool) false Q' -> full Q' ->
  (0 < AccountSlots (tp_config pool) -> full P') ->
  (forall old, at_slot pool b s0 = Some old -> replaces (PriceBump (tp_config pool)) tx old) ->
  pool_inv D pool' /\ added b tx pool pool' /\ tp_locals pool' = tp_locals pool.
Proof.
  intros s0 pool' [Hi HfQ HfP] Hnew Hoth Hw HP HQ HfQ' HfP' Hrep.
  pose proof (inv_new b _ _ P' Q' D pool tx Hi Hnew Hoth Hw HP HQ) as Hinv. fold s0 in Hinv.
  change (view (tp_pending pool) (tp_queue pool) b s0) with (at_slot pool b s0) in Hinv.
  assert (Hv : forall b' s, at_slot pool' b' s = view P' Q' b' s) by (intros b' s; unfold pool', swapped; by destruct (at_slot pool b s0)).
  assert (Hsame : steady pool pool' /\ forall a, next_nonce pool' a = next_nonce pool a).
  { unfold pool', swapped. by destruct (at_slot pool b s0). }
  destruct Hsame as [Hst Hnext].
  split; [|split; [split; [| | |done..]|]]; unfold pool', swapped in *; fold s0; destruct (at_slot pool b s0) as [old|]; try done.
  - split; [|done|done]. by eapply inv_set; [apply Hinv|try done; try apply Hinv..].
  - split; [|done|done]. by eapply inv_set; [apply Hinv|try done; try apply Hinv..].
Qed.

Lemma add_queue_view pool Q' s0 tx :
  has_also (tp_queue pool) Q' s0 tx ->
  forall b' s, view (tp_pending pool) Q' b' s = if decide (b' = false /\ s = s0) then Some tx else at_slot pool b' s.
Proof. intros Hhas [] s; unfold at_slot, view; [by rewrite decide_False by naive_solver|]. rewrite Hhas. repeat case_decide; naive_solver. Qed.
Lemma add_pending_view pool P' s0 tx :
  has_also (tp_pending pool) P' s0 tx ->
  forall b' s, view P' (tp_queue pool) b' s = if decide (b' = true /\ s = s0) then Some tx else at_slot pool b' s.
Proof. intros Hhas [] s; unfold at_slot, view; [|by rewrite decide_False by naive_solver]. rewrite Hhas. repeat case_decide; naive_solver. Qed.

(** [enqueueTx] of a transaction that the pool does not know. *)
Lemma enqueue_new D pool tx a :
  let s0 := slot_of (tp_signer pool) tx in
  pool_inv D pool -> tp_all pool !! hash_of tx = None -> tx_good (tp_signer pool) a tx -> at_slot pool true s0 = None ->
  (enqueueTx (hash_of tx) tx pool = (inl ErrReplaceUnderpriced, pool) /\
   exists old, at_slot pool false s0 = Some old /\ ~ replaces (PriceBump (tp_config pool)) tx old) \/
  (exists pool', enqueueTx (hash_of tx) tx pool = (inr (bool_decide (is_Some (at_slot pool false s0))), pool') /\
     pool_inv D pool' /\ added false tx pool pool' /\ tp_locals pool' = tp_locals pool).
Proof.
  intros s0 HI Hnew Hg Hfree. pose proof HI as [Hi HfQ HfP]. pose proof Hg as [Hs _]. unfold enqueueTx. rewrite (from_of_sender _ _ _ Hs).
  fold (list_of false (tp_queue pool) a). pose proof (add_listed false (tp_queue pool) pool tx a (inv_queue _ _ _ _ _ Hi) Hg) as HA.
  fold s0 in HA. destruct HA as [(l' & -> & Hl' & Hhas & Hne & Hrep)|(-> & old & Ho & Hn)]; cbn [negb]; [right|left].
  - set (Q' := <[a := l']> (tp_queue pool)) in *. pose proof (add_queue_view pool Q' s0 tx Hhas) as Hview.
    rewrite swapped_new by done. fold (swapped tx (look (tp_queue pool) s0) (tp_set_queue Q' pool)).
    eexists. split; [f_equal; f_equal; unfold at_slot, view; by destruct (look (tp_queue pool) s0)|].
    refine (swapped_spec false (tp_pending pool) Q' D pool tx HI Hnew _ Hview (inv_pending _ _ _ _ _ Hi) Hl' _ HfP Hrep).
    + by intros [] ?.
    + by apply full_insert.
  - split; [|by exists old]. f_equal. unfold look in Ho. unfold s0 in Ho. rewrite (good_slot _ _ _ Hg) in Ho. simpl in Ho.
    destruct (tp_queue pool !! a) as [l|] eqn:El; [|done]. rewrite (list_of_Some _ _ _ _ El), insert_id by done. by destruct pool.
Qed.

Lemma replace_pending_spec D pool tx a l :
  let s0 := slot_of (tp_signer pool) tx in
  pool_inv D pool -> tp_all pool !! hash_of tx = None -> tx_good (tp_signer pool) a tx ->
  tp_pending pool !! a = Some l -> is_Some (at_slot pool true s0) ->
  (replace_pending a l tx pool = (inl ErrReplaceUnderpriced, pool) /\
   exists old, at_slot pool true s0 = Some old /\ ~ replaces (PriceBump (tp_config pool)) tx old) \/
  (exists pool', replace_pending a l tx pool = (inr true, pool') /\
     pool_inv D pool' /\ added true tx pool pool' /\ tp_locals pool' = tp_locals pool).
Proof.
  intros s0 HI Hnew Hg Hl [old Hold]. pose proof HI as [Hi HfQ HfP]. unfold replace_pending.
  rewrite <-(list_of_Some true _ _ _ Hl). pose proof (add_listed true (tp_pending pool) pool tx a (inv_pending _ _ _ _ _ Hi) Hg) as HA.
  fold s0 in HA. destruct HA as [(l' & -> & Hl' & Hhas & Hne & Hrep)|(-> & old' & Ho & Hn)]; cbn [negb]; [right|left].
  - set (P' := <[a := l']> (tp_pending pool)) in *. pose proof (add_pending_view pool P' s0 tx Hhas) as Hview.
    fold (swapped tx (look (tp_pending pool) s0) (tp_set_pending P' pool)).
    eexists. split; [f_equal; f_equal; unfold at_slot, view in Hold; by rewrite Hold|].
    refine (swapped_spec true P' (tp_queue pool) D pool tx HI Hnew _ Hview Hl' (inv_queue _ _ _ _ _ Hi) HfQ _ Hrep).
    + intros [] ?; [done|]. by apply (c_disj _ _ _ _ (inv_placed _ _ _ _ _ Hi) s0 old).
    + intros Hpos. apply full_insert; auto.
  - split; [done|by exists old'].
Qed.

(** ** Adding *)

Lemma added_in_order b tx a c pool pool' :
  added b tx pool pool' -> tx_good (tp_signer pool) a tx -> affordable (balance_at pool a) (tp_currentMaxGas pool) tx ->
  (b = true -> is_Some (at_slot pool true (slot_of (tp_signer pool) tx))) -> in_order pool c -> in_order pool' c.
Proof.
  intros [_ Hv _ Hst Hn] Hg Haff Hb [O1 O2 O3]. rewrite (good_slot _ _ _ Hg) in *.
  split; rewrite ?Hn, ?(sy_nonce _ _ Hst), ?(sy_balance _ _ Hst), ?(sy_maxGas _ _ Hst); [done| |]; intros n.
  - rewrite Hv, <-O2. case_decide as Hd; [|done]. destruct Hd as [<- [= -> ->]]. split; [|by eexists]. intros _. by apply Hb.
  - intros x. rewrite Hv. case_decide as Hd; [|apply O3]. destruct Hd as [<- [= -> ->]]. by intros [= <-].
Qed.
Lemma added_waiting b tx a c pool pool' :
  added b tx pool pool' -> tx_good (tp_signer pool) a tx -> waiting pool c ->
  b = true \/ is_Some (at_slot pool b (slot_of (tp_signer pool) tx)) \/ c <> a -> waiting pool' c.
Proof.
  intros [_ Hv _ Hst Hn] Hg Hw Hor n. rewrite Hn, Hv, (good_slot _ _ _ Hg) in *. case_decide as Hd; [|apply Hw].
  destruct Hd as [<- [= -> ->]]. intros _. apply Hw. by destruct Hor as [?|[?|?]].
Qed.

(** What may go when [tx] comes: the transaction that it replaces, and the
    cheapest remote ones of a full pool. *)
Definition makes_way tx pool pool' : Prop :=
  forall h, is_Some (tp_all pool !! h) -> tp_all pool' !! h = None ->
    (exists old, hash_of old = h /\ slot_of (tp_signer pool) old = slot_of (tp_signer pool) tx /\ replaces (PriceBump (tp_config pool)) tx old) \/
    (pool_full pool /\ exists x, hash_of x = h /\ as_containsTx x (tp_locals pool) = false /\
       forall k y, tp_all pool' !! k = Some y -> k <> hash_of tx -> as_containsTx y (tp_locals pool) = false -> price_less y x = false).

Lemma makes_way_room tx pool pool1 pool' :
  (tp_all pool1 <> tp_all pool -> pool_full pool) -> cheapest_gone pool pool1 -> steady pool pool1 ->
  (forall k y, tp_all pool' !! k = Some y -> k <> hash_of tx -> tp_all pool1 !! k = Some y) ->
  (forall h, is_Some (tp_all pool1 !! h) -> tp_all pool' !! h = None ->
     exists old, hash_of old = h /\ slot_of (tp_signer pool1) old = slot_of (tp_signer pool1) tx /\ replaces (PriceBump (tp_config pool1)) tx old) ->
  makes_way tx pool pool'.
Proof.
  intros Hfull Hcg Hst Hsub Hrep h Hh Hn. destruct (tp_all pool1 !! h) as [y|] eqn:E1.
  - left. rewrite <-(sy_signer _ _ Hst), <-(sy_config _ _ Hst). apply Hrep; [by eexists|done].
  - right. split; [apply Hfull; intros E; rewrite E in E1; by destruct Hh; congruence|]. destruct (Hcg h Hh E1) as (x & Hx & Hloc & Hle).
    exists x. split; [done|]. split; [done|]. intros k z Hz Hne. by eapply Hle, Hsub.
Qed.

Lemma added_gone b tx D pool pool' :
  pool_inv D pool -> added b tx pool pool' ->
  (forall k y, tp_all pool' !! k = Some y -> k <> hash_of tx -> tp_all pool !! k = Some y) /\
  (forall h, is_Some (tp_all pool !! h) -> tp_all pool' !! h = None ->
     exists old, hash_of old = h /\ slot_of (tp_signer pool) old = slot_of (tp_signer pool) tx /\ replaces (PriceBump (tp_config pool)) tx old).
Proof.
  intros HI [Hall _ Hrep _ _]. rewrite Hall. split.
  - intros k y [[<- _]|[_ Hy]]%lookup_insert_Some Hne; [done|]. case_match; [by apply lookup_delete_Some in Hy as [_ ?]|done].
  - intros h [y Hy] [Hn Hne]%lookup_insert_None. destruct (at_slot pool b _) as [old|] eqn:Eo; [|congruence].
    apply lookup_delete_None in Hn as [<-|?]; [|congruence]. exists old. split; [done|]. split; [|by apply Hrep].
    by apply (c_slot _ _ _ _ (inv_placed _ _ _ _ _ (pi_inv _ _ HI)) b).
Qed.

(** What [add] promises, with its result. *)
Record add_ok tx (local : bool) pool (r : poolError + bool) pool' : Prop := {
  ao_inv : pool_inv [] pool';
  ao_steady : steady pool pool';
  ao_size : (size (tp_all pool') <= size (tp_all pool) + 1)%nat;
  ao_order : forall a, in_order pool a -> in_order pool' a;
  ao_waiting : forall a, in_order pool a -> waiting pool a -> (r = inr false /\ a = from_of (tp_signer pool) tx) \/ waiting pool' a;
  ao_gone : makes_way tx pool pool';
  ao_known : forall h x, tp_all pool' !! h = Some x -> tp_all pool !! h = Some x \/ x = tx;
  ao_accepted : match r with
                | inl _ => forall h x, tp_all pool' !! h = Some x -> tp_all pool !! h = Some x
                | inr _ => tp_all pool' !! hash_of tx = Some tx /\ exists a, acceptable pool local tx a
                end
}.

Lemma add_ok_same tx local pool err pool' :
  pool_inv [] pool' -> steady pool pool' -> (size (tp_all pool') <= size (tp_all pool))%nat -> keeps_order pool pool' ->
  makes_way tx pool pool' -> (forall h x, tp_all pool' !! h = Some x -> tp_all pool !! h = Some x) -> add_ok tx local pool (inl err) pool'.
Proof. intros H1 H2 H3 [H4 H5] H6 H7. split; try done; auto; lia. Qed.

(** The transaction after there is room for it. *)
Lemma add_ok_added b tx a local pool pool1 pool2 pool' r :
  acceptable pool local tx a -> tx_good (tp_signer pool1) a tx ->
  pool_inv [] pool1 -> base pool pool1 -> keeps_order pool pool1 -> (forall h x, tp_all pool1 !! h = Some x -> tp_all pool !! h = Some x) ->
  cheapest_gone pool pool1 -> (tp_all pool1 <> tp_all pool -> pool_full pool) ->
  (if r : bool then b = true \/ is_Some (at_slot pool1 b (slot_of (tp_signer pool1) tx)) else True) ->
  (b = true -> is_Some (at_slot pool1 true (slot_of (tp_signer pool1) tx))) ->
  added b tx pool1 pool2 -> pool_inv [] pool' -> (forall c, in_order pool2 c -> in_order pool' c) -> (forall c, waiting pool2 c -> waiting pool' c) ->
  steady pool2 pool' -> tp_all pool' = tp_all pool2 ->
  add_ok tx local pool (inr r) pool'.
Proof.
  intros Ha Hg HI1 Hb [Ho1 Hw1] Hsub Hcg Hfull Hr Hpend Had HI' Ho' Hw' Hst' Hall.
  pose proof (base_steady _ _ Hb) as Hst. destruct (added_gone b tx [] pool1 pool2 HI1 Had) as [Hg1 Hg2].
  assert (Haff : affordable (balance_at pool1 a) (tp_currentMaxGas pool1) tx).
  { destruct Ha. rewrite (ba_balance _ _ Hb), (ba_maxGas _ _ Hb). by split. }
  split; try done.
  - eapply steady_trans; [exact Hst|]. eapply steady_trans; [apply Had|done].
  - rewrite Hall. pose proof (added_size _ _ _ _ Had). pose proof (ba_size _ _ Hb). lia.
  - intros c Hc. apply Ho'. eapply added_in_order; eauto.
  - intros c Hc Hw. destruct (decide (r = false /\ c = from_of (tp_signer pool) tx)) as [[-> ->]|Hne]; [by left|right].
    apply Hw'. apply (added_waiting b tx a c pool1); [done|done|by apply Hw1|].
    destruct r; [tauto|]. right. right. intros ->. apply Hne. split; [done|]. symmetry. apply from_of_sender. apply Ha.
  - apply (makes_way_room tx pool pool1); try done; rewrite Hall; done.
  - rewrite Hall. intros h x Hx. destruct (decide (h = hash_of tx)) as [->|Hne].
    + rewrite (ad_all _ _ _ _ Had), lookup_insert_eq in Hx. right. congruence.
    + left. by apply Hsub, Hg1.
  - split; [|by exists a]. rewrite Hall, (ad_all _ _ _ _ Had). apply lookup_insert_eq.
Qed.

Lemma quiet_keeps_order pool pool' : quiet pool pool' -> keeps_order pool pool'.
Proof. intros Hq. split; [intros a; by apply quiet_in_order|]. intros a _. apply (waiting_frame []); [apply Hq|apply not_elem_of_nil]. Qed.

(** Validation and room, together. *)
Lemma entry_spec tx (local : bool) pool :
  pool_inv [] pool -> Z.of_nat (size (tp_all pool)) <= 2 ^ 24 ->
  exists err pool0, validateTx tx local pool = (err, pool0) /\
    match err with
    | Some _ => pool_inv [] pool0 /\ quiet pool pool0 /\ tp_all pool0 = tp_all pool
    | None => exists a ok pool1, acceptable pool local tx a /\ make_room tx local pool0 = Done (ok, pool1) /\ pool_inv [] pool1 /\
        base pool pool1 /\ keeps_order pool pool1 /\ (forall h x, tp_all pool1 !! h = Some x -> tp_all pool !! h = Some x) /\
        cheapest_gone pool pool1 /\ (tp_all pool1 <> tp_all pool -> pool_full pool)
    end.
Proof.
  intros HI Hs. destruct (validateTx_spec [] pool tx local HI) as (err & pool0 & E & HI0 & Hq & Hall & Hiff). exists err, pool0. split; [done|].
  destruct err; [done|]. destruct (proj1 Hiff eq_refl) as [a Ha].
  destruct (make_room_spec tx local pool0 HI0) as (ok & pool1 & E1 & HI1 & Hb & Hk & Hsub & Hcg & Hfull & _); [by rewrite Hall|].
  exists a, ok, pool1. split; [done|]. split; [done|]. split; [done|]. split; [eapply base_trans; [eapply frame_base, Hq|done]|].
  split; [eapply keeps_order_trans; [by apply quiet_keeps_order|done]|].
  unfold cheapest_gone, pool_full in *. rewrite Hall, (fr_config _ _ _ (qu_frame _ _ Hq)), (fr_locals _ _ _ (qu_frame _ _ Hq)) in *. done.
Qed.

Lemma set_locals_spec addr pool :
  pool_inv [] pool -> let pool' := tp_set_locals (as_add addr (tp_locals pool)) pool in
  pool_inv [] pool' /\ (forall c, in_order pool c -> in_order pool' c) /\ (forall c, waiting pool c -> waiting pool' c) /\
  steady pool pool' /\ tp_all pool' = tp_all pool.
Proof.
  intros [[] HQ HP] pool'. split; [by split|]. split; [|done]. intros c. by apply in_order_same.
Qed.

Lemma add_spec tx local pool :
  pool_inv [] pool -> Z.of_nat (size (tp_all pool)) <= 2 ^ 24 -> 0 <= tx_Nonce tx < 2 ^ 64 - 1 ->
  exists r pool', add tx local pool = Done (r, pool') /\ add_ok tx local pool r pool'.
Proof.
  intros HI Hs Hnonce. unfold add, lk_Get. destruct (tp_all pool !! hash_of tx) as [x|] eqn:Ek.
  { eexists _, pool. split; [done|]. apply add_ok_same; try done.
    intros h [y Hy] Hn. congruence. }
  destruct (entry_spec tx local pool HI Hs) as (err & pool0 & -> & Hadm). destruct err as [err|].
  { destruct Hadm as (HI0 & Hq & Hall). eexists _, pool0. split; [done|].
    apply add_ok_same; rewrite ?Hall; try done; [eapply base_steady, frame_base, Hq|by apply quiet_keeps_order|].
    intros h [y Hy] Hn. congruence. }
  destruct Hadm as (a & ok & pool1 & Ha & -> & HI1 & Hb & Hk & Hsub & Hcg & Hfull). cbn [outcome_bind].
  destruct ok; cbn [negb].
  2:{ eexists _, pool1. split; [done|]. apply add_ok_same; try done; [by apply base_steady|apply Hb|].
      apply (makes_way_room tx pool pool1); try done; [by apply base_steady|]. intros h [y Hy] Hn. congruence. }
  assert (Hg : tx_good (tp_signer pool1) a tx) by (split; [rewrite (ba_signer _ _ Hb); apply Ha|done]).
  pose proof Hg as [Hsnd _]. rewrite (from_of_sender _ _ _ Hsnd).
  assert (Hnew : tp_all pool1 !! hash_of tx = None) by (destruct (tp_all pool1 !! hash_of tx) eqn:E1; [apply Hsub in E1; congruence|done]).
  assert (Hsame : add_ok tx local pool (inl ErrReplaceUnderpriced) pool1).
  { apply add_ok_same; try done; [by apply base_steady|apply Hb|]. apply (makes_way_room tx pool pool1); try done; [by apply base_steady|].
    intros h [y Hy] Hn. congruence. }
  assert (Henq : at_slot pool1 true (slot_of (tp_signer pool1) tx) = None -> exists r pool',
    (let '(r, pool2) := enqueueTx (hash_of tx) tx pool1 in
     match r with inl err => Done (inl err, pool2)
     | inr replace => Done (inr replace, if local then tp_set_locals (as_add a (tp_locals pool2)) pool2 else pool2) end) = Done (r, pool') /\
    add_ok tx local pool r pool').
  { intros Hfree. destruct (enqueue_new [] pool1 tx a HI1 Hnew Hg Hfree) as [(-> & _)|(pool2 & -> & HI2 & Had & Hloc)]; [by eexists _, pool1|].
    eexists _, _. split; [done|]. set (r := bool_decide _).
    assert (Hr : if r then false = true \/ is_Some (at_slot pool1 false (slot_of (tp_signer pool1) tx)) else True).
    { unfold r. case_bool_decide; auto. }
    destruct local.
    - destruct (set_locals_spec a pool2 HI2) as (H1 & H2 & H3 & H4 & H5). by eapply (add_ok_added false tx a true pool pool1 pool2).
    - by eapply (add_ok_added false tx a false pool pool1 pool2). }
  destruct (tp_pending pool1 !! a) as [l|] eqn:El.
  2:{ apply Henq. rewrite (good_slot _ _ _ Hg). unfold at_slot, view, look. simpl. by rewrite El. }
  assert (Esl : at_slot pool1 true (slot_of (tp_signer pool1) tx) = tl_items l !! tx_Nonce tx).
  { rewrite (good_slot _ _ _ Hg). unfold at_slot, view. by apply look_list. }
  destruct (tl_Overlaps tx l) eqn:Eo.
  - apply tl_Overlaps_spec in Eo. rewrite <-Esl in Eo.
    destruct (replace_pending_spec [] pool1 tx a l HI1 Hnew Hg El Eo) as [(-> & _)|(pool2 & -> & HI2 & Had & Hloc)]; [by eexists _, pool1|].
    eexists _, pool2. split; [done|]. eapply (add_ok_added true tx a local pool pool1 pool2); try done. by left.
  - apply Henq. rewrite Esl. destruct (tl_items l !! tx_Nonce tx) eqn:Ex; [|done].
    assert (tl_Overlaps tx l = true) by (apply tl_Overlaps_spec; by rewrite Ex). congruence.
Qed.
End PoolInsert.

(** Batches of new transactions, and the price limit. *)

Section PoolBatch.
Context {S M : Type} {PC : PoolChain S M} {PS : PoolChainSpec S M} `{CR : Crypto} `{RO : RangeOrder} `{SO : SortOrder}.
Implicit Types (pool : TxPool (S := S) (M := M)) (D : list Hash) (a : Address) (tx : Transaction).

(** The nonces of the transactions leave room for the next one. *)
Definition nonce_room tx : Prop := 0 <= tx_Nonce tx < 2 ^ 64 - 1.

Definition limits pool : Prop := within_slots pool /\ within_queue pool.

Lemma addTx_spec now tx local pool :
  pool_inv [] pool -> Z.of_nat (size (tp_all pool)) < 2 ^ 24 -> nonce_room tx ->
  exists r pool1 err pool', add tx local pool = Done (r, pool1) /\ add_ok tx local pool r pool1 /\
    addTx now tx local pool = Done (err, pool') /\ pool_inv [] pool' /\ steady pool pool' /\
    (size (tp_all pool') <= size (tp_all pool) + 1)%nat /\ keeps_order pool pool' /\
    (r = inr false -> limits pool') /\ (err = None <-> exists b, r = inr b).
Proof.
  intros HI Hs Hn. unfold addTx. destruct (add_spec tx local pool HI) as (r & pool1 & E & Hok); [lia|done|]. rewrite E. cbn [outcome_bind].
  exists r, pool1. pose proof Hok as [HI1 Hst1 Hs1 Ho1 Hw1 _ _ _].
  assert (Hkeep : r <> inr false -> keeps_order pool pool1) by (intros Hr; split; [done|]; intros a Ha Hw; by destruct (Hw1 a Ha Hw) as [[? _]|?]).
  destruct r as [err|[]].
  - exists (Some err), pool1. do 6 (split; [done|]). split; [by apply Hkeep|]. split; [done|]. split; [done|by intros [b ?]].
  - exists None, pool1. do 6 (split; [done|]). split; [by apply Hkeep|]. split; [done|]. split; [by exists true|done].
  - destruct (promoteExecutables_spec now (Some [from_of (tp_signer pool1) tx]) [] pool1 HI1) as (pool' & -> & HI' & Hb & H1 & H2 & _ & Ho & Hw); [lia|].
    cbn [outcome_bind]. exists None, pool'. do 4 (split; [done|]). split; [eapply steady_trans; [done|by apply base_steady]|].
    split; [pose proof (ba_size _ _ Hb); lia|]. split; [|split; [done|split; [by exists false|done]]].
    split; [intros a Ha; by apply Ho, Ho1|]. intros a Ha Hwa. apply Hw; [by apply Ho1|].
    destruct (Hw1 a Ha Hwa) as [[_ ->]|?]; [left|by right]. rewrite (sy_signer _ _ Hst1). simpl. by left.
Qed.

Lemma add_each_spec local txs : forall dirty pool,
  pool_inv [] pool -> Z.of_nat (size (tp_all pool)) + len txs <= 2 ^ 24 -> Forall nonce_room txs ->
  exists errs dirty' pool', add_each txs local dirty pool = Done (errs, dirty', pool') /\ pool_inv [] pool' /\ steady pool pool' /\
    Z.of_nat (size (tp_all pool')) <= Z.of_nat (size (tp_all pool)) + len txs /\ dirty ⊆ dirty' /\ length errs = length txs /\
    (forall a, in_order pool a -> in_order pool' a) /\ (forall a, in_order pool a -> waiting pool a -> a ∈ dirty' \/ waiting pool' a).
Proof.
  induction txs as [|tx txs IH]; intros dirty pool HI Hs Hn; cbn [add_each].
  { exists [], dirty, pool. split; [done|]. split; [done|]. split; [apply base_steady, base_refl|]. split; [unfold len; simpl; lia|].
    split; [done|]. split; [done|]. split; [done|]. by right. }
  rewrite len_cons in *. apply Forall_cons in Hn as [Hn0 Hn]. pose proof (len_nonneg txs).
  destruct (add_spec tx local pool HI) as (r & pool1 & -> & [HI1 Hst1 Hs1 Ho1 Hw1 _ _ _]); [lia|done|]. cbn [outcome_bind].
  set (d1 := match r with inr false => {[from_of (tp_signer pool1) tx]} ∪ dirty | _ => dirty end).
  destruct (IH d1 pool1 HI1) as (errs & dirty' & pool' & E & HI' & Hst & Hsz & Hd & Hlen & Ho & Hw); [lia|done|].
  assert (Hd1 : dirty ⊆ d1) by (unfold d1; repeat case_match; set_solver).
  exists ((match r with inl err => Some err | inr _ => None end) :: errs), dirty', pool'.
  split. { unfold d1 in E. destruct r as [?|[]]; rewrite E; done. }
  split; [done|]. split; [by eapply steady_trans|]. split; [lia|]. split; [set_solver|]. split; [by simpl; f_equal|].
  split; [auto|]. intros a Ha Hwa. destruct (Hw1 a Ha Hwa) as [[-> ->]|Hw']; [left|by apply Hw; [apply Ho1|]].
  apply Hd. unfold d1. rewrite (sy_signer _ _ Hst1). set_solver.
Qed.

Lemma addTxsLocked_spec now txs local pool :
  pool_inv [] pool -> Z.of_nat (size (tp_all pool)) + len txs <= 2 ^ 24 -> Forall nonce_room txs ->
  exists errs pool', addTxsLocked now txs local pool = Done (errs, pool') /\ pool_inv [] pool' /\ steady pool pool' /\
    Z.of_nat (size (tp_all pool')) <= Z.of_nat (size (tp_all pool)) + len txs /\ keeps_order pool pool' /\ length errs = length txs.
Proof.
  intros HI Hs Hn. unfold addTxsLocked.
  destruct (add_each_spec local txs ∅ pool HI Hs Hn) as (errs & dirty & pool1 & -> & HI1 & Hst1 & Hs1 & _ & Hlen & Ho1 & Hw1). cbn [outcome_bind].
  destruct (decide (dirty = ∅)) as [->|Hne].
  { exists errs, pool1. do 4 (split; [done|]). split; [|done]. split; [done|]. intros a Ha Hwa. destruct (Hw1 a Ha Hwa); [set_solver|done]. }
  destruct (promoteExecutables_spec now (Some (map fst (range (gset_to_gmap tt dirty)))) [] pool1 HI1) as (pool' & -> & HI' & Hb & _ & _ & _ & Ho & Hw); [lia|].
  cbn [outcome_bind]. exists errs, pool'. split; [done|]. split; [done|]. split; [eapply steady_trans; [done|by apply base_steady]|].
  split; [pose proof (ba_size _ _ Hb); lia|]. split; [|done]. split; [intros a Ha; by apply Ho, Ho1|]. intros a Ha Hwa.
  apply Hw; [by apply Ho1|]. destruct (Hw1 a Ha Hwa) as [Hin|?]; [left|by right]. simpl. apply elem_of_range_keys.
  exists tt. by rewrite lookup_gset_to_gmap, option_guard_True.
Qed.

(** Nothing remote stays below the price, and nothing else goes. *)
Lemma SetGasPrice_spec price pool :
  pool_inv [] pool ->
  exists pool', SetGasPrice price pool = Done pool' /\ pool_inv [] pool' /\ base pool pool' /\ keeps_order pool pool' /\
    (forall h tx, tp_all pool' !! h = Some tx -> tp_all pool !! h = Some tx /\ (price <= tx_GasPrice tx \/ as_containsTx tx (tp_locals pool) = true)) /\
    (forall h, is_Some (tp_all pool !! h) -> tp_all pool' !! h = None ->
       exists x, hash_of x = h /\ as_containsTx x (tp_locals pool) = false /\ tx_GasPrice x < price).
Proof.
  intros HI. unfold SetGasPrice. set (pool0 := tp_set_gasPrice price pool).
  assert (HI0 : pool_inv [] pool0) by (destruct HI as [[] ? ?]; by split).
  destruct (pl_Cap_spec (tp_all pool0) price (tp_locals pool0) _ (inv_priced _ _ _ _ _ (pi_inv _ _ HI0))) as (drop & pl & E & Hok & Hd & Hall).
  rewrite E. cbn [outcome_bind]. destruct (drop_remotes pool0 drop pl HI0 Hok) as (pool' & -> & HI' & Hb & Hk & Hsub & Hgone & Hout).
  { eapply Forall_impl; [done|]. simpl. tauto. }
  exists pool'. split; [done|]. split; [done|]. split; [eapply base_trans; [|done]; by split|]. split.
  { eapply keeps_order_trans; [|done]. split; [|done]. intros a. by apply in_order_same. }
  split.
  - intros h tx Hx. apply Hsub in Hx as Hx0. split; [done|]. destruct (Z.le_gt_cases price (tx_GasPrice tx)) as [|Hlt]; [by left|right].
    destruct (as_containsTx tx (tp_locals pool)) eqn:El; [done|]. pose proof (Hall h tx Hx0 Hlt El) as Hin. rewrite Hout in Hx; [done|].
    rewrite <-(pl_ok_keys _ _ _ Hok _ _ Hx0). apply list_elem_of_fmap. by exists tx.
  - intros h Hh Hn. destruct (Hgone h Hh Hn) as (x & Hx & <-). exists x. rewrite Forall_forall in Hd. split; [done|]. by apply Hd.
Qed.
End PoolBatch.
