(* ===== verification/PoolHead.v ===== *)
(** The pool on a new head: demotion, reorganisations, resets, and the pool of
    a chain. *)
From S2P Require Import Prelude BigMath Params Machine Vm PrecompileFacts StateTransition Rlp RlpFacts Transaction.
From S2P Require Import TxFacts Heap TxList TxListFacts TxPriced PricedFacts TxPool PoolInv PoolAccounts PoolLimits.
From S2P Require Import PoolAdd.

(** Taking pending transactions back when the chain moves. *)

Section PoolDemote.
Context {S M : Type} {PC : PoolChain S M} {PS : PoolChainSpec S M} `{CR : Crypto} `{RO : RangeOrder} `{SO : SortOrder}.
Implicit Types (pool : TxPool (S := S) (M := M)) (P Q : gmap Address txList) (F R : list Transaction) (D : list Hash).
Implicit Types (a : Address) (tx : Transaction) (l : txList) (items : gmap Z Transaction).

(** Nonces without a gap between them. *)
Definition unbroken items : Prop :=
  forall n m k, is_Some (items !! n) -> is_Some (items !! k) -> n <= m <= k -> is_Some (items !! m).
Lemma unbroken_prefix items items' :
  (forall n x, items' !! n = Some x -> items !! n = Some x) -> prefix_of items items' -> unbroken items -> unbroken items'.
Proof.
  intros Hsub Hpre Hu n m k [x Hn] [y Hk] Hm. destruct (items' !! m) as [z|] eqn:E; [by eexists|].
  assert (k < m); [|lia]. apply Hpre; [by eexists| |done]. apply (Hu n m k); [|..|done]; eexists; by apply Hsub.
Qed.
Lemma unbroken_forward items items' t :
  (forall n x, items' !! n = Some x -> items !! n = Some x) -> (forall n, is_Some (items' !! n) -> t <= n) ->
  (forall n x, items !! n = Some x -> t <= n -> items' !! n = Some x) -> unbroken items -> unbroken items'.
Proof.
  intros Hsub Hge Hkeep Hu n m k Hn Hk Hm. pose proof (Hge n Hn). destruct Hn as [x Hn], Hk as [y Hk].
  destruct (Hu n m k) as [z Hz]; [eexists; by apply Hsub..|done|]. exists z. apply Hkeep; [done|lia].
Qed.

(** The first steps of [demote_account]. *)
Lemma clean_pending D pool a l :
  inv (tp_pending pool) (tp_queue pool) [] D pool -> tp_pending pool !! a = Some l ->
  exists pool1 R1 l1 pool2 pool3 R2 V l2 pool4,
    current_nonce a pool = (nonce_at pool a, pool1) /\ tl_Forward (nonce_at pool a) l = Done (R1, l1) /\
    for_each forget R1 pool1 = Done pool2 /\ current_balance a pool2 = (balance_at pool a, pool3) /\
    tl_Filter (balance_at pool a) (tp_currentMaxGas pool3) l1 = (R2, V, l2) /\ for_each forget R2 pool3 = Done pool4 /\
    inv (<[a := l2]> (tp_pending pool4)) (tp_queue pool4) V D pool4 /\ quiet pool pool4 /\
    Forall (fun tx => from_of (tp_signer pool) tx = a) V /\
    (forall n x, tl_items l2 !! n = Some x -> tl_items l !! n = Some x /\ nonce_at pool a <= n /\
       affordable (balance_at pool a) (tp_currentMaxGas pool) x) /\ (unbroken (tl_items l) -> unbroken (tl_items l2)).
Proof.
  intros Hi Hl. destruct (current_nonce_spec Hi a) as (pool1 & E1 & Hi1 & Hq1). pose proof (inv_pending _ _ _ _ _ Hi a l Hl) as Hok.
  destruct (tl_Forward_spec _ _ (nonce_at pool a) l Hok) as (R1 & l1 & EF & Hl1 & HR1 & Hlow & Hge).
  rewrite <-(insert_id _ _ _ Hl) in Hi1. rewrite <-(fr_signer _ _ _ (qu_frame _ _ Hq1)) in Hl1.
  destruct (drop_pending _ _ _ _ _ _ l1 R1 Hi1 Hl1 HR1) as (pool2 & E2 & Hi2 & Hq2).
  destruct (current_balance_spec Hi2 a) as (pool3 & E3 & Hi3 & Hq3).
  assert (Hq : quiet pool pool2) by (by eapply quiet_trans). rewrite (fr_balance _ _ _ (qu_frame _ _ Hq)) in E3.
  assert (Hq' : quiet pool pool3) by (by eapply quiet_trans).
  pose proof (inv_pending _ _ _ _ _ Hi3 a l1 (lookup_insert_eq _ _ _)) as Hok3.
  destruct (tl_Filter_spec _ _ (balance_at pool a) (tp_currentMaxGas pool3) l1 Hok3) as (R2 & V & l2 & EFi & Hl2 & HR2 & _ & Haff & Hpre).
  pose proof (take_pending _ _ [] D pool3 a l1 l2 _ Hi3 (lookup_insert_eq _ _ _) Hl2 HR2) as Hi4. rewrite insert_insert_eq, app_nil_r in Hi4.
  destruct (for_each_forget _ _ R2 V D pool3 Hi4) as (pool4 & E4 & Hi5 & Hq4). assert (Hq'' : quiet pool pool4) by (by eapply quiet_trans).
  exists pool1, R1, l1, pool2, pool3, R2, V, l2, pool4. do 6 (split; [done|]).
  rewrite (qu_pending _ _ Hq''), (qu_queue _ _ Hq''). do 2 (split; [done|]). split; [|split].
  - apply Forall_forall. intros tx Htx. assert (Hin : tx ∈ R2 ++ V) by (apply elem_of_app; by right).
    destruct (removed_good (inv_pending _ _ _ _ _ Hi3) (lookup_insert_eq _ _ _) HR2 tx Hin) as [[Hs _] _].
    rewrite <-(fr_signer _ _ _ (qu_frame _ _ Hq')). by apply from_of_sender.
  - intros n x Hx. rewrite <-(fr_maxGas _ _ _ (qu_frame _ _ Hq')). pose proof (removes_kept _ _ _ _ _ HR2 Hx) as Hx1.
    split; [by eapply removes_kept|]. split; [by apply Hge|by eapply Haff].
  - intros Hu. apply (unbroken_prefix (tl_items l1)); [intros n x; by apply (removes_kept (R2 ++ V))|done|].
    apply (unbroken_forward (tl_items l) _ (nonce_at pool a)); [intros n x; by apply (removes_kept R1)|done| |done].
    intros n x Hx Hn. rewrite (removes_lookup _ _ _ HR1), decide_False; [done|]. intros (y & -> & Hy)%list_elem_of_fmap.
    rewrite Forall_forall in Hlow. specialize (Hlow y Hy). simpl in Hlow. lia.
Qed.

(** Requeuing what floats. *)
Lemma requeue_frame P V D pool a :
  inv P (tp_queue pool) V D pool -> Forall (fun tx => from_of (tp_signer pool) tx = a) V ->
  exists Q', for_each requeue V pool = Done (tp_set_queue Q' pool) /\ inv P Q' [] D (tp_set_queue Q' pool) /\
    frame [a] pool (tp_set_queue Q' pool) /\ (full (tp_queue pool) -> full Q').
Proof.
  intros Hi HV. rewrite <-(app_nil_r V) in Hi. destruct (for_each_requeue P V [] D pool Hi) as (Q' & E & Hi' & Hfi). exists Q'.
  split; [done|]. split; [done|]. split; [|apply Hfi]. apply frame_lists; [done|]. intros s Hs. apply (fi_same _ _ _ _ Hfi).
  intros (x & -> & Hx)%list_elem_of_fmap. apply Hs. rewrite Forall_forall in HV. simpl. rewrite (HV x Hx). by left.
Qed.

(** The list of an account whose first nonce is missing. *)
Lemma cut_gapped D pool a l n :
  inv (<[a := l]> (tp_pending pool)) (tp_queue pool) [] D pool ->
  exists R l' Q', (if (0 <? tl_Len l) && match sm_Get n (tl_txs l) with None => true | Some _ => false end then tl_Cap 0 l else Done ([], l)) = Done (R, l') /\
    for_each requeue R pool = Done (tp_set_queue Q' pool) /\ inv (<[a := l']> (tp_pending pool)) Q' [] D (tp_set_queue Q' pool) /\
    frame [a] pool (tp_set_queue Q' pool) /\ (full (tp_queue pool) -> full Q') /\
    ((l' = l /\ (tl_items l <> ∅ -> is_Some (tl_items l !! n))) \/ tl_items l' = ∅).
Proof.
  intros Hi. pose proof (inv_pending _ _ _ _ _ Hi a l (lookup_insert_eq _ _ _)) as Hok. unfold sm_Get.
  destruct ((0 <? tl_Len l) && _) eqn:Eg.
  - destruct (tl_Cap_spec _ _ 0 l Hok) as (R & l' & E & Hl' & HR & _ & Hlen); [lia|].
    pose proof (take_pending _ _ [] D pool a l l' R Hi (lookup_insert_eq _ _ _) Hl' HR) as Hi1. rewrite insert_insert_eq, app_nil_r in Hi1.
    destruct (requeue_frame _ R D pool a Hi1) as (Q' & E2 & Hi2 & Hfr & Hf).
    { apply Forall_forall. intros tx Htx. destruct (removed_good (inv_pending _ _ _ _ _ Hi) (lookup_insert_eq _ _ _) HR tx Htx) as [[Hs _] _].
      by apply from_of_sender. }
    exists R, l', Q'. do 5 (split; [done|]). right. apply tl_Empty_spec. unfold tl_Empty. rewrite Hlen. pose proof (tl_Len_nonneg l).
    apply Z.eqb_eq. lia.
  - exists [], l, (tp_queue pool). split; [done|]. assert (E : tp_set_queue (tp_queue pool) pool = pool) by (by destruct pool). rewrite E.
    split; [done|]. split; [done|]. split; [apply frame_refl|]. split; [done|]. left. split; [done|].
    intros Hne%tl_nonempty. rewrite (proj2 (Z.ltb_lt _ _) Hne) in Eg. simpl in Eg. by destruct (tl_items l !! n).
Qed.

(** What [demoteUnexecutables] leaves of an account: transactions of the
    list before, none below the nonce of the account, all affordable, and if
    they had no gap, they have none and start with that nonce. *)
Record demoted pool pool' a : Prop := {
  dm_sub : forall n x, at_slot pool' true (a, n) = Some x -> at_slot pool true (a, n) = Some x /\ nonce_at pool a <= n /\
             affordable (balance_at pool a) (tp_currentMaxGas pool) x;
  dm_full : forall l, tp_pending pool' !! a = Some l -> tl_items l <> ∅;
  dm_run : forall l, tp_pending pool !! a = Some l -> unbroken (tl_items l) ->
             (forall n, at_slot pool' true (a, n) = None) \/
             (is_Some (at_slot pool' true (a, nonce_at pool a)) /\
              exists l', tp_pending pool' !! a = Some l' /\ unbroken (tl_items l'))
}.

Lemma demote_account_spec D pool a l :
  pool_inv D pool -> tp_pending pool !! a = Some l ->
  exists pool', demote_account a l pool = Done pool' /\ pool_inv D pool' /\ frame [a] pool pool' /\
    next_nonce pool' a = next_nonce pool a /\ demoted pool pool' a /\
    (forall c, c <> a -> tp_pending pool' !! c = tp_pending pool !! c).
Proof.
  intros [Hi HfQ HfP] Hl. unfold demote_account.
  destruct (clean_pending D pool a l Hi Hl) as (pool1 & R1 & l1 & pool2 & pool3 & R2 & V & l2 & pool4 & -> & E1 & E2 & E3 & E4 & E5 & Hi4 & Hq & HV & Hl2 & Hu).
  rewrite E1. cbn [outcome_bind]. rewrite E2. cbn [outcome_bind]. rewrite E3, E4, E5. cbn [outcome_bind]. clear E1 E2 E3 E4 E5.
  rewrite <-(fr_signer _ _ _ (qu_frame _ _ Hq)) in HV. destruct (requeue_frame _ V D pool4 a Hi4 HV) as (Q5 & -> & Hi5 & Hfr5 & Hf5). cbn [outcome_bind].
  set (pool5 := tp_set_queue Q5 pool4) in *.
  destruct (cut_gapped D pool5 a l2 (nonce_at pool a) Hi5) as (R & l3 & Q6 & -> & E & Hi6 & Hfr6 & Hf6 & Hgap). cbn [outcome_bind]. rewrite E. cbn [outcome_bind].
  set (pool6 := tp_set_queue Q6 pool5) in *. set (beats := if tl_Empty l3 then delete a (tp_beats pool6) else tp_beats pool6).
  destruct (close_pending D pool6 a l3 [] beats Hi6) as [Hi7 Hfr7]. set (pool7 := tp_set_lists _ _ beats pool6) in *.
  assert (EP : tp_pending pool6 = tp_pending pool) by apply (qu_pending _ _ Hq).
  exists pool7. split; [f_equal; unfold pool7, beats, put_list; by destruct (tl_Empty l3)|].
  assert (Hfr : frame [a] pool pool7).
  { eapply frame_trans; [by apply quiet_frame, Hq|]. eapply frame_trans; [exact Hfr5|]. by eapply frame_trans. }
  assert (Hv : forall n, at_slot pool7 true (a, n) = tl_items l3 !! n) by (intros n; unfold at_slot, view, pool7; simpl; by rewrite look_put, decide_True).
  split; [split; [done| |]|split; [done|split; [|split]]].
  - unfold pool7. simpl. apply Hf6. unfold pool5. simpl. apply Hf5. by rewrite (qu_queue _ _ Hq).
  - intros Hpos. unfold pool7. cbn [tp_set_lists tp_pending]. apply full_put. rewrite EP. apply HfP. by rewrite <-(fr_config _ _ _ Hfr).
  - apply (fr_next _ _ _ (qu_frame _ _ Hq)), not_elem_of_nil.
  - split.
    + intros n x. rewrite Hv. intros Hx. assert (Hx2 : tl_items l2 !! n = Some x) by (destruct Hgap as [[-> _]|He]; [done|by rewrite He in Hx]).
      unfold at_slot, view. rewrite (look_list _ _ _ _ Hl). by apply Hl2.
    + intros k. unfold pool7, put_list. cbn [tp_set_lists tp_pending]. destruct (tl_Empty l3) eqn:Ee; [by rewrite lookup_delete_eq|].
      rewrite lookup_insert_eq. intros [= <-] He. apply tl_Empty_spec in He. congruence.
    + intros l0 Hl0 Hu0. rewrite Hl in Hl0. injection Hl0 as <-. destruct Hgap as [[-> Hn]|He]; [|left; intros n; by rewrite Hv, He].
      destruct (decide (tl_items l2 = ∅)) as [He|Hne]; [left; intros n; by rewrite Hv, He|right]. rewrite Hv. split; [by apply Hn|].
      exists l2. split; [|by apply Hu]. unfold pool7, put_list. cbn [tp_set_lists tp_pending]. destruct (tl_Empty l2) eqn:Ee; [by apply tl_Empty_spec in Ee|].
      apply lookup_insert_eq.
  - intros c Hc. unfold pool7, put_list. cbn [tp_set_lists tp_pending]. rewrite EP. case_match; [by rewrite lookup_delete_ne|by rewrite lookup_insert_ne].
Qed.
End PoolDemote.

(** The transactions of a chain that is left for another. *)

Section PoolReorg.
Context {S : Type} `{CR : Crypto} `{CS : !CryptoSpec}.
Implicit Types (chain : poolChain (S := S)) (b : poolBlock) (tx : Transaction) (txs : list Transaction).

(** What a block holds: transactions as they come from decoding, with nonces
    that leave room for the next one. *)
Record block_tx tx : Prop := {
  bt_ok : td_ok (tx_data tx);
  bt_len : len (tx_enc (tx_data tx)) < 2 ^ 63;
  bt_caches : caches_ok tx;
  bt_nonce : 0 <= tx_Nonce tx < 2 ^ 64 - 1
}.

(** The chain finds blocks by hash and number. *)
Definition blocks_ok chain : Prop :=
  forall h n b, bc_GetBlock chain h n = Some b ->
    pb_Hash b = h /\ pb_Number b = n /\ 0 <= n < 2 ^ 64 - 1 /\ Forall block_tx (pb_Transactions b).
Definition stored chain b : Prop := bc_GetBlock chain (pb_Hash b) (pb_Number b) = Some b.

(** Going from a block to an ancestor, with the transactions on the way. *)
Inductive descends chain : poolBlock -> list Transaction -> poolBlock -> Prop :=
| descends_here b : descends chain b [] b
| descends_parent b p txs b' :
    parent_block chain b = Some p -> descends chain p txs b' -> descends chain b (pb_Transactions b ++ txs) b'.

Lemma TxDifference_spec a c :
  Forall block_tx a -> Forall block_tx c ->
  exists d, TxDifference a c = Done d /\ Forall block_tx d /\ len d <= len a /\
    map tx_data d = map tx_data (filter (fun tx => hash_of tx ∉ map hash_of c) a).
Proof.
  intros Ha Hc. assert (Hhash : forall tx, block_tx tx -> exists tx', tx_Hash tx = Done (hash_of tx, tx') /\ tx_data tx' = tx_data tx /\ block_tx tx').
  { intros tx [H1 H2 H3 H4]. destruct (tx_Hash_spec tx H1 H2 H3) as (tx' & E & Ed & Hc'). exists tx'. unfold hash_of. rewrite E. split; [done|].
    split; [done|]. split; [by rewrite Ed|by rewrite Ed|done|]. unfold tx_Nonce in *. by rewrite Ed. }
  assert (Ehs : tx_hashes c = Done (map hash_of c)).
  { clear Ha. induction Hc as [|tx c Htx Hc IH]; [done|]. cbn [tx_hashes]. destruct (Hhash tx Htx) as (tx' & -> & _). cbn [outcome_bind]. by rewrite IH. }
  unfold TxDifference. rewrite Ehs. cbn [outcome_bind]. induction Ha as [|tx a Htx Ha IH]; [by exists []|].
  cbn [keep_others]. destruct (Hhash tx Htx) as (tx' & -> & Ed & Hb'). cbn [outcome_bind fst snd]. destruct IH as (d & -> & Hd & Hlen & Em).
  cbn [outcome_bind]. rewrite filter_cons, len_cons. destruct (decide (hash_of tx ∈ (list_to_set (map hash_of c) : gset Hash))) as [Hin|Hin].
  - rewrite elem_of_list_to_set in Hin. rewrite decide_False by naive_solver. exists d. split; [done|]. split; [done|]. split; [lia|done].
  - rewrite elem_of_list_to_set in Hin. rewrite decide_True by done. exists (tx' :: d). split; [done|]. split; [by constructor|].
    rewrite len_cons. split; [lia|]. simpl. by rewrite Ed, Em.
Qed.

Section Blocks.
Context (chain : poolChain (S := S)).
Hypothesis Hchain : blocks_ok chain.

Lemma found_stored h n b : bc_GetBlock chain h n = Some b -> stored chain b.
Proof using Hchain. intros Hb. destruct (Hchain h n b Hb) as (Eh & En & _). unfold stored. by rewrite Eh, En. Qed.
Lemma stored_number b : stored chain b -> 0 <= pb_Number b < 2 ^ 64 - 1.
Proof using Hchain. intros Hb. by destruct (Hchain _ _ _ Hb) as (_ & _ & ? & _). Qed.
Lemma stored_txs b : stored chain b -> Forall block_tx (pb_Transactions b).
Proof using Hchain. intros Hb. by destruct (Hchain _ _ _ Hb) as (_ & _ & _ & ?). Qed.
(** A parent is one lower; the first block has none. *)
Lemma parent_stored b p : stored chain b -> parent_block chain b = Some p -> stored chain p /\ pb_Number p = pb_Number b - 1.
Proof using Hchain.
  intros Hb Hp. unfold parent_block in Hp. split; [by eapply found_stored|]. destruct (Hchain _ _ _ Hp) as (_ & -> & Hn & _).
  pose proof (stored_number b Hb). destruct (decide (pb_Number b = 0)) as [E|Hne]; [rewrite E in Hn; change (u64 (0 - 1)) with (2 ^ 64 - 1) in Hn; lia|].
  apply u64_small. unfold is_u64. lia.
Qed.

Lemma descends_txs b txs b' : descends chain b txs b' -> stored chain b -> Forall block_tx txs.
Proof using Hchain.
  induction 1 as [b|b p txs b' Hp Hd IH]; intros Hb; [constructor|]. apply Forall_app. split; [by apply stored_txs|].
  apply IH. by eapply parent_stored.
Qed.

Lemma descends_number b t c : descends chain b t c -> stored chain b -> pb_Number c <= pb_Number b.
Proof using Hchain.
  induction 1 as [b|b p t c Hp Hd IH]; intros Hb; [lia|]. destruct (parent_stored b p Hb Hp) as [Hs Hn]. specialize (IH Hs). lia.
Qed.

(** Two branches meet in a block. *)
Definition common (rem add b : poolBlock) (d i : list Transaction) : Prop :=
  descends chain rem d b /\ descends chain add i b.

(** The block at number [n] is an ancestor, above all ancestors with lower
    numbers; without it there are no such ancestors. *)
Lemma descend_spec n fuel : forall txs b,
  0 <= n -> stored chain b -> (reorg_fuel b <= fuel)%nat ->
  exists r, descend fuel chain n txs b = Done r /\
    match r with
    | None => forall c u, descends chain b u c -> n < pb_Number c
    | Some (txs', b') =>
        (exists t, txs' = txs ++ t /\ descends chain b t b' /\ stored chain b' /\ pb_Number b' = Z.min n (pb_Number b)) /\
        forall c u, descends chain b u c -> pb_Number c <= n -> exists u', descends chain b' u' c
    end.
Proof using Hchain.
  unfold reorg_fuel. induction fuel as [|fuel IH]; intros txs b Hn Hb Hf; pose proof (stored_number b Hb); [lia|]. cbn [descend].
  destruct (Z.ltb_spec n (pb_Number b)) as [Hlt|Hge].
  - destruct (parent_block chain b) as [p|] eqn:Ep.
    2:{ exists None. split; [done|]. intros c u Hd. by destruct Hd as [b|b p u c Hp _]; [|congruence]. }
    destruct (parent_stored b p Hb Ep) as [Hp Hpn].
    destruct (IH (txs ++ pb_Transactions b) p Hn Hp) as (r & E & Hr); [lia|]. exists r. split; [done|]. destruct r as [[txs' b']|].
    + destruct Hr as [(t & -> & Hd & Hst & Hnum) Hr]. split.
      * exists (pb_Transactions b ++ t). split; [by rewrite app_assoc|]. split; [by eapply descends_parent|]. split; [done|lia].
      * intros c u Hc. destruct Hc as [b|b q u c Hq Hc]; [lia|]. simplify_eq. by apply (Hr c u).
    + intros c u Hc. destruct Hc as [b|b q u c Hq Hc]; [done|]. simplify_eq. by apply (Hr c u).
  - exists (Some (txs, b)). split; [done|]. split; [|by eauto]. exists []. split; [by rewrite app_nil_r|]. split; [constructor|].
    split; [done|lia].
Qed.

Lemma join_spec fuel : forall d i rem add,
  stored chain rem -> stored chain add -> pb_Number rem = pb_Number add -> (reorg_fuel rem <= fuel)%nat ->
  exists r, join fuel chain d i rem add = Done r /\
    match r with
    | None => forall c t u, ~ common rem add c t u
    | Some (d', i') => exists t u b, d' = d ++ t /\ i' = i ++ u /\ common rem add b t u
    end.
Proof using Hchain.
  unfold reorg_fuel. induction fuel as [|fuel IH]; intros d i rem add Hr Ha Hnum Hf; pose proof (stored_number rem Hr); [lia|]. cbn [join].
  destruct (decide (pb_Hash rem = pb_Hash add)) as [Eh|Hne].
  { exists (Some (d, i)). split; [done|]. exists [], [], rem. rewrite !app_nil_r. do 2 (split; [done|]). split; [constructor|].
    assert (rem = add) as <- by (unfold stored in *; congruence). constructor. }
  assert (Hup : forall c t u, common rem add c t u -> exists p q t' u',
            parent_block chain rem = Some p /\ parent_block chain add = Some q /\ common p q c t' u').
  { intros c t u [Ht Hu]. destruct Ht as [rem|rem p t c Hp Ht], Hu as [add|add q u c Hq Hu]; [done|..|by exists p, q, t, u].
    - destruct (parent_stored add q Ha Hq) as [Hs Hqn]. pose proof (descends_number _ _ _ Hu Hs). lia.
    - destruct (parent_stored rem p Hr Hp) as [Hs Hpn]. pose proof (descends_number _ _ _ Ht Hs). lia. }
  destruct (parent_block chain rem) as [p|] eqn:Ep; [|by exists None; split; [|intros c t u (? & ? & ? & ? & ? & _)%Hup]].
  destruct (parent_block chain add) as [q|] eqn:Eq; [|by exists None; split; [|intros c t u (? & ? & ? & ? & _ & ? & _)%Hup]].
  destruct (parent_stored rem p Hr Ep) as [Hp Hpn], (parent_stored add q Ha Eq) as [Hq Hqn].
  destruct (IH (d ++ pb_Transactions rem) (i ++ pb_Transactions add) p q Hp Hq) as (r & E & Hres); [lia|lia|]. exists r. split; [done|].
  destruct r as [[d' i']|].
  - destruct Hres as (t & u & b & -> & -> & Ht & Hu). exists (pb_Transactions rem ++ t), (pb_Transactions add ++ u), b. rewrite !app_assoc.
    do 2 (split; [done|]). split; by eapply descends_parent.
  - intros c t u (p' & q' & t' & u' & [= <-] & [= <-] & Hc)%Hup. by eapply Hres.
Qed.

Lemma descends_trans b t c u d : descends chain b t c -> descends chain c u d -> descends chain b (t ++ u) d.
Proof using. clear. induction 1 as [b|b p txs b' Hp Hd IH]; intros Hu; [done|]. rewrite <-app_assoc. eapply descends_parent; [done|auto]. Qed.

(** What is reinjected: the transactions of the old chain down to a common
    ancestor that are not in the new chain.  There is a result unless there
    is no such ancestor. *)
Lemma reorg_spec old new rem add :
  bc_GetBlock chain (pb_Hash old) (pb_Number old) = Some rem -> bc_GetBlock chain (pb_Hash new) (pb_Number new) = Some add ->
  exists r, reorg chain old new = Done r /\ (forall txs, r = Some txs -> Forall block_tx txs) /\
    if 64 <? reorg_depth (pb_Number old) (pb_Number new) then r = Some []
    else match r with
         | None => forall d i b, ~ common rem add b d i
         | Some txs => exists d i b, common rem add b d i /\
             map tx_data txs = map tx_data (filter (fun tx => hash_of tx ∉ map hash_of i) d)
         end.
Proof using Hchain CS.
  intros Hrem Hadd. unfold reorg. destruct (64 <? reorg_depth (pb_Number old) (pb_Number new)).
  { exists (Some []). split; [done|]. split; [|done]. intros txs [= <-]. constructor. }
  rewrite Hrem, Hadd. apply found_stored in Hrem as Hr0, Hadd as Ha0. pose proof (stored_number _ Hr0). pose proof (stored_number _ Ha0).
  assert (Hlow : forall d i b, common rem add b d i -> pb_Number b <= pb_Number rem /\ pb_Number b <= pb_Number add)
    by (intros d i b [Hd Hi]; split; by eapply descends_number).
  destruct (descend_spec (pb_Number add) (reorg_fuel rem) [] rem) as (r1 & -> & D1); [lia|done|done|]. cbn [outcome_bind].
  destruct r1 as [[d1 rem1]|].
  2:{ exists None. do 2 (split; [done|]). intros d i b Hc. destruct (Hlow d i b Hc), Hc as [Hd _]. specialize (D1 b d Hd). lia. }
  destruct D1 as [(t1 & -> & Hd1 & Hs1 & Hn1) D1]. pose proof (stored_number _ Hs1).
  destruct (descend_spec (pb_Number rem1) (reorg_fuel add) [] add) as (r2 & -> & D2); [lia|done|done|]. cbn [outcome_bind].
  destruct r2 as [[i1 add1]|].
  2:{ exists None. do 2 (split; [done|]). intros d i b Hc. destruct (Hlow d i b Hc), Hc as [_ Hi]. specialize (D2 b i Hi). lia. }
  destruct D2 as [(u1 & -> & Hd2 & Hs2 & Hn2) D2].
  destruct (join_spec (reorg_fuel rem1) ([] ++ t1) ([] ++ u1) rem1 add1 Hs1 Hs2) as (r3 & -> & D3); [lia|done|]. cbn [outcome_bind].
  destruct r3 as [[d i]|].
  2:{ exists None. do 2 (split; [done|]). intros d i b Hc. destruct (Hlow d i b Hc), Hc as [Hd Hi].
      destruct (D1 b d Hd) as [t Ht]; [lia|]. destruct (D2 b i Hi) as [u Hu]; [lia|]. by apply (D3 b t u). }
  destruct D3 as (t & u & b & -> & -> & Ht & Hu). simpl.
  pose proof (descends_trans _ _ _ _ _ Hd1 Ht) as Hdd. pose proof (descends_trans _ _ _ _ _ Hd2 Hu) as Hdi.
  destruct (TxDifference_spec (t1 ++ t) (u1 ++ u)) as (txs & -> & Htxs & _ & Em); [by eapply descends_txs..|].
  cbn [outcome_bind]. exists (Some txs). split; [done|]. split; [by intros ? [= <-]|]. by exists (t1 ++ t), (u1 ++ u), b.
Qed.
End Blocks.
End PoolReorg.

(** The pool on a new head. *)

Section PoolReset.
Context {S M : Type} {PC : PoolChain S M} {PS : PoolChainSpec S M} `{CR : Crypto} `{RO : RangeOrder} `{SO : SortOrder}.
Implicit Types (pool : TxPool (S := S) (M := M)) (D : list Hash) (a : Address) (tx : Transaction) (l : txList).

(** ** Demotion of all accounts *)

Lemma demoted_same pool0 pool pool1 pool2 a :
  steady pool0 pool -> tp_pending pool !! a = tp_pending pool0 !! a -> tp_pending pool2 !! a = tp_pending pool1 !! a ->
  demoted pool pool1 a -> demoted pool0 pool2 a.
Proof.
  intros Hst E1 E2 [H1 H2 H3]. unfold at_slot, view, look in *. simpl in *. rewrite E1 in *. 
  rewrite (sy_nonce _ _ Hst), (sy_balance _ _ Hst), (sy_maxGas _ _ Hst) in *. split; unfold at_slot, view, look; simpl; rewrite E2; done.
Qed.

Definition demote_pending a pool : outcome TxPool :=
  match tp_pending pool !! a with None => Done pool | Some list => demote_account a list pool end.
Lemma demote_loop D A : forall pool,
  pool_inv D pool -> NoDup A ->
  exists pool', for_each demote_pending A pool = Done pool' /\ pool_inv D pool' /\ base pool pool' /\
    (forall a, next_nonce pool' a = next_nonce pool a) /\ (forall a, a ∈ A -> demoted pool pool' a) /\
    (forall a, a ∉ A -> tp_pending pool' !! a = tp_pending pool !! a).
Proof.
  induction A as [|c A IH]; intros pool HI Hnd; cbn [for_each].
  { exists pool. do 2 (split; [done|]). split; [apply base_refl|]. split; [done|]. split; [by intros a ?%elem_of_nil|done]. }
  apply NoDup_cons in Hnd as [Hc Hnd].
  assert (Hstep : exists pool1, demote_pending c pool = Done pool1 /\ pool_inv D pool1 /\ base pool pool1 /\
    (forall a, next_nonce pool1 a = next_nonce pool a) /\ demoted pool pool1 c /\ (forall a, a <> c -> tp_pending pool1 !! a = tp_pending pool !! a)).
  { unfold demote_pending. destruct (tp_pending pool !! c) as [l|] eqn:El.
    - destruct (demote_account_spec D pool c l HI El) as (pool1 & E & HI1 & Hfr & Hn & Hd & Hoth). exists pool1. do 2 (split; [done|]).
      split; [by eapply frame_base|]. split; [|done]. intros a. destruct (decide (a = c)) as [->|Hne]; [done|]. apply (fr_next _ _ _ Hfr). set_solver.
    - exists pool. do 2 (split; [done|]). split; [apply base_refl|]. split; [done|]. split; [|done].
      split; [intros n x|intros l|intros l]; unfold at_slot, view, look; simpl; by rewrite El. }
  destruct Hstep as (pool1 & -> & HI1 & Hb1 & Hn1 & Hd1 & Ho1). cbn [outcome_bind].
  destruct (IH pool1 HI1 Hnd) as (pool' & E & HI' & Hb & Hn & Hd & Ho). exists pool'. do 2 (split; [done|]).
  split; [by eapply base_trans|]. split; [intros a; by rewrite Hn|]. split.
  - intros a [->|Ha]%elem_of_cons.
    + apply (demoted_same pool pool pool1); [apply base_steady, base_refl|done|by apply Ho|done].
    + apply (demoted_same pool pool1 pool'); [by apply base_steady|apply Ho1; congruence|done|by apply Hd].
  - intros a Ha. rewrite Ho, Ho1; [done|set_solver..].
Qed.

Lemma demoteUnexecutables_spec D pool :
  pool_inv D pool ->
  exists pool', demoteUnexecutables pool = Done pool' /\ pool_inv D pool' /\ base pool pool' /\
    (forall a, next_nonce pool' a = next_nonce pool a) /\ forall a, demoted pool pool' a.
Proof.
  intros HI. unfold demoteUnexecutables.
  destruct (demote_loop D (map fst (range (tp_pending pool))) pool HI) as (pool' & E & HI' & Hb & Hn & Hd & Ho); [apply NoDup_range_keys|].
  exists pool'. do 4 (split; [done|]). intros a. destruct (decide (a ∈ map fst (range (tp_pending pool)))) as [Hin|Hin]; [by apply Hd|].
  rewrite elem_of_range_keys in Hin. assert (En : tp_pending pool !! a = None) by (by apply eq_None_not_Some).
  specialize (Ho a). rewrite elem_of_range_keys in Ho. specialize (Ho Hin).
  split; [intros n x|intros l|intros l]; unfold at_slot, view, look; simpl; rewrite ?Ho, En; done.
Qed.

(** ** The nonces after the pending transactions *)

(** [n] is the nonce after the last one. *)
Definition next_after (l : txList) (n : Z) : Prop :=
  is_Some (tl_items l !! (n - 1)) /\ forall k, is_Some (tl_items l !! k) -> k < n.

Lemma sorted_last items c x :
  items_ok items -> sorted_items items c -> last c = Some x -> items !! tx_Nonce x = Some x /\ forall k, is_Some (items !! k) -> k <= tx_Nonce x.
Proof.
  intros Hok Hs Hlast. split; [apply (sorted_elem _ c _ Hok Hs); by apply last_Some_elem_of|]. intros k [y Hy].
  assert (Hin : y ∈ c) by (apply (sorted_elem _ c _ Hok Hs); by rewrite (proj1 (Hok _ _ Hy))). destruct (Hok _ _ Hy) as [<- _].
  apply last_Some in Hlast as [c' ->]. destruct Hs as [_ Hs]. apply elem_of_app in Hin as [Hin|Hin]; [|apply list_elem_of_singleton in Hin as ->; done].
  apply Z.lt_le_incl. change (nlt y x). revert Hs Hin. clear. induction c' as [|z c' IH]; simpl; [by intros _ ?%elem_of_nil|].
  intros Hs [->|Hin]%elem_of_cons; inversion Hs as [|? ? Hs' Hz]; subst; [|by apply IH]. rewrite Forall_forall in Hz. apply Hz. apply elem_of_app. right. by left.
Qed.

Lemma update_nonce_spec D pool a l :
  pool_inv D pool -> tp_pending pool !! a = Some l -> tl_items l <> ∅ ->
  exists pool', update_nonce a pool = Done pool' /\ pool_inv D pool' /\ frame [a] pool pool' /\
    (forall b s, at_slot pool' b s = at_slot pool b s) /\ next_after l (next_nonce pool' a) /\ tp_queue pool' = tp_queue pool /\
    (forall c, c <> a -> tp_pending pool' !! c = tp_pending pool !! c) /\
    exists l', tp_pending pool' !! a = Some l' /\ tl_items l' = tl_items l.
Proof.
  intros [Hi HfQ HfP] Hl Hne. pose proof (inv_pending _ _ _ _ _ Hi a l Hl) as Hok. unfold update_nonce. rewrite Hl.
  destruct (tl_Flatten_spec _ _ l Hok) as (Hsort & Hl' & Hit). destruct (tl_Flatten l) as [txs l']. cbn [fst snd] in *.
  assert (Hpos : 0 < len txs).
  { unfold len. rewrite (Permutation_length (proj1 Hsort)), length_fmap, length_map_to_list. apply tl_nonempty in Hne. exact Hne. }
  destruct (index_done txs (len txs - 1)) as (x & -> & Hx); [lia|]. cbn [outcome_bind].
  assert (Hlast : last txs = Some x) by (rewrite last_lookup, <-Hx; f_equal; unfold len in *; lia).
  destruct (sorted_last _ txs x (ok_items _ (tl_ok_map _ _ _ Hok)) Hsort Hlast) as [Hx' Hmax].
  destruct (tl_ok_items _ _ _ Hok _ _ Hx') as ([_ Hxn] & _). rewrite u64_small by (unfold is_u64; lia).
  set (pool1 := tp_set_pending _ pool). 
  assert (Hlook : forall s, look (<[a := l']> (tp_pending pool)) s = look (tp_pending pool) s).
  { intros [c n]. rewrite look_insert, Hit. simpl. case_decide as Hd; [|done]. subst c. by rewrite (look_list _ _ _ _ Hl). }
  assert (Hi1 : inv (tp_pending pool1) (tp_queue pool1) [] D pool1).
  { apply (inv_set _ _ _ _ pool); try done; try apply Hi. apply (inv_same _ _ _ _ _ _ _ Hi); [exact Hlook|done| |apply Hi].
    apply lists_ok_insert; [apply Hi|done]. }
  destruct (set_pending_nonce_spec Hi1 a (tx_Nonce x + 1)) as (Hi2 & Hfr & Hnn & HP & HQ); [unfold is_u64; lia|].
  set (pool2 := set_pending_nonce _ _ pool1) in *. exists pool2. split; [done|].
  split; [split; [by rewrite HP, HQ| |]|].
  - by rewrite HQ.
  - intros Hs. rewrite HP. apply full_insert; [by apply HfP|by rewrite Hit].
  - split; [eapply frame_trans; [|exact Hfr]; by apply frame_lists|]. split; [intros [] s; unfold at_slot, view; [rewrite HP; apply Hlook|by rewrite HQ]|].
    split; [rewrite Hnn; split|]; [by replace (tx_Nonce x + 1 - 1) with (tx_Nonce x) by lia; rewrite Hx'|intros k Hk; specialize (Hmax k Hk); lia|].
    split; [done|]. rewrite HP. split; [intros c Hc; unfold pool1; simpl; by rewrite lookup_insert_ne|]. exists l'. split; [apply lookup_insert_eq|done].
Qed.

Lemma update_loop D A : forall pool,
  pool_inv D pool -> NoDup A -> (forall a, a ∈ A -> exists l, tp_pending pool !! a = Some l /\ tl_items l <> ∅) ->
  exists pool', for_each update_nonce A pool = Done pool' /\ pool_inv D pool' /\ frame A pool pool' /\
    (forall b s, at_slot pool' b s = at_slot pool b s) /\ tp_queue pool' = tp_queue pool /\
    (forall a l, a ∈ A -> tp_pending pool !! a = Some l -> next_after l (next_nonce pool' a)).
Proof.
  induction A as [|c A IH]; intros pool HI Hnd HA; cbn [for_each].
  { exists pool. do 2 (split; [done|]). split; [apply frame_refl|]. do 2 (split; [done|]). by intros a l ?%elem_of_nil. }
  apply NoDup_cons in Hnd as [Hc Hnd]. destruct (HA c (list_elem_of_here _ _)) as (l & Hl & Hne).
  destruct (update_nonce_spec D pool c l HI Hl Hne) as (pool1 & -> & HI1 & Hfr1 & Hv1 & Hn1 & HQ1 & Ho1 & _). cbn [outcome_bind].
  destruct (IH pool1 HI1 Hnd) as (pool' & E & HI' & Hfr & Hv & HQ & Hn).
  { intros a Ha. rewrite Ho1 by congruence. apply HA. by right. }
  exists pool'. do 2 (split; [done|]). split; [eapply frame_trans; (eapply frame_mono; [|done]); set_solver|].
  split; [intros b s; by rewrite Hv|]. split; [congruence|]. intros a l0 [->|Ha]%elem_of_cons Hl0.
  - rewrite Hl in Hl0. injection Hl0 as <-. by rewrite (fr_next _ _ _ Hfr).
  - apply Hn; [done|]. rewrite Ho1; congruence.
Qed.

(** After both loops an account whose pending nonces had no gap is in
    order. *)
Lemma renewed_in_order pool0 pool2 pool3 a :
  next_nonce pool0 a = nonce_at pool0 a ->
  (forall l, tp_pending pool0 !! a = Some l -> unbroken (tl_items l)) ->
  demoted pool0 pool2 a -> base pool0 pool2 -> next_nonce pool2 a = next_nonce pool0 a ->
  frame (map fst (range (tp_pending pool2))) pool2 pool3 -> (forall b s, at_slot pool3 b s = at_slot pool2 b s) ->
  (forall l, a ∈ map fst (range (tp_pending pool2)) -> tp_pending pool2 !! a = Some l -> next_after l (next_nonce pool3 a)) ->
  in_order pool3 a.
Proof.
  intros Hfresh Hu [Hsub Hfull Hrun] Hb Hn2 Hfr Hv Hnext.
  assert (En : nonce_at pool3 a = nonce_at pool0 a) by (rewrite (fr_nonce _ _ _ Hfr); apply Hb).
  assert (Hpays : forall n x, at_slot pool3 true (a, n) = Some x -> affordable (balance_at pool3 a) (tp_currentMaxGas pool3) x).
  { intros n x. rewrite Hv, (fr_balance _ _ _ Hfr), (fr_maxGas _ _ _ Hfr), (ba_balance _ _ Hb), (ba_maxGas _ _ Hb). apply Hsub. }
  destruct (tp_pending pool2 !! a) as [l|] eqn:El.
  - assert (Hin : a ∈ map fst (range (tp_pending pool2))) by (apply elem_of_range_keys; by rewrite El).
    destruct (Hnext l Hin eq_refl) as [Htop Hmax].
    assert (Ev : forall n, at_slot pool2 true (a, n) = tl_items l !! n) by (intros n; unfold at_slot, view; by apply look_list).
    destruct (tp_pending pool0 !! a) as [l0|] eqn:El0.
    2:{ exfalso. destruct Htop as [x Hx]. rewrite <-Ev in Hx. apply Hsub in Hx as [Hx _]. unfold at_slot, view, look in Hx. simpl in Hx. by rewrite El0 in Hx. }
    destruct (Hrun l0 eq_refl (Hu l0 eq_refl)) as [Hnone|(Hfirst & l' & [= <-] & Hul)].
    { exfalso. destruct Htop as [x Hx]. rewrite <-Ev, Hnone in Hx. done. }
    rewrite Ev in Hfirst. pose proof (Hmax _ Hfirst). split; rewrite ?En; [lia| |done].
    intros n. rewrite Hv, Ev. split.
    + intros Hx. split; [|by apply Hmax]. destruct Hx as [x Hx]. rewrite <-Ev in Hx. by apply Hsub in Hx as (_ & ? & _).
    + intros Hlt. apply (Hul (nonce_at pool0 a) n (next_nonce pool3 a - 1)); [done|done|lia].
  - assert (Hn3 : next_nonce pool3 a = nonce_at pool0 a).
    { rewrite (fr_next _ _ _ Hfr); [congruence|]. rewrite elem_of_range_keys, El. by intros [? ?]. }
    split; rewrite ?Hn3, ?En; [lia| |done]. intros n. rewrite Hv. unfold at_slot, view, look. simpl. rewrite El. split; [by intros [? ?]|lia].
Qed.

Lemma in_order_unbroken pool a l : in_order pool a -> tp_pending pool !! a = Some l -> unbroken (tl_items l).
Proof.
  intros [_ Hrun _] Hl n m k Hn Hk Hm. unfold at_slot, view in Hrun.
  assert (Ev : forall n, look (tp_pending pool) (a, n) = tl_items l !! n) by (intros j; by apply look_list).
  rewrite <-Ev in *. apply Hrun. apply Hrun in Hn, Hk. lia.
Qed.

(** ** The second half of [reset] *)

Record reset_ok pool (statedb : S) (gas : Z) (reinject : list Transaction) pool' : Prop := {
  ro_inv : pool_inv [] pool';
  ro_size : Z.of_nat (size (tp_all pool')) <= Z.of_nat (size (tp_all pool)) + len reinject;
  ro_config : tp_config pool' = tp_config pool;
  ro_signer : tp_signer pool' = tp_signer pool;
  ro_maxGas : tp_currentMaxGas pool' = gas;
  ro_nonce : forall a, nonce_at pool' a = ps_nonce statedb a;
  ro_balance : forall a, balance_at pool' a = ps_balance statedb a;
  ro_limits : limits pool';
  ro_order : reinject = [] -> forall a, (forall l, tp_pending pool !! a = Some l -> unbroken (tl_items l)) -> in_order pool' a /\ waiting pool' a
}.

Lemma reset_to_spec now statedb gas reinject pool :
  pool_inv [] pool -> ps_fresh statedb -> Z.of_nat (size (tp_all pool)) + len reinject <= 2 ^ 24 -> Forall nonce_room reinject ->
  exists pool', reset_to now statedb gas reinject pool = Done pool' /\ reset_ok pool statedb gas reinject pool'.
Proof.
  intros HI Hf Hs Hn. unfold reset_to. destruct (pc_ManageState_ok statedb Hf) as (Hok & m & -> & Hm & Hmn). cbn [outcome_bind].
  set (pool0 := tp_set_states statedb m gas pool).
  assert (HI0 : pool_inv [] pool0) by (destruct HI as [[] ? ?]; by split).
  destruct (addTxsLocked_spec now reinject false pool0 HI0 Hs Hn) as (errs & pool1 & E1 & HI1 & Hst1 & Hs1 & _ & _). rewrite E1. cbn [outcome_bind snd].
  destruct (demoteUnexecutables_spec [] pool1 HI1) as (pool2 & -> & HI2 & Hb2 & Hn2 & Hd2). cbn [outcome_bind].
  destruct (update_loop [] (map fst (range (tp_pending pool2))) pool2 HI2) as (pool3 & -> & HI3 & Hfr3 & Hv3 & HQ3 & Hn3); [apply NoDup_range_keys| |].
  { intros a [l Hl]%elem_of_range_keys. exists l. split; [done|]. by apply (dm_full _ _ _ (Hd2 a)). }
  cbn [outcome_bind]. pose proof (ba_size _ _ Hb2). pose proof (fr_size _ _ _ Hfr3).
  destruct (promoteExecutables_spec now None [] pool3 HI3) as (pool4 & -> & HI4 & Hb4 & Hl1 & Hl2 & _ & Ho4 & Hw4); [simpl in *; lia|].
  assert (Hst : steady pool0 pool4).
  { eapply steady_trans; [exact Hst1|]. apply base_steady. eapply base_trans; [done|]. eapply base_trans; [by eapply frame_base|done]. }
  exists pool4. split; [done|]. pose proof (ba_size _ _ Hb4). split; try done.
  - change (tp_all pool) with (tp_all pool0). lia.
  - apply Hst.
  - apply Hst.
  - apply Hst.
  - intros a. by rewrite (sy_nonce _ _ Hst).
  - intros a. by rewrite (sy_balance _ _ Hst).
  - intros -> a Hu. assert (pool1 = pool0) as -> by (unfold addTxsLocked in E1; cbn [add_each outcome_bind] in E1; rewrite decide_True in E1 by done; congruence). assert (Ho3 : in_order pool3 a).
    { apply (renewed_in_order pool0 pool2 pool3 a); try done; [apply Hmn|]. intros l Hin. by apply Hn3. }
    split; [by apply Ho4|]. apply Hw4; [done|]. destruct (tp_queue pool3 !! a) as [l|] eqn:El.
    + left. simpl. apply elem_of_range_keys. by rewrite El.
    + right. intros n. unfold at_slot, view, look. simpl. rewrite El. by intros [? ?].
Qed.
End PoolReset.

(** Heads of the chain, and the pool of a chain. *)

Section PoolHead.
Context {S M : Type} {PC : PoolChain S M} {PS : PoolChainSpec S M} `{CR : Crypto} `{CS : !CryptoSpec} `{RO : RangeOrder} `{SO : SortOrder}.
Implicit Types (pool : TxPool (S := S) (M := M)) (chain : poolChain (S := S)) (a : Address) (tx : Transaction).

(** The chain finds blocks by hash and number, and hands out fresh states. *)
Record chain_ok chain : Prop := {
  co_blocks : blocks_ok chain;
  co_states : forall root s, bc_StateAt chain root = Some s -> ps_fresh s
}.
(** Both heads are blocks of the chain. *)
Definition heads_found chain (old new : poolBlock) : Prop :=
  is_Some (bc_GetBlock chain (pb_Hash old) (pb_Number old)) /\ is_Some (bc_GetBlock chain (pb_Hash new) (pb_Number new)).

Lemma reinjected_spec chain old new :
  chain_ok chain -> heads_found chain old new ->
  exists r, reinjected chain (Some old) (Some new) = Done r /\ forall txs, r = Some txs -> Forall nonce_room txs.
Proof.
  intros Hc [[rem Hrem] [add Hadd]]. unfold reinjected. destruct (decide (pb_Hash old = pb_ParentHash new)) as [Heq|Hne].
  { eexists. split; [done|]. intros txs [= <-]. constructor. }
  destruct (reorg_spec chain (co_blocks _ Hc) old new rem add Hrem Hadd) as (r & E & Hr & _). exists r. split; [done|].
  intros txs ->. eapply Forall_impl; [by apply Hr|]. intros tx. apply bt_nonce.
Qed.

(** The pool moves to the new head; it stays as it is if the chains have no
    common ancestor or if there is no state. *)
Lemma reset_spec now chain old new pool :
  pool_inv [] pool -> chain_ok chain -> heads_found chain old new ->
  (forall txs, reinjected chain (Some old) (Some new) = Done (Some txs) -> Z.of_nat (size (tp_all pool)) + len txs <= 2 ^ 24) ->
  exists pool', reset now chain (Some old) (Some new) pool = Done pool' /\
    ((pool' = pool /\ (reinjected chain (Some old) (Some new) = Done None \/ bc_StateAt chain (pb_Root new) = None)) \/
     exists statedb txs, bc_StateAt chain (pb_Root new) = Some statedb /\ reinjected chain (Some old) (Some new) = Done (Some txs) /\
       reset_ok pool statedb (pb_GasLimit new) txs pool').
Proof.
  intros HI Hc Hh Hsz. unfold reset. destruct (reinjected_spec chain old new Hc Hh) as (r & E & Hr). rewrite E in Hsz |- *. cbn [outcome_bind].
  destruct r as [txs|]; [|exists pool; auto]. change (default (bc_CurrentBlock chain) (Some new)) with new. cbv zeta. destruct (bc_StateAt chain (pb_Root new)) as [s|] eqn:Es;
    [|exists pool; auto].
  destruct (reset_to_spec now s (pb_GasLimit new) txs pool HI) as (pool' & E' & Hok); [by eapply co_states|by apply Hsz|by apply Hr|].
  exists pool'. split; [done|]. right. by exists s, txs.
Qed.

Lemma set_homestead_inv b pool : pool_inv [] pool -> pool_inv [] (tp_set_homestead b pool).
Proof. intros [[] ? ?]. by split. Qed.

Lemma empty_pool_inv config chainconfig s m gas :
  cfg_ok config -> ps_ok s -> pm_ok m -> pool_inv [] (empty_pool config chainconfig s m gas).
Proof.
  intros Hcfg Hs Hm. split; [|by intros a l|by intros _ a l]. split; try done; try (by intros a l).
  apply placed_empty. by intros [] s'.
Qed.

Lemma NewTxPool_spec now config chainconfig chain :
  cfg_ok config -> chain_ok chain ->
  exists r, NewTxPool now config chainconfig chain = Done r /\
    match r with
    | None => bc_StateAt chain (pb_Root (bc_CurrentBlock chain)) = None
    | Some pool => pool_inv [] pool /\ tp_config pool = sanitize config /\ tp_all pool = ∅ /\ forall a, in_order pool a /\ waiting pool a
    end.
Proof.
  intros Hcfg Hc. unfold NewTxPool. destruct (bc_StateAt chain (pb_Root (bc_CurrentBlock chain))) as [s|] eqn:Es; [|by exists None].
  pose proof (co_states _ Hc _ _ Es) as Hf. destruct (pc_ManageState_ok s Hf) as (Hok & m & Em & Hm & _). rewrite Em. cbn [outcome_bind].
  set (pool0 := empty_pool config chainconfig s m _).
  unfold reset. cbn [reinjected outcome_bind]. change (default (bc_CurrentBlock chain) (Some (bc_CurrentBlock chain))) with (bc_CurrentBlock chain). cbv zeta. rewrite Es.
  destruct (reset_to_spec now s (pb_GasLimit (bc_CurrentBlock chain)) [] pool0) as (pool' & -> & Hr); [by apply empty_pool_inv|done|done|done|].
  cbn [outcome_bind]. exists (Some pool'). split; [done|]. split; [apply Hr|]. split; [apply (ro_config _ _ _ _ _ Hr)|]. split.
  - apply map_size_empty_inv. pose proof (ro_size _ _ _ _ _ Hr) as Hs. unfold pool0, len in Hs. simpl in Hs. rewrite map_size_empty in Hs. lia.
  - intros a. by apply (ro_order _ _ _ _ _ Hr).
Qed.
End PoolHead.
