(* ===== verification/PoolOps.v ===== *)
(** The operations of the pool as steps, and its queries. *)
From S2P Require Import Prelude BigMath Params Machine Vm PrecompileFacts StateTransition Transaction Heap TxList.
From S2P Require Import TxListFacts TxPriced PricedFacts TxPool PoolInv PoolAccounts PoolLimits PoolAdd PoolHead.

Section PoolOps.
Context {S M : Type} {PC : PoolChain S M} {PS : PoolChainSpec S M} `{CR : Crypto} `{CS : !CryptoSpec} `{RO : RangeOrder} `{SO : SortOrder}.
Implicit Types (pool : TxPool (S := S) (M := M)) (chain : poolChain (S := S)) (a : Address) (tx : Transaction) (m : gmap Address txList).

(** ** Queries *)

Lemma flattened_lookup signer strict m a l :
  lists_ok signer strict m -> flattened m !! a = Some l ->
  exists l0, m !! a = Some l0 /\ l = (tl_Flatten l0).2 /\ tl_ok (tx_good signer a) strict l /\ tl_items l = tl_items l0.
Proof.
  intros Hm. unfold flattened. rewrite lookup_fmap. destruct (m !! a) as [l0|] eqn:E; [|done]. intros [= <-]. exists l0.
  destruct (tl_Flatten_spec _ _ l0 (Hm a l0 E)) as (_ & Hok & Hit). done.
Qed.
Lemma flattened_look signer strict m s : lists_ok signer strict m -> look (flattened m) s = look m s.
Proof.
  intros Hm. unfold look, flattened. rewrite lookup_fmap. destruct (m !! s.1) as [l0|] eqn:E; [|done]. simpl.
  destruct (tl_Flatten_spec _ _ l0 (Hm _ l0 E)) as (_ & _ & ->). done.
Qed.
Lemma flattened_full signer strict m : lists_ok signer strict m -> full m -> full (flattened m).
Proof. intros Hm Hf a l Hl. destruct (flattened_lookup _ _ _ _ _ Hm Hl) as (l0 & E & _ & _ & ->). by eapply Hf. Qed.

Lemma flattened_inv P' Q' pool :
  pool_inv [] pool -> P' = tp_pending pool \/ P' = flattened (tp_pending pool) -> Q' = tp_queue pool \/ Q' = flattened (tp_queue pool) ->
  let pool' := tp_set_lists P' Q' (tp_beats pool) pool in
  pool_inv [] pool' /\ keeps_order pool pool' /\ forall b s, at_slot pool' b s = at_slot pool b s.
Proof.
  intros [Hi HfQ HfP] EP EQ pool'. pose proof (inv_pending _ _ _ _ _ Hi) as HP. pose proof (inv_queue _ _ _ _ _ Hi) as HQ.
  assert (LP : forall s, look P' s = look (tp_pending pool) s) by (intros s; destruct EP as [-> | ->]; [done|by eapply flattened_look]).
  assert (LQ : forall s, look Q' s = look (tp_queue pool) s) by (intros s; destruct EQ as [-> | ->]; [done|by eapply flattened_look]).
  assert (Hv : forall b s, at_slot pool' b s = at_slot pool b s) by (intros [] s; [apply LP|apply LQ]).
  split; [split|split; [|done]].
  - apply (inv_set _ _ _ _ pool); try done; try apply Hi. apply (inv_same _ _ _ _ _ _ _ Hi); [done|done| |].
    + destruct EP as [-> | ->]; [done|]. intros a l Hl. by destruct (flattened_lookup _ _ _ _ _ HP Hl) as (? & _ & _ & ? & _).
    + destruct EQ as [-> | ->]; [done|]. intros a l Hl. by destruct (flattened_lookup _ _ _ _ _ HQ Hl) as (? & _ & _ & ? & _).
  - simpl. destruct EQ as [-> | ->]; [done|by eapply flattened_full].
  - intros Hpos. simpl. destruct EP as [-> | ->]; [by apply HfP|]. eapply flattened_full; [done|by apply HfP].
  - split; [intros a; by apply in_order_same|]. intros a _ Hw n. rewrite Hv. apply Hw.
Qed.

(** ** Steps *)

Inductive poolOp :=
| opAddLocal (now : Z) (tx : Transaction)
| opAddRemote (now : Z) (tx : Transaction)
| opAddLocals (now : Z) (txs : list Transaction)
| opAddRemotes (now : Z) (txs : list Transaction)
| opSetGasPrice (price : Z)
| opEvict (now : Z)
| opPending
| opContent
| opHead (now : Z) (chainconfig : ChainConfig) (chain : poolChain (S := S)) (head block : poolBlock).

Definition run_op (op : poolOp) pool : outcome TxPool :=
  match op with
  | opAddLocal now tx => let* r := AddLocal now tx pool in Done r.2
  | opAddRemote now tx => let* r := AddRemote now tx pool in Done r.2
  | opAddLocals now txs => let* r := AddLocals now txs pool in Done r.2
  | opAddRemotes now txs => let* r := AddRemotes now txs pool in Done r.2
  | opSetGasPrice price => SetGasPrice price pool
  | opEvict now => evict now pool
  | opPending => Done (Pending pool).2
  | opContent => Done (Content pool).2
  | opHead now chainconfig chain head block => new_head now chainconfig chain head block pool
  end.

(** What is asked of the arguments: nonces are not the largest one, the
    number of transactions stays where 32-bit floating point is exact, and
    the heads are blocks of the chain. *)
Definition op_ok (op : poolOp) pool : Prop :=
  let n := Z.of_nat (size (tp_all pool)) in
  match op with
  | opAddLocal _ tx | opAddRemote _ tx => nonce_room tx /\ n < 2 ^ 24
  | opAddLocals _ txs | opAddRemotes _ txs => Forall nonce_room txs /\ n + len txs <= 2 ^ 24
  | opHead _ _ chain head block =>
      chain_ok chain /\ heads_found chain head block /\
      forall txs, reinjected chain (Some head) (Some block) = Done (Some txs) -> n + len txs <= 2 ^ 24
  | _ => True
  end.
(** Heads that do not put transactions back into the pool: the head follows
    the one before, or the chains part too far down. *)
Definition op_forward (op : poolOp) : Prop :=
  match op with
  | opHead _ _ chain head block => forall txs, reinjected chain (Some head) (Some block) = Done (Some txs) -> txs = []
  | _ => True
  end.

(** All accounts in order, and nothing in a queue that could be pending. *)
Definition settled pool : Prop := forall a, in_order pool a /\ waiting pool a.
Lemma settled_keeps pool pool' : keeps_order pool pool' -> settled pool -> settled pool'.
Proof. intros [H1 H2] Hs a. destruct (Hs a). auto. Qed.

Lemma add_step now txs (local : bool) pool :
  pool_inv [] pool -> Forall nonce_room txs -> Z.of_nat (size (tp_all pool)) + len txs <= 2 ^ 24 ->
  exists r, addTxsLocked now txs local pool = Done r /\ pool_inv [] r.2 /\ keeps_order pool r.2.
Proof.
  intros HI Hn Hs. destruct (addTxsLocked_spec now txs local pool HI Hs Hn) as (errs & pool' & E & HI' & _ & _ & Hk & _).
  by exists (errs, pool').
Qed.
Lemma add_one_step now tx (local : bool) pool :
  pool_inv [] pool -> nonce_room tx -> Z.of_nat (size (tp_all pool)) < 2 ^ 24 ->
  exists r, addTx now tx local pool = Done r /\ pool_inv [] r.2 /\ keeps_order pool r.2.
Proof.
  intros HI Hn Hs. destruct (addTx_spec now tx local pool HI Hs Hn) as (? & ? & err & pool' & _ & _ & E & HI' & _ & _ & Hk & _).
  by exists (err, pool').
Qed.

Lemma head_step now chainconfig chain head block pool :
  pool_inv [] pool -> op_ok (opHead now chainconfig chain head block) pool ->
  exists pool', new_head now chainconfig chain head block pool = Done pool' /\ pool_inv [] pool' /\
    (op_forward (opHead now chainconfig chain head block) -> settled pool -> settled pool').
Proof.
  intros HI (Hc & Hh & Hs). unfold new_head. set (pool0 := if IsHomestead chainconfig (pb_Number block) then tp_set_homestead true pool else pool).
  assert (HI0 : pool_inv [] pool0) by (unfold pool0; case_match; [by apply set_homestead_inv|done]).
  assert (Hset : settled pool -> settled pool0).
  { unfold pool0. case_match; [|done]. intros Hst a. destruct (Hst a) as [Ho Hw]. split; [|done]. by apply (in_order_same pool). }
  destruct (reset_spec now chain head block pool0 HI0 Hc Hh) as (pool' & E & Hr); [unfold pool0; by case_match|].
  exists pool'. split; [done|]. destruct Hr as [[-> _]|(s & txs & Es & Er & Hok)]; [by split|].
  split; [apply Hok|]. intros Hf Hst a. apply (ro_order _ _ _ _ _ Hok); [by apply Hf|]. intros l. apply in_order_unbroken. by apply Hset.
Qed.

Lemma step_spec op pool :
  pool_inv [] pool -> op_ok op pool ->
  exists pool', run_op op pool = Done pool' /\ pool_inv [] pool' /\ (op_forward op -> settled pool -> settled pool').
Proof.
  intros HI Hok. assert (Hend : forall (r : option poolError * TxPool), pool_inv [] r.2 -> keeps_order pool r.2 ->
    exists pool', (let* r := Done r in Done r.2) = Done pool' /\ pool_inv [] pool' /\ (op_forward op -> settled pool -> settled pool')).
  { intros r H1 H2. exists r.2. do 2 (split; [done|]). intros _. by apply settled_keeps. }
  destruct op; cbn [run_op].
  - destruct Hok. destruct (add_one_step now tx (negb (NoLocals (tp_config pool))) pool HI) as (r & E & HI' & Hk); [done..|].
    unfold AddLocal. rewrite E. by apply Hend.
  - destruct Hok. destruct (add_one_step now tx false pool HI) as (r & E & HI' & Hk); [done..|]. unfold AddRemote. rewrite E. by apply Hend.
  - destruct Hok. destruct (add_step now txs (negb (NoLocals (tp_config pool))) pool HI) as (r & E & HI' & Hk); [done..|].
    unfold AddLocals. rewrite E. exists r.2. do 2 (split; [done|]). intros _. by apply settled_keeps.
  - destruct Hok. destruct (add_step now txs false pool HI) as (r & E & HI' & Hk); [done..|].
    unfold AddRemotes. rewrite E. exists r.2. do 2 (split; [done|]). intros _. by apply settled_keeps.
  - destruct (SetGasPrice_spec price pool HI) as (pool' & E & HI' & _ & Hk & _). exists pool'. do 2 (split; [done|]). intros _. by apply settled_keeps.
  - destruct (evict_spec now [] pool HI) as (pool' & E & HI' & Hq & _). exists pool'. do 2 (split; [done|]). intros _. apply settled_keeps, Hq.
  - destruct (flattened_inv (flattened (tp_pending pool)) (tp_queue pool) pool HI) as (HI' & Hk & _); [auto..|].
    eexists. split; [done|]. split; [exact HI'|]. intros _. by apply settled_keeps.
  - destruct (flattened_inv (flattened (tp_pending pool)) (flattened (tp_queue pool)) pool HI) as (HI' & Hk & _); [auto..|].
    eexists. split; [done|]. split; [exact HI'|]. intros _. by apply settled_keeps.
  - by apply head_step.
Qed.

(** The pools that a node comes to: a new one, and those after operations. *)
Inductive reachable (forward : bool) : TxPool (S := S) (M := M) -> Prop :=
| reachable_new now config chainconfig chain pool :
    cfg_ok config -> chain_ok chain -> NewTxPool now config chainconfig chain = Done (Some pool) -> reachable forward pool
| reachable_step op pool pool' :
    reachable forward pool -> op_ok op pool -> (forward = true -> op_forward op) -> run_op op pool = Done pool' -> reachable forward pool'.

(** The pool after an operation. *)
Definition after (op : poolOp) pool : TxPool := match run_op op pool with Done pool' => pool' | _ => pool end.
Lemma reachable_after forward op pool :
  reachable forward pool -> op_ok op pool -> (forward = true -> op_forward op) -> pool_inv [] pool -> reachable forward (after op pool).
Proof.
  intros Hr Hok Hf HI. destruct (step_spec op pool HI Hok) as (pool' & E & _). unfold after. rewrite E. by eapply reachable_step.
Qed.

Lemma reachable_inv forward pool : reachable forward pool -> pool_inv [] pool /\ (forward = true -> settled pool).
Proof.
  induction 1 as [now config chainconfig chain pool Hcfg Hc E|op pool pool' Hr [HI Hs] Hok Hf E].
  - destruct (NewTxPool_spec now config chainconfig chain Hcfg Hc) as (r & E' & Hr). rewrite E in E'. injection E' as <-.
    destruct Hr as (HI & _ & _ & Hs). by split.
  - destruct (step_spec op pool HI Hok) as (pool1 & E1 & HI1 & Hs1). rewrite E in E1. injection E1 as <-. split; [done|]. auto.
Qed.
End PoolOps.
