(* ===== verification/PoolState.v ===== *)
(** The states of the chain as the pool uses them: [state.StateDB] and
    [state.ManagedState] keep what [PoolChainSpec] asks for. *)
From S2P Require Import Prelude BigMath StateSpec Supply StateRel Vm StateObject Statedb StateFinal StateUndo.
From S2P Require Import StateRefine StateRevert StateFinalFacts Managed TxPool PoolInv.

Section PoolState.
Context `{DS : DatabaseSpec}.

#[export] Instance statedb_pool : PoolChain Statedb ManagedState := {|
  pc_GetNonce := sd_GetNonce;
  pc_GetBalance := sd_GetBalance;
  pc_ManageState := ManageState;
  pm_GetNonce := ms_GetNonce;
  pm_SetNonce := ms_SetNonce
|}.

Definition nonces_u64 (s : Statedb) : Prop := forall a, is_u64 (w_nonce (w_of s) a).

Context {TS : TrieSpec} {RO : RangeOrder}.

Lemma managed_copy s :
  (sd_inv true s /\ nonces_u64 s) /\ resets_marked s ->
  (sd_inv true s /\ nonces_u64 s) /\
  exists m, ManageState s = Done m /\ ms_ok (tracked := true) m /\ forall a, ms_nonce m a = w_nonce (w_of s) a.
Proof.
  intros [[I Hn] R]. split; [done|]. unfold ManageState. destruct (Copy_spec s I R) as (s' & -> & I' & W & _). cbn [outcome_bind].
  assert (Hw : forall a, w_nonce (w_of s') a = w_nonce (w_of s) a) by (intros a; by rewrite W).
  eexists. split; [done|]. split.
  - split; [done|]. split; [by intros a m|]. intros a. simpl. rewrite Hw. apply Hn.
  - intros a. unfold ms_nonce. simpl. rewrite lookup_empty. apply Hw.
Qed.

#[export] Program Instance statedb_pool_spec : PoolChainSpec Statedb ManagedState := {|
  ps_ok s := sd_inv true s /\ nonces_u64 s;
  ps_fresh s := (sd_inv true s /\ nonces_u64 s) /\ resets_marked s;
  pm_ok := ms_ok (tracked := true);
  ps_nonce s := w_nonce (w_of s);
  ps_balance s := w_balance (w_of s);
  pm_nonce := ms_nonce;
  pc_ManageState_ok := managed_copy
|}.
Next Obligation.
  intros a s [I Hn]. destruct (GetNonce_refines a s I) as (I' & [W _] & E). split; [done|].
  assert (Hw : forall b, w_nonce (w_of (sd_GetNonce a s).2) b = w_nonce (w_of s) b) by (intros b; simpl; by rewrite W).
  split; [split; [done|intros b; rewrite Hw; apply Hn]|]. intros b. split; [done|]. simpl. by rewrite W.
Qed.
Next Obligation.
  intros a s [I Hn]. destruct (GetBalance_refines a s I) as (I' & [W _] & E). split; [done|].
  assert (Hw : forall b, w_nonce (w_of (sd_GetBalance a s).2) b = w_nonce (w_of s) b) by (intros b; simpl; by rewrite W).
  split; [split; [done|intros b; rewrite Hw; apply Hn]|]. intros b. split; [done|]. simpl. by rewrite W.
Qed.
Next Obligation. intros s a [_ Hn]. apply Hn. Qed.
Next Obligation. intros a m Hm. destruct (ms_GetNonce_spec a m Hm) as (H1 & H2 & H3). done. Qed.
Next Obligation. intros a n m Hm Hn. by apply ms_SetNonce_spec. Qed.
End PoolState.
