(* ===== verification/PoolSample.v ===== *)
(** A concrete chain for the pool: three blocks, two of which follow the
    first, and the states after them. *)
From Stdlib Require Import Sorted.
From S2P Require Import Prelude BigMath Params Machine StateSpec StateRel Vm PrecompileFacts StateObject Statedb.
From S2P Require Import StateFinal StateUndo StateRefine StateRevert StateFinalFacts Sample StateTheorems.
From S2P Require Import FinalTheorems StateTransition Managed ManagedTheorems Rlp Transaction TxFacts SignTheorems.
From S2P Require Import Heap TxList TxPriced TxPool PoolInv PoolHead PoolState.

#[export] Existing Instance toy_crypto.
#[export] Existing Instance toy_crypto_spec.
#[export] Existing Instance toy_ecdsa.

#[export] Instance toy_db_spec : DatabaseSpec.
Proof. split; intros; [by apply (f_equal (default _) (lookup_empty _))|by vm_compute|done]. Qed.

(** Insertion sort. *)
Fixpoint insert_sorted {A} (less : A -> A -> bool) (x : A) (l : list A) : list A :=
  match l with
  | [] => [x]
  | y :: l' => if less y x then y :: insert_sorted less x l' else x :: l
  end.
Definition insertion_sort {A} (less : A -> A -> bool) (l : list A) : list A := foldr (insert_sorted less) [] l.
Lemma insert_sorted_perm {A} (less : A -> A -> bool) x l : insert_sorted less x l ≡ₚ x :: l.
Proof. induction l as [|y l IH]; simpl; [done|]. destruct (less y x); [rewrite IH; apply Permutation_swap|done]. Qed.
Lemma insertion_sort_perm {A} (less : A -> A -> bool) l : insertion_sort less l ≡ₚ l.
Proof. induction l as [|x l IH]; simpl; [done|]. by rewrite insert_sorted_perm, IH. Qed.
Lemma insertion_sorted {A} (less : A -> A -> bool) l :
  WeakOrder less -> StronglySorted (fun x y => less y x = false) (insertion_sort less l).
Proof.
  intros [Hasym Htrans]. induction l as [|x l IH]; simpl; [constructor|]. fold (insertion_sort less l).
  set (s := insertion_sort less l) in *. clearbody s. clear l.
  induction IH as [|y s Hs IH Hy]; simpl; [by repeat constructor|]. destruct (less y x) eqn:E.
  - constructor; [done|]. rewrite insert_sorted_perm. constructor; [by apply Hasym|done].
  - constructor; [by constructor|]. constructor; [done|]. eapply Forall_impl; [exact Hy|]. intros z Hz. by apply (Htrans z y x).
Qed.
#[export] Instance sample_sort : SortOrder :=
  {| go_sort A := insertion_sort; go_sort_perm A := insertion_sort_perm; go_sort_sorted A := insertion_sorted |}.

(** ** Transactions and states *)

(** The account of a key has the number of the key. *)
Definition pool_config : TxPoolConfig :=
  {| NoLocals := false; Rejournal := Second; PriceLimit := 1; PriceBump := 10; AccountSlots := 4; GlobalSlots := 8; AccountQueue := 4;
     GlobalQueue := 8; Lifetime := 3 * 3600 * Second |}.
Definition pool_chainconfig : ChainConfig := MainnetChainConfig.
Definition pool_signer : Signer := NewEIP155Signer (ChainId pool_chainconfig).
Definition pool_tx (key nonce price : Z) : Transaction :=
  match SignTx (NewContractCreation nonce (Some 0) 60000 (Some price) []) pool_signer key with
  | Done (inr tx) => tx
  | _ => NewContractCreation nonce (Some 0) 60000 (Some price) []
  end.

Definition pool_state (nonce balance : Z) : Statedb :=
  match exec_ops [OpAddBalance 5%N balance; OpSetNonce 5%N nonce; OpAddBalance 6%N 1000000] sample_new with Done s => s | _ => sample_new end.
Lemma pool_state_fresh nonce balance :
  no_resets (pool_state nonce balance) = true -> small_nonces 100 (pool_state nonce balance) = true -> ps_fresh (pool_state nonce balance).
Proof.
  intros H1 H2. split; [split|by apply no_resets_marked].
  - unfold pool_state. edestruct (exec_ops_holds (SP := Statedb_spec_gen (tracked := true)) Keccak256Hash) as (s' & -> & I & _);
      [|apply sd_New_inv|exact I]. apply Forall_forall. intros op _. apply exec_op_holds.
  - intros a. pose proof (small_nonces_ok _ 100 _ ltac:(lia) H2 a). unfold is_u64. lia.
Qed.

(** ** Blocks *)

Definition block_a : poolBlock := mkPoolBlock 10%N 9%N 1 1%N 1000000 [].
Definition block_b : poolBlock := mkPoolBlock 11%N 10%N 2 2%N 1000000 [pool_tx 5 3 1; pool_tx 5 4 100].
Definition block_c : poolBlock := mkPoolBlock 12%N 10%N 2 1%N 1000000 [].
Definition pool_chain : poolChain (S := Statedb) :=
  {| bc_CurrentBlock := block_b;
     bc_GetBlock h n := find (fun b => bool_decide (pb_Hash b = h /\ pb_Number b = n)) [block_a; block_b; block_c];
     bc_StateAt root := if decide (root = 1%N) then Some (pool_state 3 100000) else if decide (root = 2%N) then Some (pool_state 5 10000000) else None |}.

Lemma pool_tx_block key nonce price : 
  td_ok (tx_data (pool_tx key nonce price)) -> len (tx_enc (tx_data (pool_tx key nonce price))) < 2 ^ 63 ->
  0 <= tx_Nonce (pool_tx key nonce price) < 2 ^ 64 - 1 -> block_tx (pool_tx key nonce price).
Proof.
  intros H1 H2 H3. split; [done|done| |done]. assert (E : tx_hash (pool_tx key nonce price) = None /\ tx_size (pool_tx key nonce price) = None /\ tx_from (pool_tx key nonce price) = None).
  { unfold pool_tx, SignTx. destruct (signer_Hash _ _); cbn [outcome_bind]; [|done..]. destruct (crypto_Sign _ _); [|done].
    unfold WithSignature. destruct (SignatureValues _ _) as [[[r s] v]| |]; done. }
  destruct E as (E1 & E2 & E3). unfold caches_ok. rewrite E1, E2, E3. done.
Qed.
Lemma pool_chain_ok : chain_ok pool_chain.
Proof.
  split.
  - intros h n b Hb. apply find_some in Hb as [Hin Hd]. apply bool_decide_eq_true in Hd as [Hh Hn]. split; [done|]. split; [done|].
    subst h n. destruct Hin as [<-|[<-|[<-|[]]]]; (split; [done|]); cbn [pb_Transactions block_a block_b block_c]; [constructor| |constructor].
    apply Forall_cons. split; [|apply Forall_cons; split; [|constructor]];
      (apply pool_tx_block; [split; [..|intros a E; by vm_compute in E| |]; vm_compute; by repeat split|by vm_compute|by vm_compute]).
  - intros root s. cbn [bc_StateAt pool_chain]. destruct (decide (root = 1%N)); [intros E|destruct (decide (root = 2%N)); [intros E|done]];
    apply (inj Some) in E as <-; apply pool_state_fresh; by vm_compute.
Qed.

(** The pool of the chain with block [block_b] as its head. *)
Definition sample_pool0 : TxPool (S := Statedb) (M := ManagedState) :=
  match NewTxPool 0 pool_config pool_chainconfig pool_chain with Done (Some pool) => pool | _ => empty_pool pool_config pool_chainconfig (pool_state 3 100000) {| ms_StateDB := sample_new; ms_accounts := ∅ |} 0 end.
Lemma sample_pool0_new : NewTxPool 0 pool_config pool_chainconfig pool_chain = Done (Some sample_pool0).
Proof.
  destruct (NewTxPool_spec 0 pool_config pool_chainconfig pool_chain) as (r & E & Hr); [vm_compute; by repeat split|apply pool_chain_ok|].
  destruct r as [pool|]; [unfold sample_pool0; by rewrite E|].
  assert (Es : bc_StateAt pool_chain (pb_Root (bc_CurrentBlock pool_chain)) = Some (pool_state 5 10000000)) by reflexivity. congruence.
Qed.
