(* ===== verification/TxByPrice.v ===== *)
(** Transactions in the order of their prices, for the miner: the type
    [TransactionsByPriceAndNonce] of core/types/transaction.go. *)
From S2P Require Import Prelude BigMath Machine Heap Vm Transaction TxPriced.

Section TxByPrice.
Context `{CR : Crypto} `{RO : RangeOrder}.

Definition TxByPrice_Less (x y : Transaction) : bool := td_Price (tx_data y) <? td_Price (tx_data x).

Record TransactionsByPriceAndNonce := mkByPrice {
  pn_txs : gmap Address (list Transaction);
  pn_heads : list Transaction;
  pn_signer : Signer
}.
Implicit Types t : TransactionsByPriceAndNonce.

(** The loop of the constructor takes the lists as they are when it comes to
    them.  Entries that it adds are not visited; it adds none if every list
    is filed under the sender of its first transaction. *)
Fixpoint take_heads (signer : Signer) (keys : list Address) (heads : list Transaction) (txs : gmap Address (list Transaction))
  : outcome (list Transaction * gmap Address (list Transaction)) :=
  match keys with
  | [] => Done (heads, txs)
  | from :: keys =>
      match txs !! from with
      | None => take_heads signer keys heads txs
      | Some accTxs =>
          let* tx := index accTxs 0 in
          let acc := from_of signer tx in
          let txs := <[acc := tail accTxs]> txs in
          let txs := if decide (from = acc) then txs else delete from txs in
          take_heads signer keys (heads ++ [tx]) txs
      end
  end.
Definition NewTransactionsByPriceAndNonce (signer : Signer) (txs : gmap Address (list Transaction)) : outcome TransactionsByPriceAndNonce :=
  let* r := take_heads signer (map fst (range txs)) [] txs in
  Done {| pn_txs := r.2; pn_heads := heap_Init TxByPrice_Less r.1; pn_signer := signer |}.

Definition pn_Peek t : option Transaction := head (pn_heads t).
Definition pn_Pop t : outcome TransactionsByPriceAndNonce :=
  let* r := heap_Pop TxByPrice_Less (pn_heads t) in
  Done {| pn_txs := pn_txs t; pn_heads := r.2; pn_signer := pn_signer t |}.
Definition pn_Shift t : outcome TransactionsByPriceAndNonce :=
  let* tx := index (pn_heads t) 0 in
  let acc := from_of (pn_signer t) tx in
  match pn_txs t !! acc with
  | Some (next :: txs) =>
      Done {| pn_txs := <[acc := txs]> (pn_txs t); pn_heads := heap_Fix TxByPrice_Less 0 (<[0%nat := next]> (pn_heads t));
              pn_signer := pn_signer t |}
  | _ => pn_Pop t
  end.

(** ** What it is for

    A consumer that takes one transaction after the other, with [Shift] after
    those that could be executed and [Pop] after the others. *)
Fixpoint drain (fuel : nat) (ok : Transaction -> bool) t : outcome (list Transaction) :=
  match pn_Peek t with
  | None => Done []
  | Some tx =>
      match fuel with
      | O => NoFuel
      | Datatypes.S fuel =>
          let* t := (if ok tx then pn_Shift t else pn_Pop t) in
          let* out := drain fuel ok t in Done (tx :: out)
      end
  end.

(** The order that is meant: at each step the best of the first transactions
    of all accounts; those after one that failed are left out. *)
Implicit Types R : gmap Address (list Transaction).
Definition rest_of (ok : Transaction -> bool) (a : Address) (x : Transaction) (rest : list Transaction) R : gmap Address (list Transaction) :=
  if ok x then match rest with [] => delete a R | _ => <[a := rest]> R end else delete a R.
Inductive best_first (ok : Transaction -> bool) : gmap Address (list Transaction) -> list Transaction -> Prop :=
| best_none : best_first ok ∅ []
| best_take R a x rest out :
    R !! a = Some (x :: rest) -> (forall b y l, R !! b = Some (y :: l) -> td_Price (tx_data y) <= td_Price (tx_data x)) ->
    best_first ok (rest_of ok a x rest R) out -> best_first ok R (x :: out).
(** A list up to the first transaction that fails. *)
Fixpoint upto (ok : Transaction -> bool) (l : list Transaction) : list Transaction :=
  match l with
  | [] => []
  | x :: l => if ok x then x :: upto ok l else [x]
  end.

(** ** Proofs *)

#[export] Instance TxByPrice_order : WeakOrder TxByPrice_Less.
Proof. split; unfold TxByPrice_Less; intros; lia. Qed.

Definition first_of (kv : Address * list Transaction) : list Transaction := take 1 kv.2.
Definition heads_of R : list Transaction := concat (map first_of (map_to_list R)).
Record pn_ok R t : Prop := {
  po_full : forall a l, R !! a = Some l -> l <> [];
  po_from : forall a l, R !! a = Some l -> Forall (fun tx => from_of (pn_signer t) tx = a) l;
  po_heap : heap_ok TxByPrice_Less (pn_heads t);
  po_heads : pn_heads t ≡ₚ heads_of R;
  po_txs : forall a x l, R !! a = Some (x :: l) -> pn_txs t !! a = Some l
}.

Lemma heads_insert R a l : R !! a = None -> heads_of (<[a := l]> R) ≡ₚ take 1 l ++ heads_of R.
Proof. intros H. unfold heads_of. by rewrite map_to_list_insert. Qed.
Lemma heads_split R a x l : R !! a = Some (x :: l) -> heads_of R ≡ₚ x :: heads_of (delete a R).
Proof. intros H. rewrite <-(insert_id R a (x :: l)) at 1 by done. rewrite <-insert_delete_eq, heads_insert by apply lookup_delete_eq. done. Qed.
Lemma elem_heads R x : x ∈ heads_of R <-> exists a l, R !! a = Some (x :: l).
Proof.
  unfold heads_of. rewrite list_elem_of_In, in_concat. setoid_rewrite <-list_elem_of_In. split.
  - intros (h & ([a l] & -> & Hin)%list_elem_of_fmap & Hx). apply elem_of_map_to_list in Hin. unfold first_of in Hx. simpl in Hx.
    destruct l as [|y l]; simpl in Hx; [by apply elem_of_nil in Hx|]. rewrite take_0 in Hx. apply list_elem_of_singleton in Hx as ->. eauto.
  - intros (a & l & H). exists [x]. split; [|by left]. apply list_elem_of_fmap. exists (a, x :: l). split; [done|]. by apply elem_of_map_to_list.
Qed.

(** The best head, and the account that it is of. *)
Lemma pn_best R t x : pn_ok R t -> pn_Peek t = Some x ->
  exists rest, R !! from_of (pn_signer t) x = Some (x :: rest) /\
    (forall b y l, R !! b = Some (y :: l) -> td_Price (tx_data y) <= td_Price (tx_data x)).
Proof.
  intros [H1 H2 H3 H4 H5] Hx. assert (Hin : x ∈ heads_of R).
  { rewrite <-H4. unfold pn_Peek in Hx. destruct (pn_heads t); [done|]. injection Hx as ->. by left. }
  apply elem_heads in Hin as (a & rest & Ha). exists rest. pose proof (H2 a _ Ha) as [Hfrom _]%Forall_cons. rewrite Hfrom. split; [done|].
  intros b y l Hb. pose proof (heap_least TxByPrice_Less _ x H3 Hx y) as Hl. unfold TxByPrice_Less in Hl.
  assert (Hy : y ∈ pn_heads t) by (rewrite H4; apply elem_heads; eauto). specialize (Hl Hy). lia.
Qed.

Lemma pn_ok_Pop R t x rest :
  pn_ok R t -> pn_Peek t = Some x -> R !! from_of (pn_signer t) x = Some (x :: rest) ->
  exists t', pn_Pop t = Done t' /\ pn_ok (delete (from_of (pn_signer t) x) R) t' /\ pn_signer t' = pn_signer t.
Proof.
  intros [H1 H2 H3 H4 H5] Hx Hr. unfold pn_Pop, pn_Peek in *. destruct (pn_heads t) as [|x' hs] eqn:Eh; [done|]. injection Hx as ->.
  destruct (heap_Pop_spec TxByPrice_Less x hs H3) as (hs' & -> & Hh & Hp & _). cbn [outcome_bind]. eexists. split; [done|]. split; [|done].
  split; cbn [pn_heads pn_txs pn_signer].
  - intros a l [_ Hl]%lookup_delete_Some. by eapply H1.
  - intros a l [_ Hl]%lookup_delete_Some. by apply H2.
  - done.
  - apply (Permutation_cons_inv (a := x)). rewrite Hp, H4. by apply heads_split in Hr.
  - intros a y l [_ Hl]%lookup_delete_Some. by eapply H5.
Qed.

Lemma pn_ok_Shift R t x rest :
  pn_ok R t -> pn_Peek t = Some x -> R !! from_of (pn_signer t) x = Some (x :: rest) ->
  exists t', pn_Shift t = Done t' /\ pn_signer t' = pn_signer t /\
    pn_ok (match rest with [] => delete (from_of (pn_signer t) x) R | _ => <[from_of (pn_signer t) x := rest]> R end) t'.
Proof.
  intros Hok Hx Hr. pose proof Hok as [H1 H2 H3 H4 H5]. pose proof (H5 _ _ _ Hr) as Ht. unfold pn_Shift. set (a := from_of (pn_signer t) x) in *.
  assert (E : index (pn_heads t) 0 = Done x) by (unfold pn_Peek in Hx; destruct (pn_heads t); [done|by injection Hx as ->]). rewrite E. cbn [outcome_bind].
  fold a. rewrite Ht. destruct rest as [|y rest].
  { destruct (pn_ok_Pop R t x [] Hok Hx Hr) as (t' & E' & Hok' & Es). by exists t'. }
  eexists. split; [done|]. split; [done|]. unfold pn_Peek in Hx. destruct (pn_heads t) as [|x' hs] eqn:Eh; [done|]. injection Hx as ->.
  destruct (heap_Fix_spec TxByPrice_Less 0 y (x :: hs)) as [Hh Hp]; [simpl; lia|done|].
  split; cbn [pn_heads pn_txs pn_signer].
  - intros b l [[<- <-]|[_ Hl]]%lookup_insert_Some; [done|by eapply H1].
  - intros b l [[<- <-]|[_ Hl]]%lookup_insert_Some; [|by apply H2]. by apply H2, Forall_cons in Hr as [_ ?].
  - done.
  - rewrite Hp. simpl. rewrite (heads_split (<[a := y :: rest]> R) a y rest) by apply lookup_insert_eq.
    rewrite delete_insert_eq. constructor. apply (Permutation_cons_inv (a := x)). rewrite H4. by apply heads_split in Hr.
  - intros b z l [[<- [= <- <-]]|[Hne Hl]]%lookup_insert_Some; [apply lookup_insert_eq|]. rewrite lookup_insert_ne by done. by eapply H5.
Qed.

(** The number of transactions left. *)
Definition total_txs R : nat := length (concat (map snd (map_to_list R))).
Lemma total_split R a l : R !! a = Some l -> total_txs R = (length l + total_txs (delete a R))%nat.
Proof.
  intros H. rewrite <-(insert_id R a l) at 1 by done. rewrite <-insert_delete_eq. unfold total_txs.
  rewrite map_to_list_insert by apply lookup_delete_eq. simpl. by rewrite length_app.
Qed.
Lemma total_insert R a l l' : R !! a = Some l -> (total_txs (<[a := l']> R) + length l = length l' + total_txs R)%nat.
Proof.
  intros H. rewrite (total_split _ a l') by apply lookup_insert_eq. rewrite delete_insert_eq, (total_split R a l H). lia.
Qed.

Lemma drain_spec ok fuel : forall R t,
  pn_ok R t -> (total_txs R <= fuel)%nat -> exists out, drain fuel ok t = Done out /\ best_first ok R out.
Proof.
  induction fuel as [|fuel IH]; intros R t Hok Hf; cbn [drain]; destruct (pn_Peek t) as [x|] eqn:Ex.
  - destruct (pn_best R t x Hok Ex) as (rest & Hr & _). pose proof (total_split _ _ _ Hr). simpl in *. lia.
  - exists []. split; [done|]. assert (R = ∅) as ->; [|constructor]. apply map_empty. intros a. destruct (R !! a) as [[|y l]|] eqn:Ea; [|exfalso|done].
    + by apply (po_full _ _ Hok) in Ea.
    + assert (Hy : y ∈ pn_heads t) by (rewrite (po_heads _ _ Hok); apply elem_heads; eauto). unfold pn_Peek in Ex.
      destruct (pn_heads t); [by apply elem_of_nil in Hy|done].
  - destruct (pn_best R t x Hok Ex) as (rest & Hr & Hbest). set (a := from_of (pn_signer t) x) in *.
    assert (Hstep : exists t', (if ok x then pn_Shift t else pn_Pop t) = Done t' /\ pn_ok (rest_of ok a x rest R) t').
    { unfold rest_of. destruct (ok x).
      - destruct (pn_ok_Shift R t x rest Hok Ex Hr) as (t' & E & _ & Hok'). by exists t'.
      - destruct (pn_ok_Pop R t x rest Hok Ex Hr) as (t' & E & Hok' & _). by exists t'. }
    destruct Hstep as (t' & -> & Hok'). cbn [outcome_bind]. destruct (IH _ _ Hok') as (out & -> & Hout).
    { pose proof (total_split R a _ Hr) as Hs. simpl in Hs. unfold rest_of. destruct (ok x); [|lia]. destruct rest as [|y rest]; [lia|].
      pose proof (total_insert R a (x :: y :: rest) (y :: rest) Hr) as Hi. simpl in Hi. lia. }
    cbn [outcome_bind]. exists (x :: out). split; [done|]. by apply (best_take ok R a x rest).
  - exists []. split; [done|]. assert (R = ∅) as ->; [|constructor]. apply map_empty. intros a. destruct (R !! a) as [[|y l]|] eqn:Ea; [|exfalso|done].
    + by apply (po_full _ _ Hok) in Ea.
    + assert (Hy : y ∈ pn_heads t) by (rewrite (po_heads _ _ Hok); apply elem_heads; eauto). unfold pn_Peek in Ex.
      destruct (pn_heads t); [by apply elem_of_nil in Hy|done].
Qed.

(** What the order means for one account. *)
Lemma best_first_account ok (from : Transaction -> Address) R out :
  best_first ok R out -> (forall a l, R !! a = Some l -> Forall (fun tx => from tx = a) l) ->
  forall a, filter (fun tx => from tx = a) out = upto ok (default [] (R !! a)).
Proof.
  induction 1 as [|R a x rest out Ha Hbest Hout IH]; intros Hfrom b; [by rewrite lookup_empty|].
  pose proof (Hfrom a _ Ha) as [Hx Hrest]%Forall_cons.
  assert (Hfrom' : forall c l, rest_of ok a x rest R !! c = Some l -> Forall (fun tx => from tx = c) l).
  { intros c l. unfold rest_of. destruct (ok x), rest; rewrite ?lookup_delete_Some, ?lookup_insert_Some; try naive_solver. }
  specialize (IH Hfrom' b). rewrite filter_cons, IH. unfold rest_of. destruct (decide (a = b)) as [<-|Hne].
  - rewrite decide_True by done. rewrite Ha. simpl. destruct (ok x); [|by rewrite lookup_delete_eq].
    destruct rest; [by rewrite lookup_delete_eq|by rewrite lookup_insert_eq].
  - rewrite decide_False by congruence. destruct (ok x); [|by rewrite lookup_delete_ne]. destruct rest; [by rewrite lookup_delete_ne|by rewrite lookup_insert_ne].
Qed.

(** ** The constructor *)

(** Lists that are not empty, under the senders of their transactions. *)
Definition by_sender (signer : Signer) R : Prop :=
  forall a l, R !! a = Some l -> l <> [] /\ Forall (fun tx => from_of signer tx = a) l.

Lemma take_heads_spec signer R keys : forall heads txs,
  by_sender signer R -> NoDup keys -> (forall a, a ∈ keys -> txs !! a = R !! a) ->
  exists txs', take_heads signer keys heads txs = Done (heads ++ concat (map (fun a => take 1 (default [] (R !! a))) keys), txs') /\
    forall a, txs' !! a = if decide (a ∈ keys) then tail <$> R !! a else txs !! a.
Proof.
  induction keys as [|c keys IH]; intros heads txs Hby Hnd Hsame; cbn [take_heads].
  { exists txs. split; [by rewrite app_nil_r|done]. }
  apply NoDup_cons in Hnd as [Hc Hnd]. rewrite (Hsame c (list_elem_of_here _ _)). simpl. destruct (R !! c) as [[|x l]|] eqn:Ec.
  - by destruct (Hby c [] Ec).
  - destruct (Hby c _ Ec) as [_ [Hx _]%Forall_cons]. cbn [index outcome_bind]. change (index (x :: l) 0) with (Done x). cbn [outcome_bind tail].
    rewrite Hx, decide_True by done. destruct (IH (heads ++ [x]) (<[c := l]> txs) Hby Hnd) as (txs' & E & Ht).
    { intros a Ha. rewrite lookup_insert_ne by congruence. apply Hsame. by right. }
    exists txs'. rewrite E. split; [by rewrite <-app_assoc|]. intros a. rewrite Ht. destruct (decide (a = c)) as [->|Hne].
    + rewrite decide_False, decide_True by (done || by left). by rewrite lookup_insert_eq, Ec.
    + rewrite lookup_insert_ne by done. repeat case_decide; set_solver.
  - destruct (IH heads txs Hby Hnd) as (txs' & E & Ht); [intros a Ha; apply Hsame; by right|]. exists txs'. split; [done|].
    intros a. rewrite Ht. destruct (decide (a = c)) as [->|Hne].
    + rewrite decide_False, decide_True by (done || by left). rewrite Ec. simpl. rewrite <-Ec. apply Hsame. by left.
    + repeat case_decide; set_solver.
Qed.

Lemma New_ok signer R :
  by_sender signer R -> exists t, NewTransactionsByPriceAndNonce signer R = Done t /\ pn_ok R t /\ pn_signer t = signer.
Proof.
  intros Hby. unfold NewTransactionsByPriceAndNonce.
  destruct (take_heads_spec signer R (map fst (range R)) [] R Hby) as (txs & -> & Ht); [apply NoDup_range_keys|done|]. cbn [outcome_bind fst snd app].
  set (hs := concat _). destruct (heap_Init_spec TxByPrice_Less hs) as [Hh Hp]. eexists. split; [done|]. split; [|done].
  split; cbn [pn_heads pn_txs pn_signer].
  - intros a l Hl. by apply Hby in Hl as [? _].
  - intros a l Hl. by apply Hby in Hl as [_ ?].
  - done.
  - rewrite Hp. unfold hs, heads_of. rewrite <-range_perm. rewrite map_map. apply reflexive_eq. f_equal. apply map_ext_in.
    intros [a l] Hin%list_elem_of_In. apply elem_of_range in Hin. simpl. by rewrite Hin.
  - intros a x l Hl. rewrite Ht, decide_True, Hl; [done|]. apply elem_of_range_keys. by rewrite Hl.
Qed.
End TxByPrice.
