(* ===== verification/PoolTheorems.v ===== *)
(** The theorems on the transaction pool. *)
From Stdlib Require Import Sorted.
From S2P Require Import Prelude BigMath Params Machine Vm PrecompileFacts StateObject Statedb Sample StateTransition.
From S2P Require Import Managed Transaction TxFacts SignTheorems Heap TxList TxListFacts TxPriced PricedFacts TxPool PoolInv.
From S2P Require Import PoolAccounts PoolLimits PoolAdd PoolHead PoolOps PoolState PoolSample TxByPrice.

Section PoolTheorems.
Context {S M : Type} {PC : PoolChain S M} {PS : PoolChainSpec S M} `{CR : Crypto} `{CS : !CryptoSpec} `{RO : RangeOrder} `{SO : SortOrder}.
Implicit Types (pool : TxPool (S := S) (M := M)) (chain : poolChain (S := S)) (a : Address) (tx : Transaction).

(** ** Consistency *)





(** ** Order *)

(** C15: as long as heads put no transactions back, the pending transactions
    of every account have the nonces from that of the account up to the one
    that the pool hands out next, without a gap, the account can pay each of
    them, and no queued transaction has a nonce that could be pending. *)
Theorem pool_in_order pool a :
  reachable true pool ->
  nonce_at pool a <= next_nonce pool a /\
  (forall n, is_Some (at_slot pool true (a, n)) <-> nonce_at pool a <= n < next_nonce pool a) /\
  (forall n tx, at_slot pool true (a, n) = Some tx -> tx_Cost tx <= balance_at pool a /\ tx_Gas tx <= tp_currentMaxGas pool) /\
  (forall n, is_Some (at_slot pool false (a, n)) -> next_nonce pool a < n).
Proof.
  intros Hr. destruct (reachable_inv true pool Hr) as [_ Hs]. destruct (Hs eq_refl a) as [[H1 H2 H3] Hw].
  split; [done|]. split; [done|]. split; [|done]. intros n tx Hx. by apply (H3 n).
Qed.




(** ** Adding *)

(** C19: [add] accepts a transaction that the pool does not know only if its
    sender can be recovered, its nonce is not used up, the account can pay
    it, it has gas for its data within that of a block, and a remote one
    offers the least price.  The pool then knows it; what had to go is the
    transaction with the same sender and nonce, whose price is exceeded by
    the bump, and in a full pool remote ones, of which none that stays is
    cheaper.  A refused transaction leaves nothing behind. *)
Theorem add_outcome pool tx (local : bool) :
  reachable false pool -> op_ok (opAddRemote (S := S) 0 tx) pool ->
  exists r pool', add tx local pool = Done (r, pool') /\ makes_way tx pool pool' /\
    match r with
    | inl _ => forall h x, Get h pool' = Some x -> Get h pool = Some x
    | inr _ => Get (hash_of tx) pool' = Some tx /\ exists a, acceptable pool local tx a
    end.
Proof.
  intros Hr [Hn Hs]. destruct (reachable_inv false pool Hr) as [HI _].
  destruct (add_spec tx local pool HI) as (r & pool' & E & Hok); [lia|done|]. exists r, pool'. split; [done|].
  split; [apply Hok|]. pose proof (ao_accepted _ _ _ _ _ Hok) as Ha. destruct r; exact Ha.
Qed.

(** C23: after [promoteExecutables] the pending transactions are within the
    limit of the pool or no remote account has more of them than its share;
    the queued ones are within their limit or all local; and no remote
    account that was looked at has more queued ones than allowed. *)
Theorem promoteExecutables_limits pool now (accounts : option (list Address)) :
  reachable false pool -> Z.of_nat (size (tp_all pool)) <= 2 ^ 24 ->
  exists pool', promoteExecutables now accounts pool = Done pool' /\
    ((stats pool').1 <= GlobalSlots (tp_config pool') \/
     forall a l, tp_pending pool' !! a = Some l -> as_contains a (tp_locals pool') = false -> tl_Len l <= AccountSlots (tp_config pool')) /\
    ((stats pool').2 <= GlobalQueue (tp_config pool') \/
     forall a, is_Some (tp_queue pool' !! a) -> as_contains a (tp_locals pool') = true) /\
    (forall a l, a ∈ default (map fst (range (tp_queue pool))) accounts -> tp_queue pool' !! a = Some l ->
       as_contains a (tp_locals pool') = false -> tl_Len l <= AccountQueue (tp_config pool')).
Proof.
  intros Hr Hs. destruct (reachable_inv false pool Hr) as [HI _].
  destruct (promoteExecutables_spec now accounts [] pool HI Hs) as (pool' & E & _ & _ & H1 & H2 & H3 & _).
  exists pool'. split; [done|]. split; [exact H1|]. split; [exact H2|]. intros a l Ha. by apply H3.
Qed.

(** The eviction empties exactly the queues of the remote accounts whose
    heartbeat is older than the lifetime, and touches no pending
    transaction. *)
Theorem evict_exact pool now :
  reachable false pool ->
  exists pool', evict now pool = Done pool' /\ tp_pending pool' = tp_pending pool /\
    forall a, tp_queue pool' !! a =
      if negb (as_contains a (tp_locals pool)) && (Lifetime (tp_config pool) <? time_Since now (default 0 (tp_beats pool !! a)))
      then None else tp_queue pool !! a.
Proof.
  intros Hr. destruct (reachable_inv false pool Hr) as [HI _]. destruct (evict_spec now [] pool HI) as (pool' & E & _ & Hq & Ha).
  exists pool'. split; [done|]. split; [apply Hq|exact Ha].
Qed.

(** A new price limit takes out exactly the remote transactions below
    it. *)
Theorem SetGasPrice_exact pool price :
  reachable false pool ->
  exists pool', SetGasPrice price pool = Done pool' /\
    (forall h tx, Get h pool' = Some tx -> Get h pool = Some tx /\ (price <= tx_GasPrice tx \/ as_containsTx tx (tp_locals pool) = true)) /\
    (forall h, is_Some (Get h pool) -> Get h pool' = None ->
       exists x, hash_of x = h /\ as_containsTx x (tp_locals pool) = false /\ tx_GasPrice x < price).
Proof.
  intros Hr. destruct (reachable_inv false pool Hr) as [HI _]. destruct (SetGasPrice_spec price pool HI) as (pool' & E & _ & _ & _ & H1 & H2).
  by exists pool'.
Qed.


(** ** The pool and the miner *)


End PoolTheorems.

(** ** The sample pool *)

Lemma sample_pool0_reachable forward : reachable forward sample_pool0.
Proof. eapply reachable_new; [|apply pool_chain_ok|apply sample_pool0_new]. vm_compute. by repeat split. Qed.

(** Three transactions of account 5 that are pending, and one that waits. *)
Definition sample_op1 : poolOp (S := Statedb) := opAddRemotes 1 [pool_tx 5 5 1; pool_tx 5 6 1; pool_tx 5 7 1; pool_tx 5 9 2].
Definition sample_pool1 := after sample_op1 sample_pool0.
Lemma sample_op1_ok : op_ok sample_op1 sample_pool0.
Proof. split; [|by vm_compute]. repeat (apply Forall_cons; split; [by vm_compute|]). constructor. Qed.
Lemma sample_pool1_reachable forward : reachable forward sample_pool1.
Proof.
  apply reachable_after; [apply sample_pool0_reachable|apply sample_op1_ok|done|].
  apply (reachable_inv forward), sample_pool0_reachable.
Qed.

Lemma pool_in_order_witness : nonce_at sample_pool1 5%N <= next_nonce sample_pool1 5%N.
Proof. exact (proj1 (pool_in_order sample_pool1 5%N (sample_pool1_reachable true))). Defined.


Lemma sample_room : op_ok (opAddRemote (S := Statedb) 0 (pool_tx 6 0 5)) sample_pool1.
Proof. split; by vm_compute. Qed.
Lemma add_outcome_witness :
  exists r pool', add (pool_tx 6 0 5) false sample_pool1 = Done (r, pool') /\ makes_way (pool_tx 6 0 5) sample_pool1 pool' /\
    match r with
    | inl _ => forall h x, Get h pool' = Some x -> Get h sample_pool1 = Some x
    | inr _ => Get (hash_of (pool_tx 6 0 5)) pool' = Some (pool_tx 6 0 5) /\ exists a, acceptable sample_pool1 false (pool_tx 6 0 5) a
    end.
Proof. exact (add_outcome sample_pool1 (pool_tx 6 0 5) false (sample_pool1_reachable false) sample_room). Defined.

Lemma sample_size : Z.of_nat (size (tp_all sample_pool1)) <= 2 ^ 24.
Proof. by vm_compute. Qed.
Lemma promoteExecutables_limits_witness : exists pool', promoteExecutables 7 None sample_pool1 = Done pool'.
Proof.
  destruct (promoteExecutables_limits sample_pool1 7 None (sample_pool1_reachable false) sample_size) as (pool' & E & _).
  exact (ex_intro _ pool' E).
Defined.
Lemma evict_exact_witness : exists pool', evict (2 ^ 62) sample_pool1 = Done pool' /\ tp_pending pool' = tp_pending sample_pool1.
Proof. destruct (evict_exact sample_pool1 (2 ^ 62) (sample_pool1_reachable false)) as (pool' & E & Hp & _). exact (ex_intro _ pool' (conj E Hp)). Defined.
Lemma SetGasPrice_exact_witness : exists pool', SetGasPrice 2 sample_pool1 = Done pool'.
Proof. destruct (SetGasPrice_exact sample_pool1 2 (sample_pool1_reachable false)) as (pool' & E & _). exact (ex_intro _ pool' E). Defined.


(** ** Where the order fails *)

(** The head moves from [block_b] to [block_c]: the first transaction of
    [block_b] comes back to the pool, the second is too expensive now. *)
Definition sample_op2 : poolOp (S := Statedb) := opHead 2 pool_chainconfig pool_chain block_b block_c.
Lemma sample_op2_ok : op_ok sample_op2 sample_pool1.
Proof.
  split; [apply pool_chain_ok|]. split; [split; by eexists|]. intros txs E.
  assert (Hl : match reinjected pool_chain (Some block_b) (Some block_c) with Done (Some l) => len l | _ => 0 end = 2) by (by vm_compute).
  rewrite E in Hl. rewrite Hl. by vm_compute.
Qed.
(** After a reorganisation the pending transactions of an account can have a
    gap: here they have the nonces 3, 5, 6 and 7. *)
Lemma reorg_leaves_gap :
  exists pool, reachable (S := Statedb) (M := ManagedState) false pool /\
    map tx_Nonce <$> ((Pending pool).1 !! 5%N) = Some [3; 5; 6; 7].
Proof.
  exists (after sample_op2 sample_pool1). split; [|vm_compute; reflexivity].
  refine (reachable_after false sample_op2 sample_pool1 (sample_pool1_reachable false) sample_op2_ok _ _); [intros Hf; discriminate Hf|].
  exact (proj1 (reachable_inv false _ (sample_pool1_reachable false))).
Qed.

(** A queued transaction of an account without pending ones is evicted at
    once: no heartbeat was recorded for the account.  Here it was added a
    second before, and the lifetime is three hours. *)
Lemma new_queued_evicted :
  let tx := pool_tx 6 2 3 in
  let pool1 := after (opAddRemote (2 ^ 60 - Second) tx) sample_pool1 in
  let pool2 := after (opEvict (2 ^ 60)) pool1 in
  Lifetime (tp_config pool1) = 3 * 3600 * Second /\ Get (hash_of tx) pool1 = Some tx /\ Get (hash_of tx) pool2 = None.
Proof. split; [|split]; vm_compute; reflexivity. Qed.

(** With no slots for an account, its pending list can be left empty, which
    is more than the miner's constructor can take. *)
Definition no_slots : TxPoolConfig :=
  {| NoLocals := false; Rejournal := Second; PriceLimit := 1; PriceBump := 10; AccountSlots := 0; GlobalSlots := 0; AccountQueue := 4;
     GlobalQueue := 8; Lifetime := 3 * 3600 * Second |}.
Lemma no_slots_panics :
  match NewTxPool 0 no_slots pool_chainconfig pool_chain with
  | Done (Some pool) =>
      let pool := after (opAddRemote 1 (pool_tx 5 5 1)) pool in
      NewTransactionsByPriceAndNonce (tp_signer pool) (Pending pool).1 = GoPanic
  | _ => False
  end.
Proof. vm_compute. reflexivity. Qed.

(** A transaction that was removed and added again is twice in the heap of
    prices; two places are asked for, one transaction is named twice. *)
Lemma Discard_names_twice :
  let txs := [pool_tx 5 5 7; pool_tx 5 6 7; pool_tx 5 7 7; pool_tx 5 8 7] in
  let tx := pool_tx 6 0 1 in
  let others := foldr lk_Add ∅ txs in
  let all := lk_Add tx others in
  let priced := foldr pl_Put newTxPricedList (tx :: txs) in
  let priced := pl_Put tx (pl_Removed others priced) in
  match pl_Discard all 2 (newAccountSet pool_signer) priced with Done (drop, _) => drop = [tx; tx] | _ => False end.
Proof. vm_compute. reflexivity. Qed.
