(* ===== verification/BlockTypes.v ===== *)
(** Blocks, receipts, logs and their Bloom filters: core/types/block.go,
    receipt.go, log.go, bloom9.go and derive_sha.go.

    A [*big.Int] of a header is never nil.  Headers are values, so that
    [CopyHeader] is the identity; [atomic.Value] caches are options. *)
From S2P Require Import Prelude BigMath StateSpec Vm Rlp RlpDecode RlpWriter Transaction.

(** ** Data *)

(** An array of 256 bytes. *)
Definition Bloom : Type := bytes.
Definition BloomByteLength : Z := 256.

Record Header := mkHeader {
  h_ParentHash : Hash;
  h_UncleHash : Hash;
  h_Coinbase : Address;
  h_Root : Hash;
  h_TxHash : Hash;
  h_ReceiptHash : Hash;
  h_Bloom : Bloom;
  h_Difficulty : Z;
  h_Number : Z;
  h_GasLimit : Z;
  h_GasUsed : Z;
  h_Time : Z;
  h_Extra : bytes;
  h_MixDigest : Hash;
  h_Nonce : bytes
}.

(** Without the fields for the relay between peers. *)
Record Block := mkBlock {
  b_header : Header;
  b_uncles : list Header;
  b_transactions : list Transaction;
  b_hash : option Hash;
  b_size : option Z
}.

Record Receipt := mkReceipt {
  r_PostState : bytes;
  r_Status : Z;
  r_CumulativeGasUsed : Z;
  r_Bloom : Bloom;
  r_Logs : list Log;
  r_TxHash : Hash;
  r_ContractAddress : Address;
  r_GasUsed : Z
}.

Definition h_set_roots (uncles txs receipts : Hash) (bloom : Bloom) (h : Header) : Header :=
  {| h_ParentHash := h_ParentHash h; h_UncleHash := uncles; h_Coinbase := h_Coinbase h; h_Root := h_Root h;
     h_TxHash := txs; h_ReceiptHash := receipts; h_Bloom := bloom; h_Difficulty := h_Difficulty h;
     h_Number := h_Number h; h_GasLimit := h_GasLimit h; h_GasUsed := h_GasUsed h; h_Time := h_Time h;
     h_Extra := h_Extra h; h_MixDigest := h_MixDigest h; h_Nonce := h_Nonce h |}.
Definition r_set_status (post : bytes) (status : Z) (r : Receipt) : Receipt :=
  {| r_PostState := post; r_Status := status; r_CumulativeGasUsed := r_CumulativeGasUsed r; r_Bloom := r_Bloom r;
     r_Logs := r_Logs r; r_TxHash := r_TxHash r; r_ContractAddress := r_ContractAddress r; r_GasUsed := r_GasUsed r |}.

(** ** Nonces of blocks *)

Definition EncodeNonce (i : Z) : bytes := be_fixed 8 i.
Definition BlockNonce_Uint64 (n : bytes) : Z := big_SetBytes n.

(** ** bloom9.go *)

Definition Bloom_new : Bloom := zeros BloomByteLength.
Definition Bloom_SetBytes (d : bytes) (b : Bloom) : outcome Bloom :=
  if len b <? len d then GoPanic else Done (copy_at b (BloomByteLength - len d) d).
Definition BytesToBloom (b : bytes) : outcome Bloom := Bloom_SetBytes b Bloom_new.
Definition Bloom_Big (b : Bloom) : Z := big_SetBytes b.

Section Bloom.
Context `{CR : Crypto}.

(** One iteration of the loop of [bloom9]. *)
Definition bloom_bit (b : bytes) (r i : Z) : outcome Z :=
  let* lo := index b (i + 1) in
  let* hi := index b i in
  Done (Z.lor r (Z.shiftl 1 (Z.land (b2z lo + Z.shiftl (b2z hi) 8) 2047))).
Definition bloom9 (b : bytes) : outcome Z :=
  let b := Keccak256 b in
  let* r := bloom_bit b 0 0 in
  let* r := bloom_bit b r 2 in
  bloom_bit b r 4.

Fixpoint bloom_topics (topics : list Hash) (bin : Z) : outcome Z :=
  match topics with
  | [] => Done bin
  | b :: topics => let* x := bloom9 (Hash_Bytes b) in bloom_topics topics (Z.lor bin x)
  end.
Fixpoint bloom_logs (logs : list Log) (bin : Z) : outcome Z :=
  match logs with
  | [] => Done bin
  | log :: logs =>
      let* x := bloom9 (Address_Bytes (log_Address log)) in
      let* bin := bloom_topics (log_Topics log) (Z.lor bin x) in
      bloom_logs logs bin
  end.
Definition LogsBloom (logs : list Log) : outcome Z := bloom_logs logs 0.

Fixpoint bloom_receipts (receipts : list Receipt) (bin : Z) : outcome Z :=
  match receipts with
  | [] => Done bin
  | receipt :: receipts => let* x := LogsBloom (r_Logs receipt) in bloom_receipts receipts (Z.lor bin x)
  end.
Definition CreateBloom (receipts : list Receipt) : outcome Bloom :=
  let* bin := bloom_receipts receipts 0 in BytesToBloom (big_Bytes bin).

(** [topic] is what the [Bytes] method of the argument gives. *)
Definition BloomLookup (bin : Bloom) (topic : bytes) : outcome bool :=
  let* cmp := bloom9 topic in Done (Z.land (Bloom_Big bin) cmp =? cmp).
Definition Bloom_Test (b : Bloom) (test : Z) : outcome bool := BloomLookup b (big_Bytes test).
Definition Bloom_TestBytes (b : Bloom) (test : bytes) : outcome bool := Bloom_Test b (big_SetBytes test).
Definition Bloom_Add (d : Z) (b : Bloom) : outcome Bloom :=
  let* x := bloom9 (big_Bytes d) in Bloom_SetBytes (big_Bytes (Z.lor (Bloom_Big b) x)) b.
End Bloom.

(** ** log.go *)

(** The structs [rlpLog] and [rlpStorageLog]. *)
Definition log_t : rtype := StructT [ArrayT 20; SliceT (ArrayT 32); BytesT].
Definition hash_val (h : Hash) : rval := VBytes (Hash_Bytes h).
Definition log_val (l : Log) : rval :=
  VList [VBytes (Address_Bytes (log_Address l)); VList (map hash_val (log_Topics l)); VBytes (log_Data l)].
Definition storagelog_t : rtype :=
  StructT [ArrayT 20; SliceT (ArrayT 32); BytesT; UintT 64; ArrayT 32; UintT 64; ArrayT 32; UintT 64].
Definition storagelog_val (l : Log) : rval :=
  VList [VBytes (Address_Bytes (log_Address l)); VList (map hash_val (log_Topics l)); VBytes (log_Data l);
         VUint (log_BlockNumber l); hash_val (log_TxHash l); VUint (log_TxIndex l); hash_val (log_BlockHash l);
         VUint (log_Index l)].

(** Values that the decoder of the type does not make give [None]. *)
Definition val_hash (v : rval) : option Hash :=
  match v with VBytes b => Some (BytesToHash b) | _ => None end.
Definition val_slice {A} (f : rval -> option A) (v : rval) : option (list A) :=
  match v with VList l => mapM f l | _ => None end.
(** [Log.DecodeRLP] into a new log. *)
Definition val_log (v : rval) : option Log :=
  match v with
  | VList [VBytes a; topics; VBytes data] =>
      topics ← val_slice val_hash topics;
      Some (mkLog (BytesToAddress a) topics data 0 0%N 0 0%N 0)
  | _ => None
  end.
Definition val_storagelog (v : rval) : option Log :=
  match v with
  | VList [VBytes a; topics; VBytes data; VUint number; txhash; VUint txindex; bhash; VUint index] =>
      topics ← val_slice val_hash topics; txhash ← val_hash txhash; bhash ← val_hash bhash;
      Some (mkLog (BytesToAddress a) topics data number txhash txindex bhash index)
  | _ => None
  end.

(** ** receipt.go *)

Definition receiptStatusFailedRLP : bytes := [].
Definition receiptStatusSuccessfulRLP : bytes := [Byte.x01].
Definition ReceiptStatusFailed : Z := 0.
Definition ReceiptStatusSuccessful : Z := 1.

Definition NewReceipt (root : bytes) (failed : bool) (cumulativeGasUsed : Z) : Receipt :=
  {| r_PostState := root; r_Status := if failed then ReceiptStatusFailed else ReceiptStatusSuccessful;
     r_CumulativeGasUsed := cumulativeGasUsed; r_Bloom := Bloom_new; r_Logs := []; r_TxHash := 0%N;
     r_ContractAddress := 0%N; r_GasUsed := 0 |}.

Inductive receiptError :=
| errRlp (err : rlpError)
| errInvalidStatus (b : bytes).

Definition setStatus (b : bytes) (r : Receipt) : receiptError + Receipt :=
  if decide (b = receiptStatusSuccessfulRLP) then inr (r_set_status (r_PostState r) ReceiptStatusSuccessful r)
  else if decide (b = receiptStatusFailedRLP) then inr (r_set_status (r_PostState r) ReceiptStatusFailed r)
  else if len b =? 32 then inr (r_set_status b (r_Status r) r)
  else inl (errInvalidStatus b).

Definition statusEncoding (r : Receipt) : bytes :=
  if len (r_PostState r) =? 0 then
    if r_Status r =? ReceiptStatusFailed then receiptStatusFailedRLP else receiptStatusSuccessfulRLP
  else r_PostState r.

(** The structs [receiptRLP] and [receiptStorageRLP]. *)
Definition receipt_t : rtype := StructT [BytesT; UintT 64; ArrayT 256; SliceT log_t].
Definition receipt_val (r : Receipt) : rval :=
  VList [VBytes (statusEncoding r); VUint (r_CumulativeGasUsed r); VBytes (r_Bloom r);
         VList (map log_val (r_Logs r))].
Definition receiptStorage_t : rtype :=
  StructT [BytesT; UintT 64; ArrayT 256; ArrayT 32; ArrayT 20; SliceT storagelog_t; UintT 64].
Definition receiptStorage_val (r : Receipt) : rval :=
  VList [VBytes (statusEncoding r); VUint (r_CumulativeGasUsed r); VBytes (r_Bloom r); hash_val (r_TxHash r);
         VBytes (Address_Bytes (r_ContractAddress r)); VList (map storagelog_val (r_Logs r)); VUint (r_GasUsed r)].

Definition Receipt_zero : Receipt := mkReceipt [] 0 0 Bloom_new [] 0%N 0%N 0.

(** What the [DecodeRLP] methods do with the struct they decoded. *)
Definition receipt_of_val (v : rval) : receiptError + Receipt :=
  match v with
  | VList [VBytes status; VUint gas; VBytes bloom; logs] =>
      match val_slice val_log logs with
      | Some logs =>
          match setStatus status Receipt_zero with
          | inl err => inl err
          | inr r => inr (mkReceipt (r_PostState r) (r_Status r) gas bloom logs (r_TxHash r) (r_ContractAddress r) (r_GasUsed r))
          end
      | None => inl (errRlp errType)
      end
  | _ => inl (errRlp errType)
  end.
Definition receiptStorage_of_val (v : rval) : receiptError + Receipt :=
  match v with
  | VList [VBytes status; VUint gas; VBytes bloom; txhash; VBytes addr; logs; VUint used] =>
      match val_slice val_storagelog logs, val_hash txhash with
      | Some logs, Some txhash =>
          match setStatus status Receipt_zero with
          | inl err => inl err
          | inr r => inr (mkReceipt (r_PostState r) (r_Status r) gas bloom logs txhash (BytesToAddress addr) used)
          end
      | _, _ => inl (errRlp errType)
      end
  | _ => inl (errRlp errType)
  end.

(** [rlp.DecodeBytes] into a type with a [DecodeRLP] method that decodes a
    [t] and goes on with [f]. *)
Definition DecodeBytes_into {A} (t : rtype) (f : rval -> receiptError + A) (b : bytes) : outcome (receiptError + A) :=
  let* r := rlp_decode (rlp_fuel t b) t (NewStream b (len b)) in
  match r with
  | (inl err, _) => Done (inl (errRlp err))
  | (inr v, s) =>
      match f v with
      | inl err => Done (inl err)
      | inr x => if 0 <? len (rs_r s) then Done (inl (errRlp ErrMoreThanOneValue)) else Done (inr x)
      end
  end.
Definition DecodeReceipt : bytes -> outcome (receiptError + Receipt) := DecodeBytes_into receipt_t receipt_of_val.
Definition DecodeReceiptForStorage : bytes -> outcome (receiptError + Receipt) :=
  DecodeBytes_into receiptStorage_t receiptStorage_of_val.
Definition EncodeReceipt (r : Receipt) : outcome (rlpError + bytes) := EncodeToBytes receipt_t (receipt_val r).
Definition EncodeReceiptForStorage (r : Receipt) : outcome (rlpError + bytes) :=
  EncodeToBytes receiptStorage_t (receiptStorage_val r).

(** ** Headers and blocks for rlp *)

Definition header_t : rtype :=
  StructT [ArrayT 32; ArrayT 32; ArrayT 20; ArrayT 32; ArrayT 32; ArrayT 32; ArrayT 256; BigT; BigT; UintT 64;
           UintT 64; BigT; BytesT; ArrayT 32; ArrayT 8].
Definition header_fields (h : Header) : list rval :=
  [hash_val (h_ParentHash h); hash_val (h_UncleHash h); VBytes (Address_Bytes (h_Coinbase h)); hash_val (h_Root h);
   hash_val (h_TxHash h); hash_val (h_ReceiptHash h); VBytes (h_Bloom h); VBig (h_Difficulty h); VBig (h_Number h);
   VUint (h_GasLimit h); VUint (h_GasUsed h); VBig (h_Time h); VBytes (h_Extra h)].
Definition header_val (h : Header) : rval :=
  VList (header_fields h ++ [hash_val (h_MixDigest h); VBytes (h_Nonce h)]).
Definition val_header (v : rval) : option Header :=
  match v with
  | VList [parent; uncle; VBytes coinbase; root; txs; receipts; VBytes bloom; VBig difficulty; VBig number;
           VUint gasLimit; VUint gasUsed; VBig time; VBytes extra; mix; VBytes nonce] =>
      parent ← val_hash parent; uncle ← val_hash uncle; root ← val_hash root; txs ← val_hash txs;
      receipts ← val_hash receipts; mix ← val_hash mix;
      Some (mkHeader parent uncle (BytesToAddress coinbase) root txs receipts bloom difficulty number gasLimit
              gasUsed time extra mix nonce)
  | _ => None
  end.

(** The list of interfaces of [HashNoNonce], by their types. *)
Definition noNonce_t : rtype :=
  StructT [ArrayT 32; ArrayT 32; ArrayT 20; ArrayT 32; ArrayT 32; ArrayT 32; ArrayT 256; BigT; BigT; UintT 64;
           UintT 64; BigT; BytesT].

(** The struct [extblock]; a transaction is encoded as its [txdata]. *)
Definition extblock_t : rtype := StructT [PtrT header_t; SliceT txdata_t; SliceT (PtrT header_t)].
Definition extblock_val (b : Block) : rval :=
  VList [header_val (b_header b); VList (map (fun tx => txdata_val (tx_data tx)) (b_transactions b));
         VList (map header_val (b_uncles b))].
(** The caches of a decoded transaction are left empty; [Size], which
    [Transaction.DecodeRLP] stores, computes the same value. *)
Definition val_tx (v : rval) : option Transaction :=
  d ← val_txdata v; Some (mkTransaction d None None None).
Definition val_extblock (v : rval) : option (Header * list Transaction * list Header) :=
  match v with
  | VList [header; txs; uncles] =>
      header ← val_header header; txs ← val_slice val_tx txs; uncles ← val_slice val_header uncles;
      Some (header, txs, uncles)
  | _ => None
  end.

(** [Block.DecodeRLP] on the stream of [rlp.DecodeBytes], and the rest of
    the latter. *)
Definition DecodeBlock (b : bytes) : outcome (rlpError + Block) :=
  let* k := stream_Kind (NewStream b (len b)) in
  let '(ks, s) := k in
  let sz := match ks with inr (_, sz) => sz | inl _ => 0 end in
  let* r := rlp_decode (rlp_fuel extblock_t b) extblock_t s in
  match r with
  | (inl err, _) => Done (inl err)
  | (inr v, s) =>
      match val_extblock v with
      | Some (header, txs, uncles) =>
          if 0 <? len (rs_r s) then Done (inl ErrMoreThanOneValue)
          else Done (inr (mkBlock header uncles txs None (Some (ListSize sz))))
      | None => Done (inl errType)
      end
  end.
Definition EncodeBlock (b : Block) : outcome (rlpError + bytes) := EncodeToBytes extblock_t (extblock_val b).

(** ** derive_sha.go

    Package trie is a parameter: the empty trie, [Update] and [Hash]. *)
Class MerkleTrie := {
  Trie : Type;
  Trie_new : Trie;
  Trie_Update : bytes -> bytes -> Trie -> Trie;
  Trie_Hash : Trie -> Hash
}.

Section Blocks.
Context `{CR : Crypto} `{MT : MerkleTrie}.

(** [GetRlp] gives the items of the list. *)
Fixpoint derive_loop (items : list (outcome bytes)) (i : Z) (t : Trie) : outcome Trie :=
  match items with
  | [] => Done t
  | item :: items =>
      let* k := Encode hash_Write (UintT 64) (VUint i) [] in
      let* v := item in
      derive_loop items (i + 1) (Trie_Update k.2 v t)
  end.
Definition DeriveSha (items : list (outcome bytes)) : outcome Hash :=
  let* t := derive_loop items 0 Trie_new in Done (Trie_Hash t).

Definition tx_GetRlp (tx : Transaction) : outcome bytes :=
  let* r := EncodeToBytes txdata_t (txdata_val (tx_data tx)) in
  Done (match r with inr b => b | inl _ => [] end).
Definition receipt_GetRlp (r : Receipt) : outcome bytes :=
  let* e := EncodeReceipt r in match e with inr b => Done b | inl _ => GoPanic end.
Definition DeriveSha_txs (txs : list Transaction) : outcome Hash := DeriveSha (map tx_GetRlp txs).
Definition DeriveSha_receipts (rs : list Receipt) : outcome Hash := DeriveSha (map receipt_GetRlp rs).

(** ** block.go *)

Definition Header_Hash (h : Header) : outcome Hash := rlpHash header_t (header_val h).
Definition HashNoNonce (h : Header) : outcome Hash := rlpHash noNonce_t (VList (header_fields h)).
Definition CalcUncleHash (uncles : list Header) : outcome Hash :=
  rlpHash (SliceT (PtrT header_t)) (VList (map header_val uncles)).
Definition EmptyRootHash : outcome Hash := DeriveSha_txs [].
Definition EmptyUncleHash : outcome Hash := CalcUncleHash [].

Definition NewBlock (header : Header) (txs : list Transaction) (uncles : list Header) (receipts : list Receipt)
  : outcome Block :=
  let* txHash := if len txs =? 0 then EmptyRootHash else DeriveSha_txs txs in
  let* rb :=
    (if len receipts =? 0 then let* root := EmptyRootHash in Done (root, h_Bloom header)
     else let* root := DeriveSha_receipts receipts in
          let* bloom := CreateBloom receipts in Done (root, bloom)) in
  let* uncleHash := if len uncles =? 0 then EmptyUncleHash else CalcUncleHash uncles in
  Done (mkBlock (h_set_roots uncleHash txHash rb.1 rb.2 header) uncles txs None None).
Definition NewBlockWithHeader (header : Header) : Block := mkBlock header [] [] None None.
Definition WithSeal (header : Header) (b : Block) : Block :=
  mkBlock header (b_uncles b) (b_transactions b) None None.
Definition WithBody (txs : list Transaction) (uncles : list Header) (b : Block) : Block :=
  mkBlock (b_header b) uncles txs None None.

Definition Block_Hash (b : Block) : outcome (Hash * Block) :=
  match b_hash b with
  | Some h => Done (h, b)
  | None =>
      let* v := Header_Hash (b_header b) in
      Done (v, mkBlock (b_header b) (b_uncles b) (b_transactions b) (Some v) (b_size b))
  end.
Definition Block_Size (b : Block) : outcome (Z * Block) :=
  match b_size b with
  | Some n => Done (n, b)
  | None =>
      let* r := Encode writeCounter_Write extblock_t (extblock_val b) 0 in
      Done (r.2, mkBlock (b_header b) (b_uncles b) (b_transactions b) (b_hash b) (Some r.2))
  end.

(** The transaction with a hash; the hashes computed on the way are cached. *)
Fixpoint find_tx (txs : list Transaction) (hash : Hash) : outcome (option Transaction * list Transaction) :=
  match txs with
  | [] => Done (None, [])
  | tx :: txs =>
      let* h := tx_Hash tx in
      if decide (h.1 = hash) then Done (Some h.2, h.2 :: txs)
      else let* r := find_tx txs hash in Done (r.1, h.2 :: r.2)
  end.
Definition Block_Transaction (hash : Hash) (b : Block) : outcome (option Transaction * Block) :=
  let* r := find_tx (b_transactions b) hash in
  Done (r.1, mkBlock (b_header b) (b_uncles b) r.2 (b_hash b) (b_size b)).

Definition NumberU64 (h : Header) : Z := big_Uint64 (h_Number h).
End Blocks.
