(* ===== verification/BlockFacts.v ===== *)
(** Bloom filters and the encodings of blocks and receipts. *)
From S2P Require Import Prelude BigMath StateSpec Vm PrecompileFacts Rlp RlpDecode RlpFacts RlpDecodeFacts RlpTyped.
From S2P Require Import RlpRaw RlpWriter Transaction TxFacts BlockTypes.

(** ** Bloom filters *)

Definition BloomBitLength : Z := 2048.
Definition in_bloom (x : Z) : Prop := 0 <= x < 2 ^ BloomBitLength.

Lemma lor_bound n x y : 0 <= n -> 0 <= x < 2 ^ n -> 0 <= y < 2 ^ n -> 0 <= Z.lor x y < 2 ^ n.
Proof.
  intros Hn Hx Hy. split; [apply Z.lor_nonneg; lia|].
  destruct (Z.eq_dec (Z.lor x y) 0) as [->|Hne]; [lia|].
  pose proof (Z.lor_nonneg x y). apply Z.log2_lt_pow2; [lia|]. rewrite Z.log2_lor by lia.
  apply Z.max_lub_lt.
  - destruct (Z.eq_dec x 0) as [->|]; [|apply Z.log2_lt_pow2; lia]. destruct (Z.eq_dec n 0) as [->|]; [|simpl; lia].
    exfalso. apply Hne. rewrite Z.lor_0_l. lia.
  - destruct (Z.eq_dec y 0) as [->|]; [|apply Z.log2_lt_pow2; lia]. destruct (Z.eq_dec n 0) as [->|]; [|simpl; lia].
    exfalso. apply Hne. rewrite Z.lor_0_r. lia.
Qed.
Lemma in_bloom_lor x y : in_bloom x -> in_bloom y -> in_bloom (Z.lor x y).
Proof. apply lor_bound. done. Qed.

(** The filter of a list of numbers. *)
Definition lors (l : list Z) (acc : Z) : Z := foldl Z.lor acc l.
Lemma lors_app l k acc : lors (l ++ k) acc = lors k (lors l acc).
Proof. apply foldl_app. Qed.
Lemma lors_lor l : forall acc, lors l acc = Z.lor acc (lors l 0).
Proof.
  induction l as [|x l IH]; intros acc; [simpl; by rewrite Z.lor_0_r|].
  change (lors l (Z.lor acc x) = Z.lor acc (lors l x)). rewrite IH, (IH x), Z.lor_assoc. done.
Qed.
Lemma in_bloom_lors l : forall acc, in_bloom acc -> Forall in_bloom l -> in_bloom (lors l acc).
Proof. induction l as [|x l IH]; intros acc Ha Hl; [done|]. inversion_clear Hl. simpl. by apply IH; [apply in_bloom_lor|]. Qed.
Lemma lors_testbit l i : forall acc, Z.testbit (lors l acc) i = true <-> Z.testbit acc i = true \/ exists x, x ∈ l /\ Z.testbit x i = true.
Proof.
  induction l as [|x l IH]; intros acc; simpl.
  - split; [by left|]. intros [|(x & Hx & _)]; [done|by apply elem_of_nil in Hx].
  - rewrite IH, Z.lor_spec, orb_true_iff. split.
    + intros [[?|?]|(y & Hy & ?)]; [by left|right; exists x; set_solver|right; exists y; set_solver].
    + intros [?|(y & [->|Hy]%elem_of_cons & ?)]; [by left; left|by left; right|right; by exists y].
Qed.

(** [x] has no bits but those of [y]. *)
Lemma land_sub x y : Z.land y x = x <-> forall i, Z.testbit x i = true -> Z.testbit y i = true.
Proof.
  split.
  - intros E i Hi. rewrite <-E, Z.land_spec in Hi. by apply andb_true_iff in Hi as [? _].
  - intros H. apply Z.bits_inj'. intros i _. rewrite Z.land_spec. specialize (H i).
    destruct (Z.testbit x i); [by rewrite H|apply andb_false_r].
Qed.

Section Bloom.
Context `{CR : Crypto} `{CS : !CryptoSpec}.

Lemma bloom_bit_ok b r i :
  0 <= i -> i + 1 < len b -> in_bloom r -> exists r', bloom_bit b r i = Done r' /\ in_bloom r'.
Proof.
  intros Hi Hlen Hr. unfold bloom_bit.
  destruct (index_done b (i + 1)) as (lo & -> & _); [lia|]. destruct (index_done b i) as (hi & -> & _); [lia|]. cbn [outcome_bind].
  eexists. split; [done|]. apply in_bloom_lor; [done|]. change 2047 with (Z.ones 11). rewrite Z.land_ones by lia.
  pose proof (Z.mod_pos_bound (b2z lo + Z.shiftl (b2z hi) 8) (2 ^ 11)) as Hm. rewrite Z.shiftl_1_l.
  split; [lia|]. apply Z.pow_lt_mono_r; unfold BloomBitLength; lia.
Qed.
Lemma bloom9_total b : exists x, bloom9 b = Done x /\ in_bloom x.
Proof.
  unfold bloom9. pose proof (Keccak256_len b) as Hl. assert (H0 : in_bloom 0) by done.
  destruct (bloom_bit_ok (Keccak256 b) 0 0) as (x & -> & H1); [lia..|done|]. cbn [outcome_bind].
  destruct (bloom_bit_ok (Keccak256 b) x 2) as (y & -> & H2); [lia..|done|]. cbn [outcome_bind].
  apply bloom_bit_ok; [lia..|done].
Qed.

(** The three bits of a byte string. *)
Definition bloom_num (b : bytes) : Z := match bloom9 b with Done x => x | _ => 0 end.
Lemma bloom9_num b : bloom9 b = Done (bloom_num b).
Proof. unfold bloom_num. by destruct (bloom9_total b) as (x & -> & _). Qed.
Lemma bloom_num_in b : in_bloom (bloom_num b).
Proof. unfold bloom_num. by destruct (bloom9_total b) as (x & -> & ?). Qed.

(** What a filter is about: the addresses and topics of logs. *)
Definition log_items (l : Log) : list bytes := Address_Bytes (log_Address l) :: map Hash_Bytes (log_Topics l).
Definition logs_items (ls : list Log) : list bytes := concat (map log_items ls).
Definition receipts_items (rs : list Receipt) : list bytes := concat (map (fun r => logs_items (r_Logs r)) rs).
Definition filter_of (items : list bytes) : Z := lors (map bloom_num items) 0.

Lemma filter_of_in items : in_bloom (filter_of items).
Proof. apply in_bloom_lors; [done|]. apply Forall_map, Forall_forall. intros x _. apply bloom_num_in. Qed.
Lemma filter_of_app a b : filter_of (a ++ b) = Z.lor (filter_of a) (filter_of b).
Proof. unfold filter_of. by rewrite map_app, lors_app, lors_lor. Qed.
Lemma filter_of_testbit items i :
  Z.testbit (filter_of items) i = true <-> exists x, x ∈ items /\ Z.testbit (bloom_num x) i = true.
Proof.
  unfold filter_of. rewrite lors_testbit, Z.testbit_0_l. split.
  - intros [?|(x & (y & -> & Hy)%list_elem_of_fmap & ?)]; [done|by exists y].
  - intros (x & Hx & Hi). right. exists (bloom_num x). split; [by apply list_elem_of_fmap_2|done].
Qed.

Lemma bloom_topics_eq ts : forall bin, bloom_topics ts bin = Done (lors (map bloom_num (map Hash_Bytes ts)) bin).
Proof. induction ts as [|t ts IH]; intros bin; simpl; [done|]. rewrite bloom9_num. cbn [outcome_bind]. apply IH. Qed.
Lemma bloom_logs_eq ls : forall bin, bloom_logs ls bin = Done (lors (map bloom_num (logs_items ls)) bin).
Proof.
  induction ls as [|l ls IH]; intros bin; simpl; [done|]. rewrite bloom9_num. cbn [outcome_bind].
  rewrite bloom_topics_eq. cbn [outcome_bind]. rewrite IH. unfold logs_items. simpl. by rewrite map_app, lors_app.
Qed.
Lemma LogsBloom_eq ls : LogsBloom ls = Done (filter_of (logs_items ls)).
Proof. apply bloom_logs_eq. Qed.
Lemma bloom_receipts_eq rs : forall bin, bloom_receipts rs bin = Done (Z.lor bin (filter_of (receipts_items rs))).
Proof.
  induction rs as [|r rs IH]; intros bin; simpl; [by rewrite Z.lor_0_r|]. rewrite LogsBloom_eq. cbn [outcome_bind].
  rewrite IH. unfold receipts_items at 2. simpl. by rewrite filter_of_app, Z.lor_assoc.
Qed.

Lemma len_in_bloom x : in_bloom x -> len (big_Bytes x) <= 256.
Proof. intros H. apply big_Bytes_len_bound; [done|]. exact H. Qed.

(** Setting the low bytes of a filter without higher ones. *)
Lemma Bloom_SetBytes_num x y b :
  b = be_fixed 256 y -> in_bloom x -> in_bloom y -> y <= x -> Bloom_SetBytes (big_Bytes x) b = Done (be_fixed 256 x).
Proof.
  intros -> Hx Hy Hle. pose proof (len_in_bloom x Hx) as Hl. pose proof (len_nonneg (big_Bytes x)).
  unfold Bloom_SetBytes. rewrite len_be_fixed. destruct (Z.ltb_spec (Z.of_nat 256) (len (big_Bytes x))); [lia|].
  f_equal. set (n := length (big_Bytes x)) in *. assert (Hn : (n <= 256)%nat) by (unfold len in *; lia).
  assert (Hlx : x < 256 ^ Z.of_nat n).
  { pose proof (big_SetBytes_range (big_Bytes x)) as Hr. rewrite big_Bytes_value, Z.abs_eq in Hr by apply Hx. apply Hr. }
  assert (Hsplit : forall z, 0 <= z < 256 ^ Z.of_nat n -> be_fixed 256 z = replicate (256 - n) Byte.x00 ++ be_fixed n z).
  { intros z Hz. replace 256%nat with ((256 - n) + n)%nat at 1 by lia. rewrite be_fixed_app, Z.div_small by done.
    by rewrite be_fixed_zero. }
  assert (Ebx : big_Bytes x = be_fixed n x).
  { rewrite <-(be_fixed_big_SetBytes (big_Bytes x)). fold n. by rewrite big_Bytes_value, Z.abs_eq by apply Hx. }
  unfold in_bloom in *. rewrite (Hsplit y), (Hsplit x), Ebx by lia.
  unfold BloomByteLength. replace (256 - len (be_fixed n x)) with (len (replicate (256 - n) Byte.x00)).
  - rewrite <-(app_nil_r (be_fixed n y)), copy_at_app by (by rewrite !len_be_fixed). by rewrite app_nil_r.
  - rewrite len_be_fixed. unfold len. rewrite length_replicate. lia.
Qed.
Lemma Bloom_new_eq : Bloom_new = be_fixed 256 0.
Proof. by rewrite be_fixed_zero. Qed.
Lemma Bloom_Big_fixed x : in_bloom x -> Bloom_Big (be_fixed 256 x) = x.
Proof. intros H. unfold Bloom_Big. rewrite big_SetBytes_be_fixed. by apply Z.mod_small. Qed.

Lemma CreateBloom_eq rs : CreateBloom rs = Done (be_fixed 256 (filter_of (receipts_items rs))).
Proof.
  unfold CreateBloom, BytesToBloom. rewrite bloom_receipts_eq, Z.lor_0_l. cbn [outcome_bind].
  pose proof (filter_of_in (receipts_items rs)) as H. apply (Bloom_SetBytes_num _ 0); [apply Bloom_new_eq|done|done|apply H].
Qed.
Lemma BloomLookup_eq x topic :
  in_bloom x -> BloomLookup (be_fixed 256 x) topic = Done (Z.land x (bloom_num topic) =? bloom_num topic).
Proof. intros H. unfold BloomLookup. rewrite bloom9_num. cbn [outcome_bind]. by rewrite Bloom_Big_fixed. Qed.
Lemma BloomLookup_true x topic :
  in_bloom x ->
  BloomLookup (be_fixed 256 x) topic = Done true <->
  (forall i, Z.testbit (bloom_num topic) i = true -> Z.testbit x i = true).
Proof.
  intros H. rewrite BloomLookup_eq by done. rewrite <-land_sub. split; [intros [= E]; by apply Z.eqb_eq|].
  intros E. f_equal. by apply Z.eqb_eq.
Qed.

(** Adding to a filter by [Add]. *)
Lemma Bloom_Add_eq x d : in_bloom x -> Bloom_Add d (be_fixed 256 x) = Done (be_fixed 256 (Z.lor x (bloom_num (big_Bytes d)))).
Proof.
  intros H. unfold Bloom_Add. rewrite bloom9_num. cbn [outcome_bind]. rewrite Bloom_Big_fixed by done.
  pose proof (bloom_num_in (big_Bytes d)) as Hd. apply (Bloom_SetBytes_num _ x); [done|by apply in_bloom_lor|done|].
  destruct H, Hd. pose proof (Z.lor_nonneg x (bloom_num (big_Bytes d))).
  apply Z.ldiff_le; [lia|]. apply Z.bits_inj'. intros i _.
  rewrite Z.ldiff_spec, Z.lor_spec, Z.testbit_0_l. by destruct (Z.testbit x i).
Qed.
End Bloom.

(** ** Codecs

    [val] gives the value that stands for an [A] in the encoder, [unval]
    takes it back: values that are [ok] survive, and whatever is decoded is
    [ok]. *)
Record codec {A} (t : rtype) (val : A -> rval) (unval : rval -> option A) (ok : A -> Prop) : Prop := {
  codec_type x : ok x -> has_type t (val x);
  codec_back x : ok x -> unval (val x) = Some x;
  codec_of v e : encodes t v e -> exists x, unval v = Some x /\ ok x /\ val x = v
}.

Lemma codec_slice {A} t (val : A -> rval) unval ok :
  codec t val unval ok -> codec (SliceT t) (fun l => VList (map val l)) (val_slice unval) (Forall ok).
Proof.
  intros [H1 H2 H3]. split.
  - intros l Hl. cbn [has_type]. apply Forall_map. eapply Forall_impl; [exact Hl|]. exact H1.
  - intros l Hl. simpl. induction Hl as [|x l Hx Hl IH]; [done|]. simpl. by rewrite H2, IH.
  - intros v e Hv. destruct v as [| | | | |l|]; try done. destruct Hv as (es & HF & _). simpl.
    induction HF as [|v e' l es Hv _ (xs & E & Hok & Ev)]; [by exists []|].
    destruct (H3 v e' Hv) as (x & Ex & Hx & <-). injection Ev as <-. exists (x :: xs). simpl. rewrite Ex. cbn [mbind option_bind].
    rewrite E. split; [done|]. split; [by constructor|done].
Qed.
Lemma codec_ptr {A} t (val : A -> rval) unval ok :
  (forall x, val x <> VNil) -> codec t val unval ok -> codec (PtrT t) val unval ok.
Proof. intros Hn [H1 H2 H3]. split; [|done..]. intros x Hx. split; [done|by apply H1]. Qed.

(** Decoding what was encoded. *)
Lemma decode_encoded {A} t (val : A -> rval) unval ok x :
  codec t val unval ok -> wf_type t = true -> ok x -> len (enc t (val x)) < 2 ^ 63 ->
  EncodeToBytes t (val x) = Done (inr (enc t (val x))) /\ DecodeBytes t (enc t (val x)) = Done (inr (val x)).
Proof.
  intros C Hwf Hx Hl. pose proof (codec_type _ _ _ _ C x Hx) as Ht. split; [apply EncodeToBytes_spec; [done|lia]|].
  destruct (DecodeBytes_spec t (enc t (val x)) Hwf Hl) as (res & -> & H). f_equal. by apply H, enc_encodes.
Qed.

Lemma len_Hash_Bytes h : length (Hash_Bytes h) = 32%nat.
Proof. apply length_be_fixed. Qed.
Lemma Hash_Bytes_back h : (h < 2 ^ 256)%N -> BytesToHash (Hash_Bytes h) = h.
Proof.
  intros Hh. rewrite BytesToHash_spec. unfold Hash_Bytes. rewrite big_SetBytes_be_fixed.
  change (256 ^ Z.of_nat 32) with (2 ^ 256). rewrite !Z.mod_small by (rewrite ?Z.mod_small; lia). lia.
Qed.
Lemma Hash_Bytes_of bs : length bs = 32%nat -> Hash_Bytes (BytesToHash bs) = bs.
Proof.
  intros Hl. pose proof (big_SetBytes_range bs) as Hr. unfold len in Hr. rewrite Hl in Hr. change (256 ^ Z.of_nat 32) with (2 ^ 256) in Hr.
  rewrite BytesToHash_spec, Z.mod_small by lia. unfold Hash_Bytes. rewrite Z2N.id by lia.
  rewrite <-(be_fixed_big_SetBytes bs) at 2. by rewrite Hl.
Qed.
Definition is_hash (h : Hash) : Prop := (h < 2 ^ 256)%N.
Definition is_addr (a : Address) : Prop := (a < 2 ^ 160)%N.
Lemma BytesToHash_bound b : is_hash (BytesToHash b).
Proof. unfold is_hash. rewrite BytesToHash_spec. pose proof (Z.mod_pos_bound (big_SetBytes b) (2 ^ 256)). lia. Qed.

Lemma array_type n b : length b = n -> n <> 1%nat -> has_type (ArrayT n) (VBytes b).
Proof. intros Hl Hn. split; [done|]. intros ->. by destruct Hl. Qed.
Lemma hash_has_type h : has_type (ArrayT 32) (hash_val h).
Proof. by apply array_type; [apply len_Hash_Bytes|]. Qed.
Lemma addr_has_type a : has_type (ArrayT 20) (VBytes (Address_Bytes a)).
Proof. by apply array_type; [apply length_be_fixed|]. Qed.
Lemma uint64_type n : is_u64 n -> has_type (UintT 64) (VUint n).
Proof. intros H. split; [exact H|set_solver]. Qed.
Lemma big_type n : 0 <= n -> has_type BigT (VBig n).
Proof. done. Qed.
Lemma bytes_type b : has_type BytesT (VBytes b).
Proof. done. Qed.
Lemma struct_type ts l : Forall2 has_type ts l -> has_type (StructT ts) (VList l).
Proof.
  intros H. cbn [has_type]. split; [by eapply Forall2_length|]. induction H as [|t v ts l Ht _ IH]; [done|]. by split.
Qed.
#[local] Hint Resolve big_type bytes_type hash_has_type addr_has_type uint64_type : core.
#[local] Hint Constructors Forall2 : core.

Lemma hash_codec : codec (ArrayT 32) hash_val val_hash is_hash.
Proof.
  split; [done|intros h Hh; simpl; by rewrite Hash_Bytes_back|].
  intros v e Hv. destruct v as [| | | |b| |]; try done. destruct Hv as [Hl _]. exists (BytesToHash b).
  split; [done|]. split; [apply BytesToHash_bound|]. unfold hash_val. by rewrite Hash_Bytes_of.
Qed.
Definition topics_codec := codec_slice _ _ _ _ hash_codec.

(** The fields of an encoded struct. *)
Tactic Notation "unstruct" hyp(v) hyp(H) integer(n) :=
  destruct v as [| | | | |?l|]; try done; destruct H as (? & ?es & ?HF & _);
  match goal with L : list rval |- _ => do n (destruct L as [|? L]; [done|]); destruct L; [|done] end;
  match goal with F : Forall2 id _ _ |- _ =>
    cbn [zip_with] in F; do n (apply Forall2_cons_inv_l in F as (? & ? & ? & F & ->)); clear F end;
  unfold id in *;
  repeat match goal with
  | H : encodes (UintT _) ?v _ |- _ => destruct v; try done; destruct H as [? _]
  | H : encodes BigT ?v _ |- _ => destruct v; try done; destruct H as [? _]
  | H : encodes BytesT ?v _ |- _ => destruct v; try done; clear H
  | H : encodes (ArrayT 32) _ _ |- _ => apply (codec_of _ _ _ _ hash_codec) in H as (? & ? & ? & <-)
  | H : encodes (ArrayT _) ?v _ |- _ => destruct v; try done; destruct H as [? _]
  | H : encodes (SliceT (ArrayT 32)) _ _ |- _ => apply (codec_of _ _ _ _ topics_codec) in H as (? & ? & ? & <-)
  end.

(** The conversions, by those of the fields. *)
Lemma val_storagelog_eq a data n ti ix vts ts vth th vbh bh :
  val_slice val_hash vts = Some ts -> val_hash vth = Some th -> val_hash vbh = Some bh ->
  val_storagelog (VList [VBytes a; vts; VBytes data; VUint n; vth; VUint ti; vbh; VUint ix]) =
  Some (mkLog (BytesToAddress a) ts data n th ti bh ix).
Proof. intros H1 H2 H3. unfold val_storagelog. by rewrite H1, H2, H3. Qed.
Lemma val_header_eq vp p vu u a vr r vt t vrc rc bl d n gl gu tm ex vm m nc :
  val_hash vp = Some p -> val_hash vu = Some u -> val_hash vr = Some r -> val_hash vt = Some t ->
  val_hash vrc = Some rc -> val_hash vm = Some m ->
  val_header (VList [vp; vu; VBytes a; vr; vt; vrc; VBytes bl; VBig d; VBig n; VUint gl; VUint gu; VBig tm; VBytes ex;
                     vm; VBytes nc]) =
  Some (mkHeader p u (BytesToAddress a) r t rc bl d n gl gu tm ex m nc).
Proof. intros H1 H2 H3 H4 H5 H6. unfold val_header. by rewrite H1, H2, H3, H4, H5, H6. Qed.
Lemma val_extblock_eq vh h vts ts vus us :
  val_header vh = Some h -> val_slice val_tx vts = Some ts -> val_slice val_header vus = Some us ->
  val_extblock (VList [vh; vts; vus]) = Some (h, ts, us).
Proof. intros H1 H2 H3. unfold val_extblock. by rewrite H1, H2, H3. Qed.

Lemma topics_have_type ts : has_type (SliceT (ArrayT 32)) (VList (map hash_val ts)).
Proof. cbn [has_type]. apply Forall_map, Forall_forall. intros h _. apply hash_has_type. Qed.
Lemma log_has_type l : has_type log_t (log_val l).
Proof. pose proof (topics_have_type (log_Topics l)). apply struct_type. auto. Qed.

Definition log_ok (l : Log) : Prop := is_addr (log_Address l) /\ Forall is_hash (log_Topics l).
Definition clear_log (l : Log) : Log := mkLog (log_Address l) (log_Topics l) (log_Data l) 0 0%N 0 0%N 0.
(** The consensus encoding of a log leaves out where it is. *)
Lemma log_codec : codec log_t log_val val_log (fun l => log_ok l /\ l = clear_log l).
Proof.
  split.
  - intros l _. apply log_has_type.
  - intros l [[Ha Ht] E]. unfold log_val, val_log. rewrite (codec_back _ _ _ _ topics_codec) by done. cbn [mbind option_bind].
    rewrite Address_Bytes_back by done. by rewrite E at 4.
  - intros v e Hv. unstruct v Hv 3. eexists. unfold val_log. rewrite H1. split; [reflexivity|].
    split; [split; [split; [apply BytesToAddress_bound|done]|done]|]. unfold log_val. simpl. by rewrite Address_Bytes_of.
Qed.

Definition storagelog_ok (l : Log) : Prop :=
  log_ok l /\ is_u64 (log_BlockNumber l) /\ is_hash (log_TxHash l) /\ is_u64 (log_TxIndex l) /\
  is_hash (log_BlockHash l) /\ is_u64 (log_Index l).
Lemma storagelog_codec : codec storagelog_t storagelog_val val_storagelog storagelog_ok.
Proof.
  split.
  - intros l ((_ & Ht) & ? & ? & ? & ? & ?). pose proof (topics_have_type (log_Topics l)).
    apply struct_type. auto 20.
  - intros l ((Ha & Ht) & ? & ? & ? & ? & ?). unfold storagelog_val.
    erewrite val_storagelog_eq by (by apply (codec_back _ _ _ _ topics_codec) || by apply (codec_back _ _ _ _ hash_codec)).
    rewrite Address_Bytes_back by done. by destruct l.
  - intros v e Hv. unstruct v Hv 8. eexists. split; [by apply val_storagelog_eq|].
    split; [split; [split; [apply BytesToAddress_bound|done]|done]|].
    unfold storagelog_val. simpl. by rewrite Address_Bytes_of.
Qed.

Record header_ok (h : Header) : Prop := {
  ok_parent : is_hash (h_ParentHash h);
  ok_uncles : is_hash (h_UncleHash h);
  ok_coinbase : is_addr (h_Coinbase h);
  ok_root : is_hash (h_Root h);
  ok_txs : is_hash (h_TxHash h);
  ok_receipts : is_hash (h_ReceiptHash h);
  ok_bloom : length (h_Bloom h) = 256%nat;
  ok_difficulty : 0 <= h_Difficulty h;
  ok_number : 0 <= h_Number h;
  ok_gasLimit : is_u64 (h_GasLimit h);
  ok_gasUsed : is_u64 (h_GasUsed h);
  ok_time : 0 <= h_Time h;
  ok_mix : is_hash (h_MixDigest h);
  ok_noncelen : length (h_Nonce h) = 8%nat
}.
(** The part of it that the encoder needs. *)
Definition header_shape (h : Header) : Prop :=
  length (h_Bloom h) = 256%nat /\ 0 <= h_Difficulty h /\ 0 <= h_Number h /\ is_u64 (h_GasLimit h) /\
  is_u64 (h_GasUsed h) /\ 0 <= h_Time h /\ length (h_Nonce h) = 8%nat.
Lemma header_ok_shape h : header_ok h -> header_shape h.
Proof. by intros []. Qed.
Lemma header_has_type h : header_shape h -> has_type header_t (header_val h).
Proof.
  intros (Hb & ? & ? & ? & ? & ? & Hn). apply (array_type 256) in Hb; [|done]. apply (array_type 8) in Hn; [|done].
  apply struct_type. unfold header_fields. cbn [app]. auto 20.
Qed.
Lemma header_codec : codec header_t header_val val_header header_ok.
Proof.
  split.
  - intros h Hh. by apply header_has_type, header_ok_shape.
  - intros h []. unfold header_val. cbn [header_fields app].
    erewrite val_header_eq by (by apply (codec_back _ _ _ _ hash_codec)). rewrite Address_Bytes_back by done. by destruct h.
  - intros v e Hv. unstruct v Hv 15. eexists. split; [by apply val_header_eq|]. split.
    + split; simpl; try done. apply BytesToAddress_bound.
    + unfold header_val, header_fields. simpl. by rewrite Address_Bytes_of.
Qed.
Lemma header_val_nil h : header_val h <> VNil.
Proof. done. Qed.
Lemma fields_have_type h : header_shape h -> has_type noNonce_t (VList (header_fields h)).
Proof.
  intros (Hb & ? & ? & ? & ? & ? & _). apply (array_type 256) in Hb; [|done].
  apply struct_type. unfold header_fields. auto 20.
Qed.
Definition headerptr_codec := codec_ptr _ _ _ _ header_val_nil header_codec.
Definition uncles_codec := codec_slice _ _ _ _ headerptr_codec.

Definition fresh_tx (d : txdata) : Transaction := mkTransaction d None None None.
Definition fresh_tx_ok (tx : Transaction) : Prop := td_ok (tx_data tx) /\ tx = fresh_tx (tx_data tx).
Definition tx_val (tx : Transaction) : rval := txdata_val (tx_data tx).
Lemma tx_codec : codec txdata_t tx_val val_tx fresh_tx_ok.
Proof.
  split.
  - intros tx [Hd _]. by apply txdata_has_type.
  - intros tx [Hd E]. unfold tx_val, val_tx. rewrite val_txdata_val by done. simpl. by rewrite E at 2.
  - intros v e Hv. destruct (txdata_encodes v e Hv) as (d & E & Hd & <- & _). exists (fresh_tx d).
    unfold val_tx. rewrite E. by split.
Qed.
Definition txs_codec := codec_slice _ _ _ _ tx_codec.

(** ** Blocks *)

Definition body_ok (b : Header * list Transaction * list Header) : Prop :=
  header_ok b.1.1 /\ Forall fresh_tx_ok b.1.2 /\ Forall header_ok b.2.
Definition body_val (b : Header * list Transaction * list Header) : rval :=
  VList [header_val b.1.1; VList (map tx_val b.1.2); VList (map header_val b.2)].
Lemma extblock_codec : codec extblock_t body_val val_extblock body_ok.
Proof.
  split.
  - intros [[h txs] us] (Hh & Ht & Hu). pose proof (codec_type _ _ _ _ headerptr_codec _ Hh).
    pose proof (codec_type _ _ _ _ txs_codec _ Ht). pose proof (codec_type _ _ _ _ uncles_codec _ Hu).
    apply struct_type. auto.
  - intros [[h txs] us] (Hh & Ht & Hu). apply val_extblock_eq;
      [by apply (codec_back _ _ _ _ header_codec)|by apply (codec_back _ _ _ _ txs_codec)|by apply (codec_back _ _ _ _ uncles_codec)].
  - intros v e Hv. unstruct v Hv 3.
    apply (codec_of _ _ _ _ headerptr_codec) in H0 as (h & ? & ? & <-).
    apply (codec_of _ _ _ _ txs_codec) in H1 as (txs & ? & ? & <-).
    apply (codec_of _ _ _ _ uncles_codec) in H2 as (us & ? & ? & <-).
    exists (h, txs, us). split; [by apply val_extblock_eq|]. done.
Qed.
Lemma extblock_val_body b : extblock_val b = body_val (b_header b, b_transactions b, b_uncles b).
Proof. done. Qed.

Definition block_body (b : Block) : Header * list Transaction * list Header := (b_header b, b_transactions b, b_uncles b).
Definition block_ok (b : Block) : Prop :=
  header_ok (b_header b) /\ Forall (fun tx => td_ok (tx_data tx)) (b_transactions b) /\ Forall header_ok (b_uncles b).
(** The block without what is cached. *)
Definition clean_block (size : option Z) (b : Block) : Block :=
  mkBlock (b_header b) (b_uncles b) (map (fun tx => fresh_tx (tx_data tx)) (b_transactions b)) None size.
Lemma clean_block_ok size b : block_ok b -> body_ok (block_body (clean_block size b)).
Proof.
  intros (Hh & Ht & Hu). split; [done|]. split; [|done]. simpl. apply Forall_map. by eapply Forall_impl; [exact Ht|].
Qed.
Lemma clean_block_val size b : extblock_val (clean_block size b) = extblock_val b.
Proof. unfold extblock_val. simpl. by rewrite map_map. Qed.

(** A struct decoded after a look at the kind of the value ahead. *)
Lemma Kind_then_decode ts b :
  let t := StructT ts in
  wf_type t = true -> len b < 2 ^ 63 ->
  exists ks s1 res s2, stream_Kind (NewStream b (len b)) = Done (ks, s1) /\
    rlp_decode (rlp_fuel t b) t s1 = Done (res, s2) /\
    (forall v, res = inr v -> rs_r s2 = [] ->
       encodes t v b /\ exists k sz, ks = inr (k, sz) /\ ListSize sz = len b) /\
    (forall v, encodes t v b -> res = inr v /\ rs_r s2 = []).
Proof.
  intros t Hwf Hb. pose proof (NewStream_ready b Hb) as Rd. set (s := NewStream b (len b)) in *.
  assert (Hf : Z.of_nat (tdepth t) + len b < Z.of_nat (rlp_fuel t b)) by (unfold rlp_fuel, len; lia).
  assert (Hkf : kind_first (rlp_decode (rlp_fuel t b) t)) by (apply kf_decode; unfold rlp_fuel; lia).
  assert (Hacc : forall v, encodes t v b -> exists s', rlp_decode (rlp_fuel t b) t s = Done (inr v, s') /\ rs_r s' = []).
  { intros v Hv. destruct (accepts_decode t v b (rlp_fuel t b) Hwf Hv Hb Hf s [] []) as (s' & E & [(Er & _) _]);
      [by rewrite app_nil_r|done|by exists s']. }
  destruct (stream_Kind s) as [[[err|[k sz]] s1]| |] eqn:EK.
  - pose proof (Hkf s1) as Hk1. rewrite (stream_Kind_err s b err s1 Rd EK) in Hk1. destruct Hk1 as (err' & s2 & E & _).
    eexists _, _, _, _. split; [done|]. split; [exact E|]. split; [done|]. intros v Hv. exfalso.
    destruct (Hacc v Hv) as (s' & E' & _). pose proof (Hkf s) as Hk. rewrite EK in Hk. destruct Hk as (? & ? & ? & _). congruence.
  - pose proof (Hkf s) as Hk1. rewrite EK in Hk1. eexists _, _. rewrite Hk1.
    destruct (reads_decode t (len b) (rlp_fuel t b) Hwf Hb Hf s b [] Rd ltac:(lia))
      as [(v & e & r' & s' & E & He & _ & Eb & _ & [(Er & _) _])|[(s' & _ & [] & _)|(err & s' & E & _)]].
    + eexists _, _. split; [done|]. split; [exact E|]. split.
      * intros v' [= <-] Hr. rewrite Er in Hr. rewrite Hr, app_nil_r in Eb. subst e. split; [done|]. exists k, sz. split; [done|].
        destruct v as [| | | | |l|]; try done. destruct He as (_ & es & _ & Eb). rewrite Eb in Rd, Hb.
        destruct (Kind_list s (concat es) Rd) as (s2 & EK2). rewrite EK in EK2. injection EK2 as _ -> _.
        by rewrite ListSize_enc, <-Eb.
      * intros v' Hv'. destruct (Hacc v' Hv') as (s2 & E2 & Hr). rewrite E in E2. injection E2 as -> ->. done.
    + eexists _, _. split; [done|]. split; [exact E|]. split; [done|]. intros v Hv. destruct (Hacc v Hv) as (s2 & E2 & _). congruence.
  - exfalso. destruct (stream_Kind_total s b [] Rd) as [(? & ? & ? & ? & ? & ? & E & _)|[(? & E & _)|(? & ? & E & _)]]; congruence.
  - exfalso. destruct (stream_Kind_total s b [] Rd) as [(? & ? & ? & ? & ? & ? & E & _)|[(? & E & _)|(? & ? & E & _)]]; congruence.
Qed.
Lemma leftover_nil (r : bytes) : (0 <? len r) = false <-> r = [].
Proof. destruct r; [done|]. split; [|done]. intros H%Z.ltb_ge. unfold len in H. simpl in H. lia. Qed.

(** [DecodeBlock] ends, and accepts exactly the encodings of blocks. *)
Lemma DecodeBlock_spec b :
  len b < 2 ^ 63 ->
  exists res, DecodeBlock b = Done res /\
    forall blk, res = inr blk <->
      block_ok blk /\ blk = clean_block (Some (len b)) blk /\ encodes extblock_t (extblock_val blk) b.
Proof.
  intros Hb. unfold DecodeBlock.
  destruct (Kind_then_decode [PtrT header_t; SliceT txdata_t; SliceT (PtrT header_t)] b eq_refl Hb) as (ks & s1 & res & s2 & -> & E & H1 & H2).
  cbn [outcome_bind]. fold extblock_t in *. rewrite E. cbn [outcome_bind].
  destruct res as [err|v].
  { eexists. split; [done|]. intros blk. split; [done|]. intros (_ & _ & He). by destruct (H2 _ He). }
  destruct (val_extblock v) as [[[h txs] us]|] eqn:Ev.
  2:{ eexists. split; [done|]. intros blk. split; [done|]. intros (Hok & Hc & He). destruct (H2 _ He) as [[= ->] _].
      rewrite Hc, extblock_val_body in Ev. by rewrite (codec_back _ _ _ _ extblock_codec) in Ev by (by apply clean_block_ok). }
  destruct (0 <? len (rs_r s2)) eqn:El.
  { eexists. split; [done|]. intros blk. split; [done|]. intros (_ & _ & He). destruct (H2 _ He) as [_ Hr%leftover_nil]. congruence. }
  apply leftover_nil in El. destruct (H1 v eq_refl El) as (He & k & sz & -> & ->). eexists. split; [done|].
  destruct (codec_of _ _ _ _ extblock_codec v b He) as ([[h' txs'] us'] & E' & (Hh & Ht & Hu) & Ebv). rewrite Ev in E'.
  injection E' as <- <- <-. cbn [fst snd] in *. intros blk. split.
  - intros [= <-]. split; [split; [done|split; [|done]]|].
    + eapply Forall_impl; [exact Ht|]. by intros tx [? _].
    + split; [|by rewrite extblock_val_body; cbn [b_header b_transactions b_uncles]; rewrite Ebv].
      unfold clean_block. cbn. f_equal. clear -Ht. induction Ht as [|tx l [_ E] _ IH]; [done|]. simpl. by f_equal.
  - intros (Hok & Hc & He'). destruct (H2 _ He') as [[= ->] _]. rewrite Hc, extblock_val_body in Ev.
    rewrite (codec_back _ _ _ _ extblock_codec) in Ev by (by apply clean_block_ok). injection Ev as <- <- <-. f_equal. symmetry. exact Hc.
Qed.

(** ** Receipts *)

Lemma DecodeBytes_into_eq {A} t (f : rval -> receiptError + A) b v :
  DecodeBytes t b = Done (inr v) -> DecodeBytes_into t f b = Done (f v).
Proof.
  unfold DecodeBytes, DecodeBytes_into. destruct (rlp_decode _ t _) as [[[err|v'] s]| |]; try done.
  cbn [outcome_bind]. destruct (0 <? len (rs_r s)); [done|]. intros [= ->]. by destruct (f v).
Qed.

(** A receipt has the root of the state, or a status. *)
Definition status_ok (r : Receipt) : Prop :=
  (r_PostState r = [] /\ (r_Status r = ReceiptStatusFailed \/ r_Status r = ReceiptStatusSuccessful)) \/
  len (r_PostState r) = 32.
Definition receipt_ok (r : Receipt) : Prop :=
  status_ok r /\ is_u64 (r_CumulativeGasUsed r) /\ length (r_Bloom r) = 256%nat /\ Forall log_ok (r_Logs r).
Definition receiptStorage_ok (r : Receipt) : Prop :=
  receipt_ok r /\ Forall storagelog_ok (r_Logs r) /\ is_hash (r_TxHash r) /\ is_addr (r_ContractAddress r) /\ is_u64 (r_GasUsed r).

(** What the encodings keep: next to a root, the status is lost. *)
Definition kept_status (r : Receipt) : Z := if decide (r_PostState r = []) then r_Status r else 0.
Definition consensus_part (r : Receipt) : Receipt :=
  mkReceipt (r_PostState r) (kept_status r) (r_CumulativeGasUsed r) (r_Bloom r) (map clear_log (r_Logs r)) 0%N 0%N 0.
Definition storage_part (r : Receipt) : Receipt :=
  mkReceipt (r_PostState r) (kept_status r) (r_CumulativeGasUsed r) (r_Bloom r) (r_Logs r) (r_TxHash r)
    (r_ContractAddress r) (r_GasUsed r).

Lemma setStatus_encoding r :
  status_ok r -> setStatus (statusEncoding r) Receipt_zero = inr (r_set_status (r_PostState r) (kept_status r) Receipt_zero).
Proof.
  intros [[Ep Hs]|Hl]; unfold statusEncoding, kept_status.
  - rewrite Ep. by destruct Hs as [-> | ->].
  - assert (r_PostState r <> []) by (intros E; by rewrite E in Hl).
    destruct (Z.eqb_spec (len (r_PostState r)) 0); [lia|]. unfold setStatus.
    rewrite decide_False by (intros E; by rewrite E in Hl). rewrite decide_False by done. rewrite Hl. cbn [Z.eqb Pos.eqb].
    by rewrite decide_False.
Qed.

Definition logs_codec := codec_slice _ _ _ _ log_codec.
Definition storagelogs_codec := codec_slice _ _ _ _ storagelog_codec.
Lemma clear_logs_val ls : map log_val ls = map log_val (map clear_log ls).
Proof. by rewrite map_map. Qed.
Lemma clear_logs_ok ls : Forall log_ok ls -> Forall (fun l => log_ok l /\ l = clear_log l) (map clear_log ls).
Proof. intros H. apply Forall_map. by eapply Forall_impl; [exact H|]. Qed.

Lemma receipt_has_type r :
  is_u64 (r_CumulativeGasUsed r) -> length (r_Bloom r) = 256%nat -> has_type receipt_t (receipt_val r).
Proof.
  intros ? Hb. apply (array_type 256) in Hb; [|done].
  assert (has_type (SliceT log_t) (VList (map log_val (r_Logs r)))).
  { cbn [has_type]. apply Forall_map, Forall_forall. intros l _. apply log_has_type. }
  apply struct_type. auto.
Qed.
Lemma receiptStorage_has_type r : receiptStorage_ok r -> has_type receiptStorage_t (receiptStorage_val r).
Proof.
  intros ((_ & ? & Hb & _) & Hl & ? & ? & ?). pose proof (codec_type _ _ _ _ storagelogs_codec _ Hl) as Ht.
  assert (has_type (ArrayT 256) (VBytes (r_Bloom r))) by (by apply array_type). apply struct_type. auto 20.
Qed.
Lemma receipt_of_val_spec r : receipt_ok r -> receipt_of_val (receipt_val r) = inr (consensus_part r).
Proof.
  intros (Hs & _ & _ & Hl). unfold receipt_val, receipt_of_val. rewrite clear_logs_val, (codec_back _ _ _ _ logs_codec) by (by apply clear_logs_ok).
  by rewrite setStatus_encoding.
Qed.
Lemma receiptStorage_of_val_spec r :
  receiptStorage_ok r -> receiptStorage_of_val (receiptStorage_val r) = inr (storage_part r).
Proof.
  intros ((Hs & _) & Hl & Ht & Ha & _). unfold receiptStorage_val, receiptStorage_of_val.
  rewrite (codec_back _ _ _ _ storagelogs_codec), (codec_back _ _ _ _ hash_codec) by done.
  rewrite setStatus_encoding, Address_Bytes_back by done. done.
Qed.
Lemma roundtrip_into {A} t v (f : rval -> receiptError + A) x :
  wf_type t = true -> has_type t v -> f v = inr x -> len (enc t v) < 2 ^ 63 ->
  exists e, EncodeToBytes t v = Done (inr e) /\ DecodeBytes_into t f e = Done (inr x).
Proof.
  intros Hwf Ht Ef Hl. exists (enc t v). split; [apply EncodeToBytes_spec; [done|lia]|].
  destruct (DecodeBytes_spec t (enc t v) Hwf Hl) as (res & E & H). pose proof (proj2 (H v) (enc_encodes t v Ht)) as ->.
  erewrite DecodeBytes_into_eq by done. by rewrite Ef.
Qed.

(** ** Sizes *)

Lemma enc_list_bound p : len p < 2 ^ 64 -> len (enc_list p) <= 9 + len p.
Proof. intros H. unfold enc_list. rewrite len_app. pose proof (len_nonneg p). pose proof (puthead_range 0xC0 0xF7 (len p)). lia. Qed.
Lemma enc_str_small b : len b < 56 -> len (enc_str b) <= 1 + len b.
Proof.
  intros Hl. pose proof (len_nonneg b). destruct (enc_str_cases b) as [(x & -> & _ & ->)|[-> _]]; [done|].
  rewrite len_app. unfold puthead. destruct (Z.ltb_spec (len b) 56); [|lia]. unfold len at 1. simpl. lia.
Qed.

(** The roots and the filter of a header have a fixed size. *)
Lemma len_enc_list_same p q : len p = len q -> len (enc_list p) = len (enc_list q).
Proof. intros E. unfold enc_list. by rewrite !len_app, E. Qed.
Lemma len_enc_str b c : len b = len c -> 1 < len b -> len (enc_str b) = len (enc_str c).
Proof.
  intros E Hb. assert (H : forall d, len d = len b -> enc_str d = puthead 0x80 0xB7 (len d) ++ d).
  { intros d Hd. destruct (enc_str_cases d) as [(x & -> & _)|[? _]]; [|done]. change (len [x]) with 1 in Hd. lia. }
  by rewrite (H b), (H c), !len_app, E by congruence.
Qed.
Lemma len_enc_hash a b : len (enc (ArrayT 32) (hash_val a)) = len (enc (ArrayT 32) (hash_val b)).
Proof. apply len_enc_str; unfold Hash_Bytes; by rewrite !len_be_fixed. Qed.
Lemma header_len a b c bl h :
  length bl = length (h_Bloom h) -> length (h_Bloom h) = 256%nat ->
  len (enc header_t (header_val (h_set_roots a b c bl h))) = len (enc header_t (header_val h)).
Proof.
  intros Hb H256. apply len_enc_list_same. unfold header_val, header_fields, h_set_roots.
  cbn [h_ParentHash h_UncleHash h_Coinbase h_Root h_TxHash h_ReceiptHash h_Bloom h_Difficulty h_Number h_GasLimit h_GasUsed h_Time
       h_Extra h_MixDigest h_Nonce].
  assert (HB : len (enc (ArrayT 256) (VBytes bl)) = len (enc (ArrayT 256) (VBytes (h_Bloom h)))).
  { apply len_enc_str; unfold len; lia. }
  pose proof (len_enc_hash a (h_UncleHash h)) as H1. pose proof (len_enc_hash b (h_TxHash h)) as H2.
  pose proof (len_enc_hash c (h_ReceiptHash h)) as H3. cbn [app zip_with concat]. rewrite !len_app. cbn [enc] in *. lia.
Qed.

(** The encoding of a transaction bounds what is signed of it. *)
Definition sig_enc (d : txdata) : bytes := concat (zip_with enc sigfields_t (sigfields d)).
Lemma more_fields_enc d ts l :
  enc (StructT (sigfields_t ++ ts)) (VList (sigfields d ++ l)) = enc_list (sig_enc d ++ concat (zip_with enc ts l)).
Proof. cbn [enc]. by rewrite zip_with_app, concat_app by done. Qed.
Lemma tx_enc_longer d : len (sig_enc d) < len (tx_enc d).
Proof.
  pose proof (more_fields_enc d [BigT; BigT; BigT] [VBig (td_V d); VBig (td_R d); VBig (td_S d)]) as E.
  change (tx_enc d = enc_list (sig_enc d ++ concat (zip_with enc [BigT; BigT; BigT] [VBig (td_V d); VBig (td_R d); VBig (td_S d)]))) in E.
  rewrite E.
  eapply Z.le_lt_trans; [|apply enc_list_longer]. rewrite len_app.
  pose proof (len_nonneg (concat (zip_with enc [BigT; BigT; BigT] [VBig (td_V d); VBig (td_R d); VBig (td_S d)]))). lia.
Qed.
Lemma payload_bound s d :
  len (tx_enc d) < 2 ^ 63 -> (forall c m, s = EIP155Signer c m -> 0 <= c < 2 ^ 256) -> fits_rlp s d.
Proof.
  intros Hl Hc. pose proof (tx_enc_longer d) as Hs. unfold fits_rlp, payload.
  assert (H0 : len (enc_list (sig_enc d)) < 2 ^ 64).
  { eapply Z.le_lt_trans; [apply enc_list_bound; lia|lia]. }
  destruct s as [| |c m]; [exact H0|exact H0|]. specialize (Hc c m eq_refl).
  unfold signed_t, signed_val. rewrite more_fields_enc.
  assert (Hx : len (concat (zip_with enc [BigT; UintT 64; UintT 64] [VBig c; VUint 0; VUint 0])) <= 100).
  { cbn [zip_with concat enc]. rewrite !len_app. pose proof (big_Bytes_len_bound c 32 ltac:(lia) ltac:(lia)).
    pose proof (enc_str_small (big_Bytes c) ltac:(lia)). change (len (enc_str (big_Bytes 0))) with 1. change (len []) with 0. lia. }
  eapply Z.le_lt_trans; [apply enc_list_bound; rewrite len_app; lia|rewrite len_app; lia].
Qed.
Lemma payload_small d : len (tx_enc d) < 2 ^ 62 -> len (td_Payload d) < 2 ^ 62.
Proof.
  intros H. pose proof (tx_enc_longer d). apply len_enc_str_lt.
  assert (len (enc_str (td_Payload d)) <= len (sig_enc d)); [|lia].
  unfold sig_enc. cbn [sigfields_t sigfields zip_with concat enc]. rewrite app_nil_r, !len_app.
  repeat match goal with |- context [len ?b] =>
    lazymatch goal with H : 0 <= len b |- _ => fail | _ => pose proof (len_nonneg b) end end.
  lia.
Qed.

(** ** Hashes and roots *)

Section Hashes.
Context `{CR : Crypto} `{MT : MerkleTrie}.

Lemma Header_Hash_spec h :
  header_shape h -> len (enc header_t (header_val h)) < 2 ^ 64 ->
  Header_Hash h = Done (Keccak256Hash (enc header_t (header_val h))).
Proof. intros Hh Hl. apply rlpHash_spec; [by apply header_has_type|done]. Qed.

(** The hash of a header, and of a block whose cache is right. *)
Definition header_id (h : Header) : Hash := Keccak256Hash (enc header_t (header_val h)).
Definition encodable (h : Header) : Prop := header_shape h /\ len (enc header_t (header_val h)) < 2 ^ 64.
Definition encodable_block (b : Block) : Prop :=
  encodable (b_header b) /\ Forall encodable (b_uncles b) /\ forall h, b_hash b = Some h -> h = header_id (b_header b).
Definition block_id (b : Block) : Hash := header_id (b_header b).
Lemma Block_Hash_id b : encodable_block b -> exists b', Block_Hash b = Done (block_id b, b').
Proof.
  intros ([Hs Hl] & _ & Hh). unfold Block_Hash. destruct (b_hash b) as [h|]; [rewrite (Hh h eq_refl); by eexists|].
  rewrite Header_Hash_spec by done. by eexists.
Qed.

Lemma derive_loop_done items : forall vs i t,
  items = map Done vs -> 0 <= i -> i + len vs < 2 ^ 63 -> exists t', derive_loop items i t = Done t'.
Proof.
  induction items as [|x items IH]; intros vs i t E Hi Hl; [by eexists|]. destruct vs as [|v vs]; [done|]. injection E as -> ->.
  unfold len in Hl. cbn [length] in Hl. simpl.
  destruct (Encode_spec hash_Write eq (UintT 64) (VUint i) [] [] hash_Write_appends) as (w & -> & _);
    [apply uint64_type; unfold is_u64; lia| |done|].
  { cbn [enc]. pose proof (big_Bytes_len_bound i 8 ltac:(lia) ltac:(lia)). pose proof (enc_str_small (big_Bytes i) ltac:(lia)). lia. }
  cbn [outcome_bind]. apply (IH vs); [done|lia|unfold len; lia].
Qed.
End Hashes.
