(* ===== verification/Process.v ===== *)
(** Processing a block: core/evm.go, core/state_processor.go,
    core/block_validator.go and [NewEVM] of core/vm/evm.go.

    The consensus engine is code outside the repository, and the chain is
    what the processor sees of it: both are parameters.  A pointer argument
    that is written through ([gp], [usedGas], [statedb], the caches of [tx])
    is an argument and a result. *)
From S2P Require Import Prelude BigMath Params StateSpec Vm Precompiles Evm Interpreter StateObject Statedb StateFinal.
From S2P Require Import StateTransition Rlp Transaction BlockTypes.

(** ** Parameters *)

(** [Prepare] and [Finalize] write to the header and the state they are
    given; [Finalize] returns the block to be sealed. *)
Class Engine (S : Type) := {
  engineError : Type;
  engine_Author : Header -> Address;
  engine_VerifyUncles : Block -> option engineError;
  engine_Prepare : Header -> engineError + Header;
  engine_Finalize : Header -> list Transaction -> list Header -> list Receipt -> S -> (engineError + Block) * Header * S
}.

(** The methods of the chain that are called. *)
Record ChainContext := mkChain {
  cc_GetHeader : Hash -> Z -> option Header;
  cc_HasBlock : Hash -> Z -> bool;
  cc_HasBlockAndState : Hash -> Z -> bool
}.

(** The fields of [vm.Config] that the machine reads. *)
Record vmConfig := mkVmConfig { cfg_NoRecursion : bool; cfg_EnablePreimageRecording : bool }.

(** ** core/evm.go *)

(** The loop of the function that [GetHashFn] returns. *)
Fixpoint GetHashFn_loop (fuel : nat) (chain : ChainContext) (n : Z) (header : option Header) (cache : gmap Z Hash)
  : outcome (Hash * gmap Z Hash) :=
  match header with
  | None => Done (0%N, cache)
  | Some h =>
      match fuel with
      | O => NoFuel
      | S fuel =>
          let num := u64 (NumberU64 h - 1) in
          let cache := <[num := h_ParentHash h]> cache in
          if n =? num then Done (h_ParentHash h, cache)
          else GetHashFn_loop fuel chain n (cc_GetHeader chain (h_ParentHash h) num) cache
      end
  end.

(** A call of that function; the map is made by the first one. *)
Definition GetHashFn_call (fuel : nat) (ref : Header) (chain : ChainContext) (n : Z) (cache : option (gmap Z Hash))
  : outcome (Hash * option (gmap Z Hash)) :=
  let num := u64 (NumberU64 ref - 1) in
  let cache := default {[ num := h_ParentHash ref ]} cache in
  match cache !! n with
  | Some hash => Done (hash, Some cache)
  | None =>
      let* r := GetHashFn_loop fuel chain n (cc_GetHeader chain (h_ParentHash ref) num) cache in
      Done (r.1, Some r.2)
  end.

(** The function without its cache, which no call can tell from it. *)
Definition hash_fuel (ref : Header) : nat := S (Z.to_nat (NumberU64 ref)).
Definition GetHashFn (ref : Header) (chain : ChainContext) (n : Z) : Hash :=
  match GetHashFn_call (hash_fuel ref) ref chain n None with Done r => r.1 | _ => 0%N end.

Definition NewEVMContext {S} `{EN : Engine S} (msg : Message) (header : Header) (chain : ChainContext) (author : option Address)
  : Context :=
  {| GetHash := GetHashFn header chain;
     Origin := msg_From msg;
     Coinbase := match author with None => engine_Author header | Some a => a end;
     BlockNumber := h_Number header;
     Time := h_Time header;
     Difficulty := h_Difficulty header;
     GasLimit := h_GasLimit header;
     GasPrice := msg_GasPrice msg |}.

(** ** core/vm/evm.go *)

Definition NewEVM_env (ctx : Context) (config : ChainConfig) (cfg : vmConfig) : Env :=
  {| env_ctx := ctx; env_chainConfig := config; env_NoRecursion := cfg_NoRecursion cfg;
     env_EnablePreimageRecording := cfg_EnablePreimageRecording cfg |}.
Definition NewEVM {S} (s : S) : EVM S :=
  {| evm_StateDB := s; evm_depth := 0; evm_readOnly := false; evm_returnData := []; evm_callGasTemp := 0;
     evm_jumpdests := ∅; evm_abort := [] |}.

(** ** core/state_processor.go *)

Inductive procError :=
| errSender (err : sigError)
| errApply (err : txError).

Section Process.
Context `{DB : Database} `{CR : Crypto} {RO : RangeOrder} `{EN : !Engine Statedb} `{MT : MerkleTrie}.

(** What [ApplyTransaction] writes through its pointers. *)
Record applyState := mkApply {
  ap_gp : GasPool;
  ap_state : Statedb;
  ap_usedGas : Z
}.

(** The receipt of a transaction that used [gas] gas. *)
Definition make_receipt (root : bytes) (failed : bool) (usedGas gas : Z) (hash : Hash) (msg : Message) (logs : list Log)
  : outcome Receipt :=
  let r := NewReceipt root failed usedGas in
  let r := {| r_PostState := r_PostState r; r_Status := r_Status r; r_CumulativeGasUsed := r_CumulativeGasUsed r;
              r_Bloom := r_Bloom r; r_Logs := logs; r_TxHash := hash;
              r_ContractAddress := match msg_To msg with
                                   | None => CreateAddress (msg_From msg) (msg_Nonce msg)
                                   | Some _ => r_ContractAddress r
                                   end;
              r_GasUsed := gas |} in
  let* bloom := CreateBloom [r] in
  Done {| r_PostState := r_PostState r; r_Status := r_Status r; r_CumulativeGasUsed := r_CumulativeGasUsed r;
          r_Bloom := bloom; r_Logs := r_Logs r; r_TxHash := r_TxHash r; r_ContractAddress := r_ContractAddress r;
          r_GasUsed := r_GasUsed r |}.

(** [fuel] is that of the interpreter. *)
Definition ApplyTransaction (fuel : nat) (config : ChainConfig) (chain : ChainContext) (author : option Address)
    (header : Header) (cfg : vmConfig) (tx : Transaction) (st : applyState)
  : outcome ((procError + Receipt * Z) * Transaction * applyState) :=
  let* m := AsMessage (MakeSigner config (h_Number header)) tx in
  match m with
  | (inl err, tx) => Done (inl (errSender err), tx, st)
  | (inr msg, tx) =>
      let e := NewEVM_env (NewEVMContext msg header chain author) config cfg in
      let* r := ApplyMessage e (Run e fuel) (NewEVM (ap_state st)) msg (ap_gp st) in
      let '(res, t) := r in
      match res with
      | inl err => Done (inl (errApply err), tx, mkApply (st_gp t) (st_state t) (ap_usedGas st))
      | inr (_, gas, failed) =>
          let* (root, s) :=
            if IsByzantium config (h_Number header) then let* s := sd_Finalise true (st_state t) in Done ([], s)
            else let* (root, s) := sd_IntermediateRoot (IsEIP158 config (h_Number header)) (st_state t) in
                 Done (Hash_Bytes root, s) in
          let usedGas := u64 (ap_usedGas st + gas) in
          let* h := tx_Hash tx in
          let* receipt := make_receipt root failed usedGas gas h.1 msg (sd_GetLogs h.1 s) in
          Done (inr (receipt, gas), h.2, mkApply (st_gp t) s usedGas)
      end
  end.

(** The loop of [Process] over the transactions, which are numbered from
    [i]. *)
Fixpoint process_txs (fuel : nat) (config : ChainConfig) (chain : ChainContext) (header : Header) (cfg : vmConfig)
    (bhash : Hash) (i : Z) (txs : list Transaction) (st : applyState)
  : outcome ((procError + list Receipt * list Log) * list Transaction * applyState) :=
  match txs with
  | [] => Done (inr ([], []), [], st)
  | tx :: txs =>
      let* h := tx_Hash tx in
      let st := mkApply (ap_gp st) (sd_Prepare h.1 bhash i (ap_state st)) (ap_usedGas st) in
      let* r := ApplyTransaction fuel config chain None header cfg h.2 st in
      match r with
      | (inl err, tx, st) => Done (inl err, tx :: txs, st)
      | (inr (receipt, _), tx, st) =>
          let* r := process_txs fuel config chain header cfg bhash (i + 1) txs st in
          let '(res, txs, st) := r in
          Done (match res with
                | inl err => inl err
                | inr (receipts, logs) => inr (receipt :: receipts, r_Logs receipt ++ logs)
                end, tx :: txs, st)
      end
  end.

(** Receipts, logs and gas used; the block with its caches, and the state. *)
Definition Process (fuel : nat) (config : ChainConfig) (chain : ChainContext) (block : Block) (s : Statedb) (cfg : vmConfig)
  : outcome ((procError + list Receipt * list Log * Z) * Block * Statedb) :=
  let* gp := AddGas (h_GasLimit (b_header block)) 0 in
  let* bh := match b_transactions block with [] => Done (0%N, block) | _ => Block_Hash block end in
  let* r := process_txs fuel config chain (b_header block) cfg bh.1 0 (b_transactions block) (mkApply gp s 0) in
  let '(res, txs, st) := r in
  let block := mkBlock (b_header block) (b_uncles block) txs (b_hash bh.2) (b_size block) in
  match res with
  | inl err => Done (inl err, block, ap_state st)
  | inr (receipts, logs) =>
      Done (inr (receipts, logs, ap_usedGas st), block,
            (engine_Finalize (b_header block) txs (b_uncles block) receipts (ap_state st)).2)
  end.

(** ** core/block_validator.go *)

Inductive validateError :=
| ErrKnownBlock
| ErrUnknownAncestor
| ErrPrunedAncestor
| errVerifyUncles (err : engineError)
| errUncleHash
| errTxHash
| errGasUsed
| errBloom
| errReceiptHash
| errMerkleRoot.

Definition ValidateBody (chain : ChainContext) (block : Block) : outcome (option validateError) :=
  let header := b_header block in
  let* bh := Block_Hash block in
  let parent := u64 (NumberU64 header - 1) in
  if cc_HasBlockAndState chain bh.1 (NumberU64 header) then Done (Some ErrKnownBlock)
  else if negb (cc_HasBlockAndState chain (h_ParentHash header) parent) then
    if negb (cc_HasBlock chain (h_ParentHash header) parent) then Done (Some ErrUnknownAncestor)
    else Done (Some ErrPrunedAncestor)
  else
    match engine_VerifyUncles bh.2 with
    | Some err => Done (Some (errVerifyUncles err))
    | None =>
        let* uh := CalcUncleHash (b_uncles block) in
        if decide (uh <> h_UncleHash header) then Done (Some errUncleHash)
        else
          let* th := DeriveSha_txs (b_transactions block) in
          Done (if decide (th <> h_TxHash header) then Some errTxHash else None)
    end.

Definition ValidateState (config : ChainConfig) (block : Block) (s : Statedb) (receipts : list Receipt) (usedGas : Z)
  : outcome (option validateError * Statedb) :=
  let header := b_header block in
  if decide (h_GasUsed header <> usedGas) then Done (Some errGasUsed, s)
  else
    let* rbloom := CreateBloom receipts in
    if decide (rbloom <> h_Bloom header) then Done (Some errBloom, s)
    else
      let* receiptSha := DeriveSha_receipts receipts in
      if decide (receiptSha <> h_ReceiptHash header) then Done (Some errReceiptHash, s)
      else
        let* (root, s) := sd_IntermediateRoot (IsEIP158 config (h_Number header)) s in
        Done (if decide (h_Root header <> root) then Some errMerkleRoot else None, s).
End Process.

(** [params.TargetGasLimit] is a variable; this is its initial value. *)
Definition GenesisGasLimit : Z := 50000000.

Definition CalcGasLimit (TargetGasLimit : Z) (parent : Header) : Z :=
  let contrib := u64 (h_GasUsed parent + h_GasUsed parent / 2) / GasLimitBoundDivisor in
  let decay := u64 (h_GasLimit parent / GasLimitBoundDivisor - 1) in
  let limit := u64 (u64 (h_GasLimit parent - decay) + contrib) in
  let limit := if limit <? MinGasLimit then MinGasLimit else limit in
  if limit <? TargetGasLimit then
    let limit := u64 (h_GasLimit parent + decay) in
    if TargetGasLimit <? limit then TargetGasLimit else limit
  else limit.
