(* ===== verification/ProcessFacts.v ===== *)
(** Applying transactions one after the other. *)
From S2P Require Import Prelude BigMath Params Machine StateSpec Supply StateRel MachineFacts Vm Precompiles PrecompileFacts.
From S2P Require Import Evm Interpreter CallFacts RunSafe StateObject Statedb StateFinal StateUndo StateRefine StateRevert.
From S2P Require Import StateFinalFacts StateTransition TransitionFacts Rlp RlpFacts RlpWriter Transaction TxFacts BlockTypes.
From S2P Require Import BlockFacts Process.

(** ** Worlds between transactions *)

(** [Prepare] on worlds. *)
Definition w_prepare (th bh : Hash) (ti : Z) (w : world) : world :=
  {| w_acct := w_acct w; w_refund := w_refund w; w_logs := w_logs w; w_logSize := w_logSize w;
     w_preimages := w_preimages w; w_txhash := th; w_bhash := bh; w_txIndex := ti |}.

Section Between.
Context `{DS : DatabaseSpec} {TS : TrieSpec} {RO : RangeOrder}.
Implicit Types (s : Statedb) (w : world).

Lemma wundo_prepare th bh ti en w : wundo en (w_prepare th bh ti w) = w_prepare th bh ti (wundo en w).
Proof. destruct en; try done; simpl; unfold upd_some; simpl; by destruct (w_acct w _). Qed.
Lemma jok_prepare tr th bh ti ens : forall w, jok tr ens w -> jok tr ens (w_prepare th bh ti w).
Proof.
  induction ens as [|en ens IH]; intros w; simpl; [done|]. intros [Hu Hj]. split; [by destruct en|].
  rewrite wundo_prepare. by apply IH.
Qed.

(** The state between two transactions: no revision is valid. *)
Definition between s : Prop := state_ok Keccak256Hash s /\ saves (abs s) = [].

Lemma Prepare_spec th bh ti s :
  between s -> between (sd_Prepare th bh ti s) /\
    cur (abs (sd_Prepare th bh ti s)) = w_prepare th bh ti (cur (abs s)).
Proof.
  intros [(I & W & _) Hs]. split; [|done]. split; [|by apply map_eq_nil in Hs as Hr; simpl; rewrite Hr].
  split; [|split; [done|by simpl; apply map_eq_nil in Hs as ->; constructor]].
  destruct I as (O & J & R & L & C & B). split; [done|]. split; [|done].
  exact (jok_prepare (sd_trie s) th bh ti (rev (jentries s)) (w_of s) J).
Qed.

Lemma w_finalise_ok del D w : world_ok Keccak256Hash w -> world_ok Keccak256Hash (w_finalise del D w).
Proof.
  intros [Ha _]. split; [|done]. intros a. specialize (Ha a). unfold w_balance, w_code, w_codehash in *. simpl.
  destruct (w_acct w a) as [x|]; [|done]. destruct (_ && _); [|done]. simpl. split; [done|]. by split; [|left].
Qed.
Lemma w_finalise_no_mint del D w : world_ok Keccak256Hash w -> no_mint w (w_finalise del D w).
Proof.
  intros [Ha _] n Hn l Hl. specialize (Hn l Hl). etransitivity; [|exact Hn]. clear Hn Hl.
  induction l as [|a l IH]; simpl; [done|]. destruct (Ha a) as [Hb _]. unfold w_balance in *. simpl in *.
  destruct (w_acct w a) as [x|]; [|lia]. destruct (_ && _); simpl in *; lia.
Qed.

Lemma Finalise_between del s :
  state_ok Keccak256Hash s ->
  exists s', sd_Finalise del s = Done s' /\ between s' /\ no_mint (cur (abs s)) (cur (abs s')) /\
  (forall h, sd_GetLogs h s' = w_logs (cur (abs s)) h).
Proof.
  intros (I & W & _). destruct (finalised_spec del s I ltac:(done)) as (I' & Ew & Es & _). simpl in W.
  exists (finalised del s). split; [apply Finalise_done; [apply I|intros a; apply W]|].
  change (saves (abs (finalised del s)) = []) in Es. split; [|split].
  - split; [|exact Es]. split; [done|]. split; [|by rewrite Es; constructor].
    change (cur (abs (finalised del s))) with (w_of (finalised del s)). rewrite Ew. by apply w_finalise_ok.
  - change (no_mint (w_of s) (w_of (finalised del s))). rewrite Ew. by apply w_finalise_no_mint.
  - intros h. destruct Ew as (_ & _ & El & _). exact (El h).
Qed.
End Between.

(** ** Messages *)

Section Messages.
Context {S : Type} `{SDB : StateDB S} `{CR : Crypto} {CS : CryptoSpec} `{SP : !StateDBSpec S Keccak256Hash}.
Implicit Types st : StateTransition S.

(** More gas than the block has left is refused, whatever the amount. *)
Lemma buyGas_refused st :
  state_ok Keccak256Hash (st_state st) -> st_gp st < msg_Gas (st_msg st) ->
  exists err st', buyGas st = (Some err, st') /\ (forall v, err <> errVm v) /\ st_read st st'.
Proof.
  intros Hs Hg. unfold buyGas. set (from := msg_From (st_msg st)).
  destruct (GetBalance_reads _ False from _ Hs) as [_ R1]. destruct (GetBalance_spec from _ (proj1 Hs)) as (_ & A1 & _).
  destruct (GetBalance from (st_state st)) as [bal s1]. cbn [fst snd] in *. pose proof (srel_ok _ _ _ _ R1) as Hs1.
  destruct (bal <? _); [by eexists _, _|]. unfold SubGas. cbn [st_gp st_set_state st_set_evm].
  destruct (Z.ltb_spec (st_gp st) (msg_Gas (st_msg st))); [|lia]. by eexists _, _.
Qed.
Lemma preCheck_refused st :
  state_ok Keccak256Hash (st_state st) -> st_gp st < msg_Gas (st_msg st) ->
  exists err st', preCheck st = (Some err, st') /\ (forall v, err <> errVm v) /\ st_read st st'.
Proof.
  intros Hs Hg. unfold preCheck. destruct (msg_CheckNonce (st_msg st)); [|by apply buyGas_refused].
  set (from := msg_From (st_msg st)).
  destruct (GetNonce_reads _ False from _ Hs) as [_ R1]. destruct (GetNonce_spec from _ (proj1 Hs)) as (_ & A1 & _).
  destruct (GetNonce from (st_state st)) as [nonce s1]. cbn [fst snd] in *. pose proof (srel_ok _ _ _ _ R1) as Hs1.
  destruct (nonce <? _); [by eexists _, _|]. destruct (_ <? nonce); [by eexists _, _|].
  destruct (buyGas_refused (st_set_state s1 st)) as (err & st' & -> & Hne & E & Hok & A2); [done|done|].
  exists err, st'. split; [done|]. split; [done|]. split; [by rewrite E|]. split; [done|]. by rewrite A2.
Qed.

(** Any message on the state between two transactions. *)
Lemma ApplyMessage_ok (e : Env) fuel (s : S) msg gp :
  env_ok e -> state_ok Keccak256Hash s -> small (msg_Data msg) -> 0 <= msg_Gas msg -> 0 <= msg_GasPrice msg ->
  0 <= msg_Value msg -> 0 <= gp < 2 ^ 62 -> gp < Z.of_nat fuel ->
  owp (ApplyMessage e (Run e fuel) (NewEVM s) msg gp) (fun '(r, st') =>
    state_ok Keccak256Hash (st_state st') /\ no_mint (cur (abs s)) (cur (abs (st_state st'))) /\
    match r with
    | inr (ret, used, failed) => 21000 <= 2 * used + 1 /\ used <= msg_Gas msg <= gp /\ st_gp st' = gp - used
    | inl err => keeps s (st_state st') /\
        match err with
        | errVm _ => st_gp st' = gp - msg_Gas msg /\ 0 <= st_gp st'
        | _ => st_gp st' = gp /\ abs (st_state st') ≡ abs s
        end
    end).
Proof.
  intros He Hs Hd Hg Hp Hv Hgp Hfuel. unfold ApplyMessage. set (st := NewStateTransition _ _ _).
  destruct (Z.lt_ge_cases gp (msg_Gas msg)) as [Hlt|Hge].
  - destruct (preCheck_refused st) as (err & st' & E & Hne & E' & Hok & A); [done|done|]. unfold TransitionDb. rewrite E.
    cbn [owp]. split; [done|]. change (st_state st) with s in A. split; [by rewrite A|].
    split; [apply keeps_same; by destruct A|]. destruct err; try by destruct (Hne err). all: by split; [rewrite E'|].
  - assert (Hst : st_ok st).
    { split; [split; [done|split; [apply cache_ok_empty|done]]|]. do 2 (split; [done|]). split; [cbn; lia|].
      do 2 (split; [done|]). unfold is_u64. cbn. lia. }
    eapply owp_mono; [apply (TransitionDb_ok e He fuel st Hst eq_refl); cbn; lia|].
    intros [r st'] (Hok & Hm & Hr). split; [done|]. split; [done|]. change (st_state st) with s in *.
    destruct r as [[]|[[ret used] failed]].
    1-4: destruct Hr as [? A]; split; [apply keeps_same; by destruct A|done].
    + destruct Hr as (? & ? & ?). done.
    + destruct Hr as (_ & Hi & ? & ?). cbn in Hi.
      pose proof (intrinsic_pos (msg_Data msg) (bool_decide (msg_To msg = None)) (env_IsHomestead e)). cbn in *. lia.
Qed.
End Messages.

(** ** Transactions *)

(** The chain identifier is a number of at most 256 bits. *)
Definition config_ok (config : ChainConfig) : Prop := forall c, ChainId config = Some c -> 0 <= c < 2 ^ 256.
Lemma MakeSigner_ok config num :
  config_ok config ->
  signer_ok (MakeSigner config num) /\ (forall c m, MakeSigner config num = EIP155Signer c m -> 0 <= c < 2 ^ 256).
Proof.
  intros Hc. unfold MakeSigner. destruct (IsEIP155 _ _); [|by destruct (IsHomestead _ _)].
  unfold NewEIP155Signer. destruct (ChainId config) as [c|] eqn:E; cbn [default].
  - specialize (Hc c E). split; [simpl; lia|]. by intros ? ? [= <- _].
  - split; [done|]. intros ? ? [= <- _]. done.
Qed.

Section Apply.
Context `{CR : Crypto} `{CS : !CryptoSpec} `{EC : Ecdsa} `{ES : !EcdsaSpec}.
Context `{DB : Database} {DS : DatabaseSpec} {TS : TrieSpec} {RO : RangeOrder} `{EN : !Engine Statedb}.

(** A transaction that fits into memory and whose caches are right. *)
Definition runnable (tx : Transaction) : Prop :=
  td_ok (tx_data tx) /\ len (tx_enc (tx_data tx)) < 2 ^ 62 /\ caches_ok tx.
Definition hash_of (tx : Transaction) : Hash := Keccak256Hash (tx_enc (tx_data tx)).

Lemma runnable_Hash tx : runnable tx -> exists tx', tx_Hash tx = Done (hash_of tx, tx') /\ runnable tx' /\ tx_data tx' = tx_data tx.
Proof.
  intros (Hd & Hl & Hc). destruct (tx_Hash_spec tx) as (tx' & E & Ed & Hc'); [done|lia|done|].
  exists tx'. split; [done|]. split; [|done]. unfold runnable. by rewrite Ed.
Qed.
Lemma runnable_AsMessage config num tx :
  config_ok config -> runnable tx ->
  exists res tx', AsMessage (MakeSigner config num) tx = Done (res, tx') /\ runnable tx' /\ tx_data tx' = tx_data tx /\
    match res with
    | inl _ => True
    | inr msg => let d := tx_data tx in
        signer_Sender (MakeSigner config num) tx = Done (inr (msg_From msg)) /\
        msg = mkMessage (msg_From msg) (td_Recipient d) (td_Price d) (td_GasLimit d) (td_Amount d) (td_AccountNonce d) true (td_Payload d)
    end.
Proof.
  intros Hcfg (Hd & Hl & Hc). destruct (MakeSigner_ok config num Hcfg) as [Hs Hid].
  assert (Hf : tx_fits (MakeSigner config num) (tx_data tx)).
  { split; [lia|]. split; apply payload_bound; try done; lia. }
  destruct (Sender_spec _ tx Hd Hs Hf Hc) as (res & tx' & E0 & E & Ed & Hc'). unfold AsMessage. rewrite E. cbn [outcome_bind].
  assert (Hr : runnable tx') by (unfold runnable; by rewrite Ed).
  destruct res as [err|from]; eexists _, tx'; (split; [done|]); by repeat (split; [done|]).
Qed.

(** What the receipt of a transaction says. *)
Record receipt_of (tx : Transaction) (used gas : Z) (r : Receipt) : Prop := {
  ro_cumulative : r_CumulativeGasUsed r = used;
  ro_gas : r_GasUsed r = gas;
  ro_hash : r_TxHash r = hash_of tx;
  ro_status : status_ok r;
  ro_bloom : r_Bloom r = be_fixed 256 (filter_of (logs_items (r_Logs r)))
}.
Lemma make_receipt_spec root failed used gas tx msg logs :
  root = [] \/ len root = 32 ->
  exists r, make_receipt root failed used gas (hash_of tx) msg logs = Done r /\ receipt_of tx used gas r /\
    r_Logs r = logs /\ r_PostState r = root /\ r_Status r = (if failed then 0 else 1) /\
    r_ContractAddress r = match msg_To msg with None => CreateAddress (msg_From msg) (msg_Nonce msg) | Some _ => 0%N end.
Proof.
  intros Hroot. unfold make_receipt. set (r0 := {| r_PostState := _ |}).
  assert (exists b, CreateBloom [r0] = Done b /\ b = be_fixed 256 (filter_of (logs_items logs))) as (b & -> & Eb).
  { eexists. split; [apply CreateBloom_eq|]. unfold receipts_items. cbn [map concat]. by rewrite app_nil_r. }
  cbn [outcome_bind]. eexists. split; [done|]. cbn. split; [|done]. split; cbn; try done.
  destruct Hroot as [-> |]; [left|by right]. split; [done|]. destruct failed; [by left|by right].
Qed.

(** The state and the gas pool after a transaction, or after an error. *)
Definition applied (tx : Transaction) (st : applyState) (res : procError + Receipt * Z) (st' : applyState) : Prop :=
  no_mint (cur (abs (ap_state st))) (cur (abs (ap_state st'))) /\
  match res with
  | inr (r, gas) =>
      between (ap_state st') /\ receipt_of tx (ap_usedGas st') gas r /\
      21000 <= 2 * gas + 1 /\ gas <= td_GasLimit (tx_data tx) <= ap_gp st /\
      ap_gp st' = ap_gp st - gas /\ ap_usedGas st' = ap_usedGas st + gas
  | inl err =>
      state_ok Keccak256Hash (ap_state st') /\ keeps (ap_state st) (ap_state st') /\ ap_usedGas st' = ap_usedGas st /\
      match err with
      | errApply (errVm _) => ap_gp st' = ap_gp st - td_GasLimit (tx_data tx) /\ 0 <= ap_gp st'
      | _ => ap_gp st' = ap_gp st /\ abs (ap_state st') ≡ abs (ap_state st)
      end
  end.

Definition room (fuel : nat) (st : applyState) : Prop :=
  0 <= ap_gp st < 2 ^ 62 /\ ap_gp st < Z.of_nat fuel /\ 0 <= ap_usedGas st /\ ap_usedGas st + ap_gp st < two64.

Lemma ApplyTransaction_ok fuel config chain author header cfg tx st :
  collision_free -> config_ok config -> runnable tx -> state_ok Keccak256Hash (ap_state st) -> room fuel st ->
  exists res tx' st', ApplyTransaction fuel config chain author header cfg tx st = Done (res, tx', st') /\
    runnable tx' /\ tx_data tx' = tx_data tx /\ applied tx st res st'.
Proof.
  intros Hfree Hcfg Htx Hs (Hgp & Hfuel & Hu & Hsum). unfold ApplyTransaction.
  destruct (runnable_AsMessage config (h_Number header) tx Hcfg Htx) as (m & tx1 & -> & Htx1 & Ed1 & Hm). cbn [outcome_bind].
  destruct m as [err|msg].
  { eexists _, _, _. split; [done|]. split; [done|]. split; [done|]. split; [done|]. split; [done|].
    split; [by apply keeps_same|]. done. }
  destruct Hm as [_ Em]. pose proof Htx as (Hd & Hl & _). pose proof (payload_small _ Hl) as Hpl. destruct Hd as [? ? ok_gas ? ? ?].
  set (e := NewEVM_env _ config cfg).
  assert (Egas : msg_Gas msg = td_GasLimit (tx_data tx)) by (by rewrite Em).
  assert (He : env_ok e) by (unfold env_ok; cbn; by rewrite Em).
  destruct (owp_done _ _ Hfree (ApplyMessage_ok e fuel (ap_state st) msg (ap_gp st) He Hs
    ltac:(rewrite Em; done) ltac:(rewrite Egas; apply ok_gas) ltac:(rewrite Em; done) ltac:(rewrite Em; done) Hgp Hfuel))
    as ([r t] & E & Hok & Hmint & Hr).
  rewrite E. cbn [outcome_bind].
  destruct r as [err|[[ret gas] failed]].
  { eexists _, _, _. split; [done|]. split; [done|]. split; [done|]. split; [done|]. destruct Hr as [Hk Hr].
    split; [done|]. split; [done|]. split; [done|]. rewrite Egas in Hr. by destruct err. }
  destruct Hr as (Hmin & Hgas & Egp). rewrite Egas in Hgas.
  set (rs := if IsByzantium _ _ then _ else _).
  assert (Hrs : exists root s, rs = Done (root, s) /\ (root = [] \/ len root = 32) /\ between s /\
                  no_mint (cur (abs (st_state t))) (cur (abs s))).
  { unfold rs, sd_IntermediateRoot. destruct (IsByzantium _ _).
    - destruct (Finalise_between true _ Hok) as (s & -> & Hb & Hm2 & _). cbn [outcome_bind]. eauto 10.
    - destruct (Finalise_between (IsEIP158 config (h_Number header)) _ Hok) as (s & -> & Hb & Hm2 & _). cbn [outcome_bind].
      do 2 eexists. split; [done|]. split; [right; apply len_be_fixed|done]. }
  destruct Hrs as (root & s & -> & Hroot & Hb & Hm2). cbn [outcome_bind].
  destruct (runnable_Hash tx1 Htx1) as (tx2 & E2 & Htx2 & Ed2). rewrite E2. cbn [outcome_bind fst snd].
  rewrite u64_small by (unfold is_u64; lia).
  destruct (make_receipt_spec root failed (ap_usedGas st + gas) gas tx1 msg (sd_GetLogs (hash_of tx1) s) Hroot)
    as (r & -> & Hro & _). cbn [outcome_bind].
  assert (Eh : hash_of tx1 = hash_of tx) by (unfold hash_of; by rewrite Ed1).
  eexists _, _, _. split; [done|]. split; [done|]. split; [congruence|]. split; [by etransitivity|].
  cbn [ap_state ap_gp ap_usedGas]. split; [done|]. split; [|done].
  destruct Hro as [? ? Hh ? ?]. split; try done. by rewrite Hh.
Qed.

(** ** Blocks *)

(** The receipts of transactions run one after the other from [used] gas on. *)
Fixpoint receipts_of (used : Z) (txs : list Transaction) (rs : list Receipt) : Prop :=
  match txs, rs with
  | [], [] => True
  | tx :: txs, r :: rs =>
      receipt_of tx (used + r_GasUsed r) (r_GasUsed r) r /\
      21000 <= 2 * r_GasUsed r + 1 /\ r_GasUsed r <= td_GasLimit (tx_data tx) /\
      receipts_of (used + r_GasUsed r) txs rs
  | _, _ => False
  end.
Definition gas_of (rs : list Receipt) : Z := foldr (fun r n => r_GasUsed r + n) 0 rs.

Lemma receipts_of_data used txs txs' rs :
  map tx_data txs' = map tx_data txs -> receipts_of used txs' rs -> receipts_of used txs rs.
Proof.
  revert used txs' rs. induction txs as [|tx txs IH]; intros used [|tx' txs'] [|r rs] E; try done.
  injection E as E1 E2. simpl. intros ([] & H1 & H2 & H3). rewrite E1 in H2. split; [|split; [done|split; [done|by eapply IH]]].
  split; try done. unfold hash_of in *. by rewrite <-E1.
Qed.

Lemma process_txs_ok fuel config chain header cfg bhash :
  collision_free -> config_ok config ->
  forall txs i st, Forall runnable txs -> between (ap_state st) -> room fuel st ->
  exists res txs' st', process_txs fuel config chain header cfg bhash i txs st = Done (res, txs', st') /\
    Forall runnable txs' /\ map tx_data txs' = map tx_data txs /\ state_ok Keccak256Hash (ap_state st') /\
    no_mint (cur (abs (ap_state st))) (cur (abs (ap_state st'))) /\
    match res with
    | inl _ => True
    | inr (rs, logs) =>
        between (ap_state st') /\ receipts_of (ap_usedGas st) txs rs /\ logs = concat (map r_Logs rs) /\
        ap_usedGas st' = ap_usedGas st + gas_of rs /\ ap_gp st' = ap_gp st - gas_of rs /\ 0 <= ap_gp st'
    end.
Proof.
  intros Hfree Hcfg txs. induction txs as [|tx txs IH]; intros i st Htxs Hb Hroom.
  { eexists _, _, _. split; [done|]. pose proof Hb as [? _]. do 3 (split; [done|]). split; [done|]. split; [done|]. simpl.
    destruct Hroom as (? & _). repeat split; lia. }
  inversion_clear Htxs as [|? ? Htx Htxs']. simpl.
  destruct (runnable_Hash tx Htx) as (tx1 & E1 & Htx1 & Ed1). rewrite E1. cbn [outcome_bind fst snd].
  destruct (Prepare_spec (hash_of tx) bhash i (ap_state st) Hb) as [Hb1 Ew]. set (s1 := sd_Prepare _ _ _ _) in *.
  assert (Hm1 : no_mint (cur (abs (ap_state st))) (cur (abs s1))) by (rewrite Ew; by apply no_mint_ext).
  destruct (ApplyTransaction_ok fuel config chain None header cfg tx1 (mkApply (ap_gp st) s1 (ap_usedGas st)))
    as (res & tx2 & st2 & -> & Htx2 & Ed2 & Hm2 & Hres); [done|done|done|by destruct Hb1|done|]. cbn [outcome_bind].
  cbn [ap_state ap_gp ap_usedGas] in *.
  assert (Hm : no_mint (cur (abs (ap_state st))) (cur (abs (ap_state st2)))) by (by etransitivity).
  destruct res as [err|[r gas]].
  { destruct Hres as (Hok & _). eexists _, _, _. split; [done|]. split; [by constructor|]. split; [simpl; congruence|]. done. }
  destruct Hres as (Hb2 & Hro & Hmin & Hgas & Egp & Eu). pose proof (ro_gas _ _ _ _ Hro) as Eg. subst gas.
  destruct (IH (i + 1) st2 Htxs' Hb2) as (res & txs3 & st3 & -> & Htxs3 & Ed3 & Hok & Hm3 & Hres).
  { destruct Hroom as (? & ? & ? & ?). unfold room. lia. }
  cbn [outcome_bind]. eexists _, _, _. split; [done|]. split; [by constructor|]. split; [simpl; congruence|].
  split; [done|]. split; [by etransitivity|]. destruct res as [err|[rs logs]]; [done|].
  destruct Hres as (Hb3 & Hrs & -> & Eu3 & Egp3 & Hgp3). split; [done|]. simpl. rewrite Ed1 in Hgas.
  split; [|repeat split; lia]. rewrite Eu in Hro, Hrs. split; [|by repeat (split; [lia|])].
  destruct Hro as [? ? Hh ? ?]. split; try done. rewrite Hh. unfold hash_of. by rewrite Ed1.
Qed.

(** A block that fits into memory: what is decoded is [runnable]. *)
Definition block_runnable (b : Block) : Prop :=
  header_ok (b_header b) /\ len (enc header_t (header_val (b_header b))) < 2 ^ 64 /\
  Forall runnable (b_transactions b).

Lemma Block_Hash_total b :
  header_shape (b_header b) -> len (enc header_t (header_val (b_header b))) < 2 ^ 64 ->
  exists h b', Block_Hash b = Done (h, b') /\ b_header b' = b_header b /\ b_uncles b' = b_uncles b /\
    b_transactions b' = b_transactions b.
Proof.
  intros Hh Hl. unfold Block_Hash. destruct (b_hash b) as [h|]; [by exists h, b|].
  rewrite Header_Hash_spec by done. by eexists _, _.
Qed.

Lemma Process_ok fuel config chain block s cfg :
  collision_free -> config_ok config -> block_runnable block -> between s ->
  h_GasLimit (b_header block) < 2 ^ 62 -> h_GasLimit (b_header block) < Z.of_nat fuel ->
  exists res block' s', Process fuel config chain block s cfg = Done (res, block', s') /\
    b_header block' = b_header block /\ b_uncles block' = b_uncles block /\
    map tx_data (b_transactions block') = map tx_data (b_transactions block) /\
    match res with
    | inl _ => state_ok Keccak256Hash s' /\ no_mint (cur (abs s)) (cur (abs s'))
    | inr (rs, logs, used) =>
        receipts_of 0 (b_transactions block) rs /\ logs = concat (map r_Logs rs) /\
        used = gas_of rs /\ used <= h_GasLimit (b_header block) /\
        exists s1, between s1 /\ no_mint (cur (abs s)) (cur (abs s1)) /\
          s' = (engine_Finalize (b_header block) (b_transactions block') (b_uncles block) rs s1).2
    end.
Proof.
  intros Hfree Hcfg (Hh & Hl & Htxs) Hb Hg Hfuel. pose proof (ok_gasLimit _ Hh) as Hgu. unfold is_u64 in Hgu.
  unfold Process, AddGas. destruct (Z.ltb_spec (MaxUint64 - h_GasLimit (b_header block)) 0); [lia|].
  rewrite Z.add_0_l, u64_small by (unfold is_u64; lia). cbn [outcome_bind].
  set (bh := match b_transactions block with [] => _ | _ => _ end).
  assert (exists h b', bh = Done (h, b')) as (h & b' & E).
  { unfold bh. destruct (b_transactions block); [by eexists _, _|].
    destruct (Block_Hash_total block (header_ok_shape _ Hh) Hl) as (h & b' & E & _). by eexists _, _. }
  rewrite E. cbn [outcome_bind fst snd].
  destruct (process_txs_ok fuel config chain (b_header block) cfg h Hfree Hcfg (b_transactions block) 0
    (mkApply (h_GasLimit (b_header block)) s 0) Htxs Hb) as (res & txs' & st' & -> & Htxs' & Ed & Hok & Hm & Hres).
  { unfold room. cbn. lia. }
  cbn [outcome_bind]. cbn [ap_state ap_gp ap_usedGas] in *. destruct res as [err|[rs logs]].
  - eexists _, _, _. split; [done|]. done.
  - destruct Hres as (Hb1 & Hrs & -> & Eu & Egp & Hgp). eexists _, _, _. split; [done|]. split; [done|]. split; [done|].
    split; [done|]. split; [done|]. split; [done|]. split; [lia|]. split; [lia|]. by exists (ap_state st').
Qed.
End Apply.

(** ** Hashes of ancestors *)

(** The chain gives headers with the number they are asked by; the last
    64-bit number is no block's. *)
Definition headers_ok (chain : ChainContext) : Prop :=
  forall h n hd, cc_GetHeader chain h n = Some hd -> NumberU64 hd = n /\ 0 <= n < MaxUint64.

Definition parent_num (h : Header) : Z := u64 (NumberU64 h - 1).
Fixpoint lineage (fuel : nat) (chain : ChainContext) (o : option Header) : list Header :=
  match o, fuel with
  | Some h, S fuel => h :: lineage fuel chain (cc_GetHeader chain (h_ParentHash h) (parent_num h))
  | _, _ => []
  end.
(** The headers from [ref] back to the first one that is known. *)
Definition ancestors (chain : ChainContext) (ref : Header) : list Header :=
  lineage (S (hash_fuel ref)) chain (Some ref).
(** The hash of block [n], from the header of the next block. *)
Definition hash_in (n : Z) (l : list Header) : Hash :=
  match find (fun h => n =? parent_num h) l with Some h => h_ParentHash h | None => 0%N end.

Section Ancestors.
Context (chain : ChainContext) (HC : headers_ok chain).

Lemma parent_num_cases h : 0 <= NumberU64 h < two64 ->
  (NumberU64 h = 0 /\ parent_num h = MaxUint64) \/ (0 < NumberU64 h /\ parent_num h = NumberU64 h - 1).
Proof.
  intros H. unfold parent_num. destruct (Z.eq_dec (NumberU64 h) 0) as [E|]; [left; by rewrite E|right].
  rewrite u64_small by (unfold is_u64; lia). lia.
Qed.

Lemma lineage_below fuel : forall p n h,
  h ∈ lineage fuel chain (cc_GetHeader chain p n) -> 0 <= NumberU64 h <= n /\ n < MaxUint64.
Proof.
  induction fuel as [|fuel IH]; intros p n h; destruct (cc_GetHeader chain p n) as [hd|] eqn:E; simpl;
    try by intros H%elem_of_nil. destruct (HC p n hd E) as [En Hn].
  intros [->|Hin]%elem_of_cons; [lia|]. apply IH in Hin as [Hh Hp].
  destruct (parent_num_cases hd) as [[? ?]|[? ?]]; lia.
Qed.
Lemma parent_num_tail fuel h0 h : 0 <= NumberU64 h0 < two64 ->
  h ∈ lineage fuel chain (cc_GetHeader chain (h_ParentHash h0) (parent_num h0)) -> parent_num h <> parent_num h0.
Proof.
  intros H0 Hin. apply lineage_below in Hin as [Hh Hp]. destruct (parent_num_cases h) as [[? ?]|[? ?]]; lia.
Qed.
Lemma hash_in_lineage fuel : forall o h,
  (forall hd, o = Some hd -> 0 <= NumberU64 hd < two64) ->
  h ∈ lineage fuel chain o -> hash_in (parent_num h) (lineage fuel chain o) = h_ParentHash h.
Proof.
  induction fuel as [|fuel IH]; intros [hd|] h Ho; simpl; try by intros H%elem_of_nil. specialize (Ho hd eq_refl).
  unfold hash_in. simpl. intros [->|Hin]%elem_of_cons; [by rewrite Z.eqb_refl|].
  destruct (Z.eqb_spec (parent_num h) (parent_num hd)) as [E|_]; [by apply parent_num_tail in Hin|].
  apply IH; [|done]. intros hd' E. apply HC in E as [-> ?]. lia.
Qed.

(** The loop looks [n] up in the lineage, and caches what it passes. *)
Lemma GetHashFn_loop_spec n fuel : forall o cache,
  (forall hd, o = Some hd -> 0 <= NumberU64 hd < Z.of_nat fuel /\ NumberU64 hd < two64) ->
  exists cache', GetHashFn_loop fuel chain n o cache = Done (hash_in n (lineage fuel chain o), cache') /\
    dom cache ⊆ dom cache' /\
    (forall k v, cache' !! k = Some v -> cache !! k = Some v \/
       exists h, h ∈ lineage fuel chain o /\ parent_num h = k /\ h_ParentHash h = v).
Proof.
  induction fuel as [|fuel IH]; intros [hd|] cache Ho.
  1: { destruct (Ho hd eq_refl). lia. }
  1,3: by exists cache; split; [|split; [|by left]].
  destruct (Ho hd eq_refl) as [Hn H64]. cbn [GetHashFn_loop lineage]. unfold hash_in. cbn [find]. fold (parent_num hd).
  destruct (Z.eqb_spec n (parent_num hd)) as [E|E].
  - eexists. split; [done|]. split; [set_solver|]. intros k v [[<- <-]|[_ Hk]]%lookup_insert_Some; [right|by left].
    exists hd. split; [by left|done].
  - destruct (IH (cc_GetHeader chain (h_ParentHash hd) (parent_num hd)) (<[parent_num hd := h_ParentHash hd]> cache))
      as (cache' & -> & Hdom & Hc).
    { intros h E'. apply HC in E' as [-> ?]. destruct (parent_num_cases hd) as [[? ?]|[? ?]]; lia. }
    eexists. split; [done|]. split; [set_solver|]. intros k v Hk.
    destruct (Hc k v Hk) as [[[<- <-]|[_ ?]]%lookup_insert_Some|(h & Hh & ?)]; [right|by left|right].
    + exists hd. split; [by left|done].
    + exists h. split; [by right|done].
Qed.

Context (ref : Header) (Href : 0 <= NumberU64 ref < two64).

Definition cache_agrees (cache : option (gmap Z Hash)) : Prop :=
  forall m, cache = Some m -> is_Some (m !! parent_num ref) /\
    forall k v, m !! k = Some v -> v = hash_in k (ancestors chain ref).

Lemma hash_in_ancestors h : h ∈ ancestors chain ref -> hash_in (parent_num h) (ancestors chain ref) = h_ParentHash h.
Proof. apply hash_in_lineage. by intros hd [= <-]. Qed.

Lemma GetHashFn_call_spec n cache :
  cache_agrees cache ->
  exists cache', GetHashFn_call (hash_fuel ref) ref chain n cache = Done (hash_in n (ancestors chain ref), cache') /\
    cache_agrees cache'.
Proof.
  intros Hc. unfold GetHashFn_call. fold (parent_num ref). set (m := default _ cache).
  assert (Hm : cache_agrees (Some m)).
  { destruct cache as [m'|]; [done|]. intros ? [= <-]. unfold m. simpl. split; [by rewrite lookup_singleton_eq|].
    intros k v [<- <-]%lookup_singleton_Some. symmetry. apply hash_in_ancestors. by left. }
  clearbody m. destruct (Hm m eq_refl) as [Hin Hv]. destruct (m !! n) as [h|] eqn:E.
  { rewrite (Hv n h E). by eexists. }
  destruct (GetHashFn_loop_spec n (hash_fuel ref) (cc_GetHeader chain (h_ParentHash ref) (parent_num ref)) m)
    as (m' & -> & Hdom & Hm').
  { intros hd Ehd. apply HC in Ehd as [-> ?]. unfold hash_fuel. destruct (parent_num_cases ref Href) as [[? ?]|[? ?]]; lia. }
  assert (Hn : n <> parent_num ref) by (intros ->; rewrite E in Hin; by destruct Hin).
  cbn [outcome_bind fst snd]. eexists. split.
  { do 2 f_equal. unfold hash_in, ancestors. cbn [lineage find]. by destruct (Z.eqb_spec n (parent_num ref)). }
  intros ? [= <-]. split; [apply elem_of_dom, Hdom; by apply elem_of_dom|].
  intros k v Hk. destruct (Hm' k v Hk) as [Hk'|(h & Hh & <- & <-)]; [by apply Hv|].
  symmetry. apply hash_in_ancestors. by right.
Qed.
Lemma GetHashFn_spec n : GetHashFn ref chain n = hash_in n (ancestors chain ref).
Proof. unfold GetHashFn. by destruct (GetHashFn_call_spec n None) as (c & -> & _). Qed.
End Ancestors.

(** ** Building and validating a block *)

(** Everything is small enough to be encoded. *)
Record fits_block (h : Header) (txs : list Transaction) (uncles : list Header) (rs : list Receipt) : Prop := {
  fb_header : header_shape h;
  fb_header_len : len (enc header_t (header_val h)) < 2 ^ 64;
  fb_txs : Forall (fun tx => td_ok (tx_data tx) /\ len (tx_enc (tx_data tx)) < 2 ^ 64) txs;
  fb_txs_len : len txs < 2 ^ 63;
  fb_uncles : Forall header_shape uncles;
  fb_uncles_len : len (enc (SliceT (PtrT header_t)) (VList (map header_val uncles))) < 2 ^ 64;
  fb_receipts : Forall (fun r => is_u64 (r_CumulativeGasUsed r) /\ length (r_Bloom r) = 256%nat /\
                                 len (enc receipt_t (receipt_val r)) < 2 ^ 64) rs;
  fb_receipts_len : len rs < 2 ^ 63
}.

Section Validate.
Context `{CR : Crypto} `{CS : !CryptoSpec} `{MT : MerkleTrie} `{DB : Database} {RO : RangeOrder} `{EN : !Engine Statedb}.

(** Without conditions on the sizes: [NewBlock] ends for all arguments. *)
Definition never_fails (wr : writer) : Prop := forall w, exists w', wr w = inr w'.
Lemma writeList_never ws : Forall never_fails ws -> never_fails (writeList ws).
Proof.
  intros H w. assert (Ha : never_fails (write_all ws)).
  { clear w. induction H as [|wr ws Hw _ IH]; intros w; [by eexists|]. simpl. destruct (Hw w) as [w' ->]. apply IH. }
  unfold writeList. destruct (eb_list w) as [lh w1]. destruct (Ha w1) as [w2 ->]. by eexists.
Qed.
Lemma receipt_never_fails r : never_fails (write receipt_t (receipt_val r)).
Proof.
  assert (Hs : forall b, never_fails (fun w => inr (encodeString b w))) by (intros b w; by eexists).
  assert (Hu : forall n, never_fails (fun w => inr (writeUint n w))) by (intros n w; by eexists).
  apply writeList_never. constructor; [apply Hs|constructor; [apply Hu|constructor; [apply Hs|constructor; [|constructor]]]].
  apply writeList_never. rewrite map_map. apply Forall_map, Forall_true. intros l.
  apply writeList_never. constructor; [apply Hs|constructor; [|constructor; [apply Hs|constructor]]].
  apply writeList_never. rewrite map_map. apply Forall_map, Forall_true. intros h. apply Hs.
Qed.
Lemma receipt_GetRlp_ends r : exists b, receipt_GetRlp r = Done b.
Proof.
  destruct (EncodeToBytes_total receipt_t (receipt_val r)) as [e E]. unfold receipt_GetRlp, EncodeReceipt. rewrite E. cbn [outcome_bind].
  unfold EncodeToBytes in E. destruct (receipt_never_fails r eb_new) as [w Ew]. rewrite Ew in E.
  destruct (toBytes w); simplify_eq/=. by eexists.
Qed.
Lemma DeriveSha_ends items : Forall (fun i => exists b, i = Done b) items -> exists h, DeriveSha items = Done h.
Proof.
  intros H. unfold DeriveSha. enough (forall i t, exists t', derive_loop items i t = Done t') as Hl.
  { destruct (Hl 0 Trie_new) as [t ->]. by eexists. }
  induction H as [|item items [b ->] _ IH]; intros i t; [by eexists|]. cbn [derive_loop].
  destruct (Encode_total hash_Write (UintT 64) (VUint i) []) as [k ->]; [intros x w a _; by eexists|]. apply IH.
Qed.
Lemma NewBlock_ends h txs us rs : exists blk, NewBlock h txs us rs = Done blk /\ b_transactions blk = txs /\ b_uncles blk = us.
Proof.
  assert (Ht : exists th, DeriveSha_txs txs = Done th).
  { apply DeriveSha_ends, Forall_map, Forall_true. intros tx. unfold tx_GetRlp.
    destruct (EncodeToBytes_total txdata_t (txdata_val (tx_data tx))) as [r ->]. by eexists. }
  assert (Hr : exists rh, DeriveSha_receipts rs = Done rh).
  { apply DeriveSha_ends, Forall_map, Forall_true. intros r. apply receipt_GetRlp_ends. }
  assert (Hu : exists uh, CalcUncleHash us = Done uh).
  { unfold CalcUncleHash, rlpHash. destruct (Encode_total hash_Write (SliceT (PtrT header_t)) (VList (map header_val us)) []) as [r ->];
      [intros b w a _; by eexists|by eexists]. }
  destruct Ht as [th Et], Hr as [rh Er], Hu as [uh Eu]. unfold NewBlock. rewrite Et, Er, Eu, CreateBloom_eq.
  destruct (len txs =? 0), (len rs =? 0), (len us =? 0); by eexists.
Qed.

Lemma DeriveSha_done vs : len vs < 2 ^ 63 -> exists h, DeriveSha (map Done vs) = Done h.
Proof.
  intros H. unfold DeriveSha. destruct (derive_loop_done (map Done vs) vs 0 Trie_new) as [t ->]; [done|lia|lia|].
  by eexists.
Qed.
Lemma DeriveSha_txs_done txs :
  Forall (fun tx => td_ok (tx_data tx) /\ len (tx_enc (tx_data tx)) < 2 ^ 64) txs -> len txs < 2 ^ 63 ->
  exists h, DeriveSha_txs txs = Done h.
Proof.
  intros H Hl. unfold DeriveSha_txs. replace (map tx_GetRlp txs) with (map Done (map (fun tx => tx_enc (tx_data tx)) txs)).
  { apply DeriveSha_done. unfold len in *. by rewrite length_map. }
  rewrite map_map. apply map_ext_Forall. eapply Forall_impl; [exact H|]. intros tx [Hd Ht]. unfold tx_GetRlp.
  rewrite EncodeToBytes_spec; [done|by apply txdata_has_type|done].
Qed.
Lemma DeriveSha_receipts_done rs :
  Forall (fun r => is_u64 (r_CumulativeGasUsed r) /\ length (r_Bloom r) = 256%nat /\
                   len (enc receipt_t (receipt_val r)) < 2 ^ 64) rs -> len rs < 2 ^ 63 ->
  exists h, DeriveSha_receipts rs = Done h.
Proof.
  intros H Hl. unfold DeriveSha_receipts.
  replace (map receipt_GetRlp rs) with (map Done (map (fun r => enc receipt_t (receipt_val r)) rs)).
  { apply DeriveSha_done. unfold len in *. by rewrite length_map. }
  rewrite map_map. apply map_ext_Forall. eapply Forall_impl; [exact H|]. intros r (Hu & Hb & Ht). unfold receipt_GetRlp, EncodeReceipt.
  by rewrite EncodeToBytes_spec by (done || by apply receipt_has_type).
Qed.
Lemma CalcUncleHash_done us :
  Forall header_shape us -> len (enc (SliceT (PtrT header_t)) (VList (map header_val us))) < 2 ^ 64 ->
  exists h, CalcUncleHash us = Done h.
Proof.
  intros H Hl. unfold CalcUncleHash. rewrite rlpHash_spec; [by eexists| |done].
  cbn [has_type]. apply Forall_map. eapply Forall_impl; [exact H|]. intros h Hh. split; [done|]. by apply header_has_type.
Qed.

(** The roots of a new block are those that the validator computes. *)
Lemma NewBlock_spec h txs us rs :
  fits_block h txs us rs -> (rs = [] -> h_Bloom h = Bloom_new) ->
  exists uh th rh bloom, CalcUncleHash us = Done uh /\ DeriveSha_txs txs = Done th /\ DeriveSha_receipts rs = Done rh /\
    CreateBloom rs = Done bloom /\ length bloom = 256%nat /\
    NewBlock h txs us rs = Done (mkBlock (h_set_roots uh th rh bloom h) us txs None None).
Proof.
  intros [Hh Hhl Ht Htl Hu Hul Hr Hrl] Hbl.
  destruct (CalcUncleHash_done us Hu Hul) as [uh Eu]. destruct (DeriveSha_txs_done txs Ht Htl) as [th Et].
  destruct (DeriveSha_receipts_done rs Hr Hrl) as [rh Er]. pose proof (CreateBloom_eq rs) as Eb.
  exists uh, th, rh, (be_fixed 256 (filter_of (receipts_items rs))). do 4 (split; [done|]). split; [apply length_be_fixed|].
  unfold NewBlock.
  assert ((if len txs =? 0 then EmptyRootHash else DeriveSha_txs txs) = Done th) as ->.
  { destruct (Z.eqb_spec (len txs) 0); [|done]. by destruct txs. }
  assert ((if len us =? 0 then EmptyUncleHash else CalcUncleHash us) = Done uh) as ->.
  { destruct (Z.eqb_spec (len us) 0); [|done]. by destruct us. }
  destruct (Z.eqb_spec (len rs) 0) as [E|E]; cbn [outcome_bind].
  - destruct rs; [|done]. rewrite (Hbl eq_refl), Bloom_new_eq. change EmptyRootHash with (DeriveSha_receipts []).
    by rewrite Er.
  - by rewrite Er, Eb.
Qed.
End Validate.

(** ** The gas limit *)

Lemma CalcGasLimit_bounds target p :
  MinGasLimit <= h_GasLimit p < 2 ^ 62 -> 0 <= h_GasUsed p <= h_GasLimit p -> is_u64 target ->
  MinGasLimit <= CalcGasLimit target p /\
  Z.abs (CalcGasLimit target p - h_GasLimit p) < h_GasLimit p / GasLimitBoundDivisor.
Proof.
  unfold is_u64, MinGasLimit, GasLimitBoundDivisor. intros HL HU HT. unfold CalcGasLimit, MinGasLimit, GasLimitBoundDivisor.
  set (L := h_GasLimit p) in *. set (U := h_GasUsed p) in *.
  pose proof (Z.div_mod L 64 ltac:(lia)) as HL1. pose proof (Z.mod_pos_bound L 64 ltac:(lia)).
  pose proof (Z.div_mod U 2 ltac:(lia)). pose proof (Z.mod_pos_bound U 2 ltac:(lia)).
  rewrite (u64_small (U + U / 2)) by (unfold is_u64; lia).
  set (V := U + U / 2) in *. pose proof (Z.div_mod V 64 ltac:(lia)). pose proof (Z.mod_pos_bound V 64 ltac:(lia)).
  set (q := L / 64) in *. set (c := V / 64) in *. set (h := U / 2) in *.
  rewrite (u64_small (q - 1)) by (unfold is_u64; lia). rewrite (u64_small (L - (q - 1))) by (unfold is_u64; lia).
  rewrite (u64_small (L - (q - 1) + c)) by (unfold is_u64; lia). rewrite (u64_small (L + (q - 1))) by (unfold is_u64; lia).
  destruct (Z.ltb_spec (L - (q - 1) + c) 500000); bool_cases; lia.
Qed.
