(* ===== verification/Miner.v ===== *)
(** Assembling a block: the work environment of miner/worker.go.

    The sets of package gopkg.in/fatih/set are finite sets.  The goroutine
    that posts the pending logs and the timers are left out; sending to an
    agent and signing by a wallet are taken to return. *)
From Stdlib Require Import String.
From stdpp Require Import pretty.
From S2P Require Import Prelude BigMath Params Machine Heap StateSpec Supply StateRel Vm PrecompileFacts CallFacts StateObject.
From S2P Require Import Statedb StateFinal StateUndo StateRefine StateRevert StateFinalFacts StateTheorems StateTransition.
From S2P Require Import TransitionFacts Rlp RlpFacts Transaction TxFacts TxList TxPriced TxPool TxByPrice BlockTypes BlockFacts Process.
From S2P Require Import ProcessFacts.

Section Work.
Context `{DB : Database} `{CR : Crypto} {RO : RangeOrder} `{EN : !Engine Statedb}.

Record Work := mkWork {
  wk_config : ChainConfig;
  wk_signer : Signer;
  wk_state : Statedb;
  wk_ancestors : gset Hash;
  wk_family : gset Hash;
  wk_uncles : gset Hash;
  wk_tcount : Z;
  wk_gasPool : option GasPool;
  wk_header : Header;
  wk_txs : list Transaction;
  wk_receipts : list Receipt;
  wk_Block : option Block
}.

Definition h_set_gasUsed (n : Z) (h : Header) : Header :=
  {| h_ParentHash := h_ParentHash h; h_UncleHash := h_UncleHash h; h_Coinbase := h_Coinbase h; h_Root := h_Root h;
     h_TxHash := h_TxHash h; h_ReceiptHash := h_ReceiptHash h; h_Bloom := h_Bloom h; h_Difficulty := h_Difficulty h;
     h_Number := h_Number h; h_GasLimit := h_GasLimit h; h_GasUsed := n; h_Time := h_Time h;
     h_Extra := h_Extra h; h_MixDigest := h_MixDigest h; h_Nonce := h_Nonce h |}.
(** [env.state], [env.gasPool] and [env.header.GasUsed]. *)
Definition wk_set (s : Statedb) (gp : option GasPool) (used : Z) (w : Work) : Work :=
  {| wk_config := wk_config w; wk_signer := wk_signer w; wk_state := s; wk_ancestors := wk_ancestors w;
     wk_family := wk_family w; wk_uncles := wk_uncles w; wk_tcount := wk_tcount w; wk_gasPool := gp;
     wk_header := h_set_gasUsed used (wk_header w); wk_txs := wk_txs w; wk_receipts := wk_receipts w; wk_Block := wk_Block w |}.
Definition wk_append (tx : Transaction) (r : Receipt) (w : Work) : Work :=
  {| wk_config := wk_config w; wk_signer := wk_signer w; wk_state := wk_state w; wk_ancestors := wk_ancestors w;
     wk_family := wk_family w; wk_uncles := wk_uncles w; wk_tcount := wk_tcount w; wk_gasPool := wk_gasPool w;
     wk_header := wk_header w; wk_txs := wk_txs w ++ [tx]; wk_receipts := wk_receipts w ++ [r];
     wk_Block := wk_Block w |}.
Definition wk_set_tcount (n : Z) (w : Work) : Work :=
  {| wk_config := wk_config w; wk_signer := wk_signer w; wk_state := wk_state w; wk_ancestors := wk_ancestors w;
     wk_family := wk_family w; wk_uncles := wk_uncles w; wk_tcount := n; wk_gasPool := wk_gasPool w;
     wk_header := wk_header w; wk_txs := wk_txs w; wk_receipts := wk_receipts w; wk_Block := wk_Block w |}.
Definition wk_add_uncle (h : Hash) (w : Work) : Work :=
  {| wk_config := wk_config w; wk_signer := wk_signer w; wk_state := wk_state w; wk_ancestors := wk_ancestors w;
     wk_family := wk_family w; wk_uncles := {[h]} ∪ wk_uncles w; wk_tcount := wk_tcount w; wk_gasPool := wk_gasPool w;
     wk_header := wk_header w; wk_txs := wk_txs w; wk_receipts := wk_receipts w; wk_Block := wk_Block w |}.

(** The hashes of blocks and of their uncles. *)
Fixpoint header_hashes (l : list Header) : outcome (list Hash) :=
  match l with
  | [] => Done []
  | h :: l => let* x := Header_Hash h in let* xs := header_hashes l in Done (x :: xs)
  end.
Fixpoint collect_family (ancs : list Block) (ancestors family : gset Hash) : outcome (gset Hash * gset Hash) :=
  match ancs with
  | [] => Done (ancestors, family)
  | b :: ancs =>
      let* us := header_hashes (b_uncles b) in
      let* h := Block_Hash b in
      collect_family ancs ({[h.1]} ∪ ancestors) ({[h.1]} ∪ (list_to_set us ∪ family))
  end.
(** [makeCurrent], from the state of the parent, if there is one, and its
    last seven ancestors. *)
Definition makeCurrent (config : ChainConfig) (state : option Statedb) (ancs : list Block) (header : Header) : outcome (option Work) :=
  match state with
  | None => Done None
  | Some s =>
      let* r := collect_family ancs ∅ ∅ in
      Done (Some {| wk_config := config; wk_signer := NewEIP155Signer (ChainId config); wk_state := s; wk_ancestors := r.1;
                    wk_family := r.2; wk_uncles := ∅; wk_tcount := 0; wk_gasPool := None; wk_header := header; wk_txs := [];
                    wk_receipts := []; wk_Block := None |})
  end.

(** ** Transactions *)

(** The logs, or the error; the transaction with its caches. *)
Definition commitTransaction (fuel : nat) (chain : ChainContext) (coinbase : Address) (tx : Transaction) (gp : GasPool) (w : Work)
  : outcome ((procError + list Log) * Work) :=
  let '(snap, s) := sd_Snapshot (wk_state w) in
  let* r := ApplyTransaction fuel (wk_config w) chain (Some coinbase) (wk_header w) (mkVmConfig false false) tx
              (mkApply gp s (h_GasUsed (wk_header w))) in
  let '(res, tx, st) := r in
  match res with
  | inl err =>
      let* s := sd_RevertToSnapshot snap (ap_state st) in
      Done (inl err, wk_set s (Some (ap_gp st)) (ap_usedGas st) w)
  | inr (receipt, _) =>
      Done (inr (r_Logs receipt), wk_append tx receipt (wk_set (ap_state st) (Some (ap_gp st)) (ap_usedGas st) w))
  end.

Definition step_error (err : procError) (t : TransactionsByPriceAndNonce) : outcome TransactionsByPriceAndNonce :=
  match err with
  | errApply ErrGasLimitReached => pn_Pop t
  | errApply ErrNonceTooLow => pn_Shift t
  | errApply ErrNonceTooHigh => pn_Pop t
  | _ => pn_Shift t
  end.

(** The loop of [commitTransactions], with the logs it collects.  It ends
    within one round per transaction: [rounds] bounds it. *)
Fixpoint commit_loop (rounds fuel : nat) (chain : ChainContext) (coinbase : Address) (t : TransactionsByPriceAndNonce)
    (gp : GasPool) (w : Work) : outcome (list Log * Work) :=
  if gp <? TxGas then Done ([], w)
  else
    match pn_Peek t with
    | None => Done ([], w)
    | Some tx =>
        match rounds with
        | O => NoFuel
        | S rounds =>
            let* r := Sender (wk_signer w) tx in
            let tx := r.2 in
            if tx_Protected tx && negb (IsEIP155 (wk_config w) (h_Number (wk_header w))) then
              let* t := pn_Pop t in commit_loop rounds fuel chain coinbase t gp w
            else
              let* h := tx_Hash tx in
              let w := wk_set (sd_Prepare h.1 0%N (wk_tcount w) (wk_state w)) (Some gp) (h_GasUsed (wk_header w)) w in
              let* r := commitTransaction fuel chain coinbase h.2 gp w in
              let '(res, w) := r in
              let gp := default gp (wk_gasPool w) in
              match res with
              | inl err => let* t := step_error err t in commit_loop rounds fuel chain coinbase t gp w
              | inr logs =>
                  let w := wk_set_tcount (wk_tcount w + 1) w in
                  let* t := pn_Shift t in
                  let* r := commit_loop rounds fuel chain coinbase t gp w in
                  Done (logs ++ r.1, r.2)
              end
        end
    end.
Definition commitTransactions (rounds fuel : nat) (chain : ChainContext) (coinbase : Address) (t : TransactionsByPriceAndNonce)
    (w : Work) : outcome (list Log * Work) :=
  let* gp := match wk_gasPool w with Some gp => Done gp | None => AddGas (h_GasLimit (wk_header w)) 0 end in
  commit_loop rounds fuel chain coinbase t gp (wk_set (wk_state w) (Some gp) (h_GasUsed (wk_header w)) w).

(** ** Uncles *)

Inductive uncleError := errNotUnique | errParentUnknown | errInFamily.
Definition commitUncle (uncle : Header) (w : Work) : outcome (option uncleError * Work) :=
  let* hash := Header_Hash uncle in
  if decide (hash ∈ wk_uncles w) then Done (Some errNotUnique, w)
  else if decide (h_ParentHash uncle ∉ wk_ancestors w) then Done (Some errParentUnknown, w)
  else if decide (hash ∈ wk_family w) then Done (Some errInFamily, w)
  else Done (None, wk_add_uncle hash w).

(** The loop of [commitNewWork] over the possible uncles: those taken, at
    most two, and the bad ones. *)
Fixpoint pick_uncles (possible : list (Hash * Header)) (uncles : list Header) (bad : list Hash) (w : Work)
  : outcome (list Header * list Hash * Work) :=
  match possible with
  | [] => Done (uncles, bad, w)
  | (hash, uncle) :: possible =>
      if len uncles =? 2 then Done (uncles, bad, w)
      else
        let* r := commitUncle uncle w in
        let '(err, w) := r in
        match err with
        | Some _ => pick_uncles possible uncles (bad ++ [hash]) w
        | None => pick_uncles possible (uncles ++ [uncle]) bad w
        end
  end.

(** The header of the next block at time [now], before [Prepare] of the
    engine.  That the worker waits for a time ahead of its clock does not
    show in the header. *)
Definition next_header (TargetGasLimit now : Z) (parent_hash : Hash) (parent : Header) (coinbase : option Address) (extra : bytes)
  : Header :=
  {| h_ParentHash := parent_hash; h_UncleHash := 0%N; h_Coinbase := default 0%N coinbase; h_Root := 0%N; h_TxHash := 0%N;
     h_ReceiptHash := 0%N; h_Bloom := Bloom_new; h_Difficulty := 0; h_Number := h_Number parent + 1;
     h_GasLimit := CalcGasLimit TargetGasLimit parent; h_GasUsed := 0;
     h_Time := if now <=? h_Time parent then i64 (big_Int64 (h_Time parent) + 1) else now;
     h_Extra := extra; h_MixDigest := 0%N; h_Nonce := zeros 8 |}.

(** [Finalize] of the engine on what has been assembled. *)
Inductive workError :=
| errPrepare (err : engineError)
| errStateAt
| errFinalize (err : engineError).
Definition finalize_work (uncles : list Header) (w : Work) : option workError * Work :=
  let '(res, header, s) := engine_Finalize (wk_header w) (wk_txs w) uncles (wk_receipts w) (wk_state w) in
  (match res with inl err => Some (errFinalize err) | inr _ => None end,
   {| wk_config := wk_config w; wk_signer := wk_signer w; wk_state := s; wk_ancestors := wk_ancestors w;
      wk_family := wk_family w; wk_uncles := wk_uncles w; wk_tcount := wk_tcount w; wk_gasPool := wk_gasPool w;
      wk_header := header; wk_txs := wk_txs w; wk_receipts := wk_receipts w;
      wk_Block := match res with inl _ => None | inr b => Some b end |}).
End Work.

(** ** unconfirmed.go

    The ring is the list of its elements from the one that [blocks] points
    to.  That a block has become canonical or stale is only logged. *)
Record unconfirmedBlock := mkUnconfirmed { ub_index : Z; ub_hash : Hash }.
Fixpoint unconfirmed_Shift (depth height : Z) (blocks : list unconfirmedBlock) : list unconfirmedBlock :=
  match blocks with
  | [] => []
  | next :: rest =>
      if height <? u64 (ub_index next + depth) then blocks else unconfirmed_Shift depth height rest
  end.
Definition miningLogAtDepth : Z := 5.

(** ** The worker *)

Section Worker.
Context `{DB : Database} `{CR : Crypto} {RO : RangeOrder} {SO : SortOrder} `{MT : MerkleTrie} `{EN : !Engine Statedb}.

(** The fields of [worker] that [commitNewWork] uses.  An agent has a channel
    or none; a channel is what has been sent to it, which is taken not to
    block.  [mw_pbft] says that [config.Alien] is there and has PBFT enabled. *)
Record worker := mkWorker {
  mw_config : ChainConfig;
  mw_pbft : bool;
  mw_coinbase : Address;
  mw_extra : bytes;
  mw_mining : bool;
  mw_atWork : Z;
  mw_agents : gmap N (option (list Work));
  mw_possibleUncles : gmap Hash Block;
  mw_unconfirmed : list unconfirmedBlock;
  mw_current : option Work;
  mw_snapshotBlock : option Block;
  mw_snapshotState : option Statedb
}.
Definition mw_set_agents (agents : gmap N (option (list Work))) (atWork : Z) (mw : worker) : worker :=
  mkWorker (mw_config mw) (mw_pbft mw) (mw_coinbase mw) (mw_extra mw) (mw_mining mw) atWork agents (mw_possibleUncles mw)
    (mw_unconfirmed mw) (mw_current mw) (mw_snapshotBlock mw) (mw_snapshotState mw).
Definition mw_set_work (uncles : gmap Hash Block) (w : Work) (mw : worker) : worker :=
  mkWorker (mw_config mw) (mw_pbft mw) (mw_coinbase mw) (mw_extra mw) (mw_mining mw) (mw_atWork mw) (mw_agents mw) uncles
    (mw_unconfirmed mw) (Some w) (mw_snapshotBlock mw) (mw_snapshotState mw).
Definition mw_set_unconfirmed (blocks : list unconfirmedBlock) (mw : worker) : worker :=
  mkWorker (mw_config mw) (mw_pbft mw) (mw_coinbase mw) (mw_extra mw) (mw_mining mw) (mw_atWork mw) (mw_agents mw)
    (mw_possibleUncles mw) blocks (mw_current mw) (mw_snapshotBlock mw) (mw_snapshotState mw).
Definition mw_set_snapshot (block : option Block) (s : Statedb) (mw : worker) : worker :=
  mkWorker (mw_config mw) (mw_pbft mw) (mw_coinbase mw) (mw_extra mw) (mw_mining mw) (mw_atWork mw) (mw_agents mw)
    (mw_possibleUncles mw) (mw_unconfirmed mw) (mw_current mw) block (Some s).

(** The counter is an [int32]. *)
Definition i32 (z : Z) : Z := (z + 2 ^ 31) mod 2 ^ 32 - 2 ^ 31.
Definition worker_push (work : Work) (mw : worker) : worker :=
  if negb (mw_mining mw) then mw
  else mw_set_agents (fmap (fun ch => match ch with Some sent => Some (sent ++ [work]) | None => None end) (mw_agents mw))
         (i32 (mw_atWork mw + Z.of_nat (size (mw_agents mw)))) mw.

(** A nil [current] would be dereferenced. *)
Definition updateSnapshot (mw : worker) : outcome worker :=
  match mw_current mw with
  | None => GoPanic
  | Some w =>
      let* block := NewBlock (wk_header w) (wk_txs w) [] (wk_receipts w) in
      let* s := sd_Copy (wk_state w) in
      Done (mw_set_snapshot (Some block) s mw)
  end.

(** *** sendConfirmTx *)

Context {S M : Type} {PC : PoolChain S M}.

(** A wallet of the account manager: its accounts, and what signs with one of
    them for a chain. *)
Record Wallet := mkWallet {
  wl_Accounts : list Address;
  wl_SignTx : Address -> Transaction -> option Z -> option Transaction
}.
(** [fmt.Sprintf] with the block number in decimal. *)
Definition confirm_data (blockNumber : Z) : bytes :=
  String.list_byte_of_string ("ufo:1:event:confirm:" ++ pretty blockNumber)%string.
(** The wallets are searched in their order for the coinbase.  The errors of
    the wallet and of the pool are logged by the caller. *)
Definition sendConfirmTx (clock : Z) (blockNumber : Z) (wallets : list Wallet) (pool : TxPool (S := S) (M := M)) (mw : worker)
  : outcome (TxPool (S := S) (M := M) * worker) :=
  match find (fun wallet => bool_decide (mw_coinbase mw ∈ wl_Accounts wallet)) wallets with
  | None => Done (pool, mw)
  | Some wallet =>
      match mw_snapshotState mw with
      | None => GoPanic
      | Some s =>
          let '(nonce, s) := sd_GetNonce (mw_coinbase mw) s in
          let mw := mw_set_snapshot (mw_snapshotBlock mw) s mw in
          let tmpTx := NewTransaction nonce (mw_coinbase mw) (Some 0) 100000 (Some 10000) (confirm_data blockNumber) in
          match wl_SignTx wallet (mw_coinbase mw) tmpTx (ChainId (mw_config mw)) with
          | None => Done (pool, mw)
          | Some signedTx => let* r := AddLocal clock signedTx pool in Done (r.2, mw)
          end
      end
  end.

(** ** commitNewWork *)

(** From the finalised work on. *)
Definition publish_work (clock : Z) (parent : Block) (wallets : list Wallet) (w : Work) (pool : TxPool (S := S) (M := M)) (mw : worker)
  : outcome (TxPool (S := S) (M := M) * worker) :=
  let* mw :=
    if mw_mining mw then
      match wk_Block w with
      | None => GoPanic
      | Some b => Done (mw_set_unconfirmed
                          (unconfirmed_Shift miningLogAtDepth (u64 (NumberU64 (b_header b) - 1)) (mw_unconfirmed mw)) mw)
      end
    else Done mw in
  let* mw := updateSnapshot (worker_push w mw) in
  if mw_pbft mw then sendConfirmTx clock (h_Number (b_header parent)) wallets pool mw else Done (pool, mw).

(** On top of [parent], the current block, at the Unix time [now], which is
    [clock] for the pool, from the state of the parent and its ancestors. *)
Definition commitNewWork (fuel : nat) (chain : ChainContext) (TargetGasLimit now clock : Z) (parent : Block) (state : option Statedb)
    (ancs : list Block) (wallets : list Wallet) (pool : TxPool (S := S) (M := M)) (mw : worker)
  : outcome (option workError * TxPool (S := S) (M := M) * worker) :=
  let* ph := Block_Hash parent in
  let coinbase := if mw_mining mw then Some (mw_coinbase mw) else None in
  match engine_Prepare (next_header TargetGasLimit now ph.1 (b_header parent) coinbase (mw_extra mw)) with
  | inl err => Done (Some (errPrepare err), pool, mw)
  | inr header =>
      let* ow := makeCurrent (mw_config mw) state ancs header in
      match ow with
      | None => Done (Some errStateAt, pool, mw)
      | Some w =>
          let '(pending, pool) := Pending pool in
          let* t := NewTransactionsByPriceAndNonce (wk_signer w) pending in
          let* r := commitTransactions (total_txs pending) fuel chain (mw_coinbase mw) t w in
          let* r := pick_uncles (map (prod_map id b_header) (range (mw_possibleUncles mw))) [] [] r.2 in
          let '(uncles, bad, w) := r in
          let '(err, w) := finalize_work uncles w in
          let mw := mw_set_work (foldl (fun m h => delete h m) (mw_possibleUncles mw) bad) w mw in
          match err with
          | Some err => Done (Some err, pool, mw)
          | None => let* r := publish_work clock parent wallets w pool mw in Done (None, r.1, r.2)
          end
      end
  end.
End Worker.

(** ** What is assembled *)

Lemma receipts_of_snoc `{CR : Crypto} tx r : forall txs rs used,
  receipts_of used txs rs -> receipt_of tx (used + gas_of rs + r_GasUsed r) (r_GasUsed r) r ->
  21000 <= 2 * r_GasUsed r + 1 -> r_GasUsed r <= td_GasLimit (tx_data tx) ->
  receipts_of used (txs ++ [tx]) (rs ++ [r]).
Proof.
  induction txs as [|tx0 txs IH]; intros [|r0 rs] used; try done; simpl.
  - intros _ H H1 H2. rewrite Z.add_0_r in H. done.
  - intros (H0 & H1 & H2 & H3) H Hm Hl. split; [done|]. split; [done|]. split; [done|]. apply IH; [done| |done|done].
    by replace (used + r_GasUsed r0 + gas_of rs + r_GasUsed r) with (used + (r_GasUsed r0 + gas_of rs) + r_GasUsed r) by lia.
Qed.
Lemma gas_of_snoc rs r : gas_of (rs ++ [r]) = gas_of rs + r_GasUsed r.
Proof. induction rs as [|x rs IH]; simpl; [lia|]. rewrite IH. lia. Qed.

Section Facts.
Context `{CR : Crypto} `{CS : !CryptoSpec} `{EC : Ecdsa} `{ES : !EcdsaSpec}.
Context `{DB : Database} {DS : DatabaseSpec} {TS : TrieSpec} {RO : RangeOrder} `{EN : !Engine Statedb}.
Context (Hfree : collision_free) (fuel : nat) (chain : ChainContext) (coinbase : Address).

(** The work has run the transactions it holds, one after the other, within
    the gas limit. *)
Record work_ok (gp : Z) (w : Work) : Prop := {
  wo_between : between (wk_state w);
  wo_config : config_ok (wk_config w);
  wo_signer : wk_signer w = NewEIP155Signer (ChainId (wk_config w));
  wo_gp : 0 <= gp < 2 ^ 62 /\ gp < Z.of_nat fuel;
  wo_used : h_GasUsed (wk_header w) = gas_of (wk_receipts w) /\ 0 <= h_GasUsed (wk_header w);
  wo_limit : h_GasUsed (wk_header w) + gp <= h_GasLimit (wk_header w) < 2 ^ 62;
  wo_receipts : receipts_of 0 (wk_txs w) (wk_receipts w);
  wo_txs : Forall runnable (wk_txs w)
}.

(** The state has been put back as it was. *)
Lemma revert_between s s1 :
  between s -> state_ok Keccak256Hash s1 -> keeps (Snapshot s).2 s1 ->
  exists s2, sd_RevertToSnapshot (sd_Snapshot s).1 s1 = Done s2 /\ between s2 /\ abs s2 ≡ abs s.
Proof.
  intros [Hs Hv] (I1 & _) Hk. destruct (revert_holds Keccak256Hash s s1 (proj1 Hs) Hk I1) as (s2 & E & I2 & A).
  exists s2. split; [exact E|]. split; [|done]. split.
  - apply (srel_ok Keccak256Hash False s s2). by apply srel_read.
  - destruct A as [_ A]. rewrite Hv in A. apply list_equiv_Forall2 in A. by inversion A.
Qed.

(** The same block, but for the gas that has been used. *)
Definition same_block (w w' : Work) : Prop :=
  wk_config w' = wk_config w /\ wk_signer w' = wk_signer w /\ wk_ancestors w' = wk_ancestors w /\
  wk_family w' = wk_family w /\ wk_uncles w' = wk_uncles w /\
  wk_header w' = h_set_gasUsed (h_GasUsed (wk_header w')) (wk_header w).
Lemma same_block_refl w : same_block w w.
Proof. repeat split. by destruct w as [? ? ? ? ? ? ? ? []]. Qed.
Lemma same_block_trans w1 w2 w3 : same_block w1 w2 -> same_block w2 w3 -> same_block w1 w3.
Proof.
  intros (? & ? & ? & ? & ? & E) (? & ? & ? & ? & ? & E'). repeat (split; [congruence|]). rewrite E'. by rewrite E.
Qed.

Ltac work_fields :=
  cbn [wk_state wk_config wk_signer wk_header wk_txs wk_receipts wk_set wk_append wk_set_tcount h_GasUsed h_GasLimit h_set_gasUsed].

Lemma commitTransaction_ok tx gp w :
  work_ok gp w -> runnable tx ->
  exists res w' gp', commitTransaction fuel chain coinbase tx gp w = Done (res, w') /\
    wk_gasPool w' = Some gp' /\ work_ok gp' w' /\ gp' <= gp /\ same_block w w' /\ wk_tcount w' = wk_tcount w /\
    match res with
    | inl _ => wk_txs w' = wk_txs w /\ wk_receipts w' = wk_receipts w /\ abs (wk_state w') ≡ abs (wk_state w)
    | inr logs => exists tx' r, wk_txs w' = wk_txs w ++ [tx'] /\ wk_receipts w' = wk_receipts w ++ [r] /\
        tx_data tx' = tx_data tx /\ logs = r_Logs r /\
        no_mint (cur (abs (wk_state w))) (cur (abs (wk_state w')))
    end.
Proof.
  intros [Hb Hcfg Hsg [Hgp Hf] [Eu Hu] Hlim Hrs Htxs] Htx. unfold commitTransaction.
  pose proof (srel_snapshot Keccak256Hash False (wk_state w) (proj1 Hb)) as R0.
  pose proof (revert_between (wk_state w)) as Hrev.
  change (sd_Snapshot (wk_state w)) with (Snapshot (wk_state w)) in *.
  destruct (Snapshot (wk_state w)) as [snap s0]. cbn [fst snd] in *.
  destruct (ApplyTransaction_ok fuel (wk_config w) chain (Some coinbase) (wk_header w) (mkVmConfig false false) tx
    (mkApply gp s0 (h_GasUsed (wk_header w)))) as (res & tx' & st & -> & Htx' & Ed & Hm & Hres); try done.
  { by apply srel_ok in R0. }
  { unfold room. cbn. lia. }
  cbn [outcome_bind ap_state ap_gp ap_usedGas] in *. destruct res as [err|[r gas]].
  - destruct Hres as (Hok & Hk & Eu' & Hg). destruct (Hrev (ap_state st) Hb Hok Hk) as (s2 & -> & Hb2 & A2).
    cbn [outcome_bind]. eexists _, _, (ap_gp st). split; [done|]. split; [done|]. destruct Htx as (Hd & _).
    pose proof (ok_gas _ Hd) as Hgl. unfold is_u64 in Hgl.
    assert (Hg' : 0 <= ap_gp st <= gp) by (destruct err as [|[]]; lia).
    split; [|split; [lia|split; [|done]]].
    + split; work_fields; try done; lia.
    + by repeat split.
  - destruct Hres as (Hb2 & Hro & Hmin & Hgas & Egp & Eu'). pose proof (ro_gas _ _ _ _ Hro) as Eg. subst gas.
    eexists _, _, (ap_gp st). split; [done|]. split; [done|]. split; [|split; [lia|split; [by repeat split|split; [done|]]]].
    + split; work_fields; try done; [lia|rewrite gas_of_snoc; lia|lia| |by apply Forall_app; split; [|constructor]].
      apply receipts_of_snoc; [done| |done|rewrite Ed; lia]. rewrite Z.add_0_l, <-Eu, <-Eu'.
      destruct Hro as [? ? Hh ? ?]. split; try done. rewrite Hh. unfold hash_of. by rewrite Ed.
    + exists tx', r. do 4 (split; [done|]). etransitivity; [|exact Hm]. by apply srel_no_mint in R0.
Qed.

Lemma runnable_Sender s tx :
  signer_ok s -> (forall c m, s = EIP155Signer c m -> 0 <= c < 2 ^ 256) -> runnable tx ->
  exists res tx', Sender s tx = Done (res, tx') /\ runnable tx' /\ tx_data tx' = tx_data tx.
Proof.
  intros Hs Hid (Hd & Hl & Hc).
  assert (Hf : tx_fits s (tx_data tx)) by (split; [lia|]; split; apply payload_bound; try done; lia).
  destruct (Sender_spec s tx Hd Hs Hf Hc) as (res & tx' & _ & E & Ed & Hc'). exists res, tx'. split; [done|].
  split; [|done]. unfold runnable. by rewrite Ed.
Qed.
Lemma EIP155_ok config :
  config_ok config -> signer_ok (NewEIP155Signer (ChainId config)) /\
    forall c m, NewEIP155Signer (ChainId config) = EIP155Signer c m -> 0 <= c < 2 ^ 256.
Proof.
  intros Hc. unfold NewEIP155Signer. destruct (ChainId config) as [c|] eqn:E; cbn [default].
  - specialize (Hc c E). split; [simpl; lia|]. by intros ? ? [= <- _].
  - split; [done|]. by intros ? ? [= <- _].
Qed.

(** ** Taking transactions account by account *)

Implicit Types R : gmap Address (list Transaction).
Definition of_account (a : Address) (picks : list (Address * Transaction)) : list Transaction :=
  (filter (fun p => p.1 = a) picks).*2.
Definition in_order R (picks : list (Address * Transaction)) : Prop :=
  forall a, of_account a picks `sublist_of` default [] (R !! a).

(** [R'] is left of [R] after a look at [x], the first of account [a]. *)
Definition left_after (a : Address) (x : Transaction) R R' : Prop :=
  exists rest l, R !! a = Some (x :: rest) /\ l `sublist_of` rest /\
    (forall b, R' !! b = if decide (b = a) then match l with [] => None | _ => Some l end else R !! b).

Lemma left_delete a x rest R : R !! a = Some (x :: rest) -> left_after a x R (delete a R).
Proof.
  intros H. exists rest, []. split; [done|]. split; [apply sublist_nil_l|]. intros b. case_decide as E; [subst; apply lookup_delete_eq|].
  by rewrite lookup_delete_ne.
Qed.
Lemma left_shift a x rest R :
  R !! a = Some (x :: rest) -> left_after a x R (match rest with [] => delete a R | _ => <[a := rest]> R end).
Proof.
  intros H. exists rest, rest. split; [done|]. split; [done|]. intros b. destruct rest as [|y rest].
  - case_decide as E; [subst; apply lookup_delete_eq|by rewrite lookup_delete_ne].
  - case_decide as E; [subst; apply lookup_insert_eq|by rewrite lookup_insert_ne].
Qed.
Lemma left_total a x R R' : left_after a x R R' -> (total_txs R' < total_txs R)%nat.
Proof.
  intros (rest & l & Hr & Hsub & HR'). apply sublist_length in Hsub. pose proof (total_split R a _ Hr) as Ht. simpl in Ht.
  assert (Ed : delete a R' = delete a R).
  { apply map_eq. intros b. destruct (decide (b = a)) as [->|Hne]; [by rewrite !lookup_delete_eq|].
    rewrite !lookup_delete_ne, HR' by done. by rewrite decide_False. }
  destruct l as [|y l].
  - assert (R' = delete a R) as ->; [|lia]. rewrite <-Ed. symmetry. apply delete_id. by rewrite HR', decide_True.
  - pose proof (total_split R' a (y :: l)) as Ht'. rewrite Ed in Ht'. rewrite Ht' by (by rewrite HR', decide_True). lia.
Qed.
Lemma left_Forall (P : Transaction -> Prop) a x R R' :
  left_after a x R R' -> (forall b l, R !! b = Some l -> Forall P l) -> forall b l, R' !! b = Some l -> Forall P l.
Proof.
  intros (rest & l0 & Hr & Hsub & HR') HP b l. rewrite HR'. case_decide as E; [subst|apply HP].
  destruct l0; [done|]. intros [= <-]. apply HP, Forall_cons in Hr as [_ Hrest].
  rewrite Forall_forall in *. intros y Hy. apply Hrest. by eapply elem_of_sublist.
Qed.
Lemma in_order_skip a x R R' picks : left_after a x R R' -> in_order R' picks -> in_order R picks.
Proof.
  intros (rest & l & Hr & Hsub & HR') H b. specialize (H b). rewrite HR' in H. case_decide as E; [subst|done].
  rewrite Hr. simpl. etransitivity; [exact H|]. apply sublist_cons. destruct l; simpl; [apply sublist_nil_l|done].
Qed.
Lemma in_order_take a x R R' picks : left_after a x R R' -> in_order R' picks -> in_order R ((a, x) :: picks).
Proof.
  intros (rest & l & Hr & Hsub & HR') H b. specialize (H b). rewrite HR' in H. unfold of_account in *. rewrite filter_cons.
  destruct (decide (b = a)) as [->|Hne].
  - rewrite decide_True by done. rewrite Hr. simpl. constructor. etransitivity; [exact H|].
    destruct l; simpl; [apply sublist_nil_l|done].
  - by rewrite decide_False by (simpl; congruence).
Qed.

Definition appended (w w' : Work) (logs : list Log) (picks : list (Address * Transaction)) : Prop :=
  same_block w w' /\ no_mint (cur (abs (wk_state w))) (cur (abs (wk_state w'))) /\
  wk_tcount w' = wk_tcount w + len picks /\
  exists txs rs, wk_txs w' = wk_txs w ++ txs /\ wk_receipts w' = wk_receipts w ++ rs /\
    logs = concat (map r_Logs rs) /\ map tx_data txs = map tx_data picks.*2.
Lemma appended_nil w w' :
  same_block w w' -> no_mint (cur (abs (wk_state w))) (cur (abs (wk_state w'))) -> wk_tcount w' = wk_tcount w ->
  wk_txs w' = wk_txs w -> wk_receipts w' = wk_receipts w -> appended w w' [] [].
Proof.
  intros Hb Hm Ht E1 E2. split; [done|]. split; [done|]. split; [by rewrite Ht, Z.add_0_r|].
  exists [], []. by rewrite !app_nil_r.
Qed.
Lemma appended_trans w1 w2 w3 l1 l2 p1 p2 :
  appended w1 w2 l1 p1 -> appended w2 w3 l2 p2 -> appended w1 w3 (l1 ++ l2) (p1 ++ p2).
Proof.
  intros (Hb & Hm & Ht & txs & rs & E1 & E2 & -> & Ed) (Hb' & Hm' & Ht' & txs' & rs' & E1' & E2' & -> & Ed').
  split; [by eapply same_block_trans|]. split; [by etransitivity|]. split; [rewrite Ht', Ht, len_app; lia|].
  exists (txs ++ txs'), (rs ++ rs'). rewrite E1', E2', E1, E2, !app_assoc. split; [done|]. split; [done|].
  split; [by rewrite map_app, concat_app|]. rewrite map_app, Ed, Ed', <-map_app. f_equal. symmetry. apply fmap_app.
Qed.

(** Setting up a transaction. *)
Lemma prepared_ok gp h ti w :
  work_ok gp w ->
  let w' := wk_set (sd_Prepare h 0%N ti (wk_state w)) (Some gp) (h_GasUsed (wk_header w)) w in
  work_ok gp w' /\ appended w w' [] [].
Proof.
  intros [Hb ? ? ? ? ? ? ?] w'. destruct (Prepare_spec h 0%N ti (wk_state w) Hb) as [Hb' Ew]. split; [by split|].
  apply appended_nil; try done. change (wk_state w') with (sd_Prepare h 0%N ti (wk_state w)). rewrite Ew. by apply no_mint_ext.
Qed.
Lemma counted_ok gp w : work_ok gp w -> work_ok gp (wk_set_tcount (wk_tcount w + 1) w).
Proof. by intros [? ? ? ? ? ? ? ?]; split. Qed.

Lemma step_error_ok err R t x rest :
  pn_ok R t -> pn_Peek t = Some x -> R !! from_of (pn_signer t) x = Some (x :: rest) ->
  exists t' R', step_error err t = Done t' /\ pn_ok R' t' /\ left_after (from_of (pn_signer t) x) x R R'.
Proof.
  intros Hok Hx Hr.
  assert (HP : exists t' R', pn_Pop t = Done t' /\ pn_ok R' t' /\ left_after (from_of (pn_signer t) x) x R R').
  { destruct (pn_ok_Pop R t x rest Hok Hx Hr) as (t' & E & Hok' & _). eexists _, _. split; [done|]. split; [done|].
    by eapply left_delete. }
  assert (HS : exists t' R', pn_Shift t = Done t' /\ pn_ok R' t' /\ left_after (from_of (pn_signer t) x) x R R').
  { destruct (pn_ok_Shift R t x rest Hok Hx Hr) as (t' & E & _ & Hok'). eexists _, _. split; [done|]. split; [done|].
    by apply left_shift. }
  unfold step_error. by destruct err as [|[]].
Qed.

Lemma commit_loop_ok rounds : forall R t gp w,
  pn_ok R t -> (forall a l, R !! a = Some l -> Forall runnable l) -> (total_txs R <= rounds)%nat -> work_ok gp w ->
  exists logs w' gp' picks, commit_loop rounds fuel chain coinbase t gp w = Done (logs, w') /\
    work_ok gp' w' /\ appended w w' logs picks /\ in_order R picks.
Proof.
  induction rounds as [|rounds IH]; intros R t gp w Hok Hrun Htot Hw.
  all: assert (Hstop : exists logs w' gp' picks, Done ([], w) = Done (logs, w') /\ work_ok gp' w' /\ appended w w' logs picks /\ in_order R picks)
    by (exists [], w, gp, []; split; [done|]; split; [done|]; split; [by apply appended_nil; [apply same_block_refl|..]|intros a; apply sublist_nil_l]).
  all: cbn [commit_loop]; destruct (gp <? TxGas); [exact Hstop|]; destruct (pn_Peek t) as [x|] eqn:Ex; [|exact Hstop].
  all: destruct (pn_best R t x Hok Ex) as (rest & Hr & _).
  { pose proof (total_split _ _ _ Hr) as Ht. simpl in Ht. lia. }
  clear Hstop. set (a := from_of (pn_signer t) x) in *. pose proof (Hrun a _ Hr) as [Hx _]%Forall_cons.
  destruct (EIP155_ok _ (wo_config _ _ Hw)) as [Hsg Hid]. rewrite <-(wo_signer _ _ Hw) in Hsg, Hid.
  destruct (runnable_Sender _ x Hsg Hid Hx) as (res & x1 & -> & Hx1 & Ed1). cbn [outcome_bind snd].
  destruct (tx_Protected x1 && _).
  { destruct (pn_ok_Pop R t x rest Hok Ex Hr) as (t' & -> & Hok' & _). cbn [outcome_bind]. fold a in Hok'.
    pose proof (left_delete a x rest R Hr) as Hleft. pose proof (left_total _ _ _ _ Hleft).
    destruct (IH _ t' gp w Hok' (left_Forall _ _ _ _ _ Hleft Hrun) ltac:(lia) Hw) as (logs & w' & gp' & picks & -> & Hw' & Happ & Hord).
    exists logs, w', gp', picks. split; [done|]. split; [done|]. split; [done|]. by eapply in_order_skip. }
  destruct (runnable_Hash x1 Hx1) as (x2 & -> & Hx2 & Ed2). cbn [outcome_bind fst snd].
  destruct (prepared_ok gp (hash_of x1) (wk_tcount w) w Hw) as [Hw1 Happ1]. set (w1 := wk_set _ _ _ w) in *. clearbody w1.
  destruct (commitTransaction_ok x2 gp w1 Hw1 Hx2) as (r & w2 & gp2 & -> & Egp & Hw2 & _ & Hsame & Htc & Hres).
  cbn [outcome_bind]. rewrite Egp. change (default gp (Some gp2)) with gp2. destruct r as [err|logs].
  - destruct (step_error_ok err R t x rest Hok Ex Hr) as (t' & R' & -> & Hok' & Hleft). cbn [outcome_bind]. fold a in Hleft.
    pose proof (left_total _ _ _ _ Hleft). destruct Hres as (E1 & E2 & A).
    assert (Happ2 : appended w1 w2 [] []) by (apply appended_nil; try done; by rewrite A).
    destruct (IH R' t' gp2 w2 Hok' (left_Forall _ _ _ _ _ Hleft Hrun) ltac:(lia) Hw2) as (logs & w' & gp' & picks & -> & Hw' & Happ & Hord).
    exists logs, w', gp', picks. split; [done|]. split; [done|]. split; [|by eapply in_order_skip].
    exact (appended_trans _ _ _ _ _ _ _ Happ1 (appended_trans _ _ _ _ _ _ _ Happ2 Happ)).
  - destruct Hres as (x3 & r & E1 & E2 & Ed3 & -> & Hm). apply counted_ok in Hw2.
    assert (Happ2 : appended w1 (wk_set_tcount (wk_tcount w2 + 1) w2) (r_Logs r) [(a, x)]).
    { split; [done|]. split; [done|]. split; [by rewrite <-Htc|]. exists [x3], [r]. split; [done|]. split; [done|].
      split; [cbn; by rewrite app_nil_r|]. cbn. by rewrite Ed3, Ed2, Ed1. }
    destruct (pn_ok_Shift R t x rest Hok Ex Hr) as (t' & -> & _ & Hok'). cbn [outcome_bind]. fold a in Hok'.
    pose proof (left_shift a x rest R Hr) as Hleft. pose proof (left_total _ _ _ _ Hleft).
    destruct (IH _ t' gp2 _ Hok' (left_Forall _ _ _ _ _ Hleft Hrun) ltac:(lia) Hw2) as (logs & w' & gp' & picks & -> & Hw' & Happ & Hord).
    cbn [outcome_bind fst snd]. exists (r_Logs r ++ logs), w', gp', ((a, x) :: picks). split; [done|]. split; [done|].
    split; [|by eapply in_order_take].
    exact (appended_trans _ _ _ _ _ _ _ Happ1 (appended_trans _ _ _ _ _ _ _ Happ2 Happ)).
Qed.

Lemma commitTransactions_ok rounds R t w :
  pn_ok R t -> (forall a l, R !! a = Some l -> Forall runnable l) -> (total_txs R <= rounds)%nat ->
  wk_gasPool w = None -> h_GasUsed (wk_header w) = 0 -> work_ok (h_GasLimit (wk_header w)) w ->
  exists logs w' gp' picks, commitTransactions rounds fuel chain coinbase t w = Done (logs, w') /\
    work_ok gp' w' /\ appended w w' logs picks /\ in_order R picks.
Proof.
  intros Hok Hrun Htot Egp Eu Hw. pose proof (wo_gp _ _ Hw). unfold commitTransactions, AddGas. rewrite Egp.
  destruct (Z.ltb_spec (MaxUint64 - h_GasLimit (wk_header w)) 0); [lia|].
  rewrite Z.add_0_l, u64_small by (unfold is_u64; lia). cbn [outcome_bind]. set (w1 := wk_set _ _ _ w).
  assert (Hw1 : work_ok (h_GasLimit (wk_header w)) w1) by (destruct Hw; by split).
  destruct (commit_loop_ok rounds R t _ w1 Hok Hrun Htot Hw1) as (logs & w' & gp' & picks & -> & Hw' & Happ & Hord).
  exists logs, w', gp', picks. split; [done|]. split; [done|]. split; [|done].
  apply (appended_trans w w1 w' [] logs [] picks); [|done]. by apply appended_nil.
Qed.

(** ** Uncles *)

Lemma commitUncle_spec u w :
  header_shape u -> len (enc header_t (header_val u)) < 2 ^ 64 ->
  exists err w', commitUncle u w = Done (err, w') /\
    let h := Keccak256Hash (enc header_t (header_val u)) in
    match err with
    | Some _ => w' = w
    | None => (h ∉ wk_uncles w) /\ (h ∉ wk_family w) /\ h_ParentHash u ∈ wk_ancestors w /\ w' = wk_add_uncle h w
    end.
Proof.
  intros Hs Hl. unfold commitUncle. rewrite Header_Hash_spec by done. cbn [outcome_bind].
  repeat case_decide; eexists _, _; (split; [done|]); try done.
Qed.

(** At most two uncles, all different, from the last generations and not in
    the chain or in it as uncles already. *)
(** The works differ in their uncles only. *)
Definition same_work (w w' : Work) : Prop :=
  wk_state w' = wk_state w /\ wk_header w' = wk_header w /\ wk_txs w' = wk_txs w /\ wk_receipts w' = wk_receipts w /\
  wk_tcount w' = wk_tcount w.
Lemma pick_uncles_spec possible : forall uncles bad w,
  Forall encodable possible.*2 -> len uncles <= 2 ->
  exists new bad' w', pick_uncles possible uncles bad w = Done (uncles ++ new, bad ++ bad', w') /\
    len (uncles ++ new) <= 2 /\ new `sublist_of` possible.*2 /\ bad' `sublist_of` possible.*1 /\
    NoDup (map header_id new) /\ same_work w w' /\
    (forall u, u ∈ new -> (header_id u ∉ wk_uncles w) /\ (header_id u ∉ wk_family w) /\ h_ParentHash u ∈ wk_ancestors w).
Proof.
  induction possible as [|[h u] possible IH]; intros uncles bad w He Hl; cbn [pick_uncles].
  { exists [], [], w. rewrite !app_nil_r. split; [done|]. split; [done|]. split; [done|]. split; [done|]. split; [constructor|]. split; [done|].
    by intros u Hu%elem_of_nil. }
  cbn [fmap list_fmap snd fst] in *. apply Forall_cons in He as [[Hs Hlen] He].
  destruct (Z.eqb_spec (len uncles) 2) as [E|E].
  { exists [], [], w. rewrite !app_nil_r. split; [done|]. split; [done|]. split; [apply sublist_nil_l|]. split; [apply sublist_nil_l|].
    split; [constructor|]. split; [done|]. by intros v Hv%elem_of_nil. }
  destruct (commitUncle_spec u w Hs Hlen) as (err & w1 & -> & Herr). cbn [outcome_bind]. cbv zeta in Herr.
  destruct err as [err|].
  - subst w1. destruct (IH uncles (bad ++ [h]) w He Hl) as (new & bad' & w' & -> & H1 & H2 & H3 & H4 & H6 & H5).
    exists new, (h :: bad'), w'. rewrite <-app_assoc. split; [done|]. split; [done|]. split; [by apply sublist_cons|].
    split; [by constructor|]. done.
  - destruct Herr as (Hu & Hf & Ha & ->). fold (header_id u) in *.
    destruct (IH (uncles ++ [u]) bad (wk_add_uncle (header_id u) w) He) as (new & bad' & w' & -> & H1 & H2 & H3 & H4 & H6 & H5).
    { rewrite len_app. change (len [u]) with 1. lia. }
    exists (u :: new), bad', w'. rewrite <-app_assoc in *. split; [done|]. split; [done|]. split; [by constructor|].
    split; [by apply sublist_cons|]. split.
    + cbn [map]. apply NoDup_cons. split; [|done]. intros (v & Ev & Hv)%list_elem_of_fmap. apply H5 in Hv as (Hv & _).
      cbn [wk_uncles wk_add_uncle] in Hv. apply Hv, elem_of_union_l. rewrite <-Ev. by apply elem_of_singleton.
    + split; [exact H6|]. intros v [->|Hv]%elem_of_cons; [done|]. destruct (H5 v Hv) as (Hv1 & ? & ?). split; [|done].
      cbn [wk_uncles wk_add_uncle] in Hv1. intros Hin. by apply Hv1, elem_of_union_r.
Qed.

(** ** Ancestors *)

Lemma header_hashes_done l : Forall encodable l -> header_hashes l = Done (map header_id l).
Proof.
  induction 1 as [|h l [Hs Hl] _ IH]; [done|]. cbn [header_hashes]. rewrite Header_Hash_spec by done. cbn [outcome_bind]. by rewrite IH.
Qed.
Lemma collect_family_spec ancs : forall A F, Forall encodable_block ancs ->
  exists A' F', collect_family ancs A F = Done (A', F') /\
    (forall h, h ∈ A' <-> h ∈ A \/ h ∈ map block_id ancs) /\
    (forall h, h ∈ F' <-> h ∈ F \/ h ∈ map block_id ancs \/ exists b u, b ∈ ancs /\ u ∈ b_uncles b /\ h = header_id u).
Proof.
  induction ancs as [|b ancs IH]; intros A F H; cbn [collect_family].
  { exists A, F. split; [done|]. cbn [map]. setoid_rewrite elem_of_nil. split; [tauto|]. intros h. split; [tauto|].
    intros [?|[[]|(b & _ & [] & _)]]. done. }
  apply Forall_cons in H as [Hb H]. pose proof Hb as (_ & Hu & _). rewrite header_hashes_done by done. cbn [outcome_bind].
  destruct (Block_Hash_id b Hb) as (b' & ->). cbn [outcome_bind fst].
  destruct (IH ({[block_id b]} ∪ A) ({[block_id b]} ∪ (list_to_set (map header_id (b_uncles b)) ∪ F)) H) as (A' & F' & -> & HA & HF).
  exists A', F'. split; [done|]. cbn [map]. setoid_rewrite elem_of_cons. split; intros h.
  - rewrite HA, elem_of_union, elem_of_singleton. tauto.
  - rewrite HF, !elem_of_union, elem_of_singleton, elem_of_list_to_set, list_elem_of_fmap. split.
    + intros [[?|[(u & -> & ?)|?]]|[?|(b0 & u & ? & ? & ->)]]; eauto 8.
    + intros [?|[[?|?]|(b0 & u & [->|?] & ? & ->)]]; eauto 8.
Qed.
End Facts.
