(* ===== verification/BlockSample.v ===== *)
(** A concrete block: a transfer, signed by key 5, on a state in which the
    account of the key has money. *)
From S2P Require Import Prelude BigMath Params Machine StateSpec Supply StateRel Vm PrecompileFacts CallFacts StateObject Statedb.
From S2P Require Import StateFinal StateUndo StateRefine StateRevert StateFinalFacts Sample StateTheorems StateTransition.
From S2P Require Import TransitionFacts Rlp RlpDecode RlpFacts RlpTyped Transaction TxFacts SignTheorems TxPriced TxByPrice VmTheorems PoolSample.
From S2P Require Import BlockTypes BlockFacts Process ProcessFacts Miner.

#[export] Existing Instance toy_ecdsa_spec.
Lemma toy_collision_free : collision_free.
Proof. exact sample_collision_free. Qed.

(** A trie whose root is the hash of what was put into it, and an engine
    that pays five coins for a block. *)
#[export] Instance sample_merkle : MerkleTrie :=
  {| Trie := bytes; Trie_new := []; Trie_Update k v t := t ++ k ++ v; Trie_Hash := sample_hash |}.
#[export] Instance sample_engine : Engine Statedb :=
  {| engineError := unit;
     engine_Author := h_Coinbase;
     engine_VerifyUncles _ := None;
     engine_Prepare h := inr h;
     engine_Finalize h txs us _ s := (inr (mkBlock h us txs None None), h, sd_AddBalance (h_Coinbase h) 5 s) |}.

Definition sample_config : ChainConfig := MainnetChainConfig.
Definition transfer : Transaction := NewTransaction 0 0x1234%N (Some 10) 21000 (Some 2) [].
Definition sample_signer : Signer := NewEIP155Signer (ChainId sample_config).
Definition signed_transfer : Transaction :=
  Eval vm_compute in match SignTx transfer sample_signer 5 with Done (inr tx) => tx | _ => transfer end.
Lemma signed_transfer_signed : SignTx transfer sample_signer 5 = Done (inr signed_transfer).
Proof. vm_compute. reflexivity. Qed.
Definition sample_header : Header :=
  {| h_ParentHash := 7%N; h_UncleHash := 0%N; h_Coinbase := 9%N; h_Root := 0%N; h_TxHash := 0%N; h_ReceiptHash := 0%N;
     h_Bloom := zeros 256; h_Difficulty := 1; h_Number := 8; h_GasLimit := 50000; h_GasUsed := 0; h_Time := 100;
     h_Extra := []; h_MixDigest := 0%N; h_Nonce := zeros 8 |}.
Definition sample_block : Block := mkBlock sample_header [] [signed_transfer] None None.
Definition rich_state : Statedb := sd_AddBalance 5%N 1000000 sample_new.

Lemma empty_state_ok : state_ok Keccak256Hash sample_new.
Proof.
  split; [apply sd_New_inv|]. split; [|by constructor]. split; [|done]. intros a. simpl.
  assert (E : acct_of sample_new a = None) by reflexivity.
  unfold w_balance, w_code, w_codehash. simpl. rewrite E. simpl. unfold len. simpl. split; [lia|]. split; [lia|by left].
Qed.
Lemma funded_ok a x : 0 <= x -> state_ok Keccak256Hash (AddBalance a x sample_new).
Proof.
  intros Hx. apply (AddBalance_ok Keccak256Hash a x sample_new empty_state_ok).
  assert (E : w_balance (cur (abs sample_new)) a = 0) by reflexivity. rewrite E. lia.
Qed.
Lemma rich_between : between rich_state.
Proof. split; [by apply funded_ok|]. vm_compute. reflexivity. Qed.
Lemma sample_header_ok : header_ok sample_header.
Proof. by split. Qed.
Lemma signed_transfer_ok : td_ok (tx_data signed_transfer).
Proof. split; try done. intros a [= <-]. done. Qed.
Lemma sample_block_ok : block_ok sample_block.
Proof. split; [apply sample_header_ok|]. split; [|constructor]. constructor; [apply signed_transfer_ok|constructor]. Qed.
Definition sample_wire : bytes := Eval vm_compute in enc extblock_t (extblock_val sample_block).
Definition sample_chain : ChainContext :=
  {| cc_GetHeader _ _ := None; cc_HasBlock _ _ := true; cc_HasBlockAndState h n := n =? 7 |}.
(** The sample header, its parent, and no other. *)
Definition two_headers : ChainContext :=
  {| cc_GetHeader h n :=
       if decide (h = 7%N /\ n = 7) then
         Some {| h_ParentHash := 6%N; h_UncleHash := 0%N; h_Coinbase := 9%N; h_Root := 0%N; h_TxHash := 0%N; h_ReceiptHash := 0%N;
                 h_Bloom := zeros 256; h_Difficulty := 1; h_Number := 7; h_GasLimit := 50000; h_GasUsed := 0; h_Time := 90;
                 h_Extra := []; h_MixDigest := 0%N; h_Nonce := zeros 8 |}
       else None;
     cc_HasBlock _ _ := false; cc_HasBlockAndState _ _ := false |}.
Definition big_header : Header :=
  {| h_ParentHash := 7%N; h_UncleHash := 0%N; h_Coinbase := 9%N; h_Root := 0%N; h_TxHash := 0%N; h_ReceiptHash := 0%N;
     h_Bloom := zeros 256; h_Difficulty := 1; h_Number := 8; h_GasLimit := 600000; h_GasUsed := 300000; h_Time := 100;
     h_Extra := []; h_MixDigest := 0%N; h_Nonce := zeros 8 |}.
