(* ===== verification/BlockTheorems.v ===== *)
(** Blocks: the theorems on core/types, core/state_processor.go,
    core/block_validator.go, core/evm.go and miner/worker.go. *)
From Stdlib Require Import String.
From S2P Require Import Prelude BigMath Params Machine StateSpec Supply StateRel Vm PrecompileFacts CallFacts StateObject Statedb.
From S2P Require Import StateFinal StateUndo StateRefine StateRevert StateFinalFacts Sample StateTheorems StateTransition.
From S2P Require Import TransitionFacts Rlp RlpDecode RlpFacts RlpTyped Transaction TxFacts SignTheorems TxPriced TxByPrice.
From S2P Require Import VmTheorems Heap TxList TxPool PoolInv PoolAdd PoolHead PoolOps PoolState PoolSample PoolTheorems BlockTypes BlockFacts Process ProcessFacts Miner BlockSample.

(** ** Sizes of the parts of a block *)

Lemma extblock_parts blk b :
  encodes extblock_t (extblock_val blk) b ->
  len (enc header_t (header_val (b_header blk))) < len b /\
  forall tx, tx ∈ b_transactions blk -> len (tx_enc (tx_data tx)) < len b.
Proof.
  intros (_ & es & HF & ->). cbn [zip_with] in HF.
  do 3 (apply Forall2_cons_inv_l in HF as (? & ? & ? & HF & ->)). apply Forall2_nil_inv_l in HF as ->. unfold id in *.
  rename H into Hh, H0 into Ht. cbn [concat]. pose proof (enc_list_longer (x ++ x1 ++ x0 ++ [])) as Hl. rewrite !len_app in Hl.
  pose proof (len_nonneg x). pose proof (len_nonneg x0). pose proof (len_nonneg x1). change (len []) with 0 in *. split.
  - apply (encodes_unique header_t) in Hh as [_ ->]; [|done|done]. lia.
  - intros tx Htx. destruct Ht as (es & HF & ->). apply list_elem_of_lookup_1 in Htx as [i Hi].
    destruct (Forall2_lookup_l _ _ _ i (tx_val tx) HF) as (e & He & Henc).
    { by rewrite list_lookup_fmap, Hi. }
    destruct (txdata_encodes _ _ Henc) as (d & _ & _ & Ev & El). change (tx_val tx) with (txdata_val (tx_data tx)) in Ev.
    rewrite Ev in El. pose proof (enc_list_longer (concat es)). apply list_elem_of_lookup_2, len_concat_elem in He. lia.
Qed.
Lemma decoded_runnable `{CR : Crypto} blk b :
  len b < 2 ^ 62 -> block_ok blk -> blk = clean_block (Some (len b)) blk -> encodes extblock_t (extblock_val blk) b ->
  block_runnable blk.
Proof.
  intros Hb (Hh & Ht & _) Hc He. destruct (extblock_parts blk b He) as [H1 H2]. split; [done|]. split; [lia|].
  apply Forall_forall. intros tx Hin. pose proof (H2 tx Hin). rewrite Forall_forall in Ht. split; [by apply Ht|]. split; [lia|].
  assert (tx = fresh_tx (tx_data tx)) as ->.
  { rewrite Hc in Hin. cbn [clean_block b_transactions] in Hin. by apply list_elem_of_fmap in Hin as (tx0 & -> & _). }
  done.
Qed.

(** ** Bloom filters *)

Section Blooms.
Context `{CR : Crypto} `{CS : !CryptoSpec}.

(** C20: the filter of receipts never fails to be made, is 256 bytes long and
    has exactly the bits of the addresses and topics of their logs; so a
    lookup of any of them succeeds, and a lookup that succeeds is covered by
    what was logged. *)
Theorem bloom_exact (rs : list Receipt) :
  exists b, CreateBloom rs = Done b /\ length b = 256%nat /\
    (forall x, x ∈ receipts_items rs -> BloomLookup b x = Done true) /\
    (forall x, BloomLookup b x = Done true <->
       forall i, Z.testbit (bloom_num x) i = true -> exists y, y ∈ receipts_items rs /\ Z.testbit (bloom_num y) i = true).
Proof.
  eexists. split; [apply CreateBloom_eq|]. split; [apply length_be_fixed|].
  pose proof (filter_of_in (receipts_items rs)) as Hin. split.
  - intros x Hx. apply BloomLookup_true; [done|]. intros i Hi. apply filter_of_testbit. by exists x.
  - intros x. rewrite BloomLookup_true by done. split; intros H i Hi; apply filter_of_testbit; by apply H.
Qed.

(** Adding a number makes the test for it succeed, and no other test fail. *)
Lemma Bloom_Add_Test (x d : Z) :
  in_bloom x -> exists b', Bloom_Add d (be_fixed 256 x) = Done b' /\ Bloom_Test b' d = Done true /\
    forall t, Bloom_Test (be_fixed 256 x) t = Done true -> Bloom_Test b' t = Done true.
Proof.
  intros Hx. eexists. split; [by apply Bloom_Add_eq|].
  assert (Hl : in_bloom (Z.lor x (bloom_num (big_Bytes d)))) by (apply in_bloom_lor; [done|apply bloom_num_in]).
  unfold Bloom_Test. split; [apply BloomLookup_true; [done|]; intros i Hi; by rewrite Z.lor_spec, Hi, orb_true_r|].
  intros t. rewrite !BloomLookup_true by done. intros H i Hi. by rewrite Z.lor_spec, H.
Qed.
(** [TestBytes] goes through a number, and drops leading zeros: it cannot
    tell a topic from the same bytes with zeros in front. *)
Lemma TestBytes_strips (b : Bloom) (x : bytes) : Bloom_TestBytes b (Byte.x00 :: x) = Bloom_TestBytes b x.
Proof. done. Qed.
End Blooms.

(** ** Encodings *)

(** C13: encoding a block and decoding it gives the block back, with its size
    and without the other caches; and decoding always ends, without a panic,
    and accepts exactly the encodings of well-formed blocks. *)
Theorem block_wire (blk : Block) (b : bytes) :
  block_ok blk -> len (enc extblock_t (extblock_val blk)) < 2 ^ 63 -> len b < 2 ^ 63 ->
  (exists e, EncodeBlock blk = Done (inr e) /\ DecodeBlock e = Done (inr (clean_block (Some (len e)) blk))) /\
  exists res, DecodeBlock b = Done res /\
    forall blk', res = inr blk' <->
      block_ok blk' /\ blk' = clean_block (Some (len b)) blk' /\ encodes extblock_t (extblock_val blk') b.
Proof.
  intros Hok Hl Hb. split; [|by apply DecodeBlock_spec]. set (e := enc extblock_t (extblock_val blk)) in *.
  assert (Ht : has_type extblock_t (extblock_val blk)).
  { rewrite <-(clean_block_val None), extblock_val_body. exact (codec_type _ _ _ _ extblock_codec _ (clean_block_ok None blk Hok)). }
  exists e. split; [apply EncodeToBytes_spec; [done|fold e; lia]|]. destruct (DecodeBlock_spec e Hl) as (res & -> & H). f_equal.
  apply H. split; [|split].
  - destruct Hok as (Hh & Htx & Hu). split; [done|]. split; [|done]. cbn. apply Forall_map. by eapply Forall_impl; [exact Htx|].
  - unfold clean_block. cbn [b_header b_uncles b_transactions]. rewrite map_map. reflexivity.
  - rewrite clean_block_val. by apply enc_encodes.
Qed.

Lemma block_wire_witness :
  (exists e, EncodeBlock sample_block = Done (inr e) /\ DecodeBlock e = Done (inr (clean_block (Some (len e)) sample_block))) /\
  exists res, DecodeBlock sample_wire = Done res /\
    forall blk', res = inr blk' <->
      block_ok blk' /\ blk' = clean_block (Some (len sample_wire)) blk' /\ encodes extblock_t (extblock_val blk') sample_wire.
Proof. apply (block_wire sample_block sample_wire); [apply sample_block_ok| |]; vm_compute; reflexivity. Defined.

(** C21: a receipt comes back from its two encodings, up to what they leave
    out: the place of the logs and the fields outside of consensus in the
    one, and in both the status if there is a state root. *)
Theorem receipt_wire (r : Receipt) :
  receiptStorage_ok r -> len (enc receipt_t (receipt_val r)) < 2 ^ 63 ->
  len (enc receiptStorage_t (receiptStorage_val r)) < 2 ^ 63 ->
  (exists e, EncodeReceipt r = Done (inr e) /\ DecodeReceipt e = Done (inr (consensus_part r))) /\
  (exists e, EncodeReceiptForStorage r = Done (inr e) /\ DecodeReceiptForStorage e = Done (inr (storage_part r))).
Proof.
  intros H Hl1 Hl2. pose proof H as (H1 & _). split; apply roundtrip_into; try done.
  - destruct H1 as (_ & ? & ? & _). by apply receipt_has_type.
  - by apply receipt_of_val_spec.
  - by apply receiptStorage_has_type.
  - by apply receiptStorage_of_val_spec.
Qed.

Definition sample_log : Log :=
  {| log_Address := 7%N; log_Topics := [1%N; 2%N]; log_Data := [Byte.x05]; log_BlockNumber := 8; log_TxHash := 3%N; log_TxIndex := 0;
     log_BlockHash := 4%N; log_Index := 1 |}.
Definition sample_receipt : Receipt :=
  mkReceipt [] ReceiptStatusSuccessful 21000 (zeros 256) [sample_log] 3%N 0%N 21000.
Lemma sample_receipt_ok : receiptStorage_ok sample_receipt.
Proof. split; [split; [left; by split; [|right]|]|]; by repeat (split || constructor). Qed.
Lemma receipt_wire_witness :
  (exists e, EncodeReceipt sample_receipt = Done (inr e) /\ DecodeReceipt e = Done (inr (consensus_part sample_receipt))) /\
  (exists e, EncodeReceiptForStorage sample_receipt = Done (inr e) /\ DecodeReceiptForStorage e = Done (inr (storage_part sample_receipt))).
Proof. apply (receipt_wire sample_receipt); [apply sample_receipt_ok| |]; vm_compute; reflexivity. Defined.

Lemma bloom_exact_witness :
  exists b, CreateBloom [sample_receipt] = Done b /\ length b = 256%nat /\
    (forall x, x ∈ receipts_items [sample_receipt] -> BloomLookup b x = Done true) /\
    (forall x, BloomLookup b x = Done true <->
       forall i, Z.testbit (bloom_num x) i = true ->
         exists y, y ∈ receipts_items [sample_receipt] /\ Z.testbit (bloom_num y) i = true).
Proof. exact (bloom_exact [sample_receipt]). Defined.

(** A status next to a state root is not in the encoding: the receipt comes
    back as failed. *)
Lemma receipt_status_lost :
  exists e, EncodeReceiptForStorage (r_set_status (zeros 32) ReceiptStatusSuccessful sample_receipt) = Done (inr e) /\
    exists r, DecodeReceiptForStorage e = Done (inr r) /\ r_Status r = ReceiptStatusFailed.
Proof. eexists. split; [vm_compute; reflexivity|]. eexists. split; vm_compute; reflexivity. Qed.

(** ** Hashes of ancestors *)

(** The calls of the function that [GetHashFn] returns. *)
Fixpoint hash_calls (ref : Header) (chain : ChainContext) (ns : list Z) (cache : option (gmap Z Hash))
  : outcome (list Hash * option (gmap Z Hash)) :=
  match ns with
  | [] => Done ([], cache)
  | n :: ns =>
      let* r := GetHashFn_call (hash_fuel ref) ref chain n cache in
      let* rs := hash_calls ref chain ns r.2 in Done (r.1 :: rs.1, rs.2)
  end.

(** C22: the function that looks up block hashes for the BLOCKHASH instruction
    ends on every number, and whatever it has cached in earlier calls its
    answers are those of a search through the ancestors of the block: the
    parent hash in the header of the next number, or zero. *)
Theorem GetHashFn_cached (ref : Header) (chain : ChainContext) (ns : list Z) :
  headers_ok chain -> 0 <= NumberU64 ref < two64 ->
  exists cache, hash_calls ref chain ns None = Done (map (GetHashFn ref chain) ns, cache) /\
    forall n, GetHashFn ref chain n = hash_in n (ancestors chain ref).
Proof.
  intros HC Href. assert (H : forall ns cache, cache_agrees chain ref cache ->
    exists cache', hash_calls ref chain ns cache = Done (map (GetHashFn ref chain) ns, cache')).
  { clear ns. induction ns as [|n ns IH]; intros cache Hc; simpl; [by eexists|].
    destruct (GetHashFn_call_spec chain HC ref Href n cache Hc) as (c & -> & Hc'). cbn [outcome_bind fst snd].
    destruct (IH c Hc') as (c' & ->). cbn [outcome_bind fst snd]. rewrite (GetHashFn_spec chain HC ref Href). by eexists. }
  destruct (H ns None) as (c & E); [done|]. exists c. split; [done|]. by apply GetHashFn_spec.
Qed.

Lemma GetHashFn_cached_witness :
  exists cache, hash_calls sample_header two_headers [6; 7; 5; 9; 6] None = Done (map (GetHashFn sample_header two_headers) [6; 7; 5; 9; 6], cache) /\
    forall n, GetHashFn sample_header two_headers n = hash_in n (ancestors two_headers sample_header).
Proof.
  apply (GetHashFn_cached sample_header two_headers [6; 7; 5; 9; 6]); [|done]. intros h n hd. unfold two_headers. cbn [cc_GetHeader].
  destruct (decide _) as [[-> ->]|_]; [|done]. by intros [= <-].
Defined.

(** ** Gas limits *)

(** C29: the gas limit that a miner gives the next block is one that the rules
    accept: not below the minimum, and less than a 64th of the limit of the
    parent away from it, whatever the target. *)
Theorem CalcGasLimit_accepted (target : Z) (parent : Header) :
  MinGasLimit <= h_GasLimit parent < 2 ^ 62 -> 0 <= h_GasUsed parent <= h_GasLimit parent -> is_u64 target ->
  MinGasLimit <= CalcGasLimit target parent /\
  Z.abs (CalcGasLimit target parent - h_GasLimit parent) < h_GasLimit parent / GasLimitBoundDivisor.
Proof. apply CalcGasLimit_bounds. Qed.

Lemma CalcGasLimit_accepted_witness :
  MinGasLimit <= CalcGasLimit GenesisGasLimit big_header /\
  Z.abs (CalcGasLimit GenesisGasLimit big_header - h_GasLimit big_header) < h_GasLimit big_header / GasLimitBoundDivisor.
Proof. apply (CalcGasLimit_accepted GenesisGasLimit big_header); vm_compute; split; congruence. Defined.

(** ** Processing and validation *)

Section Blocks.
Context `{CR : Crypto} `{CS : !CryptoSpec} `{EC : Ecdsa} `{ES : !EcdsaSpec} `{MT : MerkleTrie}.
Context `{DB : Database} {DS : DatabaseSpec} {TS : TrieSpec} {RO : RangeOrder} `{EN : !Engine Statedb}.

(** C10: whatever bytes a peer sends as a block, decoding them ends; and
    whatever block comes out, processing it on a state ends without a panic,
    if its gas limit is below 2^62.
    If it is accepted there is a receipt for every transaction, with its
    hash, its share of the gas and the sum so far, and the sum is the gas
    used and within the limit; no money has been created when the engine gets
    to pay its rewards. *)
Theorem process_wire (fuel : nat) (config : ChainConfig) (chain : ChainContext) (cfg : vmConfig) (b : bytes) (s : Statedb) :
  collision_free -> config_ok config -> between s -> len b < 2 ^ 62 ->
  exists res, DecodeBlock b = Done res /\
    forall blk, res = inr blk -> h_GasLimit (b_header blk) < 2 ^ 62 -> h_GasLimit (b_header blk) < Z.of_nat fuel ->
    exists out blk' s', Process fuel config chain blk s cfg = Done (out, blk', s') /\
      b_header blk' = b_header blk /\ map tx_data (b_transactions blk') = map tx_data (b_transactions blk) /\
      match out with
      | inl _ => no_mint (cur (abs s)) (cur (abs s'))
      | inr (rs, logs, used) =>
          receipts_of 0 (b_transactions blk) rs /\ logs = concat (map r_Logs rs) /\
          used = gas_of rs /\ used <= h_GasLimit (b_header blk) /\
          exists s1, between s1 /\ no_mint (cur (abs s)) (cur (abs s1)) /\
            s' = (engine_Finalize (b_header blk) (b_transactions blk') (b_uncles blk) rs s1).2
      end.
Proof.
  intros Hfree Hcfg Hs Hb. destruct (DecodeBlock_spec b ltac:(lia)) as (res & -> & Hres). exists res. split; [done|].
  intros blk (Hok & Hc & He)%Hres Hg Hf. pose proof (decoded_runnable blk b Hb Hok Hc He) as Hrun.
  destruct (Process_ok fuel config chain blk s cfg Hfree Hcfg Hrun Hs Hg Hf) as (out & blk' & s' & E & Eh & _ & Ed & Hout).
  exists out, blk', s'. split; [done|]. split; [done|]. split; [done|]. destruct out as [err|[[rs logs] used]]; [|done].
  by destruct Hout.
Qed.






End Blocks.

(** ** From the pool to the next block *)

Section Mining.
Context `{CR : Crypto} `{CS : !CryptoSpec} `{EC : Ecdsa} `{ES : !EcdsaSpec} `{MT : MerkleTrie}.
Context `{DB : Database} {DS : DatabaseSpec} {TS : TrieSpec} {RO : RangeOrder} {SO : SortOrder} `{EN : !Engine Statedb}.
Context {S M : Type} {PC : PoolChain S M} {PS : PoolChainSpec S M}.
Implicit Types (pool : TxPool (S := S) (M := M)) (mw : worker) (w : Work).





End Mining.

Lemma sample_config_ok : config_ok sample_config.
Proof. by intros c [= <-]. Qed.
Lemma process_wire_witness :
  exists res, DecodeBlock sample_wire = Done res /\
    forall blk, res = inr blk -> h_GasLimit (b_header blk) < 2 ^ 62 -> h_GasLimit (b_header blk) < Z.of_nat sample_fuel ->
    exists out blk' s', Process sample_fuel sample_config sample_chain blk rich_state (mkVmConfig false false) = Done (out, blk', s') /\
      b_header blk' = b_header blk /\ map tx_data (b_transactions blk') = map tx_data (b_transactions blk) /\
      match out with
      | inl _ => no_mint (cur (abs rich_state)) (cur (abs s'))
      | inr (rs, logs, used) =>
          receipts_of 0 (b_transactions blk) rs /\ logs = concat (map r_Logs rs) /\
          used = gas_of rs /\ used <= h_GasLimit (b_header blk) /\
          exists s1, between s1 /\ no_mint (cur (abs rich_state)) (cur (abs s1)) /\
            s' = (engine_Finalize (b_header blk) (b_transactions blk') (b_uncles blk) rs s1).2
      end.
Proof.
  apply (process_wire sample_fuel sample_config sample_chain (mkVmConfig false false) sample_wire rich_state
           toy_collision_free sample_config_ok rich_between). vm_compute. reflexivity.
Defined.
(** The sample block is accepted. *)
Lemma sample_block_accepted :
  match Process sample_fuel sample_config sample_chain sample_block rich_state (mkVmConfig false false) with
  | Done (inr (rs, _, used), _, _) => map r_Status rs = [ReceiptStatusSuccessful] /\ used = 21000
  | _ => False
  end.
Proof. vm_compute. split; reflexivity. Qed.


(** The next block on top of [mine_parent], from the three transactions of
    [sample_pool1] and an uncle. *)
Definition mine_fuel : nat := Z.to_nat 1200001.
Definition mine_state : Statedb := SetNonce 5%N 5 (AddBalance 5%N 10000000 sample_new).
Definition mine_parent : Block := mkBlock big_header [] [] None None.
Definition mine_uncle : Block :=
  mkBlock {| h_ParentHash := block_id mine_parent; h_UncleHash := 0%N; h_Coinbase := 8%N; h_Root := 0%N; h_TxHash := 0%N;
             h_ReceiptHash := 0%N; h_Bloom := zeros 256; h_Difficulty := 1; h_Number := 9; h_GasLimit := 600000; h_GasUsed := 0;
             h_Time := 110; h_Extra := []; h_MixDigest := 0%N; h_Nonce := zeros 8 |} [] [] None None.
(** Two agents, one of which has a channel, and a block that is waiting for
    its confirmation. *)
Definition mine_worker : worker :=
  {| mw_config := pool_chainconfig; mw_pbft := true; mw_coinbase := 9%N; mw_extra := []; mw_mining := true; mw_atWork := 0;
     mw_agents := {[1%N := Some []; 2%N := None]}; mw_possibleUncles := {[1%N := mine_uncle]};
     mw_unconfirmed := [mkUnconfirmed 2 77%N; mkUnconfirmed 8 78%N]; mw_current := None; mw_snapshotBlock := None; mw_snapshotState := None |}.
(** A wallet with the key of account 9. *)
Definition mine_wallet : Wallet :=
  mkWallet [9%N] (fun a tx id =>
    match SignTx tx (NewEIP155Signer id) 9 with
    | Done (inr tx') => if decide (0 <= tx_Nonce tx' < 2 ^ 64 - 1) then Some tx' else None
    | _ => None
    end).
(** All of them are in the block; the agent has the work, and the old block is
    no longer waited for. *)
Lemma mine_all :
  match commitNewWork mine_fuel sample_chain GenesisGasLimit 200 (2 ^ 40) mine_parent (Some mine_state) [mine_parent]
      [mine_wallet] sample_pool1 mine_worker with
  | Done (None, _, mw) =>
      match mw_current mw with
      | Some w => map (fun tx => td_AccountNonce (tx_data tx)) (wk_txs w) = [5; 6; 7] /\
          option_map b_uncles (wk_Block w) = Some [b_header mine_uncle]
      | None => False
      end /\ mw_atWork mw = 2 /\ map ub_index (mw_unconfirmed mw) = [8]
  | _ => False
  end.
Proof. vm_compute. by repeat split. Qed.
(** The data of a confirmation. *)
Example confirm_data_123 : confirm_data 123 = String.list_byte_of_string "ufo:1:event:confirm:123"%string.
Proof. vm_compute. reflexivity. Qed.

(** ** Divergences *)

(** A block without receipts keeps the filter that its header came with. *)
Lemma NewBlock_keeps_bloom `{CR : Crypto} `{MT : MerkleTrie} (h : Header) (txs : list Transaction) (us : list Header) (blk : Block) :
  NewBlock h txs us [] = Done blk -> h_Bloom (b_header blk) = h_Bloom h.
Proof.
  unfold NewBlock. destruct (if len txs =? 0 then _ else _) as [th| |]; try done. cbn [outcome_bind].
  change (len (@nil Receipt) =? 0) with true. cbv iota. destruct EmptyRootHash as [root| |]; try done. cbn [outcome_bind fst snd].
  destruct (if len us =? 0 then _ else _) as [uh| |]; try done. by intros [= <-].
Qed.

(** A transaction whose sender can pay for the gas but not for the transfer:
    [commitTransaction] puts the state back, but its gas stays taken from the
    pool of the block. *)
Definition poor_state : Statedb := sd_AddBalance 5%N 42005 sample_new.
Lemma commitTransaction_keeps_gas :
  match commitTransaction sample_fuel sample_chain 9%N signed_transfer 50000
          (mkWork sample_config sample_signer poor_state ∅ ∅ ∅ 0 None sample_header [] [] None) with
  | Done (inl _, w) => wk_txs w = [] /\ wk_gasPool w = Some 29000 /\ (sd_GetBalance 5%N (wk_state w)).1 = 42005
  | _ => False
  end.
Proof. vm_compute. repeat split. Qed.
